(* ===== verification/_CoqProject ===== *)
-Q . S2P
Prelude.v
BaseTimestamp.v
NetTimerQueue.v
Endian.v
BaseStringPiece.v
NetBuffer.v
NetChannel.v
NetPoller.v
NetEPoll.v
NetPoll.v
NetDefaultPoller.v
NetEventLoop.v
NetTcpConnection.v
NetEventLoopThreadPool.v
NetAcceptor.v
NetTcpServer.v
NetHttpRequest.v
NetHttpContext.v
NetHttpResponse.v
NetHttpServer.v
NetProtobufCodec.v
NetProtobufCodecT.v
NetCodecStream.v
BaseLogStream.v
NetConnector.v
BaseDate.v
BaseMonitor.v
BaseBlockingQueue.v
BaseBoundedBlockingQueue.v
BaseCountDownLatch.v
BaseThreadPool.v
BaseThread.v
NetEventLoopThread.v
BaseFileUtil.v
BaseFileStreams.v
BaseLogFile.v
BaseAsyncLogging.v
BaseTimeZone.v
BaseLogging.v
BaseLogger.v
NetTcpClient.v
NetInspector.v
NetFavicon.v
NetInetAddress.v
NetRpcChannel.v
NetRpcWorld.v
BaseDouble.v
BaseProcessInfo.v
BaseException.v
BaseGzipFile.v
BaseWeakCallback.v
NetProcInspector.v
NetPerformanceInspector.v
NetInspectorObject.v
BaseFormat.v
NetZlibStream.v
NetBufferStream.v
NetLoopTimers.v
BaseCondition.v
BaseSingleton.v
BaseThreadLocal.v
BaseThreadLocalSingleton.v
NetSocket.v
NetTcpObject.v
UnitTests.v
