(* ===== verification/Prelude.v ===== *)
(** * A verification of muduo, a reactor-style network library in C++

    ** The program

    muduo runs one [EventLoop] per thread.  A loop asks a [Poller] (epoll(4) or
    poll(2)) which descriptors are ready, hands each event to the [Channel] of
    the descriptor, and then runs the functors other threads have queued.
    Timers are a [TimerQueue] behind one descriptor of the loop.  An [Acceptor]
    takes connections off a listening socket, a [Connector] makes outgoing
    ones; [TcpServer] gives each accepted socket to a loop of an
    [EventLoopThreadPool] as a [TcpConnection], which moves bytes between the
    socket and two [Buffer]s and reports to the user's callbacks; [TcpClient]
    does the same for one outgoing connection.  On top of this stand an HTTP
    server, an inspector of the running process served by it, a framing of
    protobuf messages, and remote procedure calls over that framing.  Below it stand time stamps, dates, time zones, string
    pieces; threads, locks and the queues and pools made of them; and logging:
    a statement composes its line in a [LogStream], and an [AsyncLogging] passes
    lines from all threads to one that writes them to a [LogFile].

    ** Conventions (this file)

    A C++ call that can stop short is a function into [outcome]: a failed
    [assert] of a debug build, a fatal log line, an exception of the standard
    library and undefined behaviour (a read or write out of bounds, a null or
    deleted object) are distinct faults.  "No assertion fails" therefore also
    means that no undefined behaviour occurs.  [ok_or_throw] allows one fault
    only, [std::length_error] or [std::bad_alloc] of a growing vector.
    Integers are [Z] with explicit wrap-around ([u64], [i32], ...); bytes are
    [Z] in 0..255 and strings lists of them; objects shared by pointer live in
    a heap, a [gmap] from addresses.  User callbacks are scripts of calls on
    the object, chosen from the state they find, so that they can re-enter it.
    What the kernel or a third-party library answers is a parameter or an
    argument of the step; the laws assumed of it are named hypotheses.  This
    file also has the hint database [muduo] and the tactics of the other files.

    ** Files, in dependency order

    - BaseTimestamp: base/Timestamp.{h,cc}.  Microseconds in [int64_t]; doubles
      by the executable IEEE specification of the Standard Library.
    - NetTimerQueue: net/Timer.{h,cc}, TimerId.h, TimerQueue.{h,cc}.
    - Endian: net/Endian.h, for either byte order of the host.
    - BaseStringPiece: base/StringPiece.h.
    - NetBuffer: net/Buffer.{h,cc}.
    - NetChannel: net/Channel.{h,cc}, state and event dispatch.
    - NetPoller: net/Poller.{h,cc} and the registration calls of Channel: the
      class [PollerOps] with its specification [PollerSpec].
    - NetEPoll, NetPoll: net/poller/EPollPoller.cc and PollPoller.cc, the two
      instances; NetDefaultPoller: net/poller/DefaultPoller.cc, the choice
      between them as a third.
    - NetEventLoop: net/EventLoop.{h,cc}, interleaved with other threads.
    - NetTcpConnection: net/TcpConnection.{h,cc}, the state machine;
      NetTcpObject: the object around it, with its socket, context and callbacks.
    - NetEventLoopThreadPool: net/EventLoopThreadPool.{h,cc}.
    - NetAcceptor: net/Acceptor.{h,cc} and accept of net/SocketsOps.cc.
    - NetTcpServer: net/TcpServer.{h,cc}.
    - NetHttpRequest, NetHttpContext, NetHttpResponse, NetHttpServer: net/http.
    - NetProtobufCodec: net/protobuf/ProtobufCodecLite.{h,cc};
      NetProtobufCodecT: the codec for one message type, ProtobufCodecLiteT;
      NetCodecStream: two TcpConnections that talk through the codec.
    - BaseLogStream: base/LogStream.{h,cc}.
    - NetConnector: net/Connector.{h,cc}.
    - BaseDate: base/Date.{h,cc}.
    - BaseMonitor: base/Mutex.h and Condition.h: threads that call the
      operations of a monitor, as interleaved steps, and the class [Monitor]
      with a criterion by which no wake-up is lost.
    - BaseBlockingQueue, BaseBoundedBlockingQueue, BaseCountDownLatch,
      BaseThreadPool: the monitors of base/, as instances of [Monitor].
    - BaseThread: base/Atomic.h, CurrentThread.{h,cc} and Thread.{h,cc}, over
      the latch of BaseCountDownLatch; BaseException: base/Exception.{h,cc},
      stack traces, and the exception handlers of Thread.cc and ThreadPool.cc.
    - NetEventLoopThread: net/EventLoopThread.{h,cc}.
    - BaseFileUtil: the loops of base/FileUtil.{h,cc}, over a class [Stdio] of
      streams; BaseFileStreams: its two objects from open to close, over a class
      [Files] of the process's files.  BaseGzipFile: base/GzipFile.h.
    - BaseLogFile, BaseAsyncLogging: base/LogFile.{h,cc}, AsyncLogging.{h,cc}.
    - BaseTimeZone: base/TimeZone.{h,cc}.
    - BaseLogging: base/Logging.{h,cc}, over BaseLogStream, BaseThread and
      BaseTimeZone; BaseLogger: the process-wide settings of base/Logging.cc.
    - NetTcpClient: net/TcpClient.{h,cc}, over NetConnector.
    - NetInspector: net/inspect/Inspector.{h,cc}, the registry of pages;
      NetFavicon: its icon; NetInspectorObject: the one inspector of a process.
    - NetInetAddress: net/InetAddress.{h,cc} and the address functions of
      net/SocketsOps.cc, over a class [InetText] of inet_pton and inet_ntop.
    - NetRpcChannel: net/protorpc/RpcChannel.{h,cc}, RpcServer.{h,cc} and
      rpc.proto, over a class [Protobuf] of the library; NetRpcWorld: two
      channels over the codec and a byte stream.
    - BaseDouble: what printf prints of a double, and how far arithmetic on
      doubles is from exact; BaseFormat: formatSI and formatIEC of
      base/LogStream.cc.
    - BaseProcessInfo: base/ProcessInfo.{h,cc}; NetProcInspector:
      net/inspect/ProcessInspector.{h,cc} and SystemInspector.{h,cc};
      NetPerformanceInspector: net/inspect/PerformanceInspector.{h,cc}.
    - NetZlibStream: net/ZlibStream.h, over a class [Zlib] of deflate with the
      laws [ZlibSpec]; NetBufferStream: net/protobuf/BufferStream.h.
    - NetLoopTimers: the timer calls of net/EventLoop.cc and the registry of
      one loop per thread; BaseCondition: the deadline of base/Condition.cc.
    - NetSocket: net/Socket.{h,cc} and the calls of net/SocketsOps.cc below it,
      over a kernel that keeps what they set for each socket.
    - BaseSingleton, BaseThreadLocal, BaseThreadLocalSingleton, BaseWeakCallback:
      the headers of base/ with these names.
    - UnitTests: the checks of the repository's own unit tests, evaluated on the
      model.

    ** What the theorems show

    - Buffer: driven by any legal sequence of operations it is a byte queue;
      integers come back unchanged; growing moves data first; readFd loses
      nothing.
    - TcpConnection: over all interleavings of events, functors, calls and
      callbacks the bytes accepted are the bytes written followed by the bytes
      buffered; writability is watched exactly while bytes are buffered; the
      life callbacks come once and in order; the half-close waits for the
      output.  A call from another thread is up to three steps, the test of
      [state_], the write of it and the queueing of the functor, as the code
      takes no lock; the legal runs leave out that the connection closes
      between the test and the write, and an Example shows the double
      [handleClose] this race leads to.  Four theorems say what the handlers do
      on each branch and which calls, outside the legal use, fail an assertion.
    - TimerQueue: no deleted timer is touched, the two indexes agree, due
      timers run once and in order, cancellation is exact and the timerfd is
      armed for the earliest timer.
    - Pollers: after any legal calls the kernel watches what the channels ask
      for, and poll reports the channels that are ready.  Both implementations
      are proved to meet [PollerSpec].
    - EventLoop: no wake-up is lost once the loop runs, functors run once and in
      order, and what is pending while events are handled runs in the same
      iteration.  The loop's own thread may queue functors before [loop()]
      without a wake-up; the theorem leaves this out and an Example shows it.
    - TcpServer, Acceptor, EventLoopThreadPool, Connector: the lives of
      connections and sockets across loops, without failed assertions or leaks;
      a Connector is driven by whole passes of [handleEvent], with an error,
      writability or both.
    - HTTP: from a fresh context the parser terminates and decides as a grammar
      of requests does, given as a relation of its own; from the other contexts
      it is stated when it loops for ever or fails an assertion; it does not depend
      on segmentation, and reads printed requests back; a client reads printed
      responses back; the server answers each complete request once.
    - ProtobufCodecLite: the decoder terminates on every input and follows the
      wire format; encoded messages are delivered intact and in order, also
      between two TcpConnections, over every interleaving, partial write and
      segmentation of the stream.
    - LogStream and Date: no write outside the line's array, decimal conversion
      for all 64-bit integers, and day numbers that follow the calendar, in
      [int] arithmetic with the bounds beyond which it overflows.
    - Monitors: under any interleaving and any choice of woken threads the
      queues are FIFO and bounded, the pool starts each task once (in the caller
      when it has no workers), neither a consumer nor a producer sleeps while
      there is something for it, a latch that is open releases
      every thread and a stopped pool ends.  Thread::start and
      EventLoopThread::startLoop hand over a valid id and loop.
    - Logging: lines are formatted as if from scratch, after second 0 and with
      one time zone, where the cached second cannot show; AsyncLogging and LogFile
      keep them whole and in order, with every loss accounted for; a LogFile
      rolls by size and by day and flushes as its intervals say; stop()
      ends the back end, and exactly the lines that it loses are named.
    - TimeZone: the UTC conversions are inverse; local time comes back to the
      instant it was made from, or to the other instant with the same local
      time, as stated, when clocks were put back; zone files are read back
      as written.
    - TcpClient: at most one connection at a time, each destroyed once.
    - Inspector: requests are answered from a registry of commands, and the root
      page lists each of them once in order; there is
      one inspector at a time, with the pages of its page objects; profiling
      leaves neither a profiler nor a file behind; the icon is an intact PNG.
    - Objects and resources: a TcpConnection's socket lives as long as the
      object and replacing callbacks never breaks it; what is appended to a file
      is in it after a flush or close, and files and gzip files are closed once;
      a weak callback runs on a live object or not at all; no exception of a task
      or of a thread is swallowed.
    - InetAddress: the text of an address is printed whole and read back to the
      same bytes, for both families and both byte orders; a connection to
      itself is recognised.
    - protorpc: whatever the callers, the bytes and the services do, no
      assertion of two connected channels fails, a call is answered at most
      once and by the answer to its own request, and the bytes between them are
      always frames of well-typed messages.
    - /proc: what the inspector's pages show is read back from the kernel's
      text; Examples show three kinds of text on which it reads the wrong thing.
    - Numbers: formatSI and formatIEC print the nearest decimal of any quantity
      below 2^53 in the width they promise, although the division rounds first;
      timers and waits of whole seconds are exact.
    - Socket: the listening socket of an Acceptor is set up as asked or the
      process dies; unchecked options can be missing; its TCP statistics are
      printed whole.
    - ZlibOutputStream: the loops end and what is written inflates back.
    - Singletons: one object, made once and given to every thread; thread-local
      objects belong to one thread and do not outlive it.

    ** Fuel and bounds

    Loops of the code that are not structural take fuel, and the theorems state
    that the result is reached: parseRequest and the codec's onMessage consume
    at least one byte per iteration that continues, so fuel above the number of
    readable bytes is enough for every input; [convert] divides by ten at most
    20 times for 64 bits; writing a line and reading a file advance by a byte
    at least, splitting a path by a slash.  Runs of the reactive components are lists of steps
    of any length.  Buffers are bounded by the [max_size] of a vector (2^63-1
    bytes) and single messages by [INT_MAX], as StringPiece stores an [int].
    Dates are covered for the years -4799 to 1,000,000 and day numbers for
    -32044 to 536838867, where the code's [int]s do not overflow (the next
    number does).

    ** What is not modelled

    System calls (sockets, epoll, timerfd, eventfd, files, /proc), zlib, and
    the protobuf library and gperftools are parameters.  The steps of a monitor
    have no clock; a timeout there is a wake-up.  Exceptions of user functions
    are modelled where the code catches them (BaseException), not in the steps of
    the reactive components.  The text of %.12g in LogStream is a parameter.
    google-inl.h, which is copied from protobuf, and the base classes without
    code are left out.  Object lifetime by [shared_ptr] is
    modelled where a component relies on it (functors that hold a reference or
    a raw pointer, the tie of a channel), not as reference counts.

    ** Extending it

    A clock for the steps of monitors would give timed waits a bound; exceptions
    that leave a user callback inside the loop would end a run there. *)

From stdpp Require Export base tactics list gmap strings pretty.
From Stdlib Require Export ZArith Lia Ascii.

#[export] Set Default Goal Selector "!".

Open Scope Z_scope.

Declare Scope muduo_scope.
Delimit Scope muduo_scope with muduo.

(** * Faults and outcomes *)

(** How a call can stop short of returning: a failed [assert], a [LOG_FATAL]
    or [LOG_SYSFATAL] line (both end in [abort()]), an exception of the
    standard library, and behaviour the C++ standard leaves undefined. *)
Inductive fault :=
| AssertFail (what : string)
| LogFatal (what : string)
| StdException (what : string)
| Undefined (what : string).

#[export] Instance fault_eq_dec : EqDecision fault.
Proof. solve_decision. Defined.

Inductive outcome (A : Type) :=
| Ok (a : A)
| Err (f : fault).
Arguments Ok {A} a.
Arguments Err {A} f.

#[export] Instance outcome_ret : MRet outcome := fun A a => Ok a.
#[export] Instance outcome_bind : MBind outcome := fun A B k m =>
  match m with Ok a => k a | Err f => Err f end.
#[export] Instance outcome_fmap : FMap outcome := fun A B g m =>
  match m with Ok a => Ok (g a) | Err f => Err f end.

#[export] Instance outcome_eq_dec `{EqDecision A} : EqDecision (outcome A).
Proof. solve_decision. Defined.

(** [assert(b)] of a debug build. *)
Definition massert (b : bool) (what : string) : outcome unit :=
  if b then Ok tt else Err (AssertFail what).

Definition fails_assert {A} (m : outcome A) : bool :=
  match m with Err (AssertFail _) => true | _ => false end.

Definition is_ok {A} (m : outcome A) : bool :=
  match m with Ok _ => true | Err _ => false end.

(** [Q] holds of the result, unless the standard library threw. *)
Definition ok_or_throw {A} (m : outcome A) (Q : A -> Prop) : Prop :=
  match m with Ok a => Q a | Err (StdException _) => True | Err _ => False end.

(** Iterating a fallible step over a list, left to right. *)
Fixpoint foldM {A B} (f : A -> B -> outcome A) (a : A) (l : list B) : outcome A :=
  match l with
  | [] => Ok a
  | x :: l' => a' ← f a x; foldM f a' l'
  end.

(** * Machine integers *)

(** Reduction to an unsigned width and to a two's complement width. *)
Definition uwrap (w x : Z) : Z := x mod 2 ^ w.
Definition swrap (w x : Z) : Z := (x + 2 ^ (w - 1)) mod 2 ^ w - 2 ^ (w - 1).

Definition u8 := uwrap 8.
Definition u16 := uwrap 16.
Definition u32 := uwrap 32.
Definition u64 := uwrap 64.
Definition i8 := swrap 8.
Definition i16 := swrap 16.
Definition i32 := swrap 32.
Definition i64 := swrap 64.

Definition urange (w x : Z) : Prop := 0 <= x < 2 ^ w.
Definition srange (w x : Z) : Prop := - 2 ^ (w - 1) <= x < 2 ^ (w - 1).

(** * Byte strings and [Z]-indexed lists *)

Abbreviation bytes := (list Z).

Definition byte_of_ascii (c : ascii) : Z := Z.of_N (N_of_ascii c).

(** The bytes of a string literal, without its terminating NUL. *)
Fixpoint lit (s : string) : bytes :=
  match s with
  | EmptyString => []
  | String c s' => byte_of_ascii c :: lit s'
  end.

Definition zlen {A} (l : list A) : Z := Z.of_nat (length l).
Definition ztake {A} (n : Z) (l : list A) : list A := take (Z.to_nat n) l.
Definition zdrop {A} (n : Z) (l : list A) : list A := drop (Z.to_nat n) l.
(** The elements at positions [i, j). *)
Definition zslice {A} (i j : Z) (l : list A) : list A := ztake (j - i) (zdrop i l).
Definition znth {A} (l : list A) (i : Z) : option A :=
  if i <? 0 then None else l !! Z.to_nat i.

(** Equality of byte strings as a boolean ([memcmp(..) == 0]). *)
Definition bytes_eqb (x y : bytes) : bool := bool_decide (x = y).

(** [std::find(first, last, c)] on a list: the position of the first [c], or
    the length when there is none. *)
Fixpoint find_idx (c : Z) (l : bytes) : Z :=
  match l with
  | [] => 0
  | x :: l' => if x =? c then 0 else 1 + find_idx c l'
  end.

Definition is_byte (x : Z) : Prop := 0 <= x < 256.

(** * printf conversions *)

(** [%d] (and [%ld], [PRId64], ...), [%<w>d] and [%0<w>d]. *)
Definition fmt_d (x : Z) : bytes := lit (pretty x).
Definition pad_left (w : nat) (c : Z) (s : bytes) : bytes := replicate (w - length s) c ++ s.
Definition fmt_wd (w : nat) (x : Z) : bytes := pad_left w 32 (fmt_d x).
Definition fmt_0d (w : nat) (x : Z) : bytes :=
  if x <? 0 then 45 :: pad_left (w - 1) 48 (fmt_d (- x)) else pad_left w 48 (fmt_d x).

(** What [snprintf(buf, size, ...)] leaves in [buf], up to the NUL. *)
Definition snprintf (size : Z) (s : bytes) : bytes := ztake (size - 1) s.

(** * Lemmas *)

Lemma bind_ok {A B} (m : outcome A) (k : A -> outcome B) b :
  m ≫= k = Ok b <-> exists a, m = Ok a /\ k a = Ok b.
Proof.
  destruct m; cbn; split; [eauto | by intros (?&[= ->]&?) | done | by intros (?&[=]&_)].
Qed.

Lemma outcome_bind_assoc {A B C} (m : outcome A) (k : A -> outcome B) (h : B -> outcome C) :
  (m ≫= k) ≫= h = m ≫= (fun a => k a ≫= h).
Proof. by destruct m. Qed.

Lemma ok_or_throw_mono {A} (m : outcome A) (Q R : A -> Prop) :
  ok_or_throw m Q -> (forall a, Q a -> R a) -> ok_or_throw m R.
Proof. destruct m as [|[]]; cbn; auto. Qed.

Lemma ok_or_throw_bind {A B} (m : outcome A) (f : A -> outcome B) (Q : B -> Prop) :
  ok_or_throw m (fun a => ok_or_throw (f a) Q) -> ok_or_throw (m ≫= f) Q.
Proof. by destruct m as [|[]]. Qed.

Lemma massert_ok b what : massert b what = Ok tt <-> b = true.
Proof. by destruct b. Qed.

Lemma massert_true what : massert true what = Ok tt.
Proof. done. Qed.

Lemma uwrap_small w x : 0 <= w -> urange w x -> uwrap w x = x.
Proof. unfold urange, uwrap. intros. by apply Z.mod_small. Qed.

Lemma u64_small x : 0 <= x < 2 ^ 63 -> u64 x = x.
Proof. intros. apply uwrap_small; [lia|]. unfold urange. lia. Qed.

Lemma uwrap_range w x : 0 <= w -> urange w (uwrap w x).
Proof. intros. apply Z.mod_pos_bound. by apply Z.pow_pos_nonneg. Qed.

Lemma swrap_small w x : 0 < w -> srange w x -> swrap w x = x.
Proof.
  unfold srange, swrap. intros Hw Hx.
  assert (2 ^ w = 2 * 2 ^ (w - 1)) by (rewrite <- Z.pow_succ_r by lia; f_equal; lia).
  rewrite Z.mod_small; lia.
Qed.

Lemma swrap_range w x : 0 < w -> srange w (swrap w x).
Proof.
  unfold srange, swrap. intros Hw.
  assert (2 ^ w = 2 * 2 ^ (w - 1)) by (rewrite <- Z.pow_succ_r by lia; f_equal; lia).
  pose proof (Z.pow_pos_nonneg 2 (w - 1)).
  pose proof (Z.mod_pos_bound (x + 2 ^ (w - 1)) (2 ^ w)). lia.
Qed.

(** A two's complement value survives a trip through the unsigned width. *)
Lemma swrap_uwrap w x : 0 < w -> swrap w (uwrap w x) = swrap w x.
Proof.
  unfold swrap, uwrap. intros. f_equal.
  by rewrite Zplus_mod_idemp_l.
Qed.

Lemma uwrap_swrap w x : 0 < w -> uwrap w (swrap w x) = uwrap w x.
Proof.
  unfold swrap, uwrap. intros.
  rewrite Zminus_mod_idemp_l. f_equal. lia.
Qed.

Lemma zlen_nonneg {A} (l : list A) : 0 <= zlen l.
Proof. unfold zlen. lia. Qed.
Lemma zlen_nil {A} : zlen (@nil A) = 0.
Proof. done. Qed.
Lemma zlen_cons {A} (x : A) l : zlen (x :: l) = 1 + zlen l.
Proof. unfold zlen. cbn [length]. lia. Qed.
Lemma zlen_app {A} (l1 l2 : list A) : zlen (l1 ++ l2) = zlen l1 + zlen l2.
Proof. unfold zlen. rewrite length_app. lia. Qed.
Lemma zlen_ztake {A} n (l : list A) : zlen (ztake n l) = Z.min (Z.max 0 n) (zlen l).
Proof. unfold zlen, ztake. rewrite length_take. lia. Qed.
Lemma zlen_zdrop {A} n (l : list A) : zlen (zdrop n l) = Z.max 0 (zlen l - Z.max 0 n).
Proof. unfold zlen, zdrop. rewrite length_drop. lia. Qed.
Lemma zlen_zslice {A} i j (l : list A) :
  0 <= i -> i <= j -> j <= zlen l -> zlen (zslice i j l) = j - i.
Proof. intros. unfold zslice. rewrite zlen_ztake, zlen_zdrop. lia. Qed.
Lemma zlen_replicate {A} n (x : A) : zlen (replicate n x) = Z.of_nat n.
Proof. unfold zlen. by rewrite length_replicate. Qed.
Lemma zlen_lt_0 {A} (l : list A) : zlen l <= 0 -> l = [].
Proof. destruct l; [done|]. rewrite zlen_cons. pose proof (zlen_nonneg l). lia. Qed.

Lemma ztake_all {A} n (l : list A) : zlen l <= n -> ztake n l = l.
Proof. unfold zlen, ztake. intros. apply take_ge. lia. Qed.
Lemma ztake_0 {A} n (l : list A) : n <= 0 -> ztake n l = [].
Proof. unfold ztake. intros. by replace (Z.to_nat n) with 0%nat by lia. Qed.
Lemma zdrop_0 {A} n (l : list A) : n <= 0 -> zdrop n l = l.
Proof. unfold zdrop. intros. by replace (Z.to_nat n) with 0%nat by lia. Qed.
Lemma zdrop_all {A} n (l : list A) : zlen l <= n -> zdrop n l = [].
Proof. unfold zlen, zdrop. intros. apply drop_ge. lia. Qed.
Lemma ztake_zdrop {A} n (l : list A) : ztake n l ++ zdrop n l = l.
Proof. apply take_drop. Qed.
Lemma ztake_app_exact {A} n (l1 l2 : list A) : n = zlen l1 -> ztake n (l1 ++ l2) = l1.
Proof. intros ->. unfold ztake, zlen. by rewrite Nat2Z.id, take_app_length. Qed.
Lemma zdrop_app_exact {A} n (l1 l2 : list A) : n = zlen l1 -> zdrop n (l1 ++ l2) = l2.
Proof. intros ->. unfold zdrop, zlen. by rewrite Nat2Z.id, drop_app_length. Qed.
Lemma ztake_app_le {A} n (l1 l2 : list A) : n <= zlen l1 -> ztake n (l1 ++ l2) = ztake n l1.
Proof. unfold ztake, zlen. intros. apply take_app_le. lia. Qed.
Lemma zdrop_app_le {A} n (l1 l2 : list A) :
  n <= zlen l1 -> zdrop n (l1 ++ l2) = zdrop n l1 ++ l2.
Proof. unfold zdrop, zlen. intros. apply drop_app_le. lia. Qed.
Lemma zdrop_zdrop {A} n m (l : list A) :
  0 <= n -> 0 <= m -> zdrop n (zdrop m l) = zdrop (m + n) l.
Proof. unfold zdrop. intros. rewrite drop_drop. f_equal. lia. Qed.
Lemma ztake_ztake {A} n m (l : list A) : n <= m -> ztake n (ztake m l) = ztake n l.
Proof. unfold ztake. intros. rewrite take_take. f_equal. lia. Qed.
Lemma zdrop_ztake {A} n m (l : list A) :
  0 <= n -> zdrop n (ztake m l) = ztake (m - n) (zdrop n l).
Proof.
  unfold ztake, zdrop. intros.
  destruct (decide (n <= m)).
  - rewrite skipn_firstn_comm. f_equal. lia.
  - rewrite (drop_ge (take _ _)) by (rewrite length_take; lia).
    by replace (Z.to_nat (m - n)) with 0%nat by lia.
Qed.

Lemma zslice_full {A} i j (l : list A) : i <= 0 -> zlen l <= j - i -> zslice i j l = l.
Proof. intros. unfold zslice. rewrite zdrop_0, ztake_all; lia || done. Qed.
Lemma zslice_empty {A} i j (l : list A) : j <= i -> zslice i j l = [].
Proof. intros. unfold zslice. apply ztake_0. lia. Qed.
(** Slices of [l1 ++ l2 ++ l3] that pick the middle part. *)
Lemma zslice_app_mid {A} i j (l1 l2 l3 : list A) :
  i = zlen l1 -> j = i + zlen l2 -> zslice i j (l1 ++ l2 ++ l3) = l2.
Proof.
  intros Hi Hj. unfold zslice. rewrite (zdrop_app_exact i) by done.
  apply ztake_app_exact. lia.
Qed.
Lemma zslice_app_l {A} i j (l1 l2 : list A) :
  0 <= i -> j <= zlen l1 -> zslice i j (l1 ++ l2) = zslice i j l1.
Proof.
  intros. unfold zslice. destruct (decide (i <= zlen l1)).
  - rewrite zdrop_app_le, ztake_app_le; [done | rewrite zlen_zdrop; lia | done].
  - by rewrite !ztake_0 by lia.
Qed.
(** Adjacent slices concatenate. *)
Lemma zslice_split {A} i j k (l : list A) :
  0 <= i -> i <= j -> j <= k -> zslice i j l ++ zslice j k l = zslice i k l.
Proof.
  intros. unfold zslice.
  rewrite <- (ztake_zdrop (j - i) (ztake (k - i) (zdrop i l))).
  rewrite ztake_ztake by lia. f_equal.
  rewrite zdrop_ztake, zdrop_zdrop by lia. f_equal; [lia | f_equal; lia].
Qed.
Lemma zslice_zslice {A} i j a b (l : list A) :
  0 <= i -> 0 <= a -> b <= j - i -> zslice a b (zslice i j l) = zslice (i + a) (i + b) l.
Proof.
  intros. unfold zslice. rewrite zdrop_ztake, zdrop_zdrop, ztake_ztake by lia.
  f_equal. lia.
Qed.
Lemma ztake_zslice {A} i j n (l : list A) :
  0 <= i -> n <= j - i -> ztake n (zslice i j l) = zslice i (i + n) l.
Proof. intros. unfold zslice. rewrite ztake_ztake by lia. f_equal. lia. Qed.
Lemma zdrop_zslice {A} i j n (l : list A) :
  0 <= i -> 0 <= n -> zdrop n (zslice i j l) = zslice (i + n) j l.
Proof. intros. unfold zslice. rewrite zdrop_ztake, zdrop_zdrop by lia. f_equal. lia. Qed.

Lemma bytes_eqb_eq x y : bytes_eqb x y = true <-> x = y.
Proof. apply bool_decide_eq_true. Qed.

Lemma find_idx_bounds c l : 0 <= find_idx c l <= zlen l.
Proof.
  induction l as [|x l IH]; cbn [find_idx]; [done|].
  rewrite zlen_cons. destruct (x =? c); pose proof (zlen_nonneg l); lia.
Qed.
Lemma find_idx_prefix c l : Forall (fun x => x <> c) (ztake (find_idx c l) l).
Proof.
  induction l as [|x l IH]; cbn [find_idx]; [apply Forall_nil; done|].
  destruct (Z.eqb_spec x c); [apply Forall_nil; done|].
  unfold ztake. pose proof (find_idx_bounds c l).
  replace (Z.to_nat (1 + find_idx c l)) with (S (Z.to_nat (find_idx c l))) by lia.
  cbn. by apply Forall_cons.
Qed.
(** The first occurrence of [c] in [l1 ++ c :: l2] when [l1] has none. *)
Lemma find_idx_first c l1 l2 :
  Forall (fun x => x <> c) l1 -> find_idx c (l1 ++ c :: l2) = zlen l1.
Proof.
  induction 1 as [|x l1 Hx _ IH]; cbn [find_idx app].
  - by rewrite Z.eqb_refl.
  - rewrite zlen_cons, IH. by destruct (Z.eqb_spec x c).
Qed.
Lemma find_idx_none c l : Forall (fun x => x <> c) l -> find_idx c l = zlen l.
Proof.
  induction 1 as [|x l Hx _ IH]; cbn [find_idx]; [done|].
  rewrite zlen_cons, IH. by destruct (Z.eqb_spec x c).
Qed.

Lemma foldM_app {A B} (f : A -> B -> outcome A) a l1 l2 :
  foldM f a (l1 ++ l2) = a' ← foldM f a l1; foldM f a' l2.
Proof.
  revert a. induction l1 as [|x l1 IH]; intros a; cbn; [done|].
  destruct (f a x); cbn; [apply IH | done].
Qed.

Lemma filter_all {A} (P : A -> Prop) `{!forall x, Decision (P x)} l : Forall P l -> filter P l = l.
Proof.
  induction 1 as [|x l Hx _ IH]; [done|]. by rewrite filter_cons, decide_True, IH.
Qed.
Lemma filter_none {A} (P : A -> Prop) `{!forall x, Decision (P x)} l :
  Forall (fun x => ~ P x) l -> filter P l = [].
Proof.
  induction 1 as [|x l Hx _ IH]; [done|]. by rewrite filter_cons, decide_False.
Qed.

(** ** Decimal numerals *)

(** The number a string of decimal digits denotes, after [acc]. *)
Definition dec_val (acc : Z) (s : bytes) : Z := foldl (fun a c => 10 * a + (c - 48)) acc s.

Lemma pretty_N_char_val (x : N) : (x < 10)%N -> byte_of_ascii (pretty_N_char x) = 48 + Z.of_N x.
Proof.
  intros Hx. assert (x = 0 \/ x = 1 \/ x = 2 \/ x = 3 \/ x = 4 \/ x = 5 \/ x = 6 \/ x = 7 \/ x = 8 \/ x = 9)%N
    as H by lia. by repeat destruct H as [->|H]; [..|subst].
Qed.

Lemma dec_val_pretty_go (x : N) (s : string) :
  dec_val 0 (lit (pretty_N_go x s)) = dec_val (Z.of_N x) (lit s).
Proof.
  revert s. induction (N.lt_wf_0 x) as [x _ IH]. intros s.
  destruct (decide (0 < x)%N) as [Hx|Hx].
  2: { replace x with 0%N by lia. by rewrite pretty_N_go_0. }
  rewrite pretty_N_go_step, IH by (done || (apply N.div_lt; lia)). cbn [lit].
  unfold dec_val. cbn [foldl]. rewrite pretty_N_char_val by (apply N.mod_lt; lia). f_equal.
  pose proof (N.div_mod x 10). lia.
Qed.

Lemma length_pretty_go k (x : N) (s : string) :
  (x < 10 ^ N.of_nat k)%N -> (length (lit (pretty_N_go x s)) <= k + length (lit s))%nat.
Proof.
  revert x s. induction k as [|k IH]; intros x s Hx.
  { replace x with 0%N by (cbn in Hx; lia). by rewrite pretty_N_go_0. }
  destruct (decide (0 < x)%N) as [H0|H0].
  2: { replace x with 0%N by lia. rewrite pretty_N_go_0. lia. }
  rewrite pretty_N_go_step by done.
  assert (x `div` 10 < 10 ^ N.of_nat k)%N as Hd.
  { apply N.Div0.div_lt_upper_bound. by rewrite <- N.pow_succ_r', <- Nat2N.inj_succ. }
  specialize (IH _ (String (pretty_N_char (x `mod` 10)) s) Hd). cbn [lit length] in IH. lia.
Qed.

(** The characters of a numeral are digits. *)
Lemma digits_pretty_go (x : N) (s : string) :
  Forall (fun c => 48 <= c <= 57) (lit s) -> Forall (fun c => 48 <= c <= 57) (lit (pretty_N_go x s)).
Proof.
  revert s. induction (N.lt_wf_0 x) as [x _ IH]. intros s Hs.
  destruct (decide (0 < x)%N) as [Hx|Hx].
  2: { replace x with 0%N by lia. by rewrite pretty_N_go_0. }
  rewrite pretty_N_go_step by done. apply IH; [apply N.div_lt; lia|]. cbn. constructor; [|done].
  pose proof (N.mod_lt x 10 ltac:(lia)) as Hm. rewrite pretty_N_char_val by done. revert Hm. generalize (x `mod` 10)%N. lia.
Qed.

Lemma fmt_d_go x : 0 < x -> fmt_d x = lit (pretty_N_go (Z.to_N x) "").
Proof. intros Hx. unfold fmt_d, pretty, pretty_Z. destruct x as [|p|p]; try lia. done. Qed.

Lemma fmt_d_val x : 0 <= x -> dec_val 0 (fmt_d x) = x.
Proof.
  intros Hx. destruct (decide (x = 0)) as [->|]; [done|]. rewrite fmt_d_go, dec_val_pretty_go by lia. cbn. lia.
Qed.

Lemma fmt_d_length k x : 0 <= x < 10 ^ Z.of_nat k -> (0 < k)%nat -> zlen (fmt_d x) <= Z.of_nat k.
Proof.
  intros Hx Hk. unfold zlen. destruct (decide (x = 0)) as [->|]; [cbn; lia|]. rewrite fmt_d_go by lia.
  pose proof (length_pretty_go k (Z.to_N x) "") as H. cbn [lit length] in H.
  assert (Z.to_N x < 10 ^ N.of_nat k)%N; [|lia].
  apply N2Z.inj_lt. rewrite N2Z.inj_pow, Z2N.id, nat_N_Z by lia. lia.
Qed.

Lemma fmt_d_digits x : 0 <= x -> Forall (fun c => 48 <= c <= 57) (fmt_d x).
Proof.
  intros Hx. destruct (decide (x = 0)) as [->|]; [by repeat constructor|]. rewrite fmt_d_go by lia.
  apply digits_pretty_go. constructor.
Qed.

Lemma pad_length (w : nat) c s : (length s <= w)%nat -> zlen (pad_left w c s) = Z.of_nat w.
Proof. intros Hs. unfold pad_left, zlen. rewrite length_app, length_replicate. lia. Qed.
Lemma fmt_0d_length (w : nat) x : (0 < w)%nat -> 0 <= x < 10 ^ Z.of_nat w -> zlen (fmt_0d w x) = Z.of_nat w.
Proof.
  intros Hw Hx. unfold fmt_0d. destruct (Z.ltb_spec x 0); [lia|]. apply pad_length.
  pose proof (fmt_d_length w x Hx Hw) as Hl. unfold zlen in Hl. lia.
Qed.

(** * Automation *)

Create HintDb muduo.
Create Rewrite HintDb zlen.
#[export] Hint Resolve zlen_nonneg : muduo.
#[export] Hint Rewrite @zlen_nil @zlen_cons @zlen_app @zlen_ztake @zlen_zdrop
  @zlen_replicate : zlen.

(** Normalise lengths in the goal and hypotheses, then linear arithmetic. *)
Ltac zlen_pose :=
  repeat match goal with
  | |- context [zlen ?l] => lazymatch goal with
      | _ : 0 <= zlen l |- _ => fail | _ => pose proof (zlen_nonneg l) end
  | _ : context [zlen ?l] |- _ => lazymatch goal with
      | _ : 0 <= zlen l |- _ => fail | _ => pose proof (zlen_nonneg l) end
  end.
Ltac zlia := autorewrite with zlen in *; zlen_pose; lia.

(** Break up a successful monadic computation into its steps. *)
Ltac outcome_inv :=
  repeat match goal with
  | H : Ok _ = Ok _ |- _ => injection H as H; subst
  | H : Err _ = Ok _ |- _ => discriminate H
  | H : _ ≫= _ = Ok _ |- _ => apply bind_ok in H as (?&?&H)
  | H : massert _ _ = Ok _ |- _ => apply massert_ok in H
  | x : unit |- _ => destruct x
  end.

(** Run an assertion whose condition has been proved. *)
Ltac massert_by tac :=
  match goal with
  | |- context [massert ?b ?s] =>
      replace b with true by (symmetry; tac); cbn [massert mbind outcome_bind]
  end.
Tactic Notation "assert_ok" "by" tactic3(tac) := massert_by tac.
Ltac zbool := rewrite ?andb_true_iff, ?orb_true_iff, ?negb_true_iff,
  ?Z.ltb_lt, ?Z.leb_le, ?Z.eqb_eq, ?Z.ltb_ge, ?Z.leb_gt, ?Z.eqb_neq.
Tactic Notation "assert_ok" := assert_ok by (zbool; zlia).
