(* ===== verification/BaseTimestamp.v ===== *)
(** src/muduo/base/Timestamp.h and Timestamp.cc: UTC time in microseconds, kept
    in an [int64_t].  Seconds are [double]s: the IEEE binary64 arithmetic is
    the executable specification of the Standard Library (SpecFloat). *)

From Stdlib Require Import SpecFloat.
From S2P Require Import Prelude.

(** * binary64 *)

Abbreviation double := spec_float.
Definition d_of_Z (x : Z) : double := binary_normalize 53 1024 x 0 false.
Definition d_mul : double -> double -> double := SFmul 53 1024.
Definition d_div : double -> double -> double := SFdiv 53 1024.
Definition d_pos (x : double) : bool := SFltb (S754_zero false) x.

(** [static_cast<int64_t>(x)]: towards zero, undefined out of range. *)
Definition d_trunc (x : double) : option Z :=
  match x with
  | S754_zero _ => Some 0
  | S754_finite s m e =>
      let a := Z.shiftl (Z.pos m) e in Some (if s then - a else a)
  | _ => None
  end.
Definition d_to_int64 (x : double) : outcome Z :=
  match d_trunc x with
  | Some z => if bool_decide (srange 64 z) then Ok z
              else Err (Undefined "double to int64_t")
  | None => Err (Undefined "double to int64_t")
  end.

(** Signed arithmetic of an [int64_t]: undefined when it overflows. *)
Definition int64_op (x : Z) : outcome Z :=
  if bool_decide (srange 64 x) then Ok x else Err (Undefined "int64_t overflow").

(** <time.h>: broken-down time. *)
Record tm := mktm {
  tm_sec : Z; tm_min : Z; tm_hour : Z; tm_mday : Z; tm_mon : Z; tm_year : Z;
  tm_wday : Z; tm_yday : Z; tm_gmtoff : Z
}.

Module Timestamp.

(** A timestamp is its [microSecondsSinceEpoch_]. *)
Abbreviation t := Z.

Definition kMicroSecondsPerSecond : Z := 1000 * 1000.

Definition valid (x : t) : bool := 0 <? x.
Definition secondsSinceEpoch (x : t) : Z := Z.quot x kMicroSecondsPerSecond.
Definition invalid : t := 0.
Definition fromUnixTime (s microseconds : Z) : outcome t :=
  m ← int64_op (s * kMicroSecondsPerSecond); int64_op (m + microseconds).

Definition ltb (lhs rhs : t) : bool := lhs <? rhs.
Definition eqb (lhs rhs : t) : bool := lhs =? rhs.

Definition timeDifference (high low : t) : outcome double :=
  diff ← int64_op (high - low);
  Ok (d_div (d_of_Z diff) (d_of_Z kMicroSecondsPerSecond)).

Definition addTime (timestamp : t) (seconds : double) : outcome t :=
  delta ← d_to_int64 (d_mul seconds (d_of_Z kMicroSecondsPerSecond));
  int64_op (timestamp + delta).

Definition toString (x : t) : bytes :=
  let seconds := Z.quot x kMicroSecondsPerSecond in
  let microseconds := Z.rem x kMicroSecondsPerSecond in
  snprintf 32 (fmt_d seconds ++ lit "." ++ fmt_0d 6 microseconds).

(** [gmtime_r] is the C library's. *)
Definition toFormattedString (gmtime_r : Z -> tm) (showMicroseconds : bool) (x : t) : bytes :=
  let seconds := Z.quot x kMicroSecondsPerSecond in
  let tm_time := gmtime_r seconds in
  let date := fmt_wd 4 (tm_year tm_time + 1900) ++ fmt_0d 2 (tm_mon tm_time + 1) ++ fmt_0d 2 (tm_mday tm_time)
    ++ lit " " ++ fmt_0d 2 (tm_hour tm_time) ++ lit ":" ++ fmt_0d 2 (tm_min tm_time)
    ++ lit ":" ++ fmt_0d 2 (tm_sec tm_time) in
  if showMicroseconds
  then snprintf 64 (date ++ lit "." ++ fmt_0d 6 (i32 (Z.rem x kMicroSecondsPerSecond)))
  else snprintf 64 date.

(** [gettimeofday] gives [tv_sec] and [tv_usec]. *)
Definition now (tv_sec tv_usec : Z) : outcome t :=
  m ← int64_op (tv_sec * kMicroSecondsPerSecond); int64_op (m + tv_usec).

(** * Lemmas *)

Lemma int64_op_ok x : srange 64 x -> int64_op x = Ok x.
Proof. intros. unfold int64_op. by rewrite bool_decide_eq_true_2. Qed.

Example add_half_second : addTime 1000000 (d_div (d_of_Z 1) (d_of_Z 2)) = Ok 1500000.
Proof. vm_compute. reflexivity. Qed.
Example add_tenth : addTime 0 (d_div (d_of_Z 1) (d_of_Z 10)) = Ok 100000.
Proof. vm_compute. reflexivity. Qed.
Example print_timestamp : toString 1500000000000123 = lit "1500000000.000123".
Proof. vm_compute. reflexivity. Qed.

(** Splitting a timestamp into seconds and microseconds loses nothing. *)
Lemma fromUnixTime_split x :
  srange 64 x ->
  fromUnixTime (secondsSinceEpoch x) (Z.rem x kMicroSecondsPerSecond) = Ok x.
Proof.
  unfold fromUnixTime, secondsSinceEpoch, kMicroSecondsPerSecond.
  change (1000 * 1000) with 1000000. intros Hx.
  pose proof (Z.quot_rem' x 1000000) as E.
  assert (0 <= Z.quot x 1000000 * 1000000 <= x \/ x <= Z.quot x 1000000 * 1000000 <= 0) as Hq.
  { destruct (Z.le_ge_cases 0 x); [left|right].
    - pose proof (Z.rem_nonneg x 1000000 ltac:(lia) ltac:(lia)).
      pose proof (Z.quot_pos x 1000000 ltac:(lia) ltac:(lia)). lia.
    - pose proof (Z.rem_nonpos x 1000000 ltac:(lia) ltac:(lia)).
      assert (Z.quot x 1000000 <= 0); [|lia].
      rewrite <- (Z.opp_involutive x), Z.quot_opp_l by lia.
      pose proof (Z.quot_pos (- x) 1000000 ltac:(lia) ltac:(lia)). lia. }
  unfold srange in Hx.
  rewrite int64_op_ok by (unfold srange; lia). cbn [mbind outcome_bind].
  rewrite int64_op_ok by (unfold srange; lia). f_equal. lia.
Qed.

End Timestamp.
