(* ===== verification/NetTimerQueue.v ===== *)
(** src/muduo/net/Timer.h, Timer.cc, TimerId.h and TimerQueue.cc: the timers of
    an event loop, on one timerfd(2).

    Timers are heap objects named by address.  [timers_] is a [std::set] of
    (expiration, address) pairs, kept as the sorted list of its elements;
    [activeTimers_] and [cancelingTimers_] hold (address, sequence) pairs.  The
    timerfd is the time it was last armed and the relative time it was armed
    for.  User callbacks may add and cancel timers of the same queue while
    [handleRead] runs them: a callback is a script of such calls, chosen from
    the state it finds.  [trace] records what an observer of the loop thread
    sees: the callbacks that ran and the cancellations that were requested. *)

From stdpp Require Import sorting.
From S2P Require Import Prelude BaseTimestamp.

Module TimerQueue.

Definition UINTPTR_MAX : Z := 2 ^ 64 - 1.

Record timer := mktimer {
  callback_ : Z;
  expiration_ : Timestamp.t;
  interval_ : double;
  repeat_ : bool;
  sequence_ : Z
}.

(** Timer::Timer, with the sequence number [incrementAndGet] gave. *)
Definition timer_new (cb : Z) (when : Timestamp.t) (interval : double) (seq : Z) : timer :=
  mktimer cb when interval (d_pos interval) seq.

Definition restart (now : Timestamp.t) (tm : timer) : outcome timer :=
  e ← (if repeat_ tm then Timestamp.addTime now (interval_ tm) else Ok Timestamp.invalid);
  Ok (mktimer (callback_ tm) e (interval_ tm) (repeat_ tm) (sequence_ tm)).

Record timespec := mkts { tv_sec : Z; tv_nsec : Z }.

Definition howMuchTimeFromNow (when now : Timestamp.t) : outcome timespec :=
  microseconds ← int64_op (when - now);
  let microseconds := if microseconds <? 100 then 100 else microseconds in
  Ok (mkts (Z.quot microseconds Timestamp.kMicroSecondsPerSecond)
           (Z.rem microseconds Timestamp.kMicroSecondsPerSecond * 1000)).

Abbreviation Entry := (Z * Z)%type.

Inductive event := EvRun (seq : Z) | EvCancel (ptr seq : Z).
#[export] Instance event_eq_dec : EqDecision event.
Proof. solve_decision. Defined.

Record t := mk {
  heap : gmap Z timer;
  timers_ : list Entry;
  activeTimers_ : gset (Z * Z);
  callingExpiredTimers_ : bool;
  cancelingTimers_ : gset (Z * Z);
  s_numCreated_ : Z;
  timerfd_ : option (Timestamp.t * timespec);
  trace : list event
}.

Definition new_ : t := mk ∅ [] ∅ false ∅ 0 None [].

Definition set_heap h s := mk h (timers_ s) (activeTimers_ s) (callingExpiredTimers_ s)
  (cancelingTimers_ s) (s_numCreated_ s) (timerfd_ s) (trace s).
Definition set_timers l s := mk (heap s) l (activeTimers_ s) (callingExpiredTimers_ s)
  (cancelingTimers_ s) (s_numCreated_ s) (timerfd_ s) (trace s).
Definition set_active a s := mk (heap s) (timers_ s) a (callingExpiredTimers_ s)
  (cancelingTimers_ s) (s_numCreated_ s) (timerfd_ s) (trace s).
Definition set_calling b s := mk (heap s) (timers_ s) (activeTimers_ s) b
  (cancelingTimers_ s) (s_numCreated_ s) (timerfd_ s) (trace s).
Definition set_canceling c s := mk (heap s) (timers_ s) (activeTimers_ s) (callingExpiredTimers_ s)
  c (s_numCreated_ s) (timerfd_ s) (trace s).
Definition set_created n s := mk (heap s) (timers_ s) (activeTimers_ s) (callingExpiredTimers_ s)
  (cancelingTimers_ s) n (timerfd_ s) (trace s).
Definition set_timerfd f s := mk (heap s) (timers_ s) (activeTimers_ s) (callingExpiredTimers_ s)
  (cancelingTimers_ s) (s_numCreated_ s) f (trace s).
Definition log_event e s := mk (heap s) (timers_ s) (activeTimers_ s) (callingExpiredTimers_ s)
  (cancelingTimers_ s) (s_numCreated_ s) (timerfd_ s) (trace s ++ [e]).

Definition deref (ptr : Z) (s : t) : outcome timer :=
  match heap s !! ptr with
  | Some tm => Ok tm
  | None => Err (Undefined "use of a deleted Timer")
  end.

(** * [std::set<Entry>] *)

(** [operator<] of [std::pair<Timestamp, Timer*>]. *)
Definition entry_ltb (a b : Entry) : bool :=
  Timestamp.ltb (fst a) (fst b) || (negb (Timestamp.ltb (fst b) (fst a)) && (snd a <? snd b)).

Fixpoint set_insert (e : Entry) (l : list Entry) : list Entry * bool :=
  match l with
  | [] => ([e], true)
  | x :: l' =>
      if entry_ltb e x then (e :: l, true)
      else if entry_ltb x e then let '(r, b) := set_insert e l' in (x :: r, b)
      else (l, false)
  end.

Fixpoint set_erase (e : Entry) (l : list Entry) : list Entry * Z :=
  match l with
  | [] => ([], 0)
  | x :: l' =>
      if negb (entry_ltb e x) && negb (entry_ltb x e) then (l', 1)
      else let '(r, n) := set_erase e l' in (x :: r, n)
  end.

(** The elements before and from [lower_bound(e)]. *)
Fixpoint split_lower_bound (e : Entry) (l : list Entry) : list Entry * list Entry :=
  match l with
  | [] => ([], [])
  | x :: l' =>
      if entry_ltb x e then let '(a, b) := split_lower_bound e l' in (x :: a, b) else ([], l)
  end.

Definition sizes_agree (s : t) : bool := zlen (timers_ s) =? Z.of_nat (size (activeTimers_ s)).
Definition assert_sizes (s : t) : outcome unit :=
  massert (sizes_agree s) "timers_.size() == activeTimers_.size()".

(** * TimerQueue *)

(** [clk] is the clock [howMuchTimeFromNow] reads. *)
Definition resetTimerfd (expiration clk : Timestamp.t) (s : t) : outcome t :=
  ts ← howMuchTimeFromNow expiration clk;
  Ok (set_timerfd (Some (clk, ts)) s).

Definition insert (ptr : Z) (s : t) : outcome (bool * t) :=
  assert_sizes s;;
  tm ← deref ptr s;
  let when := expiration_ tm in
  let earliestChanged := match timers_ s with
    | [] => true
    | it :: _ => Timestamp.ltb when (fst it)
    end in
  let '(timers, inserted) := set_insert (when, ptr) (timers_ s) in
  massert inserted "result.second";;
  massert (bool_decide ((ptr, sequence_ tm) ∉ activeTimers_ s)) "result.second";;
  let s := set_active ({[(ptr, sequence_ tm)]} ∪ activeTimers_ s) (set_timers timers s) in
  assert_sizes s;;
  Ok (earliestChanged, s).

Definition addTimerInLoop (ptr : Z) (clk : Timestamp.t) (s : t) : outcome t :=
  '(earliestChanged, s) ← insert ptr s;
  if (earliestChanged : bool)
  then tm ← deref ptr s; resetTimerfd (expiration_ tm) clk s
  else Ok s.

(** TimerQueue::addTimer called in the loop thread, [new] returning [ptr]. *)
Definition addTimer (ptr cb : Z) (when : Timestamp.t) (interval : double) (clk : Timestamp.t) (s : t)
    : outcome t :=
  let seq := s_numCreated_ s + 1 in
  let s := set_created seq (set_heap (<[ptr := timer_new cb when interval seq]> (heap s)) s) in
  addTimerInLoop ptr clk s.

Definition cancelInLoop (ptr seq : Z) (s : t) : outcome t :=
  assert_sizes s;;
  s ← (if bool_decide ((ptr, seq) ∈ activeTimers_ s)
       then
         tm ← deref ptr s;
         let '(timers, n) := set_erase (expiration_ tm, ptr) (timers_ s) in
         massert (n =? 1) "n == 1";;
         let s := set_heap (delete ptr (heap s)) (set_timers timers s) in
         Ok (set_active (activeTimers_ s ∖ {[(ptr, seq)]}) s)
       else if callingExpiredTimers_ s
       then Ok (set_canceling ({[(ptr, seq)]} ∪ cancelingTimers_ s) s)
       else Ok s);
  assert_sizes s;;
  Ok s.

Definition erase_active (s : t) (e : Entry) : outcome t :=
  tm ← deref (snd e) s;
  massert (bool_decide ((snd e, sequence_ tm) ∈ activeTimers_ s)) "n == 1";;
  Ok (set_active (activeTimers_ s ∖ {[(snd e, sequence_ tm)]}) s).

Definition getExpired (now : Timestamp.t) (s : t) : outcome (list Entry * t) :=
  assert_sizes s;;
  let '(expired, rest) := split_lower_bound (now, UINTPTR_MAX) (timers_ s) in
  massert (match rest with [] => true | e :: _ => Timestamp.ltb now (fst e) end)
    "end == timers_.end() || now < end->first";;
  s ← foldM erase_active (set_timers rest s) expired;
  assert_sizes s;;
  Ok (expired, s).

Definition reset_one (now : Timestamp.t) (s : t) (it : Entry) : outcome t :=
  tm ← deref (snd it) s;
  if repeat_ tm && bool_decide ((snd it, sequence_ tm) ∉ cancelingTimers_ s)
  then
    tm' ← restart now tm;
    '(_, s) ← insert (snd it) (set_heap (<[snd it := tm']> (heap s)) s);
    Ok s
  else Ok (set_heap (delete (snd it) (heap s)) s).

Definition reset (expired : list Entry) (now clk : Timestamp.t) (s : t) : outcome t :=
  s ← foldM (reset_one now) s expired;
  nextExpire ← (match timers_ s with
                | [] => Ok Timestamp.invalid
                | e :: _ => tm ← deref (snd e) s; Ok (expiration_ tm)
                end);
  if Timestamp.valid nextExpire then resetTimerfd nextExpire clk s else Ok s.

(** The calls a callback makes on the queue. *)
Inductive op :=
| Add (ptr cb : Z) (when : Timestamp.t) (interval : double) (clk : Timestamp.t)
| Cancel (ptr seq : Z).

Definition exec_op (s : t) (o : op) : outcome t :=
  match o with
  | Add ptr cb when interval clk => addTimer ptr cb when interval clk s
  | Cancel ptr seq => cancelInLoop ptr seq (log_event (EvCancel ptr seq) s)
  end.

Section Callbacks.
Context (script : Z -> t -> list op).

(** Timer::run of an expired timer. *)
Definition run_timer (s : t) (it : Entry) : outcome t :=
  tm ← deref (snd it) s;
  let s := log_event (EvRun (sequence_ tm)) s in
  foldM exec_op s (script (callback_ tm) s).

(** [now] is read on entry, [clk] by the final [resetTimerfd]; [fired] tells
    whether the one-shot timer expired and is disarmed, or was armed anew after
    the poll that reported it. *)
Definition handleRead (now clk : Timestamp.t) (fired : bool) (s : t) : outcome t :=
  let s := if fired then set_timerfd None s else s in
  '(expired, s) ← getExpired now s;
  s ← foldM run_timer (set_canceling ∅ (set_calling true s)) expired;
  reset expired now clk (set_calling false s).

Inductive cmd := Op (o : op) | HandleRead (now clk : Timestamp.t) (fired : bool).

Definition exec (s : t) (c : cmd) : outcome t :=
  match c with
  | Op o => exec_op s o
  | HandleRead now clk fired => handleRead now clk fired s
  end.
Definition run (s : t) (cs : list cmd) : outcome t := foldM exec s cs.
End Callbacks.

(** * Invariant *)

(** The deadlines and clocks the theorems cover: 2^62 microseconds are over a
    hundred thousand years, and within them no 64-bit sum overflows. *)
Definition clock_ok (x : Timestamp.t) : Prop := 0 < x < 2 ^ 62.
Definition interval_ok (d : double) : Prop :=
  exists delta, d_to_int64 (d_mul d (d_of_Z Timestamp.kMicroSecondsPerSecond)) = Ok delta /\
    0 <= delta < 2 ^ 62.
Definition timer_ok (tm : timer) : Prop :=
  - 2 ^ 62 <= expiration_ tm < 2 ^ 63 /\ (repeat_ tm = true -> interval_ok (interval_ tm)).
Definition ptr_ok (ptr : Z) : Prop := 0 < ptr < UINTPTR_MAX.

Definition entry_lt (a b : Entry) : Prop := entry_ltb a b = true.

Definition seq_of (h : gmap Z timer) (ptr : Z) : Z :=
  match h !! ptr with Some tm => sequence_ tm | None => 0 end.
Definition akey (h : gmap Z timer) (e : Entry) : Z * Z := (snd e, seq_of h (snd e)).

(** [P] are the live timers outside [timers_]: those [handleRead] is busy
    with, and one being added.  Every live timer is in [timers_] or in [P],
    once; [activeTimers_] holds the same timers as [timers_]. *)
Record wfx (P : list Z) (s : t) : Prop := {
  wf_sorted : StronglySorted entry_lt (timers_ s);
  wf_nodup : NoDup (map snd (timers_ s) ++ P);
  wf_dom : forall ptr, is_Some (heap s !! ptr) <-> ptr ∈ map snd (timers_ s) ++ P;
  wf_expiration : forall w ptr, (w, ptr) ∈ timers_ s -> exists tm, heap s !! ptr = Some tm /\ expiration_ tm = w;
  wf_active : activeTimers_ s = list_to_set (map (akey (heap s)) (timers_ s));
  wf_live : forall ptr tm, heap s !! ptr = Some tm ->
    ptr_ok ptr /\ timer_ok tm /\ sequence_ tm <= s_numCreated_ s
}.
Definition wf (s : t) : Prop := wfx [] s.

(** The absolute time the timerfd expires at. *)
Definition deadline (a : Timestamp.t * timespec) : Z :=
  fst a + tv_sec (snd a) * Timestamp.kMicroSecondsPerSecond + tv_nsec (snd a) / 1000.
(** The timerfd goes off no later than [when] (or 100 microseconds after it was
    armed, the least delay the code asks for). *)
Definition covers (s : t) (when : Timestamp.t) : Prop :=
  exists a, timerfd_ s = Some a /\ deadline a <= Z.max when (fst a + 100).
(** The earliest timer is covered; while expired callbacks run this is only
    promised for timers that are due already. *)
Definition armed_for (bound : option Z) (s : t) : Prop :=
  match timers_ s with
  | [] => True
  | e :: _ => match bound with Some b => fst e <= b | None => True end -> covers s (fst e)
  end.

(** * Lemmas *)

Lemma entry_lt_spec a b : entry_lt a b <-> fst a < fst b \/ (fst a = fst b /\ snd a < snd b).
Proof.
  unfold entry_lt, entry_ltb, Timestamp.ltb. zbool. rewrite ?Z.ltb_ge, ?Z.ltb_lt. lia.
Qed.
Lemma entry_ltb_false a b : entry_ltb a b = false <-> ~ (fst a < fst b \/ (fst a = fst b /\ snd a < snd b)).
Proof. rewrite <- entry_lt_spec. unfold entry_lt. by destruct (entry_ltb a b). Qed.

Ltac entries := repeat match goal with
  | H : entry_ltb _ _ = true |- _ => apply entry_lt_spec in H
  | H : entry_ltb _ _ = false |- _ => apply entry_ltb_false in H
  | H : entry_lt _ _ |- _ => apply entry_lt_spec in H
  | |- entry_lt _ _ => apply entry_lt_spec
  end; cbn [fst snd] in *.

Lemma entry_lt_trans a b c : entry_lt a b -> entry_lt b c -> entry_lt a c.
Proof. intros. entries. lia. Qed.

Lemma set_insert_ok e l :
  StronglySorted entry_lt l -> snd e ∉ map snd l ->
  exists l', set_insert e l = (l', true) /\ StronglySorted entry_lt l' /\ l' ≡ₚ e :: l /\
    match l, l' with
    | [], _ => l' = [e]
    | x :: _, y :: _ => y = (if Timestamp.ltb (fst e) (fst x) then e else y) /\
        (Timestamp.ltb (fst e) (fst x) = false -> fst y <= fst e /\ fst y = fst x)
    | _, [] => False
    end.
Proof.
  intros Hs. induction Hs as [|x l Hs IH Hall]; intros Hni; cbn.
  { exists [e]. repeat constructor. }
  apply not_elem_of_cons in Hni as [Hne Hni].
  destruct (entry_ltb e x) eqn:E1.
  - exists (e :: x :: l). split; [done|]. split; [|split; [done|]].
    + constructor; [by constructor|]. constructor; [done|].
      eapply Forall_impl; [exact Hall|]. intros y. by apply entry_lt_trans.
    + unfold Timestamp.ltb. entries. destruct (Z.ltb_spec (fst e) (fst x)); [done|].
      split; [done|]. intros _. lia.
  - destruct (entry_ltb x e) eqn:E2.
    + destruct (IH Hni) as (l'&->&Hs'&Hp&_). exists (x :: l'). split; [done|]. split; [|split].
      * constructor; [done|]. rewrite Hp. by constructor.
      * rewrite Hp. apply Permutation_swap.
      * unfold Timestamp.ltb. entries. destruct (Z.ltb_spec (fst e) (fst x)); [lia|]. split; [done|lia].
    + entries. lia.
Qed.

Lemma set_erase_ok e l :
  NoDup (map snd l) -> e ∈ l ->
  exists l', set_erase e l = (l', 1) /\ l ≡ₚ e :: l' /\
    (StronglySorted entry_lt l -> StronglySorted entry_lt l').
Proof.
  induction l as [|x l IH]; intros Hnd He; [by apply not_elem_of_nil in He|]. cbn in *.
  apply NoDup_cons in Hnd as [Hni Hnd].
  destruct (negb (entry_ltb e x) && negb (entry_ltb x e)) eqn:E.
  - apply andb_true_iff in E as [E1%negb_true_iff E2%negb_true_iff]. entries.
    assert (e = x) as -> by (destruct e, x; cbn in *; f_equal; lia).
    exists l. split; [done|]. split; [done|]. by intros [? _]%StronglySorted_inv.
  - apply elem_of_cons in He as [->|He].
    { apply andb_false_iff in E as [E|E]; apply negb_false_iff in E; entries; lia. }
    destruct (IH Hnd He) as (l'&->&Hp&Hss). exists (x :: l'). split; [done|]. split.
    + rewrite Hp. apply Permutation_swap.
    + intros [Hs Hall]%StronglySorted_inv. constructor; [auto|].
      rewrite Hp in Hall. by apply Forall_cons in Hall as [_ ?].
Qed.

Lemma split_lower_bound_ok now l :
  StronglySorted entry_lt l -> Forall (fun e => ptr_ok (snd e)) l ->
  exists a b, split_lower_bound (now, UINTPTR_MAX) l = (a, b) /\ l = a ++ b /\
    Forall (fun e => fst e <= now) a /\ Forall (fun e => now < fst e) b.
Proof.
  intros Hs. induction Hs as [|x l Hs IH Hall]; intros Hp; cbn.
  { exists [], []. repeat constructor. }
  apply Forall_cons in Hp as [Hx Hp]. unfold ptr_ok in Hx.
  destruct (entry_ltb x (now, UINTPTR_MAX)) eqn:E; entries.
  - destruct (IH Hp) as (a&b&->&->&Ha&Hb). exists (x :: a), b. split_and!; try done.
    constructor; [lia|done].
  - exists [], (x :: l). split_and!; try done. constructor; [lia|].
    eapply Forall_impl; [exact Hall|]. intros y Hy. entries. lia.
Qed.

Lemma akey_nodup h l : NoDup (map snd l) -> NoDup (map (akey h) l).
Proof.
  intros Hnd. apply (NoDup_fmap_1 fst). rewrite <- list_fmap_compose. exact Hnd.
Qed.

Lemma wfx_sizes P s : wfx P s -> sizes_agree s = true.
Proof.
  intros [_ Hnd _ _ Ha _]. unfold sizes_agree. rewrite Ha.
  apply NoDup_app in Hnd as (Hnd&_). rewrite size_list_to_set by by apply akey_nodup.
  rewrite length_map. unfold zlen. lia.
Qed.

Lemma assert_sizes_ok P s : wfx P s -> assert_sizes s = Ok tt.
Proof. intros H%wfx_sizes. unfold assert_sizes. by rewrite H. Qed.

Lemma wfx_perm P Q s : P ≡ₚ Q -> wfx P s -> wfx Q s.
Proof. intros Hp [????? ?]. split; try done; by setoid_rewrite <- Hp. Qed.

Lemma elem_of_active P s ptr q :
  wfx P s -> (ptr, q) ∈ activeTimers_ s <-> ptr ∈ map snd (timers_ s) /\ seq_of (heap s) ptr = q.
Proof.
  intros Hwf. rewrite (wf_active _ _ Hwf), elem_of_list_to_set, !list_elem_of_fmap. split.
  - intros (e&[= -> ->]&He). split; [by exists e|done].
  - intros ((e&->&He)&<-). by exists e.
Qed.

Lemma resetTimerfd_ok when clk s :
  - 2 ^ 62 <= when < 2 ^ 63 -> clock_ok clk ->
  exists a, resetTimerfd when clk s = Ok (set_timerfd (Some a) s) /\
    deadline a = Z.max when (fst a + 100).
Proof.
  unfold clock_ok. intros Hw Hc. unfold resetTimerfd, howMuchTimeFromNow.
  rewrite Timestamp.int64_op_ok by (unfold srange; lia). cbn [mbind outcome_bind].
  set (m := if when - clk <? 100 then 100 else when - clk).
  assert (m = Z.max (when - clk) 100) as Hm by (unfold m; destruct (Z.ltb_spec (when - clk) 100); lia).
  eexists. split; [done|]. unfold deadline, Timestamp.kMicroSecondsPerSecond. cbn [fst snd tv_sec tv_nsec].
  change (1000 * 1000) with 1000000. rewrite Z.div_mul by lia.
  pose proof (Z.quot_rem' m 1000000). lia.
Qed.

(** The parts of the state [insert] and the like leave alone. *)
Definition frame (s s' : t) : Prop :=
  callingExpiredTimers_ s' = callingExpiredTimers_ s /\ cancelingTimers_ s' = cancelingTimers_ s /\
  s_numCreated_ s' = s_numCreated_ s /\ trace s' = trace s.

(** The head of [timers_] after an insertion. *)
Definition head_after (b : bool) (e : Entry) (l l' : list Entry) : Prop :=
  match l' with
  | [] => False
  | y :: _ => if b then y = e else exists x l0, l = x :: l0 /\ fst y = fst x
  end.

Lemma insert_ok P s ptr tm :
  wfx (ptr :: P) s -> heap s !! ptr = Some tm ->
  exists b s', insert ptr s = Ok (b, s') /\ wfx P s' /\
    timers_ s' ≡ₚ (expiration_ tm, ptr) :: timers_ s /\ heap s' = heap s /\ timerfd_ s' = timerfd_ s /\
    frame s s' /\ head_after b (expiration_ tm, ptr) (timers_ s) (timers_ s').
Proof.
  intros Hwf Htm. unfold insert. rewrite (assert_sizes_ok _ _ Hwf). unfold deref. rewrite Htm. cbn.
  assert (ptr ∉ map snd (timers_ s)) as Hni.
  { intros Hin. pose proof (wf_nodup _ _ Hwf) as Hnd.
    apply NoDup_app in Hnd as (_&Hd&_). apply (Hd _ Hin). left. }
  destruct (set_insert_ok (expiration_ tm, ptr) (timers_ s) (wf_sorted _ _ Hwf) Hni)
    as (l'&->&Hs'&Hp&Hhead). cbn.
  assert ((ptr, sequence_ tm) ∉ activeTimers_ s) as Hna.
  { rewrite (elem_of_active _ _ _ _ Hwf). by intros [? _]. }
  rewrite bool_decide_eq_true_2 by done. cbn.
  set (s' := set_active _ _).
  assert (wfx P s') as Hwf'.
  { split; cbn; try done.
    - setoid_rewrite Hp. cbn. destruct Hwf as [_ Hnd _ _ _ _].
      rewrite <- Permutation_middle in Hnd. done.
    - intros q. setoid_rewrite Hp. cbn. rewrite (wf_dom _ _ Hwf). by rewrite <- Permutation_middle.
    - intros w q. rewrite Hp, elem_of_cons. intros [[= -> ->]|Hin]; [by exists tm|].
      by apply (wf_expiration _ _ Hwf).
    - rewrite (list_to_set_perm_L _ _ (fmap_Permutation (akey (heap s)) _ _ Hp)). cbn.
      f_equal; [|apply (wf_active _ _ Hwf)]. unfold akey, seq_of. cbn. by rewrite Htm.
    - apply (wf_live _ _ Hwf). }
  rewrite (assert_sizes_ok _ _ Hwf'). cbn. do 2 eexists. split; [done|].
  split_and!; try done. cbn. destruct (timers_ s) as [|x l0].
  { subst l'. done. }
  destruct l' as [|y l']; [done|]. cbn. destruct Hhead as (Hy&Hf). cbn in *.
  destruct (Timestamp.ltb (expiration_ tm) (fst x)); [done|]. exists x, l0. split; [done|].
  by apply Hf.
Qed.

Lemma covers_timerfd s s' w : timerfd_ s' = timerfd_ s -> covers s w -> covers s' w.
Proof. intros E (a&Ha&Hd). exists a. by rewrite E. Qed.

Lemma wfx_set_timerfd P s f : wfx P s -> wfx P (set_timerfd f s).
Proof. by intros []. Qed.

Lemma addTimerInLoop_ok P s ptr tm clk bound :
  wfx (ptr :: P) s -> heap s !! ptr = Some tm -> clock_ok clk -> armed_for bound s ->
  exists s', addTimerInLoop ptr clk s = Ok s' /\ wfx P s' /\
    timers_ s' ≡ₚ (expiration_ tm, ptr) :: timers_ s /\ heap s' = heap s /\ frame s s' /\
    armed_for bound s'.
Proof.
  intros Hwf Htm Hclk Harm. unfold addTimerInLoop.
  destruct (insert_ok P s ptr tm Hwf Htm) as (b&s1&->&Hwf1&Hp&Hh&Hfd&Hfr&Hhead). cbn.
  destruct (wf_live _ _ Hwf _ _ Htm) as (_&(Hexp&_)&_).
  destruct b.
  - unfold deref. rewrite Hh, Htm. cbn.
    destruct (resetTimerfd_ok (expiration_ tm) clk s1 Hexp Hclk) as (a&->&Hd).
    eexists. split; [done|]. split; [by apply wfx_set_timerfd|]. split_and!; try done.
    unfold armed_for, head_after in *. cbn. destruct (timers_ s1) as [|y l]; [done|]. subst y.
    intros _. exists a. split; [done|]. cbn. lia.
  - eexists. split; [done|]. split_and!; try done. unfold armed_for, head_after in *.
    destruct (timers_ s1) as [|y l]; [done|]. destruct Hhead as (x&l0&E&Hf). rewrite E in Harm.
    rewrite Hf. intros Hb. by apply (covers_timerfd s), Harm.
Qed.

(** Allocating a timer. *)
Lemma wfx_alloc P s ptr cb when interval :
  wfx P s -> heap s !! ptr = None -> ptr_ok ptr -> - 2 ^ 62 <= when < 2 ^ 62 ->
  (d_pos interval = true -> interval_ok interval) ->
  let seq := s_numCreated_ s + 1 in
  wfx (ptr :: P) (set_created seq (set_heap (<[ptr := timer_new cb when interval seq]> (heap s)) s)).
Proof.
  intros Hwf Hnone Hptr Hw Hi seq.
  assert (ptr ∉ map snd (timers_ s) ++ P) as Hni.
  { rewrite <- (wf_dom _ _ Hwf), Hnone. by intros []. }
  assert (ptr ∉ map snd (timers_ s)) as Hni2 by (intros ?; apply Hni, elem_of_app; by left).
  split; cbn.
  - apply (wf_sorted _ _ Hwf).
  - rewrite <- Permutation_middle. constructor; [done|apply (wf_nodup _ _ Hwf)].
  - intros q. rewrite <- Permutation_middle, elem_of_cons, <- (wf_dom _ _ Hwf), lookup_insert.
    case_decide; [subst; split; [by left|done]|]. split; [by right|by intros [->|]].
  - intros w q Hq. destruct (wf_expiration _ _ Hwf _ _ Hq) as (tm&Htm&?). exists tm.
    rewrite lookup_insert_ne; [done|]. intros ->. congruence.
  - rewrite (wf_active _ _ Hwf). f_equal. apply map_ext_in. intros e He%list_elem_of_In.
    unfold akey, seq_of. rewrite lookup_insert_ne; [done|]. intros ->. apply Hni2, list_elem_of_fmap. eauto.
  - intros q tm. rewrite lookup_insert. case_decide.
    + intros [= <-]. subst q. split; [done|]. split; [|cbn; unfold seq; lia].
      split; [cbn; lia|done].
    + intros Htm. destruct (wf_live _ _ Hwf _ _ Htm) as (?&?&?). split_and!; try done. unfold seq. lia.
Qed.

Lemma covers_mono s w w' : w <= w' -> covers s w -> covers s w'.
Proof. intros Hw (a&Ha&Hd). exists a. split; [done|lia]. Qed.

(** Dropping timers only delays the earliest one. *)
Lemma armed_for_sublist bound s s' :
  StronglySorted entry_lt (timers_ s) -> timers_ s' ⊆ timers_ s -> timerfd_ s' = timerfd_ s ->
  armed_for bound s -> armed_for bound s'.
Proof.
  unfold armed_for. intros Hs Hsub Hfd Harm. destruct (timers_ s') as [|y l']; [done|]. intros Hb.
  assert (y ∈ timers_ s) as Hy by (apply Hsub; left).
  destruct (timers_ s) as [|x l]; [by apply not_elem_of_nil in Hy|].
  assert (fst x <= fst y) as Hle.
  { apply elem_of_cons in Hy as [->|Hy]; [lia|]. apply StronglySorted_inv in Hs as [_ Hall].
    rewrite Forall_forall in Hall. apply Hall in Hy. entries. lia. }
  apply (covers_timerfd s); [done|]. eapply covers_mono; [exact Hle|]. apply Harm.
  destruct bound; [lia|done].
Qed.

(** Forgetting a timer outside [timers_]. *)
Lemma wfx_delete P s ptr : wfx (ptr :: P) s -> wfx P (set_heap (delete ptr (heap s)) s).
Proof.
  intros Hwf.
  assert (ptr ∉ map snd (timers_ s) ++ P) as Hni.
  { pose proof (wf_nodup _ _ Hwf) as Hnd. rewrite <- Permutation_middle in Hnd. by apply NoDup_cons in Hnd as [? _]. }
  assert (ptr ∉ map snd (timers_ s)) as Hni2 by (intros ?; apply Hni, elem_of_app; by left).
  split; cbn.
  - apply (wf_sorted _ _ Hwf).
  - pose proof (wf_nodup _ _ Hwf) as Hnd. rewrite <- Permutation_middle in Hnd. by apply NoDup_cons in Hnd as [_ ?].
  - intros q. rewrite lookup_delete. case_decide.
    + subst q. split; [by intros []|done].
    + rewrite (wf_dom _ _ Hwf), <- Permutation_middle, elem_of_cons. split; [by intros [->|]|by right].
  - intros w q Hq. destruct (wf_expiration _ _ Hwf _ _ Hq) as (tm&Htm&?). exists tm.
    rewrite lookup_delete_ne; [done|]. intros ->. apply Hni2, list_elem_of_fmap. by exists (w, q).
  - rewrite (wf_active _ _ Hwf). f_equal. apply map_ext_in. intros e He%list_elem_of_In.
    unfold akey, seq_of. rewrite lookup_delete_ne; [done|]. intros ->. apply Hni2, list_elem_of_fmap. eauto.
  - intros q tm. rewrite lookup_delete. case_decide; [done|]. apply (wf_live _ _ Hwf).
Qed.

(** Taking one timer out of [timers_] and [activeTimers_]. *)
Lemma wfx_take P s w ptr l' :
  wfx P s -> timers_ s ≡ₚ (w, ptr) :: l' -> StronglySorted entry_lt l' ->
  wfx (ptr :: P) (set_active (activeTimers_ s ∖ {[(ptr, seq_of (heap s) ptr)]}) (set_timers l' s)).
Proof.
  intros Hwf Hp Hs. assert (map snd (timers_ s) ≡ₚ ptr :: map snd l') as Hp2.
  { change (ptr :: map snd l') with (map snd ((w, ptr) :: l')). by apply fmap_Permutation. }
  split; cbn; try done.
  - rewrite <- Permutation_middle. rewrite app_comm_cons, <- Hp2. apply (wf_nodup _ _ Hwf).
  - intros q. by rewrite <- Permutation_middle, app_comm_cons, <- Hp2, (wf_dom _ _ Hwf).
  - intros w' q Hq. apply (wf_expiration _ _ Hwf). rewrite Hp. by right.
  - rewrite (wf_active _ _ Hwf).
    rewrite (list_to_set_perm_L _ _ (fmap_Permutation (akey (heap s)) _ _ Hp)). cbn.
    assert (akey (heap s) (w, ptr) ∉ (list_to_set (akey (heap s) <$> l') : gset (Z * Z))) as Hni.
    { rewrite elem_of_list_to_set, list_elem_of_fmap. intros (e&[= E _]&He).
      pose proof (wf_nodup _ _ Hwf) as Hnd. apply NoDup_app in Hnd as (Hnd&_). rewrite Hp2 in Hnd.
      apply NoDup_cons in Hnd as [Hn _]. apply Hn, list_elem_of_fmap. exists e. split; [done|done]. }
    unfold akey at 1 in Hni. cbn in Hni. unfold akey at 1. cbn.
    rewrite difference_union_distr_l_L, difference_diag_L, union_empty_l_L.
    apply (difference_disjoint_L (C := gset (Z * Z))). by apply disjoint_singleton_r.
  - apply (wf_live _ _ Hwf).
Qed.

Lemma cancelInLoop_ok P s ptr seq bound :
  wfx P s -> armed_for bound s ->
  exists s', cancelInLoop ptr seq s = Ok s' /\ wfx P s' /\ armed_for bound s' /\
    s_numCreated_ s' = s_numCreated_ s /\ trace s' = trace s /\
    callingExpiredTimers_ s' = callingExpiredTimers_ s /\ timerfd_ s' = timerfd_ s /\
    if bool_decide ((ptr, seq) ∈ activeTimers_ s)
    then heap s' = delete ptr (heap s) /\ cancelingTimers_ s' = cancelingTimers_ s /\
         exists w, timers_ s ≡ₚ (w, ptr) :: timers_ s'
    else heap s' = heap s /\ timers_ s' = timers_ s /\ activeTimers_ s' = activeTimers_ s /\
         cancelingTimers_ s' = if callingExpiredTimers_ s then {[(ptr, seq)]} ∪ cancelingTimers_ s
                               else cancelingTimers_ s.
Proof.
  intros Hwf Harm. unfold cancelInLoop. rewrite (assert_sizes_ok _ _ Hwf). cbn.
  case_bool_decide as Hact.
  - pose proof Hact as Hact'. apply (elem_of_active _ _ _ _ Hwf) in Hact' as (Hin&Hseq).
    apply list_elem_of_fmap in Hin as ([w q]&Eq&Hin). cbn in Eq. subst q.
    destruct (wf_expiration _ _ Hwf _ _ Hin) as (tm&Htm&Hexp). unfold deref. rewrite Htm. cbn. rewrite Hexp.
    pose proof (wf_nodup _ _ Hwf) as Hnd. apply NoDup_app in Hnd as (Hnd&_).
    destruct (set_erase_ok _ _ Hnd Hin) as (l'&E&Hp&Hss). rewrite E. cbn.
    pose proof (wfx_take P s w ptr l' Hwf Hp (Hss (wf_sorted _ _ Hwf))) as Hwf1.
    apply wfx_delete in Hwf1. rewrite Hseq in Hwf1.
    set (s' := set_active _ _). assert (wfx P s') as Hwf' by exact Hwf1.
    rewrite (assert_sizes_ok _ _ Hwf'). cbn. eexists. split; [done|]. split_and!; try done; [|by exists w].
    apply (armed_for_sublist bound s); try done; [apply (wf_sorted _ _ Hwf)|].
    intros e He. rewrite Hp. by right.
  - destruct (callingExpiredTimers_ s) eqn:Ec; cbn.
    + set (s' := set_canceling _ _). assert (wfx P s') as Hwf' by by destruct Hwf.
      rewrite (assert_sizes_ok _ _ Hwf'). cbn. eexists. by split_and!.
    + rewrite (assert_sizes_ok _ _ Hwf). cbn. eexists. by split_and!.
Qed.

Lemma erase_active_loop h a s :
  heap s = h -> NoDup (map snd a) ->
  (forall e, e ∈ a -> is_Some (h !! snd e) /\ akey h e ∈ activeTimers_ s) ->
  foldM erase_active s a = Ok (set_active (activeTimers_ s ∖ list_to_set (map (akey h) a)) s).
Proof.
  revert s. induction a as [|e a IH]; intros s Hh Hnd Hall; cbn.
  { rewrite difference_empty_L. by destruct s. }
  apply NoDup_cons in Hnd as [Hni Hnd].
  destruct (Hall e) as ([tm Htm]&Hin); [left|].
  assert (akey h e = (snd e, sequence_ tm)) as Hk by (unfold akey, seq_of; by rewrite Htm).
  unfold erase_active at 2, deref. rewrite Hh, Htm. cbn. rewrite <- Hk, bool_decide_eq_true_2 by done. cbn.
  rewrite IH; cbn; [|done|done|].
  - rewrite <- difference_difference_l_L. by destruct s.
  - intros e' He'. destruct (Hall e') as (?&?); [by right|]. split; [done|].
    apply elem_of_difference. split; [done|]. rewrite elem_of_singleton. intros [= E _].
    apply Hni, list_elem_of_fmap. by exists e'.
Qed.

Lemma getExpired_ok s now :
  wf s ->
  exists a b s', getExpired now s = Ok (a, s') /\ timers_ s = a ++ b /\
    Forall (fun e => fst e <= now) a /\ Forall (fun e => now < fst e) b /\
    timers_ s' = b /\ wfx (map snd a) s' /\ heap s' = heap s /\ timerfd_ s' = timerfd_ s /\ frame s s'.
Proof.
  intros Hwf. unfold getExpired. rewrite (assert_sizes_ok _ _ Hwf). cbn.
  destruct (split_lower_bound_ok now (timers_ s) (wf_sorted _ _ Hwf)) as (a&b&->&Hab&Ha&Hb).
  { apply Forall_forall. intros [w p] Hin. destruct (wf_expiration _ _ Hwf _ _ Hin) as (tm&Htm&_).
    by apply (wf_live _ _ Hwf) in Htm as (?&_). }
  assert_ok by (destruct b as [|e b]; [done|]; apply Forall_cons in Hb as [? _]; unfold Timestamp.ltb; zbool; lia).
  pose proof (wf_nodup _ _ Hwf) as Hnd. rewrite Hab, app_nil_r, map_app in Hnd.
  pose proof Hnd as Hnd0. apply NoDup_app in Hnd0 as (Hnda&Hdis&Hndb).
  assert (activeTimers_ s = list_to_set (map (akey (heap s)) a) ∪ list_to_set (map (akey (heap s)) b)) as Hact.
  { by rewrite (wf_active _ _ Hwf), Hab, map_app, list_to_set_app_L. }
  rewrite (erase_active_loop (heap s)); cbn; [|done|done|].
  2: { intros [w p] He. split.
       - cbn. destruct (wf_expiration _ _ Hwf w p) as (tm&->&_); [rewrite Hab; apply elem_of_app; by left|done].
       - rewrite Hact. apply elem_of_union_l, elem_of_list_to_set, list_elem_of_fmap. by exists (w, p). }
  set (s' := set_active _ _).
  assert (wfx (map snd a) s') as Hwf'.
  { split; cbn.
    - pose proof (wf_sorted _ _ Hwf) as Hs. rewrite Hab in Hs. by apply StronglySorted_app_1_r in Hs.
    - by rewrite Permutation_app_comm.
    - intros q. rewrite (wf_dom _ _ Hwf), Hab, app_nil_r, map_app. by rewrite Permutation_app_comm.
    - intros w q Hq. apply (wf_expiration _ _ Hwf). rewrite Hab. apply elem_of_app. by right.
    - rewrite Hact, difference_union_distr_l_L, difference_diag_L, union_empty_l_L.
      apply (difference_disjoint_L (C := gset (Z * Z))). intros k.
      rewrite !elem_of_list_to_set, !list_elem_of_fmap. intros (e1&->&He1) (e2&[= E _]&He2).
      apply (Hdis (snd e2)); apply list_elem_of_fmap; eauto.
    - apply (wf_live _ _ Hwf). }
  rewrite (assert_sizes_ok _ _ Hwf'). cbn. exists a, b, s'. by split_and!.
Qed.

Lemma restart_ok now tm :
  timer_ok tm -> clock_ok now -> repeat_ tm = true ->
  exists tm', restart now tm = Ok tm' /\ timer_ok tm' /\ sequence_ tm' = sequence_ tm /\
    callback_ tm' = callback_ tm /\ repeat_ tm' = true /\ now <= expiration_ tm' /\
    Timestamp.addTime now (interval_ tm) = Ok (expiration_ tm').
Proof.
  unfold clock_ok. intros (Hexp&Hi) Hnow Hr. destruct (Hi Hr) as (delta&Hd&Hb).
  unfold restart, Timestamp.addTime. rewrite Hr, Hd. cbn [mbind outcome_bind].
  rewrite Timestamp.int64_op_ok by (unfold srange; lia). cbn [mbind outcome_bind].
  eexists. split; [done|]. cbn. split_and!; try done; [|lia]. split; [cbn; lia|]. cbn. intros _. by apply Hi.
Qed.

(** Changing the expiration of a timer outside [timers_]. *)
Lemma wfx_write P s ptr tm tm' :
  wfx (ptr :: P) s -> heap s !! ptr = Some tm -> timer_ok tm' -> sequence_ tm' = sequence_ tm ->
  wfx (ptr :: P) (set_heap (<[ptr := tm']> (heap s)) s).
Proof.
  intros Hwf Htm Hok Hseq. pose proof (wf_nodup _ _ Hwf) as Hnd. rewrite <- Permutation_middle in Hnd.
  apply NoDup_cons in Hnd as [Hni _].
  assert (ptr ∉ map snd (timers_ s)) as Hni2 by (intros ?; apply Hni, elem_of_app; by left).
  split; cbn.
  - apply (wf_sorted _ _ Hwf).
  - apply (wf_nodup _ _ Hwf).
  - intros q. rewrite <- (wf_dom _ _ Hwf), lookup_insert. case_decide; [subst; rewrite Htm; split; eauto|done].
  - intros w q Hq. destruct (wf_expiration _ _ Hwf _ _ Hq) as (tmq&?&?). exists tmq.
    rewrite lookup_insert_ne; [done|]. intros ->. apply Hni2, list_elem_of_fmap. by exists (w, q).
  - rewrite (wf_active _ _ Hwf). f_equal. apply map_ext_in. intros e He%list_elem_of_In.
    unfold akey, seq_of. rewrite lookup_insert_ne; [done|]. intros ->. apply Hni2, list_elem_of_fmap. eauto.
  - intros q tmq. rewrite lookup_insert. case_decide; [|apply (wf_live _ _ Hwf)].
    intros [= <-]. subst q. destruct (wf_live _ _ Hwf _ _ Htm) as (?&_&?). by rewrite Hseq.
Qed.

(** What [reset] makes of one expired timer. *)
Definition reset_result (now : Timestamp.t) (canceling : gset (Z * Z)) (ptr : Z) (tm : timer)
    (after : option timer) : Prop :=
  if repeat_ tm && bool_decide ((ptr, sequence_ tm) ∉ canceling)
  then exists tm', restart now tm = Ok tm' /\ after = Some tm'
  else after = None.

Lemma reset_one_ok P s it now :
  wfx (snd it :: P) s -> clock_ok now ->
  exists tm s', heap s !! snd it = Some tm /\ reset_one now s it = Ok s' /\ wfx P s' /\
    frame s s' /\ timerfd_ s' = timerfd_ s /\
    reset_result now (cancelingTimers_ s) (snd it) tm (heap s' !! snd it) /\
    (forall q, q <> snd it -> heap s' !! q = heap s !! q) /\
    (forall e, e ∈ timers_ s' -> e ∈ timers_ s \/ now <= fst e).
Proof.
  intros Hwf Hnow. destruct (heap s !! snd it) as [tm|] eqn:Htm.
  2: { exfalso. assert (is_Some (heap s !! snd it)) as []; [|congruence].
       apply (wf_dom _ _ Hwf), elem_of_app. right. left. }
  exists tm. unfold reset_one, deref, reset_result. rewrite Htm. cbn.
  destruct (repeat_ tm && _) eqn:Er.
  - apply andb_true_iff in Er as [Hr _]. destruct (wf_live _ _ Hwf _ _ Htm) as (_&Hok&_).
    destruct (restart_ok now tm Hok Hnow Hr) as (tm'&->&Hok'&Hseq&_&_&Hle&_). cbn.
    pose proof (wfx_write P s _ tm tm' Hwf Htm Hok' Hseq) as Hwf1.
    destruct (insert_ok P _ (snd it) tm' Hwf1) as (b&s'&->&Hwf2&Hp&Hh&Hfd&Hfr&_); [apply lookup_insert_eq|].
    cbn in *. exists s'. split_and!; try done.
    + exists tm'. by rewrite Hh, lookup_insert_eq.
    + intros q Hq. by rewrite Hh, lookup_insert_ne.
    + intros e. rewrite Hp, elem_of_cons. intros [->|?]; [right; done|by left].
  - eexists. split_and!; try done; cbn.
    + by apply wfx_delete.
    + apply lookup_delete_eq.
    + intros q Hq. by rewrite lookup_delete_ne.
    + auto.
Qed.

Lemma reset_loop_ok l P s now :
  wfx (map snd l ++ P) s -> clock_ok now ->
  exists s', foldM (reset_one now) s l = Ok s' /\ wfx P s' /\ frame s s' /\ timerfd_ s' = timerfd_ s /\
    (forall ptr tm, ptr ∈ map snd l -> heap s !! ptr = Some tm ->
       reset_result now (cancelingTimers_ s) ptr tm (heap s' !! ptr)) /\
    (forall q, q ∉ map snd l -> heap s' !! q = heap s !! q) /\
    (forall e, e ∈ timers_ s' -> e ∈ timers_ s \/ now <= fst e).
Proof.
  revert s. induction l as [|it l IH]; intros s Hwf Hnow; cbn in *.
  { exists s. split_and!; try done; [|by left]. intros ??. by rewrite elem_of_nil. }
  pose proof (wf_nodup _ _ Hwf) as Hnd. apply NoDup_app in Hnd as (_&_&[Hni _]%NoDup_cons).
  destruct (reset_one_ok _ s it now Hwf Hnow) as (tm&s1&Htm&->&Hwf1&Hfr1&Hfd1&Hres&Hoth&Hin1). cbn.
  destruct (IH s1 Hwf1 Hnow) as (s'&->&Hwf'&Hfr&Hfd&Hall&Hrest&Hin).
  unfold frame in *. exists s'. split_and!; try (done || intuition congruence).
  - intros p tmp Hp Htmp. destruct (decide (p = snd it)) as [->|Hne].
    + rewrite Hrest; [congruence|]. intros ?. apply Hni, elem_of_app. by left.
    + apply elem_of_cons in Hp as [?|Hp]; [done|].
      replace (cancelingTimers_ s) with (cancelingTimers_ s1) by intuition.
      apply Hall; [done|]. by rewrite Hoth.
  - intros q [Hq1 Hq2]%not_elem_of_cons. by rewrite Hrest, Hoth.
  - intros e He. destruct (Hin _ He) as [He'|]; [|by right]. by apply Hin1.
Qed.

Lemma reset_ok l s now clk :
  wfx (map snd l) s -> clock_ok now -> clock_ok clk -> armed_for (Some 0) s ->
  exists s', reset l now clk s = Ok s' /\ wf s' /\ frame s s' /\ armed_for None s' /\
    (forall ptr tm, ptr ∈ map snd l -> heap s !! ptr = Some tm ->
       reset_result now (cancelingTimers_ s) ptr tm (heap s' !! ptr)) /\
    (forall q, q ∉ map snd l -> heap s' !! q = heap s !! q).
Proof.
  intros Hwf Hnow Hclk Harm. unfold reset.
  destruct (reset_loop_ok l [] s now) as (s1&->&Hwf1&Hfr&Hfd&Hall&Hrest&Hin); [by rewrite app_nil_r|done|].
  cbn. destruct (timers_ s1) as [|[w p] rest] eqn:El; cbn.
  { exists s1. split_and!; try done. unfold armed_for. by rewrite El. }
  destruct (wf_expiration _ _ Hwf1 w p) as (tm&Htm&Hexp); [rewrite El; left|].
  unfold deref. rewrite Htm. cbn. rewrite Hexp. unfold Timestamp.valid. destruct (Z.ltb_spec 0 w).
  - destruct (wf_live _ _ Hwf1 _ _ Htm) as (_&(Hb&_)&_). rewrite Hexp in Hb.
    destruct (resetTimerfd_ok w clk s1 Hb Hclk) as (a&->&Hd). eexists. split; [done|].
    split_and!; try done; [by apply wfx_set_timerfd|].
    unfold armed_for. cbn. rewrite El. intros _. exists a. split; [done|]. cbn. lia.
  - exists s1. split_and!; try done. unfold armed_for in *. rewrite El. intros _. cbn.
    destruct (Hin (w, p)) as [Hs|]; [left|..].
    + destruct (timers_ s) as [|x l0] eqn:Es; [by apply not_elem_of_nil in Hs|].
      assert (fst x <= w) as Hle.
      { apply elem_of_cons in Hs as [<-|Hs]; [done|]. pose proof (wf_sorted _ _ Hwf) as Hss.
        rewrite Es in Hss. apply StronglySorted_inv in Hss as [_ Hf]. rewrite Forall_forall in Hf.
        apply Hf in Hs. entries. lia. }
      apply (covers_timerfd s); [done|]. eapply covers_mono; [exact Hle|]. apply Harm. lia.
    + unfold clock_ok in Hnow. cbn in *. lia.
Qed.

(** Legal calls: [new] returns an address that is not in use, and times stay in
    the range covered. *)
Definition op_legal (o : op) (s : t) : Prop :=
  match o with
  | Add ptr cb when interval clk =>
      heap s !! ptr = None /\ ptr_ok ptr /\ - 2 ^ 62 <= when < 2 ^ 62 /\
      (d_pos interval = true -> interval_ok interval) /\ clock_ok clk
  | Cancel _ _ => True
  end.
Fixpoint ops_legal (ops : list op) (s : t) : Prop :=
  match ops with
  | [] => True
  | o :: ops' => op_legal o s /\ forall s', exec_op s o = Ok s' -> ops_legal ops' s'
  end.
Definition script_legal (script : Z -> t -> list op) : Prop :=
  forall cb s, ops_legal (script cb s) s.

(** How the queue evolves under calls made while the timers [P] are out of
    it: they stay as they are, and exactly the requested cancellations are
    recorded against them. *)
Record evolves (P : list Z) (evs : list event) (s s' : t) : Prop := {
  ev_trace : trace s' = trace s ++ evs;
  ev_calling : callingExpiredTimers_ s' = callingExpiredTimers_ s;
  ev_heap : forall p, p ∈ P -> heap s' !! p = heap s !! p;
  ev_cancel : callingExpiredTimers_ s = true -> forall p q, p ∈ P ->
    (p, q) ∈ cancelingTimers_ s' <-> (p, q) ∈ cancelingTimers_ s \/ EvCancel p q ∈ evs
}.

Lemma evolves_refl P s : evolves P [] s s.
Proof. split; try done; [by rewrite app_nil_r|]. intros _ p q _. rewrite elem_of_nil. tauto. Qed.

Lemma evolves_trans P e1 e2 s1 s2 s3 :
  evolves P e1 s1 s2 -> evolves P e2 s2 s3 -> evolves P (e1 ++ e2) s1 s3.
Proof.
  intros [T1 C1 H1 K1] [T2 C2 H2 K2]. split; [by rewrite T2, T1, app_assoc|congruence|..].
  - intros p Hp. by rewrite H2, H1.
  - intros Hc p q Hp. rewrite K2, K1, elem_of_app by congruence. tauto.
Qed.

Definition runs (evs : list event) : list Z :=
  omap (fun e => match e with EvRun q => Some q | _ => None end) evs.

Lemma exec_op_ok P s o bound :
  wfx P s -> op_legal o s -> armed_for bound s ->
  exists s' evs, exec_op s o = Ok s' /\ wfx P s' /\ armed_for bound s' /\ evolves P evs s s' /\ runs evs = [].
Proof.
  intros Hwf Hlegal Harm. destruct o as [ptr cb when interval clk|ptr seq]; cbn in *.
  - destruct Hlegal as (Hnone&Hp&Hw&Hi&Hclk). unfold addTimer.
    pose proof (wfx_alloc P s ptr cb when interval Hwf Hnone Hp Hw Hi) as Hwf1. cbn in Hwf1.
    set (s1 := set_created _ _) in *.
    destruct (addTimerInLoop_ok P s1 ptr (timer_new cb when interval (s_numCreated_ s + 1)) clk bound Hwf1)
      as (s'&->&Hwf'&Hperm&Hh&(Hc&Hk&_&Htr)&Harm'); [by apply lookup_insert_eq|done|done|].
    exists s', []. split_and!; try done. split; try done.
    + by rewrite Htr, app_nil_r.
    + intros p Hpin. rewrite Hh. cbn. rewrite lookup_insert_ne; [done|]. intros <-.
      assert (is_Some (heap s !! ptr)) as []; [|congruence].
      apply (wf_dom _ _ Hwf), elem_of_app. by right.
    + intros _ p q _. rewrite Hk, elem_of_nil. tauto.
  - assert (wfx P (log_event (EvCancel ptr seq) s)) as Hwf1 by by destruct Hwf.
    destruct (cancelInLoop_ok P (log_event (EvCancel ptr seq) s) ptr seq bound Hwf1 Harm)
      as (s'&->&Hwf'&Harm'&_&Htr&Hc&_&Hcase).
    exists s', [EvCancel ptr seq]. split_and!; try done. cbn in *. split; try done.
    + intros p Hpin. case_bool_decide as Hact; [|by destruct Hcase as (->&_)].
      destruct Hcase as (->&_). rewrite lookup_delete_ne; [done|]. intros <-.
      apply (elem_of_active _ _ _ _ Hwf) in Hact as (Hin&_).
      pose proof (wf_nodup _ _ Hwf) as Hnd. apply NoDup_app in Hnd as (_&Hd&_). by apply (Hd _ Hin).
    + intros Hcall p q Hpin. rewrite list_elem_of_singleton. case_bool_decide as Hact.
      * destruct Hcase as (_&->&_). split; [by left|]. intros [|[= -> ->]]; [done|].
        apply (elem_of_active _ _ _ _ Hwf) in Hact as (Hin&_).
        pose proof (wf_nodup _ _ Hwf) as Hnd. apply NoDup_app in Hnd as (_&Hd&_). by destruct (Hd _ Hin).
      * destruct Hcase as (_&_&_&->). rewrite Hcall, elem_of_union, elem_of_singleton.
        split; [intros [[= -> ->]|]|intros [|[= -> ->]]]; auto.
Qed.

Lemma exec_ops_ok P ops s bound :
  wfx P s -> ops_legal ops s -> armed_for bound s ->
  exists s' evs, foldM exec_op s ops = Ok s' /\ wfx P s' /\ armed_for bound s' /\ evolves P evs s s' /\ runs evs = [].
Proof.
  revert s. induction ops as [|o ops IH]; intros s Hwf Hlegal Harm; cbn in *.
  { exists s, []. split_and!; try done. apply evolves_refl. }
  destruct Hlegal as (Ho&Hops).
  destruct (exec_op_ok P s o bound Hwf Ho Harm) as (s1&e1&E&Hwf1&Harm1&Hev1&Hr1).
  rewrite E. cbn. destruct (IH s1 Hwf1 (Hops _ E) Harm1) as (s2&e2&->&Hwf2&Harm2&Hev2&Hr2).
  exists s2, (e1 ++ e2). split_and!; try done; [by eapply evolves_trans|].
  unfold runs in *. by rewrite omap_app, Hr1, Hr2.
Qed.

Section Run.
Context (script : Z -> t -> list op) (Hscript : script_legal script).

Lemma run_timers_ok P l s bound :
  wfx P s -> armed_for bound s -> (forall e, e ∈ l -> snd e ∈ P) ->
  exists s' evs, foldM (run_timer script) s l = Ok s' /\ wfx P s' /\ armed_for bound s' /\
    evolves P evs s s' /\ runs evs = map (fun e => seq_of (heap s) (snd e)) l.
Proof.
  revert s. induction l as [|it l IH]; intros s Hwf Harm Hin; cbn.
  { exists s, []. split_and!; try done. apply evolves_refl. }
  assert (snd it ∈ P) as Hit by (apply Hin; left).
  destruct (heap s !! snd it) as [tm|] eqn:Htm.
  2: { assert (is_Some (heap s !! snd it)) as []; [|congruence].
       apply (wf_dom _ _ Hwf), elem_of_app. by right. }
  unfold run_timer at 2, deref. rewrite Htm. cbn.
  set (s0 := log_event (EvRun (sequence_ tm)) s).
  assert (evolves P [EvRun (sequence_ tm)] s s0) as Hev0.
  { split; try done. intros _ p q _. rewrite list_elem_of_singleton. split; [by left|by intros [|]]. }
  destruct (exec_ops_ok P (script (callback_ tm) s0) s0 bound) as (s1&e1&->&Hwf1&Harm1&Hev1&Hr1);
    [by destruct Hwf|apply Hscript|done|]. cbn.
  destruct (IH s1 Hwf1 Harm1) as (s2&e2&->&Hwf2&Harm2&Hev2&Hr2); [intros e He; apply Hin; by right|].
  exists s2, ([EvRun (sequence_ tm)] ++ e1 ++ e2). split_and!; try done.
  - eapply evolves_trans; [exact Hev0|]. by eapply evolves_trans.
  - unfold runs in *. rewrite !omap_app, Hr1, Hr2. cbn. f_equal; [unfold seq_of; by rewrite Htm|].
    apply map_ext_in. intros e He%list_elem_of_In. unfold seq_of.
    by rewrite (ev_heap _ _ _ _ Hev1) by (apply Hin; by right).
Qed.

(** One expiry of the timerfd, from the state before to the state after. *)
Lemma handleRead_ok s now clk fired :
  wf s -> clock_ok now -> clock_ok clk ->
  exists s' expired evs,
    handleRead script now clk fired s = Ok s' /\ wf s' /\ armed_for None s' /\
    expired = filter (fun e => fst e <= now) (timers_ s) /\
    trace s' = trace s ++ evs /\ runs evs = map (fun e => seq_of (heap s) (snd e)) expired /\
    callingExpiredTimers_ s' = false /\
    forall w ptr tm, (w, ptr) ∈ expired -> heap s !! ptr = Some tm ->
      if repeat_ tm && bool_decide (EvCancel ptr (sequence_ tm) ∉ evs)
      then exists tm', restart now tm = Ok tm' /\ heap s' !! ptr = Some tm' /\ (expiration_ tm', ptr) ∈ timers_ s'
      else heap s' !! ptr = None.
Proof.
  intros Hwf Hnow Hclk. unfold handleRead.
  set (s0 := if fired then _ else s).
  assert (wf s0 /\ timers_ s0 = timers_ s /\ heap s0 = heap s /\ trace s0 = trace s) as (Hwf0&Et&Eh&Etr).
  { unfold s0. destruct fired; [|done]. split; [by apply wfx_set_timerfd|done]. }
  destruct (getExpired_ok s0 now Hwf0) as (a&b&s1&->&Hab&Ha&Hb&Hb1&Hwf1&Hh1&Hfd1&Hfr1). cbn.
  set (s2 := set_canceling ∅ (set_calling true s1)).
  assert (wfx (map snd a) s2) as Hwf2 by by destruct Hwf1.
  assert (armed_for (Some 0) s2) as Harm2.
  { unfold armed_for. cbn. rewrite Hb1. destruct b as [|e b]; [done|]. apply Forall_cons in Hb as [? _].
    unfold clock_ok in Hnow. lia. }
  destruct (run_timers_ok (map snd a) a s2 (Some 0) Hwf2 Harm2) as (s3&evs&->&Hwf3&Harm3&Hev&Hruns).
  { intros e He. apply list_elem_of_fmap. eauto. }
  cbn. destruct (reset_ok a (set_calling false s3) now clk) as (s4&->&Hwf4&(Hc4&_&_&Htr4)&Harm4&Hres&Hoth);
    [by destruct Hwf3|done|done|done|].
  exists s4, a, evs. destruct Hfr1 as (_&_&_&Htr1). split_and!; try done.
  - rewrite <- Et, Hab, filter_app, filter_all, filter_none; [by rewrite app_nil_r| |done].
    eapply Forall_impl; [exact Hb|]. cbn. lia.
  - rewrite Htr4. cbn. rewrite (ev_trace _ _ _ _ Hev). cbn. by rewrite Htr1, Etr.
  - rewrite Hruns. apply map_ext. intros e. cbn. by rewrite Hh1, Eh.
  - intros w ptr tm Hin Htm.
    assert (ptr ∈ map snd a) as Hp by (apply list_elem_of_fmap; by exists (w, ptr)).
    assert (heap s3 !! ptr = Some tm) as Htm3.
    { rewrite (ev_heap _ _ _ _ Hev) by done. cbn. by rewrite Hh1, Eh. }
    specialize (Hres ptr tm Hp Htm3). unfold reset_result in Hres. cbn in Hres.
    pose proof (ev_cancel _ _ _ _ Hev eq_refl ptr (sequence_ tm) Hp) as Hcancel. cbn in Hcancel.
    rewrite (bool_decide_ext (_ ∉ cancelingTimers_ s3) (EvCancel ptr (sequence_ tm) ∉ evs)) in Hres
      by (rewrite Hcancel, elem_of_empty; tauto).
    destruct (_ && _); [|done]. destruct Hres as (tm'&Hr&Hs4). exists tm'. split_and!; try done.
    assert (ptr ∈ map snd (timers_ s4) ++ []) as Hlive by (apply (wf_dom _ _ Hwf4); eauto).
    rewrite app_nil_r in Hlive. apply list_elem_of_fmap in Hlive as ([w' p]&Ep&He). cbn in Ep. subst p.
    destruct (wf_expiration _ _ Hwf4 _ _ He) as (tm2&Htm2&Hexp). replace (expiration_ tm') with w'; [done|congruence].
Qed.

Definition cmd_legal (c : cmd) (s : t) : Prop :=
  match c with
  | Op o => op_legal o s
  | HandleRead now clk _ => clock_ok now /\ clock_ok clk
  end.
Fixpoint cmds_legal (cs : list cmd) (s : t) : Prop :=
  match cs with
  | [] => True
  | c :: cs' => cmd_legal c s /\ forall s', exec script s c = Ok s' -> cmds_legal cs' s'
  end.

Lemma exec_ok s c :
  wf s -> armed_for None s -> callingExpiredTimers_ s = false -> cmd_legal c s ->
  exists s', exec script s c = Ok s' /\ wf s' /\ armed_for None s' /\ callingExpiredTimers_ s' = false.
Proof.
  intros Hwf Harm Hc Hlegal. destruct c as [o|now clk fired]; cbn in *.
  - destruct (exec_op_ok [] s o None Hwf Hlegal Harm) as (s'&evs&->&?&?&Hev&_).
    exists s'. split_and!; try done. by rewrite (ev_calling _ _ _ _ Hev).
  - destruct Hlegal as (Hnow&Hclk).
    destruct (handleRead_ok s now clk fired Hwf Hnow Hclk) as (s'&_&_&->&?&?&_&_&_&?&_).
    by exists s'.
Qed.

Lemma run_ok_from s cs :
  wf s -> armed_for None s -> callingExpiredTimers_ s = false -> cmds_legal cs s ->
  exists s', run script s cs = Ok s' /\ wf s' /\ armed_for None s' /\ callingExpiredTimers_ s' = false.
Proof.
  revert s. induction cs as [|c cs IH]; intros s Hwf Harm Hc Hlegal; cbn in *; [by exists s|].
  destruct Hlegal as (Hl&Hls). destruct (exec_ok s c Hwf Harm Hc Hl) as (s1&E&?&?&?).
  unfold run. cbn. rewrite E. cbn. apply IH; auto.
Qed.

Lemma wf_new : wf new_.
Proof.
  split; cbn; [constructor|constructor| | |done|done].
  - intros ptr. rewrite lookup_empty. split; [by intros []|by intros ?%not_elem_of_nil].
  - by intros ?? ?%not_elem_of_nil.
Qed.

Lemma run_ok cs :
  cmds_legal cs new_ ->
  exists s', run script new_ cs = Ok s' /\ wf s' /\ armed_for None s' /\ callingExpiredTimers_ s' = false.
Proof. apply run_ok_from; [apply wf_new|done|done]. Qed.

End Run.

(** * Properties *)

(** C5: the timer queue never faults and always stays armed.  For any sequence of
    [addTimer], [cancel] and timer expirations, with callbacks that add and
    cancel timers as they like, no assertion fails and no deleted timer is
    touched; afterwards [timers_] and [activeTimers_] hold the same live
    timers, sorted by expiration, no timer is leaked, and the timerfd is armed
    for the earliest of them. *)
Theorem timer_queue_safe_and_armed script cs :
  script_legal script -> cmds_legal script cs new_ ->
  exists s, run script new_ cs = Ok s /\ wf s /\
    match timers_ s with [] => heap s = ∅ | e :: _ => covers s (fst e) end.
Proof.
  intros Hscript Hcs. destruct (run_ok script Hscript cs Hcs) as (s&->&Hwf&Harm&_).
  exists s. split; [done|]. split; [done|]. unfold armed_for in Harm.
  destruct (timers_ s) as [|e l] eqn:E; [|by apply Harm]. apply map_empty. intros ptr.
  destruct (heap s !! ptr) eqn:El; [|done].
  assert (ptr ∈ map snd (timers_ s) ++ []) as Hin by (apply (wf_dom _ _ Hwf); eauto).
  rewrite E in Hin. by apply not_elem_of_nil in Hin.
Qed.

(** A callback 7 that cancels the timer it was first given, and an interval of
    a millisecond. *)
Definition witness_script (cb : Z) (s : t) : list op := if cb =? 7 then [Cancel 4096 1] else [].
Definition witness_interval : double := d_div (d_of_Z 1) (d_of_Z 1000).
Definition witness_adds : list cmd :=
  [Op (Add 4096 7 500 witness_interval 100); Op (Add 8192 8 550 witness_interval 110)].
Definition witness_cmds : list cmd :=
  [Op (Add 4096 7 500 witness_interval 100); Op (Add 8192 8 550 witness_interval 110);
   HandleRead 600 601 true].

Lemma witness_script_legal : script_legal witness_script.
Proof. intros cb s. unfold witness_script. by destruct (cb =? 7). Qed.

Lemma witness_interval_ok : interval_ok witness_interval.
Proof. exists 1000. vm_compute. split; [reflexivity|by split]. Qed.

Lemma witness_add_legal s ptr cb when clk :
  heap s !! ptr = None -> ptr_ok ptr -> - 2 ^ 62 <= when < 2 ^ 62 -> clock_ok clk ->
  cmd_legal (Op (Add ptr cb when witness_interval clk)) s.
Proof. intros. split_and!; try done || lia. intros _. apply witness_interval_ok. Qed.

Lemma witness_adds_legal : cmds_legal witness_script witness_adds new_.
Proof.
  split; [by apply witness_add_legal|]. intros s1 E1. vm_compute in E1. injection E1 as <-.
  split; [by apply witness_add_legal|done].
Qed.

Lemma witness_cmds_legal : cmds_legal witness_script witness_cmds new_.
Proof.
  split; [by apply witness_add_legal|]. intros s1 E1. vm_compute in E1. injection E1 as <-.
  split; [by apply witness_add_legal|]. intros s2 _. by split.
Qed.

Lemma timer_queue_safe_and_armed_witness :
  exists s, run witness_script new_ witness_cmds = Ok s /\ wf s /\ timers_ s = [(1600, 8192)] /\ covers s 1600.
Proof.
  destruct (timer_queue_safe_and_armed witness_script witness_cmds) as (s&E&Hwf&Harm).
  - apply witness_script_legal.
  - apply witness_cmds_legal.
  - exists s. split; [exact E|]. split; [exact Hwf|]. vm_compute in E. injection E as <-.
    split; [reflexivity|]. exact Harm.
Defined.

(** C6: one expiry of the timerfd runs exactly the timers that are due, in order
    of expiration, and then each of them is rescheduled at [now + interval] if
    it repeats and no callback of this round cancelled it, and deleted
    otherwise. *)
Theorem handleRead_runs_due_timers script cs s now clk fired :
  script_legal script -> cmds_legal script cs new_ -> run script new_ cs = Ok s ->
  clock_ok now -> clock_ok clk ->
  exists s' evs, let expired := filter (fun e => fst e <= now) (timers_ s) in
    handleRead script now clk fired s = Ok s' /\
    trace s' = trace s ++ evs /\ runs evs = map (fun e => seq_of (heap s) (snd e)) expired /\
    forall w ptr tm, (w, ptr) ∈ expired -> heap s !! ptr = Some tm ->
      if repeat_ tm && bool_decide (EvCancel ptr (sequence_ tm) ∉ evs)
      then exists tm', restart now tm = Ok tm' /\ heap s' !! ptr = Some tm' /\ (expiration_ tm', ptr) ∈ timers_ s'
      else heap s' !! ptr = None.
Proof.
  intros Hscript Hcs Hrun Hnow Hclk.
  destruct (run_ok script Hscript cs Hcs) as (s0&E&Hwf&_). assert (s0 = s) as -> by congruence.
  destruct (handleRead_ok script Hscript s now clk fired Hwf Hnow Hclk)
    as (s'&expired&evs&?&?&?&->&?&?&?&?). exists s', evs. by split_and!.
Qed.

Lemma handleRead_runs_due_timers_witness :
  exists s s' evs,
    run witness_script new_ witness_adds = Ok s /\
    handleRead witness_script 600 601 true s = Ok s' /\
    trace s' = trace s ++ evs /\ runs evs = [1; 2] /\ heap s' !! 4096 = None.
Proof.
  assert (exists s, run witness_script new_ witness_adds = Ok s) as [s E]
    by (eexists; vm_compute; reflexivity).
  destruct (handleRead_runs_due_timers witness_script witness_adds s 600 601 true)
    as (s'&evs&Hr&Ht&Hruns&_).
  - apply witness_script_legal.
  - apply witness_adds_legal.
  - exact E.
  - by split.
  - by split.
  - exists s, s', evs. split; [exact E|]. split; [exact Hr|]. split; [exact Ht|].
    vm_compute in E. injection E as <-. split; [exact Hruns|].
    vm_compute in Hr. injection Hr as <-. reflexivity.
Defined.

(** C7: [cancel] removes exactly the timer its [TimerId] names.  Outside the
    callbacks, cancelling (address, sequence) deletes the timer at that address
    if it still is the one with that sequence number; an id whose timer is gone
    removes nothing, even when the address has been reused. *)
Theorem cancel_removes_exactly_the_named_timer script cs s ptr seq :
  script_legal script -> cmds_legal script cs new_ -> run script new_ cs = Ok s ->
  exists s', cancelInLoop ptr seq s = Ok s' /\
    heap s' = (if bool_decide (sequence_ <$> heap s !! ptr = Some seq) then delete ptr (heap s) else heap s) /\
    forall w q, (w, q) ∈ timers_ s' <-> (w, q) ∈ timers_ s /\ is_Some (heap s' !! q).
Proof.
  intros Hscript Hcs Hrun. destruct (run_ok script Hscript cs Hcs) as (s0&E&Hwf&Harm&Hcall).
  assert (s0 = s) as -> by congruence.
  destruct (cancelInLoop_ok [] s ptr seq None Hwf Harm) as (s'&->&Hwf'&_&_&_&_&_&Hcase).
  assert ((ptr, seq) ∈ activeTimers_ s <-> sequence_ <$> heap s !! ptr = Some seq) as Hact.
  { rewrite (elem_of_active _ _ _ _ Hwf). unfold seq_of. pose proof (wf_dom _ _ Hwf ptr) as Hd.
    rewrite app_nil_r in Hd. rewrite <- Hd. destruct (heap s !! ptr) as [tm|]; cbn.
    - split; [intros [_ ->]; done|intros [= ->]; eauto].
    - split; [intros [[] _]; done|done]. }
  exists s'. split; [done|]. rewrite (bool_decide_ext _ _ Hact) in Hcase. case_bool_decide.
  - destruct Hcase as (Hh&_&w0&Hp). split; [done|]. intros w q. rewrite Hp, elem_of_cons. split.
    + intros Hin. split; [by right|]. destruct (wf_expiration _ _ Hwf' _ _ Hin) as (?&->&_). eauto.
    + intros ([[= -> ->]|Hin]&Hl); [|done]. rewrite Hh, lookup_delete_eq in Hl. by destruct Hl.
  - destruct Hcase as (Hh&->&_&_). split; [done|]. intros w q. rewrite Hh. split; [|by intros []].
    intros Hin. split; [done|]. destruct (wf_expiration _ _ Hwf _ _ Hin) as (?&->&_). eauto.
Qed.

Lemma cancel_removes_exactly_the_named_timer_witness :
  exists s s', run witness_script new_ witness_adds = Ok s /\
    cancelInLoop 8192 2 s = Ok s' /\ timers_ s' = [(500, 4096)] /\ heap s' = delete 8192 (heap s).
Proof.
  assert (exists s, run witness_script new_ witness_adds = Ok s) as [s E]
    by (eexists; vm_compute; reflexivity).
  destruct (cancel_removes_exactly_the_named_timer witness_script witness_adds s 8192 2)
    as (s'&Hc&Hh&_).
  - apply witness_script_legal.
  - apply witness_adds_legal.
  - exact E.
  - exists s, s'. split; [exact E|]. split; [exact Hc|]. vm_compute in E. injection E as <-.
    split; [vm_compute in Hc; injection Hc as <-; reflexivity|exact Hh].
Defined.

End TimerQueue.
