(* ===== verification/Endian.v ===== *)
(** Byte order: src/muduo/net/Endian.h.  The integers of the wire are big
    endian; [htobe]/[betoh] of <endian.h> swap bytes on a little endian host
    and are the identity on a big endian one, so the byte order of the host is
    a parameter ([HostOrder]) and every statement holds for both orders. *)

From S2P Require Import Prelude.

Class HostOrder := host_little : bool.

(** The [n] bytes of an integer, least significant first; negative integers
    give their two's complement bytes. *)
Fixpoint le_bytes (n : nat) (v : Z) : bytes :=
  match n with
  | O => []
  | S n' => v mod 256 :: le_bytes n' (v / 256)
  end.

Fixpoint le_value (l : bytes) : Z :=
  match l with
  | [] => 0
  | b :: l' => b + 256 * le_value l'
  end.

Definition be_bytes (n : nat) (v : Z) : bytes := reverse (le_bytes n v).
Definition be_value (l : bytes) : Z := le_value (reverse l).

(** [__bswap_16/32/64]: the unsigned value with its bytes reversed. *)
Definition bswap (n : nat) (v : Z) : Z := le_value (reverse (le_bytes n v)).

Section Host.
Context `{HO : HostOrder}.

(** The memory image of an [n]-byte integer object and the unsigned value a
    memory image denotes ([memcpy] to and from an integer). *)
Definition store (n : nat) (v : Z) : bytes :=
  if host_little then le_bytes n v else be_bytes n v.
Definition load (l : bytes) : Z :=
  if host_little then le_value l else be_value l.

(** <endian.h>: [htobe16/32/64] and [be16/32/64toh]. *)
Definition htobe (n : nat) (v : Z) : Z :=
  if host_little then bswap n v else uwrap (8 * Z.of_nat n) v.
Definition betoh (n : nat) (v : Z) : Z := htobe n v.

Definition hostToNetwork64 (host64 : Z) : Z := htobe 8 host64.
Definition hostToNetwork32 (host32 : Z) : Z := htobe 4 host32.
Definition hostToNetwork16 (host16 : Z) : Z := htobe 2 host16.
Definition networkToHost64 (net64 : Z) : Z := betoh 8 net64.
Definition networkToHost32 (net32 : Z) : Z := betoh 4 net32.
Definition networkToHost16 (net16 : Z) : Z := betoh 2 net16.
End Host.

(** * Lemmas *)

Lemma length_le_bytes n v : length (le_bytes n v) = n.
Proof. revert v. induction n; intros; cbn; auto. Qed.
Lemma zlen_le_bytes n v : zlen (le_bytes n v) = Z.of_nat n.
Proof. unfold zlen. by rewrite length_le_bytes. Qed.
Lemma zlen_be_bytes n v : zlen (be_bytes n v) = Z.of_nat n.
Proof. unfold be_bytes, zlen. by rewrite length_reverse, length_le_bytes. Qed.

Lemma le_bytes_is_byte n v : Forall is_byte (le_bytes n v).
Proof.
  revert v. induction n; intros; cbn; constructor; [|done].
  unfold is_byte. by apply Z.mod_pos_bound.
Qed.
Lemma be_bytes_is_byte n v : Forall is_byte (be_bytes n v).
Proof. unfold be_bytes. apply Forall_reverse, le_bytes_is_byte. Qed.

Lemma pow256_S n : 2 ^ (8 * Z.of_nat (S n)) = 256 * 2 ^ (8 * Z.of_nat n).
Proof.
  replace (8 * Z.of_nat (S n)) with (8 + 8 * Z.of_nat n) by lia.
  rewrite Z.pow_add_r by lia. done.
Qed.

(** Decoding the bytes of [v] gives [v] reduced to the width. *)
Lemma le_value_le_bytes n v : le_value (le_bytes n v) = uwrap (8 * Z.of_nat n) v.
Proof.
  revert v. induction n as [|n IH]; intros v; cbn [le_bytes le_value].
  - unfold uwrap. by rewrite Z.mod_1_r.
  - rewrite IH. unfold uwrap. rewrite pow256_S.
    pose proof (Z.pow_pos_nonneg 2 (8 * Z.of_nat n)).
    by rewrite Z.rem_mul_r by lia.
Qed.

(** Encoding only depends on the value modulo the width. *)
Lemma le_bytes_le_value l : Forall is_byte l -> le_bytes (length l) (le_value l) = l.
Proof.
  induction 1 as [|b l Hb _ IH]; cbn [length le_bytes le_value]; [done|].
  unfold is_byte in Hb. f_equal.
  - rewrite Z.mul_comm, Z_mod_plus_full. by apply Z.mod_small.
  - replace ((b + 256 * le_value l) / 256) with (le_value l); [done|].
    rewrite Z.mul_comm, Z.div_add, Z.div_small by lia. lia.
Qed.
Lemma be_value_be_bytes n v : be_value (be_bytes n v) = uwrap (8 * Z.of_nat n) v.
Proof. unfold be_value, be_bytes. by rewrite reverse_involutive, le_value_le_bytes. Qed.
Lemma le_bytes_uwrap n v : le_bytes n (uwrap (8 * Z.of_nat n) v) = le_bytes n v.
Proof.
  rewrite <- le_value_le_bytes.
  pose proof (le_bytes_le_value (le_bytes n v) (le_bytes_is_byte n v)) as H.
  by rewrite length_le_bytes in H.
Qed.
Lemma le_bytes_mod_eq n v w :
  uwrap (8 * Z.of_nat n) v = uwrap (8 * Z.of_nat n) w -> le_bytes n v = le_bytes n w.
Proof. intros H. by rewrite <- (le_bytes_uwrap n v), <- (le_bytes_uwrap n w), H. Qed.
Lemma be_bytes_mod_eq n v w :
  uwrap (8 * Z.of_nat n) v = uwrap (8 * Z.of_nat n) w -> be_bytes n v = be_bytes n w.
Proof. intros H. unfold be_bytes. f_equal. by apply le_bytes_mod_eq. Qed.

Lemma le_bytes_bswap n v : le_bytes n (bswap n v) = be_bytes n v.
Proof.
  unfold bswap, be_bytes.
  pose proof (le_bytes_le_value (reverse (le_bytes n v))) as H.
  rewrite length_reverse, length_le_bytes in H. apply H.
  apply Forall_reverse, le_bytes_is_byte.
Qed.

(** What reaches memory after [hostToNetwork] is the big endian encoding,
    whatever the byte order of the host. *)
Lemma store_htobe `{HO : HostOrder} n v w :
  (0 < n)%nat ->
  uwrap (8 * Z.of_nat n) w = uwrap (8 * Z.of_nat n) (htobe n v) ->
  store n w = be_bytes n v.
Proof.
  intros Hn. unfold store, htobe. destruct host_little; intros Hw.
  - by rewrite (le_bytes_mod_eq _ _ _ Hw), le_bytes_bswap.
  - rewrite (be_bytes_mod_eq _ _ _ Hw). apply be_bytes_mod_eq.
    unfold uwrap. by rewrite Zmod_mod.
Qed.

(** Reading [n] big endian bytes back and applying [networkToHost]. *)
Lemma betoh_load `{HO : HostOrder} n v :
  betoh n (load (be_bytes n v)) = uwrap (8 * Z.of_nat n) v.
Proof.
  unfold betoh, htobe, load, be_value, be_bytes. destruct host_little.
  - unfold bswap.
    pose proof (le_bytes_le_value (reverse (le_bytes n v))) as H.
    rewrite length_reverse, length_le_bytes in H.
    rewrite H by apply Forall_reverse, le_bytes_is_byte.
    by rewrite reverse_involutive, le_value_le_bytes.
  - rewrite reverse_involutive, le_value_le_bytes.
    unfold uwrap. by rewrite Zmod_mod.
Qed.

(** The conversions are inverse to each other on the unsigned width. *)
Lemma betoh_htobe `{HO : HostOrder} n v :
  betoh n (htobe n v) = uwrap (8 * Z.of_nat n) v.
Proof.
  unfold betoh, htobe. destruct host_little.
  - unfold bswap at 1. rewrite le_bytes_bswap. unfold be_bytes.
    by rewrite reverse_involutive, le_value_le_bytes.
  - unfold uwrap. by rewrite Zmod_mod.
Qed.
