(* ===== verification/BaseStringPiece.v ===== *)
(** src/muduo/base/StringPiece.h: a pointer and an [int] length.  The pointer
    is modelled by the bytes that can be read from it ([ptr_]); reading past
    them is undefined behaviour.  [memcmp] is modelled by its documented sign
    (unsigned bytes, first difference decides). *)

From S2P Require Import Prelude.

Module StringPiece.

Record t := mk { ptr_ : bytes; length_ : Z }.

(** [strlen]: the position of the first NUL. *)
Definition strlen (s : bytes) : Z := find_idx 0 s.

(** Constructors: from a NUL-terminated pointer, a [string], and a pointer
    with an explicit length. *)
Definition of_cstr (s : bytes) : t := mk s (i32 (strlen s)).
Definition of_string (s : bytes) : t := mk s (i32 (zlen s)).
Definition of_len (s : bytes) (len : Z) : t := mk s len.

Definition data (p : t) : bytes := ptr_ p.
Definition size (p : t) : Z := length_ p.
Definition empty (p : t) : bool := length_ p =? 0.

Definition remove_prefix (n : Z) (p : t) : outcome t :=
  if (0 <=? n) && (n <=? zlen (ptr_ p))
  then Ok (mk (zdrop n (ptr_ p)) (i32 (length_ p - n)))
  else Err (Undefined "pointer past the end").
Definition remove_suffix (n : Z) (p : t) : t := mk (ptr_ p) (i32 (length_ p - n)).

(** The sign of the first differing unsigned byte of two [n]-byte blocks. *)
Fixpoint memcmp_list (x y : bytes) : Z :=
  match x, y with
  | a :: x', b :: y' =>
      if a <? b then -1 else if b <? a then 1 else memcmp_list x' y'
  | _, _ => 0
  end.
Definition memcmp (x y : bytes) (n : Z) : outcome Z :=
  if (0 <=? n) && (n <=? zlen x) && (n <=? zlen y)
  then Ok (memcmp_list (ztake n x) (ztake n y))
  else Err (Undefined "memcmp past the end").

Definition eqb (p x : t) : outcome bool :=
  if length_ p =? length_ x
  then r ← memcmp (ptr_ p) (ptr_ x) (length_ p); Ok (r =? 0)
  else Ok false.
Definition neqb (p x : t) : outcome bool := b ← eqb p x; Ok (negb b).

(** STRINGPIECE_BINARY_PREDICATE(cmp, auxcmp). *)
Definition binary_predicate (cmp auxcmp : Z -> Z -> bool) (p x : t) : outcome bool :=
  r ← memcmp (ptr_ p) (ptr_ x)
        (if length_ p <? length_ x then length_ p else length_ x);
  Ok (auxcmp r 0 || ((r =? 0) && cmp (length_ p) (length_ x))).
Definition ltb := binary_predicate Z.ltb Z.ltb.
Definition leb := binary_predicate Z.leb Z.ltb.
Definition geb := binary_predicate Z.geb Z.gtb.
Definition gtb := binary_predicate Z.gtb Z.gtb.

Definition compare (p x : t) : outcome Z :=
  r ← memcmp (ptr_ p) (ptr_ x)
        (if length_ p <? length_ x then length_ p else length_ x);
  Ok (if r =? 0
      then if length_ p <? length_ x then -1
           else if length_ x <? length_ p then 1 else r
      else r).

(** [string(data(), size())]: the [int] size converts to [size_t]. *)
Definition as_string (p : t) : outcome bytes :=
  let n := u64 (length_ p) in
  if n <=? zlen (ptr_ p) then Ok (ztake n (ptr_ p))
  else Err (Undefined "string constructed past the end").

Definition starts_with (p x : t) : outcome bool :=
  if length_ p >=? length_ x
  then r ← memcmp (ptr_ p) (ptr_ x) (length_ x); Ok (r =? 0)
  else Ok false.

(** A piece that denotes readable memory. *)
Definition valid (p : t) : Prop := 0 <= length_ p <= zlen (ptr_ p) /\ length_ p < 2 ^ 31.
(** The text it denotes. *)
Definition text (p : t) : bytes := ztake (length_ p) (ptr_ p).

(** Reference: lexicographic order on byte strings, a prefix is smaller. *)
Fixpoint lex (x y : bytes) : Z :=
  match x, y with
  | [], [] => 0
  | [], _ :: _ => -1
  | _ :: _, [] => 1
  | a :: x', b :: y' => if a <? b then -1 else if b <? a then 1 else lex x' y'
  end.

(** * Lemmas *)

(** A piece made from a string is that string. *)
Lemma as_string_of_string m : zlen m < 2 ^ 31 -> as_string (of_string m) = Ok m.
Proof.
  intros Hm. unfold as_string, of_string. cbn [ptr_ length_].
  unfold i32, u64. rewrite swrap_small by (lia || (unfold srange; zlia)).
  rewrite uwrap_small by (lia || (unfold urange; zlia)).
  by rewrite Z.leb_refl, ztake_all.
Qed.

Lemma text_len p : valid p -> zlen (text p) = length_ p.
Proof. intros [[??]?]. unfold text. rewrite zlen_ztake. lia. Qed.

Lemma memcmp_valid p x n :
  valid p -> valid x -> 0 <= n -> n <= length_ p -> n <= length_ x ->
  memcmp (ptr_ p) (ptr_ x) n = Ok (memcmp_list (ztake n (text p)) (ztake n (text x))).
Proof.
  intros [[??]?] [[??]?] ???. unfold memcmp, text. rewrite !ztake_ztake by lia.
  replace (_ && _) with true; [done|]. symmetry. zbool. lia.
Qed.

Lemma lex_memcmp x y :
  lex x y =
  let n := Z.min (zlen x) (zlen y) in
  let r := memcmp_list (ztake n x) (ztake n y) in
  if r =? 0 then (if zlen x <? zlen y then -1 else if zlen y <? zlen x then 1 else 0) else r.
Proof.
  revert y. induction x as [|a x IH]; intros [|b y]; cbn zeta.
  - done.
  - rewrite !ztake_0 by zlia. cbn. destruct (Z.ltb_spec (zlen (@nil Z)) (zlen (b :: y))); zlia.
  - rewrite !ztake_0 by zlia. cbn.
    destruct (Z.ltb_spec (zlen (a :: x)) (zlen (@nil Z))); [zlia|].
    destruct (Z.ltb_spec (zlen (@nil Z)) (zlen (a :: x))); zlia.
  - rewrite !zlen_cons. unfold ztake.
    replace (Z.to_nat (Z.min (1 + zlen x) (1 + zlen y)))
      with (S (Z.to_nat (Z.min (zlen x) (zlen y)))) by zlia.
    cbn [lex take memcmp_list]. rewrite IH. cbn zeta. unfold ztake.
    destruct (Z.ltb_spec a b); [done|]. destruct (Z.ltb_spec b a); [done|].
    destruct (_ =? 0); [|done].
    repeat match goal with |- context [?u <? ?v] => destruct (Z.ltb_spec u v) end; lia.
Qed.

Lemma lex_range x y : lex x y = -1 \/ lex x y = 0 \/ lex x y = 1.
Proof.
  revert y. induction x as [|a x IH]; intros [|b y]; cbn; auto.
  destruct (a <? b); auto. destruct (b <? a); auto.
Qed.
Lemma lex_eq x y : lex x y = 0 <-> x = y.
Proof.
  revert y. induction x as [|a x IH]; intros [|b y]; cbn; [done..|].
  destruct (Z.ltb_spec a b); [split; [done | intros [=]; lia]|].
  destruct (Z.ltb_spec b a); [split; [done | intros [=]; lia]|].
  rewrite IH. assert (a = b) as -> by lia. split; [congruence | by intros [=]].
Qed.
Lemma lex_antisym x y : lex y x = - lex x y.
Proof.
  revert y. induction x as [|a x IH]; intros [|b y]; cbn; [done..|].
  destruct (Z.ltb_spec a b), (Z.ltb_spec b a); auto; lia.
Qed.
Lemma lex_trans x y z : lex x y <= 0 -> lex y z <= 0 -> lex x z <= 0.
Proof.
  revert y z. induction x as [|a x IH]; intros [|b y] [|c z]; cbn; try lia.
  repeat match goal with |- context [?u <? ?v] => destruct (Z.ltb_spec u v) end; try lia.
  apply IH.
Qed.

Lemma compare_lex p x :
  valid p -> valid x -> compare p x = Ok (lex (text p) (text x)).
Proof.
  intros Hp Hx. pose proof Hp as [[??]?]. pose proof Hx as [[??]?].
  unfold compare. rewrite lex_memcmp, !text_len by done.
  replace (if _ <? _ then _ else _) with (Z.min (length_ p) (length_ x))
    by (destruct (Z.ltb_spec (length_ p) (length_ x)); lia).
  rewrite memcmp_valid by (done || lia). cbn. cbn zeta.
  destruct (Z.eqb_spec (memcmp_list (ztake (length_ p `min` length_ x) (text p))
    (ztake (length_ p `min` length_ x) (text x))) 0); [|done].
  destruct (length_ p <? length_ x), (length_ x <? length_ p); congruence.
Qed.

Lemma predicate_lex cmp auxcmp p x :
  valid p -> valid x ->
  (forall n m, cmp n m = (auxcmp (n - m) 0 || ((n =? m) && cmp 0 0))) ->
  auxcmp 0 0 = false ->
  (forall n, auxcmp n 0 = auxcmp (Z.sgn n) 0) ->
  binary_predicate cmp auxcmp p x =
  Ok (auxcmp (lex (text p) (text x)) 0 || ((lex (text p) (text x) =? 0) && cmp 0 0)).
Proof.
  intros Hp Hx Hcmp Haux Hsgn. pose proof (compare_lex p x Hp Hx) as H.
  unfold compare in H. unfold binary_predicate.
  destruct (memcmp _ _ _) as [r|]; [|discriminate]. cbn in *.
  injection H as H. rewrite <- H, Hcmp. clear H. f_equal.
  destruct (Z.eqb_spec r 0) as [E|Hr]; cbn; [|by destruct (Z.eqb_spec r 0)].
  subst r.
  rewrite Haux. cbn. rewrite Hsgn.
  destruct (Z.ltb_spec (length_ p) (length_ x)).
  { replace (Z.sgn _) with (-1) by lia. by destruct (Z.eqb_spec (length_ p) (length_ x)); [lia|]. }
  destruct (Z.ltb_spec (length_ x) (length_ p)).
  { replace (Z.sgn _) with 1 by lia. by destruct (Z.eqb_spec (length_ p) (length_ x)); [lia|]. }
  replace (Z.sgn _) with 0 by lia. rewrite Haux.
  by destruct (Z.eqb_spec (length_ p) (length_ x)); [|lia].
Qed.

(** The comparison operators of StringPiece are one total order: [compare] is
    the lexicographic order of the texts (bytes unsigned, a proper prefix is
    smaller), [==] is equality of texts, and [<], [<=], [>], [>=] agree with
    the sign of [compare]. *)
Theorem comparison_operators_agree p x :
  valid p -> valid x ->
  exists c, compare p x = Ok c /\ c = lex (text p) (text x) /\
    compare x p = Ok (- c) /\
    ltb p x = Ok (c <? 0) /\ leb p x = Ok (c <=? 0) /\
    gtb p x = Ok (c >? 0) /\ geb p x = Ok (c >=? 0) /\
    eqb p x = Ok (c =? 0) /\ (c = 0 <-> text p = text x).
Proof.
  intros Hp Hx. exists (lex (text p) (text x)).
  assert (forall n m, (n <? m) = ((n - m <? 0) || ((n =? m) && false))) as L.
  { intros. destruct (Z.ltb_spec n m), (Z.ltb_spec (n - m) 0), (n =? m); lia || done. }
  assert (forall n m, (n >? m) = ((n - m >? 0) || ((n =? m) && false))) as G.
  { intros. rewrite !Z.gtb_ltb. destruct (Z.ltb_spec m n), (Z.ltb_spec 0 (n - m)), (n =? m); lia || done. }
  split_and!; [by apply compare_lex | done | | | | | | | by apply lex_eq].
  - rewrite compare_lex by done. by rewrite lex_antisym.
  - unfold ltb. rewrite predicate_lex; [|done..|by destruct n].
    destruct (lex_range (text p) (text x)) as [-> | [-> | ->]]; done.
  - unfold leb. rewrite predicate_lex; [|done|done| |done|by destruct n].
    + destruct (lex_range (text p) (text x)) as [-> | [-> | ->]]; done.
    + intros n m. destruct (Z.leb_spec n m), (Z.ltb_spec (n - m) 0), (Z.eqb_spec n m); lia || done.
  - unfold gtb. rewrite predicate_lex; [|done..|by destruct n].
    destruct (lex_range (text p) (text x)) as [-> | [-> | ->]]; done.
  - unfold geb. rewrite predicate_lex; [|done|done| |done|by destruct n].
    + destruct (lex_range (text p) (text x)) as [-> | [-> | ->]]; done.
    + intros n m. rewrite Z.geb_leb, Z.gtb_ltb.
      destruct (Z.leb_spec m n), (Z.ltb_spec 0 (n - m)), (Z.eqb_spec n m); lia || done.
  - pose proof (lex_memcmp (text p) (text x)) as H. rewrite !text_len in H by done. cbn zeta in H.
    unfold eqb. destruct (Z.eqb_spec (length_ p) (length_ x)) as [E|E].
    + rewrite memcmp_valid by (done || destruct Hp, Hx; lia). cbn.
      rewrite <- E, Z.min_id, Z.ltb_irrefl in H. rewrite H.
      destruct (Z.eqb_spec (memcmp_list (ztake (length_ p) (text p)) (ztake (length_ p) (text x))) 0)
        as [|Hne]; [done|]. f_equal. symmetry. by apply Z.eqb_neq.
    + f_equal. symmetry. apply Z.eqb_neq. intros Hl%lex_eq. apply E.
      rewrite <- (text_len p), <- (text_len x) by done. by rewrite Hl.
Qed.

End StringPiece.
