(* ===== verification/NetBuffer.v ===== *)
(** src/muduo/net/Buffer.h and Buffer.cc: the byte buffer between the sockets
    and the user code.  A [std::vector<char>] with a read and a write index;
    [size_t] arithmetic is at 64 bits, a debug-build [assert] is an [AssertFail]
    outcome, writing outside the vector is [Undefined] and growing it beyond
    [max_size()] is the [length_error] of the standard library.  A pointer into
    the buffer is modelled by its offset; a source pointer passed to [append]
    or [prepend] by the bytes that can be read from it (they do not alias the
    buffer, as the [restrict] comments of the code ask).

    Buffer.h uses [readableBytes], [writableBytes] and [prependableBytes]
    without defining them; they are modelled as the sizes of the three regions
    of the diagram in the class comment. *)

From S2P Require Import Prelude Endian BaseStringPiece.

Module Buffer.

Definition kCheapPrepend : Z := 8.
Definition kInitialSize : Z := 1024.
Definition kCRLF : bytes := [13; 10].

Record t := mk { buffer_ : bytes; readerIndex_ : Z; writerIndex_ : Z }.

(** [std::vector<char>]: [max_size()] and [resize]. *)
Definition vector_max_size : Z := 2 ^ 63 - 1.
Definition vector_resize (v : bytes) (n : Z) : outcome bytes :=
  if n <=? vector_max_size
  then Ok (ztake n v ++ replicate (Z.to_nat (n - zlen v)) 0)
  else Err (StdException "length_error").

(** [std::copy] of [src] to the positions from [i] on. *)
Definition write_at (v : bytes) (i : Z) (src : bytes) : outcome bytes :=
  if (0 <=? i) && (i + zlen src <=? zlen v)
  then Ok (ztake i v ++ src ++ zdrop (i + zlen src) v)
  else Err (Undefined "write outside the vector").
(** The [n] bytes readable from the pointer that denotes [mem]. *)
Definition read_mem (mem : bytes) (n : Z) : outcome bytes :=
  if n <=? zlen mem then Ok (ztake n mem)
  else Err (Undefined "read past the end").

Definition readableBytes (b : t) : Z := u64 (writerIndex_ b - readerIndex_ b).
Definition writableBytes (b : t) : Z := u64 (zlen (buffer_ b) - writerIndex_ b).
Definition prependableBytes (b : t) : Z := readerIndex_ b.

Definition new_ (initialSize : Z) : outcome t :=
  v ← vector_resize [] (u64 (kCheapPrepend + initialSize));
  let b := mk v kCheapPrepend kCheapPrepend in
  massert (readableBytes b =? 0) "readableBytes() == 0";;
  massert (writableBytes b =? initialSize) "writableBytes() == initialSize";;
  massert (prependableBytes b =? kCheapPrepend) "prependableBytes() == kCheapPrepend";;
  Ok b.

Definition swap (lhs rhs : t) : t * t :=
  (mk (buffer_ rhs) (readerIndex_ rhs) (writerIndex_ rhs),
   mk (buffer_ lhs) (readerIndex_ lhs) (writerIndex_ lhs)).

Definition peek (b : t) : Z := readerIndex_ b.
Definition beginWrite (b : t) : Z := writerIndex_ b.
(** The memory a pointer at offset [p] of the vector gives access to. *)
Definition mem_at (b : t) (p : Z) : bytes := zdrop p (buffer_ b).

(** [std::search(first, last, kCRLF, kCRLF+2)]: an offset, [last] when absent. *)
Fixpoint search_crlf (l : bytes) : Z :=
  match l with
  | [] => 0
  | x :: l' =>
      match l' with
      | y :: _ => if (x =? 13) && (y =? 10) then 0 else 1 + search_crlf l'
      | [] => 1
      end
  end.

Definition findCRLF_between (b : t) (start : Z) : option Z :=
  let crlf := start + search_crlf (zslice start (beginWrite b) (buffer_ b)) in
  if crlf =? beginWrite b then None else Some crlf.
Definition findCRLF (b : t) : option Z := findCRLF_between b (peek b).
Definition findCRLF_from (b : t) (start : Z) : outcome (option Z) :=
  massert (peek b <=? start) "peek() <= start";;
  massert (start <=? beginWrite b) "start <= beginWrite()";;
  Ok (findCRLF_between b start).

(** [memchr(start, '\n', n)]. *)
Definition memchr_eol (b : t) (start n : Z) : option Z :=
  let l := zslice start (start + n) (buffer_ b) in
  let i := find_idx 10 l in
  if i =? zlen l then None else Some (start + i).
Definition findEOL (b : t) : option Z := memchr_eol b (peek b) (readableBytes b).
Definition findEOL_from (b : t) (start : Z) : outcome (option Z) :=
  massert (peek b <=? start) "peek() <= start";;
  massert (start <=? beginWrite b) "start <= beginWrite()";;
  Ok (memchr_eol b start (beginWrite b - start)).

Definition retrieveAll (b : t) : t := mk (buffer_ b) kCheapPrepend kCheapPrepend.

Definition retrieve (len : Z) (b : t) : outcome t :=
  massert (len <=? readableBytes b) "len <= readableBytes()";;
  if len <? readableBytes b
  then Ok (mk (buffer_ b) (u64 (readerIndex_ b + len)) (writerIndex_ b))
  else Ok (retrieveAll b).

Definition retrieveUntil (end_ : Z) (b : t) : outcome t :=
  massert (peek b <=? end_) "peek() <= end";;
  massert (end_ <=? beginWrite b) "end <= beginWrite()";;
  retrieve (u64 (end_ - peek b)) b.

Definition retrieveInt64 : t -> outcome t := retrieve 8.
Definition retrieveInt32 : t -> outcome t := retrieve 4.
Definition retrieveInt16 : t -> outcome t := retrieve 2.
Definition retrieveInt8 : t -> outcome t := retrieve 1.

Definition retrieveAsString (len : Z) (b : t) : outcome (bytes * t) :=
  massert (len <=? readableBytes b) "len <= readableBytes()";;
  result ← read_mem (mem_at b (peek b)) len;
  b' ← retrieve len b;
  Ok (result, b').
Definition retrieveAllAsString (b : t) : outcome (bytes * t) :=
  retrieveAsString (readableBytes b) b.

Definition toStringPiece (b : t) : StringPiece.t :=
  StringPiece.of_len (mem_at b (peek b)) (i32 (readableBytes b)).

Definition makeSpace (len : Z) (b : t) : outcome t :=
  if u64 (writableBytes b + prependableBytes b) <? u64 (len + kCheapPrepend)
  then v ← vector_resize (buffer_ b) (u64 (writerIndex_ b + len));
       Ok (mk v (readerIndex_ b) (writerIndex_ b))
  else massert (kCheapPrepend <? readerIndex_ b) "kCheapPrepend < readerIndex_";;
       let readable := readableBytes b in
       v ← write_at (buffer_ b) kCheapPrepend
             (zslice (readerIndex_ b) (writerIndex_ b) (buffer_ b));
       let b' := mk v kCheapPrepend (u64 (kCheapPrepend + readable)) in
       massert (readable =? readableBytes b') "readable == readableBytes()";;
       Ok b'.

Definition ensureWritableBytes (len : Z) (b : t) : outcome t :=
  b' ← (if writableBytes b <? len then makeSpace len b else Ok b);
  massert (len <=? writableBytes b') "writableBytes() >= len";;
  Ok b'.

Definition hasWritten (len : Z) (b : t) : outcome t :=
  massert (len <=? writableBytes b) "len <= writableBytes()";;
  Ok (mk (buffer_ b) (readerIndex_ b) (u64 (writerIndex_ b + len))).

Definition unwrite (len : Z) (b : t) : outcome t :=
  massert (len <=? readableBytes b) "len <= readableBytes()";;
  Ok (mk (buffer_ b) (readerIndex_ b) (u64 (writerIndex_ b - len))).

Definition append (data : bytes) (len : Z) (b : t) : outcome t :=
  b1 ← ensureWritableBytes len b;
  src ← read_mem data len;
  v ← write_at (buffer_ b1) (beginWrite b1) src;
  hasWritten len (mk v (readerIndex_ b1) (writerIndex_ b1)).
Definition append_piece (str : StringPiece.t) (b : t) : outcome t :=
  append (StringPiece.data str) (u64 (StringPiece.size str)) b.
(** [append(const string&)], through the implicit StringPiece. *)
Definition append_string (s : bytes) (b : t) : outcome t :=
  append_piece (StringPiece.of_string s) b.

Definition prepend (data : bytes) (len : Z) (b : t) : outcome t :=
  massert (len <=? prependableBytes b) "len <= prependableBytes()";;
  let r := u64 (readerIndex_ b - len) in
  d ← read_mem data len;
  v ← write_at (buffer_ b) r d;
  Ok (mk v r (writerIndex_ b)).

Definition shrink (reserve : Z) (b : t) : outcome t :=
  other ← new_ kInitialSize;
  other ← ensureWritableBytes (u64 (readableBytes b + reserve)) other;
  other ← append_piece (toStringPiece b) other;
  Ok (fst (swap b other)).

Section Integers.
Context `{HO : HostOrder}.

Definition appendInt64 (x : Z) (b : t) : outcome t :=
  append (store 8 (i64 (hostToNetwork64 (u64 x)))) 8 b.
Definition appendInt32 (x : Z) (b : t) : outcome t :=
  append (store 4 (i32 (hostToNetwork32 (u32 x)))) 4 b.
Definition appendInt16 (x : Z) (b : t) : outcome t :=
  append (store 2 (i16 (hostToNetwork16 (u16 x)))) 2 b.
Definition appendInt8 (x : Z) (b : t) : outcome t := append (store 1 x) 1 b.

Definition peekInt64 (b : t) : outcome Z :=
  massert (8 <=? readableBytes b) "readableBytes() >= sizeof(int64_t)";;
  m ← read_mem (mem_at b (peek b)) 8;
  Ok (i64 (networkToHost64 (load m))).
Definition peekInt32 (b : t) : outcome Z :=
  massert (4 <=? readableBytes b) "readableBytes() >= sizeof(int32_t)";;
  m ← read_mem (mem_at b (peek b)) 4;
  Ok (i32 (networkToHost32 (load m))).
Definition peekInt16 (b : t) : outcome Z :=
  massert (2 <=? readableBytes b) "readableBytes() >= sizeof(int16_t)";;
  m ← read_mem (mem_at b (peek b)) 2;
  Ok (i16 (networkToHost16 (load m))).
Definition peekInt8 (b : t) : outcome Z :=
  massert (1 <=? readableBytes b) "readableBytes() >= sizeof(int8_t)";;
  m ← read_mem (mem_at b (peek b)) 1;
  Ok (i8 (load m)).

Definition readInt64 (b : t) : outcome (Z * t) :=
  result ← peekInt64 b; b' ← retrieveInt64 b; Ok (result, b').
Definition readInt32 (b : t) : outcome (Z * t) :=
  result ← peekInt32 b; b' ← retrieveInt32 b; Ok (result, b').
Definition readInt16 (b : t) : outcome (Z * t) :=
  result ← peekInt16 b; b' ← retrieveInt16 b; Ok (result, b').
Definition readInt8 (b : t) : outcome (Z * t) :=
  result ← peekInt8 b; b' ← retrieveInt8 b; Ok (result, b').

Definition prependInt64 (x : Z) (b : t) : outcome t :=
  prepend (store 8 (i64 (hostToNetwork64 (u64 x)))) 8 b.
Definition prependInt32 (x : Z) (b : t) : outcome t :=
  prepend (store 4 (i32 (hostToNetwork32 (u32 x)))) 4 b.
Definition prependInt16 (x : Z) (b : t) : outcome t :=
  prepend (store 2 (i16 (hostToNetwork16 (u16 x)))) 2 b.
Definition prependInt8 (x : Z) (b : t) : outcome t := prepend (store 1 x) 1 b.
End Integers.

(** What readv(2) reports: an errno, or the bytes it scattered over the
    buffers, in order. *)
Inductive read_result := ReadError (errno : Z) | ReadBytes (data : bytes).

(** [readFd]: [readv] is the system call on [fd], applied to the lengths of
    the iovecs.  Returns the result of the call and the errno it saved. *)
Definition kExtrabufSize : Z := 65536.
Definition readFd (readv : list Z -> read_result) (b : t)
    : outcome (Z * option Z * t) :=
  let writable := writableBytes b in
  let iov := if writable <? kExtrabufSize then [writable; kExtrabufSize] else [writable] in
  match readv iov with
  | ReadError errno => Ok (-1, Some errno, b)
  | ReadBytes data =>
      let n := zlen data in
      v ← write_at (buffer_ b) (writerIndex_ b) (ztake writable data);
      if n <=? writable
      then Ok (n, None, mk v (readerIndex_ b) (u64 (writerIndex_ b + n)))
      else b' ← append (zdrop writable data) (u64 (n - writable))
                  (mk v (readerIndex_ b) (zlen v));
           Ok (n, None, b')
  end.

(** * Representation *)

(** The class diagram, [0 <= readerIndex <= writerIndex <= size], with room for
    the cheap prepend area. *)
Definition wf (b : t) : Prop :=
  0 <= readerIndex_ b <= writerIndex_ b /\ writerIndex_ b <= zlen (buffer_ b) /\
  kCheapPrepend <= zlen (buffer_ b) <= vector_max_size.

(** The readable bytes. *)
Definition content (b : t) : bytes := zslice (readerIndex_ b) (writerIndex_ b) (buffer_ b).

(** * Abstract byte queue *)

Inductive width := W8 | W16 | W32 | W64.
Definition width_bytes (w : width) : nat :=
  match w with W8 => 1 | W16 => 2 | W32 => 4 | W64 => 8 end.
Definition width_bits (w : width) : Z := 8 * Z.of_nat (width_bytes w).

Inductive cmd :=
| CAppend (s : bytes) | CEnsure (n : Z) | CPrepend (s : bytes)
| CRetrieve (n : Z) | CRetrieveAll | CTake (n : Z) | CTakeAll | CUnwrite (n : Z)
| CShrink (reserve : Z) | CAppendInt (w : width) (x : Z) | CPrependInt (w : width) (x : Z)
| CPeekInt (w : width) | CReadInt (w : width).

Inductive reply := RUnit | RBytes (s : bytes) | RInt (x : Z).

(** The specification state: the queued bytes, the number of bytes that may
    still be prepended without any append in between being able to revoke it,
    and a bound on the memory the buffer may have claimed. *)
Record spec := mkspec { s_content : bytes; s_room : Z; s_cap : Z }.

Definition bytesb (s : bytes) : bool := forallb (fun x => (0 <=? x) && (x <? 256)) s.

Definition spec_push (s : bytes) (st : spec) : option spec :=
  if bytesb s && (s_cap st + zlen s <=? vector_max_size)
  then Some (mkspec (s_content st ++ s) (s_room st) (s_cap st + zlen s)) else None.
Definition spec_pop (n : Z) (st : spec) : option (bytes * spec) :=
  if (0 <=? n) && (n <=? zlen (s_content st))
  then Some (ztake n (s_content st),
             mkspec (zdrop n (s_content st))
               (if n <? zlen (s_content st) then Z.min kCheapPrepend (s_room st + n)
                else kCheapPrepend) (s_cap st))
  else None.
Definition spec_prepend (s : bytes) (st : spec) : option spec :=
  if bytesb s && (zlen s <=? s_room st)
  then Some (mkspec (s ++ s_content st) (s_room st - zlen s) (s_cap st)) else None.
Definition spec_peek_int (w : width) (st : spec) : option Z :=
  if Z.of_nat (width_bytes w) <=? zlen (s_content st)
  then Some (swrap (width_bits w)
               (be_value (ztake (Z.of_nat (width_bytes w)) (s_content st))))
  else None.

(** One command on the byte queue; [None] when its precondition fails. *)
Definition spec_step (c : cmd) (st : spec) : option (reply * spec) :=
  match c with
  | CAppend s => if zlen s <? 2 ^ 31 then st' ← spec_push s st; Some (RUnit, st') else None
  | CEnsure n =>
      if (0 <=? n) && (s_cap st + n <=? vector_max_size)
      then Some (RUnit, mkspec (s_content st) (s_room st) (s_cap st + n)) else None
  | CPrepend s => st' ← spec_prepend s st; Some (RUnit, st')
  | CRetrieve n => '(_, st') ← spec_pop n st; Some (RUnit, st')
  | CRetrieveAll => Some (RUnit, mkspec [] kCheapPrepend (s_cap st))
  | CTake n => '(s, st') ← spec_pop n st; Some (RBytes s, st')
  | CTakeAll => '(s, st') ← spec_pop (zlen (s_content st)) st; Some (RBytes s, st')
  | CUnwrite n =>
      if (0 <=? n) && (n <=? zlen (s_content st))
      then Some (RUnit, mkspec (ztake (zlen (s_content st) - n) (s_content st))
                          (s_room st) (s_cap st)) else None
  | CShrink reserve =>
      let cap := kCheapPrepend + kInitialSize + zlen (s_content st) + reserve in
      if (0 <=? reserve) && (zlen (s_content st) <? 2 ^ 31) && (cap <=? vector_max_size)
      then Some (RUnit, mkspec (s_content st) kCheapPrepend cap) else None
  | CAppendInt w x => st' ← spec_push (be_bytes (width_bytes w) x) st; Some (RUnit, st')
  | CPrependInt w x => st' ← spec_prepend (be_bytes (width_bytes w) x) st; Some (RUnit, st')
  | CPeekInt w => x ← spec_peek_int w st; Some (RInt x, st)
  | CReadInt w =>
      x ← spec_peek_int w st;
      '(_, st') ← spec_pop (Z.of_nat (width_bytes w)) st; Some (RInt x, st')
  end.

Fixpoint spec_run (cs : list cmd) (st : spec) : option (list reply * spec) :=
  match cs with
  | [] => Some ([], st)
  | c :: cs' =>
      '(r, st1) ← spec_step c st; '(rs, st2) ← spec_run cs' st1; Some (r :: rs, st2)
  end.

Section Commands.
Context `{HO : HostOrder}.

Definition appendInt (w : width) (x : Z) : t -> outcome t :=
  match w with W8 => appendInt8 x | W16 => appendInt16 x
             | W32 => appendInt32 x | W64 => appendInt64 x end.
Definition prependInt (w : width) (x : Z) : t -> outcome t :=
  match w with W8 => prependInt8 x | W16 => prependInt16 x
             | W32 => prependInt32 x | W64 => prependInt64 x end.
Definition peekInt (w : width) : t -> outcome Z :=
  match w with W8 => peekInt8 | W16 => peekInt16 | W32 => peekInt32 | W64 => peekInt64 end.
Definition readInt (w : width) : t -> outcome (Z * t) :=
  match w with W8 => readInt8 | W16 => readInt16 | W32 => readInt32 | W64 => readInt64 end.

(** The same command on the buffer. *)
Definition step (c : cmd) (b : t) : outcome (reply * t) :=
  match c with
  | CAppend s => b' ← append_string s b; Ok (RUnit, b')
  | CEnsure n => b' ← ensureWritableBytes n b; Ok (RUnit, b')
  | CPrepend s => b' ← prepend s (zlen s) b; Ok (RUnit, b')
  | CRetrieve n => b' ← retrieve n b; Ok (RUnit, b')
  | CRetrieveAll => Ok (RUnit, retrieveAll b)
  | CTake n => '(s, b') ← retrieveAsString n b; Ok (RBytes s, b')
  | CTakeAll => '(s, b') ← retrieveAllAsString b; Ok (RBytes s, b')
  | CUnwrite n => b' ← unwrite n b; Ok (RUnit, b')
  | CShrink reserve => b' ← shrink reserve b; Ok (RUnit, b')
  | CAppendInt w x => b' ← appendInt w x b; Ok (RUnit, b')
  | CPrependInt w x => b' ← prependInt w x b; Ok (RUnit, b')
  | CPeekInt w => x ← peekInt w b; Ok (RInt x, b)
  | CReadInt w => '(x, b') ← readInt w b; Ok (RInt x, b')
  end.

Fixpoint run (cs : list cmd) (b : t) : outcome (list reply * t) :=
  match cs with
  | [] => Ok ([], b)
  | c :: cs' => '(r, b1) ← step c b; '(rs, b2) ← run cs' b1; Ok (r :: rs, b2)
  end.
End Commands.

(** Simulation relation between the buffer and the byte queue. *)
Definition refines (b : t) (st : spec) : Prop :=
  wf b /\ content b = s_content st /\ Forall is_byte (s_content st) /\
  0 <= s_room st <= kCheapPrepend /\ s_room st <= readerIndex_ b /\
  zlen (buffer_ b) <= s_cap st <= vector_max_size.

(** * Lemmas on the representation *)

Ltac buf_unfold :=
  unfold wf, content, kCheapPrepend, kInitialSize, vector_max_size, kExtrabufSize in *;
  cbn [buffer_ readerIndex_ writerIndex_ s_content s_room s_cap] in *.
Ltac wrap64 := unfold u64; rewrite ?uwrap_small by (unfold urange; lia || (buf_unfold; zlia)).

Lemma readable_wf b : wf b -> readableBytes b = writerIndex_ b - readerIndex_ b.
Proof. intros. unfold readableBytes. buf_unfold. wrap64. done. Qed.
Lemma writable_wf b : wf b -> writableBytes b = zlen (buffer_ b) - writerIndex_ b.
Proof. intros. unfold writableBytes. buf_unfold. wrap64. done. Qed.
Lemma content_len b : wf b -> zlen (content b) = writerIndex_ b - readerIndex_ b.
Proof. intros. buf_unfold. apply zlen_zslice; lia. Qed.
Lemma readable_content b : wf b -> readableBytes b = zlen (content b).
Proof. intros. rewrite readable_wf, content_len by done. done. Qed.

Lemma zlen_write_at v i src v' : write_at v i src = Ok v' -> zlen v' = zlen v.
Proof.
  unfold write_at. destruct (_ && _) eqn:E; [|done]. intros [= <-].
  apply andb_true_iff in E as [?%Z.leb_le ?%Z.leb_le]. zlia.
Qed.
Lemma write_at_ok v i src :
  0 <= i -> i + zlen src <= zlen v ->
  write_at v i src = Ok (ztake i v ++ src ++ zdrop (i + zlen src) v).
Proof.
  intros. unfold write_at.
  by replace (_ && _) with true by (symmetry; zbool; lia).
Qed.
Lemma zlen_resize v n v' : vector_resize v n = Ok v' -> 0 <= n -> zlen v' = n.
Proof.
  unfold vector_resize. destruct (_ <=? _); [|done]. intros [= <-] ?. zlia.
Qed.
Lemma resize_grow v n :
  zlen v <= n -> n <= vector_max_size ->
  vector_resize v n = Ok (v ++ replicate (Z.to_nat (n - zlen v)) 0).
Proof.
  intros. unfold vector_resize.
  replace (n <=? vector_max_size) with true by (symmetry; zbool; lia).
  by rewrite ztake_all by lia.
Qed.

Lemma new_ok n :
  0 <= n -> kCheapPrepend + n <= vector_max_size ->
  exists b, new_ n = Ok b /\ wf b /\ content b = [] /\
    readerIndex_ b = kCheapPrepend /\ zlen (buffer_ b) = kCheapPrepend + n.
Proof.
  intros. unfold new_. buf_unfold. wrap64.
  rewrite resize_grow by (buf_unfold; zlia). cbn [mbind outcome_bind].
  set (b := mk _ _ _). assert (wf b) as Hb by (subst b; buf_unfold; zlia).
  assert (zlen (buffer_ b) = 8 + n) by (subst b; buf_unfold; zlia).
  rewrite readable_wf, writable_wf by done. unfold prependableBytes.
  cbn [readerIndex_ writerIndex_ b]. rewrite H1. do 3 assert_ok.
  exists b. split; [done|]. split; [exact Hb|].
  by split_and!.
Qed.

Lemma retrieve_ok len b :
  wf b -> 0 <= len -> len <= zlen (content b) ->
  exists b', retrieve len b = Ok b' /\ wf b' /\ content b' = zdrop len (content b) /\
    buffer_ b' = buffer_ b /\
    readerIndex_ b' = (if len <? zlen (content b) then readerIndex_ b + len else kCheapPrepend).
Proof.
  intros Hb ? Hlen. unfold retrieve. rewrite readable_content by done.
  assert_ok. rewrite content_len in * by done.
  destruct (Z.ltb_spec len (writerIndex_ b - readerIndex_ b)).
  - eexists. split; [done|]. buf_unfold. wrap64. split_and!; try (done || lia).
    rewrite zdrop_zslice by lia. done.
  - eexists. split; [done|]. unfold retrieveAll. buf_unfold. split_and!; try (done || lia).
    rewrite zdrop_all; [by apply zslice_empty|]. rewrite zlen_zslice; lia.
Qed.

(** There is room for [len] more bytes, by growing or by moving. *)
Definition room (len : Z) (b : t) : Prop :=
  writerIndex_ b + len <= vector_max_size \/
  len + kCheapPrepend <= zlen (buffer_ b) - writerIndex_ b + readerIndex_ b.

Lemma makeSpace_ok len b :
  wf b -> writableBytes b < len -> room len b ->
  exists b', makeSpace len b = Ok b' /\ wf b' /\ content b' = content b /\
    writerIndex_ b' + len <= zlen (buffer_ b') /\
    zlen (buffer_ b') = Z.max (zlen (buffer_ b)) (writerIndex_ b' + len) /\
    ((readerIndex_ b' = readerIndex_ b /\ writerIndex_ b' = writerIndex_ b /\
      zlen (buffer_ b) - writerIndex_ b + readerIndex_ b < len + kCheapPrepend) \/
     ((readerIndex_ b' = kCheapPrepend /\ kCheapPrepend < readerIndex_ b) /\ zlen (buffer_ b') = zlen (buffer_ b))).
Proof.
  intros Hb Hw Hmax. unfold room in Hmax. pose proof (readable_wf b Hb) as Hr. pose proof (content_len b Hb) as Hc.
  rewrite writable_wf in Hw by done. unfold makeSpace, prependableBytes. rewrite writable_wf by done.
  assert (Hb2 := Hb). buf_unfold. wrap64.
  destruct (Z.ltb_spec (zlen (buffer_ b) - writerIndex_ b + readerIndex_ b) (len + 8)).
  - rewrite resize_grow by (buf_unfold; lia). cbn [mbind outcome_bind].
    eexists. split; [done|]. buf_unfold. rewrite zslice_app_l by lia.
    autorewrite with zlen. zlen_pose. split_and!; try (done || lia).
  - assert_ok. rewrite write_at_ok by (rewrite ?Hc; lia). cbn [mbind outcome_bind].
    rewrite Hr. wrap64. set (b' := mk _ _ _).
    assert (zlen (buffer_ b') = zlen (buffer_ b)) as Hl by (subst b'; buf_unfold; zlia).
    assert (wf b') as Hb' by (unfold wf; rewrite Hl; subst b'; buf_unfold; lia).
    rewrite readable_wf by done. cbn [writerIndex_ readerIndex_ b']. assert_ok.
    exists b'. buf_unfold. rewrite Hl. subst b'; cbn [buffer_ writerIndex_ readerIndex_].
    split_and!; try (done || lia).
    apply zslice_app_mid; zlia.
Qed.

Lemma ensureWritable_room len b :
  wf b -> 0 <= len -> room len b ->
  exists b', ensureWritableBytes len b = Ok b' /\ wf b' /\ content b' = content b /\
    writerIndex_ b' + len <= zlen (buffer_ b') /\
    zlen (buffer_ b) <= zlen (buffer_ b') <= zlen (buffer_ b) + len /\
    (readerIndex_ b' = readerIndex_ b \/ (readerIndex_ b' = kCheapPrepend /\ kCheapPrepend < readerIndex_ b)) /\
    (len + kCheapPrepend <= zlen (buffer_ b) - writerIndex_ b + readerIndex_ b ->
     zlen (buffer_ b') = zlen (buffer_ b)).
Proof.
  intros Hb Hlen Hmax. unfold ensureWritableBytes. rewrite writable_wf by done.
  destruct (Z.ltb_spec (zlen (buffer_ b) - writerIndex_ b) len).
  - destruct (makeSpace_ok len b) as (b'&->&Hb'&Hc&Hfit&Hsz&Hcase);
      [done | by rewrite writable_wf | done |].
    cbn [mbind outcome_bind]. rewrite writable_wf by done. assert_ok.
    exists b'. assert (Hb2 := Hb). buf_unfold. split_and!; try (done || lia).
  - cbn [mbind outcome_bind]. rewrite writable_wf by done. assert_ok.
    exists b. buf_unfold. split_and!; try (done || lia).
Qed.

Lemma ensureWritable_ok len b :
  wf b -> 0 <= len -> writerIndex_ b + len <= vector_max_size ->
  exists b', ensureWritableBytes len b = Ok b' /\ wf b' /\ content b' = content b /\
    writerIndex_ b' + len <= zlen (buffer_ b') /\
    zlen (buffer_ b) <= zlen (buffer_ b') <= zlen (buffer_ b) + len /\
    (readerIndex_ b' = readerIndex_ b \/ (readerIndex_ b' = kCheapPrepend /\ kCheapPrepend < readerIndex_ b)) /\
    (len + kCheapPrepend <= zlen (buffer_ b) - writerIndex_ b + readerIndex_ b ->
     zlen (buffer_ b') = zlen (buffer_ b)).
Proof. intros. apply ensureWritable_room; [done|done|by left]. Qed.

(** Growing is for the bytes asked only. *)
Lemma ensureWritable_bound len b :
  wf b -> 0 <= len -> writerIndex_ b + len <= vector_max_size ->
  exists b', ensureWritableBytes len b = Ok b' /\ wf b' /\ content b' = content b /\
    writerIndex_ b' + len <= zlen (buffer_ b') /\ writerIndex_ b' <= writerIndex_ b /\
    zlen (buffer_ b') <= Z.max (zlen (buffer_ b)) (writerIndex_ b + len).
Proof.
  intros Hb Hlen Hmax. unfold ensureWritableBytes. rewrite writable_wf by done.
  destruct (Z.ltb_spec (zlen (buffer_ b) - writerIndex_ b) len).
  - destruct (makeSpace_ok len b) as (b'&->&Hb'&Hc&Hfit&Hsz&Hcase); [done|by rewrite writable_wf|by left|].
    cbn [mbind outcome_bind]. rewrite writable_wf by done. assert_ok. exists b'.
    pose proof (content_len b Hb) as L1. pose proof (content_len b' Hb') as L2. rewrite Hc in L2.
    assert (writerIndex_ b' <= writerIndex_ b) by lia. split_and!; done || lia.
  - cbn [mbind outcome_bind]. rewrite writable_wf by done. assert_ok. exists b. split_and!; done || lia.
Qed.

Lemma ensureWritable_noop len b :
  wf b -> writerIndex_ b + len <= zlen (buffer_ b) -> ensureWritableBytes len b = Ok b.
Proof.
  intros Hb Hfit. unfold ensureWritableBytes. rewrite writable_wf by done.
  replace (_ <? len) with false by (symmetry; zbool; lia).
  cbn [mbind outcome_bind]. rewrite writable_wf by done. by assert_ok.
Qed.

(** Writing [src] at the write index of a buffer with room for it. *)
Lemma fill_ok b src :
  wf b -> writerIndex_ b + zlen src <= zlen (buffer_ b) ->
  exists v, write_at (buffer_ b) (writerIndex_ b) src = Ok v /\ zlen v = zlen (buffer_ b) /\
    let b' := mk v (readerIndex_ b) (writerIndex_ b + zlen src) in
    wf b' /\ content b' = content b ++ src.
Proof.
  intros Hb Hfit. assert (Hb2 := Hb). buf_unfold.
  rewrite write_at_ok by lia. eexists. split; [done|].
  assert (zlen (ztake (writerIndex_ b) (buffer_ b) ++ src ++
     zdrop (writerIndex_ b + zlen src) (buffer_ b)) = zlen (buffer_ b)) as Hl by zlia.
  rewrite Hl. split_and!; try (done || zlia).
  rewrite <- (zslice_split _ (writerIndex_ b)) by zlia.
  rewrite zslice_app_l by zlia. rewrite zslice_app_mid by zlia. f_equal.
  rewrite <- (zslice_app_l _ _ (ztake (writerIndex_ b) (buffer_ b))
    (zdrop (writerIndex_ b) (buffer_ b))) by zlia.
  by rewrite ztake_zdrop.
Qed.

Lemma append_room data len b :
  wf b -> 0 <= len <= zlen data -> room len b ->
  exists b', append data len b = Ok b' /\ wf b' /\ content b' = content b ++ ztake len data /\
    zlen (buffer_ b') <= zlen (buffer_ b) + len /\
    (readerIndex_ b' = readerIndex_ b \/ (readerIndex_ b' = kCheapPrepend /\ kCheapPrepend < readerIndex_ b)) /\
    (writerIndex_ b + len <= zlen (buffer_ b) -> zlen (buffer_ b') = zlen (buffer_ b)).
Proof.
  intros Hb Hlen Hmax. unfold append, beginWrite.
  destruct (ensureWritable_room len b) as (b1&He&Hb1&Hc1&Hfit&Hsz&Hr&_); [done|lia|done|].
  assert (writerIndex_ b + len <= zlen (buffer_ b) -> b1 = b) as Hnoop.
  { intros Hf. rewrite ensureWritable_noop in He by done. by injection He. }
  rewrite He.
  cbn [mbind outcome_bind]. unfold read_mem.
  replace (len <=? zlen data) with true by (symmetry; zbool; lia). cbn [mbind outcome_bind].
  destruct (fill_ok b1 (ztake len data)) as (v&->&Hv&Hb'&Hc'); [done|zlia|].
  cbn [mbind outcome_bind]. unfold hasWritten.
  rewrite writable_wf by (assert (Hb2 := Hb1); buf_unfold; rewrite Hv; lia).
  cbn [buffer_ writerIndex_]. rewrite Hv. assert_ok.
  assert (zlen (ztake len data) = len) as Hz by zlia. rewrite Hz in *.
  unfold u64. rewrite uwrap_small by (unfold urange; assert (Hb2 := Hb1); buf_unfold; lia).
  eexists. split; [done|]. cbn [buffer_ readerIndex_]. rewrite Hc', Hc1.
  split_and!; try (done || lia). intros Hf. by rewrite Hv, (Hnoop Hf).
Qed.

Lemma append_ok data len b :
  wf b -> 0 <= len <= zlen data -> writerIndex_ b + len <= vector_max_size ->
  exists b', append data len b = Ok b' /\ wf b' /\ content b' = content b ++ ztake len data /\
    zlen (buffer_ b') <= zlen (buffer_ b) + len /\
    (readerIndex_ b' = readerIndex_ b \/ (readerIndex_ b' = kCheapPrepend /\ kCheapPrepend < readerIndex_ b)) /\
    (writerIndex_ b + len <= zlen (buffer_ b) -> zlen (buffer_ b') = zlen (buffer_ b)).
Proof. intros. apply append_room; [done|done|by left]. Qed.

(** Without a bound on the memory, [append] may also throw [length_error]. *)
Lemma append_or_throw data len b :
  wf b -> 0 <= len <= zlen data -> len < 2 ^ 63 ->
  (exists b', append data len b = Ok b' /\ wf b' /\ content b' = content b ++ ztake len data) \/
  append data len b = Err (StdException "length_error").
Proof.
  intros Hb Hlen Hmax.
  destruct (Z.le_gt_cases (writerIndex_ b + len) vector_max_size) as [Hle|Hgt].
  { left. destruct (append_ok data len b Hb Hlen Hle) as (b'&?&?&?&_). eauto. }
  destruct (Z.le_gt_cases (len + kCheapPrepend) (zlen (buffer_ b) - writerIndex_ b + readerIndex_ b)) as [Hle|Hgt2].
  { left. destruct (append_room data len b Hb Hlen) as (b'&?&?&?&_); [by right|]. eauto. }
  right. unfold append, ensureWritableBytes, makeSpace, prependableBytes. rewrite writable_wf by done.
  assert (Hb2 := Hb). buf_unfold. wrap64.
  destruct (Z.ltb_spec (zlen (buffer_ b) - writerIndex_ b) len); [|lia].
  destruct (Z.ltb_spec (zlen (buffer_ b) - writerIndex_ b + readerIndex_ b) (len + 8)); [|lia].
  unfold vector_resize. buf_unfold.
  by destruct (Z.leb_spec (writerIndex_ b + len) (2 ^ 63 - 1)); [lia|].
Qed.

Lemma prepend_ok data b :
  wf b -> zlen data <= readerIndex_ b ->
  exists b', prepend data (zlen data) b = Ok b' /\ wf b' /\ content b' = data ++ content b /\
    zlen (buffer_ b') = zlen (buffer_ b) /\ readerIndex_ b' = readerIndex_ b - zlen data.
Proof.
  intros Hb Hlen. unfold prepend, prependableBytes. assert_ok.
  assert (Hb2 := Hb). buf_unfold. wrap64. unfold read_mem. rewrite Z.leb_refl.
  cbn [mbind outcome_bind]. rewrite ztake_all by lia. rewrite write_at_ok by zlia.
  cbn [mbind outcome_bind]. eexists. split; [done|]. buf_unfold.
  split_and!; try (done || zlia).
  rewrite <- (zslice_split _ (readerIndex_ b)) by zlia. f_equal.
  - apply zslice_app_mid; zlia.
  - replace (readerIndex_ b - zlen data + zlen data) with (readerIndex_ b) by lia.
    unfold zslice. rewrite app_assoc, zdrop_app_exact by zlia. done.
Qed.

Lemma append_string_ok s b :
  wf b -> zlen s < 2 ^ 31 -> writerIndex_ b + zlen s <= vector_max_size ->
  exists b', append_string s b = Ok b' /\ wf b' /\ content b' = content b ++ s /\
    zlen (buffer_ b') <= zlen (buffer_ b) + zlen s /\
    (readerIndex_ b' = readerIndex_ b \/ (readerIndex_ b' = kCheapPrepend /\ kCheapPrepend < readerIndex_ b)).
Proof.
  intros Hb Hs Hmax. unfold append_string, append_piece, StringPiece.of_string; cbn [StringPiece.data
    StringPiece.size StringPiece.ptr_ StringPiece.length_].
  unfold u64, i32. rewrite swrap_small by (unfold srange; zlia || (cbn; zlia)).
  rewrite uwrap_small by (unfold urange; cbn; zlia).
  destruct (append_ok s (zlen s) b) as (b'&?&?&Hc&?&?&_); [done|zlia|done|].
  exists b'. rewrite ztake_all in Hc by lia. done.
Qed.

Lemma bytesb_spec s : bytesb s = true <-> Forall is_byte s.
Proof.
  unfold bytesb, is_byte. rewrite forallb_forall, List.Forall_forall.
  split; intros H x Hx; specialize (H x Hx); revert H; zbool; done.
Qed.

Lemma be_bytes_be_value l : Forall is_byte l -> be_bytes (length l) (be_value l) = l.
Proof.
  intros H. unfold be_bytes, be_value. rewrite <- length_reverse.
  rewrite le_bytes_le_value by by apply Forall_reverse. apply reverse_involutive.
Qed.
Section IntLemmas.
Context `{HO : HostOrder}.

Lemma store_int n x : (0 < n)%nat ->
  let w := 8 * Z.of_nat n in
  store n (swrap w (htobe n (uwrap w x))) = be_bytes n x.
Proof.
  intros Hn w. rewrite (store_htobe n (uwrap w x)) by (done || by apply uwrap_swrap; lia).
  apply be_bytes_mod_eq. unfold uwrap. by rewrite Zmod_mod.
Qed.
Lemma store_int8 x : store 1 x = be_bytes 1 x.
Proof. unfold store. by destruct host_little. Qed.

Lemma appendInt_be w x b :
  appendInt w x b = append (be_bytes (width_bytes w) x) (Z.of_nat (width_bytes w)) b.
Proof.
  destruct w; cbn [appendInt width_bytes].
  - unfold appendInt8. by rewrite store_int8.
  - unfold appendInt16, hostToNetwork16. f_equal. apply (store_int 2); lia.
  - unfold appendInt32, hostToNetwork32. f_equal. apply (store_int 4); lia.
  - unfold appendInt64, hostToNetwork64. f_equal. apply (store_int 8); lia.
Qed.
Lemma prependInt_be w x b :
  prependInt w x b = prepend (be_bytes (width_bytes w) x) (Z.of_nat (width_bytes w)) b.
Proof.
  destruct w; cbn [prependInt width_bytes].
  - unfold prependInt8. by rewrite store_int8.
  - unfold prependInt16, hostToNetwork16. f_equal. apply (store_int 2); lia.
  - unfold prependInt32, hostToNetwork32. f_equal. apply (store_int 4); lia.
  - unfold prependInt64, hostToNetwork64. f_equal. apply (store_int 8); lia.
Qed.

Lemma read_mem_content b n :
  wf b -> 0 <= n <= zlen (content b) ->
  read_mem (mem_at b (peek b)) n = Ok (ztake n (content b)).
Proof.
  intros Hb Hn. rewrite content_len in Hn by done. unfold read_mem, mem_at, peek.
  assert (Hb2 := Hb). buf_unfold.
  replace (n <=? _) with true by (symmetry; zbool; zlia).
  rewrite ztake_zslice by lia. unfold zslice. do 2 f_equal. lia.
Qed.

Lemma load_int w m : Forall is_byte m -> length m = width_bytes w ->
  swrap (width_bits w) (betoh (width_bytes w) (load m)) = swrap (width_bits w) (be_value m).
Proof.
  intros Hm Hl. rewrite <- (be_bytes_be_value m) at 1 by done.
  rewrite Hl, betoh_load. apply swrap_uwrap. destruct w; done.
Qed.

Lemma peekInt_ok w b :
  wf b -> Forall is_byte (content b) -> Z.of_nat (width_bytes w) <= zlen (content b) ->
  peekInt w b =
  Ok (swrap (width_bits w) (be_value (ztake (Z.of_nat (width_bytes w)) (content b)))).
Proof.
  intros Hb Hbytes Hlen.
  assert (Forall is_byte (ztake (Z.of_nat (width_bytes w)) (content b))) as Hm
    by by apply Forall_take.
  assert (length (ztake (Z.of_nat (width_bytes w)) (content b)) = width_bytes w) as Hl.
  { unfold ztake, zlen in *. rewrite length_take. lia. }
  pose proof (load_int w _ Hm Hl) as Hv.
  pose proof (read_mem_content b (Z.of_nat (width_bytes w)) Hb ltac:(lia)) as Hread.
  set (m := ztake _ _) in *. clearbody m.
  destruct w; cbn [peekInt width_bytes] in *.
  - unfold peekInt8. rewrite readable_content by done. assert_ok.
    rewrite (Hread : read_mem _ 1 = _). cbn. f_equal. unfold i8.
    destruct m as [|x [|]]; [done| |done].
    cbn. unfold load, be_value. cbn. by destruct host_little.
  - unfold peekInt16. rewrite readable_content by done. assert_ok.
    rewrite (Hread : read_mem _ 2 = _). cbn. f_equal. exact Hv.
  - unfold peekInt32. rewrite readable_content by done. assert_ok.
    rewrite (Hread : read_mem _ 4 = _). cbn. f_equal. exact Hv.
  - unfold peekInt64. rewrite readable_content by done. assert_ok.
    rewrite (Hread : read_mem _ 8 = _). cbn. f_equal. exact Hv.
Qed.

Lemma readInt_ok w b :
  wf b -> Forall is_byte (content b) -> Z.of_nat (width_bytes w) <= zlen (content b) ->
  readInt w b =
  b' ← retrieve (Z.of_nat (width_bytes w)) b;
  Ok (swrap (width_bits w) (be_value (ztake (Z.of_nat (width_bytes w)) (content b))), b').
Proof.
  intros Hb Hbytes Hlen. pose proof (peekInt_ok w b Hb Hbytes Hlen) as Hp.
  destruct w; cbn [readInt peekInt] in *;
    unfold readInt8, readInt16, readInt32, readInt64; by rewrite Hp.
Qed.
End IntLemmas.

(** * Simulation, one operation at a time *)

Ltac ref_unfold := unfold refines, wf in *; buf_unfold.

Lemma refines_push b st s st' (op : outcome t) :
  refines b st -> spec_push s st = Some st' ->
  (writerIndex_ b + zlen s <= vector_max_size ->
   exists b', op = Ok b' /\ wf b' /\ content b' = content b ++ s /\
     zlen (buffer_ b') <= zlen (buffer_ b) + zlen s /\
     (readerIndex_ b' = readerIndex_ b \/
      (readerIndex_ b' = kCheapPrepend /\ kCheapPrepend < readerIndex_ b))) ->
  exists b', op = Ok b' /\ refines b' st'.
Proof.
  intros (Hb&Hc&Hby&Hroom&Hrd&Hcap) Hp Hop. unfold spec_push in Hp.
  destruct (_ && _) eqn:E; [|done]. injection Hp as <-.
  apply andb_true_iff in E as [Hs%bytesb_spec ?%Z.leb_le].
  destruct Hop as (b'&->&Hb'&Hc'&Hsz&Hr); [unfold wf in Hb; lia|].
  exists b'. split; [done|]. split; [exact Hb'|]. cbn [s_content s_room s_cap].
  rewrite Hc', Hc. split_and!; try (done || zlia).
  - by apply Forall_app.
Qed.

Lemma refines_pop b st n s st' :
  refines b st -> spec_pop n st = Some (s, st') ->
  0 <= n <= zlen (content b) /\ s = ztake n (content b) /\
  exists b', retrieve n b = Ok b' /\ refines b' st'.
Proof.
  intros (Hb&Hc&Hby&Hroom&Hrd&Hcap) Hp. unfold spec_pop in Hp.
  destruct (_ && _) eqn:E; [|done]. injection Hp as <- <-.
  apply andb_true_iff in E as [?%Z.leb_le ?%Z.leb_le]. rewrite <- Hc in *.
  split; [done|]. split; [done|].
  destruct (retrieve_ok n b) as (b'&->&Hb'&Hc'&Hbuf&Hr); [done..|].
  exists b'. split; [done|]. split; [exact Hb'|]. cbn [s_content s_room s_cap].
  rewrite Hc', Hbuf, Hr. buf_unfold.
  split_and!; try (done || lia); [by apply Forall_drop|..]; destruct (_ <? _); lia.
Qed.

Lemma refines_prepend b st s st' :
  refines b st -> spec_prepend s st = Some st' ->
  exists b', prepend s (zlen s) b = Ok b' /\ refines b' st'.
Proof.
  intros (Hb&Hc&Hby&Hroom&Hrd&Hcap) Hp. unfold spec_prepend in Hp.
  destruct (_ && _) eqn:E; [|done]. injection Hp as <-.
  apply andb_true_iff in E as [Hs%bytesb_spec ?%Z.leb_le].
  destruct (prepend_ok s b) as (b'&->&Hb'&Hc'&Hbuf&Hr); [done|lia|].
  exists b'. split; [done|]. split; [exact Hb'|]. cbn [s_content s_room s_cap].
  rewrite Hc', Hbuf, Hr, Hc. split_and!; try (done || zlia). by apply Forall_app.
Qed.

Lemma refines_take b st n s st' :
  refines b st -> spec_pop n st = Some (s, st') ->
  exists b', retrieveAsString n b = Ok (s, b') /\ refines b' st'.
Proof.
  intros HR Hp. destruct (refines_pop _ _ _ _ _ HR Hp) as (?&->&b'&Hret&HR').
  destruct HR as (Hb&_). unfold retrieveAsString. rewrite readable_content by done.
  assert_ok. rewrite read_mem_content by done. cbn. rewrite Hret. cbn. eauto.
Qed.

Lemma refines_peek `{HO : HostOrder} b st w x :
  refines b st -> spec_peek_int w st = Some x ->
  peekInt w b = Ok x /\ Z.of_nat (width_bytes w) <= zlen (content b) /\
  x = swrap (width_bits w) (be_value (ztake (Z.of_nat (width_bytes w)) (content b))).
Proof.
  intros (Hb&Hc&Hby&_) Hp. unfold spec_peek_int in Hp.
  destruct (Z.leb_spec (Z.of_nat (width_bytes w)) (zlen (s_content st))); [|done].
  injection Hp as <-. rewrite <- Hc in *. split; [by apply peekInt_ok|done].
Qed.

Lemma refines_shrink b st reserve :
  refines b st -> 0 <= reserve -> zlen (s_content st) < 2 ^ 31 ->
  kCheapPrepend + kInitialSize + zlen (s_content st) + reserve <= vector_max_size ->
  exists b', shrink reserve b = Ok b' /\
    refines b' (mkspec (s_content st) kCheapPrepend
                  (kCheapPrepend + kInitialSize + zlen (s_content st) + reserve)).
Proof.
  intros (Hb&Hc&Hby&_) Hres Hsmall Hcap. rewrite <- Hc in *. unfold shrink.
  destruct (new_ok kInitialSize) as (o&->&Ho&Hoc&Hor&Hol);
    [unfold kInitialSize; lia | buf_unfold; zlia |]. cbn [mbind outcome_bind].
  rewrite readable_content by done. pose proof (zlen_nonneg (content b)).
  assert (writerIndex_ o = kCheapPrepend) as How.
  { pose proof (content_len o Ho) as Hl. rewrite Hoc, zlen_nil in Hl. lia. }
  unfold u64. rewrite uwrap_small by (unfold urange; buf_unfold; lia).
  destruct (ensureWritable_ok (zlen (content b) + reserve) o) as (o1&->&Ho1&Hc1&Hfit&Hsz&Hr1&_);
    [done | lia | rewrite How; unfold kInitialSize in *; lia |]. cbn [mbind outcome_bind].
  assert (readerIndex_ o1 = kCheapPrepend) as Hr1' by lia.
  unfold append_piece, toStringPiece. cbn [StringPiece.of_len StringPiece.data StringPiece.size
    StringPiece.ptr_ StringPiece.length_].
  rewrite readable_content by done.
  unfold i32. rewrite swrap_small by (unfold srange; cbn; lia).
  unfold u64. rewrite uwrap_small by (unfold urange; cbn; lia).
  assert (zlen (content b) <= zlen (mem_at b (peek b))) as Hmem.
  { rewrite content_len by done. unfold mem_at, peek, wf in *. zlia. }
  assert (writerIndex_ o1 + zlen (content b) <= zlen (buffer_ o1)) as Hfit' by lia.
  assert (Hw1 : wf o1) by done. unfold wf in Hw1.
  destruct (append_ok (mem_at b (peek b)) (zlen (content b)) o1) as (o2&->&Ho2&Hc2&_&Hr2&Hsz2);
    [done | lia | lia |]. cbn.
  assert (content o2 = content b) as Hfin.
  { rewrite Hc2, Hc1, Hoc. cbn.
    pose proof (read_mem_content b (zlen (content b)) Hb ltac:(lia)) as Hm.
    unfold read_mem in Hm. destruct (_ <=? _); [|done]. injection Hm as ->. by apply ztake_all. }
  eexists. split; [done|]. specialize (Hsz2 Hfit').
  destruct o2 as [v r wr]; cbn in *. split; [exact Ho2|].
  split; [exact Hfin|]. split; [done|]. cbn [s_room s_cap readerIndex_ buffer_].
  buf_unfold. lia.
Qed.

(** Each command of the buffer simulates the command of the byte queue. *)
Lemma step_refines `{HO : HostOrder} c b st r st' :
  refines b st -> spec_step c st = Some (r, st') ->
  exists b', step c b = Ok (r, b') /\ refines b' st'.
Proof.
  intros HR Hstep. assert (HR2 := HR). destruct HR2 as (Hb&Hc&Hby&Hroom&Hrd&Hcap).
  destruct c; cbn [spec_step step] in *.
  - destruct (Z.ltb_spec (zlen s) (2 ^ 31)); [|done].
    destruct (spec_push s st) eqn:E; [|done]. injection Hstep as <- <-.
    destruct (refines_push b st s s0 (append_string s b)) as (b'&->&?);
      [done..|by apply append_string_ok|]. cbn. eauto.
  - destruct (_ && _) eqn:E; [|done]. injection Hstep as <- <-.
    apply andb_true_iff in E as [?%Z.leb_le ?%Z.leb_le].
    destruct (ensureWritable_ok n b) as (b'&->&Hb'&Hc'&?&?&?&_); [done..|unfold wf in Hb; lia|].
    exists b'. split; [done|]. split; [exact Hb'|]. cbn [s_content s_room s_cap].
    rewrite Hc'. buf_unfold. split_and!; try (done || lia).
  - destruct (spec_prepend s st) eqn:E; [|done]. injection Hstep as <- <-.
    destruct (refines_prepend b st s s0) as (b'&->&?); [done..|]. cbn. eauto.
  - destruct (spec_pop n st) as [[s st1]|] eqn:E; [|done]. injection Hstep as <- <-.
    destruct (refines_pop b st n s st1) as (_&_&b'&->&?); [done..|]. cbn. eauto.
  - injection Hstep as <- <-. eexists. split; [done|]. unfold retrieveAll. ref_unfold.
    split_and!; try (done || lia).
  - destruct (spec_pop n st) as [[s st1]|] eqn:E; [|done]. injection Hstep as <- <-.
    destruct (refines_take b st n s st1) as (b'&->&?); [done..|]. cbn. eauto.
  - destruct (spec_pop (zlen (s_content st)) st) as [[s st1]|] eqn:E; [|done].
    injection Hstep as <- <-. unfold retrieveAllAsString. rewrite readable_content, Hc by done.
    destruct (refines_take b st _ s st1 HR E) as (b'&->&?). cbn. eauto.
  - destruct (_ && _) eqn:E; [|done]. injection Hstep as <- <-.
    apply andb_true_iff in E as [?%Z.leb_le Hn%Z.leb_le]. unfold unwrite.
    rewrite readable_content by done. rewrite <- Hc in *. assert_ok. cbn.
    rewrite content_len in * by done.
    eexists. split; [done|]. ref_unfold. wrap64.
    split_and!; try (done || lia).
    + rewrite ztake_zslice by lia. f_equal. lia.
    + by apply Forall_take.
  - destruct (_ && _) eqn:E; [|done]. injection Hstep as <- <-.
    apply andb_true_iff in E as [[?%Z.leb_le ?%Z.ltb_lt]%andb_true_iff ?%Z.leb_le].
    destruct (refines_shrink b st reserve) as (b'&->&?); [done..|]. cbn. eauto.
  - destruct (spec_push _ st) as [s0|] eqn:E; [|done]. injection Hstep as <- <-.
    destruct (refines_push b st _ s0 (appendInt w x b) HR E) as (b'&->&?); [|cbn; eauto].
    rewrite appendInt_be, zlen_be_bytes. intros Hmax.
    destruct (append_ok (be_bytes (width_bytes w) x) (Z.of_nat (width_bytes w)) b)
      as (b'&?&?&Hc'&?&?&_); [done|by rewrite zlen_be_bytes; lia|done|].
    rewrite ztake_all in Hc' by by rewrite zlen_be_bytes. eauto 6.
  - destruct (spec_prepend _ st) as [s0|] eqn:E; [|done]. injection Hstep as <- <-.
    destruct (refines_prepend b st _ s0 HR E) as (b'&Hp&?).
    rewrite prependInt_be. rewrite zlen_be_bytes in Hp. rewrite Hp. cbn. eauto.
  - destruct (spec_peek_int w st) eqn:E; [|done]. injection Hstep as <- <-.
    destruct (refines_peek b st w z HR E) as (->&_). cbn. eauto.
  - destruct (spec_peek_int w st) eqn:E; [|done]. cbn in Hstep.
    destruct (spec_pop _ st) as [[s st1]|] eqn:E2; [|done]. injection Hstep as <- <-.
    destruct (refines_peek b st w z HR E) as (_&Hlen&->).
    destruct (refines_pop b st _ s st1 HR E2) as (_&_&b'&Hret&?).
    rewrite readInt_ok by (done || by rewrite Hc). rewrite Hret. cbn. eauto.
Qed.

Lemma run_refines `{HO : HostOrder} cs b st rs st' :
  refines b st -> spec_run cs st = Some (rs, st') ->
  exists b', run cs b = Ok (rs, b') /\ refines b' st'.
Proof.
  revert b st rs st'. induction cs as [|c cs IH]; intros b st rs st' HR Hrun; cbn in *.
  - injection Hrun as <- <-. eauto.
  - destruct (spec_step c st) as [[r st1]|] eqn:E; [|done]. cbn in Hrun.
    destruct (spec_run cs st1) as [[rs' st2]|] eqn:E2; [|done]. injection Hrun as <- <-.
    destruct (step_refines c b st r st1 HR E) as (b1&->&HR1). cbn.
    destruct (IH b1 st1 rs' st2 HR1 E2) as (b2&->&HR2). cbn. eauto.
Qed.

(** * Searching *)

Lemma search_crlf_bounds l : 0 <= search_crlf l <= zlen l.
Proof.
  induction l as [|x [|y l] IH]; cbn [search_crlf] in *; [done|done|].
  rewrite zlen_cons. destruct (_ && _); lia.
Qed.

(** Where [std::search] stops: at the first CR LF, or at the end when the
    bytes contain none. *)
Lemma search_crlf_spec l :
  (search_crlf l < zlen l ->
   exists pre post, l = pre ++ kCRLF ++ post /\ zlen pre = search_crlf l) /\
  (forall pre post, l = pre ++ kCRLF ++ post -> search_crlf l <= zlen pre).
Proof.
  induction l as [|x [|y l] IH]; cbn [search_crlf] in *.
  - split; [done|]. intros [|? ?] ? [=].
  - split; [done|]. intros [|? [|? ?]] ? [=].
  - destruct IH as [IH1 IH2]. destruct ((x =? 13) && (y =? 10)) eqn:E.
    + apply andb_true_iff in E as [->%Z.eqb_eq ->%Z.eqb_eq]. split.
      * intros _. by exists [], l.
      * intros pre _ _. apply zlen_nonneg.
    + split.
      * rewrite zlen_cons. intros Hlt. destruct IH1 as (pre&post&Heq&Hlen); [lia|].
        exists (x :: pre), post. rewrite Heq, zlen_cons, Hlen. done.
      * intros [|x' pre] post Heq; [by injection Heq as -> -> _|].
        injection Heq as -> Heq. rewrite zlen_cons. specialize (IH2 pre post Heq). lia.
Qed.

(** A CR LF-terminated first line: the search returns its length. *)
Lemma search_crlf_line line rest :
  Forall (fun x => x <> 13) line -> search_crlf (line ++ kCRLF ++ rest) = zlen line.
Proof.
  intros Hl. apply Z.le_antisymm; [by eapply search_crlf_spec|].
  destruct (search_crlf_spec (line ++ kCRLF ++ rest)) as [H1 H2].
  specialize (H2 line rest eq_refl).
  destruct H1 as (pre&post&Heq&<-); [unfold kCRLF in *; zlia|].
  destruct (decide (zlen line <= zlen pre)) as [|Hlt]; [done|]. exfalso.
  apply (f_equal (fun l => l !! length pre)) in Heq. unfold zlen in Hlt.
  rewrite lookup_app_l, lookup_app_r, Nat.sub_diag in Heq by lia. cbn in Heq.
  rewrite Forall_lookup in Hl. by specialize (Hl _ _ Heq).
Qed.

(** * readFd *)

(** readv(2) transfers at most the total length of the buffers. *)
Definition readv_bounded (readv : list Z -> read_result) : Prop :=
  forall iov data, Forall (fun n => 0 <= n) iov ->
    readv iov = ReadBytes data -> zlen data <= foldr Z.add 0 iov.

Lemma iov_nonneg b :
  Forall (fun n => 0 <= n)
    (if writableBytes b <? kExtrabufSize then [writableBytes b; kExtrabufSize]
     else [writableBytes b]).
Proof.
  assert (0 <= writableBytes b) by (apply uwrap_range; lia).
  destruct (_ <? _); repeat constructor; unfold kExtrabufSize; lia.
Qed.

(** [readFd] fills the buffer, then appends what went to the stack. *)
Lemma readFd_split readv b data :
  wf b -> readv_bounded readv ->
  let writable := writableBytes b in
  readv (if writable <? kExtrabufSize then [writable; kExtrabufSize] else [writable])
    = ReadBytes data ->
  exists b1, wf b1 /\ content b1 = content b ++ ztake writable data /\
    zlen (buffer_ b1) = zlen (buffer_ b) /\
    readFd readv b =
      (if zlen data <=? writable then Ok (zlen data, None, b1)
       else b' ← append (zdrop writable data) (zlen data - writable) b1; Ok (zlen data, None, b')) /\
    zlen data - writable <= kExtrabufSize /\ 0 <= writable.
Proof.
  intros Hb Hrv writable Hdata. unfold readFd. fold writable. rewrite Hdata.
  apply Hrv in Hdata; [|apply iov_nonneg]. assert (writable = zlen (buffer_ b) - writerIndex_ b) as Hw
    by by apply writable_wf.
  clearbody writable. assert (Hb2 := Hb). unfold wf in Hb2.
  assert (zlen data <= writable + kExtrabufSize) as Hex.
  { unfold kExtrabufSize in *. destruct (_ <? _); cbn [foldr] in Hdata; lia. }
  destruct (fill_ok b (ztake writable data)) as (v&->&Hv&Hb1&Hc1); [done|zlia|].
  cbn [mbind outcome_bind]. eexists. split; [exact Hb1|]. split; [exact Hc1|]. split; [done|].
  split; [|lia]. destruct (Z.leb_spec (zlen data) writable) as [Hle|Hgt].
  - rewrite ztake_all by done. unfold u64. rewrite uwrap_small by (try done; unfold urange; buf_unfold; zlia).
    done.
  - assert (zlen (ztake writable data) = writable) as -> by zlia.
    unfold u64. rewrite uwrap_small by (unfold urange; buf_unfold; lia).
    by replace (writerIndex_ b + writable) with (zlen v) by lia.
Qed.

Lemma readFd_ok readv b data :
  wf b -> zlen (buffer_ b) + kExtrabufSize <= vector_max_size -> readv_bounded readv ->
  let writable := writableBytes b in
  readv (if writable <? kExtrabufSize then [writable; kExtrabufSize] else [writable])
    = ReadBytes data ->
  exists b', readFd readv b = Ok (zlen data, None, b') /\ wf b' /\
    content b' = content b ++ data.
Proof.
  intros Hb Hmax Hrv writable Hdata.
  pose proof (readFd_split readv b data Hb Hrv Hdata) as Hsplit. fold writable in Hsplit.
  destruct Hsplit as (b1&Hb1&Hc1&Hl&->&Hex&H0). clearbody writable. destruct (Z.leb_spec (zlen data) writable) as [Hle|Hgt].
  { exists b1. rewrite ztake_all in Hc1 by done. done. }
  destruct (append_ok (zdrop writable data) (zlen data - writable) b1) as (b'&->&Hb'&Hc'&_);
    [done|zlia|unfold wf in Hb1; lia|].
  cbn. exists b'. split; [done|]. split; [done|].
  rewrite Hc', Hc1, (ztake_all (zlen data - writable)) by zlia. by rewrite <- app_assoc, ztake_zdrop.
Qed.

Lemma readFd_or_throw readv b data :
  wf b -> readv_bounded readv ->
  let writable := writableBytes b in
  readv (if writable <? kExtrabufSize then [writable; kExtrabufSize] else [writable])
    = ReadBytes data ->
  (exists b', readFd readv b = Ok (zlen data, None, b') /\ wf b' /\ content b' = content b ++ data) \/
  readFd readv b = Err (StdException "length_error").
Proof.
  intros Hb Hrv writable Hdata.
  pose proof (readFd_split readv b data Hb Hrv Hdata) as Hsplit. fold writable in Hsplit.
  destruct Hsplit as (b1&Hb1&Hc1&Hl&->&Hex&H0). clearbody writable. destruct (Z.leb_spec (zlen data) writable) as [Hle|Hgt].
  { left. exists b1. rewrite ztake_all in Hc1 by done. done. }
  destruct (append_or_throw (zdrop writable data) (zlen data - writable) b1) as [(b'&->&Hb'&Hc')| ->];
    [done|zlia|unfold kExtrabufSize in *; lia| |by right].
  left. cbn. exists b'. split; [done|]. split; [done|].
  rewrite Hc', Hc1, (ztake_all (zlen data - writable)) by zlia. by rewrite <- app_assoc, ztake_zdrop.
Qed.

(** * Properties *)

(** C1: the buffer implements a byte queue.  Starting from a freshly
    constructed buffer, every sequence of appends, prepends, retrievals,
    integer reads and writes, [unwrite], [ensureWritableBytes] and [shrink]
    whose preconditions hold on the queue runs without a failed assertion,
    out-of-bounds write or exception, gives exactly the replies of the queue
    and ends in a well-formed buffer that holds the queue's bytes; in
    particular, 8 bytes can always be prepended after a full retrieval. *)
Theorem buffer_refines_byte_queue `{HO : HostOrder} n cs rs st' :
  0 <= n -> kCheapPrepend + n <= vector_max_size ->
  spec_run cs (mkspec [] kCheapPrepend (kCheapPrepend + n)) = Some (rs, st') ->
  exists b b', new_ n = Ok b /\ run cs b = Ok (rs, b') /\ refines b' st'.
Proof.
  intros Hn Hmax Hrun. destruct (new_ok n) as (b&Hnew&Hb&Hc&Hr&Hl); [done..|].
  exists b. destruct (run_refines cs b (mkspec [] kCheapPrepend (kCheapPrepend + n)) rs st')
    as (b'&?&?); [|done|eauto].
  split; [done|]. cbn [s_content s_room s_cap]. buf_unfold.
  split_and!; try (done || lia).
Qed.

Definition witness_cmds : list cmd :=
  [CAppend (lit "hello"); CPrependInt W32 5; CReadInt W32; CTake 2; CAppend (lit "world!");
   CAppendInt W16 (-2); CRetrieve 9; CReadInt W16; CPrependInt W64 (-7); CReadInt W64; CShrink 3].

Definition witness_final : spec := mkspec [] kCheapPrepend 1035.

Lemma buffer_refines_byte_queue_witness :
  exists b b', new_ 4 = Ok b /\
    run (HO := true) witness_cmds b =
      Ok ([RUnit; RUnit; RInt 5; RBytes (lit "he"); RUnit; RUnit; RUnit; RInt (-2);
           RUnit; RInt (-7); RUnit], b') /\ refines b' witness_final.
Proof.
  apply (buffer_refines_byte_queue (HO := true) 4).
  - lia.
  - vm_compute. discriminate.
  - vm_compute. reflexivity.
Defined.

(** [readFd] loses and reorders nothing.  Whatever readv(2) delivers, up to
    the space offered in the buffer and the 64 KiB stack area, is appended to
    the readable bytes and its count returned; on an error the buffer is
    unchanged and the errno saved. *)
Theorem readFd_appends_everything readv b :
  wf b -> zlen (buffer_ b) + kExtrabufSize <= vector_max_size -> readv_bounded readv ->
  let writable := writableBytes b in
  match readv (if writable <? kExtrabufSize then [writable; kExtrabufSize] else [writable]) with
  | ReadError errno => readFd readv b = Ok (-1, Some errno, b)
  | ReadBytes data =>
      exists b', readFd readv b = Ok (zlen data, None, b') /\ wf b' /\
        content b' = content b ++ data /\
        (zlen data <= writable \/ zlen data < 128 * 1024)
  end.
Proof.
  intros Hb Hmax Hrv writable. destruct (readv _) as [e|data] eqn:E.
  - unfold readFd. fold writable. by rewrite E.
  - destruct (readFd_ok readv b data) as (b'&?&?&?); [done..|].
    exists b'. split_and!; try done. apply Hrv in E; [|apply iov_nonneg]. clearbody writable. unfold kExtrabufSize in E.
    destruct (Z.ltb_spec writable 65536); cbn [foldr] in E; lia.
Qed.

(** A kernel with 1100 bytes pending overflows a 16-byte buffer into the stack area. *)
Definition witness_readv (iov : list Z) : read_result :=
  ReadBytes (ztake (foldr Z.add 0 iov) (replicate (Z.to_nat 1100) 7)).

Lemma readFd_appends_everything_witness :
  exists b, new_ 16 = Ok b /\
  exists b', readFd witness_readv b = Ok (1100, None, b') /\ content b' = replicate (Z.to_nat 1100) 7.
Proof.
  eexists. split; [vm_compute; reflexivity|].
  match goal with |- exists b', readFd _ ?b = _ /\ _ =>
    pose proof (readFd_appends_everything witness_readv b) as H end.
  cbn zeta in H.
  destruct H as (b'&Hr&_&Hc&_).
  - vm_compute. repeat split; discriminate.
  - vm_compute. discriminate.
  - unfold readv_bounded, witness_readv. intros iov data Hiov [= <-].
    rewrite zlen_ztake. assert (0 <= foldr Z.add 0 iov); [|lia].
    induction Hiov; cbn; lia.
  - exists b'. split; [exact Hr|]. rewrite Hc. reflexivity.
Defined.

(** An integer written at one end is the integer read back.  For every
    width and every value of that width, negative ones included, appending to
    the buffer and reading past the earlier bytes, or prepending and reading
    at once, returns the value; the other bytes are untouched. *)
Theorem int_roundtrip `{HO : HostOrder} w x b :
  wf b -> Forall is_byte (content b) -> srange (width_bits w) x ->
  (writerIndex_ b + 8 <= vector_max_size ->
   exists b1 b2 b3, appendInt w x b = Ok b1 /\ retrieve (zlen (content b)) b1 = Ok b2 /\
     readInt w b2 = Ok (x, b3) /\ content b3 = []) /\
  (Z.of_nat (width_bytes w) <= readerIndex_ b ->
   exists b1 b2, prependInt w x b = Ok b1 /\ readInt w b1 = Ok (x, b2) /\
     content b2 = content b).
Proof.
  intros Hb Hby Hx.
  assert (forall c, Forall is_byte (content c) -> wf c ->
    forall rest, content c = be_bytes (width_bytes w) x ++ rest ->
    exists c', readInt w c = Ok (x, c') /\ content c' = rest) as Hread.
  { intros c Hcb Hc rest Heq.
    assert (Z.of_nat (width_bytes w) <= zlen (content c)) as Hlen
      by (rewrite Heq, zlen_app, zlen_be_bytes; zlia).
    rewrite readInt_ok by done.
    destruct (retrieve_ok (Z.of_nat (width_bytes w)) c) as (c'&->&_&Hc'&_); [done|lia|done|].
    cbn. exists c'. rewrite Hc', Heq. split.
    - rewrite ztake_app_exact, be_value_be_bytes by by rewrite zlen_be_bytes.
      do 2 f_equal. fold (width_bits w). rewrite swrap_uwrap by by destruct w.
      apply swrap_small; [by destruct w | done].
    - apply zdrop_app_exact. by rewrite zlen_be_bytes. }
  pose proof (be_bytes_is_byte (width_bytes w) x) as Hxb. split.
  - intros Hmax. rewrite appendInt_be.
    destruct (append_ok (be_bytes (width_bytes w) x) (Z.of_nat (width_bytes w)) b)
      as (b1&->&Hb1&Hc1&_); [done | rewrite zlen_be_bytes; lia | by destruct w; cbn; lia |].
    rewrite ztake_all in Hc1 by by rewrite zlen_be_bytes.
    destruct (retrieve_ok (zlen (content b)) b1) as (b2&Hr&Hb2&Hc2&_);
      [done | zlia | rewrite Hc1; zlia |].
    rewrite Hc1, zdrop_app_exact in Hc2 by done.
    destruct (Hread b2) with (rest := @nil Z) as (b3&?&?); [by rewrite Hc2|done|by rewrite app_nil_r|].
    by exists b1, b2, b3.
  - intros Hroom. rewrite prependInt_be, <- (zlen_be_bytes (width_bytes w) x).
    destruct (prepend_ok (be_bytes (width_bytes w) x) b) as (b1&->&Hb1&Hc1&_);
      [done | by rewrite zlen_be_bytes |].
    destruct (Hread b1) with (rest := content b) as (b2&?&?);
      [rewrite Hc1; by apply Forall_app|done|done|]. by exists b1, b2.
Qed.

Definition witness_buffer : t := mk (lit "........abcdef..........") 8 14.

Lemma int_roundtrip_witness :
  (exists b1 b2 b3, appendInt (HO := false) W32 (-559038737) witness_buffer = Ok b1 /\
     retrieve (zlen (content witness_buffer)) b1 = Ok b2 /\
     readInt (HO := false) W32 b2 = Ok (-559038737, b3) /\ content b3 = []) /\
  (exists b1 b2, prependInt (HO := false) W32 (-559038737) witness_buffer = Ok b1 /\
     readInt (HO := false) W32 b1 = Ok (-559038737, b2) /\ content b2 = lit "abcdef").
Proof.
  destruct (int_roundtrip (HO := false) W32 (-559038737) witness_buffer) as [H1 H2].
  - vm_compute. repeat split; discriminate.
  - apply bytesb_spec. reflexivity.
  - vm_compute. split; [discriminate|reflexivity].
  - split; [apply H1; vm_compute; discriminate | apply H2; vm_compute; discriminate].
Defined.

(** [findCRLF] finds the first line end.  It returns NULL exactly when the
    readable bytes contain no CR LF, and otherwise a pointer to the first one:
    the bytes before it, the CR LF and the rest make up the readable bytes and
    no earlier position holds a CR LF. *)
Theorem findCRLF_first b :
  wf b ->
  match findCRLF b with
  | Some p => exists pre post, content b = pre ++ kCRLF ++ post /\ p = peek b + zlen pre /\
      forall pre' post', content b = pre' ++ kCRLF ++ post' -> zlen pre <= zlen pre'
  | None => forall pre post, content b <> pre ++ kCRLF ++ post
  end.
Proof.
  intros Hb. unfold findCRLF, findCRLF_between, beginWrite. change (zslice (peek b) _ _) with (content b).
  pose proof (content_len b Hb) as Hl. destruct (search_crlf_spec (content b)) as [H1 H2].
  pose proof (search_crlf_bounds (content b)) as Hs. unfold peek.
  destruct (Z.eqb_spec (readerIndex_ b + search_crlf (content b)) (writerIndex_ b)) as [E|E].
  - intros pre post Heq. specialize (H2 _ _ Heq). rewrite Heq, !zlen_app in Hl.
    unfold kCRLF in Hl. rewrite !zlen_cons, zlen_nil in Hl. zlia.
  - destruct H1 as (pre&post&Heq&Hp); [lia|]. exists pre, post. rewrite Hp.
    split_and!; [done | lia | done].
Qed.

Lemma findCRLF_first_witness :
  exists pre post, content (mk (lit "........" ++ lit "GET" ++ [13; 10; 13; 10]) 8 15) =
    pre ++ kCRLF ++ post /\ 11 = 8 + zlen pre.
Proof.
  pose proof (findCRLF_first (mk (lit "........" ++ lit "GET" ++ [13; 10; 13; 10]) 8 15)) as H.
  destruct H as (pre&post&?&?&_); [vm_compute; repeat split; discriminate|].
  by exists pre, post.
Defined.

(** Growth is a last resort.  When the bytes before the reader and after
    the writer together hold the request beside the 8 cheap prepend bytes,
    [ensureWritableBytes] only moves the content, and it never changes it;
    otherwise the vector grows by at most the requested length. *)
Theorem ensureWritableBytes_moves_before_growing len b :
  wf b -> 0 <= len -> writerIndex_ b + len <= vector_max_size ->
  exists b', ensureWritableBytes len b = Ok b' /\ wf b' /\ content b' = content b /\
    len <= writableBytes b' /\
    (len + kCheapPrepend <= writableBytes b + prependableBytes b ->
     zlen (buffer_ b') = zlen (buffer_ b)) /\
    zlen (buffer_ b) <= zlen (buffer_ b') <= zlen (buffer_ b) + len.
Proof.
  intros Hb Hlen Hmax.
  destruct (ensureWritable_ok len b) as (b'&?&Hb'&?&?&?&_&Hsame); [done..|].
  exists b'. rewrite !writable_wf by done. unfold prependableBytes. split_and!; done || lia.
Qed.

Lemma ensureWritableBytes_moves_before_growing_witness :
  exists b', ensureWritableBytes 10 (mk (lit "................xy......") 16 18) = Ok b' /\
    zlen (buffer_ b') = 24 /\ content b' = lit "xy".
Proof.
  destruct (ensureWritableBytes_moves_before_growing 10 (mk (lit "................xy......") 16 18))
    as (b'&?&_&Hc&_&Hs&_).
  - vm_compute. repeat split; discriminate.
  - lia.
  - vm_compute. discriminate.
  - exists b'. split; [done|]. split; [apply Hs; vm_compute; discriminate | exact Hc].
Defined.

End Buffer.
