(* ===== verification/NetChannel.v ===== *)
(** src/muduo/net/Channel.h and Channel.cc: a file descriptor, the events the
    loop watches for it and the dispatch of the events that happened.  The
    calls a channel makes to its loop ([update], [remove]) are in NetPoller,
    with the poller that serves them; this file has the state, its accessors
    and [handleEvent].

    Callbacks are arbitrary code: they are named by the slot they are stored in
    and run by a parameter [invoke] on a world [W] that contains the channel,
    so a callback may change the channel itself while it is being handled. *)

From stdpp Require Import pretty.
From S2P Require Import Prelude.

Module Channel.

(** <poll.h> on Linux; EPollPoller.cc asserts that epoll uses the same bits. *)
Definition POLLIN : Z := 1.
Definition POLLPRI : Z := 2.
Definition POLLOUT : Z := 4.
Definition POLLERR : Z := 8.
Definition POLLHUP : Z := 16.
Definition POLLNVAL : Z := 32.
Definition POLLRDHUP : Z := 8192.

Definition kNoneEvent : Z := 0.
Definition kReadEvent : Z := Z.lor POLLIN POLLPRI.
Definition kWriteEvent : Z := POLLOUT.

(** The callback slots. *)
Inductive slot := SlotRead | SlotWrite | SlotClose | SlotError.
#[export] Instance slot_eq_dec : EqDecision slot.
Proof. solve_decision. Defined.

(** [tie_] is the object a [weak_ptr] refers to; a callback slot is [true]
    when a function is stored in it. *)
Record t := mk {
  fd_ : Z;
  events_ : Z;
  revents_ : Z;
  index_ : Z;
  logHup_ : bool;
  tie_ : option Z;
  tied_ : bool;
  eventHandling_ : bool;
  addedToLoop_ : bool;
  readCallback_ : bool;
  writeCallback_ : bool;
  closeCallback_ : bool;
  errorCallback_ : bool
}.

Definition new_ (fd : Z) : t :=
  mk fd 0 0 (-1) true None false false false false false false false.

Definition set_events (ev : Z) (c : t) : t :=
  mk (fd_ c) ev (revents_ c) (index_ c) (logHup_ c) (tie_ c) (tied_ c) (eventHandling_ c)
    (addedToLoop_ c) (readCallback_ c) (writeCallback_ c) (closeCallback_ c) (errorCallback_ c).
Definition set_revents (revt : Z) (c : t) : t :=
  mk (fd_ c) (events_ c) revt (index_ c) (logHup_ c) (tie_ c) (tied_ c) (eventHandling_ c)
    (addedToLoop_ c) (readCallback_ c) (writeCallback_ c) (closeCallback_ c) (errorCallback_ c).
Definition set_index (idx : Z) (c : t) : t :=
  mk (fd_ c) (events_ c) (revents_ c) idx (logHup_ c) (tie_ c) (tied_ c) (eventHandling_ c)
    (addedToLoop_ c) (readCallback_ c) (writeCallback_ c) (closeCallback_ c) (errorCallback_ c).
Definition set_added (a : bool) (c : t) : t :=
  mk (fd_ c) (events_ c) (revents_ c) (index_ c) (logHup_ c) (tie_ c) (tied_ c) (eventHandling_ c)
    a (readCallback_ c) (writeCallback_ c) (closeCallback_ c) (errorCallback_ c).
Definition set_eventHandling (h : bool) (c : t) : t :=
  mk (fd_ c) (events_ c) (revents_ c) (index_ c) (logHup_ c) (tie_ c) (tied_ c) h
    (addedToLoop_ c) (readCallback_ c) (writeCallback_ c) (closeCallback_ c) (errorCallback_ c).
Definition doNotLogHup (c : t) : t :=
  mk (fd_ c) (events_ c) (revents_ c) (index_ c) false (tie_ c) (tied_ c) (eventHandling_ c)
    (addedToLoop_ c) (readCallback_ c) (writeCallback_ c) (closeCallback_ c) (errorCallback_ c).
Definition tie (obj : Z) (c : t) : t :=
  mk (fd_ c) (events_ c) (revents_ c) (index_ c) (logHup_ c) (Some obj) true (eventHandling_ c)
    (addedToLoop_ c) (readCallback_ c) (writeCallback_ c) (closeCallback_ c) (errorCallback_ c).
(** [setReadCallback] and its three siblings. *)
Definition setCallback (s : slot) (c : t) : t :=
  mk (fd_ c) (events_ c) (revents_ c) (index_ c) (logHup_ c) (tie_ c) (tied_ c) (eventHandling_ c)
    (addedToLoop_ c)
    (if decide (s = SlotRead) then true else readCallback_ c)
    (if decide (s = SlotWrite) then true else writeCallback_ c)
    (if decide (s = SlotClose) then true else closeCallback_ c)
    (if decide (s = SlotError) then true else errorCallback_ c).
Definition hasCallback (s : slot) (c : t) : bool :=
  match s with SlotRead => readCallback_ c | SlotWrite => writeCallback_ c
             | SlotClose => closeCallback_ c | SlotError => errorCallback_ c end.

Definition isNoneEvent (c : t) : bool := events_ c =? kNoneEvent.
(** [x & mask] as a condition. *)
Definition has (x mask : Z) : bool := negb (Z.land x mask =? 0).
Definition isWriting (c : t) : bool := has (events_ c) kWriteEvent.
Definition isReading (c : t) : bool := has (events_ c) kReadEvent.

(** The change of [events_] that [enableReading] and its siblings make before
    they call [update()]. *)
Inductive event_op := EnableReading | DisableReading | EnableWriting | DisableWriting | DisableAll.
Definition apply_event_op (op : event_op) (ev : Z) : Z :=
  match op with
  | EnableReading => Z.lor ev kReadEvent
  | DisableReading => Z.land ev (Z.lnot kReadEvent)
  | EnableWriting => Z.lor ev kWriteEvent
  | DisableWriting => Z.land ev (Z.lnot kWriteEvent)
  | DisableAll => kNoneEvent
  end.

Definition eventsToString (fd ev : Z) : string :=
  (pretty fd +:+ ": " +:+
   (if has ev POLLIN then "IN " else "") +:+
   (if has ev POLLPRI then "PRI " else "") +:+
   (if has ev POLLOUT then "OUT " else "") +:+
   (if has ev POLLHUP then "HUP " else "") +:+
   (if has ev POLLRDHUP then "RDHUP " else "") +:+
   (if has ev POLLERR then "ERR " else "") +:+
   (if has ev POLLNVAL then "NVAL " else ""))%string.
Definition reventsToString_of (c : t) : string := eventsToString (fd_ c) (revents_ c).
Definition eventsToString_of (c : t) : string := eventsToString (fd_ c) (events_ c).

Section Dispatch.
Context {W : Type}.
(** The channel inside the world, the code behind a callback slot (the read
    callback receives the poll return time) and [tie_.lock()]. *)
Context (get : W -> t) (put : t -> W -> W).
Context (invoke : slot -> Z -> W -> outcome W) (alive : Z -> W -> bool).

(** [if (cond) { if (callback) callback(); }], both read from the current
    state of the channel. *)
Definition fire (cond : Z -> bool) (s : slot) (receiveTime : Z) (w : W) : outcome W :=
  if cond (revents_ (get w))
  then if hasCallback s (get w) then invoke s receiveTime w else Ok w
  else Ok w.

Definition close_cond (revt : Z) : bool := has revt POLLHUP && negb (has revt POLLIN).
Definition error_cond (revt : Z) : bool := has revt (Z.lor POLLERR POLLNVAL).
Definition read_cond (revt : Z) : bool := has revt (Z.lor (Z.lor POLLIN POLLPRI) POLLRDHUP).
Definition write_cond (revt : Z) : bool := has revt POLLOUT.

Definition handleEventWithGuard (receiveTime : Z) (w : W) : outcome W :=
  let w := put (set_eventHandling true (get w)) w in
  w ← fire close_cond SlotClose receiveTime w;
  w ← fire error_cond SlotError receiveTime w;
  w ← fire read_cond SlotRead receiveTime w;
  w ← fire write_cond SlotWrite receiveTime w;
  Ok (put (set_eventHandling false (get w)) w).

Definition handleEvent (receiveTime : Z) (w : W) : outcome W :=
  if tied_ (get w)
  then match tie_ (get w) with
       | Some obj => if alive obj w then handleEventWithGuard receiveTime w else Ok w
       | None => Ok w
       end
  else handleEventWithGuard receiveTime w.

(** * Reference: the callbacks one set of events calls for, in order. *)
Definition due (c : t) : list slot :=
  (if close_cond (revents_ c) && closeCallback_ c then [SlotClose] else []) ++
  (if error_cond (revents_ c) && errorCallback_ c then [SlotError] else []) ++
  (if read_cond (revents_ c) && readCallback_ c then [SlotRead] else []) ++
  (if write_cond (revents_ c) && writeCallback_ c then [SlotWrite] else []).

(** What a callback must leave alone: the events being handled and the slots.
    Only pollers call [set_revents]; slots are set before the channel is
    added to the loop. *)
Definition frame (c c' : t) : Prop :=
  revents_ c' = revents_ c /\ forall s, hasCallback s c' = hasCallback s c.
Definition callbacks_frame : Prop :=
  forall s time w w', invoke s time w = Ok w' -> frame (get w) (get w').
Definition lens_laws : Prop :=
  (forall c w, get (put c w) = c).

Lemma fire_due cond s time w :
  fire cond s time w =
  foldM (fun w s => invoke s time w) w
    (if cond (revents_ (get w)) && hasCallback s (get w) then [s] else []).
Proof.
  unfold fire. destruct (cond _); [|done]. destruct (hasCallback _ _); [|done].
  cbn. by destruct (invoke s time w).
Qed.

Lemma fire_frame cond s time w w' :
  callbacks_frame -> fire cond s time w = Ok w' -> frame (get w) (get w').
Proof.
  intros Hcb. unfold fire.
  destruct (cond _); [destruct (hasCallback _ _)|]; try (intros [= <-]; by split).
  apply Hcb.
Qed.

Lemma fire_due_frame cond s time c w :
  frame c (get w) ->
  fire cond s time w =
  foldM (fun w s => invoke s time w) w (if cond (revents_ c) && hasCallback s c then [s] else []).
Proof. intros [Hr Hs]. rewrite fire_due, Hr, Hs. done. Qed.

Lemma frame_trans c1 c2 c3 : frame c1 c2 -> frame c2 c3 -> frame c1 c3.
Proof. intros [H1 H2] [H3 H4]. split; [congruence|]. intros s. by rewrite H4, H2. Qed.

(** One firing followed by a continuation that agrees on framed worlds. *)
Lemma fire_bind {A} cond s time c w (k k' : W -> outcome A) :
  callbacks_frame -> frame c (get w) ->
  (forall w', frame c (get w') -> k w' = k' w') ->
  fire cond s time w ≫= k =
  foldM (fun w s => invoke s time w) w (if cond (revents_ c) && hasCallback s c then [s] else [])
    ≫= k'.
Proof.
  intros Hcb Hf Hk. rewrite <- (fire_due_frame cond s time c w Hf).
  destruct (fire cond s time w) as [w'|] eqn:E; [|done]. cbn. apply Hk.
  apply (frame_trans _ _ _ Hf). by apply (fire_frame cond s time w).
Qed.

Lemma handleEventWithGuard_due time w :
  lens_laws -> callbacks_frame ->
  handleEventWithGuard time w =
  w' ← foldM (fun w s => invoke s time w) (put (set_eventHandling true (get w)) w) (due (get w));
  Ok (put (set_eventHandling false (get w')) w').
Proof.
  intros Hgp Hcb. unfold handleEventWithGuard, due.
  set (w0 := put _ w). set (c := get w).
  assert (frame c (get w0)) as F0 by (subst w0 c; rewrite Hgp; by split; [|intros []]).
  rewrite foldM_app, outcome_bind_assoc. apply fire_bind; [done..|]. intros w1 F1.
  rewrite foldM_app, outcome_bind_assoc. apply fire_bind; [done..|]. intros w2 F2.
  rewrite foldM_app, outcome_bind_assoc. apply fire_bind; [done..|]. intros w3 F3.
  by apply fire_bind.
Qed.

End Dispatch.

(** One pass of [handleEvent] runs exactly the callbacks the returned
    events call for, each once and in the order close, error, read, write:
    close on a hang-up without readable data, error on POLLERR or POLLNVAL,
    read on POLLIN, POLLPRI or POLLRDHUP, write on POLLOUT; a callback that
    fails stops the pass, an unset callback is skipped, and a tied channel
    whose owner is gone runs nothing. *)
Theorem handleEvent_runs_due_callbacks {W : Type} (get : W -> t) (put : t -> W -> W)
    (invoke : slot -> Z -> W -> outcome W) (alive : Z -> W -> bool) time w :
  lens_laws get put -> callbacks_frame get invoke ->
  handleEvent get put invoke alive time w =
  if tied_ (get w) && negb (default false (flip alive w <$> tie_ (get w))) then Ok w
  else w' ← foldM (fun w s => invoke s time w) (put (set_eventHandling true (get w)) w) (due (get w));
       Ok (put (set_eventHandling false (get w')) w').
Proof.
  intros Hl Hc. unfold handleEvent. rewrite handleEventWithGuard_due by done.
  destruct (tied_ (get w)); cbn; [|done].
  destruct (tie_ (get w)) as [obj|]; cbn; [|done]. by destruct (alive obj w).
Qed.

(** A world that records the callbacks, with readable data and a hang-up. *)
Definition witness_world : Type := t * list slot.
Definition witness_channel : t :=
  set_revents (Z.lor POLLIN POLLHUP)
    (setCallback SlotClose (setCallback SlotRead (setCallback SlotWrite (new_ 7)))).
Lemma handleEvent_runs_due_callbacks_witness :
  handleEvent fst (fun c w => (c, snd w)) (fun s _ w => Ok (fst w, snd w ++ [s])) (fun _ _ => true)
    0 (witness_channel, []) = Ok (witness_channel, [SlotRead]).
Proof.
  rewrite (handleEvent_runs_due_callbacks (W := witness_world)).
  - reflexivity.
  - by intros c w.
  - intros s time w w' [= <-]. by split.
Defined.

End Channel.
