(* ===== verification/NetPoller.v ===== *)
(** src/muduo/net/Poller.h, Poller.cc, the channel registration calls of
    Channel.h/.cc ([update], [remove], [enableReading], ...) and
    DefaultPoller.cc: the interface between channels and the two I/O
    multiplexers.

    Channels are objects shared by address: the heap maps an address
    ([Channel*]) to the channel, pollers store addresses and write [index_] and
    [revents_] through them.  [PollerOps] is the virtual interface of class
    Poller, [PollerSpec] what every implementation promises; NetEPoll and
    NetPoll are its two instances.  A call returns the new heap and poller; the
    only fault a poller may raise on legal calls is the fatal log line of a
    refused epoll_ctl(2). *)

From S2P Require Import Prelude NetChannel.

Abbreviation heap := (gmap Z Channel.t).

Definition deref (ptr : Z) (h : heap) : outcome Channel.t :=
  match h !! ptr with
  | Some c => Ok c
  | None => Err (Undefined "dangling Channel*")
  end.

(** The virtual functions of class Poller, and its map from descriptors to
    channels. *)
Class PollerOps (P : Type) := {
  channels_ : P -> gmap Z Z;
  updateChannel : Z -> heap -> P -> outcome (heap * P);
  removeChannel : Z -> heap -> P -> outcome (heap * P)
}.

Section Calls.
Context `{PollerOps P}.

Definition hasChannel (ptr : Z) (h : heap) (p : P) : outcome bool :=
  c ← deref ptr h;
  Ok (bool_decide (channels_ p !! Channel.fd_ c = Some ptr)).

(** Channel::update and Channel::remove, through EventLoop to the poller. *)
Definition update (ptr : Z) (h : heap) (p : P) : outcome (heap * P) :=
  c ← deref ptr h;
  updateChannel ptr (<[ptr := Channel.set_added true c]> h) p.

Definition change_events (op : Channel.event_op) (ptr : Z) (h : heap) (p : P)
    : outcome (heap * P) :=
  c ← deref ptr h;
  update ptr (<[ptr := Channel.set_events (Channel.apply_event_op op (Channel.events_ c)) c]> h) p.

Definition remove (ptr : Z) (h : heap) (p : P) : outcome (heap * P) :=
  c ← deref ptr h;
  massert (Channel.isNoneEvent c) "isNoneEvent()";;
  removeChannel ptr (<[ptr := Channel.set_added false c]> h) p.
End Calls.

(** The values [events_] can take: only the read and write masks are set. *)
Definition valid_events (ev : Z) : Prop := ev = 0 \/ ev = 3 \/ ev = 4 \/ ev = 7.

(** Two heaps that differ at most in the [index_] of channels: what a poller
    may write. *)
Definition same_but_index (h h' : heap) : Prop :=
  forall ptr, Channel.set_index 0 <$> h !! ptr = Channel.set_index 0 <$> h' !! ptr.

(** The largest value /proc/sys/fs/nr_open can take bounds descriptors. *)
Definition max_fd : Z := 2 ^ 30.

(** A new channel is legal when it was never added and no open channel uses
    its descriptor. *)
Definition addable (chs : gmap Z Z) (c : Channel.t) (ev : Z) : Prop :=
  Channel.index_ c = -1 /\ chs !! Channel.fd_ c = None /\ 0 <= Channel.fd_ c < max_fd /\ ev <> 0.

Definition registered (chs : gmap Z Z) (ptr : Z) (c : Channel.t) : Prop :=
  chs !! Channel.fd_ c = Some ptr.

(** Channels that are not registered are not written at all. *)
Definition leaves_strangers (chs : gmap Z Z) (ptr : Z) (h h' : heap) : Prop :=
  forall q, q <> ptr -> (forall fd, chs !! fd <> Some q) -> h' !! q = h !! q.

(** Only the fatal log line may interrupt. *)
Definition ok_or_fatal {A} (m : outcome A) (Q : A -> Prop) : Prop :=
  match m with Ok a => Q a | Err (LogFatal _) => True | Err _ => False end.

Class PollerSpec (P : Type) `{PollerOps P} := {
  (** the representation invariant tying channels and multiplexer *)
  inv : heap -> P -> Prop;
  (** the multiplexer reports events [ev] on descriptor [fd] *)
  watches : P -> Z -> Z -> Prop;
  watches_spec h p : inv h p -> forall fd ev,
    watches p fd ev <-> ev <> 0 /\ exists ptr c,
      channels_ p !! fd = Some ptr /\ h !! ptr = Some c /\ Channel.fd_ c = fd /\ Channel.events_ c = ev;
  channels_spec h p : inv h p -> forall fd ptr,
    channels_ p !! fd = Some ptr -> exists c, h !! ptr = Some c /\ Channel.fd_ c = fd;
  (** a heap write that keeps descriptor, events and index is invisible *)
  inv_frame h p ptr c c' : inv h p -> h !! ptr = Some c ->
    Channel.fd_ c' = Channel.fd_ c -> Channel.events_ c' = Channel.events_ c ->
    Channel.index_ c' = Channel.index_ c -> inv (<[ptr := c']> h) p;
  update_spec h p ptr c ev c' : inv h p -> h !! ptr = Some c -> valid_events ev ->
    registered (channels_ p) ptr c \/ addable (channels_ p) c ev ->
    c' = Channel.set_added true (Channel.set_events ev c) ->
    ok_or_fatal (updateChannel ptr (<[ptr := c']> h) p) (fun '(h', p') =>
      inv h' p' /\ channels_ p' = <[Channel.fd_ c := ptr]> (channels_ p) /\
      same_but_index (<[ptr := c']> h) h' /\ leaves_strangers (channels_ p) ptr h h');
  remove_spec h p ptr c : inv h p -> h !! ptr = Some c ->
    registered (channels_ p) ptr c -> Channel.events_ c = 0 ->
    ok_or_fatal (removeChannel ptr (<[ptr := Channel.set_added false c]> h) p) (fun '(h', p') =>
      inv h' p' /\ channels_ p' = delete (Channel.fd_ c) (channels_ p) /\
      same_but_index (<[ptr := Channel.set_added false c]> h) h' /\
      leaves_strangers (channels_ p) ptr h h')
}.

(** * A client of the interface: any number of channels driven through their
    [enable]/[disable] calls and [remove]. *)

Inductive chan_cmd := Change (op : Channel.event_op) (ptr : Z) | Remove (ptr : Z).

(** The state the user of a channel sees. *)
Inductive chan_state := Fresh | Added (ev : Z) | Gone.

Definition is_added (st : chan_state) : bool :=
  match st with Added _ => true | _ => false end.

(** No added channel uses the descriptor [fd] (a descriptor may be reused once
    its earlier channel is gone). *)
Definition fd_free (fdof : Z -> Z) (fd : Z) (s : gmap Z chan_state) : Prop :=
  map_Forall (fun q st => is_added st = true -> fdof q <> fd) s.
#[export] Instance fd_free_dec fdof fd s : Decision (fd_free fdof fd s).
Proof. apply map_Forall_dec. intros. apply _. Defined.

Definition client_step (fdof : Z -> Z) (cmd : chan_cmd) (s : gmap Z chan_state)
    : option (gmap Z chan_state) :=
  match cmd with
  | Change op ptr =>
      match s !! ptr with
      | Some Fresh =>
          let ev := Channel.apply_event_op op 0 in
          if negb (ev =? 0) && bool_decide (fd_free fdof (fdof ptr) s)
          then Some (<[ptr := Added ev]> s) else None
      | Some (Added ev) => Some (<[ptr := Added (Channel.apply_event_op op ev)]> s)
      | _ => None
      end
  | Remove ptr =>
      match s !! ptr with
      | Some (Added ev) => if ev =? 0 then Some (<[ptr := Gone]> s) else None
      | _ => None
      end
  end.

Fixpoint client_run (fdof : Z -> Z) (cmds : list chan_cmd) (s : gmap Z chan_state)
    : option (gmap Z chan_state) :=
  match cmds with
  | [] => Some s
  | c :: cmds' => s' ← client_step fdof c s; client_run fdof cmds' s'
  end.

Section Client.
Context `{PollerOps P}.

Definition chan_step (hp : heap * P) (cmd : chan_cmd) : outcome (heap * P) :=
  match cmd with
  | Change op ptr => change_events op ptr (fst hp) (snd hp)
  | Remove ptr => remove ptr (fst hp) (snd hp)
  end.
Definition chan_run (cmds : list chan_cmd) (hp : heap * P) : outcome (heap * P) :=
  foldM chan_step hp cmds.
End Client.

(** The heap and poller agree with what the client sees; [fdof] gives each
    channel's descriptor. *)
Definition agrees `{PollerSpec P} (fdof : Z -> Z) (s : gmap Z chan_state) (h : heap) (p : P) : Prop :=
  inv h p /\
  (forall ptr st, s !! ptr = Some st -> exists c, h !! ptr = Some c /\ Channel.fd_ c = fdof ptr /\
     0 <= fdof ptr < max_fd /\
     match st with
     | Fresh => Channel.index_ c = -1 /\ Channel.events_ c = 0
     | Added ev => channels_ p !! fdof ptr = Some ptr /\ Channel.events_ c = ev /\ valid_events ev
     | Gone => True
     end) /\
  (forall fd ptr, channels_ p !! fd = Some ptr ->
     exists ev, s !! ptr = Some (Added ev) /\ fdof ptr = fd).

(** * Lemmas *)

Lemma valid_events_op op ev : valid_events ev -> valid_events (Channel.apply_event_op op ev).
Proof.
  intros [->|[->|[->| ->]]]; destruct op; vm_compute; tauto.
Qed.

Lemma same_but_index_lookup h h' ptr c :
  same_but_index h h' -> h !! ptr = Some c ->
  exists c', h' !! ptr = Some c' /\ Channel.set_index 0 c' = Channel.set_index 0 c.
Proof.
  intros Hs Hc. specialize (Hs ptr). rewrite Hc in Hs.
  destruct (h' !! ptr) as [c'|]; cbn in Hs; [|done]. apply (inj Some) in Hs. eauto.
Qed.

Lemma set_index_inj c c' : Channel.set_index 0 c' = Channel.set_index 0 c ->
  Channel.fd_ c' = Channel.fd_ c /\ Channel.events_ c' = Channel.events_ c.
Proof. destruct c, c'. cbn. intros [=]. done. Qed.

Lemma same_but_index_refl h : same_but_index h h.
Proof. intros ptr. done. Qed.

Lemma same_but_index_alter h ptr idx :
  same_but_index h (alter (Channel.set_index idx) ptr h).
Proof.
  intros q. rewrite lookup_alter. case_decide; [|done].
  subst. destruct (h !! q) as [[]|]; done.
Qed.
Lemma same_but_index_trans h1 h2 h3 :
  same_but_index h1 h2 -> same_but_index h2 h3 -> same_but_index h1 h3.
Proof. intros H1 H2 q. by rewrite H1, H2. Qed.

Lemma ok_or_fatal_mono {A} (m : outcome A) (Q R : A -> Prop) :
  ok_or_fatal m Q -> (forall a, Q a -> R a) -> ok_or_fatal m R.
Proof. destruct m as [|[]]; cbn; auto. Qed.

Lemma alter_set_index (h : heap) ptr c idx :
  h !! ptr = Some c ->
  alter (Channel.set_index idx) ptr h = <[ptr := Channel.set_index idx c]> h.
Proof.
  intros Hc. apply map_eq. intros q. rewrite lookup_alter, lookup_insert.
  case_decide; [|done]. subst. by rewrite Hc.
Qed.

Lemma same_but_index_insert h ptr c idx :
  same_but_index (<[ptr := c]> h) (<[ptr := Channel.set_index idx c]> h).
Proof. intros q. rewrite !lookup_insert. case_decide; [|done]. by destruct c. Qed.

Lemma ok_or_fatal_bind {A B} (m : outcome A) (f : A -> outcome B) (Q : B -> Prop) :
  ok_or_fatal m (fun a => ok_or_fatal (f a) Q) -> ok_or_fatal (m ≫= f) Q.
Proof. by destruct m as [|[]]. Qed.

Section ClientProofs.
Context `{PS : PollerSpec P}.

(** An empty poller and newly constructed channels. *)
Lemma agrees_fresh fdof (s : gmap Z chan_state) h (p : P) :
  inv h p -> channels_ p = ∅ ->
  (forall ptr st, s !! ptr = Some st ->
     st = Fresh /\ h !! ptr = Some (Channel.new_ (fdof ptr)) /\ 0 <= fdof ptr < max_fd) ->
  agrees fdof s h p.
Proof.
  intros Hinv Hempty Hs. split; [done|]. split.
  - intros ptr st Hst. destruct (Hs _ _ Hst) as (->&Hc&?). by exists (Channel.new_ (fdof ptr)).
  - intros fd ptr. by rewrite Hempty, lookup_empty.
Qed.

Lemma agrees_after_write fdof s h (p : P) ptr st c c' h' p' st' :
  agrees fdof s h p -> s !! ptr = Some st -> h !! ptr = Some c ->
  st <> Gone -> Channel.fd_ c' = Channel.fd_ c ->
  inv h' p' ->
  same_but_index (<[ptr := c']> h) h' -> leaves_strangers (channels_ p) ptr h h' ->
  match st' with
  | Added ev => channels_ p' = <[fdof ptr := ptr]> (channels_ p) /\ Channel.events_ c' = ev /\
      valid_events ev /\ (st = Fresh -> fd_free fdof (fdof ptr) s)
  | Gone => channels_ p' = delete (fdof ptr) (channels_ p) /\ is_added st = true
  | Fresh => False
  end ->
  agrees fdof (<[ptr := st']> s) h' p'.
Proof.
  intros (Hinv&Hs&Hch) Hst Hc HnG Hfd Hinv' Hsame Hstr Hst'. split; [done|]. split.
  - intros q stq. rewrite lookup_insert. case_decide as Hq.
    + subst q. intros [= <-]. destruct (Hs _ _ Hst) as (c0&Hc0&Hf&H0&_).
      assert (c0 = c) by congruence. subst c0.
      destruct (same_but_index_lookup _ _ ptr c' Hsame) as (c2&Hc2&Hix); [by rewrite lookup_insert_eq|].
      apply set_index_inj in Hix as [Hf2 He2].
      exists c2. split; [done|]. split; [congruence|]. split; [done|].
      destruct st' as [|ev|]; [done| |done]. destruct Hst' as (->&He&Hv&_).
      split; [by rewrite lookup_insert_eq|]. split; [congruence|done].
    + intros Hqs. destruct (Hs _ _ Hqs) as (cq&Hcq&Hfq&H0q&Hmq).
      destruct (same_but_index_lookup _ _ q cq Hsame) as (c2&Hc2&Hix);
        [by rewrite lookup_insert_ne|].
      apply set_index_inj in Hix as [Hf2 He2].
      exists c2. split; [done|]. split; [congruence|]. split; [done|].
      destruct stq as [|ev|]; [| |done].
      * assert (h' !! q = h !! q) as Hsq.
        { apply Hstr; [done|]. intros fd Hf. destruct (Hch _ _ Hf) as (?&?&_). congruence. }
        assert (c2 = cq) as -> by congruence. done.
      * destruct Hmq as (Hcq'&Heq&Hv). split; [|split; [congruence|done]].
        assert (fdof q <> fdof ptr).
        { intros E. destruct st' as [|ev'|]; [done| |].
          - destruct Hst' as (_&_&_&Hfree). destruct st as [|ev0|]; [|..|done].
            + by apply (Hfree eq_refl _ _ Hqs).
            + destruct (Hs _ _ Hst) as (?&?&?&?&Hp&_). congruence.
          - destruct Hst' as (_&Hadd). destruct st as [|ev0|]; [done|..|done].
            destruct (Hs _ _ Hst) as (?&?&?&?&Hp&_). congruence. }
        destruct st' as [|ev'|]; [done| |]; destruct Hst' as (->&_);
          [by rewrite lookup_insert_ne | by rewrite lookup_delete_ne].
  - intros fd q Hfdq. destruct st' as [|ev'|]; [done| |].
    + destruct Hst' as (E&_). rewrite E, lookup_insert in Hfdq. case_decide.
      * injection Hfdq as <-. subst fd. exists ev'. by rewrite lookup_insert_eq.
      * destruct (Hch _ _ Hfdq) as (evq&Hq&?). exists evq. rewrite lookup_insert_ne; [done|].
        intros ->. congruence.
    + destruct Hst' as (E&Hadd). rewrite E, lookup_delete in Hfdq. case_decide; [done|].
      destruct (Hch _ _ Hfdq) as (evq&Hq&?). exists evq. rewrite lookup_insert_ne; [done|].
      intros ->. congruence.
Qed.

Lemma chan_step_agrees fdof s h (p : P) cmd s' :
  agrees fdof s h p -> client_step fdof cmd s = Some s' ->
  ok_or_fatal (chan_step (h, p) cmd) (fun '(h', p') => agrees fdof s' h' p').
Proof.
  intros Hag Hcl. assert (Hag2 := Hag). destruct Hag2 as (Hinv&Hs&Hch).
  destruct cmd as [op ptr|ptr]; cbn in Hcl |- *; destruct (s !! ptr) as [st|] eqn:Hst; try done;
    destruct (Hs _ _ Hst) as (c&Hc&Hf&H0&Hm); cbn.
  - assert (exists ev, Channel.apply_event_op op (Channel.events_ c) = ev /\
      s' = <[ptr := Added ev]> s /\ valid_events ev /\ st <> Gone /\
      (registered (channels_ p) ptr c \/ addable (channels_ p) c ev) /\
      (st = Fresh -> fd_free fdof (fdof ptr) s)) as (ev&Hev&->&Hv&HnG&Hreg&Hfree).
    { destruct st as [|ev0|]; [| |done].
      - destruct Hm as (Hidx&He). rewrite He.
        destruct (negb _ && _) eqn:E; [|done]. injection Hcl as <-.
        apply andb_true_iff in E as [Hne%negb_true_iff%Z.eqb_neq Hfr%bool_decide_eq_true].
        eexists. split_and!; try done.
        + apply valid_events_op. by left.
        + right. unfold addable. rewrite Hf. split; [done|]. split; [|done].
          destruct (channels_ p !! fdof ptr) as [q|] eqn:Eq; [|done]. exfalso.
          destruct (Hch _ _ Eq) as (evq&Hq&Hfq). by apply (Hfr _ _ Hq).
      - destruct Hm as (Hp&->&Hv0). injection Hcl as <-.
        eexists. split_and!; try done; [by apply valid_events_op|].
        left. unfold registered. by rewrite Hf. }
    unfold change_events, update, deref. rewrite Hc. cbn. rewrite lookup_insert_eq. cbn.
    rewrite insert_insert_eq, Hev.
    eapply ok_or_fatal_mono; [eapply update_spec; eauto|].
    intros [h' p'] (Hi&Hchs&Hsame&Hstr). rewrite Hf in Hchs.
    apply (agrees_after_write fdof s h p ptr st c _ h' p' (Added ev) Hag Hst Hc HnG) in Hsame; done.
  - destruct st as [|ev|]; [done| |done]. destruct Hm as (Hp&He&Hv).
    destruct (Z.eqb_spec ev 0) as [->|]; [|done]. injection Hcl as <-.
    unfold remove, deref. rewrite Hc. cbn. unfold Channel.isNoneEvent. rewrite He. cbn.
    eapply ok_or_fatal_mono; [eapply remove_spec; eauto; unfold registered; by rewrite Hf|].
    intros [h' p'] (Hi&Hchs&Hsame&Hstr). rewrite Hf in Hchs.
    by apply (agrees_after_write fdof s h p ptr (Added 0) c _ h' p' Gone Hag Hst Hc) in Hsame.
Qed.

Lemma chan_run_agrees fdof cmds s h (p : P) s' :
  agrees fdof s h p -> client_run fdof cmds s = Some s' ->
  ok_or_fatal (chan_run cmds (h, p)) (fun '(h', p') => agrees fdof s' h' p').
Proof.
  revert s h p. induction cmds as [|cmd cmds IH]; intros s h p Hag Hcl; cbn in *.
  { by injection Hcl as <-. }
  destruct (client_step fdof cmd s) as [s1|] eqn:E; [|done]. cbn in Hcl.
  pose proof (chan_step_agrees _ _ _ _ _ _ Hag E) as Hstep.
  unfold chan_run. cbn. destruct (chan_step (h, p) cmd) as [[h1 p1]|[]]; cbn in *; try done.
  by eapply IH.
Qed.

(** What the multiplexer watches is what the clients asked for. *)
Lemma agrees_watches fdof s h (p : P) fd ev :
  agrees fdof s h p ->
  watches p fd ev <-> ev <> 0 /\ exists ptr, s !! ptr = Some (Added ev) /\ fdof ptr = fd.
Proof.
  intros (Hinv&Hs&Hch). rewrite (watches_spec h p Hinv). split.
  - intros (Hne&ptr&c&Hp&Hc&Hf&He). split; [done|]. exists ptr.
    destruct (Hch _ _ Hp) as (ev'&Hst&Hfd). destruct (Hs _ _ Hst) as (c'&Hc'&?&?&?&?&?).
    assert (c' = c) by congruence. split; [congruence|done].
  - intros (Hne&ptr&Hst&<-). split; [done|].
    destruct (Hs _ _ Hst) as (c&Hc&?&?&?&?&?). by exists ptr, c.
Qed.

End ClientProofs.
