(* ===== verification/NetEPoll.v ===== *)
(** src/muduo/net/poller/EPollPoller.cc: the poller on epoll(4).  The kernel is
    a parameter ([EpollKernel]): its interest list, epoll_ctl(2) and the laws
    the manual page gives.  [NetEPoll] proves that EPollPoller keeps the
    interest list, [channels_] and the [index_] of every channel consistent and
    thereby implements the interface of NetPoller. *)

From S2P Require Import Prelude NetChannel NetPoller.

Module EPollPoller.

Definition kNew : Z := -1.
Definition kAdded : Z := 1.
Definition kDeleted : Z := 2.
Definition kInitEventListSize : Z := 16.

Definition EPOLL_CTL_ADD : Z := 1.
Definition EPOLL_CTL_DEL : Z := 2.
Definition EPOLL_CTL_MOD : Z := 3.

(** epoll_ctl(2): a failed call changes nothing; ADD succeeds only on a
    descriptor that is not registered, MOD and DEL only on one that is, and
    DEL on a registered descriptor succeeds. *)
Class EpollKernel (K : Type) := {
  interest : K -> gmap Z (Z * Z);
  epoll_ctl : Z -> Z -> Z * Z -> K -> Z * K;
  ctl_fail k op fd ev r k' : epoll_ctl op fd ev k = (r, k') -> r < 0 ->
    interest k' = interest k;
  ctl_add k fd ev r k' : epoll_ctl EPOLL_CTL_ADD fd ev k = (r, k') -> 0 <= r ->
    interest k !! fd = None /\ interest k' = <[fd := ev]> (interest k);
  ctl_mod k fd ev r k' : epoll_ctl EPOLL_CTL_MOD fd ev k = (r, k') -> 0 <= r ->
    is_Some (interest k !! fd) /\ interest k' = <[fd := ev]> (interest k);
  ctl_del k fd ev r k' : epoll_ctl EPOLL_CTL_DEL fd ev k = (r, k') -> 0 <= r ->
    interest k' = delete fd (interest k);
  ctl_del_ok k fd ev : is_Some (interest k !! fd) -> 0 <= fst (epoll_ctl EPOLL_CTL_DEL fd ev k)
}.

Record t (K : Type) := mk { channels : gmap Z Z; events_size : Z; kernel : K }.
Arguments mk {K}.
Arguments channels {K}.
Arguments events_size {K}.
Arguments kernel {K}.

Definition operationToString (op : Z) : outcome string :=
  if op =? EPOLL_CTL_ADD then Ok "ADD"%string
  else if op =? EPOLL_CTL_DEL then Ok "DEL"%string
  else if op =? EPOLL_CTL_MOD then Ok "MOD"%string
  else Err (AssertFail "ERROR op").

Section Ops.
Context `{EpollKernel K}.

Definition new_ (k : K) : t K := mk ∅ kInitEventListSize k.

(** EPollPoller::update: a refused DEL is only logged, a refused ADD or MOD is
    fatal. *)
Definition update (operation : Z) (ptr : Z) (h : heap) (p : t K) : outcome (t K) :=
  c ← deref ptr h;
  let event := (u32 (Channel.events_ c), ptr) in
  let '(r, k') := epoll_ctl operation (Channel.fd_ c) event (kernel p) in
  if r <? 0
  then if operation =? EPOLL_CTL_DEL then Ok (mk (channels p) (events_size p) k')
       else Err (LogFatal "epoll_ctl")
  else Ok (mk (channels p) (events_size p) k').

Definition set_channels (m : gmap Z Z) (p : t K) : t K := mk m (events_size p) (kernel p).

Definition updateChannel (ptr : Z) (h : heap) (p : t K) : outcome (heap * t K) :=
  c ← deref ptr h;
  let index := Channel.index_ c in
  let fd := Channel.fd_ c in
  if (index =? kNew) || (index =? kDeleted)
  then
    p ← (if index =? kNew
         then massert (bool_decide (channels p !! fd = None)) "channels_.find(fd) == channels_.end()";;
              Ok (set_channels (<[fd := ptr]> (channels p)) p)
         else massert (bool_decide (channels p !! fd <> None)) "channels_.find(fd) != channels_.end()";;
              massert (bool_decide (channels p !! fd = Some ptr)) "channels_[fd] == channel";;
              Ok p);
    let h := alter (Channel.set_index kAdded) ptr h in
    p ← update EPOLL_CTL_ADD ptr h p;
    Ok (h, p)
  else
    massert (bool_decide (channels p !! fd <> None)) "channels_.find(fd) != channels_.end()";;
    massert (bool_decide (channels p !! fd = Some ptr)) "channels_[fd] == channel";;
    massert (index =? kAdded) "index == kAdded";;
    if Channel.isNoneEvent c
    then p ← update EPOLL_CTL_DEL ptr h p;
         Ok (alter (Channel.set_index kDeleted) ptr h, p)
    else p ← update EPOLL_CTL_MOD ptr h p;
         Ok (h, p).

Definition removeChannel (ptr : Z) (h : heap) (p : t K) : outcome (heap * t K) :=
  c ← deref ptr h;
  let fd := Channel.fd_ c in
  massert (bool_decide (channels p !! fd <> None)) "channels_.find(fd) != channels_.end()";;
  massert (bool_decide (channels p !! fd = Some ptr)) "channels_[fd] == channel";;
  massert (Channel.isNoneEvent c) "channel->isNoneEvent()";;
  let index := Channel.index_ c in
  massert ((index =? kAdded) || (index =? kDeleted)) "index == kAdded || index == kDeleted";;
  let p := set_channels (delete fd (channels p)) p in
  p ← (if index =? kAdded then update EPOLL_CTL_DEL ptr h p else Ok p);
  Ok (alter (Channel.set_index kNew) ptr h, p).

(** [events] are the epoll_event structures the kernel wrote. *)
Fixpoint fillActiveChannels_loop (events : list (Z * Z)) (p : t K) (h : heap) (active : list Z)
    : outcome (heap * list Z) :=
  match events with
  | [] => Ok (h, active)
  | (ev, ptr) :: events' =>
      c ← deref ptr h;
      massert (bool_decide (channels p !! Channel.fd_ c <> None)) "it != channels_.end()";;
      massert (bool_decide (channels p !! Channel.fd_ c = Some ptr)) "it->second == channel";;
      fillActiveChannels_loop events' p (alter (Channel.set_revents (i32 ev)) ptr h) (active ++ [ptr])
  end.
Definition fillActiveChannels (numEvents : Z) (events : list (Z * Z)) (p : t K) (h : heap)
    (active : list Z) : outcome (heap * list Z) :=
  massert (u64 numEvents <=? events_size p) "numEvents <= events_.size()";;
  fillActiveChannels_loop (ztake numEvents events) p h active.

(** EPollPoller::poll: [epoll_wait] maps the size of the event array to the
    number of events (negative for an error) and the array it filled. *)
Definition poll (epoll_wait : Z -> Z * list (Z * Z)) (h : heap) (p : t K)
    : outcome (heap * t K * list Z) :=
  let '(numEvents, events) := epoll_wait (i32 (events_size p)) in
  if 0 <? numEvents
  then '(h, active) ← fillActiveChannels numEvents events p h [];
       let p := if u64 numEvents =? events_size p
                then mk (channels p) (u64 (events_size p * 2)) (kernel p) else p in
       Ok (h, p, active)
  else Ok (h, p, []).

#[export] Instance epoll_ops : PollerOps (t K) :=
  {| channels_ := channels; NetPoller.updateChannel := updateChannel;
     NetPoller.removeChannel := removeChannel |}.

(** * Invariant *)

(** A registered channel is either in the interest list with its current
    events and address ([kAdded]), or watches nothing and is not ([kDeleted]). *)
Definition chan_ok (p : t K) (fd ptr : Z) (c : Channel.t) : Prop :=
  Channel.fd_ c = fd /\ valid_events (Channel.events_ c) /\
  ((Channel.index_ c = kAdded /\ interest (kernel p) !! fd = Some (Channel.events_ c, ptr)) \/
   (Channel.index_ c = kDeleted /\ Channel.events_ c = 0 /\ interest (kernel p) !! fd = None)).

Definition inv (h : heap) (p : t K) : Prop :=
  (forall fd ptr, channels p !! fd = Some ptr -> exists c, h !! ptr = Some c /\ chan_ok p fd ptr c) /\
  (forall fd, channels p !! fd = None -> interest (kernel p) !! fd = None).

Definition watches (p : t K) (fd ev : Z) : Prop :=
  ev <> 0 /\ exists ptr, interest (kernel p) !! fd = Some (ev, ptr).

Lemma ctl_del_nonneg k fd ev r k' :
  epoll_ctl EPOLL_CTL_DEL fd ev k = (r, k') -> is_Some (interest k !! fd) -> 0 <= r.
Proof. intros Hctl Hs. pose proof (ctl_del_ok k fd ev Hs) as Hr. by rewrite Hctl in Hr. Qed.

Lemma u32_valid ev : valid_events ev -> u32 ev = ev.
Proof. intros [->|[->|[->| ->]]]; done. Qed.

Lemma update_ok operation ptr h p c Q :
  h !! ptr = Some c ->
  (forall r k', epoll_ctl operation (Channel.fd_ c) (u32 (Channel.events_ c), ptr) (kernel p) = (r, k') ->
     (0 <= r \/ (r < 0 /\ operation = EPOLL_CTL_DEL)) ->
     Q (mk (channels p) (events_size p) k')) ->
  ok_or_fatal (update operation ptr h p) Q.
Proof.
  intros Hc HQ. unfold update, deref. rewrite Hc. cbn.
  destruct (epoll_ctl _ _ _ _) as [r k'] eqn:E. destruct (Z.ltb_spec r 0).
  - destruct (Z.eqb_spec operation EPOLL_CTL_DEL); [|done]. cbn. eapply HQ; eauto.
  - cbn. eapply HQ; eauto.
Qed.

(** Reestablishing the invariant after one channel changed. *)
Lemma inv_write h p ptr c c' fd chs k' :
  inv h p -> h !! ptr = Some c -> Channel.fd_ c = fd -> chs !! fd = Some ptr ->
  (forall q, channels p !! q = Some ptr -> q = fd) ->
  (forall fd', fd' <> fd -> chs !! fd' = channels p !! fd') ->
  (forall fd', fd' <> fd -> interest k' !! fd' = interest (kernel p) !! fd') ->
  chan_ok (mk chs (events_size p) k') fd ptr c' ->
  inv (<[ptr := c']> h) (mk chs (events_size p) k').
Proof.
  intros (Hch&Hno) Hc Hf Hreg Huniq Hchs Hint Hok. split; cbn.
  - intros fd' q Hq. destruct (decide (fd' = fd)) as [->|Hne].
    + assert (q = ptr) as -> by congruence. exists c'. by rewrite lookup_insert_eq.
    + rewrite Hchs in Hq by done. destruct (Hch _ _ Hq) as (cq&Hcq&Hokq).
      assert (q <> ptr) by (intros ->; by apply Huniq in Hq).
      exists cq. rewrite lookup_insert_ne by done. split; [done|].
      unfold chan_ok in *; cbn in *. by rewrite Hint.
  - intros fd' Hq. destruct (decide (fd' = fd)) as [->|Hne]; [congruence|].
    rewrite Hint by done. apply Hno. by rewrite <- Hchs.
Qed.

Lemma inv_unique h p ptr c fd :
  inv h p -> h !! ptr = Some c -> channels p !! fd = Some ptr -> fd = Channel.fd_ c.
Proof.
  intros (Hch&_) Hc Hq. destruct (Hch _ _ Hq) as (c'&Hc'&Hf&_). congruence.
Qed.

Lemma updateChannel_spec h p ptr c ev c' :
  inv h p -> h !! ptr = Some c -> valid_events ev ->
  registered (channels p) ptr c \/
    (Channel.index_ c = -1 /\ channels p !! Channel.fd_ c = None) ->
  c' = Channel.set_added true (Channel.set_events ev c) ->
  ok_or_fatal (updateChannel ptr (<[ptr := c']> h) p) (fun '(h', p') =>
    inv h' p' /\ channels p' = <[Channel.fd_ c := ptr]> (channels p) /\
    exists idx, h' = <[ptr := Channel.set_index idx c']> h).
Proof.
  intros Hinv Hc Hv Hreg ->. set (c' := Channel.set_added _ _).
  assert (Huniq : forall q, channels p !! q = Some ptr -> q = Channel.fd_ c)
    by (intros; by eapply inv_unique).
  unfold updateChannel, deref. rewrite lookup_insert_eq. cbn.
  destruct Hreg as [Hreg|(Hidx&Hnone)].
  - unfold registered in Hreg. destruct (proj1 Hinv _ _ Hreg) as (c0&Hc0&_&Hv0&Hst).
    assert (c0 = c) as -> by congruence.
    rewrite (bool_decide_eq_true_2 (_ <> _)) by congruence.
    rewrite (bool_decide_eq_true_2 (_ = Some ptr)) by done. rewrite (insert_id (channels p)) by done.
    destruct Hst as [(Hix&Hint)|(Hix&He0&Hint)]; rewrite Hix; cbn.
    + unfold Channel.isNoneEvent. cbn. destruct (Z.eqb_spec ev Channel.kNoneEvent) as [->|Hne].
      * apply ok_or_fatal_bind. eapply update_ok; [by rewrite lookup_insert_eq|]. cbn.
        intros r k' Hctl _.
        assert (0 <= r) by (eapply ctl_del_nonneg; eauto).
        apply ctl_del in Hctl; [|done].
        rewrite (alter_set_index _ _ c') by by rewrite lookup_insert_eq.
        rewrite insert_insert_eq. split_and!; [|done|by eexists].
        eapply inv_write; eauto.
        { intros. by rewrite Hctl, lookup_delete_ne. }
        split; [done|]. split; [by left|]. right. cbn. by rewrite Hctl, lookup_delete_eq.
      * apply ok_or_fatal_bind. eapply update_ok; [by rewrite lookup_insert_eq|]. cbn.
        intros r k' Hctl [Hr|[_ [=]]]. apply ctl_mod in Hctl as [_ Hk]; [|done].
        rewrite u32_valid in Hk by done. split_and!; [|done|].
        2: { exists (Channel.index_ c'). by destruct c'. }
        eapply inv_write; eauto.
        { intros. by rewrite Hk, lookup_insert_ne. }
        split; [done|]. split; [done|]. left. cbn. by rewrite Hk, lookup_insert_eq.
    + rewrite (alter_set_index _ _ c') by by rewrite lookup_insert_eq. rewrite insert_insert_eq.
      apply ok_or_fatal_bind. eapply update_ok; [by rewrite lookup_insert_eq|]. cbn.
      intros r k' Hctl [Hr|[_ [=]]]. apply ctl_add in Hctl as [_ Hk]; [|done].
      rewrite u32_valid in Hk by done. split_and!; [|done|by eexists].
      eapply inv_write; eauto.
      { intros. by rewrite Hk, lookup_insert_ne. }
      split; [done|]. split; [done|]. left. cbn. by rewrite Hk, lookup_insert_eq.
  - rewrite Hidx. cbn. rewrite (bool_decide_eq_true_2 (_ = None)) by done. cbn.
    rewrite (alter_set_index _ _ c') by by rewrite lookup_insert_eq. rewrite insert_insert_eq.
    apply ok_or_fatal_bind. eapply update_ok; [by rewrite lookup_insert_eq|]. cbn.
    intros r k' Hctl [Hr|[_ [=]]]. apply ctl_add in Hctl as [_ Hk]; [|done].
    rewrite u32_valid in Hk by done. split_and!; [|done|by eexists].
    eapply inv_write; eauto.
    { by rewrite lookup_insert_eq. }
    { intros. by rewrite lookup_insert_ne. }
    { intros. by rewrite Hk, lookup_insert_ne. }
    split; [done|]. split; [done|]. left. cbn. by rewrite Hk, lookup_insert_eq.
Qed.

Lemma removeChannel_spec h p ptr c :
  inv h p -> h !! ptr = Some c -> registered (channels p) ptr c -> Channel.events_ c = 0 ->
  ok_or_fatal (removeChannel ptr (<[ptr := Channel.set_added false c]> h) p) (fun '(h', p') =>
    inv h' p' /\ channels p' = delete (Channel.fd_ c) (channels p) /\
    h' = <[ptr := Channel.set_index kNew (Channel.set_added false c)]> h /\
    interest (kernel p') !! Channel.fd_ c = None).
Proof.
  intros Hinv Hc Hreg He. set (c' := Channel.set_added false c).
  assert (Huniq : forall q, channels p !! q = Some ptr -> q = Channel.fd_ c)
    by (intros; by eapply inv_unique).
  unfold registered in Hreg. destruct (proj1 Hinv _ _ Hreg) as (c0&Hc0&_&Hv0&Hst).
  assert (c0 = c) as -> by congruence.
  unfold removeChannel, deref. rewrite lookup_insert_eq. cbn.
  rewrite (bool_decide_eq_true_2 (_ <> _)) by congruence.
  rewrite (bool_decide_eq_true_2 (_ = Some ptr)) by done.
  unfold Channel.isNoneEvent. cbn. rewrite He. cbn.
  rewrite (alter_set_index _ _ c') by by rewrite lookup_insert_eq. rewrite insert_insert_eq.
  assert (Hgen : forall k', interest k' !! Channel.fd_ c = None ->
    (forall fd', fd' <> Channel.fd_ c -> interest k' !! fd' = interest (kernel p) !! fd') ->
    inv (<[ptr := Channel.set_index kNew c']> h) (mk (delete (Channel.fd_ c) (channels p)) (events_size p) k')).
  { intros k' Hn Ho. split; cbn.
    - intros fd q. rewrite lookup_delete. case_decide; [done|]. intros Hq.
      destruct (proj1 Hinv _ _ Hq) as (cq&Hcq&Hokq).
      exists cq. rewrite lookup_insert_ne by (intros ->; by apply Huniq in Hq). split; [done|].
      unfold chan_ok in *; cbn in *. by rewrite Ho.
    - intros fd. rewrite lookup_delete. case_decide; [by subst|]. intros Hq.
      rewrite Ho by done. by apply Hinv. }
  destruct Hst as [(Hix&Hint)|(Hix&_&Hint)]; rewrite Hix; cbn.
  - apply ok_or_fatal_bind. eapply update_ok; [by rewrite lookup_insert_eq|]. cbn.
    intros r k' Hctl _.
    assert (0 <= r) by (eapply ctl_del_nonneg; eauto).
    apply ctl_del in Hctl; [|done]. split_and!; try done.
    + apply Hgen; [by rewrite Hctl, lookup_delete_eq|]. intros. by rewrite Hctl, lookup_delete_ne.
    + by rewrite Hctl, lookup_delete_eq.
  - split_and!; try done. apply Hgen; done.
Qed.

Lemma watches_inv h p : inv h p -> forall fd ev,
  watches p fd ev <-> ev <> 0 /\ exists ptr c,
    channels p !! fd = Some ptr /\ h !! ptr = Some c /\ Channel.fd_ c = fd /\ Channel.events_ c = ev.
Proof.
  intros (Hch&Hno) fd ev. unfold watches. split; intros (Hne&Hex); (split; [done|]).
  - destruct Hex as (ptr&Hint).
    destruct (channels p !! fd) as [q|] eqn:E; [|by rewrite Hno in Hint].
    destruct (Hch _ _ E) as (c&Hc&Hf&_&[(_&Hi)|(_&_&Hi)]); [|congruence].
    rewrite Hi in Hint. injection Hint as <- <-. by exists q, c.
  - destruct Hex as (ptr&c&Hq&Hc&Hf&He). destruct (Hch _ _ Hq) as (c'&Hc'&_&_&Hst).
    assert (c' = c) as -> by congruence. exists ptr.
    destruct Hst as [(_&Hi)|(_&E&_)]; [|lia]. by rewrite Hi, He.
Qed.

Lemma leaves_strangers_insert chs ptr (h : heap) c : leaves_strangers chs ptr h (<[ptr := c]> h).
Proof. intros q Hq _. by rewrite lookup_insert_ne. Qed.

#[export] Instance epoll_spec : PollerSpec (t K).
Proof.
  refine {| NetPoller.inv := inv; NetPoller.watches := watches; watches_spec := watches_inv |}.
  - intros h p Hinv fd ptr Hq. destruct (proj1 Hinv _ _ Hq) as (c&?&?&_). eauto.
  - intros h p ptr c c' (Hch&Hno) Hc Hf He Hi. split; [|done]. intros fd q Hq.
    destruct (Hch _ _ Hq) as (cq&Hcq&Hok). destruct (decide (q = ptr)) as [->|].
    + exists c'. rewrite lookup_insert_eq. split; [done|]. assert (cq = c) as -> by congruence.
      unfold chan_ok in *. by rewrite Hf, He, Hi.
    + exists cq. by rewrite lookup_insert_ne.
  - intros h p ptr c ev c' Hinv Hc Hv Hreg Hc'.
    eapply ok_or_fatal_mono; [eapply updateChannel_spec; eauto|].
    + destruct Hreg as [|(?&?&?&?)]; auto.
    + intros [h' p'] (?&?&idx&->). split_and!; try done.
      * apply same_but_index_insert.
      * apply leaves_strangers_insert.
  - intros h p ptr c Hinv Hc Hreg He.
    eapply ok_or_fatal_mono; [eapply removeChannel_spec; eauto|].
    intros [h' p'] (?&?&->&_). split_and!; try done.
    + apply same_but_index_insert.
    + apply leaves_strangers_insert.
Defined.

(** epoll_wait(2) reports entries of the interest list. *)
Definition reports_interest (p : t K) (events : list (Z * Z)) : Prop :=
  Forall (fun '(_, ptr) => exists fd ev, interest (kernel p) !! fd = Some (ev, ptr)) events.

(** The heap after the reported events were stored, in order. *)
Definition store_revents (events : list (Z * Z)) (h : heap) : heap :=
  foldl (fun h '(ev, ptr) => alter (Channel.set_revents (i32 ev)) ptr h) h events.

Lemma chan_ok_revents p fd ptr c ev :
  chan_ok p fd ptr c -> chan_ok p fd ptr (Channel.set_revents ev c).
Proof. done. Qed.

Lemma inv_revents h p ptr ev : inv h p -> inv (alter (Channel.set_revents ev) ptr h) p.
Proof.
  intros (Hch&Hno). split; [|done]. intros fd q Hq. destruct (Hch _ _ Hq) as (c&Hc&Hok).
  rewrite lookup_alter. case_decide as E; [|eauto]. subst q. rewrite Hc. cbn. eauto.
Qed.

Lemma fillActiveChannels_loop_ok events p h active :
  inv h p -> reports_interest p events ->
  fillActiveChannels_loop events p h active =
  Ok (store_revents events h, active ++ map snd events) /\ inv (store_revents events h) p.
Proof.
  intros Hinv Hrep. revert h active Hinv.
  induction Hrep as [|[ev ptr] events (fd&ev0&Hint) Hrep IH]; intros h active Hinv; cbn.
  { by rewrite app_nil_r. }
  assert (exists c, h !! ptr = Some c /\ channels p !! Channel.fd_ c = Some ptr) as (c&Hc&Hq).
  { destruct (channels p !! fd) as [q|] eqn:E; [|by rewrite (proj2 Hinv) in Hint].
    destruct (proj1 Hinv _ _ E) as (c&Hc&Hf&_&[(_&Hi)|(_&_&Hi)]); [|congruence].
    assert (q = ptr) as -> by congruence. exists c. by rewrite Hf. }
  unfold deref. rewrite Hc. cbn. rewrite (bool_decide_eq_true_2 (_ <> _)) by congruence.
  rewrite (bool_decide_eq_true_2 (_ = Some ptr)) by done. cbn.
  destruct (IH (alter (Channel.set_revents (i32 ev)) ptr h) (active ++ [ptr])) as [-> ?];
    [by apply inv_revents|]. by rewrite <- app_assoc.
Qed.
End Ops.

(** * A kernel that follows the manual page, with its interest list as state. *)

Definition map_ctl (op fd : Z) (ev : Z * Z) (k : gmap Z (Z * Z)) : Z * gmap Z (Z * Z) :=
  match k !! fd with
  | Some _ => if op =? EPOLL_CTL_MOD then (0, <[fd := ev]> k)
              else if op =? EPOLL_CTL_DEL then (0, delete fd k) else (-1, k)
  | None => if op =? EPOLL_CTL_ADD then (0, <[fd := ev]> k) else (-1, k)
  end.

#[export] Program Instance map_kernel : EpollKernel (gmap Z (Z * Z)) :=
  {| interest k := k; epoll_ctl := map_ctl |}.
Next Obligation.
  unfold map_ctl. intros k op fd ev r k'. cbn.
  destruct (k !! fd), (op =? EPOLL_CTL_MOD), (op =? EPOLL_CTL_DEL), (op =? EPOLL_CTL_ADD);
    intros [= <- <-] ?; done || lia.
Qed.
Next Obligation.
  unfold map_ctl. intros k fd ev r k'. cbn.
  destruct (k !! fd); cbn; intros [= <- <-] ?; [lia|done].
Qed.
Next Obligation.
  unfold map_ctl. intros k fd ev r k'. cbn.
  destruct (k !! fd) eqn:E; cbn; intros [= <- <-] ?; [eauto|lia].
Qed.
Next Obligation.
  unfold map_ctl. intros k fd ev r k'. cbn.
  destruct (k !! fd) eqn:E; cbn; intros [= <- <-] ?; [done|lia].
Qed.
Next Obligation. unfold map_ctl. intros k fd ev [x Hx]. cbn. rewrite Hx. cbn. lia. Qed.

(** * Properties *)

(** C8: EPollPoller watches exactly what its channels ask for.  From newly
    constructed channels and an empty epoll instance, any legal sequence of
    [enableReading], [disableReading], [enableWriting], [disableWriting],
    [disableAll] and [remove] calls fails no assertion (the only possible stop
    is the fatal log line when the kernel refuses an ADD or MOD), and then the
    kernel reports event mask [ev] on a descriptor exactly when a channel of
    that descriptor is registered with these events. *)
Theorem epoll_watches_what_channels_ask `{EpollKernel K} fdof cmds s h (k : K) s' :
  interest k = ∅ ->
  (forall ptr st, s !! ptr = Some st ->
     st = Fresh /\ h !! ptr = Some (Channel.new_ (fdof ptr)) /\ 0 <= fdof ptr < max_fd) ->
  client_run fdof cmds s = Some s' ->
  ok_or_fatal (chan_run cmds (h, new_ k)) (fun '(h', p') => forall fd ev,
    watches p' fd ev <-> ev <> 0 /\ exists ptr, s' !! ptr = Some (Added ev) /\ fdof ptr = fd).
Proof.
  intros Hk Hs Hrun.
  eapply ok_or_fatal_mono; [eapply chan_run_agrees; [apply agrees_fresh|exact Hrun]|]; try done.
  - split; cbn; [done|]. intros. by rewrite Hk.
  - intros [h' p'] Hag fd ev. exact (agrees_watches fdof s' h' p' fd ev Hag).
Qed.

Definition witness_fdof (ptr : Z) : Z := ptr - 100.
Definition witness_state : gmap Z chan_state := {[105 := Fresh; 106 := Fresh]}.
Definition witness_heap : heap := {[105 := Channel.new_ 5; 106 := Channel.new_ 6]}.
Definition witness_cmds : list chan_cmd :=
  [Change Channel.EnableReading 105; Change Channel.EnableWriting 106;
   Change Channel.EnableWriting 105; Change Channel.DisableAll 106; Remove 106].

Lemma epoll_watches_what_channels_ask_witness :
  exists h' p', chan_run witness_cmds (witness_heap, new_ (∅ : gmap Z (Z * Z))) = Ok (h', p') /\
    forall fd ev, watches p' fd ev <-> ev <> 0 /\
      exists ptr, (<[106 := Gone]> (<[105 := Added 7]> witness_state)) !! ptr = Some (Added ev) /\
        witness_fdof ptr = fd.
Proof.
  pose proof (epoll_watches_what_channels_ask witness_fdof witness_cmds witness_state witness_heap
    (∅ : gmap Z (Z * Z)) (<[106 := Gone]> (<[105 := Added 7]> witness_state)) eq_refl) as Hw.
  assert (exists hp, chan_run witness_cmds (witness_heap, new_ (∅ : gmap Z (Z * Z))) = Ok hp) as [[h' p'] E].
  { eexists. vm_compute. reflexivity. }
  rewrite E in Hw. exists h', p'. split; [exact E|]. apply Hw.
  - intros ptr st. unfold witness_state. rewrite lookup_insert. case_decide as D.
    + intros [= <-]. subst. split_and!; [done|vm_compute; reflexivity|vm_compute; discriminate|reflexivity].
    + rewrite lookup_singleton. case_decide; [|done]. intros [= <-]. subst.
      split_and!; [done|vm_compute; reflexivity|vm_compute; discriminate|reflexivity].
  - vm_compute. reflexivity.
Defined.

(** [EPollPoller::poll] hands the loop exactly the channels the kernel
    reported, in order, with [revents_] set to the reported events, and
    doubles its event array exactly when the kernel filled it; the checks that
    a reported channel is registered never fail. *)
Theorem epoll_poll_reports_ready_channels `{EpollKernel K} epoll_wait h (p : t K) n events :
  inv h p -> 0 < events_size p < 2 ^ 31 ->
  epoll_wait (events_size p) = (n, events) -> n <= events_size p ->
  (0 < n -> zlen events = n) -> reports_interest p events ->
  exists h' p', poll epoll_wait h p = Ok (h', p', if 0 <? n then map snd events else []) /\
    h' = (if 0 <? n then store_revents events h else h) /\ inv h' p' /\
    channels p' = channels p /\
    events_size p' = (if n =? events_size p then 2 * events_size p else events_size p).
Proof.
  intros Hinv Hsz Hwait Hn Hlen Hrep. unfold poll.
  assert (i32 (events_size p) = events_size p) as ->
    by (unfold i32; apply swrap_small; [lia|unfold srange; cbn; lia]).
  rewrite Hwait. destruct (Z.ltb_spec 0 n) as [Hpos|].
  - unfold fillActiveChannels, u64. rewrite uwrap_small by (unfold urange; cbn; lia).
    assert_ok. rewrite ztake_all by (rewrite Hlen; lia).
    destruct (fillActiveChannels_loop_ok events p h [] Hinv Hrep) as [-> ?]. cbn.
    rewrite uwrap_small by (unfold urange; cbn; lia).
    destruct (n =? events_size p); do 2 eexists; (split; [done|]); split_and!; try done. cbn. lia.
  - destruct (Z.eqb_spec n (events_size p)); [lia|]. by exists h, p.
Qed.

Lemma epoll_poll_reports_ready_channels_witness :
  exists h' p', poll (fun _ => (1, [(1, 105)]))
      {[105 := Channel.set_index kAdded (Channel.set_events 3 (Channel.new_ 5))]}
      (mk {[5 := 105]} 1 ({[5 := (3, 105)]} : gmap Z (Z * Z)))
    = Ok (h', p', [105]) /\ events_size p' = 2.
Proof.
  destruct (epoll_poll_reports_ready_channels (fun _ => (1, [(1, 105)]))
      {[105 := Channel.set_index kAdded (Channel.set_events 3 (Channel.new_ 5))]}
      (mk {[5 := 105]} 1 ({[5 := (3, 105)]} : gmap Z (Z * Z))) 1 [(1, 105)]) as (h'&p'&Hp&_&_&_&Hs).
  - split; cbn.
    + intros fd ptr. rewrite lookup_singleton. case_decide; [|done]. intros [= <-]. subst.
      eexists. split; [reflexivity|]. split; [done|]. split; [by right; left|]. by left.
    + intros fd. rewrite !lookup_singleton. by case_decide.
  - cbn. lia.
  - done.
  - cbn. lia.
  - done.
  - repeat constructor. by exists 5, 3.
  - exists h', p'. by split.
Defined.

End EPollPoller.
