(* ===== verification/NetPoll.v ===== *)
(** src/muduo/net/poller/PollPoller.cc: the poller on poll(2).  [pollfds_] is
    the array handed to the kernel; the [index_] of a channel is its position
    there, and a channel that watches nothing keeps its slot with the negated
    descriptor [-fd-1].  The file proves that [pollfds_], [channels_] and the
    indices stay a bijection through additions and swap-with-last removals, so
    that PollPoller implements the interface of NetPoller, and records what it
    does on the calls the interface excludes. *)

From S2P Require Import Prelude NetChannel NetPoller.

Module PollPoller.

Record pollfd := mkfd { pfd_fd : Z; pfd_events : Z; pfd_revents : Z }.
#[export] Instance pollfd_eq_dec : EqDecision pollfd.
Proof. solve_decision. Defined.

Record t := mk { channels : gmap Z Z; pollfds_ : list pollfd }.

Definition new_ : t := mk ∅ [].

Definition pollfds_size (p : t) : Z := i32 (zlen (pollfds_ p)).

Definition updateChannel (ptr : Z) (h : heap) (p : t) : outcome (heap * t) :=
  c ← deref ptr h;
  let fd := Channel.fd_ c in
  if Channel.index_ c <? 0
  then
    massert (bool_decide (channels p !! fd = None)) "channels_.find(fd) == channels_.end()";;
    let pfd := mkfd fd (i16 (Channel.events_ c)) 0 in
    let p := mk (channels p) (pollfds_ p ++ [pfd]) in
    let idx := i32 (pollfds_size p - 1) in
    Ok (alter (Channel.set_index idx) ptr h, mk (<[fd := ptr]> (channels p)) (pollfds_ p))
  else
    massert (bool_decide (channels p !! fd <> None)) "channels_.find(fd) != channels_.end()";;
    massert (bool_decide (channels p !! fd = Some ptr)) "channels_[fd] == channel";;
    let idx := Channel.index_ c in
    massert ((0 <=? idx) && (idx <? pollfds_size p)) "0 <= idx && idx < pollfds_.size()";;
    match pollfds_ p !! Z.to_nat idx with
    | None => Err (Undefined "pollfds_[idx]")
    | Some pfd =>
        massert ((pfd_fd pfd =? fd) || (pfd_fd pfd =? - fd - 1)) "pfd.fd == fd || pfd.fd == -fd-1";;
        let pfd := mkfd (if Channel.isNoneEvent c then - fd - 1 else fd) (i16 (Channel.events_ c)) 0 in
        Ok (h, mk (channels p) (<[Z.to_nat idx := pfd]> (pollfds_ p)))
    end.

Definition removeChannel (ptr : Z) (h : heap) (p : t) : outcome (heap * t) :=
  c ← deref ptr h;
  let fd := Channel.fd_ c in
  massert (bool_decide (channels p !! fd <> None)) "channels_.find(fd) != channels_.end()";;
  massert (bool_decide (channels p !! fd = Some ptr)) "channels_[fd] == channel";;
  massert (Channel.isNoneEvent c) "channel->isNoneEvent()";;
  let idx := Channel.index_ c in
  massert ((0 <=? idx) && (idx <? pollfds_size p)) "0 <= idx && idx < pollfds_.size()";;
  match pollfds_ p !! Z.to_nat idx, last (pollfds_ p) with
  | Some pfd, Some back =>
      massert ((pfd_fd pfd =? - fd - 1) && (pfd_events pfd =? Channel.events_ c))
        "pfd.fd == -fd-1 && pfd.events == channel->events()";;
      let chs := delete fd (channels p) in
      let n := length (pollfds_ p) in
      if u64 idx =? u64 (zlen (pollfds_ p) - 1)
      then Ok (h, mk chs (take (n - 1) (pollfds_ p)))
      else
        let channelAtEnd := pfd_fd back in
        let swapped := <[Z.to_nat idx := back]> (<[(n - 1)%nat := pfd]> (pollfds_ p)) in
        let channelAtEnd := if channelAtEnd <? 0 then - channelAtEnd - 1 else channelAtEnd in
        match chs !! channelAtEnd with
        | None => Err (Undefined "null Channel*")
        | Some q =>
            cq ← deref q h;
            Ok (<[q := Channel.set_index idx cq]> h, mk chs (take (n - 1) swapped))
        end
  | _, _ => Err (Undefined "pollfds_[idx]")
  end.

(** [poll(2)] fills [revents] of the array and returns the number of entries
    it filled. *)
Fixpoint fillActiveChannels (pfds : list pollfd) (numEvents : Z) (p : t) (h : heap) (active : list Z)
    : outcome (heap * list Z) :=
  match pfds with
  | [] => Ok (h, active)
  | pfd :: pfds' =>
      if 0 <? numEvents
      then
        if 0 <? pfd_revents pfd
        then
          match channels p !! pfd_fd pfd with
          | None => Err (AssertFail "ch != channels_.end()")
          | Some ptr =>
              c ← deref ptr h;
              massert (Channel.fd_ c =? pfd_fd pfd) "channel->fd() == pfd->fd";;
              fillActiveChannels pfds' (numEvents - 1) p
                (alter (Channel.set_revents (pfd_revents pfd)) ptr h) (active ++ [ptr])
          end
        else fillActiveChannels pfds' numEvents p h active
      else Ok (h, active)
  end.

Definition poll (sys_poll : list pollfd -> Z * list pollfd) (h : heap) (p : t)
    : outcome (heap * t * list Z) :=
  let '(numEvents, pfds) := sys_poll (pollfds_ p) in
  let p := mk (channels p) pfds in
  if 0 <? numEvents
  then '(h, active) ← fillActiveChannels pfds numEvents p h [];
       Ok (h, p, active)
  else Ok (h, p, []).

#[export] Instance poll_ops : PollerOps t :=
  {| channels_ := channels; NetPoller.updateChannel := updateChannel;
     NetPoller.removeChannel := removeChannel |}.

(** * Invariant *)

Definition realfd (x : Z) : Z := if x <? 0 then - x - 1 else x.

(** The slot of a channel: its descriptor, negated when it watches nothing. *)
Definition slot_ok (c : Channel.t) (pfd : pollfd) : Prop :=
  pfd_fd pfd = (if Channel.events_ c =? 0 then - Channel.fd_ c - 1 else Channel.fd_ c) /\
  pfd_events pfd = Channel.events_ c.

Definition inv (h : heap) (p : t) : Prop :=
  (forall fd ptr, channels p !! fd = Some ptr -> exists c i pfd,
     h !! ptr = Some c /\ Channel.fd_ c = fd /\ 0 <= fd < max_fd /\ valid_events (Channel.events_ c) /\
     Channel.index_ c = Z.of_nat i /\ pollfds_ p !! i = Some pfd /\ slot_ok c pfd) /\
  (forall i pfd, pollfds_ p !! i = Some pfd -> exists ptr c,
     channels p !! realfd (pfd_fd pfd) = Some ptr /\ h !! ptr = Some c /\
     Channel.index_ c = Z.of_nat i).

Definition watches (p : t) (fd ev : Z) : Prop :=
  ev <> 0 /\ 0 <= fd /\ exists i pfd,
    pollfds_ p !! i = Some pfd /\ pfd_fd pfd = fd /\ pfd_events pfd = ev.

Lemma i16_valid ev : valid_events ev -> i16 ev = ev.
Proof. intros [->|[->|[->| ->]]]; done. Qed.

Lemma realfd_slot c pfd : 0 <= Channel.fd_ c -> slot_ok c pfd -> realfd (pfd_fd pfd) = Channel.fd_ c.
Proof.
  intros Hf [-> _]. unfold realfd.
  destruct (_ =? 0); [destruct (Z.ltb_spec (- Channel.fd_ c - 1) 0) | destruct (Z.ltb_spec (Channel.fd_ c) 0)];
    lia.
Qed.

(** The slot at [i] belongs to the channel whose index is [i]. *)
Lemma inv_slot h p i pfd :
  inv h p -> pollfds_ p !! i = Some pfd ->
  exists ptr c, channels p !! Channel.fd_ c = Some ptr /\ h !! ptr = Some c /\
    Channel.index_ c = Z.of_nat i /\ 0 <= Channel.fd_ c < max_fd /\
    valid_events (Channel.events_ c) /\ slot_ok c pfd.
Proof.
  intros (H1&H2) Hi. destruct (H2 _ _ Hi) as (ptr&c&Hq&Hc&Hx).
  destruct (H1 _ _ Hq) as (c'&j&pfd'&Hc'&Hf&Hb&Hv&Hj&Hpj&Hs).
  assert (c' = c) as -> by congruence. assert (j = i) as -> by lia.
  assert (pfd' = pfd) as -> by congruence. exists ptr, c. rewrite Hf. done.
Qed.

(** At most [max_fd] slots, since their descriptors differ. *)
Lemma inv_size h p : inv h p -> zlen (pollfds_ p) <= max_fd.
Proof.
  intros Hinv.
  assert (NoDup (map (fun x => realfd (pfd_fd x)) (pollfds_ p))) as Hnd.
  { apply NoDup_alt. intros i j fd Hi Hj. rewrite list_lookup_fmap in Hi, Hj.
    destruct (pollfds_ p !! i) as [a|] eqn:Ea; [|done].
    destruct (pollfds_ p !! j) as [b|] eqn:Eb; [|done]. cbn in *.
    destruct (proj2 Hinv _ _ Ea) as (pa&ca&Hqa&Hca&Hia).
    destruct (proj2 Hinv _ _ Eb) as (pb&cb&Hqb&Hcb&Hib).
    assert (pa = pb) as -> by congruence. assert (ca = cb) as -> by congruence. lia. }
  assert (map (fun x => realfd (pfd_fd x)) (pollfds_ p) ⊆+ seqZ 0 max_fd) as Hsub.
  { apply NoDup_submseteq; [done|]. intros fd. rewrite list_elem_of_fmap.
    intros (pfd&->&Hin). apply list_elem_of_lookup in Hin as [i Hi].
    destruct (inv_slot _ _ _ _ Hinv Hi) as (ptr&c&_&_&_&Hb&_&Hs).
    rewrite (realfd_slot c) by (done || lia). apply elem_of_seqZ. lia. }
  apply submseteq_length in Hsub. rewrite length_map, length_seqZ in Hsub.
  unfold zlen, max_fd in *. lia.
Qed.

Lemma pollfds_size_eq h p : inv h p -> pollfds_size p = zlen (pollfds_ p).
Proof.
  intros Hinv%inv_size. unfold pollfds_size, i32, max_fd in *. apply swrap_small; [lia|].
  unfold srange. cbn in *. zlia.
Qed.
Lemma alter_index_insert (h : heap) ptr c idx :
  alter (Channel.set_index idx) ptr (<[ptr := c]> h) = <[ptr := Channel.set_index idx c]> h.
Proof.
  rewrite (alter_set_index _ ptr c) by by rewrite lookup_insert_eq. by rewrite insert_insert_eq.
Qed.

Lemma poll_inv_unique h p ptr c fd :
  inv h p -> h !! ptr = Some c -> channels p !! fd = Some ptr -> fd = Channel.fd_ c.
Proof. intros Hinv Hc Hq. destruct (proj1 Hinv _ _ Hq) as (c'&?&?&?&?&_). congruence. Qed.

(** Two channels with the same slot are the same channel. *)
Lemma inv_slot_unique h p i pfd fd ptr c :
  inv h p -> pollfds_ p !! i = Some pfd -> channels p !! fd = Some ptr -> h !! ptr = Some c ->
  Channel.index_ c = Z.of_nat i -> realfd (pfd_fd pfd) = fd.
Proof.
  intros Hinv Hi Hq Hc Hx. destruct (proj1 Hinv _ _ Hq) as (c'&j&pfd'&Hc'&Hf&Hb&Hv&Hj&Hpj&Hs).
  assert (c' = c) as -> by congruence. assert (j = i) as -> by lia.
  assert (pfd' = pfd) as -> by congruence. rewrite (realfd_slot c) by (done || lia). done.
Qed.

(** Writing the slot of one channel, added or changed. *)
Lemma poll_inv_write h p ptr c c' i pfd' chs pfds :
  inv h p -> h !! ptr = Some c -> Channel.fd_ c' = Channel.fd_ c ->
  0 <= Channel.fd_ c < max_fd -> valid_events (Channel.events_ c') ->
  Channel.index_ c' = Z.of_nat i -> slot_ok c' pfd' ->
  chs = <[Channel.fd_ c := ptr]> (channels p) -> pfds !! i = Some pfd' ->
  (forall j, j <> i -> pfds !! j = pollfds_ p !! j) ->
  (channels p !! Channel.fd_ c = None /\ pollfds_ p !! i = None \/
   channels p !! Channel.fd_ c = Some ptr /\ Channel.index_ c = Z.of_nat i) ->
  inv (<[ptr := c']> h) (mk chs pfds).
Proof.
  intros Hinv Hc Hf Hb Hv Hx Hs -> Hi Hpf Hcase. split; cbn.
  - intros fd q. rewrite lookup_insert. case_decide as E.
    + intros [= <-]. exists c', i, pfd'. rewrite lookup_insert_eq. subst fd. done.
    + intros Hq. assert (q <> ptr).
      { intros ->. by apply (poll_inv_unique _ _ _ _ _ Hinv Hc) in Hq. }
      destruct (proj1 Hinv _ _ Hq) as (cq&j&pfd&Hcq&Hfq&Hbq&Hvq&Hj&Hpj&Hsq).
      assert (j <> i).
      { intros ->. destruct Hcase as [[_ Hn]|[Hp Hxc]]; [congruence|].
        assert (realfd (pfd_fd pfd) = Channel.fd_ c) by eauto using inv_slot_unique.
        rewrite (realfd_slot cq) in * by (done || lia). congruence. }
      exists cq, j, pfd. rewrite lookup_insert_ne, Hpf by done. done.
  - intros j pfd. destruct (decide (j = i)) as [->|Hj].
    + rewrite Hi. intros [= <-]. exists ptr, c'. rewrite (realfd_slot c') by (done || lia).
      by rewrite Hf, !lookup_insert_eq.
    + rewrite Hpf by done. intros Hpj. destruct (proj2 Hinv _ _ Hpj) as (q&cq&Hq&Hcq&Hxq).
      assert (q <> ptr).
      { intros ->. assert (cq = c) as -> by congruence.
        apply (poll_inv_unique _ _ _ _ _ Hinv Hc) in Hq as E. rewrite E in Hq.
        destruct Hcase as [[? _]|[_ ?]]; [congruence|lia]. }
      exists q, cq. rewrite (lookup_insert_ne h) by done. split; [|done].
      rewrite lookup_insert_ne; [done|]. intros E. rewrite <- E in Hq.
      destruct Hcase as [[? _]|[? _]]; congruence.
Qed.

Lemma poll_updateChannel_spec h p ptr c ev c' :
  inv h p -> h !! ptr = Some c -> valid_events ev ->
  registered (channels p) ptr c \/ addable (channels p) c ev ->
  c' = Channel.set_added true (Channel.set_events ev c) ->
  exists idx p', updateChannel ptr (<[ptr := c']> h) p = Ok (<[ptr := Channel.set_index idx c']> h, p') /\
    inv (<[ptr := Channel.set_index idx c']> h) p' /\
    channels p' = <[Channel.fd_ c := ptr]> (channels p).
Proof.
  intros Hinv Hc Hv Hreg ->. set (c' := Channel.set_added _ _).
  unfold updateChannel, deref. rewrite lookup_insert_eq. cbn.
  destruct Hreg as [Hreg|(Hidx&Hnone&Hb&Hne)].
  - unfold registered in Hreg.
    destruct (proj1 Hinv _ _ Hreg) as (c0&i&pfd&Hc0&Hf&Hb&_&Hi&Hp&Hs).
    assert (c0 = c) as -> by congruence. rewrite Hi.
    destruct (Z.ltb_spec (Z.of_nat i) 0); [lia|].
    rewrite (bool_decide_eq_true_2 (_ <> _)) by congruence.
    rewrite (bool_decide_eq_true_2 (_ = Some ptr)) by done. cbn.
    apply lookup_lt_Some in Hp as Hlt.
    rewrite (pollfds_size_eq h) by done. assert_ok by (zbool; unfold zlen; lia).
    rewrite Nat2Z.id, Hp. assert_ok by (zbool; rewrite (proj1 Hs); destruct (_ =? 0); lia).
    exists (Z.of_nat i). replace (Channel.set_index (Z.of_nat i) c') with c'
      by (unfold c'; rewrite <- Hi; by destruct c).
    eexists. split; [done|]. split; [|by rewrite insert_id].
    eapply (poll_inv_write h p ptr c c' i (mkfd (if ev =? 0 then - Channel.fd_ c - 1 else Channel.fd_ c) (i16 ev) 0));
      eauto.
    + split; [|apply i16_valid; done]. by destruct c.
    + by rewrite insert_id.
    + by rewrite list_lookup_insert_eq.
    + intros. by rewrite list_lookup_insert_ne.
  - rewrite Hidx. cbn. rewrite (bool_decide_eq_true_2 (_ = None)) by done. cbn.
    rewrite alter_index_insert. set (n := length (pollfds_ p)).
    assert (i32 (pollfds_size (mk (channels p) (pollfds_ p ++ [mkfd (Channel.fd_ c) (i16 ev) 0])) - 1)
            = Z.of_nat n) as ->.
    { pose proof (inv_size h p Hinv). unfold pollfds_size, i32, max_fd in *. cbn [pollfds_].
      rewrite (swrap_small 32 (zlen _)); [|lia|unfold srange; zlia].
      rewrite swrap_small; [|lia|unfold srange; zlia]. unfold n. autorewrite with zlen. unfold zlen. lia. }
    exists (Z.of_nat n). eexists. split; [done|]. split; [|done].
    eapply (poll_inv_write h p ptr c _ n (mkfd (Channel.fd_ c) (i16 ev) 0)); eauto.
    + split; [|apply i16_valid; done]. cbn. destruct (Z.eqb_spec ev 0); done.
    + cbn. by rewrite lookup_app_r, Nat.sub_diag by done.
    + intros j Hj. cbn. destruct (decide (j < n)%nat); [by rewrite lookup_app_l|].
      rewrite !lookup_ge_None_2; [done|lia|rewrite length_app; cbn; lia].
    + left. split; [done|]. by apply lookup_ge_None.
Qed.

Lemma shrink_lookup (l : list pollfd) j : (j < length l - 1)%nat -> take (length l - 1) l !! j = l !! j.
Proof. intros. by apply lookup_take_lt. Qed.

(** After a removal the array holds the other channels' slots, and a moved
    channel's index follows its slot. *)
Lemma inv_remove_last h p ptr c c' pfd :
  inv h p -> h !! ptr = Some c -> channels p !! Channel.fd_ c = Some ptr ->
  Channel.index_ c = Z.of_nat (length (pollfds_ p) - 1) ->
  pollfds_ p !! (length (pollfds_ p) - 1)%nat = Some pfd ->
  inv (<[ptr := c']> h)
    (mk (delete (Channel.fd_ c) (channels p)) (take (length (pollfds_ p) - 1) (pollfds_ p))).
Proof.
  intros Hinv Hc Hreg Hx Hp. split; cbn.
  - intros fd q. rewrite lookup_delete. case_decide as E; [done|]. intros Hq.
    destruct (proj1 Hinv _ _ Hq) as (cq&j&pfdq&Hcq&Hfq&Hbq&Hvq&Hj&Hpj&Hsq).
    exists cq, j, pfdq. rewrite lookup_insert_ne.
    2: { intros ->. by apply (poll_inv_unique _ _ _ _ _ Hinv Hc) in Hq. }
    split_and!; try done || lia. rewrite shrink_lookup; [done|].
    apply lookup_lt_Some in Hpj as ?. assert (j <> length (pollfds_ p) - 1)%nat; [|lia]. intros ->.
    assert (realfd (pfd_fd pfdq) = Channel.fd_ c) by eauto using inv_slot_unique.
    rewrite (realfd_slot cq) in * by (done || lia). congruence.
  - intros j pfdj Hj. apply lookup_lt_Some in Hj as Hlt. rewrite length_take in Hlt.
    rewrite shrink_lookup in Hj by lia. destruct (proj2 Hinv _ _ Hj) as (q&cq&Hq&Hcq&Hxq).
    exists q, cq. rewrite lookup_delete_ne, lookup_insert_ne; [done|..].
    + intros ->. assert (cq = c) as -> by congruence. lia.
    + intros E. rewrite <- E in Hq. assert (q = ptr) as -> by congruence.
      assert (cq = c) as -> by congruence. lia.
Qed.

Lemma inv_remove_swap h p ptr c c' i q cq back :
  inv h p -> h !! ptr = Some c -> channels p !! Channel.fd_ c = Some ptr ->
  Channel.index_ c = Z.of_nat i -> (i < length (pollfds_ p) - 1)%nat ->
  pollfds_ p !! (length (pollfds_ p) - 1)%nat = Some back ->
  channels p !! realfd (pfd_fd back) = Some q -> h !! q = Some cq ->
  inv (<[q := Channel.set_index (Z.of_nat i) cq]> (<[ptr := c']> h))
    (mk (delete (Channel.fd_ c) (channels p))
        (take (length (pollfds_ p) - 1) (<[i := back]> (pollfds_ p)))).
Proof.
  intros Hinv Hc Hreg Hx Hi Hback Hq Hcq. set (n := length (pollfds_ p)) in *.
  destruct (proj1 Hinv _ _ Hq) as (cq'&jq&pfdq&Hcq'&Hfq&Hbq&Hvq&Hjq&Hpq&Hsq).
  assert (cq' = cq) as -> by congruence.
  assert (jq = n - 1)%nat as ->.
  { destruct (proj2 Hinv _ _ Hback) as (q2&c2&Hq2&Hc2&Hx2).
    assert (q2 = q) as -> by congruence. assert (c2 = cq) as -> by congruence. lia. }
  assert (pfdq = back) as -> by congruence.
  assert (q <> ptr) as Hqp by (intros ->; assert (cq = c) as -> by congruence; lia).
  assert (Channel.fd_ c <> realfd (pfd_fd back)) by congruence.
  assert (Hlk : forall j, (j < n - 1)%nat -> j <> i ->
    take (n - 1) (<[i := back]> (pollfds_ p)) !! j = pollfds_ p !! j).
  { intros j ??. by rewrite lookup_take_lt, list_lookup_insert_ne by done. }
  assert (Hlki : take (n - 1) (<[i := back]> (pollfds_ p)) !! i = Some back).
  { rewrite lookup_take_lt by done. apply list_lookup_insert_eq. fold n. lia. }
  split; cbn.
  - intros fd q'. rewrite lookup_delete. case_decide as E; [done|]. intros Hq'.
    assert (q' <> ptr) by (intros ->; by apply (poll_inv_unique _ _ _ _ _ Hinv Hc) in Hq').
    destruct (decide (q' = q)) as [->|Hne].
    + assert (fd = realfd (pfd_fd back)) as ->
        by (apply (poll_inv_unique _ _ _ _ _ Hinv Hcq) in Hq'; congruence).
      exists (Channel.set_index (Z.of_nat i) cq), i, back. by rewrite lookup_insert_eq.
    + destruct (proj1 Hinv _ _ Hq') as (cj&j&pfdj&Hcj&Hfj&Hbj&Hvj&Hj&Hpj&Hsj).
      exists cj, j, pfdj. rewrite !lookup_insert_ne by done. rewrite Hlk; [done|..].
      * apply lookup_lt_Some in Hpj as ?. assert (j <> n - 1)%nat; [|lia]. intros ->.
        assert (pfdj = back) as -> by congruence.
        assert (realfd (pfd_fd back) = fd) by eauto using inv_slot_unique. congruence.
      * intros ->. assert (realfd (pfd_fd pfdj) = Channel.fd_ c) by eauto using inv_slot_unique.
        rewrite (realfd_slot cj) in * by (done || lia). congruence.
  - intros j pfdj Hj. apply lookup_lt_Some in Hj as Hlt.
    rewrite length_take, length_insert in Hlt. fold n in Hlt.
    destruct (decide (j = i)) as [->|Hne].
    + rewrite Hlki in Hj. injection Hj as <-. exists q, (Channel.set_index (Z.of_nat i) cq).
      by rewrite lookup_insert_eq, lookup_delete_ne.
    + rewrite Hlk in Hj by lia. destruct (proj2 Hinv _ _ Hj) as (q'&c2&Hq'&Hc2&Hx2).
      assert (q' <> ptr) by (intros ->; assert (c2 = c) as -> by congruence; lia).
      assert (q' <> q) by (intros ->; assert (c2 = cq) as -> by congruence; lia).
      exists q', c2. rewrite !lookup_insert_ne, lookup_delete_ne by congruence. done.
Qed.

Lemma pop_swapped (l : list pollfd) i back x :
  (i < length l - 1)%nat ->
  take (length l - 1) (<[i := back]> (<[(length l - 1)%nat := x]> l)) = take (length l - 1) (<[i := back]> l).
Proof.
  intros. rewrite list_insert_insert_ne by lia. by rewrite take_insert_ge.
Qed.

(** [removeChannel] on a registered channel that watches nothing: no check
    fails, and at most one other channel, a registered one, gets a new index. *)
Lemma poll_removeChannel_spec h p ptr c c' :
  inv h p -> h !! ptr = Some c -> channels p !! Channel.fd_ c = Some ptr -> Channel.events_ c = 0 ->
  c' = Channel.set_added false c ->
  exists h' p', removeChannel ptr (<[ptr := c']> h) p = Ok (h', p') /\
    inv h' p' /\ channels p' = delete (Channel.fd_ c) (channels p) /\
    (h' = <[ptr := c']> h \/ exists q cq idx fd, q <> ptr /\ channels p !! fd = Some q /\ h !! q = Some cq /\
       h' = <[q := Channel.set_index idx cq]> (<[ptr := c']> h)).
Proof.
  intros Hinv Hc Hreg He ->. set (c' := Channel.set_added false c).
  destruct (proj1 Hinv _ _ Hreg) as (c0&i&pfd&Hc0&_&Hb&_&Hi&Hp&Hs).
  assert (c0 = c) as -> by congruence.
  unfold removeChannel, deref. rewrite lookup_insert_eq. cbn.
  rewrite (bool_decide_eq_true_2 (_ <> _)) by congruence.
  rewrite (bool_decide_eq_true_2 (_ = Some ptr)) by done.
  unfold Channel.isNoneEvent. cbn. rewrite He, Hi. cbn.
  apply lookup_lt_Some in Hp as Hlt. pose proof (inv_size h p Hinv) as Hsz.
  rewrite (pollfds_size_eq h) by done. assert_ok by (zbool; unfold zlen; lia).
  rewrite Nat2Z.id, Hp.
  destruct (last (pollfds_ p)) as [back|] eqn:Hlast; [|apply last_None in Hlast; by rewrite Hlast in Hp].
  rewrite last_lookup in Hlast. replace (pred (length (pollfds_ p))) with (length (pollfds_ p) - 1)%nat in * by lia.
  destruct Hs as (Hs1&Hs2). rewrite He in Hs1, Hs2. assert_ok by (zbool; cbn in *; lia).
  unfold u64, max_fd, zlen in *. rewrite !uwrap_small by (unfold urange; lia).
  destruct (Z.eqb_spec (Z.of_nat i) (Z.of_nat (length (pollfds_ p)) - 1)).
  - do 2 eexists. split; [done|]. split; [|split; [done|by left]].
    eapply inv_remove_last; eauto. lia.
  - fold (realfd (pfd_fd back)). destruct (proj2 Hinv _ _ Hlast) as (q&cq&Hq&Hcq&Hxq).
    assert (q <> ptr) as Hqp by (intros ->; assert (cq = c) as -> by congruence; lia).
    rewrite lookup_delete_ne by congruence. rewrite Hq. rewrite lookup_insert_ne, Hcq by done. cbn.
    rewrite pop_swapped by lia.
    do 2 eexists. split; [done|]. split; [eapply inv_remove_swap; eauto; lia|]. split; [done|].
    right. by exists q, cq, (Z.of_nat i), (realfd (pfd_fd back)).
Qed.

Lemma poll_watches_inv h p : inv h p -> forall fd ev,
  watches p fd ev <-> ev <> 0 /\ exists ptr c,
    channels p !! fd = Some ptr /\ h !! ptr = Some c /\ Channel.fd_ c = fd /\ Channel.events_ c = ev.
Proof.
  intros Hinv fd ev. unfold watches. split.
  - intros (Hne&Hfd&i&pfd&Hi&Hf&He). split; [done|].
    destruct (inv_slot _ _ _ _ Hinv Hi) as (ptr&c&Hq&Hc&_&Hb&Hv&Hs1&Hs2).
    rewrite He in Hs2. rewrite <- Hs2 in Hs1. apply Z.eqb_neq in Hne. rewrite Hne in Hs1.
    exists ptr, c. rewrite Hs1 in Hf. by subst fd.
  - intros (Hne&ptr&c&Hq&Hc&Hf&He). split; [done|].
    destruct (proj1 Hinv _ _ Hq) as (c0&i&pfd&Hc0&_&Hb&_&Hi&Hp&Hs1&Hs2).
    assert (c0 = c) as -> by congruence. split; [lia|]. exists i, pfd.
    rewrite He in Hs1, Hs2. apply Z.eqb_neq in Hne. rewrite Hne in Hs1. by rewrite Hs1.
Qed.

#[export] Instance poll_spec : PollerSpec t.
Proof.
  refine {| NetPoller.inv := inv; NetPoller.watches := watches; watches_spec := poll_watches_inv |}.
  - intros h p Hinv fd ptr Hq. destruct (proj1 Hinv _ _ Hq) as (c&?&?&?&?&_). eauto.
  - intros h p ptr c c' (H1&H2) Hc Hf He Hi. split.
    + intros fd q Hq. destruct (H1 _ _ Hq) as (cq&j&pfd&Hcq&Hrest).
      destruct (decide (q = ptr)) as [->|].
      * assert (cq = c) as -> by congruence. exists c', j, pfd. rewrite lookup_insert_eq.
        unfold slot_ok in *. by rewrite Hf, He, Hi.
      * exists cq, j, pfd. by rewrite lookup_insert_ne.
    + intros j pfd Hj. destruct (H2 _ _ Hj) as (q&cq&Hq&Hcq&Hx).
      destruct (decide (q = ptr)) as [->|].
      * assert (cq = c) as -> by congruence. exists ptr, c'. by rewrite lookup_insert_eq, Hi.
      * exists q, cq. by rewrite lookup_insert_ne.
  - intros h p ptr c ev c' Hinv Hc Hv Hreg Hc'. cbn.
    destruct (poll_updateChannel_spec h p ptr c ev c' Hinv Hc Hv Hreg Hc') as (idx&p'&->&Hi&Hch).
    cbn. split_and!; try done; [apply same_but_index_insert|].
    intros q Hq _. by rewrite lookup_insert_ne.
  - intros h p ptr c Hinv Hc Hreg He. cbn.
    destruct (poll_removeChannel_spec h p ptr c _ Hinv Hc Hreg He eq_refl) as (h'&p'&->&Hi&Hch&Hh).
    cbn. split_and!; try done; destruct Hh as [->|(q&cq&idx&fd&Hne&Hq&Hcq&->)].
    + apply same_but_index_refl.
    + assert (<[ptr := Channel.set_added false c]> h !! q = Some cq) as E by by rewrite lookup_insert_ne.
      rewrite <- (alter_set_index _ q cq idx E). apply same_but_index_alter.
    + intros r Hr _. by rewrite lookup_insert_ne.
    + intros r Hr Hno. rewrite !lookup_insert_ne; [done|done|]. intros ->. by apply (Hno fd).
Defined.

(** PollPoller has no fatal log line. *)
Definition not_fatal {A} (m : outcome A) : Prop := forall w, m <> Err (LogFatal w).

Lemma not_fatal_bind {A B} (m : outcome A) (f : A -> outcome B) :
  not_fatal m -> (forall a, not_fatal (f a)) -> not_fatal (m ≫= f).
Proof. intros Hm Hf w. destruct m as [a|e]; cbn; [apply Hf|]. intros [= ->]. by apply (Hm w). Qed.
Lemma not_fatal_ok {A} (a : A) : not_fatal (Ok a).
Proof. intros w. done. Qed.
Lemma not_fatal_massert b s : not_fatal (massert b s).
Proof. intros w. by destruct b. Qed.
Lemma not_fatal_deref ptr h : not_fatal (deref ptr h).
Proof. intros w. unfold deref. by destruct (h !! ptr). Qed.
#[local] Hint Resolve not_fatal_bind not_fatal_ok not_fatal_massert not_fatal_deref : muduo.

Lemma chan_step_not_fatal (hp : heap * t) cmd : not_fatal (chan_step hp cmd).
Proof.
  destruct cmd as [op ptr|ptr]; cbn; unfold change_events, update, remove; cbn;
    unfold updateChannel, removeChannel; repeat (apply not_fatal_bind; [auto with muduo|intros ?]).
  - destruct (_ <? 0); repeat (apply not_fatal_bind; [auto with muduo|intros ?]); [auto with muduo|].
    destruct (_ !! _); [|intros w; done]. apply not_fatal_bind; auto with muduo.
  - destruct (_ !! _) as [pfd|]; [|intros w; done]. destruct (last _); [|intros w; done].
    apply not_fatal_bind; [auto with muduo|]. intros _.
    destruct (_ =? _); [auto with muduo|]. destruct (delete _ _ !! _); [|intros w; done].
    apply not_fatal_bind; auto with muduo.
Qed.

Lemma chan_run_not_fatal cmds (hp : heap * t) : not_fatal (chan_run cmds hp).
Proof.
  revert hp. induction cmds as [|cmd cmds IH]; intros hp; cbn; [apply not_fatal_ok|].
  apply not_fatal_bind; [apply chan_step_not_fatal|apply IH].
Qed.

Lemma ok_or_fatal_ok {A} (m : outcome A) Q :
  not_fatal m -> ok_or_fatal m Q -> exists a, m = Ok a /\ Q a.
Proof.
  intros Hm. destruct m as [a|[| | |]]; cbn; try done; [eauto|]. intros _. by destruct (Hm what).
Qed.

(** What poll(2) may write: only [revents], and only where the descriptor is
    not negative. *)
Definition poll_result (old new : list pollfd) : Prop :=
  Forall2 (fun a b => pfd_fd b = pfd_fd a /\ pfd_events b = pfd_events a /\
                      (0 < pfd_revents b -> 0 <= pfd_fd a)) old new.

Definition ready (pfds : list pollfd) : list pollfd := filter (fun x => 0 < pfd_revents x) pfds.

(** The channels of the ready slots, and the heap with their events stored. *)
Definition ready_ptrs (p : t) (pfds : list pollfd) : list Z :=
  omap (fun x => channels p !! pfd_fd x) (ready pfds).
Definition store_revents (p : t) (pfds : list pollfd) (h : heap) : heap :=
  foldl (fun h x => match channels p !! pfd_fd x with
                    | Some ptr => alter (Channel.set_revents (pfd_revents x)) ptr h
                    | None => h end) h (ready pfds).

Lemma poll_inv_revents h p ptr r : inv h p -> inv (alter (Channel.set_revents r) ptr h) p.
Proof.
  intros (H1&H2). split.
  - intros fd q Hq. destruct (H1 _ _ Hq) as (c&j&pfd&Hc&Hrest).
    rewrite lookup_alter. case_decide; [subst q; rewrite Hc|]; cbn; eauto 10.
  - intros j pfd Hj. destruct (H2 _ _ Hj) as (q&c&Hq&Hc&Hx). exists q.
    rewrite lookup_alter. case_decide; [subst q; rewrite Hc|]; cbn; eauto.
Qed.

(** Every descriptor the kernel may report is a registered channel's. *)
Lemma poll_result_ready h p pfds :
  inv h p -> poll_result (pollfds_ p) pfds ->
  Forall (fun x => 0 < pfd_revents x -> exists ptr c,
    channels p !! pfd_fd x = Some ptr /\ h !! ptr = Some c /\ Channel.fd_ c = pfd_fd x) pfds.
Proof.
  intros Hinv Hres. apply Forall_lookup. intros i x Hx Hpos.
  destruct (Forall2_lookup_r _ _ _ _ _ Hres Hx) as (y&Hy&Hfd&_&Hnn).
  destruct (inv_slot _ _ _ _ Hinv Hy) as (ptr&c&Hq&Hc&_&Hb&_&Hs1&_).
  exists ptr, c. specialize (Hnn Hpos). rewrite Hfd.
  destruct (Channel.events_ c =? 0); [lia|]. by rewrite Hs1.
Qed.

Lemma inv_pollfds h p pfds : inv h p -> poll_result (pollfds_ p) pfds -> inv h (mk (channels p) pfds).
Proof.
  intros (H1&H2) Hres. split; cbn.
  - intros fd q Hq. destruct (H1 _ _ Hq) as (c&j&pfd&?&?&?&?&?&Hj&Hs1&Hs2).
    destruct (Forall2_lookup_l _ _ _ _ _ Hres Hj) as (y&Hy&Hf&He&_).
    exists c, j, y. unfold slot_ok. by rewrite Hf, He.
  - intros j pfd Hj. destruct (Forall2_lookup_r _ _ _ _ _ Hres Hj) as (y&Hy&Hf&He&_).
    rewrite Hf. by apply H2.
Qed.

Lemma ready_cons x pfds : ready (x :: pfds) = if 0 <? pfd_revents x then x :: ready pfds else ready pfds.
Proof.
  unfold ready. rewrite filter_cons.
  destruct (Z.ltb_spec 0 (pfd_revents x)); [by rewrite decide_True|by rewrite decide_False by lia].
Qed.

Lemma fillActiveChannels_ok pfds n p h active :
  Forall (fun x => 0 < pfd_revents x -> exists ptr c,
    channels p !! pfd_fd x = Some ptr /\ h !! ptr = Some c /\ Channel.fd_ c = pfd_fd x) pfds ->
  n = zlen (ready pfds) ->
  fillActiveChannels pfds n p h active = Ok (store_revents p pfds h, active ++ ready_ptrs p pfds).
Proof.
  revert n h active. induction pfds as [|x pfds IH]; intros n h active Hall Hn; cbn [fillActiveChannels].
  { by rewrite app_nil_r. }
  apply Forall_cons in Hall as [Hx Hall]. unfold ready_ptrs, store_revents in *.
  rewrite ready_cons in *. pose proof (zlen_nonneg (ready pfds)).
  destruct (Z.ltb_spec 0 (pfd_revents x)) as [Hpos|Hnp].
  - destruct (Hx Hpos) as (ptr&c&Hq&Hc&Hf). rewrite zlen_cons in Hn.
    destruct (Z.ltb_spec 0 n); [|lia]. rewrite Hq. unfold deref. rewrite Hc. cbn.
    assert_ok by (zbool; lia). rewrite (IH (n - 1)); [|..|lia].
    + rewrite <- app_assoc. cbn. by rewrite Hq.
    + eapply Forall_impl; [exact Hall|]. intros y Hy Hpy. destruct (Hy Hpy) as (py&cy&Hqy&Hcy&Hfy).
      exists py. rewrite lookup_alter. case_decide; [subst py; rewrite Hcy|]; cbn; eauto.
  - destruct (Z.ltb_spec 0 n); [by apply IH|].
    rewrite (zlen_lt_0 (ready pfds)) by lia. cbn. by rewrite app_nil_r.
Qed.

Lemma inv_store_revents h p pfds : inv h p -> inv (store_revents p pfds h) p.
Proof.
  unfold store_revents. generalize (ready pfds) as l. intros l. revert h.
  induction l as [|x l IH]; intros h Hinv; cbn; [done|]. apply IH.
  destruct (channels p !! pfd_fd x); [by apply poll_inv_revents|done].
Qed.

(** * Properties *)

(** C9: PollPoller watches exactly what its channels ask for.  From newly
    constructed channels and an empty array, any legal sequence of
    [enable]/[disable] and [remove] calls succeeds, through every
    swap-with-last removal, and then poll(2) is asked for event mask [ev] on a
    descriptor exactly when a channel of that descriptor is registered with
    these events. *)
Theorem poll_watches_what_channels_ask fdof cmds s h s' :
  (forall ptr st, s !! ptr = Some st ->
     st = Fresh /\ h !! ptr = Some (Channel.new_ (fdof ptr)) /\ 0 <= fdof ptr < max_fd) ->
  client_run fdof cmds s = Some s' ->
  exists h' p', chan_run cmds (h, new_) = Ok (h', p') /\ forall fd ev,
    watches p' fd ev <-> ev <> 0 /\ exists ptr, s' !! ptr = Some (Added ev) /\ fdof ptr = fd.
Proof.
  intros Hs Hrun.
  destruct (ok_or_fatal_ok (chan_run cmds (h, new_)) (fun '(h', p') => agrees fdof s' h' p'))
    as ([h' p']&Heq&Hag).
  - apply chan_run_not_fatal.
  - eapply chan_run_agrees; [apply agrees_fresh|exact Hrun]; try done.
  - exists h', p'. split; [done|]. intros fd ev. exact (agrees_watches fdof s' h' p' fd ev Hag).
Qed.

Definition witness_fdof (ptr : Z) : Z := ptr - 100.
Definition witness_state : gmap Z chan_state := {[105 := Fresh; 106 := Fresh]}.
Definition witness_heap : heap := {[105 := Channel.new_ 5; 106 := Channel.new_ 6]}.
Definition witness_cmds : list chan_cmd :=
  [Change Channel.EnableReading 105; Change Channel.EnableWriting 106;
   Change Channel.DisableAll 105; Remove 105; Change Channel.EnableReading 106].

Lemma poll_watches_what_channels_ask_witness :
  exists h' p', chan_run witness_cmds (witness_heap, new_) = Ok (h', p') /\
    pollfds_ p' = [mkfd 6 7 0] /\ Channel.index_ <$> h' !! 106 = Some 0 /\
    (watches p' 6 7 <-> 7 <> 0 /\ exists ptr,
       (<[106 := Added 7]> (<[105 := Gone]> witness_state)) !! ptr = Some (Added 7) /\ witness_fdof ptr = 6).
Proof.
  destruct (poll_watches_what_channels_ask witness_fdof witness_cmds witness_state witness_heap
    (<[106 := Added 7]> (<[105 := Gone]> witness_state))) as (h'&p'&E&Hw).
  - intros ptr st. unfold witness_state. rewrite lookup_insert. case_decide as D.
    + intros [= <-]. subst. split_and!; [done|vm_compute; reflexivity|vm_compute; discriminate|reflexivity].
    + rewrite lookup_singleton. case_decide; [|done]. intros [= <-]. subst.
      split_and!; [done|vm_compute; reflexivity|vm_compute; discriminate|reflexivity].
  - vm_compute. reflexivity.
  - exists h', p'. split; [exact E|]. vm_compute in E. injection E as <- <-.
    split; [reflexivity|]. split; [reflexivity|]. apply Hw.
Defined.

(** [PollPoller::poll] hands the loop exactly the channels whose slot
    poll(2) marked, in array order, with [revents_] set to the reported events;
    the look-ups and descriptor checks of [fillActiveChannels] never fail. *)
Theorem poll_poll_reports_ready_channels sys_poll h (p : t) n pfds :
  inv h p -> sys_poll (pollfds_ p) = (n, pfds) -> 0 <= n ->
  poll_result (pollfds_ p) pfds -> n = zlen (ready pfds) ->
  poll sys_poll h p = Ok (store_revents p pfds h, mk (channels p) pfds, ready_ptrs p pfds) /\
  inv (store_revents p pfds h) (mk (channels p) pfds) /\
  zlen (ready_ptrs p pfds) = n.
Proof.
  intros Hinv Hsys Hn Hres Hlen. assert (Hall := poll_result_ready _ _ _ Hinv Hres).
  split; [|split].
  - unfold poll. rewrite Hsys. destruct (Z.ltb_spec 0 n).
    + rewrite (fillActiveChannels_ok pfds n (mk (channels p) pfds) h []) by done. done.
    + unfold store_revents, ready_ptrs. rewrite (zlen_lt_0 (ready pfds)) by lia. done.
  - apply (inv_store_revents h (mk (channels p) pfds) pfds). by apply inv_pollfds.
  - rewrite Hlen. unfold zlen, ready_ptrs. f_equal. unfold ready. clear - Hall.
    induction Hall as [|x l Hx _ IH]; [done|]. rewrite filter_cons.
    case_decide; [|done]. cbn. destruct (Hx H) as (ptr&c&->&_). cbn. by rewrite IH.
Qed.

Lemma poll_poll_reports_ready_channels_witness :
  poll (fun l => (1, [mkfd 5 3 1; mkfd (-7) 0 0]))
    {[105 := Channel.set_index 0 (Channel.set_events 3 (Channel.new_ 5));
      106 := Channel.set_index 1 (Channel.new_ 6)]}
    (mk {[5 := 105; 6 := 106]} [mkfd 5 3 0; mkfd (-7) 0 0])
  = Ok ({[105 := Channel.set_revents 1 (Channel.set_index 0 (Channel.set_events 3 (Channel.new_ 5)));
          106 := Channel.set_index 1 (Channel.new_ 6)]},
        mk {[5 := 105; 6 := 106]} [mkfd 5 3 1; mkfd (-7) 0 0], [105]).
Proof.
  etransitivity; [apply (poll_poll_reports_ready_channels _ _ _ 1 [mkfd 5 3 1; mkfd (-7) 0 0])|].
  - split; cbn.
    + intros fd ptr. rewrite lookup_insert. case_decide; [|rewrite lookup_singleton; case_decide; [|done]];
        intros [= <-]; subst.
      * exists (Channel.set_index 0 (Channel.set_events 3 (Channel.new_ 5))), 0%nat, (mkfd 5 3 0).
        split_and!; try done. by right; left.
      * exists (Channel.set_index 1 (Channel.new_ 6)), 1%nat, (mkfd (-7) 0 0).
        split_and!; try done. by left.
    + intros [|[|i]] pfd; [| |done]; intros [= <-]; do 2 eexists; split_and!; reflexivity.
  - reflexivity.
  - lia.
  - repeat constructor; cbn; lia.
  - reflexivity.
  - vm_compute. reflexivity.
Defined.

(** A channel whose first [update] asks for no event cannot be removed
    from PollPoller: the new-channel branch of [updateChannel] stores the plain
    descriptor even though the channel watches nothing, and [removeChannel]
    asserts the negated one.  ([~Acceptor] without [listen] is such a
    sequence.) *)
Theorem poll_never_armed_channel_cannot_be_removed h (p : t) ptr c :
  inv h p -> h !! ptr = Some c -> Channel.index_ c = -1 -> channels p !! Channel.fd_ c = None ->
  0 <= Channel.fd_ c < max_fd -> zlen (pollfds_ p) < max_fd ->
  chan_run [Change Channel.DisableAll ptr; Remove ptr] (h, p) =
  Err (AssertFail "pfd.fd == -fd-1 && pfd.events == channel->events()").
Proof.
  intros Hinv Hc Hidx Hnone Hb Hsz. unfold chan_run. cbn [foldM chan_step fst snd].
  unfold change_events, update, remove, deref. rewrite Hc. cbn. rewrite !lookup_insert_eq. cbn.
  unfold updateChannel, deref. rewrite lookup_insert_eq. cbn. rewrite Hidx. cbn.
  rewrite (bool_decide_eq_true_2 (_ = None)) by done. cbn.
  rewrite !lookup_alter_eq, !lookup_insert_eq. cbn. unfold removeChannel, deref.
  rewrite !lookup_insert_eq. cbn. rewrite !lookup_insert_eq.
  rewrite (bool_decide_eq_true_2 (_ <> _)) by congruence.
  rewrite (bool_decide_eq_true_2 (_ = Some ptr)) by done. cbn.
  unfold pollfds_size, i32, max_fd in *. cbn [pollfds_].
  rewrite (swrap_small 32 (zlen _)) by (lia || (unfold srange; zlia)).
  rewrite swrap_small by (lia || (unfold srange; zlia)). assert_ok.
  autorewrite with zlen. unfold zlen. replace (Z.to_nat _) with (length (pollfds_ p)) by lia.
  rewrite lookup_app_r, Nat.sub_diag, last_snoc by done. cbn.
  destruct (Z.eqb_spec (Channel.fd_ c) (- Channel.fd_ c - 1)); [lia|]. done.
Qed.

Lemma poll_never_armed_channel_cannot_be_removed_witness :
  chan_run [Change Channel.DisableAll 105; Remove 105] ({[105 := Channel.new_ 5]}, new_) =
  Err (AssertFail "pfd.fd == -fd-1 && pfd.events == channel->events()").
Proof.
  apply (poll_never_armed_channel_cannot_be_removed _ _ 105 (Channel.new_ 5)); try done.
Defined.

(** A channel removed from PollPoller cannot be added again: its [index_]
    is not reset, so the next [enableReading] takes the update branch and its
    descriptor is no longer known.  (EPollPoller resets the index to [kNew].) *)
Theorem poll_removed_channel_cannot_be_readded h (p : t) ptr c :
  inv h p -> h !! ptr = Some c -> channels p !! Channel.fd_ c = Some ptr -> Channel.events_ c = 0 ->
  chan_run [Remove ptr; Change Channel.EnableReading ptr] (h, p) =
  Err (AssertFail "channels_.find(fd) != channels_.end()").
Proof.
  intros Hinv Hc Hreg He. unfold chan_run. cbn [foldM chan_step fst snd].
  destruct (proj1 Hinv _ _ Hreg) as (c0&i&pfd&Hc0&_&_&_&Hi&_).
  assert (c0 = c) as -> by congruence.
  unfold remove, deref at 1. rewrite Hc. cbn. unfold Channel.isNoneEvent. rewrite He. cbn.
  destruct (poll_removeChannel_spec h p ptr c _ Hinv Hc Hreg He eq_refl) as (h'&p'&->&_&Hch&Hh). cbn.
  assert (h' !! ptr = Some (Channel.set_added false c)) as Hl.
  { destruct Hh as [->|(q&cq&idx&fd&Hne&_&_&->)]; [by rewrite lookup_insert_eq|].
    by rewrite lookup_insert_ne, lookup_insert_eq. }
  unfold change_events, update, deref. rewrite Hl. cbn. rewrite lookup_insert_eq. cbn.
  unfold updateChannel, deref. rewrite lookup_insert_eq. cbn. rewrite Hi.
  destruct (Z.ltb_spec (Z.of_nat i) 0); [lia|].
  rewrite Hch, lookup_delete_eq. done.
Qed.

Lemma poll_removed_channel_cannot_be_readded_witness :
  chan_run [Remove 105; Change Channel.EnableReading 105]
    ({[105 := Channel.set_index 0 (Channel.new_ 5)]}, mk {[5 := 105]} [mkfd (-6) 0 0]) =
  Err (AssertFail "channels_.find(fd) != channels_.end()").
Proof.
  apply (poll_removed_channel_cannot_be_readded _ _ 105 (Channel.set_index 0 (Channel.new_ 5))); try done.
  split; cbn.
  - intros fd ptr. rewrite lookup_singleton. case_decide; [|done]. intros [= <-]. subst.
    eexists _, 0%nat, _. split_and!; try reflexivity; try done. by left.
  - intros [|i] pfd; [|done]. intros [= <-]. do 2 eexists; split_and!; reflexivity.
Defined.

End PollPoller.
