(* ===== verification/NetDefaultPoller.v ===== *)
(** src/muduo/net/poller/DefaultPoller.cc: [Poller::newDefaultPoller], and the
    virtual calls on the poller it returns.

    A poller of either class is a sum; its operations dispatch to the class, and
    the sum meets the same interface [PollerSpec] as the two classes, so that
    whatever is proved against the interface holds for the loop's poller
    whatever the environment says. *)

From S2P Require Import Prelude NetChannel NetPoller NetEPoll NetPoll.

Module DefaultPoller.
#[local] Existing Instances PollPoller.poll_ops PollPoller.poll_spec EPollPoller.epoll_ops EPollPoller.epoll_spec.

Section DefaultPoller.
Context {K : Type} {HK : EPollPoller.EpollKernel K}.

Inductive t := UsesPoll (p : PollPoller.t) | UsesEPoll (p : EPollPoller.t K).

(** [epoll_create] is the new epoll instance, [MUDUO_USE_POLL] the value of the
    variable if it is set. *)
Definition newDefaultPoller (MUDUO_USE_POLL : option bytes) (epoll_create : K) : t :=
  match MUDUO_USE_POLL with
  | Some _ => UsesPoll PollPoller.new_
  | None => UsesEPoll (EPollPoller.new_ epoll_create)
  end.

(** The virtual calls. *)
Definition channels (p : t) : gmap Z Z :=
  match p with UsesPoll p => PollPoller.channels p | UsesEPoll p => EPollPoller.channels p end.
Definition updateChannel (ptr : Z) (h : heap) (p : t) : outcome (heap * t) :=
  match p with
  | UsesPoll p => '(h, p) ← PollPoller.updateChannel ptr h p; Ok (h, UsesPoll p)
  | UsesEPoll p => '(h, p) ← EPollPoller.updateChannel ptr h p; Ok (h, UsesEPoll p)
  end.
Definition removeChannel (ptr : Z) (h : heap) (p : t) : outcome (heap * t) :=
  match p with
  | UsesPoll p => '(h, p) ← PollPoller.removeChannel ptr h p; Ok (h, UsesPoll p)
  | UsesEPoll p => '(h, p) ← EPollPoller.removeChannel ptr h p; Ok (h, UsesEPoll p)
  end.
Definition poll (sys_poll : list PollPoller.pollfd -> Z * list PollPoller.pollfd)
    (epoll_wait : Z -> Z * list (Z * Z)) (h : heap) (p : t) : outcome (heap * t * list Z) :=
  match p with
  | UsesPoll p => '(h, p, active) ← PollPoller.poll sys_poll h p; Ok (h, UsesPoll p, active)
  | UsesEPoll p => '(h, p, active) ← EPollPoller.poll epoll_wait h p; Ok (h, UsesEPoll p, active)
  end.

#[export] Instance default_ops : PollerOps t :=
  {| channels_ := channels; NetPoller.updateChannel := updateChannel; NetPoller.removeChannel := removeChannel |}.

(** * The interface *)

Definition inv (h : heap) (p : t) : Prop :=
  match p with UsesPoll p => PollPoller.inv h p | UsesEPoll p => EPollPoller.inv h p end.
Definition watches (p : t) (fd ev : Z) : Prop :=
  match p with UsesPoll p => PollPoller.watches p fd ev | UsesEPoll p => EPollPoller.watches p fd ev end.

(** A result in one class, seen in the sum. *)
Lemma ok_or_fatal_wrap {P} (wrap : P -> t) (m : outcome (heap * P)) (Q : heap * P -> Prop) (R : heap * t -> Prop) :
  ok_or_fatal m Q -> (forall h p, Q (h, p) -> R (h, wrap p)) ->
  ok_or_fatal ('(h, p) ← m; Ok (h, wrap p)) R.
Proof.
  intros Hm HR. apply ok_or_fatal_bind. eapply ok_or_fatal_mono; [exact Hm|]. intros [h p] HQ. by apply HR.
Qed.

#[export] Instance default_spec : PollerSpec t.
Proof.
  refine {| NetPoller.inv := inv; NetPoller.watches := watches |}.
  - intros h [p|p] Hinv; exact (NetPoller.watches_spec h p Hinv).
  - intros h [p|p] Hinv; exact (NetPoller.channels_spec h p Hinv).
  - intros h [p|p]; exact (NetPoller.inv_frame h p).
  - intros h [p|p] ptr c ev c' Hinv Hc Hv Hreg Hc'; cbn [NetPoller.updateChannel default_ops updateChannel].
    + eapply ok_or_fatal_wrap; [exact (NetPoller.update_spec h p ptr c ev c' Hinv Hc Hv Hreg Hc')|]. by intros h' p' ?.
    + eapply ok_or_fatal_wrap; [exact (NetPoller.update_spec h p ptr c ev c' Hinv Hc Hv Hreg Hc')|]. by intros h' p' ?.
  - intros h [p|p] ptr c Hinv Hc Hreg He; cbn [NetPoller.removeChannel default_ops removeChannel].
    + eapply ok_or_fatal_wrap; [exact (NetPoller.remove_spec h p ptr c Hinv Hc Hreg He)|]. by intros h' p' ?.
    + eapply ok_or_fatal_wrap; [exact (NetPoller.remove_spec h p ptr c Hinv Hc Hreg He)|]. by intros h' p' ?.
Defined.

(** * Theorems *)

(** Whatever the environment says, the loop's poller watches exactly what its
    channels ask for: after any legal sequence of calls on new channels no
    assertion has failed, and event mask [ev] is watched on a descriptor exactly
    when a channel of that descriptor is registered with these events. *)
Theorem default_poller_watches_what_channels_ask env fdof cmds s h (k : K) s' :
  EPollPoller.interest k = ∅ ->
  (forall ptr st, s !! ptr = Some st ->
     st = Fresh /\ h !! ptr = Some (Channel.new_ (fdof ptr)) /\ 0 <= fdof ptr < max_fd) ->
  client_run fdof cmds s = Some s' ->
  ok_or_fatal (chan_run cmds (h, newDefaultPoller env k)) (fun '(h', p') => forall fd ev,
    watches p' fd ev <-> ev <> 0 /\ exists ptr, s' !! ptr = Some (Added ev) /\ fdof ptr = fd).
Proof.
  intros Hk Hs Hrun.
  eapply ok_or_fatal_mono; [eapply chan_run_agrees; [apply agrees_fresh|exact Hrun]|]; try done.
  - destruct env; [|split; cbn; [done|]; intros; by rewrite Hk].
    split; cbn; intros i q Hq; by first [rewrite lookup_empty in Hq|rewrite lookup_nil in Hq].
  - by destruct env.
  - intros [h' p'] Hag fd ev. exact (agrees_watches fdof s' h' p' fd ev Hag).
Qed.

End DefaultPoller.
End DefaultPoller.
