(* ===== verification/NetEventLoop.v ===== *)
(** src/muduo/net/EventLoop.h and EventLoop.cc: the reactor, as an interleaving
    of its loop thread with any number of other threads.

    [pc] says where the loop thread is inside [loop()]; the code it runs
    (channel callbacks, functors, the program around [loop()]) is a script of
    calls on the loop, one call per step, so other threads can act in between.
    A call of another thread takes two steps, as in the code: [queueInLoop] up
    to its locked [push_back] (or [quit] up to the write of [quit_]) with the
    decision to wake the loop up, then the write to the eventfd; [waking] counts
    the threads between the two.  [submitted] and [started] are
    ghosts: the functors queued and those whose execution has begun.  The
    poller is seen through what NetPoller proves of it: [channels] is the set
    of registered channels, and poll(2) returns registered channels, the
    wake-up channel among them exactly when the eventfd is readable. *)

From S2P Require Import Prelude BaseTimestamp NetChannel NetPoller.

Module EventLoop.

(** Calls a callback makes on its own loop. *)
Inductive cmd :=
| CQueueInLoop (f : Z)
| CRunInLoop (f : Z)
| CQuit
| CLoop
| CUpdateChannel (ch : Z)
| CRemoveChannel (ch : Z)
| CHandleRead.

(** Where the loop thread is: outside [loop()] or before its loop test; in
    poll(2); calling the handlers of the active channels; between the handlers
    and [doPendingFunctors]; running the functors taken from the queue. *)
Inductive pc_t :=
| Outside (todo : list cmd)
| TestQuit
| Poll
| Handle (todo : list cmd) (rest : list Z)
| Swap
| Run (todo : list cmd) (rest : list Z).

Record t := mk {
  looping_ : bool;
  quit_ : bool;
  eventHandling_ : bool;
  callingPendingFunctors_ : bool;
  iteration_ : Z;
  pollReturnTime_ : Timestamp.t;
  activeChannels_ : list Z;
  currentActiveChannel_ : option Z;
  pendingFunctors_ : list Z;
  eventfd : Z;
  waking : nat;
  channels : gset Z;
  pc : pc_t;
  after : list cmd;
  submitted : list Z;
  started : list Z
}.

Definition set_pc x s := mk (looping_ s) (quit_ s) (eventHandling_ s) (callingPendingFunctors_ s) (iteration_ s)
  (pollReturnTime_ s) (activeChannels_ s) (currentActiveChannel_ s) (pendingFunctors_ s) (eventfd s) (waking s)
  (channels s) x (after s) (submitted s) (started s).
Definition set_quit x s := mk (looping_ s) x (eventHandling_ s) (callingPendingFunctors_ s) (iteration_ s)
  (pollReturnTime_ s) (activeChannels_ s) (currentActiveChannel_ s) (pendingFunctors_ s) (eventfd s) (waking s)
  (channels s) (pc s) (after s) (submitted s) (started s).
Definition set_eventfd x s := mk (looping_ s) (quit_ s) (eventHandling_ s) (callingPendingFunctors_ s) (iteration_ s)
  (pollReturnTime_ s) (activeChannels_ s) (currentActiveChannel_ s) (pendingFunctors_ s) x (waking s)
  (channels s) (pc s) (after s) (submitted s) (started s).
Definition set_waking x s := mk (looping_ s) (quit_ s) (eventHandling_ s) (callingPendingFunctors_ s) (iteration_ s)
  (pollReturnTime_ s) (activeChannels_ s) (currentActiveChannel_ s) (pendingFunctors_ s) (eventfd s) x
  (channels s) (pc s) (after s) (submitted s) (started s).
Definition set_channels x s := mk (looping_ s) (quit_ s) (eventHandling_ s) (callingPendingFunctors_ s) (iteration_ s)
  (pollReturnTime_ s) (activeChannels_ s) (currentActiveChannel_ s) (pendingFunctors_ s) (eventfd s) (waking s)
  x (pc s) (after s) (submitted s) (started s).
(** The locked [push_back]. *)
Definition push f s := mk (looping_ s) (quit_ s) (eventHandling_ s) (callingPendingFunctors_ s) (iteration_ s)
  (pollReturnTime_ s) (activeChannels_ s) (currentActiveChannel_ s) (pendingFunctors_ s ++ [f]) (eventfd s) (waking s)
  (channels s) (pc s) (after s) (submitted s ++ [f]) (started s).

(** The address of [wakeupChannel_]. *)
Definition wakeupChannel : Z := 0.
(** An eventfd counts up to this value; a further write fails with EAGAIN. *)
Definition eventfd_max : Z := 2 ^ 64 - 2.

(** The constructor: the wake-up channel is registered for reading. *)
Definition new_ : t := mk false false false false 0 0 [] None [] 0 0 {[wakeupChannel]} (Outside []) [] [] [].

(** A failed write is only logged. *)
Definition wakeup (s : t) : t :=
  if eventfd s + 1 <=? eventfd_max then set_eventfd (eventfd s + 1) s else s.
(** Reading an eventfd resets it. *)
Definition handleRead (s : t) : t := set_eventfd 0 s.

(** The call of [wakeup] by another thread: its write is a step of its own. *)
Definition call_wakeup (s : t) : t := set_waking (S (waking s)) s.

(** [wake] is the call of [wakeup]: at once in the loop thread, [call_wakeup]
    in another one. *)
Definition queueInLoop (wake : t -> t) (inLoop : bool) (f : Z) (s : t) : t :=
  let s := push f s in
  if negb inLoop || callingPendingFunctors_ s then wake s else s.
Definition queueSize (s : t) : Z := zlen (pendingFunctors_ s).

Definition quit (wake : t -> t) (inLoop : bool) (s : t) : t :=
  let s := set_quit true s in
  if inLoop then s else wake s.

Definition assertInLoopThread (inLoop : bool) : outcome unit :=
  if inLoop then Ok tt else Err (LogFatal "EventLoop::abortNotInLoopThread").

(** [loop()] up to its loop test; the caller goes on with [rest] afterwards. *)
Definition loop_begin (inLoop : bool) (rest : list cmd) (s : t) : outcome t :=
  massert (negb (looping_ s)) "!looping_";;
  assertInLoopThread inLoop;;
  Ok (mk true false (eventHandling_ s) (callingPendingFunctors_ s) (iteration_ s)
    (pollReturnTime_ s) (activeChannels_ s) (currentActiveChannel_ s) (pendingFunctors_ s) (eventfd s) (waking s)
    (channels s) TestQuit rest (submitted s) (started s)).

Definition updateChannel (inLoop : bool) (ch : Z) (s : t) : outcome t :=
  assertInLoopThread inLoop;; Ok (set_channels ({[ch]} ∪ channels s) s).

Definition removeChannel (inLoop : bool) (ch : Z) (s : t) : outcome t :=
  assertInLoopThread inLoop;;
  (if eventHandling_ s
   then massert (bool_decide (currentActiveChannel_ s = Some ch) || negb (bool_decide (ch ∈ activeChannels_ s)))
          "currentActiveChannel_ == channel || not active"
   else Ok tt);;
  Ok (set_channels (channels s ∖ {[ch]}) s).

Definition hasChannel (inLoop : bool) (ch : Z) (s : t) : outcome bool :=
  assertInLoopThread inLoop;; Ok (bool_decide (ch ∈ channels s)).

(** The loop test: leave, or clear the scratch list and poll. *)
Definition test_quit (s : t) : t :=
  if quit_ s
  then mk false (quit_ s) (eventHandling_ s) (callingPendingFunctors_ s) (iteration_ s) (pollReturnTime_ s)
    (activeChannels_ s) (currentActiveChannel_ s) (pendingFunctors_ s) (eventfd s) (waking s) (channels s)
    (Outside (after s)) [] (submitted s) (started s)
  else mk (looping_ s) (quit_ s) (eventHandling_ s) (callingPendingFunctors_ s) (iteration_ s) (pollReturnTime_ s)
    [] (currentActiveChannel_ s) (pendingFunctors_ s) (eventfd s) (waking s) (channels s)
    Poll (after s) (submitted s) (started s).

(** poll(2) returned. *)
Definition poll_return (now : Timestamp.t) (active : list Z) (s : t) : t :=
  mk (looping_ s) (quit_ s) true (callingPendingFunctors_ s) (i64 (iteration_ s + 1)) now active
    (currentActiveChannel_ s) (pendingFunctors_ s) (eventfd s) (waking s) (channels s) (Handle [] active) (after s)
    (submitted s) (started s).

Definition next_channel (script : list cmd) (ch : Z) (rest : list Z) (s : t) : t :=
  mk (looping_ s) (quit_ s) (eventHandling_ s) (callingPendingFunctors_ s) (iteration_ s) (pollReturnTime_ s)
    (activeChannels_ s) (Some ch) (pendingFunctors_ s) (eventfd s) (waking s) (channels s) (Handle script rest)
    (after s) (submitted s) (started s).
Definition channels_done (s : t) : t :=
  mk (looping_ s) (quit_ s) false (callingPendingFunctors_ s) (iteration_ s) (pollReturnTime_ s)
    (activeChannels_ s) None (pendingFunctors_ s) (eventfd s) (waking s) (channels s) Swap
    (after s) (submitted s) (started s).

(** [doPendingFunctors]: the flag and the locked swap, one functor, the end. *)
Definition swap_functors (s : t) : t :=
  mk (looping_ s) (quit_ s) (eventHandling_ s) true (iteration_ s) (pollReturnTime_ s)
    (activeChannels_ s) (currentActiveChannel_ s) [] (eventfd s) (waking s) (channels s) (Run [] (pendingFunctors_ s))
    (after s) (submitted s) (started s).
Definition next_functor (script : list cmd) (f : Z) (rest : list Z) (s : t) : t :=
  mk (looping_ s) (quit_ s) (eventHandling_ s) (callingPendingFunctors_ s) (iteration_ s) (pollReturnTime_ s)
    (activeChannels_ s) (currentActiveChannel_ s) (pendingFunctors_ s) (eventfd s) (waking s) (channels s)
    (Run script rest) (after s) (submitted s) (started s ++ [f]).
Definition functors_done (s : t) : t :=
  mk (looping_ s) (quit_ s) (eventHandling_ s) false (iteration_ s) (pollReturnTime_ s)
    (activeChannels_ s) (currentActiveChannel_ s) (pendingFunctors_ s) (eventfd s) (waking s) (channels s) TestQuit
    (after s) (submitted s) (started s).

Section Steps.
(** What user code does: the handler of a channel, the body of a functor. *)
Context (handler : t -> Z -> list cmd) (body : t -> Z -> list cmd).

Definition handleEvent (s : t) (ch : Z) : list cmd :=
  if ch =? wakeupChannel then [CHandleRead] else handler s ch.

Definition runInLoop (wake : t -> t) (inLoop : bool) (f : Z) (s : t) : list cmd * t :=
  if inLoop then (body s f, s) else ([], queueInLoop wake inLoop f s).

(** One call of the loop thread; [resume] is the rest of its script put back
    in place. *)
Definition run_cmd (resume : list cmd -> pc_t) (c : cmd) (cs : list cmd) (s : t) : outcome t :=
  match c with
  | CQueueInLoop f => Ok (set_pc (resume cs) (queueInLoop wakeup true f s))
  | CRunInLoop f => let '(script, s) := runInLoop wakeup true f s in Ok (set_pc (resume (script ++ cs)) s)
  | CQuit => Ok (set_pc (resume cs) (quit wakeup true s))
  | CLoop => loop_begin true cs s
  | CUpdateChannel ch => set_pc (resume cs) <$> updateChannel true ch s
  | CRemoveChannel ch => set_pc (resume cs) <$> removeChannel true ch s
  | CHandleRead => Ok (set_pc (resume cs) (handleRead s))
  end.

(** The next action of the loop thread; [None] while it waits in poll(2) or
    has nothing to do. *)
Definition loop_step (s : t) : option (outcome t) :=
  match pc s with
  | Outside [] => None
  | Outside (c :: cs) => Some (run_cmd Outside c cs s)
  | TestQuit => Some (Ok (test_quit s))
  | Poll => None
  | Handle (c :: cs) rest => Some (run_cmd (fun cs => Handle cs rest) c cs s)
  | Handle [] (ch :: rest) => Some (Ok (next_channel (handleEvent s ch) ch rest s))
  | Handle [] [] => Some (Ok (channels_done s))
  | Swap => Some (Ok (swap_functors s))
  | Run (c :: cs) rest => Some (run_cmd (fun cs => Run cs rest) c cs s)
  | Run [] (f :: rest) => Some (Ok (next_functor (body s f) f rest s))
  | Run [] [] => Some (Ok (functors_done s))
  end.

(** What poll(2) may report. *)
Definition pollable (active : list Z) (s : t) : Prop :=
  NoDup active /\ (forall ch, ch ∈ active -> ch ∈ channels s) /\ (wakeupChannel ∈ active <-> 0 < eventfd s).

Inductive step : t -> t -> Prop :=
| step_loop s s' : loop_step s = Some (Ok s') -> step s s'
| step_poll now active s : pc s = Poll -> pollable active s -> step s (poll_return now active s)
| step_program c s : pc s = Outside [] -> step s (set_pc (Outside [c]) s)
| step_queueInLoop f s : step s (queueInLoop call_wakeup false f s)
| step_runInLoop f s : step s (snd (runInLoop call_wakeup false f s))
| step_quit s : step s (quit call_wakeup false s)
| step_wakeup n s : waking s = S n -> step s (wakeup (set_waking n s)).

(** What user code must respect: the wake-up channel and its eventfd are
    private to the loop, and the loop thread queues functors only while
    [loop()] runs (outside of it nobody wakes the loop up for them). *)
Definition program_ok (s : t) : Prop :=
  match pc s with
  | Outside (c :: _) => (forall f, c <> CQueueInLoop f) /\ c <> CHandleRead /\ c <> CRemoveChannel wakeupChannel
  | Handle (c :: _) _ => c <> CRemoveChannel wakeupChannel
  | Run (c :: _) _ => c <> CHandleRead /\ c <> CRemoveChannel wakeupChannel
  | _ => True
  end.

Inductive reachable : t -> Prop :=
| reach_new : reachable new_
| reach_step s s' : reachable s -> program_ok s -> step s s' -> reachable s'.

(** Steps up to the end of the current iteration. *)
Inductive within (s : t) : t -> Prop :=
| within_refl : within s s
| within_step s' s'' : within s s' -> pc s' <> TestQuit -> program_ok s' -> step s' s'' -> within s s''.
End Steps.

(** * Invariant *)

Definition running (s : t) : list Z := match pc s with Run _ rest => rest | _ => [] end.
Definition woken (s : t) : Prop := 0 < eventfd s \/ (0 < waking s)%nat.

(** The flags, by the place of the loop thread. *)
Definition flags_ok (s : t) : Prop :=
  match pc s with
  | Outside _ => looping_ s = false /\ eventHandling_ s = false /\ callingPendingFunctors_ s = false
  | Handle _ _ => looping_ s = true /\ eventHandling_ s = true /\ callingPendingFunctors_ s = false
  | Run _ _ => looping_ s = true /\ eventHandling_ s = false /\ callingPendingFunctors_ s = true
  | _ => looping_ s = true /\ eventHandling_ s = false /\ callingPendingFunctors_ s = false
  end.
Definition wake_ok (s : t) : Prop :=
  match pc s with
  | Handle _ _ | Swap => True
  | Poll => quit_ s = true \/ pendingFunctors_ s <> [] -> woken s
  | _ => pendingFunctors_ s <> [] -> woken s
  end.
(** Channels still to be handled are registered, and the current one is not
    among them. *)
Definition handling_ok (s : t) : Prop :=
  match pc s with
  | Handle _ rest => exists done, activeChannels_ s = done ++ rest /\ NoDup (activeChannels_ s) /\
      (forall ch, currentActiveChannel_ s = Some ch -> ch ∉ rest) /\ (forall ch, ch ∈ rest -> ch ∈ channels s)
  | _ => currentActiveChannel_ s = None
  end.

Record inv (s : t) : Prop := {
  inv_eventfd : 0 <= eventfd s <= eventfd_max;
  inv_flags : flags_ok s;
  inv_wake : wake_ok s;
  inv_handling : handling_ok s;
  inv_private : wakeupChannel ∈ channels s;
  inv_order : started s ++ running s ++ pendingFunctors_ s = submitted s
}.

(** * Lemmas *)

Lemma wakeup_fields s :
  looping_ (wakeup s) = looping_ s /\ quit_ (wakeup s) = quit_ s /\ pc (wakeup s) = pc s /\
  pendingFunctors_ (wakeup s) = pendingFunctors_ s /\ waking (wakeup s) = waking s /\
  (0 <= eventfd s <= eventfd_max -> 0 < eventfd (wakeup s) <= eventfd_max).
Proof.
  unfold wakeup. destruct (Z.leb_spec (eventfd s + 1) eventfd_max); cbn; split_and!; try done; lia || (unfold eventfd_max in *; lia).
Qed.

Lemma loop_new_inv : inv new_.
Proof. by split; cbn. Qed.

(** A wake-up keeps everything. *)
Lemma wakeup_inv s : inv s -> inv (wakeup s).
Proof.
  intros Hinv. unfold wakeup. destruct (Z.leb_spec (eventfd s + 1) eventfd_max); [|done].
  destruct Hinv as [Hf ? Hw ? ? ?]. split; try done; cbn in *; [lia|].
  unfold wake_ok, woken in *. cbn. destruct (pc s); auto; left; lia.
Qed.

(** Functions of the state that a call on the loop does not change. *)
Ltac inv_fields :=
  unfold flags_ok, wake_ok, handling_ok, running, woken in *; cbn in *.

Lemma outside_cmd_inv body c cs s s' :
  inv s -> pc s = Outside (c :: cs) -> program_ok s -> run_cmd body Outside c cs s = Ok s' -> inv s'.
Proof.
  intros [] Hpc Hp. unfold program_ok in Hp. rewrite Hpc in Hp. destruct Hp as (Hq&Hr&Hrm).
  inv_fields. rewrite Hpc in *. destruct inv_flags0 as (Hl&He&Hc).
  destruct c as [f|f| | |ch|ch|]; cbn; try done.
  - by destruct (Hq f).
  - intros [= <-]. by split; inv_fields.
  - intros [= <-]. by split; inv_fields.
  - unfold loop_begin. rewrite Hl. cbn. intros [= <-]. by split; inv_fields.
  - intros [= <-]. split; inv_fields; try done. set_solver.
  - unfold removeChannel. rewrite He. cbn. intros [= <-]. split; inv_fields; try done. set_solver.
Qed.

Lemma run_cmd_inv body c cs rest s s' :
  inv s -> pc s = Run (c :: cs) rest -> program_ok s -> run_cmd body (fun cs => Run cs rest) c cs s = Ok s' -> inv s'.
Proof.
  intros Hinv Hpc Hp. assert (Hinv0 := Hinv). destruct Hinv. unfold program_ok in Hp. rewrite Hpc in Hp. destruct Hp as (Hr&Hrm).
  inv_fields. rewrite Hpc in *. destruct inv_flags0 as (Hl&He&Hc).
  destruct c as [f|f| | |ch|ch|]; cbn; try done.
  - unfold queueInLoop. cbn. rewrite Hc. intros [= <-].
    unfold wakeup. destruct (Z.leb_spec (eventfd (push f s) + 1) eventfd_max) as [Hle|Hgt]; cbn in *.
    + split; inv_fields; try done; [lia|intros _; left; lia|]. by rewrite <- inv_order0, <- !app_assoc.
    + split; inv_fields; try done; [intros _; left; unfold eventfd_max in *; lia|]. by rewrite <- inv_order0, <- !app_assoc.
  - intros [= <-]. by split; inv_fields.
  - intros [= <-]. by split; inv_fields.
  - unfold loop_begin. by rewrite Hl.
  - intros [= <-]. split; inv_fields; try done. set_solver.
  - unfold removeChannel. rewrite He. cbn. intros [= <-]. split; inv_fields; try done. set_solver.
Qed.

Lemma handle_cmd_inv body c cs rest s s' :
  inv s -> pc s = Handle (c :: cs) rest -> program_ok s -> run_cmd body (fun cs => Handle cs rest) c cs s = Ok s' -> inv s'.
Proof.
  intros [] Hpc Hp. unfold program_ok in Hp. rewrite Hpc in Hp.
  inv_fields. rewrite Hpc in *. destruct inv_flags0 as (Hl&He&Hc).
  destruct c as [f|f| | |ch|ch|]; cbn; try done.
  - unfold queueInLoop. cbn. rewrite Hc. intros [= <-]. split; inv_fields; try done.
    by rewrite <- inv_order0, <- !app_assoc.
  - intros [= <-]. by split; inv_fields.
  - intros [= <-]. by split; inv_fields.
  - unfold loop_begin. by rewrite Hl.
  - intros [= <-]. split; inv_fields; try done; [|set_solver].
    destruct inv_handling0 as (d&?&?&?&?). exists d. set_solver.
  - unfold removeChannel. rewrite He. cbn.
    destruct (bool_decide (currentActiveChannel_ s = Some ch) || negb (bool_decide (ch ∈ activeChannels_ s))) eqn:E; [|done].
    cbn. intros [= <-]. split; inv_fields; try done; [|set_solver].
    destruct inv_handling0 as (d&Ha&Hnd&Hcur&Hch). exists d. split_and!; try done.
    intros q Hq. apply elem_of_difference. split; [auto|]. intros ->%elem_of_singleton.
    apply orb_true_iff in E as [E|E].
    + apply bool_decide_eq_true in E. by apply (Hcur _ E).
    + apply negb_true_iff, bool_decide_eq_false in E. apply E. rewrite Ha. set_solver.
  - intros [= <-]. split; inv_fields; try done.
Qed.

Lemma loop_step_inv handler body s s' :
  inv s -> program_ok s -> loop_step handler body s = Some (Ok s') -> inv s'.
Proof.
  intros Hinv Hp. unfold loop_step. destruct (pc s) as [[|c cs]| | |[|c cs] [|ch rest]| |[|c cs] [|f rest]] eqn:Hpc; try done.
  - intros [= E]. by eapply outside_cmd_inv.
  - intros [= <-]. destruct Hinv. inv_fields. rewrite Hpc in *. unfold test_quit.
    destruct (quit_ s) eqn:Eq; split; inv_fields; rewrite ?Eq; try done; [tauto|]. intros [|]; [done|auto].
  - intros [= <-]. destruct Hinv. inv_fields. rewrite Hpc in *. by split; inv_fields; tauto || done.
  - intros [= <-]. destruct Hinv. inv_fields. rewrite Hpc in *. split; inv_fields; try done.
    destruct inv_handling0 as (d&Ha&Hnd&_&Hch). exists (d ++ [ch]). rewrite <- app_assoc. split_and!; try done.
    + intros q [= <-]. rewrite Ha in Hnd. apply NoDup_app in Hnd as (_&_&Hnd). by apply NoDup_cons in Hnd as [? _].
    + set_solver.
  - intros [= E]. by eapply handle_cmd_inv.
  - intros [= E]. by eapply handle_cmd_inv.
  - intros [= <-]. destruct Hinv. inv_fields. rewrite Hpc in *. split; inv_fields; try done; [tauto|].
    by rewrite app_nil_r.
  - intros [= <-]. destruct Hinv. inv_fields. rewrite Hpc in *. split; inv_fields; try done. tauto.
  - intros [= <-]. destruct Hinv. inv_fields. rewrite Hpc in *. split; inv_fields; try done.
    by rewrite <- app_assoc.
  - intros [= E]. by eapply run_cmd_inv.
  - intros [= E]. by eapply run_cmd_inv.
Qed.

(** A functor queued by another thread. *)
Lemma queued_inv f s : inv s -> inv (queueInLoop call_wakeup false f s).
Proof.
  intros []. unfold queueInLoop, call_wakeup. inv_fields. split; inv_fields; try done.
  - destruct (pc s); try done; intros; right; lia.
  - by rewrite <- inv_order0, <- !app_assoc.
Qed.

Lemma step_inv handler body s s' : inv s -> program_ok s -> step handler body s s' -> inv s'.
Proof.
  intros Hinv Hp Hs. destruct Hs as [s s' E|now active s Hpc (Hnd&Hin&Hw)|c s Hpc|f s|f s|s|n s Hn].
  - by eapply loop_step_inv.
  - destruct Hinv. inv_fields. rewrite Hpc in *. split; inv_fields; try done; [tauto|].
    exists []. split_and!; try done. by rewrite inv_handling0.
  - destruct Hinv. inv_fields. rewrite Hpc in *. by split; inv_fields.
  - by apply queued_inv.
  - by apply queued_inv.
  - destruct Hinv. unfold quit, call_wakeup. inv_fields. split; inv_fields; try done. destruct (pc s); try done; intros; right; lia.
  - unfold wakeup. destruct Hinv. inv_fields.
    destruct (Z.leb_spec (eventfd s + 1) eventfd_max); split; inv_fields; try done; try lia;
      (destruct (pc s); try done; intros; left; unfold eventfd_max in *; lia).
Qed.

Lemma reachable_inv handler body s : reachable handler body s -> inv s.
Proof. induction 1; [apply loop_new_inv|by eapply step_inv]. Qed.

(** What an iteration has done to the functors that were pending at [s0]. *)
Definition progress (s0 s : t) : Prop :=
  match pc s with
  | Handle _ _ | Swap => started s = started s0 /\ pendingFunctors_ s0 `prefix_of` pendingFunctors_ s
  | Run _ rest => started s0 ++ pendingFunctors_ s0 `prefix_of` started s ++ rest
  | TestQuit => started s0 ++ pendingFunctors_ s0 `prefix_of` started s
  | _ => False
  end.

(** Calls of user code inside [loop()] only append to the queue. *)
Lemma run_cmd_frame body resume c cs s s' :
  looping_ s = true -> run_cmd body resume c cs s = Ok s' ->
  (exists cs', pc s' = resume cs') /\ started s' = started s /\ pendingFunctors_ s `prefix_of` pendingFunctors_ s'.
Proof.
  intros Hl. destruct c as [f|f| | |ch|ch|]; cbn.
  - intros [= <-]. unfold queueInLoop, wakeup. cbn. repeat case_match; cbn; split_and!; eauto; by apply prefix_app_r.
  - intros [= <-]. split_and!; eauto; done.
  - intros [= <-]. split_and!; eauto; done.
  - unfold loop_begin. by rewrite Hl.
  - intros [= <-]. split_and!; eauto; done.
  - unfold removeChannel, massert. cbn. repeat case_match; cbn; intros [=]; subst; split_and!; eauto; done.
  - intros [= <-]. split_and!; eauto; done.
Qed.

Lemma progress_step handler body s0 s s' :
  inv s -> progress s0 s -> pc s <> TestQuit -> step handler body s s' -> progress s0 s'.
Proof.
  intros Hinv Hp Ht Hs. pose proof (inv_flags _ Hinv) as Hf. unfold progress, flags_ok in *.
  destruct Hs as [s s' E|now active s Hpc _|c s Hpc|f s|f s|s|n s Hn].
  - unfold loop_step in E. destruct (pc s) as [|  | |[|c cs] rest| |[|c cs] rest]; try done.
    + destruct rest as [|ch rest]; injection E as <-; done.
    + injection E as E. apply run_cmd_frame in E as ((?&->)&->&?); [|apply Hf].
      split; [apply Hp|]. etransitivity; [apply Hp|done].
    + injection E as <-. cbn. destruct Hp as (->&?). by apply prefix_app.
    + destruct rest as [|f rest]; injection E as <-; cbn; [by rewrite app_nil_r in Hp|by rewrite <- app_assoc].
    + injection E as E. by apply run_cmd_frame in E as ((?&->)&->&?); [|apply Hf].
  - by rewrite Hpc in Hp.
  - by rewrite Hpc in Hp.
  - cbn. destruct (pc s); try done; destruct Hp as (?&?); split; try done; by apply prefix_app_r.
  - cbn. destruct (pc s); try done; destruct Hp as (?&?); split; try done; by apply prefix_app_r.
  - done.
  - unfold wakeup. by destruct (eventfd (set_waking n s) + 1 <=? eventfd_max).
Qed.

(** * Properties *)

(** C24: no wake-up of a running loop is lost.  In every interleaving of the loop
    thread with other threads that queue functors or call [quit()], in which the
    loop thread itself queues functors only from callbacks and functors that
    [loop()] runs, whenever the loop thread waits in poll(2) while a functor is
    pending or [quit_] is set, the eventfd is readable, and then poll can return
    with the wake-up channel, or some thread is just about to write it.  (A functor
    the loop thread queues before [loop()] may wait: see
    [queued_before_loop_waits].) *)
Theorem no_lost_wakeup handler body s :
  reachable handler body s -> pc s = Poll -> quit_ s = true \/ pendingFunctors_ s <> [] ->
  (exists active, wakeupChannel ∈ active /\ pollable active s /\ step handler body s (poll_return 0 active s)) \/
  exists n, waking s = S n /\ step handler body s (wakeup (set_waking n s)).
Proof.
  intros Hr Hpc Hq. apply reachable_inv in Hr. pose proof (inv_wake _ Hr) as Hw. unfold wake_ok in Hw. rewrite Hpc in Hw.
  destruct (Hw Hq) as [He|He].
  - left. exists [wakeupChannel].
    assert (pollable [wakeupChannel] s) as Hp.
    { split_and!; [apply NoDup_singleton| |set_solver]. intros ch ->%list_elem_of_singleton. apply Hr. }
    split_and!; [set_solver|done|]. by apply step_poll.
  - right. destruct (waking s) as [|n] eqn:En; [lia|]. exists n. split; [done|]. by apply step_wakeup.
Qed.

(** C25: functors run in the order they were queued, each exactly once: at every
    moment those begun, those taken from the queue and those still in it are,
    in this order, the functors queued so far.  The flags tell the truth about
    where the loop thread is, and a channel is only dispatched while it is
    registered, whatever handlers remove. *)
Theorem functors_run_once_in_order handler body s :
  reachable handler body s ->
  started s ++ running s ++ pendingFunctors_ s = submitted s /\ flags_ok s /\
  forall ch rest, pc s = Handle [] (ch :: rest) -> ch ∈ channels s /\ ch ∉ rest.
Proof.
  intros Hr. apply reachable_inv in Hr. split_and!; [apply Hr|apply Hr|]. intros ch rest Hpc.
  pose proof (inv_handling _ Hr) as Hh. unfold handling_ok in Hh. rewrite Hpc in Hh.
  destruct Hh as (d&Ha&Hnd&_&Hin). split; [apply Hin; set_solver|].
  rewrite Ha in Hnd. apply NoDup_app in Hnd as (_&_&Hnd). by apply NoDup_cons in Hnd as [? _].
Qed.

(** A functor waits for at most one iteration: when the loop thread is back
    at its loop test, every functor that was pending at some moment of event
    handling has been started, in order, whatever ran in between and whatever
    other threads queued meanwhile. *)
Theorem pending_functors_run_this_iteration handler body s0 s :
  reachable handler body s0 -> eventHandling_ s0 = true ->
  within handler body s0 s -> pc s = TestQuit ->
  started s0 ++ pendingFunctors_ s0 `prefix_of` started s.
Proof.
  intros Hr He Hw Hpc. assert (inv s /\ progress s0 s) as (_&Hp).
  { clear Hpc. induction Hw as [|s' s'' _ (Hi&IH) Ht Hok Hs].
    - apply reachable_inv in Hr. split; [done|]. pose proof (inv_flags _ Hr) as Hf. unfold flags_ok, progress in *.
      destruct (pc s0); try (destruct Hf as (_&?&_); congruence). done.
    - split; [by eapply step_inv|by eapply progress_step]. }
  unfold progress in Hp. by rewrite Hpc in Hp.
Qed.

(** * Witnesses *)

(** A loop whose functor 7 queues functor 8. *)
Definition example_body (_ : t) (f : Z) : list cmd := if f =? 7 then [CQueueInLoop 8] else [].
Definition example_handler (_ : t) (_ : Z) : list cmd := [].
Abbreviation example_step := (step example_handler example_body).
Abbreviation example_reachable := (reachable example_handler example_body).

Fixpoint loop_steps (n : nat) (s : t) : t :=
  match n with
  | O => s
  | S n' => match loop_step example_handler example_body s with Some (Ok s') => loop_steps n' s' | _ => s end
  end.

(** In poll(2), with functor 7 just pushed by another thread. *)
Definition polling : t :=
  mk true false false false 0 0 [] None [] 0 0 {[wakeupChannel]} Poll [] [] [].
Definition pushed : t := queueInLoop call_wakeup false 7 polling.

Lemma polling_reachable : example_reachable polling.
Proof.
  set (s1 := set_pc (Outside [CLoop]) new_). set (s2 := set_pc TestQuit polling).
  apply (reach_step _ _ s2); [|done|by apply step_loop].
  apply (reach_step _ _ s1); [|by split_and!|by apply step_loop].
  apply (reach_step _ _ new_); [apply reach_new|done|]. by apply step_program.
Qed.

Lemma pushed_reachable : example_reachable pushed.
Proof. eapply reach_step; [apply polling_reachable|done|]. apply (step_queueInLoop _ _ 7 polling). Qed.

Lemma no_lost_wakeup_witness :
  (exists active, wakeupChannel ∈ active /\ pollable active pushed /\ example_step pushed (poll_return 0 active pushed)) \/
  exists n, waking pushed = S n /\ example_step pushed (wakeup (set_waking n pushed)).
Proof.
  apply (no_lost_wakeup example_handler example_body pushed).
  - apply pushed_reachable.
  - reflexivity.
  - right. discriminate.
Defined.

(** The loop thread queues functor 7 and then runs [loop()]: it waits in poll(2)
    beside the functor, the eventfd is not readable and nobody writes it. *)
Definition queued_before_loop : t := set_pc (Outside [CQueueInLoop 7; CLoop]) new_.
Example queued_before_loop_waits :
  let s := loop_steps 3 queued_before_loop in
  pc s = Poll /\ pendingFunctors_ s = [7] /\ eventfd s = 0 /\ waking s = 0%nat /\
  ~ exists active, pollable active s /\ wakeupChannel ∈ active.
Proof.
  cbn. split_and!; try done. intros (active&(_&_&Hw)&Hin). apply Hw in Hin. by cbn in Hin.
Qed.

Lemma functors_run_once_in_order_witness :
  started pushed ++ running pushed ++ pendingFunctors_ pushed = [7].
Proof.
  destruct (functors_run_once_in_order example_handler example_body pushed pushed_reachable) as (E&_).
  exact E.
Defined.

(** Woken up, the loop handles the wake-up channel and runs functor 7, which
    queues functor 8 for the next iteration. *)
Definition woken_up : t := poll_return 5 [wakeupChannel] (wakeup (set_waking 0 pushed)).
Lemma woken_up_reachable : example_reachable woken_up.
Proof.
  eapply reach_step; [eapply reach_step; [apply pushed_reachable|done|by apply (step_wakeup _ _ 0)]|done|].
  apply step_poll; [done|]. split_and!; [apply NoDup_singleton|set_solver|]. split; [done|]. intros _. set_solver.
Qed.

(** A check that the next [n] steps of the loop thread stay in the iteration. *)
Definition next_ok (s : t) : bool :=
  match pc s with
  | Outside _ | TestQuit => false
  | Handle (CRemoveChannel _ :: _) _ | Run (CHandleRead :: _) _ | Run (CRemoveChannel _ :: _) _ => false
  | _ => true
  end.
Fixpoint path_ok (n : nat) (s : t) : bool :=
  match n with
  | O => true
  | S n' => next_ok s &&
      match loop_step example_handler example_body s with Some (Ok s') => path_ok n' s' | _ => false end
  end.

Lemma path_within n s0 s :
  path_ok n s = true -> within example_handler example_body s0 s ->
  within example_handler example_body s0 (loop_steps n s).
Proof.
  revert s. induction n as [|n IH]; intros s Hp Hw; cbn in *; [done|].
  apply andb_true_iff in Hp as (Hn&Hp). destruct (loop_step _ _ s) as [[s'|]|] eqn:E; try done.
  apply IH; [done|]. apply (within_step _ _ _ s); [done| | |by apply step_loop];
    unfold next_ok, program_ok in *; destruct (pc s) as [[|[]]| | |[|[]]| |[|[]]]; done.
Qed.

Lemma pending_functors_run_this_iteration_witness :
  exists s, pc s = TestQuit /\ pendingFunctors_ s = [8] /\ [] ++ [7] `prefix_of` started s.
Proof.
  exists (loop_steps 7 woken_up). split; [vm_compute; reflexivity|]. split; [vm_compute; reflexivity|].
  apply (pending_functors_run_this_iteration example_handler example_body woken_up).
  - apply woken_up_reachable.
  - reflexivity.
  - apply path_within; [vm_compute; reflexivity|apply within_refl].
  - vm_compute. reflexivity.
Defined.

End EventLoop.
