(* ===== verification/NetTcpConnection.v ===== *)
(** src/muduo/net/TcpConnection.h and TcpConnection.cc: one TCP connection in
    its I/O loop.

    The state is the object's fields that its code reads, the functors it has
    queued in its loop ([pending], run first in first out), and what the rest
    of the world sees: the bytes the kernel took ([wire]) and the callbacks and
    socket calls made ([effects]).  [accepted] is a ghost: the concatenation of
    the messages [sendInLoop] took responsibility for.  User code runs inside
    callbacks as a script of calls on the connection, chosen from the state;
    a call from another thread is three steps - the test of [state_], its write
    and the queueing of a functor - between which the loop may run ([remote] holds
    the calls under way).  A handler or functor of the loop is one step.  The close
    callback of TcpServer and of TcpClient queues [connectDestroyed] (see
    NetTcpServer). *)

From S2P Require Import Prelude BaseTimestamp Endian BaseStringPiece NetBuffer NetChannel NetPoller.

Module TcpConnection.

Inductive StateE := kDisconnected | kConnecting | kConnected | kDisconnecting.
#[export] Instance StateE_eq_dec : EqDecision StateE.
Proof. solve_decision. Defined.

Inductive functor :=
| FSend (message : bytes)
| FShutdown
| FForceClose
| FStartRead
| FStopRead
| FWriteComplete
| FHighWaterMark (len : Z)
| FConnectDestroyed.

Inductive effect :=
| ConnectionUp
| ConnectionDown
| Message (readable : bytes)
| WriteComplete
| HighWaterMark (len : Z)
| Closed
| ShutdownWrite (st : StateE) (unsent : bytes)
| SocketError
| RunAfter (seconds : double).

(** write(2): the number of bytes taken, or an errno. *)
Inductive write_result := Wrote (n : Z) | WriteError (errno : Z).
Definition EWOULDBLOCK : Z := 11.
Definition EPIPE : Z := 32.
Definition ECONNRESET : Z := 104.

(** Calls of the public interface. *)
Inductive call :=
| CSend (message : bytes) (wr : bytes -> write_result)
| CSendBuffer (buf : Buffer.t) (wr : bytes -> write_result)
| CShutdown
| CForceClose
| CForceCloseWithDelay (seconds : double)
| CStartRead
| CStopRead
| CRetrieve (n : Z)
| CRetrieveAll.

(** [remote]: the calls that other threads are in the middle of, after their
    test of [state_]; the flag says that [state_] has been written too. *)
Record t := mk {
  state_ : StateE;
  reading_ : bool;
  channel_ : Channel.t;
  inputBuffer_ : Buffer.t;
  outputBuffer_ : Buffer.t;
  highWaterMark_ : Z;
  writeCompleteCallback_ : bool;
  highWaterMarkCallback_ : bool;
  pending : list functor;
  wire : bytes;
  accepted : bytes;
  effects : list effect;
  remote : list (call * bool)
}.

Definition setState x s := mk x (reading_ s) (channel_ s) (inputBuffer_ s) (outputBuffer_ s) (highWaterMark_ s)
  (writeCompleteCallback_ s) (highWaterMarkCallback_ s) (pending s) (wire s) (accepted s) (effects s) (remote s).
Definition set_reading x s := mk (state_ s) x (channel_ s) (inputBuffer_ s) (outputBuffer_ s) (highWaterMark_ s)
  (writeCompleteCallback_ s) (highWaterMarkCallback_ s) (pending s) (wire s) (accepted s) (effects s) (remote s).
Definition set_channel x s := mk (state_ s) (reading_ s) x (inputBuffer_ s) (outputBuffer_ s) (highWaterMark_ s)
  (writeCompleteCallback_ s) (highWaterMarkCallback_ s) (pending s) (wire s) (accepted s) (effects s) (remote s).
Definition set_input x s := mk (state_ s) (reading_ s) (channel_ s) x (outputBuffer_ s) (highWaterMark_ s)
  (writeCompleteCallback_ s) (highWaterMarkCallback_ s) (pending s) (wire s) (accepted s) (effects s) (remote s).
Definition set_output x s := mk (state_ s) (reading_ s) (channel_ s) (inputBuffer_ s) x (highWaterMark_ s)
  (writeCompleteCallback_ s) (highWaterMarkCallback_ s) (pending s) (wire s) (accepted s) (effects s) (remote s).
Definition set_pending x s := mk (state_ s) (reading_ s) (channel_ s) (inputBuffer_ s) (outputBuffer_ s) (highWaterMark_ s)
  (writeCompleteCallback_ s) (highWaterMarkCallback_ s) x (wire s) (accepted s) (effects s) (remote s).
Definition set_wire x s := mk (state_ s) (reading_ s) (channel_ s) (inputBuffer_ s) (outputBuffer_ s) (highWaterMark_ s)
  (writeCompleteCallback_ s) (highWaterMarkCallback_ s) (pending s) x (accepted s) (effects s) (remote s).
Definition set_accepted x s := mk (state_ s) (reading_ s) (channel_ s) (inputBuffer_ s) (outputBuffer_ s) (highWaterMark_ s)
  (writeCompleteCallback_ s) (highWaterMarkCallback_ s) (pending s) (wire s) x (effects s) (remote s).
(** [setWriteCompleteCallback], [setHighWaterMarkCallback]. *)
Definition setWriteCompleteCallback (cb : bool) s := mk (state_ s) (reading_ s) (channel_ s) (inputBuffer_ s)
  (outputBuffer_ s) (highWaterMark_ s) cb (highWaterMarkCallback_ s) (pending s) (wire s) (accepted s) (effects s) (remote s).
Definition setHighWaterMarkCallback (cb : bool) (highWaterMark : Z) s := mk (state_ s) (reading_ s) (channel_ s)
  (inputBuffer_ s) (outputBuffer_ s) highWaterMark (writeCompleteCallback_ s) cb (pending s) (wire s) (accepted s) (effects s) (remote s).
Definition emit (e : effect) s := mk (state_ s) (reading_ s) (channel_ s) (inputBuffer_ s) (outputBuffer_ s)
  (highWaterMark_ s) (writeCompleteCallback_ s) (highWaterMarkCallback_ s) (pending s) (wire s) (accepted s)
  (effects s ++ [e]) (remote s).
Definition set_remote x s := mk (state_ s) (reading_ s) (channel_ s) (inputBuffer_ s) (outputBuffer_ s) (highWaterMark_ s)
  (writeCompleteCallback_ s) (highWaterMarkCallback_ s) (pending s) (wire s) (accepted s) (effects s) x.

Definition queueInLoop (f : functor) (s : t) : t := set_pending (pending s ++ [f]) s.

(** The constructor, on the connected socket [sockfd]. *)
Definition new_ (sockfd : Z) : outcome t :=
  i ← Buffer.new_ Buffer.kInitialSize;
  o ← Buffer.new_ Buffer.kInitialSize;
  let channel := Channel.setCallback Channel.SlotRead (Channel.setCallback Channel.SlotWrite
    (Channel.setCallback Channel.SlotClose (Channel.setCallback Channel.SlotError (Channel.new_ sockfd)))) in
  Ok (mk kConnecting true channel i o (64 * 1024 * 1024) false false [] [] [] [] []).

Definition connected (s : t) : bool := bool_decide (state_ s = kConnected).
Definition disconnected (s : t) : bool := bool_decide (state_ s = kDisconnected).

Definition stateToString (s : t) : string :=
  match state_ s with
  | kDisconnected => "kDisconnected"
  | kConnecting => "kConnecting"
  | kConnected => "kConnected"
  | kDisconnecting => "kDisconnecting"
  end.

(** The channel's [enable]/[disable] calls and [remove], on the channel's own
    state; NetPoller has their effect on the poller. *)
Definition change (op : Channel.event_op) (s : t) : t :=
  let c := channel_ s in
  set_channel (Channel.set_added true (Channel.set_events (Channel.apply_event_op op (Channel.events_ c)) c)) s.
Definition remove (s : t) : outcome t :=
  massert (Channel.isNoneEvent (channel_ s)) "isNoneEvent()";;
  Ok (set_channel (Channel.set_added false (channel_ s)) s).

(** * Sending *)

(** The direct write of [sendInLoop]: (nwrote, remaining, faultError). *)
Definition try_write (wr : bytes -> write_result) (data : bytes) (s : t) : Z * Z * bool * t :=
  let len := zlen data in
  if negb (Channel.isWriting (channel_ s)) && (Buffer.readableBytes (outputBuffer_ s) =? 0)
  then
    match wr data with
    | Wrote n =>
        let remaining := u64 (len - n) in
        let s := set_wire (wire s ++ ztake n data) s in
        (n, remaining, false,
         if (remaining =? 0) && writeCompleteCallback_ s then queueInLoop FWriteComplete s else s)
    | WriteError errno =>
        (0, len, negb (errno =? EWOULDBLOCK) && ((errno =? EPIPE) || (errno =? ECONNRESET)), s)
    end
  else (0, len, false, s).

Definition sendInLoop (wr : bytes -> write_result) (data : bytes) (s : t) : outcome t :=
  if decide (state_ s = kDisconnected) then Ok s
  else
    let len := zlen data in
    let '(nwrote, remaining, faultError, s) := try_write wr data s in
    massert (remaining <=? len) "remaining <= len";;
    let s := if (faultError : bool) then s else set_accepted (accepted s ++ data) s in
    if negb faultError && (0 <? remaining)
    then
      let oldLen := Buffer.readableBytes (outputBuffer_ s) in
      let total := u64 (oldLen + remaining) in
      let s := if (highWaterMark_ s <=? total) && (oldLen <? highWaterMark_ s) && highWaterMarkCallback_ s
               then queueInLoop (FHighWaterMark total) s else s in
      out ← Buffer.append (zdrop nwrote data) remaining (outputBuffer_ s);
      let s := set_output out s in
      Ok (if Channel.isWriting (channel_ s) then s else change Channel.EnableWriting s)
    else Ok s.

Definition shutdownInLoop (s : t) : t :=
  if Channel.isWriting (channel_ s) then s
  else emit (ShutdownWrite (state_ s) (Buffer.content (outputBuffer_ s))) s.

Definition forceClosable (s : t) : bool :=
  bool_decide (state_ s = kConnected) || bool_decide (state_ s = kDisconnecting).

Definition startReadInLoop (s : t) : t :=
  if negb (reading_ s) || negb (Channel.isReading (channel_ s))
  then set_reading true (change Channel.EnableReading s) else s.

Definition stopReadInLoop (s : t) : t :=
  if reading_ s || Channel.isReading (channel_ s)
  then set_reading false (change Channel.DisableReading s) else s.

Definition send (inLoop : bool) (wr : bytes -> write_result) (message : StringPiece.t) (s : t) : outcome t :=
  if decide (state_ s = kConnected)
  then
    data ← StringPiece.as_string message;
    if inLoop then sendInLoop wr data s else Ok (queueInLoop (FSend data) s)
  else Ok s.

(** [send] of a whole buffer: also returns the buffer of the caller. *)
Definition sendBuffer (inLoop : bool) (wr : bytes -> write_result) (buf : Buffer.t) (s : t)
    : outcome (Buffer.t * t) :=
  if decide (state_ s = kConnected)
  then
    if inLoop
    then
      data ← Buffer.read_mem (Buffer.mem_at buf (Buffer.peek buf)) (Buffer.readableBytes buf);
      s ← sendInLoop wr data s;
      Ok (Buffer.retrieveAll buf, s)
    else
      '(data, buf) ← Buffer.retrieveAllAsString buf;
      Ok (buf, queueInLoop (FSend data) s)
  else Ok (buf, s).

Definition shutdown (inLoop : bool) (s : t) : t :=
  if decide (state_ s = kConnected)
  then let s := setState kDisconnecting s in
       if inLoop then shutdownInLoop s else queueInLoop FShutdown s
  else s.

Definition forceClose (s : t) : t :=
  if forceClosable s then queueInLoop FForceClose (setState kDisconnecting s) else s.

(** The timer calls [forceClose] through a weak pointer when it fires. *)
Definition forceCloseWithDelay (seconds : double) (s : t) : t :=
  if forceClosable s then emit (RunAfter seconds) (setState kDisconnecting s) else s.

Definition startRead (inLoop : bool) (s : t) : t :=
  if inLoop then startReadInLoop s else queueInLoop FStartRead s.
Definition stopRead (inLoop : bool) (s : t) : t :=
  if inLoop then stopReadInLoop s else queueInLoop FStopRead s.

Definition do_call (inLoop : bool) (c : call) (s : t) : outcome t :=
  match c with
  | CSend message wr => send inLoop wr (StringPiece.of_string message) s
  | CSendBuffer buf wr => '(_, s) ← sendBuffer inLoop wr buf s; Ok s
  | CShutdown => Ok (shutdown inLoop s)
  | CForceClose => Ok (forceClose s)
  | CForceCloseWithDelay seconds => Ok (forceCloseWithDelay seconds s)
  | CStartRead => Ok (startRead inLoop s)
  | CStopRead => Ok (stopRead inLoop s)
  | CRetrieve n => b ← Buffer.retrieve n (inputBuffer_ s); Ok (set_input b s)
  | CRetrieveAll => Ok (set_input (Buffer.retrieveAll (inputBuffer_ s)) s)
  end.

(** A call from another thread is not atomic: it tests [state_], writes it,
    and queues a functor (or starts a timer), and the loop may run in between. *)
Definition remote_test (c : call) (s : t) : bool :=
  match c with
  | CSend _ _ | CSendBuffer _ _ | CShutdown => connected s
  | CForceClose | CForceCloseWithDelay _ => forceClosable s
  | _ => true
  end.
Definition remote_write (c : call) (s : t) : t :=
  match c with
  | CShutdown | CForceClose | CForceCloseWithDelay _ => setState kDisconnecting s
  | _ => s
  end.
Definition remote_queue (c : call) (s : t) : outcome t :=
  match c with
  | CSend message _ => data ← StringPiece.as_string (StringPiece.of_string message); Ok (queueInLoop (FSend data) s)
  | CSendBuffer buf _ => '(data, _) ← Buffer.retrieveAllAsString buf; Ok (queueInLoop (FSend data) s)
  | CShutdown => Ok (queueInLoop FShutdown s)
  | CForceClose => Ok (queueInLoop FForceClose s)
  | CForceCloseWithDelay seconds => Ok (emit (RunAfter seconds) s)
  | CStartRead => Ok (queueInLoop FStartRead s)
  | CStopRead => Ok (queueInLoop FStopRead s)
  | CRetrieve _ | CRetrieveAll => Ok s
  end.
(** The input buffer belongs to the loop's thread. *)
Definition is_remote (c : call) : bool := match c with CRetrieve _ | CRetrieveAll => false | _ => true end.
(** When nothing happens in between, the three parts are the call. *)
Lemma remote_uninterrupted c s : is_remote c = true ->
  do_call false c s = if remote_test c s then remote_queue c (remote_write c s) else Ok s.
Proof.
  intros Hr. destruct c; try discriminate Hr; try done; cbn [do_call remote_test remote_write remote_queue];
    unfold send, sendBuffer, shutdown, forceClose, forceCloseWithDelay, connected;
    try (destruct (forceClosable s); done); case_decide as E;
    rewrite ?bool_decide_eq_true_2, ?bool_decide_eq_false_2 by done; try done.
  by destruct (Buffer.retrieveAllAsString _) as [[]|].
Qed.

(** * Handlers *)

Record callbacks := {
  on_connection : t -> list call;
  on_message : Timestamp.t -> t -> list call;
  on_writeComplete : t -> list call;
  on_highWaterMark : Z -> t -> list call
}.
(** [defaultConnectionCallback] only logs; [defaultMessageCallback] drains. *)
Definition default_callbacks : callbacks :=
  {| on_connection _ := []; on_message _ _ := [CRetrieveAll];
     on_writeComplete _ := []; on_highWaterMark _ _ := [] |}.

Definition run_script (s : t) (cs : list call) : outcome t :=
  foldM (fun s c => do_call true c s) s cs.

Section Handlers.
Context (cb : callbacks).

(** [connectionCallback_(shared_from_this())]: the user sees [connected()]. *)
Definition connectionCallback (s : t) : outcome t :=
  let s := emit (if connected s then ConnectionUp else ConnectionDown) s in
  run_script s (on_connection cb s).

Definition connectEstablished (self : Z) (s : t) : outcome t :=
  massert (bool_decide (state_ s = kConnecting)) "state_ == kConnecting";;
  let s := setState kConnected s in
  let s := set_channel (Channel.tie self (channel_ s)) s in
  let s := change Channel.EnableReading s in
  connectionCallback s.

Definition connectDestroyed (s : t) : outcome t :=
  s ← (if decide (state_ s = kConnected)
       then connectionCallback (change Channel.DisableAll (setState kDisconnected s))
       else Ok s);
  remove s.

Definition handleClose (s : t) : outcome t :=
  massert (bool_decide (state_ s = kConnected) || bool_decide (state_ s = kDisconnecting))
    "state_ == kConnected || state_ == kDisconnecting";;
  s ← connectionCallback (change Channel.DisableAll (setState kDisconnected s));
  Ok (queueInLoop FConnectDestroyed (emit Closed s)).

Definition handleError (s : t) : t := emit SocketError s.

Definition handleRead (rd : list Z -> Buffer.read_result) (receiveTime : Timestamp.t) (s : t) : outcome t :=
  '(n, _, b) ← Buffer.readFd rd (inputBuffer_ s);
  let s := set_input b s in
  if 0 <? n
  then
    let s := emit (Message (Buffer.content b)) s in
    run_script s (on_message cb receiveTime s)
  else if n =? 0 then handleClose s
  else Ok (handleError s).

Definition handleWrite (wr : bytes -> write_result) (s : t) : outcome t :=
  if Channel.isWriting (channel_ s)
  then
    let out := outputBuffer_ s in
    data ← Buffer.read_mem (Buffer.mem_at out (Buffer.peek out)) (Buffer.readableBytes out);
    match wr data with
    | Wrote n =>
        if 0 <? n
        then
          out ← Buffer.retrieve n out;
          let s := set_output out (set_wire (wire s ++ ztake n data) s) in
          if Buffer.readableBytes out =? 0
          then
            let s := change Channel.DisableWriting s in
            let s := if writeCompleteCallback_ s then queueInLoop FWriteComplete s else s in
            Ok (if decide (state_ s = kDisconnecting) then shutdownInLoop s else s)
          else Ok s
        else Ok s
    | WriteError _ => Ok s
    end
  else Ok s.

Definition forceCloseInLoop (s : t) : outcome t :=
  if forceClosable s then handleClose s else Ok s.

(** A queued functor; [wr] is the kernel's answer to the write it may make. *)
Definition run_functor (wr : bytes -> write_result) (f : functor) (s : t) : outcome t :=
  match f with
  | FSend data => sendInLoop wr data s
  | FShutdown => Ok (shutdownInLoop s)
  | FForceClose => forceCloseInLoop s
  | FStartRead => Ok (startReadInLoop s)
  | FStopRead => Ok (stopReadInLoop s)
  | FWriteComplete => let s := emit WriteComplete s in run_script s (on_writeComplete cb s)
  | FHighWaterMark n => let s := emit (HighWaterMark n) s in run_script s (on_highWaterMark cb n s)
  | FConnectDestroyed => connectDestroyed s
  end.

(** The callbacks stored in the channel's slots. *)
Definition invoke (rd : list Z -> Buffer.read_result) (wr : bytes -> write_result)
    (sl : Channel.slot) (time : Timestamp.t) (s : t) : outcome t :=
  match sl with
  | Channel.SlotRead => handleRead rd time s
  | Channel.SlotWrite => handleWrite wr s
  | Channel.SlotClose => handleClose s
  | Channel.SlotError => Ok (handleError s)
  end.

(** * Steps of the I/O loop and of other threads *)

(** [Destroy] is the call of [connectDestroyed] that ~TcpServer makes on a
    connection that is still up. *)
Inductive step :=
| Establish (self : Z)
| Event (revents : Z) (time : Timestamp.t) (rd : list Z -> Buffer.read_result) (wr : bytes -> write_result)
| RunPending (wr : bytes -> write_result)
| Destroy
| CallInLoop (c : call)
| RemoteTest (c : call)
| RemoteWrite (i : nat)
| RemoteQueue (i : nat).

Definition exec (s : t) (st : step) : outcome t :=
  match st with
  | Establish self => connectEstablished self s
  | Event revents time rd wr =>
      Channel.handleEvent channel_ set_channel (invoke rd wr) (fun _ _ => true) time
        (set_channel (Channel.set_revents revents (channel_ s)) s)
  | RunPending wr =>
      match pending s with
      | [] => Ok s
      | f :: fs => run_functor wr f (set_pending fs s)
      end
  | Destroy => connectDestroyed s
  | CallInLoop c => do_call true c s
  | RemoteTest c => Ok (if remote_test c s then set_remote (remote s ++ [(c, false)]) s else s)
  | RemoteWrite i =>
      match remote s !! i with
      | Some (c, false) => Ok (set_remote (<[i := (c, true)]> (remote s)) (remote_write c s))
      | _ => Ok s
      end
  | RemoteQueue i =>
      match remote s !! i with
      | Some (c, true) => remote_queue c (set_remote (delete i (remote s)) s)
      | _ => Ok s
      end
  end.
Definition run (s : t) (sts : list step) : outcome t := foldM exec s sts.
End Handlers.

(** * Invariant *)

Inductive phase := Opening | Alive | Dead.
#[export] Instance phase_eq_dec : EqDecision phase.
Proof. solve_decision. Defined.
Definition phase_of (s : t) : phase :=
  match state_ s with kConnecting => Opening | kDisconnected => Dead | _ => Alive end.

(** The connection and close callbacks, as the user sees them. *)
Definition is_life (e : effect) : bool :=
  match e with ConnectionUp | ConnectionDown | Closed => true | _ => false end.
Definition life (es : list effect) : list effect := filter (fun e => is_life e = true) es.
Definition life_ok (ph : phase) (es : list effect) : Prop :=
  match ph with
  | Opening => life es = []
  | Alive => life es = [ConnectionUp]
  | Dead => life es = [ConnectionUp; ConnectionDown] \/ life es = [ConnectionUp; ConnectionDown; Closed]
  end.

(** Functors bound to a [shared_ptr]; the others hold a raw [this]. *)
Definition holds_ref (f : functor) : bool :=
  match f with FWriteComplete | FHighWaterMark _ | FForceClose => true | _ => false end.
Definition is_destroy (f : functor) : bool :=
  match f with FConnectDestroyed => true | _ => false end.
(** Behind [connectDestroyed], which may free the object, only functors that
    keep it alive wait. *)
Fixpoint tail_ok (l : list functor) : Prop :=
  match l with
  | [] => True
  | f :: l' => (is_destroy f = true -> Forall (fun g => holds_ref g = true) l') /\ tail_ok l'
  end.
Definition no_destroy (l : list functor) : Prop := Forall (fun f => is_destroy f = false) l.

Definition half_close_ok (e : effect) : Prop :=
  match e with ShutdownWrite st unsent => st <> kDisconnected -> unsent = [] | _ => True end.

Definition writing_ok (s : t) : Prop :=
  match phase_of s with
  | Opening => Channel.events_ (channel_ s) = 0 /\ Buffer.content (outputBuffer_ s) = []
  | Alive => Channel.isWriting (channel_ s) = negb (bool_decide (Buffer.content (outputBuffer_ s) = []))
  | Dead => Channel.events_ (channel_ s) = 0
  end.

(** Messages under way fit in memory; before the connection is established
    nothing is queued and no other thread calls. *)
Definition fsend_ok (f : functor) : Prop := match f with FSend d => zlen d < 2 ^ 63 | _ => True end.
Definition call_ok (c : call) : Prop :=
  match c with
  | CSend message _ => zlen message < 2 ^ 31
  | CSendBuffer buf _ => Buffer.wf buf
  | _ => True
  end.
Definition queue_ok (s : t) : Prop :=
  Forall fsend_ok (pending s) /\ Forall (fun r => call_ok r.1) (remote s) /\
  (phase_of s = Opening -> pending s = [] /\ remote s = []).

Record inv (s : t) : Prop := {
  inv_in : Buffer.wf (inputBuffer_ s);
  inv_out : Buffer.wf (outputBuffer_ s);
  inv_stream : accepted s = wire s ++ Buffer.content (outputBuffer_ s);
  inv_events : valid_events (Channel.events_ (channel_ s));
  inv_writing : writing_ok s;
  inv_life : life_ok (phase_of s) (effects s);
  inv_half : Forall half_close_ok (effects s);
  inv_tail : tail_ok (pending s);
  inv_destroy : phase_of s <> Dead -> no_destroy (pending s);
  inv_queued : queue_ok s
}.

(** What the calls of the public interface leave alone. *)
Record keeps (s s' : t) : Prop := {
  keeps_phase : phase_of s' = phase_of s;
  keeps_life : life (effects s') = life (effects s);
  keeps_frame : Channel.frame (channel_ s) (channel_ s');
  keeps_pending : no_destroy (pending s) -> no_destroy (pending s')
}.

Definition wr_ok (wr : bytes -> write_result) : Prop :=
  forall data n, wr data = Wrote n -> 0 <= n <= zlen data.

Definition call_legal (c : call) (s : t) : Prop :=
  phase_of s <> Opening /\
  match c with
  | CSend message wr => zlen message < 2 ^ 31 /\ wr_ok wr
  | CSendBuffer buf wr => Buffer.wf buf /\ wr_ok wr
  | CRetrieve n => 0 <= n <= zlen (Buffer.content (inputBuffer_ s))
  | CStartRead | CStopRead => phase_of s <> Dead
  | _ => True
  end.

(** * Lemmas *)

Lemma frame_refl c : Channel.frame c c.
Proof. by split. Qed.
Lemma keeps_refl s : keeps s s.
Proof. split; [done|done|apply frame_refl|done]. Qed.
Lemma keeps_trans s1 s2 s3 : keeps s1 s2 -> keeps s2 s3 -> keeps s1 s3.
Proof. intros [P1 L1 F1 N1] [P2 L2 F2 N2]. split; [congruence|congruence|by eapply Channel.frame_trans|auto]. Qed.

Lemma frame_change op s : Channel.frame (channel_ s) (channel_ (change op s)).
Proof. split; [done|]. by intros []. Qed.
Lemma valid_change op s :
  valid_events (Channel.events_ (channel_ s)) -> valid_events (Channel.events_ (channel_ (change op s))).
Proof. apply valid_events_op. Qed.

Lemma writing_enable s : valid_events (Channel.events_ (channel_ s)) ->
  Channel.isWriting (channel_ (change Channel.EnableWriting s)) = true.
Proof. unfold Channel.isWriting. cbn. intros [->|[->|[->| ->]]]; done. Qed.
Lemma writing_disable s : valid_events (Channel.events_ (channel_ s)) ->
  Channel.isWriting (channel_ (change Channel.DisableWriting s)) = false.
Proof. unfold Channel.isWriting. cbn. intros [->|[->|[->| ->]]]; done. Qed.
Lemma writing_reading op s : op = Channel.EnableReading \/ op = Channel.DisableReading ->
  valid_events (Channel.events_ (channel_ s)) ->
  Channel.isWriting (channel_ (change op s)) = Channel.isWriting (channel_ s).
Proof. unfold Channel.isWriting. cbn. intros [->| ->] [->|[->|[->| ->]]]; done. Qed.

Lemma life_app es1 es2 : life (es1 ++ es2) = life es1 ++ life es2.
Proof. apply filter_app. Qed.

Lemma tail_ok_app l f : tail_ok l -> (holds_ref f = true \/ no_destroy l) -> tail_ok (l ++ [f]).
Proof.
  induction l as [|g l IH]; cbn; intros Ht Hf.
  { split; [intros _; apply Forall_nil; done|done]. }
  destruct Ht as (Hg&Ht). split.
  - intros Hd. destruct Hf as [Hf|Hf]; [|apply Forall_cons in Hf as [? _]; congruence].
    apply Forall_app. split; [auto|]. by apply Forall_singleton.
  - apply IH; [done|]. destruct Hf as [|Hf]; [by left|]. right. by apply Forall_cons in Hf as [_ ?].
Qed.

(** Queueing a functor: one that holds a reference at any time, a raw one
    before the connection is down. *)
Lemma inv_queue s f :
  inv s -> holds_ref f = true \/ phase_of s <> Dead -> is_destroy f = false ->
  phase_of s <> Opening -> fsend_ok f -> inv (queueInLoop f s).
Proof.
  intros Hinv Hf Hd Ho Hs. destruct (Hinv) as [? ? ? ? ? ? ? ? Hnd (Hq&Hr&_)]. split; try done; cbn.
  - apply tail_ok_app; [done|]. destruct Hf; auto.
  - intros Hp. apply Forall_app. split; [by apply Hnd|]. by apply Forall_singleton.
  - split; [|done]. apply Forall_app. split; [done|]. by apply Forall_singleton.
Qed.
Lemma keeps_queue s f : is_destroy f = false -> keeps s (queueInLoop f s).
Proof.
  intros Hf. split; [done|done|apply frame_refl|]. intros Hn. apply Forall_app. split; [done|].
  by apply Forall_singleton.
Qed.

(** Effects other than the lifecycle callbacks. *)
Lemma inv_emit s e : inv s -> is_life e = false -> half_close_ok e -> inv (emit e s).
Proof.
  intros [] He Hh. split; try done; cbn.
  - destruct e; try done; unfold life_ok, life in *; by rewrite filter_app, app_nil_r.
  - apply Forall_app. split; [done|]. by apply Forall_singleton.
Qed.
Lemma keeps_emit s e : is_life e = false -> keeps s (emit e s).
Proof.
  intros He. split; [done| |apply frame_refl|done]. cbn. rewrite life_app.
  destruct e; try done; cbn; by rewrite app_nil_r.
Qed.

Lemma readable_empty s : inv s -> (Buffer.readableBytes (outputBuffer_ s) =? 0) =
  bool_decide (Buffer.content (outputBuffer_ s) = []).
Proof.
  intros Hinv. rewrite Buffer.readable_content by apply Hinv.
  destruct (Buffer.content _) as [|x l]; [done|]. rewrite zlen_cons, bool_decide_eq_false_2 by done.
  zbool. zlia.
Qed.

(** The common end of [sendInLoop]: [rest] goes to the output buffer. *)
Lemma buffer_rest_ok s s1 rest :
  inv s -> phase_of s = Alive -> 0 < zlen rest < 2 ^ 63 ->
  channel_ s1 = channel_ s -> outputBuffer_ s1 = outputBuffer_ s -> inputBuffer_ s1 = inputBuffer_ s ->
  state_ s1 = state_ s -> effects s1 = effects s -> remote s1 = remote s ->
  tail_ok (pending s1) -> no_destroy (pending s1) -> Forall fsend_ok (pending s1) ->
  accepted s1 = wire s1 ++ Buffer.content (outputBuffer_ s) ++ rest ->
  ok_or_throw (out ← Buffer.append rest (zlen rest) (outputBuffer_ s1);
    let s := set_output out s1 in
    Ok (if Channel.isWriting (channel_ s) then s else change Channel.EnableWriting s))
    (fun s' => inv s' /\ keeps s s').
Proof.
  intros Hinv Hph Hlen Ech Eout Ein Est Eeff Erem Htail Hnd Hfs Hacc. destruct Hinv. rewrite Eout.
  destruct (Buffer.append_or_throw rest (zlen rest) (outputBuffer_ s)) as [(b'&->&Hwf'&Hc')| ->];
    [done|lia|lia| |done]. cbn -[change]. rewrite ztake_all in Hc' by lia.
  assert (Buffer.content b' <> []) as Hne.
  { rewrite Hc'. intros E. apply app_eq_nil in E as [_ ->]. zlia. }
  assert (phase_of s1 = Alive) as Hph1 by (unfold phase_of in *; by rewrite Est).
  set (s2 := if Channel.isWriting _ then set_output b' s1 else _).
  assert (effects s2 = effects s /\ state_ s2 = state_ s /\ pending s2 = pending s1 /\ remote s2 = remote s /\
    wire s2 = wire s1 /\ accepted s2 = accepted s1 /\ inputBuffer_ s2 = inputBuffer_ s /\ outputBuffer_ s2 = b' /\
    valid_events (Channel.events_ (channel_ s2)) /\ Channel.isWriting (channel_ s2) = true /\
    Channel.frame (channel_ s) (channel_ s2)) as (E1&E2&E3&E0&E4&E5&E6&E7&Hv&Hw&Hf).
  { unfold s2. cbn [channel_ set_output]. rewrite Ech.
    destruct (Channel.isWriting (channel_ s)) eqn:Ew; cbn -[change].
    - rewrite Ech. split_and!; try done.
    - split_and!; try done.
      + apply valid_change. cbn. by rewrite Ech.
      + apply writing_enable. cbn. by rewrite Ech.
      + rewrite <- Ech. apply (frame_change _ (set_output b' s1)). }
  assert (phase_of s2 = Alive) as Hph2 by (unfold phase_of in *; by rewrite E2).
  split.
  - split; try (rewrite ?E1, ?E6, ?E7, ?E3; done).
    + by rewrite E5, E4, E7, Hc', Hacc.
    + unfold writing_ok. rewrite Hph2, Hw, E7, bool_decide_eq_false_2 by done. done.
    + rewrite Hph2, E1. by rewrite Hph in inv_life0.
    + split; [by rewrite E3|]. split; [rewrite E0; apply inv_queued0|by rewrite Hph2].
  - split; [congruence|by rewrite E1|done|by rewrite E3].
Qed.

(** What the direct write leaves: the first [n] bytes are on the wire, the
    others remain. *)
Lemma try_write_ok wr data s n remaining fault s1 :
  inv s -> phase_of s = Alive -> zlen data < 2 ^ 63 -> wr_ok wr ->
  try_write wr data s = (n, remaining, fault, s1) ->
  0 <= n <= zlen data /\ remaining = zlen data - n /\ inv (set_wire (wire s) s1) /\
  wire s1 = wire s ++ ztake n data /\ accepted s1 = accepted s /\ keeps s s1 /\
  channel_ s1 = channel_ s /\ outputBuffer_ s1 = outputBuffer_ s /\ inputBuffer_ s1 = inputBuffer_ s /\
  state_ s1 = state_ s /\ effects s1 = effects s /\ remote s1 = remote s /\ tail_ok (pending s1) /\ no_destroy (pending s1) /\
  Forall fsend_ok (pending s1) /\
  (0 < n -> Buffer.content (outputBuffer_ s) = []) /\ (fault = true -> n = 0).
Proof.
  intros Hinv Hph Hlen Hwr. unfold try_write. rewrite readable_empty by done.
  assert (no_destroy (pending s)) as Hnd by (apply Hinv; congruence).
  assert (inv (set_wire (wire s) s)) as Hinv0 by (destruct s; apply Hinv).
  destruct (negb _ && _) eqn:Edir.
  - apply andb_true_iff in Edir as [_ Hempty%bool_decide_eq_true].
    destruct (wr data) as [n'|errno] eqn:Ewr.
    + specialize (Hwr _ _ Ewr). intros [= <- <- <- <-].
      assert (u64 (zlen data - n') = zlen data - n') as -> by (unfold u64; rewrite uwrap_small; [done|lia|unfold urange; lia]).
      cbn -[change]. destruct (_ && _); split_and!; try done; try (zlen_pose; lia); cbn.
      * apply (inv_queue _ FWriteComplete Hinv); [by left|done|by rewrite Hph|done].
      * by destruct (keeps_queue s FWriteComplete eq_refl).
      * apply tail_ok_app; [apply Hinv|by left].
      * apply Forall_app. split; [done|by apply Forall_singleton].
      * apply Forall_app. split; [apply Hinv|by apply Forall_singleton].
      * apply Hinv.
      * apply Hinv.
    + intros [= <- <- <- <-]. split_and!; try done; try (zlen_pose; lia).
      * rewrite ztake_0 by lia. by rewrite app_nil_r.
      * apply Hinv.
      * apply Hinv.
  - intros [= <- <- <- <-]. split_and!; try done; try (zlen_pose; lia).
    + rewrite ztake_0 by lia. by rewrite app_nil_r.
    + apply Hinv.
    + apply Hinv.
Qed.

Lemma try_write_pending wr data s n remaining fault s1 :
  try_write wr data s = (n, remaining, fault, s1) ->
  highWaterMark_ s1 = highWaterMark_ s /\ highWaterMarkCallback_ s1 = highWaterMarkCallback_ s /\
  exists wc, pending s1 = pending s ++ wc /\ (wc = [] \/ wc = [FWriteComplete]).
Proof.
  unfold try_write. destruct (_ && _); [destruct (wr data)|]; intros [= <- <- <- <-].
  - destruct (_ && _); cbn; split_and!; try done; [exists [FWriteComplete]; auto|].
    exists []. by rewrite app_nil_r; auto.
  - split_and!; try done. exists []. by rewrite app_nil_r; auto.
  - split_and!; try done. exists []. by rewrite app_nil_r; auto.
Qed.

Lemma sendInLoop_ok wr data s :
  inv s -> phase_of s <> Opening -> zlen data < 2 ^ 63 -> wr_ok wr ->
  ok_or_throw (sendInLoop wr data s) (fun s' => inv s' /\ keeps s s').
Proof.
  intros Hinv Hph Hlen Hwr. unfold sendInLoop. destruct (decide (state_ s = kDisconnected)) as [|Hst].
  { split; [done|apply keeps_refl]. }
  assert (phase_of s = Alive) as Ha by (unfold phase_of in *; by destruct (state_ s)).
  destruct (try_write wr data s) as [[[n remaining] fault] s1] eqn:E.
  apply try_write_ok in E as (Hn&->&Hinv1&Hw&Hacc&Hk&Ech&Eout&Ein&Est&Eeff&Erem&Ht&Hnd&Hfs&Hc&Hf); try done.
  assert_ok by (zbool; lia). destruct fault; cbn [negb andb].
  { rewrite (Hf eq_refl), ztake_0, app_nil_r in Hw by lia. rewrite <- Hw in Hinv1.
    split; [by destruct s1|done]. }
  assert (accepted s1 ++ data = wire s1 ++ Buffer.content (outputBuffer_ s) ++ zdrop n data) as Hstream.
  { rewrite Hacc, Hw, (inv_stream _ Hinv), <- !app_assoc. f_equal.
    destruct (Z.lt_ge_cases 0 n); [rewrite Hc by done; by rewrite app_nil_l, app_nil_l, ztake_zdrop|].
    by rewrite ztake_0, zdrop_0 by lia. }
  destruct (Z.ltb_spec 0 (zlen data - n)) as [Hpos|Hz].
  - set (s2 := if _ && _ then _ else set_accepted _ s1).
    replace (zlen data - n) with (zlen (zdrop n data)) by zlia.
    apply (buffer_rest_ok s s2); try done; unfold s2; try (by destruct (_ && _)); [zlia|..];
      destruct (_ && _); cbn; try done.
    + apply tail_ok_app; [done|by left].
    + apply Forall_app. split; [done|by apply Forall_singleton].
    + apply Forall_app. split; [done|by apply Forall_singleton].
  - rewrite zdrop_all, app_nil_r in Hstream by lia. cbn. split.
    + destruct Hinv1. split; try done; cbn. by rewrite Hstream, Eout.
    + by destruct Hk.
Qed.

Lemma shutdownInLoop_ok s : inv s -> phase_of s <> Opening -> inv (shutdownInLoop s) /\ keeps s (shutdownInLoop s).
Proof.
  intros Hinv Hp. unfold shutdownInLoop. destruct (Channel.isWriting (channel_ s)) eqn:Ew.
  { split; [done|apply keeps_refl]. }
  split; [|by apply keeps_emit]. apply inv_emit; [done|done|]. cbn. intros Hst.
  pose proof (inv_writing _ Hinv) as Hw. unfold writing_ok, phase_of in *.
  destruct (state_ s); try done; rewrite Ew in Hw; symmetry in Hw;
    apply negb_false_iff, bool_decide_eq_true in Hw; done.
Qed.

(** A change of state between kConnected and kDisconnecting. *)
Lemma inv_disconnecting s : inv s -> phase_of s = Alive ->
  inv (setState kDisconnecting s) /\ keeps s (setState kDisconnecting s).
Proof.
  intros Hinv Ha. assert (phase_of (setState kDisconnecting s) = phase_of s) as Hp by by rewrite Ha.
  split; [|by split; [| |apply frame_refl|]]. destruct Hinv. split; try done; rewrite ?Hp; try done.
  - unfold writing_ok in *. by rewrite Hp.
  - unfold queue_ok in *. by rewrite Hp.
Qed.

(** Reading changes leave the writing bit alone. *)
Lemma inv_reading s op r :
  inv s -> phase_of s = Alive -> op = Channel.EnableReading \/ op = Channel.DisableReading ->
  inv (set_reading r (change op s)) /\ keeps s (set_reading r (change op s)).
Proof.
  intros Hinv Ha Hop. split; [|split; [done|done|apply (frame_change op s)|done]].
  destruct Hinv. split; try done; [by apply (valid_change op s)|].
  unfold writing_ok in *. change (phase_of (set_reading r (change op s))) with (phase_of s). rewrite Ha in *.
  change (channel_ (set_reading r (change op s))) with (channel_ (change op s)).
  by rewrite writing_reading.
Qed.

Lemma phase_alive s : forceClosable s = true <-> phase_of s = Alive.
Proof. unfold forceClosable, phase_of. by destruct (state_ s). Qed.

Lemma phase_connected s : state_ s = kConnected -> phase_of s = Alive.
Proof. unfold phase_of. by intros ->. Qed.

Lemma inv_input s b : inv s -> Buffer.wf b -> inv (set_input b s) /\ keeps s (set_input b s).
Proof. intros [] Hb. split; [by split|]. by split; [| |apply frame_refl|]. Qed.

Lemma read_buffer b : Buffer.wf b ->
  Buffer.read_mem (Buffer.mem_at b (Buffer.peek b)) (Buffer.readableBytes b) = Ok (Buffer.content b).
Proof.
  intros Hb. rewrite Buffer.readable_content by done. rewrite (Buffer.read_mem_content b) by (done || zlia).
  by rewrite ztake_all.
Qed.

Lemma content_small b : Buffer.wf b -> zlen (Buffer.content b) < 2 ^ 63.
Proof.
  intros Hb. rewrite Buffer.content_len by done. unfold Buffer.wf, Buffer.vector_max_size in Hb. lia.
Qed.

Lemma shutdown_ok inLoop s : inv s -> inv (shutdown inLoop s) /\ keeps s (shutdown inLoop s).
Proof.
  intros Hinv. unfold shutdown. destruct (decide (state_ s = kConnected)) as [Hst|].
  2: { split; [done|apply keeps_refl]. }
  destruct (inv_disconnecting s Hinv (phase_connected s Hst)) as [Hi Hk]. destruct inLoop.
  - destruct (shutdownInLoop_ok (setState kDisconnecting s) Hi) as [Hi2 Hk2]; [done|].
    split; [done|by eapply keeps_trans].
  - split; [by apply inv_queue; try right|]. eapply keeps_trans; [done|by apply keeps_queue].
Qed.

Lemma reading_ok s : inv s -> phase_of s = Alive ->
  (inv (startReadInLoop s) /\ keeps s (startReadInLoop s)) /\
  (inv (stopReadInLoop s) /\ keeps s (stopReadInLoop s)).
Proof.
  intros Hinv Ha. unfold startReadInLoop, stopReadInLoop.
  split; (destruct (_ || _); [apply inv_reading; auto|split; [done|apply keeps_refl]]).
Qed.

Lemma phase_cases s : phase_of s <> Opening -> phase_of s <> Dead -> phase_of s = Alive.
Proof. by destruct (phase_of s). Qed.

Lemma do_call_ok inLoop c s :
  inv s -> call_legal c s ->
  ok_or_throw (do_call inLoop c s) (fun s' => inv s' /\ keeps s s').
Proof.
  intros Hinv (Hph&Hc). destruct c as [m wr|buf wr| | |sec| | |n|]; cbn -[startRead stopRead].
  - destruct Hc as (Hlen&Hwr). unfold send. destruct (decide _) as [Hst|]; [|split; [done|apply keeps_refl]].
    rewrite StringPiece.as_string_of_string by done. cbn. destruct inLoop; [apply sendInLoop_ok; try done; lia|].
    split; [apply inv_queue; try done; [right; by rewrite (phase_connected _ Hst)|cbn; lia]|by apply keeps_queue].
  - destruct Hc as (Hwf&Hwr). unfold sendBuffer.
    destruct (decide _) as [Hst|]; [|split; [done|apply keeps_refl]]. destruct inLoop.
    + rewrite read_buffer by done. cbn. do 2 apply ok_or_throw_bind.
      eapply ok_or_throw_mono; [apply sendInLoop_ok; try done; by apply content_small|]. done.
    + unfold Buffer.retrieveAllAsString, Buffer.retrieveAsString. rewrite Z.leb_refl. cbn.
      rewrite read_buffer by done. cbn. rewrite Buffer.readable_content by done.
      destruct (Buffer.retrieve_ok (zlen (Buffer.content buf)) buf) as (b'&->&_); [done|zlia|lia|]. cbn.
      split; [apply inv_queue; try done; [right; by rewrite (phase_connected _ Hst)|by apply content_small]|by apply keeps_queue].
  - by apply shutdown_ok.
  - unfold forceClose. destruct (forceClosable s) eqn:E; [|split; [done|apply keeps_refl]].
    apply phase_alive in E. destruct (inv_disconnecting s Hinv E) as [Hi Hk].
    split; [apply inv_queue; by try left|]. eapply keeps_trans; [done|by apply keeps_queue].
  - unfold forceCloseWithDelay. destruct (forceClosable s) eqn:E; [|split; [done|apply keeps_refl]].
    apply phase_alive in E. destruct (inv_disconnecting s Hinv E) as [Hi Hk].
    split; [by apply inv_emit|]. eapply keeps_trans; [done|by apply keeps_emit].
  - unfold startRead. destruct inLoop; [by apply reading_ok, phase_cases|].
    split; [apply inv_queue; by try right|by apply keeps_queue].
  - unfold stopRead. destruct inLoop; [by apply reading_ok, phase_cases|].
    split; [apply inv_queue; by try right|by apply keeps_queue].
  - destruct (Buffer.retrieve_ok n (inputBuffer_ s)) as (b'&->&Hb'&_); [apply Hinv|lia|lia|].
    by apply inv_input.
  - apply inv_input; [done|]. pose proof (inv_in _ Hinv) as Hb. unfold Buffer.wf, Buffer.retrieveAll in *.
    cbn. unfold Buffer.kCheapPrepend in *. lia.
Qed.

Fixpoint calls_legal (cs : list call) (s : t) : Prop :=
  match cs with
  | [] => True
  | c :: cs' => call_legal c s /\ forall s', do_call true c s = Ok s' -> calls_legal cs' s'
  end.

Lemma run_script_ok cs s :
  inv s -> calls_legal cs s -> ok_or_throw (run_script s cs) (fun s' => inv s' /\ keeps s s').
Proof.
  revert s. induction cs as [|c cs IH]; intros s Hinv Hl; cbn.
  { split; [done|apply keeps_refl]. }
  destruct Hl as (Hc&Hcs). pose proof (do_call_ok true c s Hinv Hc) as Hok.
  destruct (do_call true c s) as [s1|[]]; cbn in *; try done. destruct Hok as (Hi&Hk).
  eapply ok_or_throw_mono; [apply IH; auto|]. intros s2 (?&?). split; [done|by eapply keeps_trans].
Qed.

(** User code makes legal calls. *)
Definition callbacks_legal (cb : callbacks) : Prop := forall s, inv s -> phase_of s <> Opening ->
  calls_legal (on_connection cb s) s /\ (forall time, calls_legal (on_message cb time s) s) /\
  calls_legal (on_writeComplete cb s) s /\ (forall n, calls_legal (on_highWaterMark cb n s) s).

Lemma inv_established s self :
  inv s -> phase_of s = Opening ->
  inv (emit ConnectionUp (change Channel.EnableReading
        (set_channel (Channel.tie self (channel_ s)) (setState kConnected s)))).
Proof.
  intros Hinv Hp. destruct (Hinv) as [? ? ? Hv Hw Hl ? ? Hnd Hq].
  unfold writing_ok, phase_of in Hw, Hl, Hnd, Hp. destruct (state_ s); try done. destruct Hw as (He&Hc).
  split; try done; cbn in *.
  - rewrite He. by right; left.
  - unfold writing_ok. cbn. rewrite Hc. unfold Channel.isWriting. cbn. by rewrite He.
  - by rewrite life_app, Hl.
  - apply Forall_app. split; [done|]. by apply Forall_singleton.
  - intros _. by apply Hnd.
  - split; [apply Hq|]. split; [apply Hq|done].
Qed.

Lemma inv_down s :
  inv s -> phase_of s = Alive ->
  inv (emit ConnectionDown (change Channel.DisableAll (setState kDisconnected s))).
Proof.
  intros Hinv Hp. destruct (Hinv) as [? ? ? Hv Hw Hl ? ? Hnd Hq]. rewrite Hp in Hl.
  split; try done; cbn in *.
  - by left.
  - left. by rewrite life_app, Hl.
  - apply Forall_app. split; [done|]. by apply Forall_singleton.
  - split; [apply Hq|]. split; [apply Hq|done].
Qed.

Section HandlerProofs.
Context (cb : callbacks) (Hcb : callbacks_legal cb).

Lemma connectEstablished_ok self s :
  inv s -> phase_of s = Opening ->
  ok_or_throw (connectEstablished cb self s) (fun s' => inv s' /\ phase_of s' = Alive).
Proof.
  intros Hinv Hp. unfold connectEstablished.
  rewrite bool_decide_eq_true_2 by (unfold phase_of in Hp; by destruct (state_ s)).
  unfold connectionCallback. cbn [massert mbind outcome_bind].
  set (s1 := emit _ _). assert (inv s1) as Hi by exact (inv_established s self Hinv Hp).
  eapply ok_or_throw_mono; [apply run_script_ok; [done|by apply Hcb]|].
  intros s2 (?&Hk). split; [done|]. by rewrite (keeps_phase _ _ Hk).
Qed.

(** [connected()] is false in the callback that reports the end. *)
Lemma connectionDown_ok s :
  inv s -> phase_of s = Alive ->
  ok_or_throw (connectionCallback cb (change Channel.DisableAll (setState kDisconnected s)))
    (fun s' => inv s' /\ phase_of s' = Dead /\ life (effects s') = [ConnectionUp; ConnectionDown] /\
       no_destroy (pending s') /\ Channel.frame (channel_ s) (channel_ s')).
Proof.
  intros Hinv Hp. unfold connectionCallback. set (s1 := emit _ _).
  assert (inv s1) as Hi by exact (inv_down s Hinv Hp).
  eapply ok_or_throw_mono; [apply run_script_ok; [done|by apply Hcb]|].
  intros s2 (?&[Hk1 Hk2 Hk3 Hk4]). split_and!; try done.
  - rewrite Hk2. cbn. rewrite life_app. pose proof (inv_life _ Hinv) as Hl. rewrite Hp in Hl. cbn in Hl.
    by rewrite Hl.
  - apply Hk4. cbn. apply Hinv. by rewrite Hp.
Qed.

Lemma handleClose_ok s :
  inv s -> phase_of s = Alive ->
  ok_or_throw (handleClose cb s) (fun s' => inv s' /\ phase_of s' = Dead /\
    Channel.frame (channel_ s) (channel_ s') /\ exists l, pending s' = l ++ [FConnectDestroyed]).
Proof.
  intros Hinv Hp. unfold handleClose. fold (forceClosable s). rewrite (proj2 (phase_alive s) Hp).
  cbn [massert mbind outcome_bind]. apply ok_or_throw_bind.
  eapply ok_or_throw_mono; [by apply connectionDown_ok|].
  intros s1 (Hi&Hd&Hl&Hn&Hf). split; [|split; [done|]; split; [done|by eexists]].
  destruct Hi. split; try done; cbn.
  - change (phase_of (queueInLoop FConnectDestroyed (emit Closed s1))) with (phase_of s1).
    rewrite Hd. right. by rewrite life_app, Hl.
  - apply Forall_app. split; [done|]. by apply Forall_singleton.
  - apply tail_ok_app; [done|by right].
  - destruct inv_queued0 as (?&?&_). split; [|split; [done|unfold phase_of in *; cbn; by rewrite Hd]].
    apply Forall_app. split; [done|by apply Forall_singleton].
Qed.

Lemma connectDestroyed_ok s :
  inv s -> phase_of s = Dead ->
  exists s', connectDestroyed cb s = Ok s' /\ inv s' /\ phase_of s' = Dead /\
    Channel.addedToLoop_ (channel_ s') = false.
Proof.
  intros Hinv Hp. unfold connectDestroyed. unfold phase_of in Hp.
  destruct (decide (state_ s = kConnected)) as [E|]; [by rewrite E in Hp|]. cbn [mbind outcome_bind].
  pose proof (inv_writing _ Hinv) as Hw. unfold writing_ok, phase_of in Hw.
  destruct (state_ s) eqn:Est; try done. unfold remove, Channel.isNoneEvent. rewrite Hw. cbn.
  eexists. split; [done|]. split; [|split; [unfold phase_of; cbn; by rewrite Est|done]].
  by destruct Hinv.
Qed.

Lemma connectDestroyed_up_ok s :
  inv s -> state_ s = kConnected -> ok_or_throw (connectDestroyed cb s) inv.
Proof.
  intros Hinv Hs. unfold connectDestroyed. rewrite decide_True by done. apply ok_or_throw_bind.
  eapply ok_or_throw_mono; [apply connectionDown_ok; [done|unfold phase_of; by rewrite Hs]|].
  intros s1 (Hi&Hd&_). pose proof (inv_writing _ Hi) as Hw. unfold writing_ok in Hw. rewrite Hd in Hw.
  unfold remove, Channel.isNoneEvent. rewrite Hw. cbn. by destruct Hi.
Qed.

Lemma conn_handleRead_ok rd time s :
  inv s -> phase_of s = Alive -> Buffer.readv_bounded rd ->
  ok_or_throw (handleRead cb rd time s) (fun s' => inv s' /\ phase_of s' <> Opening /\
    Channel.frame (channel_ s) (channel_ s')).
Proof.
  intros Hinv Hp Hrd. unfold handleRead.
  assert (ok_or_throw (Buffer.readFd rd (inputBuffer_ s)) (fun '(_, _, b) => Buffer.wf b)) as Hread.
  { destruct (rd (if Buffer.writableBytes (inputBuffer_ s) <? Buffer.kExtrabufSize
                  then [Buffer.writableBytes (inputBuffer_ s); Buffer.kExtrabufSize]
                  else [Buffer.writableBytes (inputBuffer_ s)])) as [e|data] eqn:E.
    - unfold Buffer.readFd. rewrite E. cbn. apply Hinv.
    - destruct (Buffer.readFd_or_throw rd (inputBuffer_ s) data) as [(b'&->&?&_)| ->]; try done. apply Hinv. }
  apply ok_or_throw_bind. eapply ok_or_throw_mono; [exact Hread|]. intros [[n ?] b] Hb.
  destruct (inv_input s b Hinv Hb) as [Hi Hk].
  destruct (0 <? n); [|destruct (n =? 0)].
  - set (s1 := emit _ _). assert (inv s1) as Hi1 by by apply inv_emit.
    eapply ok_or_throw_mono; [apply run_script_ok; [done|]|].
    + apply Hcb; [done|]. unfold phase_of in *. cbn. by destruct (state_ s).
    + intros s2 (?&[Hk1 _ Hk3 _]). split_and!; [done| |done]. rewrite Hk1. unfold phase_of in *. cbn.
      by destruct (state_ s).
  - eapply ok_or_throw_mono; [by apply handleClose_ok|]. intros s2 (?&->&?&_). by split_and!.
  - cbn. split_and!; [by apply inv_emit| |apply frame_refl]. unfold phase_of in *. cbn. by destruct (state_ s).
Qed.

Lemma handleWrite_ok wr s :
  inv s -> phase_of s <> Opening -> wr_ok wr ->
  exists s', handleWrite wr s = Ok s' /\ inv s' /\ keeps s s'.
Proof.
  intros Hinv Hp Hwr. unfold handleWrite.
  destruct (Channel.isWriting (channel_ s)) eqn:Ew; [|exists s; by split_and!; [..|apply keeps_refl]].
  assert (phase_of s = Alive) as Ha.
  { destruct (phase_of s) eqn:E; try done. pose proof (inv_writing _ Hinv) as Hw. unfold writing_ok in Hw.
    rewrite E in Hw. unfold Channel.isWriting in Ew. by rewrite Hw in Ew. }
  rewrite read_buffer by apply Hinv. cbn -[change Buffer.retrieve].
  set (data := Buffer.content (outputBuffer_ s)).
  destruct (wr data) as [n|e] eqn:E; [|exists s; by split_and!; [..|apply keeps_refl]].
  specialize (Hwr _ _ E). destruct (Z.ltb_spec 0 n); [|exists s; by split_and!; [..|apply keeps_refl]].
  destruct (Buffer.retrieve_ok n (outputBuffer_ s)) as (b'&->&Hb'&Hc'&_); [apply Hinv|lia|fold data; lia|].
  cbn -[change]. fold data in Hc'.
  assert (accepted s = (wire s ++ ztake n data) ++ Buffer.content b') as Hstream.
  { rewrite Hc', <- app_assoc, ztake_zdrop. apply Hinv. }
  destruct (Hinv) as [? Hwo ? Hv Hw Hl ? ? Hnd Hq]. unfold writing_ok in Hw. rewrite Ha, Ew in Hw.
  rewrite Buffer.readable_content by done. destruct (Z.eqb_spec (zlen (Buffer.content b')) 0) as [Hz|Hz].
  - apply Z.eq_le_incl, zlen_lt_0 in Hz.
    set (s1 := change Channel.DisableWriting _).
    assert (inv s1 /\ keeps s s1) as [Hi1 Hk1].
    { split; [|split; [done|done|apply (frame_change Channel.DisableWriting s)|done]].
      split; try done; [by apply (valid_change Channel.DisableWriting s)|].
      unfold writing_ok. change (phase_of s1) with (phase_of s). rewrite Ha.
      change (channel_ s1) with (channel_ (change Channel.DisableWriting s)).
      rewrite writing_disable by done. cbn. by rewrite Hz. }
    set (s2 := if writeCompleteCallback_ s1 then queueInLoop FWriteComplete s1 else s1).
    assert (inv s2 /\ keeps s s2) as [Hi2 Hk2].
    { unfold s2. destruct (writeCompleteCallback_ s1); [|done].
      split; [apply inv_queue; try done; by left|].
      eapply keeps_trans; [done|]. by apply keeps_queue. }
    assert (phase_of s2 <> Opening) by by rewrite (keeps_phase _ _ Hk2).
    eexists. split; [done|]. destruct (decide _); [|done].
    destruct (shutdownInLoop_ok s2 Hi2) as [? ?]; [done|]. split; [done|by eapply keeps_trans].
  - eexists. split; [done|]. split; [|by split; [| |apply frame_refl|]].
    split; try done. unfold writing_ok. change (phase_of (set_output b' _)) with (phase_of s). rewrite Ha. cbn.
    rewrite Ew, bool_decide_eq_false_2; [done|]. intros Hnil. by rewrite Hnil in Hz.
Qed.

(** The events a poller reports for a stream socket: a hang-up comes with
    POLLIN when reading is watched, and POLLRDHUP is never asked for. *)
Definition revents_ok (r : Z) : Prop := Channel.close_cond r = true -> Channel.read_cond r = false.

(** A call of another thread that has passed its test is overtaken when the
    connection is closed before it writes [state_], or before it queues a functor
    that holds a raw pointer. *)
Definition remote_writes (s : t) (i : nat) : Prop :=
  exists c, remote s !! i = Some (c, false) /\
    match c with CShutdown | CForceClose | CForceCloseWithDelay _ => True | _ => False end.
Definition remote_raw (s : t) (i : nat) : Prop :=
  exists c, remote s !! i = Some (c, true) /\
    match c with CForceClose | CForceCloseWithDelay _ => False | _ => True end.

Definition step_legal (st : step) (s : t) : Prop :=
  match st with
  | Establish _ => phase_of s = Opening
  | Event revents _ rd wr => phase_of s = Alive /\ revents_ok revents /\ Buffer.readv_bounded rd /\ wr_ok wr
  | RunPending wr => wr_ok wr /\
      match pending s with (FStartRead | FStopRead) :: _ => phase_of s <> Dead | _ => True end
  | Destroy => state_ s = kConnected
  | CallInLoop c => call_legal c s
  | RemoteTest c => is_remote c = true /\ call_legal c s
  | RemoteWrite i => remote_writes s i -> phase_of s = Alive
  | RemoteQueue i => remote_raw s i -> phase_of s = Alive
  end.
Fixpoint steps_legal (sts : list step) (s : t) : Prop :=
  match sts with
  | [] => True
  | st :: sts' => step_legal st s /\ forall s', exec cb s st = Ok s' -> steps_legal sts' s'
  end.

Lemma inv_pop s f fs : inv s -> pending s = f :: fs -> inv (set_pending fs s).
Proof.
  intros [? ? ? ? ? ? ? Ht Hn (Hq&Hr&Ho)] E. rewrite E in Ht, Hq, Ho. destruct Ht as (_&Ht). split; try done; cbn.
  - intros Hp. specialize (Hn Hp). rewrite E in Hn. by apply Forall_cons in Hn as [_ ?].
  - split; [by apply Forall_cons in Hq as [_ ?]|]. split; [done|]. intros Hp. by destruct (Ho Hp).
Qed.

(** The calls that other threads are in the middle of. *)
Lemma inv_remote s r : inv s -> phase_of s <> Opening -> Forall (fun x => call_ok x.1) r -> inv (set_remote r s).
Proof. intros [? ? ? ? ? ? ? ? ? (?&?&?)] Hp Hr. split; try done. Qed.
Lemma remote_open s i x : inv s -> remote s !! i = Some x -> phase_of s <> Opening /\ call_ok x.1.
Proof.
  intros Hinv E. destruct (inv_queued _ Hinv) as (_&Hr&Ho). split.
  - intros Hp. destruct (Ho Hp) as [_ Hn]. rewrite Hn in E. by rewrite lookup_nil in E.
  - by eapply (Forall_lookup_1 _ _ _ _ Hr).
Qed.
Lemma remote_write_ok i s c :
  inv s -> remote s !! i = Some (c, false) -> (remote_writes s i -> phase_of s = Alive) ->
  inv (set_remote (<[i := (c, true)]> (remote s)) (remote_write c s)).
Proof.
  intros Hinv E Hl. destruct (remote_open s i _ Hinv E) as [Hp Hc].
  assert (Forall (fun x => call_ok x.1) (<[i := (c, true)]> (remote s))) as Hr.
  { apply Forall_insert; [apply (inv_queued _ Hinv)|done]. }
  assert (remote_write c s = s \/ remote_write c s = setState kDisconnecting s /\ phase_of s = Alive) as [->|[-> Ha]].
  { destruct c; try (by left); right; (split; [done|]); apply Hl; by eexists. }
  - by apply inv_remote.
  - apply (inv_disconnecting s Hinv) in Ha as [Hi Hk]. apply inv_remote; [done| |done]. by rewrite (keeps_phase _ _ Hk).
Qed.
Lemma remote_queue_ok i s c :
  inv s -> remote s !! i = Some (c, true) -> (remote_raw s i -> phase_of s = Alive) ->
  ok_or_throw (remote_queue c (set_remote (delete i (remote s)) s)) inv.
Proof.
  intros Hinv E Hl. destruct (remote_open s i _ Hinv E) as [Hp Hc].
  set (s1 := set_remote _ s). assert (inv s1) as Hi.
  { apply inv_remote; [done|done|]. apply Forall_delete, (inv_queued _ Hinv). }
  assert (phase_of s1 <> Opening) as Hp1 by done.
  assert (forall f, holds_ref f = true \/ remote_raw s i -> is_destroy f = false -> fsend_ok f -> inv (queueInLoop f s1)) as Hq.
  { intros f Hf Hd Hs. apply inv_queue; try done. destruct Hf as [|Hraw]; [by left|right].
    change (phase_of s1) with (phase_of s). by rewrite (Hl Hraw). }
  destruct c; cbn [remote_queue]; try done.
  - rewrite StringPiece.as_string_of_string by done. cbn. apply Hq; [right; by eexists|done|cbn in *; lia].
  - unfold Buffer.retrieveAllAsString, Buffer.retrieveAsString. rewrite Z.leb_refl. cbn.
    rewrite read_buffer by done. cbn. rewrite Buffer.readable_content by done.
    destruct (Buffer.retrieve_ok (zlen (Buffer.content buf)) buf) as (b'&->&_); [done|zlia|lia|]. cbn.
    apply Hq; [right; by eexists|done|by apply content_small].
  - apply Hq; [right; by eexists|done|done].
  - apply Hq; [by left|done|done].
  - by apply inv_emit.
  - apply Hq; [right; by eexists|done|done].
  - apply Hq; [right; by eexists|done|done].
Qed.

Lemma run_functor_ok wr f s :
  inv s -> phase_of s <> Opening -> wr_ok wr -> fsend_ok f ->
  (is_destroy f = true -> phase_of s = Dead) ->
  match f with FStartRead | FStopRead => phase_of s <> Dead | _ => True end ->
  ok_or_throw (run_functor cb wr f s) (fun s' => inv s' /\ phase_of s' <> Opening).
Proof.
  intros Hinv Hp Hwr Hd Hdes Hread.
  assert (forall s', inv s' /\ keeps s s' -> inv s' /\ phase_of s' <> Opening) as Hkeep
    by (intros s' (?&Hk); split; [done|by rewrite (keeps_phase _ _ Hk)]).
  destruct f; cbn -[phase_of startReadInLoop stopReadInLoop shutdownInLoop].
  - eapply ok_or_throw_mono; [by apply sendInLoop_ok|done].
  - by apply Hkeep, shutdownInLoop_ok.
  - unfold forceCloseInLoop. destruct (forceClosable s) eqn:E; [|done]. apply phase_alive in E.
    eapply ok_or_throw_mono; [by apply handleClose_ok|]. by intros s' (?&->&_).
  - by apply Hkeep, reading_ok, phase_cases.
  - by apply Hkeep, reading_ok, phase_cases.
  - set (s1 := emit _ _). assert (inv s1) as Hi by by apply inv_emit.
    eapply ok_or_throw_mono; [apply run_script_ok; [done|by apply Hcb]|].
    intros s' (?&Hk). split; [done|]. by rewrite (keeps_phase _ _ Hk).
  - set (s1 := emit _ _). assert (inv s1) as Hi by by apply inv_emit.
    eapply ok_or_throw_mono; [apply run_script_ok; [done|by apply Hcb]|].
    intros s' (?&Hk). split; [done|]. by rewrite (keeps_phase _ _ Hk).
  - destruct (connectDestroyed_ok s Hinv (Hdes eq_refl)) as (s'&->&?&E&_).
    cbn -[phase_of]. by rewrite E.
Qed.

(** Worlds reached while one set of events is being handled. *)
Definition during (r : Z) (s : t) : Prop :=
  inv s /\ phase_of s <> Opening /\ Channel.revents_ (channel_ s) = r.

Lemma during_put r s h : during r s -> during r (set_channel (Channel.set_eventHandling h (channel_ s)) s).
Proof. intros ([]&?&?). split; [by split|done]. Qed.

Lemma handleEventWithGuard_ok rd wr time s :
  inv s -> phase_of s = Alive -> revents_ok (Channel.revents_ (channel_ s)) ->
  Buffer.readv_bounded rd -> wr_ok wr ->
  ok_or_throw (Channel.handleEventWithGuard channel_ set_channel (invoke cb rd wr) time s)
    (fun s' => inv s' /\ phase_of s' <> Opening).
Proof.
  intros Hinv Hp Hr Hrd Hwr. set (r := Channel.revents_ (channel_ s)) in *.
  unfold Channel.handleEventWithGuard.
  set (s0 := set_channel _ s).
  assert (during r s0 /\ phase_of s0 = Alive) as [D0 P0].
  { split; [|done]. apply during_put. split; [done|]. split; [by rewrite Hp|done]. }
  clearbody s0. clearbody r. unfold Channel.fire. apply ok_or_throw_bind.
  apply (ok_or_throw_mono _ (fun s1 => during r s1 /\ (Channel.close_cond r = false -> phase_of s1 = Alive))).
  { destruct D0 as (I0&Q0&R0). rewrite R0. destruct (Channel.close_cond r) eqn:Ecl; [|done].
    destruct (Channel.hasCallback _ _); [|done]. cbn.
    eapply ok_or_throw_mono; [by apply handleClose_ok|]. intros s1 (?&Hd&[Hf _]&_).
    split; [split; [done|]; split; [by rewrite Hd|congruence]|done]. }
  intros s1 (D1&P1). apply ok_or_throw_bind.
  apply (ok_or_throw_mono _ (fun s2 => during r s2 /\ phase_of s2 = phase_of s1)).
  { destruct (Channel.error_cond _); [|done]. destruct (Channel.hasCallback _ _); [|done]. cbn.
    destruct D1 as (I1&Q1&R1). split; [split; [by apply inv_emit|done]|done]. }
  intros s2 (D2&P2). apply ok_or_throw_bind.
  apply (ok_or_throw_mono _ (during r)).
  { destruct D2 as (I2&Q2&R2). destruct (Channel.read_cond _) eqn:Ec; [|done].
    destruct (Channel.hasCallback _ _); [|done]. cbn.
    assert (phase_of s2 = Alive) as Pa.
    { rewrite P2. apply P1. destruct (Channel.close_cond r) eqn:Ecl; [|done].
      apply Hr in Ecl. congruence. }
    eapply ok_or_throw_mono; [by apply conn_handleRead_ok|]. intros s3 (?&?&[Hf _]).
    split_and!; try done. congruence. }
  intros s3 D3. apply ok_or_throw_bind.
  apply (ok_or_throw_mono _ (during r)).
  { destruct D3 as (I3&Q3&R3). destruct (Channel.write_cond _); [|done].
    destruct (Channel.hasCallback _ _); [|done]. cbn.
    destruct (handleWrite_ok wr s3 I3 Q3 Hwr) as (s4&->&?&[Hk1 _ [Hk3 _] _]).
    split; [done|]. split; [by rewrite Hk1|congruence]. }
  intros s4 D4. destruct (during_put r s4 false D4) as (?&?&_). done.
Qed.

Lemma conn_exec_ok st s : inv s -> step_legal st s -> ok_or_throw (exec cb s st) inv.
Proof.
  intros Hinv Hl. destruct st as [self|revents time rd wr|wr| |c|c|i|i]; cbn -[phase_of do_call] in *.
  - eapply ok_or_throw_mono; [by apply connectEstablished_ok|]. by intros s' (?&_).
  - destruct Hl as (Hp&Hr&Hrd&Hwr). set (s1 := set_channel _ s).
    assert (inv s1 /\ phase_of s1 = Alive) as [Hi1 Hp1] by (split; [by destruct Hinv|done]).
    assert (ok_or_throw (Channel.handleEventWithGuard channel_ set_channel (invoke cb rd wr) time s1) inv) as Hg.
    { eapply ok_or_throw_mono; [by apply handleEventWithGuard_ok|]. by intros s' (?&_). }
    unfold Channel.handleEvent. destruct (Channel.tied_ _); [|done]. by destruct (Channel.tie_ _).
  - destruct Hl as (Hwr&Hread). destruct (pending s) as [|f fs] eqn:E; [done|].
    eapply ok_or_throw_mono; [apply run_functor_ok|by intros s' (?&_)]; try done.
    + by eapply inv_pop.
    + change (phase_of (set_pending fs s)) with (phase_of s). intros Ho.
      apply (inv_queued _ Hinv) in Ho as [Ho _]. congruence.
    + pose proof (inv_queued _ Hinv) as [Hq _]. rewrite E in Hq. by apply Forall_cons in Hq as [? _].
    + intros Hd. change (phase_of (set_pending fs s)) with (phase_of s).
      destruct (decide (phase_of s = Dead)) as [|Hnd]; [done|]. apply (inv_destroy _ Hinv) in Hnd.
      rewrite E in Hnd. apply Forall_cons in Hnd as [? _]. congruence.
  - by apply connectDestroyed_up_ok.
  - eapply ok_or_throw_mono; [by apply do_call_ok|]. by intros s' (?&_).
  - destruct Hl as (Hr&Hp&Hc). destruct (remote_test c s); [|done]. apply inv_remote; [done|done|].
    apply Forall_app. split; [apply (inv_queued _ Hinv)|]. apply Forall_singleton.
    destruct c; try done; by destruct Hc.
  - destruct (remote s !! i) as [[c []]|] eqn:E; [done|by apply remote_write_ok|done].
  - destruct (remote s !! i) as [[c []]|] eqn:E; [by apply remote_queue_ok|done|done].
Qed.

Lemma conn_run_ok sts s : inv s -> steps_legal sts s -> ok_or_throw (run cb s sts) inv.
Proof.
  revert s. induction sts as [|st sts IH]; intros s Hinv Hl; cbn; [done|].
  destruct Hl as (Hst&Hsts). pose proof (conn_exec_ok st s Hinv Hst) as Hok.
  destruct (exec cb s st) as [s1|[]]; cbn in *; try done. apply IH; auto.
Qed.

End HandlerProofs.

Lemma new_inv fd : exists s, new_ fd = Ok s /\ inv s /\ phase_of s = Opening /\ accepted s = [].
Proof.
  unfold new_.
  destruct (Buffer.new_ok Buffer.kInitialSize) as (b&->&Hb&Hc&_); [done|done|]. cbn.
  eexists. split; [done|]. split; [|done]. split; cbn -[Buffer.content]; try done.
  - by left.
  - constructor.
Qed.

(** * Properties *)

(** An echo server on descriptor 7 that receives "hi", whose kernel first
    takes one byte at a time, and that is then shut down. *)
Definition witness_wr (d : bytes) : write_result := Wrote (Z.min 1 (zlen d)).
Definition witness_rd (iov : list Z) : Buffer.read_result :=
  if 2 <=? foldr Z.add 0 iov then Buffer.ReadBytes (lit "hi") else Buffer.ReadError EWOULDBLOCK.
Definition witness_cb : callbacks :=
  {| on_connection _ := [];
     on_message _ s := if zlen (Buffer.content (inputBuffer_ s)) <? 1000
       then [CRetrieveAll; CSend (Buffer.content (inputBuffer_ s)) witness_wr] else [CRetrieveAll];
     on_writeComplete _ := []; on_highWaterMark _ _ := [] |}.
Definition witness_steps : list step :=
  [Establish 1; Event Channel.POLLIN 0 witness_rd witness_wr; CallInLoop CShutdown;
   Event Channel.POLLOUT 0 witness_rd witness_wr].

Lemma witness_wr_ok : wr_ok witness_wr.
Proof. intros d n [= <-]. pose proof (zlen_nonneg d). lia. Qed.
Lemma witness_rd_ok : Buffer.readv_bounded witness_rd.
Proof.
  intros iov d _. unfold witness_rd. destruct (Z.leb_spec 2 (foldr Z.add 0 iov)); [|done].
  intros [= <-]. exact H.
Qed.
Lemma witness_cb_legal : callbacks_legal witness_cb.
Proof.
  intros s _ Hp. split_and!; try done. intros time. cbn.
  destruct (Z.ltb_spec (zlen (Buffer.content (inputBuffer_ s))) 1000); [|done].
  split; [done|]. intros s' [= <-]. split; [|done]. split; [exact Hp|]. split; [lia|apply witness_wr_ok].
Qed.
Lemma witness_steps_legal s0 : new_ 7 = Ok s0 -> steps_legal witness_cb witness_steps s0.
Proof.
  pose proof witness_wr_ok. pose proof witness_rd_ok. intros E. vm_compute in E. injection E as <-.
  split; [reflexivity|]. intros s1 E. vm_compute in E. injection E as <-.
  split; [split; [reflexivity|]; split; [intros Hc; discriminate Hc|done]|].
  intros s2 E. vm_compute in E. injection E as <-.
  split; [split; [discriminate|done]|]. intros s3 E. vm_compute in E. injection E as <-.
  split; [split; [reflexivity|]; split; [intros Hc; discriminate Hc|done]|done].
Qed.

(** States reached by legal runs satisfy the invariant. *)
Lemma reached_inv cb fd sts s0 s :
  callbacks_legal cb -> new_ fd = Ok s0 -> steps_legal cb sts s0 -> run cb s0 sts = Ok s -> inv s.
Proof.
  intros Hcb Hnew Hl Hrun. destruct (new_inv fd) as (s1&E&Hi&_). assert (s1 = s0) as -> by congruence.
  pose proof (conn_run_ok cb Hcb sts s0 Hi Hl) as Hok. by rewrite Hrun in Hok.
Qed.

(** The echo server after its message came in: one byte is still buffered. *)
Lemma witness_buffered :
  exists s, inv s /\ Channel.isWriting (channel_ s) = true /\ phase_of s = Alive /\
    Buffer.content (outputBuffer_ s) = lit "i" /\
    exists s', sendInLoop witness_wr (lit "more") (setHighWaterMarkCallback true 4 s) = Ok s' /\
      Buffer.content (outputBuffer_ s') = lit "imore".
Proof.
  destruct (new_ 7) as [s0|] eqn:E0; [|discriminate E0].
  destruct (run witness_cb s0 (take 2 witness_steps)) as [s|] eqn:E1.
  2: { vm_compute in E0; injection E0 as <-; vm_compute in E1; discriminate E1. }
  exists s. split.
  - eapply (reached_inv witness_cb 7 _ s0); [apply witness_cb_legal|done| |exact E1].
    destruct (witness_steps_legal s0 E0) as (?&Hl). split; [done|]. intros s1 Es1.
    by destruct (Hl _ Es1) as (?&_).
  - vm_compute in E0. injection E0 as <-. vm_compute in E1. injection E1 as <-.
    split; [reflexivity|]. split; [reflexivity|]. split; [reflexivity|].
    eexists. split; [vm_compute; reflexivity|reflexivity].
Qed.




(** Two other threads call forceClose and shutdown at once; the connection is
    closed while the functor of the second still waits. *)
Definition remote_steps : list step :=
  [Establish 1; RemoteTest CForceClose; RemoteTest CShutdown; RemoteWrite 1; RemoteWrite 0; RemoteQueue 1; RemoteQueue 0;
   RunPending witness_wr; RunPending witness_wr].
Lemma remote_steps_legal s0 : new_ 7 = Ok s0 -> steps_legal default_callbacks remote_steps s0.
Proof.
  pose proof witness_wr_ok. intros E. vm_compute in E. injection E as <-.
  split; [reflexivity|]. intros s1 E. vm_compute in E. injection E as <-.
  do 2 (split; [done|]; intros ? E; vm_compute in E; injection E as <-).
  do 4 (split; [intros _; reflexivity|]; intros ? E; vm_compute in E; injection E as <-).
  do 2 (split; [done|]; intros ? E; vm_compute in E; injection E as <-). done.
Qed.
Lemma default_callbacks_legal : callbacks_legal default_callbacks.
Proof. intros s _ Hp. by split_and!. Qed.

(** The test and the write of [state_] are not one operation: a forceClose of
    another thread that has passed its test when the peer closes the connection
    sets [state_] back to kDisconnecting, and the connection is closed a second
    time, with both callbacks. *)
Example overtaken_force_close_closes_twice :
  let hangup (_ : list Z) := Buffer.ReadBytes [] in
  match new_ 7 with
  | Ok s0 =>
      match run default_callbacks s0
        [Establish 1; RemoteTest CForceClose; Event Channel.POLLIN 0 hangup witness_wr; RemoteWrite 0; RemoteQueue 0;
         RunPending witness_wr; RunPending witness_wr] with
      | Ok s => life (effects s) = [ConnectionUp; ConnectionDown; Closed; ConnectionDown; Closed] /\
                pending s = [FConnectDestroyed]
      | Err _ => False
      end
  | Err _ => False
  end.
Proof. vm_compute. split; reflexivity. Qed.

(** C4: [shutdown] is graceful.  In every run, whenever the write side of the
    socket of a live connection is shut down, the output buffer is empty: every
    accepted byte has been given to the kernel before the FIN. *)
Theorem shutdown_waits_for_output cb fd sts s0 :
  callbacks_legal cb -> new_ fd = Ok s0 -> steps_legal cb sts s0 ->
  ok_or_throw (run cb s0 sts) (fun s => forall st unsent,
    ShutdownWrite st unsent ∈ effects s -> st <> kDisconnected -> unsent = []).
Proof.
  intros Hcb Hnew Hl. destruct (new_inv fd) as (s1&E&Hi&_). assert (s1 = s0) as -> by congruence.
  eapply ok_or_throw_mono; [by apply conn_run_ok|]. intros s Hinv st unsent Hin.
  pose proof (inv_half _ Hinv) as Hh. rewrite Forall_forall in Hh. by apply Hh in Hin.
Qed.

Lemma shutdown_waits_for_output_witness :
  exists s0 s, new_ 7 = Ok s0 /\ run witness_cb s0 witness_steps = Ok s /\
    wire s = lit "hi" /\ ShutdownWrite kDisconnecting [] ∈ effects s /\
    forall st unsent, ShutdownWrite st unsent ∈ effects s -> st <> kDisconnected -> unsent = [].
Proof.
  destruct (new_ 7) as [s0|] eqn:E0; [|discriminate E0].
  pose proof (shutdown_waits_for_output witness_cb 7 witness_steps s0 witness_cb_legal E0
    (witness_steps_legal s0 E0)) as Hw.
  destruct (run witness_cb s0 witness_steps) as [s|] eqn:E1;
    [|vm_compute in E0; injection E0 as <-; vm_compute in E1; discriminate E1].
  exists s0, s. split; [reflexivity|]. split; [exact E1|]. split; [|split; [|exact Hw]];
    vm_compute in E0; injection E0 as <-; vm_compute in E1; injection E1 as <-;
    [reflexivity|cbn; right; right; left].
Defined.

(** [handleWrite] when the kernel takes [n > 0] bytes of a writing
    connection: exactly these bytes leave the output buffer; when it becomes
    empty the channel stops watching for writability, the write-complete
    callback is queued if there is one, and a connection in kDisconnecting shuts
    its write side down. *)
Theorem handleWrite_flushes wr s n :
  inv s -> Channel.isWriting (channel_ s) = true ->
  wr (Buffer.content (outputBuffer_ s)) = Wrote n -> 0 < n <= zlen (Buffer.content (outputBuffer_ s)) ->
  exists s', handleWrite wr s = Ok s' /\
    wire s' = wire s ++ ztake n (Buffer.content (outputBuffer_ s)) /\
    Buffer.content (outputBuffer_ s') = zdrop n (Buffer.content (outputBuffer_ s)) /\
    let flushed := bool_decide (n = zlen (Buffer.content (outputBuffer_ s))) in
    Channel.isWriting (channel_ s') = negb flushed /\
    pending s' = pending s ++ (if flushed && writeCompleteCallback_ s then [FWriteComplete] else []) /\
    effects s' = effects s ++ (if flushed && bool_decide (state_ s = kDisconnecting)
                               then [ShutdownWrite kDisconnecting []] else []).
Proof.
  intros Hinv Ew E Hn. unfold handleWrite. rewrite Ew, read_buffer by apply Hinv.
  cbn -[change Buffer.retrieve Buffer.content]. rewrite E. destruct (Z.ltb_spec 0 n); [|lia].
  destruct (Buffer.retrieve_ok n (outputBuffer_ s)) as (b'&->&Hb'&Hc'&_); [apply Hinv|lia|lia|].
  cbn -[change Buffer.content]. rewrite Buffer.readable_content by done.
  assert (zlen (Buffer.content b') = zlen (Buffer.content (outputBuffer_ s)) - n) as Hlen by (rewrite Hc'; zlia).
  rewrite Hlen. destruct (Z.eqb_spec (zlen (Buffer.content (outputBuffer_ s)) - n) 0) as [Hz|Hz].
  - rewrite bool_decide_eq_true_2 by lia. eexists. split; [done|].
    assert (Buffer.content b' = []) as Hnil by (apply zlen_lt_0; lia).
    set (s1 := change Channel.DisableWriting _).
    assert (Channel.isWriting (channel_ s1) = false) as Ew1 by (apply writing_disable, Hinv).
    set (s2 := if writeCompleteCallback_ s1 then queueInLoop FWriteComplete s1 else s1).
    assert (channel_ s2 = channel_ s1 /\ state_ s2 = state_ s /\ outputBuffer_ s2 = b' /\
      wire s2 = wire s ++ ztake n (Buffer.content (outputBuffer_ s)) /\ effects s2 = effects s /\
      pending s2 = pending s ++ (if writeCompleteCallback_ s then [FWriteComplete] else []))
      as (E1&E2&E3&E4&E5&E6).
    { unfold s2. change (writeCompleteCallback_ s1) with (writeCompleteCallback_ s).
      destruct (writeCompleteCallback_ s); cbn; rewrite ?app_nil_r; done. }
    clearbody s2. rewrite <- Hc'. unfold shutdownInLoop. rewrite E1, E2, E3, Ew1, Hnil.
    destruct (decide (state_ s = kDisconnecting)) as [Hst|Hst]; cbn -[Buffer.content Channel.isWriting].
    + rewrite bool_decide_eq_true_2, E1, E3, E5, Hst by done. by split_and!.
    + rewrite bool_decide_eq_false_2, E1, E3, E5, app_nil_r by done. by split_and!.
  - rewrite bool_decide_eq_false_2 by lia. eexists. split; [done|]. cbn. rewrite !app_nil_r. by split_and!.
Qed.

Lemma handleWrite_flushes_witness :
  exists s s', inv s /\ handleWrite witness_wr s = Ok s' /\
    Buffer.content (outputBuffer_ s) = lit "i" /\ Buffer.content (outputBuffer_ s') = [] /\
    Channel.isWriting (channel_ s') = false.
Proof.
  destruct witness_buffered as (s&Hinv&Hw&_&Hc&_).
  destruct (handleWrite_flushes witness_wr s 1) as (s'&E&_&Hc'&Hw'&_).
  - exact Hinv.
  - exact Hw.
  - rewrite Hc. reflexivity.
  - rewrite Hc. vm_compute. split; [reflexivity|discriminate].
  - exists s, s'. rewrite Hc in Hc', Hw'. by split_and!.
Defined.

(** The high water mark is reported exactly when the output buffer crosses
    it.  One [sendInLoop] on a live connection queues the high-water-mark
    callback, with the new size of the output buffer, exactly when the buffer
    was below the mark before and is at or above it after. *)
Theorem high_water_mark_reported_on_crossing wr data s s' :
  inv s -> phase_of s = Alive -> zlen data < 2 ^ 63 -> wr_ok wr -> sendInLoop wr data s = Ok s' ->
  let before := zlen (Buffer.content (outputBuffer_ s)) in
  let after := zlen (Buffer.content (outputBuffer_ s')) in
  exists wc, (wc = [] \/ wc = [FWriteComplete]) /\
    pending s' = pending s ++ wc ++
      (if highWaterMarkCallback_ s && (before <? highWaterMark_ s) && (highWaterMark_ s <=? after)
       then [FHighWaterMark after] else []).
Proof.
  intros Hinv Ha Hlen Hwr. unfold sendInLoop.
  destruct (decide (state_ s = kDisconnected)) as [E|_]; [unfold phase_of in Ha; by rewrite E in Ha|].
  destruct (try_write wr data s) as [[[n remaining] fault] s1] eqn:E.
  pose proof (try_write_pending _ _ _ _ _ _ _ E) as (Em&Ecb&wc&Hwc&Hcase).
  apply try_write_ok in E as (Hn&->&_&_&_&_&Ech&Eout&_&_&_&_&_&_&_&_); try done.
  assert_ok by (zbool; lia). intros Hs'.
  assert (forall b, zlen b < highWaterMark_ s -> highWaterMark_ s <= zlen (A := Z) b -> False) as Habs by (intros; lia).
  assert (zlen (Buffer.content (outputBuffer_ s')) = zlen (Buffer.content (outputBuffer_ s)) ->
    pending s' = pending s1 -> exists wc0, (wc0 = [] \/ wc0 = [FWriteComplete]) /\
    pending s' = pending s ++ wc0 ++
      (if highWaterMarkCallback_ s && (zlen (Buffer.content (outputBuffer_ s)) <? highWaterMark_ s)
          && (highWaterMark_ s <=? zlen (Buffer.content (outputBuffer_ s')))
       then [FHighWaterMark (zlen (Buffer.content (outputBuffer_ s')))] else [])) as Hsame.
  { intros -> ->. exists wc. split; [done|]. rewrite Hwc. f_equal.
    destruct (Z.ltb_spec (zlen (Buffer.content (outputBuffer_ s))) (highWaterMark_ s)),
      (Z.leb_spec (highWaterMark_ s) (zlen (Buffer.content (outputBuffer_ s)))); try lia;
      destruct (highWaterMarkCallback_ s); cbn; by rewrite app_nil_r. }
  destruct fault; cbn [negb andb] in Hs'.
  { injection Hs' as <-. apply Hsame; [by rewrite Eout|done]. }
  destruct (Z.ltb_spec 0 (zlen data - n)) as [Hpos|Hz].
  2: { injection Hs' as <-. apply Hsame; [cbn; by rewrite Eout|done]. }
  cbn -[Buffer.content Buffer.append Buffer.readableBytes u64 change] in Hs'.
  rewrite Em, Ecb, Eout, Buffer.readable_content in Hs' by apply Hinv.
  set (old := zlen (Buffer.content (outputBuffer_ s))) in *.
  set (s2 := if _ && _ && highWaterMarkCallback_ s then _ else _) in Hs'.
  assert (outputBuffer_ s2 = outputBuffer_ s) as Eo2 by (unfold s2; by destruct (_ && _ && _)).
  rewrite Eo2 in Hs'.
  destruct (Buffer.append_or_throw (zdrop n data) (zlen data - n) (outputBuffer_ s)) as [(b'&Eb&Hb'&Hc')|Eb];
    [apply Hinv|zlia|lia|rewrite Eb in Hs'; cbn -[change] in Hs'|rewrite Eb in Hs'; by cbn in Hs'].
  assert (pending s' = pending s2 /\ outputBuffer_ s' = b') as [Ep ->]
    by (injection Hs' as <-; by destruct (Channel.isWriting _)).
  assert (u64 (old + (zlen data - n)) = zlen (Buffer.content b')) as Htot.
  { assert (old + (zlen data - n) = zlen (Buffer.content b')) as -> by (rewrite Hc'; unfold old; zlia).
    pose proof (content_small b' Hb'). pose proof (zlen_nonneg (Buffer.content b')).
    unfold u64. by rewrite uwrap_small by (unfold urange; lia). }
  exists wc. split; [done|]. rewrite Ep. unfold s2. rewrite Htot.
  destruct (highWaterMarkCallback_ s), (old <? highWaterMark_ s), (highWaterMark_ s <=? zlen (Buffer.content b'));
    cbn; rewrite Hwc, <- ?app_assoc; by rewrite ?app_nil_r.
Qed.

Lemma high_water_mark_reported_on_crossing_witness :
  exists s s' wc, phase_of s = Alive /\ sendInLoop witness_wr (lit "more") s = Ok s' /\
    highWaterMark_ s = 4 /\ highWaterMarkCallback_ s = true /\
    pending s' = pending s ++ wc ++ [FHighWaterMark 5].
Proof.
  destruct witness_buffered as (s1&Hinv&_&Ha&Hc&s'&E&Hc').
  set (s := setHighWaterMarkCallback true 4 s1) in *.
  destruct (high_water_mark_reported_on_crossing witness_wr (lit "more") s s') as (wc&_&Hp).
  - by destruct Hinv.
  - exact Ha.
  - done.
  - apply witness_wr_ok.
  - exact E.
  - exists s, s', wc. split; [exact Ha|]. split; [exact E|]. split; [reflexivity|]. split; [reflexivity|].
    rewrite Hp. change (outputBuffer_ s) with (outputBuffer_ s1). by rewrite Hc, Hc'.
Defined.

(** C23: [startRead] on a connection that is already closed breaks its
    destruction: it registers the channel again, and [connectDestroyed], which
    the close has queued, then fails the assertion of [Channel::remove]. *)
Theorem startRead_after_close_breaks_destroy cb s fs wr :
  inv s -> state_ s = kDisconnected -> pending s = FConnectDestroyed :: fs ->
  run cb s [CallInLoop CStartRead; RunPending wr] = Err (AssertFail "isNoneEvent()").
Proof.
  intros Hinv Hst Hp. pose proof (inv_writing _ Hinv) as Hw. unfold writing_ok, phase_of in Hw.
  rewrite Hst in Hw.
  assert (exec cb s (CallInLoop CStartRead) = Ok (set_reading true (change Channel.EnableReading s))) as E.
  { cbn [exec do_call startRead]. unfold startReadInLoop, Channel.isReading. rewrite Hw.
    change (Channel.has 0 Channel.kReadEvent) with false. by rewrite orb_true_r. }
  unfold run. cbn [foldM]. rewrite E. cbn [mbind outcome_bind exec].
  change (pending (set_reading true (change Channel.EnableReading s))) with (pending s). rewrite Hp.
  unfold run_functor, connectDestroyed. cbn. rewrite Hst. cbn.
  unfold remove, Channel.isNoneEvent. rewrite decide_False by done. cbn. by rewrite Hw.
Qed.

Lemma startRead_after_close_breaks_destroy_witness :
  exists s0 s, new_ 7 = Ok s0 /\
    run witness_cb s0 [Establish 1; Event Channel.POLLHUP 0 witness_rd witness_wr] = Ok s /\
    run witness_cb s [CallInLoop CStartRead; RunPending witness_wr] = Err (AssertFail "isNoneEvent()").
Proof.
  destruct (new_ 7) as [s0|] eqn:E0; [|discriminate E0].
  destruct (run witness_cb s0 [Establish 1; Event Channel.POLLHUP 0 witness_rd witness_wr]) as [s|] eqn:E1.
  2: { vm_compute in E0; injection E0 as <-; vm_compute in E1; discriminate E1. }
  exists s0, s. split; [reflexivity|]. split; [exact E1|].
  apply (startRead_after_close_breaks_destroy witness_cb s [] witness_wr).
  - eapply (reached_inv witness_cb 7 _ s0); [apply witness_cb_legal|exact E0| |exact E1].
    clear E1. vm_compute in E0. injection E0 as <-. split; [reflexivity|].
    intros s1 E. vm_compute in E. injection E as <-. split; [|done].
    split; [reflexivity|]. split; [intros _; reflexivity|]. split; [apply witness_rd_ok|apply witness_wr_ok].
  - vm_compute in E0. injection E0 as <-. vm_compute in E1. injection E1 as <-. reflexivity.
  - vm_compute in E0. injection E0 as <-. vm_compute in E1. injection E1 as <-. reflexivity.
Defined.

(** [connectDestroyed] on a connection that is being shut down (as
    [~TcpServer] calls it) fails the assertion of [Channel::remove]: only
    kConnected is taken down first, and the channel of a connection in
    kDisconnecting still watches for input. *)
Theorem connectDestroyed_while_disconnecting_fails cb s :
  state_ s = kDisconnecting -> Channel.isReading (channel_ s) = true ->
  connectDestroyed cb s = Err (AssertFail "isNoneEvent()").
Proof.
  intros Hst Hr. unfold connectDestroyed. rewrite decide_False by congruence. cbn.
  unfold remove, Channel.isNoneEvent.
  destruct (Z.eqb_spec (Channel.events_ (channel_ s)) Channel.kNoneEvent) as [E|]; [|done].
  unfold Channel.isReading in Hr. by rewrite E in Hr.
Qed.

Lemma connectDestroyed_while_disconnecting_fails_witness :
  exists s0 s, new_ 7 = Ok s0 /\ run witness_cb s0 [Establish 1; CallInLoop CShutdown] = Ok s /\
    connectDestroyed witness_cb s = Err (AssertFail "isNoneEvent()").
Proof.
  destruct (new_ 7) as [s0|] eqn:E0; [|discriminate E0].
  destruct (run witness_cb s0 [Establish 1; CallInLoop CShutdown]) as [s|] eqn:E1.
  2: { vm_compute in E0; injection E0 as <-; vm_compute in E1; discriminate E1. }
  exists s0, s. split; [reflexivity|]. split; [exact E1|].
  apply connectDestroyed_while_disconnecting_fails;
    vm_compute in E0; injection E0 as <-; vm_compute in E1; injection E1 as <-; reflexivity.
Defined.

End TcpConnection.
