(* ===== verification/NetEventLoopThreadPool.v ===== *)
(** src/muduo/net/EventLoopThreadPool.h and EventLoopThreadPool.cc: the pool of
    I/O loops and its round-robin choice.  Loops are named by their address;
    the threads that run them are a parameter. *)

From S2P Require Import Prelude.

Module EventLoopThreadPool.

Record t := mk {
  baseLoop_ : Z;
  name_ : bytes;
  started_ : bool;
  numThreads_ : Z;
  next_ : Z;
  threads_ : list bytes;
  loops_ : list Z;
  (** the loops the thread-init callback was called with *)
  initialised : list Z
}.

Definition new_ (baseLoop : Z) (nameArg : bytes) : t := mk baseLoop nameArg false 0 0 [] [] [].
Definition setThreadNum (n : Z) (p : t) : t :=
  mk (baseLoop_ p) (name_ p) (started_ p) n (next_ p) (threads_ p) (loops_ p) (initialised p).

Definition assertInLoopThread (inLoop : bool) : outcome unit :=
  if inLoop then Ok tt else Err (LogFatal "EventLoop::abortNotInLoopThread").

Section Start.
(** [startLoop] of the [i]-th EventLoopThread: the address of the EventLoop on
    its stack; it calls the thread-init callback, when there is one, first. *)
Context (startLoop : Z -> Z) (hasCallback : bool).

Fixpoint start_loop (i : Z) (n : nat) (p : t) : t :=
  match n with
  | O => p
  | S n' =>
      let buf := snprintf (u64 (zlen (name_ p) + 32)) (name_ p ++ fmt_d i) in
      let l := startLoop i in
      start_loop (i + 1) n' (mk (baseLoop_ p) (name_ p) (started_ p) (numThreads_ p) (next_ p)
        (threads_ p ++ [buf]) (loops_ p ++ [l]) (initialised p ++ if hasCallback then [l] else []))
  end.

Definition start (inLoop : bool) (p : t) : outcome t :=
  massert (negb (started_ p)) "!started_";;
  assertInLoopThread inLoop;;
  let p := mk (baseLoop_ p) (name_ p) true (numThreads_ p) (next_ p) (threads_ p) (loops_ p) (initialised p) in
  let p := start_loop 0 (Z.to_nat (numThreads_ p)) p in
  Ok (if (numThreads_ p =? 0) && hasCallback
      then mk (baseLoop_ p) (name_ p) (started_ p) (numThreads_ p) (next_ p) (threads_ p) (loops_ p)
             (initialised p ++ [baseLoop_ p])
      else p).
End Start.

Definition getNextLoop (inLoop : bool) (p : t) : outcome (Z * t) :=
  assertInLoopThread inLoop;;
  massert (started_ p) "started_";;
  match loops_ p with
  | [] => Ok (baseLoop_ p, p)
  | _ =>
      match znth (loops_ p) (next_ p) with
      | None => Err (Undefined "vector index")
      | Some loop =>
          let next := i32 (next_ p + 1) in
          let next := if zlen (loops_ p) <=? u64 next then 0 else next in
          Ok (loop, mk (baseLoop_ p) (name_ p) (started_ p) (numThreads_ p) next (threads_ p) (loops_ p) (initialised p))
      end
  end.

Definition getLoopForHash (inLoop : bool) (hashCode : Z) (p : t) : outcome Z :=
  assertInLoopThread inLoop;;
  match loops_ p with
  | [] => Ok (baseLoop_ p)
  | _ => match znth (loops_ p) (hashCode mod zlen (loops_ p)) with
         | None => Err (Undefined "vector index")
         | Some loop => Ok loop
         end
  end.

Definition getAllLoops (inLoop : bool) (p : t) : outcome (list Z) :=
  assertInLoopThread inLoop;;
  massert (started_ p) "started_";;
  Ok match loops_ p with [] => [baseLoop_ p] | ls => ls end.

(** The next [k] choices. *)
Fixpoint choices (k : nat) (p : t) : outcome (list Z * t) :=
  match k with
  | O => Ok ([], p)
  | S k' => '(l, p) ← getNextLoop true p; '(ls, p) ← choices k' p; Ok (l :: ls, p)
  end.

(** * Lemmas *)

Definition wf (p : t) : Prop :=
  zlen (loops_ p) < 2 ^ 31 /\ (loops_ p <> [] -> 0 <= next_ p < zlen (loops_ p)).

Definition all_loops (p : t) : list Z := match loops_ p with [] => [baseLoop_ p] | ls => ls end.

Lemma start_loop_spec startLoop cb n i p :
  let p' := start_loop startLoop cb i n p in
  loops_ p' = loops_ p ++ ((fun k => startLoop (i + Z.of_nat k)) <$> seq 0 n) /\
  baseLoop_ p' = baseLoop_ p /\ started_ p' = started_ p /\ next_ p' = next_ p /\ numThreads_ p' = numThreads_ p.
Proof.
  cbn. revert i p. induction n as [|n IH]; intros i p; cbn [start_loop].
  { by rewrite app_nil_r. }
  destruct (IH (i + 1) (mk (baseLoop_ p) (name_ p) (started_ p) (numThreads_ p) (next_ p)
    (threads_ p ++ [snprintf (u64 (zlen (name_ p) + 32)) (name_ p ++ fmt_d i)]) (loops_ p ++ [startLoop i])
    (initialised p ++ if cb then [startLoop i] else []))) as (Hl&?&?&?&?).
  split_and!; try done. rewrite Hl. cbn [loops_]. rewrite <- app_assoc. f_equal. cbn [seq fmap list_fmap app].
  rewrite Z.add_0_r. f_equal. rewrite <- seq_shift, <- list_fmap_compose. apply list_fmap_ext. intros k x _. cbn.
  f_equal. lia.
Qed.

(** A started pool. *)
Lemma start_spec startLoop cb base name n :
  0 <= n < 2 ^ 31 ->
  exists p, start startLoop cb true (setThreadNum n (new_ base name)) = Ok p /\ wf p /\ started_ p = true /\
    baseLoop_ p = base /\ next_ p = 0 /\ loops_ p = ((fun k => startLoop (Z.of_nat k)) <$> seq 0 (Z.to_nat n)).
Proof.
  intros Hn. unfold start, setThreadNum, new_. cbn [started_ negb massert mbind outcome_bind assertInLoopThread].
  set (p0 := mk base name true n 0 [] [] []).
  destruct (start_loop_spec startLoop cb (Z.to_nat n) 0 p0) as (Hl&Hb&Hs&Hx&Hnt). cbn zeta in *.
  set (p1 := start_loop startLoop cb 0 (Z.to_nat n) p0) in *. cbn in Hl, Hb, Hs, Hx, Hnt.
  eexists. split; [done|]. match goal with |- wf ?q /\ _ => set (p := q) end.
  assert (loops_ p = loops_ p1 /\ baseLoop_ p = base /\ started_ p = true /\ next_ p = 0) as (El&Eb&Es&Ex).
  { unfold p. fold p1. by destruct (_ && _). }
  assert (zlen (loops_ p) = n) as Hlen by (rewrite El, Hl; unfold zlen; rewrite length_fmap, length_seq; lia).
  split.
  { split; [lia|]. intros Hne. rewrite Ex. destruct (loops_ p); [done|]. zlia. }
  split_and!; try done. by rewrite El.
Qed.

(** One choice: the loop at the cursor, which then advances cyclically. *)
Lemma getNextLoop_spec p :
  wf p -> started_ p = true ->
  exists l p', getNextLoop true p = Ok (l, p') /\ wf p' /\ started_ p' = true /\ loops_ p' = loops_ p /\
    baseLoop_ p' = baseLoop_ p /\
    (forall c, next_ p = c mod zlen (all_loops p) -> loops_ p <> [] ->
       next_ p' = (c + 1) mod zlen (all_loops p) /\ znth (all_loops p) (c mod zlen (all_loops p)) = Some l) /\
    (loops_ p = [] -> l = baseLoop_ p /\ p' = p).
Proof.
  intros [Hlen Hnext] Hs. unfold getNextLoop, all_loops. rewrite Hs. cbn [assertInLoopThread massert mbind outcome_bind].
  destruct (loops_ p) as [|l0 ls] eqn:El.
  { exists (baseLoop_ p), p. unfold wf. rewrite El. by split_and!. }
  specialize (Hnext ltac:(done)). rewrite <- El in *.
  assert (exists l, znth (loops_ p) (next_ p) = Some l) as (l&Hl).
  { unfold znth. destruct (Z.ltb_spec (next_ p) 0); [lia|]. apply lookup_lt_is_Some. unfold zlen in Hnext. lia. }
  rewrite Hl. assert (i32 (next_ p + 1) = next_ p + 1) as -> by (apply swrap_small; [lia|unfold srange; lia]).
  assert (u64 (next_ p + 1) = next_ p + 1) as -> by (apply uwrap_small; [lia|unfold urange; lia]).
  eexists _, _. split; [done|]. cbn [loops_ baseLoop_ started_ next_]. split_and!; try done; try congruence.
  - split; cbn; [done|]. intros _. destruct (Z.leb_spec (zlen (loops_ p)) (next_ p + 1)); lia.
  - intros c Hc _. rewrite <- Hc. split; [|done]. rewrite <- Zplus_mod_idemp_l, <- Hc.
    destruct (Z.leb_spec (zlen (loops_ p)) (next_ p + 1)); [|by rewrite Z.mod_small by lia].
    replace (next_ p + 1) with (zlen (loops_ p)) by lia. by rewrite Z.mod_same by lia.
Qed.

Lemma choices_spec k p c :
  wf p -> started_ p = true -> (loops_ p <> [] -> next_ p = c mod zlen (all_loops p)) ->
  exists ls p', choices k p = Ok (ls, p') /\ length ls = k /\
    forall j, (j < k)%nat -> exists l, ls !! j = Some l /\
      znth (all_loops p) ((c + Z.of_nat j) mod zlen (all_loops p)) = Some l.
Proof.
  revert p c. induction k as [|k IH]; intros p c Hwf Hs Hc; cbn [choices].
  { exists [], p. split_and!; [done|done|]. intros j ?. lia. }
  destruct (getNextLoop_spec p Hwf Hs) as (l&p'&->&Hwf'&Hs'&Hl'&Hb'&Hnz&Hz). cbn [mbind outcome_bind].
  assert (all_loops p' = all_loops p) as Ha by (unfold all_loops; by rewrite Hl', Hb').
  destruct (IH p' (c + 1) Hwf' Hs') as (ls&p''&->&Hn&Hj).
  { rewrite Hl', Ha. intros Hne. by apply Hnz; auto. }
  cbn [mbind outcome_bind]. exists (l :: ls), p''. split_and!; [done|by cbn; rewrite Hn|]. intros [|j] Hlt.
  - exists l. split; [done|]. rewrite Z.add_0_r. destruct (decide (loops_ p = [])) as [E|E].
    + destruct (Hz E) as (->&_). unfold all_loops. rewrite E. change (zlen [baseLoop_ p]) with 1. by rewrite Z.mod_1_r.
    + by apply Hnz; auto.
  - destruct (Hj j) as (m&?&Hm); [lia|]. exists m. split; [done|]. rewrite Ha in Hm. rewrite <- Hm. do 2 f_equal. lia.
Qed.

(** * Properties *)

(** Connections are spread evenly.  After [start] with [n] threads, the
    [k]-th [getNextLoop] returns loop [k mod n] of the pool, the base loop when
    [n] is 0; no vector index is out of range, and equal hash codes get equal
    loops. *)
Theorem getNextLoop_round_robin startLoop cb base name n k p :
  0 <= n < 2 ^ 31 -> start startLoop cb true (setThreadNum n (new_ base name)) = Ok p ->
  all_loops p = (if n =? 0 then [base] else (fun i => startLoop (Z.of_nat i)) <$> seq 0 (Z.to_nat n)) /\
  (exists ls p', choices k p = Ok (ls, p') /\ length ls = k /\
    forall j, (j < k)%nat -> exists l, ls !! j = Some l /\
      znth (all_loops p) (Z.of_nat j mod zlen (all_loops p)) = Some l) /\
  forall h, exists l, getLoopForHash true h p = Ok l /\ znth (all_loops p) (h mod zlen (all_loops p)) = Some l.
Proof.
  intros Hn Hst. destruct (start_spec startLoop cb base name n Hn) as (p0&E&Hwf&Es&Eb&Ex&El).
  rewrite Hst in E. injection E as <-.
  assert (all_loops p = if n =? 0 then [base] else (fun i => startLoop (Z.of_nat i)) <$> seq 0 (Z.to_nat n)) as Ha.
  { unfold all_loops. rewrite El, Eb. destruct (Z.eqb_spec n 0) as [->|]; [done|].
    destruct (Z.to_nat n) eqn:En; [lia|done]. }
  split_and!; [done| |].
  - apply (choices_spec k p 0 Hwf Es). intros _. by rewrite Ex, Z.mod_0_l by
      (unfold all_loops; destruct (loops_ p); zlia).
  - intros h. unfold getLoopForHash, all_loops. cbn [assertInLoopThread mbind outcome_bind].
    destruct (loops_ p) as [|l0 ls] eqn:E.
    { exists (baseLoop_ p). split; [done|]. change (zlen [baseLoop_ p]) with 1. by rewrite Z.mod_1_r. }
    pose proof (Z.mod_pos_bound h (zlen (l0 :: ls)) ltac:(zlia)) as Hm.
    destruct (znth (l0 :: ls) (h mod zlen (l0 :: ls))) as [l|] eqn:Eh; [by exists l|].
    unfold znth in Eh. destruct (Z.ltb_spec (h mod zlen (l0 :: ls)) 0); [lia|].
    apply lookup_ge_None in Eh. unfold zlen in *. lia.
Qed.

Lemma getNextLoop_round_robin_witness :
  exists p ls p', start (fun i => 100 + i) true true (setThreadNum 3 (new_ 7 (lit "io"))) = Ok p /\
    choices 5 p = Ok (ls, p') /\ ls = [100; 101; 102; 100; 101].
Proof.
  destruct (start (fun i => 100 + i) true true (setThreadNum 3 (new_ 7 (lit "io")))) as [p|] eqn:E; [|discriminate E].
  destruct (getNextLoop_round_robin (fun i => 100 + i) true 7 (lit "io") 3 5 p) as (_&(ls&p'&Hc&_)&_); [lia|exact E|].
  exists p, ls, p'. split; [reflexivity|]. split; [exact Hc|].
  vm_compute in E. injection E as <-. vm_compute in Hc. injection Hc as <- _. reflexivity.
Defined.

End EventLoopThreadPool.
