(* ===== verification/NetAcceptor.v ===== *)
(** src/muduo/net/Acceptor.cc and sockets::accept of SocketsOps.cc: accepting
    connections, with a reserve descriptor for the day the process runs out of
    them.  The kernel's choice of descriptors is a parameter. *)

From S2P Require Import Prelude NetEventLoopThreadPool.

Module Acceptor.

Definition EPERM : Z := 1.
Definition EINTR : Z := 4.
Definition EAGAIN : Z := 11.
Definition EMFILE : Z := 24.
Definition EPROTO : Z := 71.
Definition ECONNABORTED : Z := 103.

(** The acceptor with the part of the kernel it works on: the open descriptors
    of the process, the connections waiting to be accepted; [handed] and
    [dropped] are the connections given to the callback and those closed. *)
Record t := mk {
  listening_ : bool;
  idleFd_ : Z;
  acceptReading : bool;
  newConnectionCallback_ : bool;
  fds : gset Z;
  backlog : list Z;
  handed : list (Z * Z);
  dropped : list Z
}.

Definition set_kernel (f : gset Z) (b : list Z) (s : t) : t :=
  mk (listening_ s) (idleFd_ s) (acceptReading s) (newConnectionCallback_ s) f b (handed s) (dropped s).
Definition set_idleFd (fd : Z) (s : t) : t :=
  mk (listening_ s) fd (acceptReading s) (newConnectionCallback_ s) (fds s) (backlog s) (handed s) (dropped s).
Definition hand (c : Z * Z) (s : t) : t :=
  mk (listening_ s) (idleFd_ s) (acceptReading s) (newConnectionCallback_ s) (fds s) (backlog s) (handed s ++ [c]) (dropped s).
Definition drop_peer (p : Z) (s : t) : t :=
  mk (listening_ s) (idleFd_ s) (acceptReading s) (newConnectionCallback_ s) (fds s) (backlog s) (handed s) (dropped s ++ [p]).

Section Kernel.
(** The descriptor the kernel gives next, or none at the per-process limit. *)
Context (alloc : gset Z -> option Z) (limit : Z).

Definition close (fd : Z) (s : t) : t := set_kernel (fds s ∖ {[fd]}) (backlog s) s.
Definition open_null (s : t) : Z * t :=
  match alloc (fds s) with
  | Some fd => (fd, set_kernel (fds s ∪ {[fd]}) (backlog s) s)
  | None => (-1, s)
  end.
(** accept(2): the descriptor and the peer, or -1 and errno; [err] is an error
    of the connection itself. *)
Definition accept (err : option Z) (s : t) : Z * Z * t :=
  match err, backlog s with
  | Some e, _ => (-1, e, s)
  | None, [] => (-1, EAGAIN, s)
  | None, peer :: rest =>
      match alloc (fds s) with
      | Some fd => (fd, peer, set_kernel (fds s ∪ {[fd]}) rest s)
      | None => (-1, EMFILE, s)
      end
  end.

(** [sockets::accept]: unexpected errors are fatal. *)
Definition sockets_accept (err : option Z) (s : t) : outcome (Z * Z * t) :=
  let '(connfd, info, s) := accept err s in
  if connfd <? 0
  then
    if bool_decide (info ∈ [EAGAIN; ECONNABORTED; EINTR; EPROTO; EPERM; EMFILE])
    then Ok (connfd, info, s)
    else Err (LogFatal "unexpected error of ::accept")
  else Ok (connfd, info, s).

Definition new_ (s : t) : outcome t :=
  let '(fd, s) := open_null s in
  massert (0 <=? fd) "idleFd_ >= 0";;
  Ok (mk false fd false false (fds s) (backlog s) [] []).
Definition setNewConnectionCallback (s : t) : t :=
  mk (listening_ s) (idleFd_ s) (acceptReading s) true (fds s) (backlog s) (handed s) (dropped s).

Definition listen (inLoop : bool) (s : t) : outcome t :=
  EventLoopThreadPool.assertInLoopThread inLoop;;
  Ok (mk true (idleFd_ s) true (newConnectionCallback_ s) (fds s) (backlog s) (handed s) (dropped s)).

Definition handleRead (err : option Z) (s : t) : outcome t :=
  '(connfd, info, s) ← sockets_accept err s;
  if 0 <=? connfd
  then
    if newConnectionCallback_ s
    then Ok (hand (connfd, info) s)
    else Ok (drop_peer info (close connfd s))
  else if info =? EMFILE
  then
    let s := close (idleFd_ s) s in
    let '(fd, peer, s) := accept None s in
    let s := set_idleFd fd s in
    let s := close (idleFd_ s) (if 0 <=? fd then drop_peer peer s else s) in
    let '(fd, s) := open_null s in
    Ok (set_idleFd fd s)
  else Ok s.

(** The destructor gives the reserve descriptor back. *)
Definition destroy (s : t) : t :=
  close (idleFd_ s) (mk (listening_ s) (idleFd_ s) false (newConnectionCallback_ s) (fds s) (backlog s) (handed s) (dropped s)).

(** * Properties *)

(** What accept(2) and open(2) document: a new descriptor is not in use, and
    at the limit closing one descriptor makes room for one. *)
Definition alloc_fresh : Prop := forall X fd, alloc X = Some fd -> fd ∉ X /\ 0 <= fd < limit.
Definition alloc_room : Prop := forall X fd, alloc X = None -> fd ∈ X -> 0 <= fd < limit -> exists fd', alloc (X ∖ {[fd]}) = Some fd'.

(** C27: a readable listening socket never spins.  When a connection waits,
    [handleRead] takes it off the backlog whatever the number of open
    descriptors: it is handed to the callback with a fresh descriptor, or, at
    the descriptor limit, accepted with the reserve descriptor and closed at
    once.  The reserve is open again afterwards, nothing fails, and the number
    of open descriptors grows only by the one handed out. *)
Theorem acceptor_takes_waiting_connection s peer rest :
  alloc_fresh -> alloc_room -> idleFd_ s ∈ fds s -> 0 <= idleFd_ s < limit -> newConnectionCallback_ s = true -> backlog s = peer :: rest ->
  exists s', handleRead None s = Ok s' /\ backlog s' = rest /\ idleFd_ s' ∈ fds s' /\ 0 <= idleFd_ s' < limit /\
    ((exists fd, fd ∉ fds s /\ handed s' = handed s ++ [(fd, peer)] /\ fds s' = fds s ∪ {[fd]} /\ dropped s' = dropped s) \/
     (alloc (fds s) = None /\ handed s' = handed s /\ dropped s' = dropped s ++ [peer] /\ size (fds s') = size (fds s))).
Proof.
  intros Hfr Hroom Hidle Hlim Hcb Hbl. unfold handleRead, sockets_accept, accept. rewrite Hbl.
  destruct (alloc (fds s)) as [fd|] eqn:Ea.
  - destruct (Hfr _ _ Ea) as (Hnew&Hpos). destruct (Z.ltb_spec fd 0); [lia|]. cbn [mbind outcome_bind].
    destruct (Z.leb_spec 0 fd); [|lia]. cbn [newConnectionCallback_ set_kernel]. rewrite Hcb. eexists. split; [done|].
    cbn. split_and!; [done|set_solver|lia|lia|]. left. by exists fd.
  - destruct (Hroom _ _ Ea Hidle Hlim) as (fd&Ef). destruct (Hfr _ _ Ef) as (Hnew&Hpos). cbn -[difference union].
    rewrite bool_decide_eq_true_2 by set_solver. cbn -[difference union]. rewrite Hbl, Ef. cbn -[difference union].
    destruct (Z.leb_spec 0 fd); [|lia]. cbn -[difference union].
    assert ((fds s ∖ {[idleFd_ s]} ∪ {[fd]}) ∖ {[fd]} = fds s ∖ {[idleFd_ s]}) as Eq by set_solver.
    unfold open_null. cbn -[difference union]. rewrite Eq, Ef.
    eexists. split; [done|]. cbn -[difference union]. split_and!; [done|set_solver|lia|lia|]. right. split_and!; try done.
    rewrite size_union by set_solver. rewrite size_difference by set_solver. rewrite !size_singleton.
    assert (size ({[idleFd_ s]} : gset Z) <= size (fds s))%nat by (apply subseteq_size; set_solver).
    rewrite size_singleton in *. lia.
Qed.
End Kernel.

(** The lowest free descriptor below 4. *)
Definition lowest (X : gset Z) : option Z := head (filter (fun fd => fd ∉ X) [0; 1; 2; 3]).

Lemma lowest_fresh : alloc_fresh lowest 4.
Proof.
  intros X fd E. unfold lowest in E. apply head_Some_elem_of in E. apply list_elem_of_filter in E as (?&E).
  split; [done|]. set_unfold. lia.
Qed.
Lemma lowest_room : alloc_room lowest 4.
Proof.
  intros X fd _ Hin Hr. unfold lowest.
  assert (fd ∈ filter (fun fd' => fd' ∉ X ∖ {[fd]}) [0; 1; 2; 3]) as Hf.
  { apply list_elem_of_filter. split; [set_solver|]. set_unfold. lia. }
  destruct (filter _ _) as [|x l]; [by apply not_elem_of_nil in Hf|]. by exists x.
Qed.

(** Descriptors 0 to 3 are open, 3 is the reserve, and peer 77 waits. *)
Definition crowded : t := mk true 3 true true {[0; 1; 2; 3]} [77] [] [].

Lemma acceptor_takes_waiting_connection_witness :
  exists s', handleRead lowest None crowded = Ok s' /\ backlog s' = [] /\ idleFd_ s' ∈ fds s' /\ dropped s' = [77].
Proof.
  destruct (acceptor_takes_waiting_connection lowest 4 crowded 77 []) as (s'&E&Hb&Hi&_&_).
  - apply lowest_fresh.
  - apply lowest_room.
  - vm_compute. reflexivity.
  - vm_compute. split; [discriminate|reflexivity].
  - reflexivity.
  - reflexivity.
  - exists s'. split; [exact E|]. split; [exact Hb|]. split; [exact Hi|].
    vm_compute in E. injection E as <-. reflexivity.
Defined.

End Acceptor.
