(* ===== verification/NetTcpServer.v ===== *)
(** src/muduo/net/TcpServer.cc: the server and the lives of its connections.

    The server runs in the base loop; each connection belongs to an I/O loop of
    the pool.  Work one loop hands to another is a task in the queue of the
    target loop, run first in first out; [runInLoop] on the caller's own loop
    runs at once.  A connection is followed through the four places of its life
    the server knows about; its own behaviour is in NetTcpConnection. *)

From S2P Require Import Prelude NetEventLoopThreadPool.

Module TcpServer.

(** The places of a connection's life the server sees: constructed, with
    [connectEstablished] still to run; up; closed, with its removal under way;
    destroyed ([connectDestroyed] has run). *)
Inductive place := Created | Up | Down | Destroyed.
#[export] Instance place_eq_dec : EqDecision place.
Proof. solve_decision. Defined.

Record conn := mkconn { conn_name : bytes; getLoop : Z; conn_place : place }.

(** Functors one loop queues in another; a connection is named by its number. *)
Inductive task :=
| TEstablished (c : Z)
| TRemove (c : Z)
| TDestroyed (c : Z)
| TListen.
Definition task_conn (f : task) : option Z :=
  match f with TEstablished c | TRemove c | TDestroyed c => Some c | TListen => None end.

Record t := mk {
  ipPort_ : bytes;
  name_ : bytes;
  threadPool_ : EventLoopThreadPool.t;
  started_ : Z;
  listening : bool;
  nextConnId_ : Z;
  connections_ : gmap bytes Z;
  (** the connection objects, the tasks waiting in the loops *)
  conns : gmap Z conn;
  tasks : list (Z * task);
  alive : bool
}.

Definition set_tasks x s := mk (ipPort_ s) (name_ s) (threadPool_ s) (started_ s) (listening s) (nextConnId_ s)
  (connections_ s) (conns s) x (alive s).
Definition set_conns x s := mk (ipPort_ s) (name_ s) (threadPool_ s) (started_ s) (listening s) (nextConnId_ s)
  (connections_ s) x (tasks s) (alive s).
Definition set_connections x s := mk (ipPort_ s) (name_ s) (threadPool_ s) (started_ s) (listening s) (nextConnId_ s)
  x (conns s) (tasks s) (alive s).

Definition base (s : t) : Z := EventLoopThreadPool.baseLoop_ (threadPool_ s).

Definition new_ (loop : Z) (ipPort nameArg : bytes) : t :=
  mk ipPort nameArg (EventLoopThreadPool.new_ loop nameArg) 0 false 1 ∅ ∅ [] true.

Definition setThreadNum (n : Z) (s : t) : outcome t :=
  massert (0 <=? n) "0 <= numThreads";;
  Ok (mk (ipPort_ s) (name_ s) (EventLoopThreadPool.setThreadNum n (threadPool_ s)) (started_ s) (listening s)
    (nextConnId_ s) (connections_ s) (conns s) (tasks s) (alive s)).

Definition queueInLoop (loop : Z) (f : task) (s : t) : t := set_tasks (tasks s ++ [(loop, f)]) s.

(** [connectEstablished] and [connectDestroyed] as far as the server relies on
    them: the first needs a new connection, the second one that still has its
    channel in the poller. *)
Definition place_of (c : Z) (s : t) : outcome conn :=
  match conns s !! c with Some k => Ok k | None => Err (Undefined "no such connection") end.
Definition set_place (c : Z) (k : conn) (pl : place) (s : t) : t :=
  set_conns (<[c := mkconn (conn_name k) (getLoop k) pl]> (conns s)) s.
Definition connectEstablished (c : Z) (s : t) : outcome t :=
  k ← place_of c s;
  massert (bool_decide (conn_place k = Created)) "state_ == kConnecting";;
  Ok (set_place c k Up s).
Definition connectDestroyed (c : Z) (s : t) : outcome t :=
  k ← place_of c s;
  massert (bool_decide (conn_place k = Up) || bool_decide (conn_place k = Down)) "hasChannel";;
  Ok (set_place c k Destroyed s).

Definition removeConnectionInLoop (c : Z) (s : t) : outcome t :=
  if alive s
  then
    k ← place_of c s;
    let n := if connections_ s !! conn_name k is Some _ then 1 else 0 in
    let s := set_connections (delete (conn_name k) (connections_ s)) s in
    massert (n =? 1) "n == 1";;
    Ok (queueInLoop (getLoop k) (TDestroyed c) s)
  else Err (Undefined "TcpServer destroyed").

Definition run_task (f : task) (s : t) : outcome t :=
  match f with
  | TEstablished c => connectEstablished c s
  | TRemove c => removeConnectionInLoop c s
  | TDestroyed c => connectDestroyed c s
  | TListen => Ok (mk (ipPort_ s) (name_ s) (threadPool_ s) (started_ s) true (nextConnId_ s) (connections_ s)
                     (conns s) (tasks s) (alive s))
  end.
(** [runInLoop] called in loop [self]. *)
Definition runInLoop (self loop : Z) (f : task) (s : t) : outcome t :=
  if self =? loop then run_task f s else Ok (queueInLoop loop f s).

Definition start (startLoop : Z -> Z) (hasCallback : bool) (self : Z) (s : t) : outcome t :=
  let old := started_ s in
  let s := mk (ipPort_ s) (name_ s) (threadPool_ s) 1 (listening s) (nextConnId_ s) (connections_ s) (conns s)
             (tasks s) (alive s) in
  if old =? 0
  then
    p ← EventLoopThreadPool.start startLoop hasCallback (self =? base s) (threadPool_ s);
    let s := mk (ipPort_ s) (name_ s) p (started_ s) (listening s) (nextConnId_ s) (connections_ s) (conns s)
               (tasks s) (alive s) in
    massert (negb (listening s)) "!acceptor_->listening()";;
    runInLoop self (base s) TListen s
  else Ok s.

(** "-<ip:port>#<id>" in a 64-byte buffer, after the server's name. *)
Definition connName (s : t) (id : Z) : bytes :=
  name_ s ++ snprintf 64 (lit "-" ++ ipPort_ s ++ lit "#" ++ fmt_d id).

Definition newConnection (self : Z) (s : t) : outcome t :=
  EventLoopThreadPool.assertInLoopThread (self =? base s);;
  '(ioLoop, p) ← EventLoopThreadPool.getNextLoop (self =? base s) (threadPool_ s);
  let c := nextConnId_ s in
  let name := connName s c in
  (if c + 1 <? 2 ^ 31 then Ok tt else Err (Undefined "signed overflow"));;
  let s := mk (ipPort_ s) (name_ s) p (started_ s) (listening s) (c + 1) (<[name := c]> (connections_ s))
             (<[c := mkconn name ioLoop Created]> (conns s)) (tasks s) (alive s) in
  runInLoop self ioLoop (TEstablished c) s.

(** The close callback of a connection, called in its own loop. *)
Definition removeConnection (self c : Z) (s : t) : outcome t := runInLoop self (base s) (TRemove c) s.

(** The destructor: every connection left is destroyed in its loop. *)
Definition destroy_one (self : Z) (s : t) (item : bytes * Z) : outcome t :=
  k ← place_of (snd item) s;
  runInLoop self (getLoop k) (TDestroyed (snd item)) s.
Definition destroy (self : Z) (s : t) : outcome t :=
  EventLoopThreadPool.assertInLoopThread (self =? base s);;
  s ← foldM (destroy_one self) s (map_to_list (connections_ s));
  Ok (mk (ipPort_ s) (name_ s) (threadPool_ s) (started_ s) (listening s) (nextConnId_ s) ∅ (conns s) (tasks s) false).

(** * Runs *)

Inductive event :=
| NewConnection                 (** the acceptor handed a connection over *)
| HandleClose (c : Z)           (** a connection that is up closes *)
| RunTask (loop : Z).           (** a loop runs its oldest functor *)

(** The oldest task of [loop], and the others. *)
Fixpoint take_task (loop : Z) (ts : list (Z * task)) : option (task * list (Z * task)) :=
  match ts with
  | [] => None
  | (l, f) :: ts' =>
      if l =? loop then Some (f, ts')
      else '(g, ts') ← take_task loop ts'; Some (g, (l, f) :: ts')
  end.

Definition exec (s : t) (e : event) : outcome t :=
  match e with
  | NewConnection => newConnection (base s) s
  | HandleClose c =>
      match conns s !! c with
      | Some k =>
          if decide (conn_place k = Up)
          then removeConnection (getLoop k) c (set_place c k Down s)
          else Ok s
      | None => Ok s
      end
  | RunTask loop =>
      match take_task loop (tasks s) with
      | Some (f, ts) => run_task f (set_tasks ts s)
      | None => Ok s
      end
  end.
Definition run (s : t) (es : list event) : outcome t := foldM exec s es.

(** * Invariant *)

(** The tasks that concern connection [c]. *)
Definition in_flight (c : Z) (ts : list (Z * task)) : list (Z * task) :=
  filter (fun x => task_conn (snd x) = Some c) ts.
Arguments in_flight : simpl never.

Definition place_ok (s : t) (c : Z) (k : conn) : Prop :=
  let mapped := connections_ s !! conn_name k = Some c in
  let waiting := in_flight c (tasks s) in
  match conn_place k with
  | Created => mapped /\ waiting = [(getLoop k, TEstablished c)]
  | Up => mapped /\ waiting = []
  | Down => (mapped /\ waiting = [(base s, TRemove c)]) \/
            (connections_ s !! conn_name k = None /\ waiting = [(getLoop k, TDestroyed c)])
  | Destroyed => connections_ s !! conn_name k = None /\ waiting = []
  end.

Record inv (s : t) : Prop := {
  inv_alive : alive s = true;
  inv_next : 1 <= nextConnId_ s < 2 ^ 31;
  inv_short : zlen (ipPort_ s) <= 50;
  inv_pool : EventLoopThreadPool.wf (threadPool_ s) /\ EventLoopThreadPool.started_ (threadPool_ s) = true;
  inv_ids : forall c k, conns s !! c = Some k -> 1 <= c < nextConnId_ s /\ conn_name k = connName s c;
  inv_places : forall c k, conns s !! c = Some k -> place_ok s c k;
  inv_mapped : forall n c, connections_ s !! n = Some c -> exists k, conns s !! c = Some k /\ conn_name k = n;
  inv_tasks : forall l f c, (l, f) ∈ tasks s -> task_conn f = Some c -> is_Some (conns s !! c)
}.

(** * Lemmas *)

Lemma connName_inj s c d :
  zlen (ipPort_ s) <= 50 -> 0 <= c < 2 ^ 31 -> 0 <= d < 2 ^ 31 -> connName s c = connName s d -> c = d.
Proof.
  intros Hip Hc Hd E. unfold connName, snprintf in E. apply (inj (app (name_ s))) in E.
  pose proof (fmt_d_length 10 c ltac:(lia) ltac:(lia)) as Lc.
  pose proof (fmt_d_length 10 d ltac:(lia) ltac:(lia)) as Ld.
  rewrite !ztake_all in E by (cbn [lit]; zlia).
  do 3 apply (inj (app _)) in E. rewrite <- (fmt_d_val c), <- (fmt_d_val d), E by lia. done.
Qed.

Lemma take_task_split loop ts f ts' :
  take_task loop ts = Some (f, ts') -> exists pre post, ts = pre ++ (loop, f) :: post /\ ts' = pre ++ post.
Proof.
  revert f ts'. induction ts as [|[l g] ts IH]; intros f ts'; cbn; [done|].
  destruct (Z.eqb_spec l loop) as [->|].
  - intros [= <- <-]. by exists [], ts.
  - destruct (take_task loop ts) as [[h ts1]|]; cbn; [|done]. intros [= <- <-].
    destruct (IH _ _ eq_refl) as (pre&post&->&->). by exists ((l, g) :: pre), post.
Qed.

Lemma in_flight_app c ts ts' : in_flight c (ts ++ ts') = in_flight c ts ++ in_flight c ts'.
Proof. apply filter_app. Qed.
Lemma in_flight_one c l f : in_flight c [(l, f)] = if decide (task_conn f = Some c) then [(l, f)] else [].
Proof. unfold in_flight. rewrite filter_cons. cbn. by case_decide. Qed.

(** Taking the only task of a connection out of the queue. *)
Lemma in_flight_taken pre post l f c x :
  in_flight c (pre ++ (l, f) :: post) = [x] -> task_conn f = Some c -> x = (l, f) /\ in_flight c (pre ++ post) = [].
Proof.
  intros E Hf. rewrite cons_middle, !in_flight_app, in_flight_one, decide_True in E by done.
  rewrite in_flight_app. destruct (in_flight c pre) as [|y l1]; cbn in E.
  - injection E as <- E. by rewrite E.
  - injection E as _ E. by destruct l1.
Qed.
Lemma in_flight_other pre post l f c :
  task_conn f <> Some c -> in_flight c (pre ++ post) = in_flight c (pre ++ (l, f) :: post).
Proof.
  intros Hf. by rewrite cons_middle, !in_flight_app, in_flight_one, decide_False.
Qed.

Definition same_server (s s' : t) : Prop :=
  ipPort_ s' = ipPort_ s /\ name_ s' = name_ s /\ threadPool_ s' = threadPool_ s /\ nextConnId_ s' = nextConnId_ s /\
  alive s' = alive s.

(** A step that concerns connection [c] alone. *)
Lemma inv_update s s' c k pl :
  inv s -> conns s !! c = Some k -> same_server s s' ->
  conns s' = <[c := mkconn (conn_name k) (getLoop k) pl]> (conns s) ->
  connections_ s' = connections_ s \/ connections_ s' = delete (conn_name k) (connections_ s) ->
  (forall d, d <> c -> in_flight d (tasks s') = in_flight d (tasks s)) ->
  (forall x, x ∈ tasks s' -> x ∈ tasks s \/ task_conn (snd x) = Some c) ->
  place_ok s' c (mkconn (conn_name k) (getLoop k) pl) -> inv s'.
Proof.
  intros Hinv Hk (E1&E2&E3&E4&E5) Hc Hm Hfl Hts Hpl. assert (Hinv0 := Hinv). destruct Hinv.
  assert (forall d, connName s' d = connName s d) as Hname by (intros; unfold connName; by rewrite E1, E2).
  split; rewrite ?E1, ?E3, ?E4, ?E5; try done.
  - intros d kd. rewrite Hc, Hname. destruct (decide (d = c)) as [->|].
    + rewrite lookup_insert_eq. intros [= <-]. by apply (inv_ids0 c k).
    + rewrite lookup_insert_ne by done. apply inv_ids0.
  - intros d kd. rewrite Hc. destruct (decide (d = c)) as [->|Hd].
    + rewrite lookup_insert_eq. by intros [= <-].
    + rewrite lookup_insert_ne by done. intros Hkd. pose proof (inv_places0 d kd Hkd) as Hp.
      assert (connections_ s' !! conn_name kd = connections_ s !! conn_name kd) as Em.
      { destruct Hm as [->| ->]; [done|]. apply lookup_delete_ne. intros E. apply Hd.
        destruct (inv_ids0 d kd Hkd) as (?&Nd). destruct (inv_ids0 c k Hk) as (?&Nc).
        apply (connName_inj s); [done|lia|lia|]. congruence. }
      unfold place_ok, base in *. rewrite Em, E3, (Hfl d Hd). done.
  - intros n d Hn. rewrite Hc. assert (connections_ s !! n = Some d) as Hn'.
    { destruct Hm as [Hm|Hm]; rewrite Hm in Hn; [done|]. by apply lookup_delete_Some in Hn as [_ ?]. }
    destruct (inv_mapped0 n d Hn') as (kd&Hkd&<-). destruct (decide (d = c)) as [->|].
    + rewrite lookup_insert_eq. assert (kd = k) as -> by congruence. eauto.
    + rewrite lookup_insert_ne by done. eauto.
  - intros l f d Hin Hf. rewrite Hc. destruct (Hts _ Hin) as [H|H].
    + destruct (decide (d = c)) as [->|]; [by rewrite lookup_insert_eq|].
      rewrite lookup_insert_ne by done. by eapply inv_tasks0.
    + cbn in H. assert (d = c) as -> by congruence. by rewrite lookup_insert_eq.
Qed.

Lemma in_flight_elem c l f ts : (l, f) ∈ ts -> task_conn f = Some c -> (l, f) ∈ in_flight c ts.
Proof. intros. by apply list_elem_of_filter. Qed.

Lemma in_flight_snoc_other d l f ts : task_conn f <> Some d -> in_flight d (ts ++ [(l, f)]) = in_flight d ts.
Proof. intros. by rewrite in_flight_app, in_flight_one, decide_False, app_nil_r. Qed.
Lemma in_flight_snoc c l f ts : task_conn f = Some c -> in_flight c (ts ++ [(l, f)]) = in_flight c ts ++ [(l, f)].
Proof. intros. by rewrite in_flight_app, in_flight_one, decide_True. Qed.

(** Running the oldest functor of a loop. *)
Lemma run_task_ok s loop f ts :
  inv s -> take_task loop (tasks s) = Some (f, ts) ->
  exists s', run_task f (set_tasks ts s) = Ok s' /\ inv s' /\ nextConnId_ s' = nextConnId_ s.
Proof.
  intros Hinv Ht. apply take_task_split in Ht as (pre&post&Et&->).
  assert ((loop, f) ∈ tasks s) as Hin by (rewrite Et; set_solver).
  assert (forall x, x ∈ pre ++ post -> x ∈ tasks s) as Hsub by (rewrite Et; set_solver).
  destruct f as [c|c|c|].
  4: { eexists. split; [done|]. split; [|done]. assert (Hinv0 := Hinv). destruct Hinv. split; try done; cbn.
    - intros c k Hk. pose proof (inv_places0 c k Hk) as Hp. unfold place_ok in *.
      cbn [conn_place connections_ tasks set_tasks].
      by rewrite (in_flight_other pre post loop TListen), <- Et.
    - intros l f c Hl. by apply (inv_tasks0 l f c), Hsub. }
  all: destruct (inv_tasks _ Hinv _ _ c Hin eq_refl) as (k&Hk); pose proof (inv_places _ Hinv c k Hk) as Hp;
    pose proof (in_flight_elem c _ _ _ Hin eq_refl) as Hw; unfold place_ok in Hp;
    cbn [run_task]; unfold connectEstablished, connectDestroyed, removeConnectionInLoop, place_of; cbn [set_tasks conns alive];
    rewrite ?(inv_alive _ Hinv), Hk; cbn [mbind outcome_bind].
  - destruct (conn_place k) eqn:Ek.
    2-4: exfalso; (destruct Hp as [[_ Hp]|[_ Hp]] || destruct Hp as [_ Hp]); rewrite Hp in Hw; set_solver.
    destruct Hp as (Hm&Hp). rewrite Et in Hp. apply in_flight_taken in Hp as (_&Hp); [|done].
    eexists. split; [done|]. split; [|done].
    apply (inv_update s _ c k Up); try done; [by left| |by intros x ?; left; apply Hsub].
    intros d Hd. cbn. rewrite Et. apply in_flight_other. cbn. congruence.
  - destruct (conn_place k) eqn:Ek.
    1,2,4: exfalso; destruct Hp as [_ Hp]; rewrite Hp in Hw; set_solver.
    destruct Hp as [[Hm Hp]|[_ Hp]]; [|exfalso; rewrite Hp in Hw; set_solver].
    rewrite Et in Hp. apply in_flight_taken in Hp as (_&Hp); [|done]. cbn [connections_ set_tasks]. rewrite Hm.
    cbn [Z.eqb massert mbind outcome_bind]. eexists. split; [done|]. split; [|done].
    apply (inv_update s _ c k Down); try done.
    + cbn. rewrite insert_id; [done|]. by destruct k; cbn in *; subst.
    + by right.
    + intros d Hd. cbn. rewrite in_flight_snoc_other by (cbn; congruence). rewrite Et. apply in_flight_other. cbn. congruence.
    + intros x. cbn. rewrite elem_of_app, list_elem_of_singleton. intros [?| ->]; [left; by apply Hsub|by right].
    + right. cbn. rewrite lookup_delete_eq, in_flight_snoc, Hp by done. done.
  - destruct (conn_place k) eqn:Ek.
    1,2,4: exfalso; destruct Hp as [_ Hp]; rewrite Hp in Hw; set_solver.
    destruct Hp as [[_ Hp]|[Hm Hp]]; [exfalso; rewrite Hp in Hw; set_solver|].
    rewrite Et in Hp. apply in_flight_taken in Hp as (_&Hp); [|done].
    eexists. split; [done|]. split; [|done].
    apply (inv_update s _ c k Destroyed); try done; [by left| |by intros x ?; left; apply Hsub].
    intros d Hd. cbn. rewrite Et. apply in_flight_other. cbn. congruence.
Qed.

(** A connection closes in its own loop. *)
Lemma server_handleClose_ok s c k :
  inv s -> conns s !! c = Some k -> conn_place k = Up ->
  exists s', removeConnection (getLoop k) c (set_place c k Down s) = Ok s' /\ inv s' /\ nextConnId_ s' = nextConnId_ s.
Proof.
  intros Hinv Hk Ek. pose proof (inv_places _ Hinv c k Hk) as Hp. unfold place_ok in Hp. rewrite Ek in Hp.
  destruct Hp as (Hm&Hp). unfold removeConnection, runInLoop. cbn [base set_place set_conns threadPool_].
  destruct (Z.eqb_spec (getLoop k) (base (set_place c k Down s))) as [El|El].
  - cbn [run_task]. unfold removeConnectionInLoop, place_of. cbn [set_place set_conns alive conns connections_].
    rewrite (inv_alive _ Hinv), lookup_insert_eq. cbn [mbind outcome_bind conn_name getLoop]. rewrite Hm.
    cbn [Z.eqb massert mbind outcome_bind]. eexists. split; [done|]. split; [|done].
    apply (inv_update s _ c k Down); try done; [by right| | |].
    + intros d Hd. cbn. apply in_flight_snoc_other. cbn. congruence.
    + intros x. cbn. rewrite elem_of_app, list_elem_of_singleton. intros [?| ->]; [by left|by right].
    + right. cbn. rewrite lookup_delete_eq, in_flight_snoc, Hp by done. done.
  - eexists. split; [done|]. split; [|done].
    apply (inv_update s _ c k Down); try done; [by left| | |].
    + intros d Hd. cbn. apply in_flight_snoc_other. cbn. congruence.
    + intros x. cbn. rewrite elem_of_app, list_elem_of_singleton. intros [?| ->]; [by left|by right].
    + left. cbn. rewrite in_flight_snoc, Hp by done. done.
Qed.

(** A connection object nobody has heard of joins the server. *)
Lemma inv_join s s' p name l pl :
  let c := nextConnId_ s in
  inv s -> c + 1 < 2 ^ 31 -> name = connName s c ->
  EventLoopThreadPool.wf p -> EventLoopThreadPool.started_ p = true ->
  EventLoopThreadPool.baseLoop_ p = base s ->
  ipPort_ s' = ipPort_ s -> name_ s' = name_ s -> alive s' = true -> threadPool_ s' = p -> nextConnId_ s' = c + 1 ->
  conns s' = <[c := mkconn name l pl]> (conns s) -> connections_ s' = <[name := c]> (connections_ s) ->
  (tasks s' = tasks s /\ pl = Up) \/ (tasks s' = tasks s ++ [(l, TEstablished c)] /\ pl = Created) ->
  inv s'.
Proof.
  intros c Hinv Hc Hname Hwf Hst Hb E1 E2 E3 E4 E5 Ec Em Et. assert (Hinv0 := Hinv). destruct Hinv.
  assert (conns s !! c = None) as Hnew.
  { destruct (conns s !! c) as [k|] eqn:E; [|done]. destruct (inv_ids0 c k E). unfold c in *. lia. }
  assert (in_flight c (tasks s) = []) as Hnone.
  { apply filter_none, Forall_forall. intros [l' f] Hin Hf. destruct (inv_tasks0 _ _ _ Hin Hf) as (?&?). congruence. }
  assert (forall d, connName s' d = connName s d) as Hnm by (intros; unfold connName; by rewrite E1, E2).
  split; rewrite ?E1, ?E3, ?E4, ?E5; try done.
  - unfold c in *. lia.
  - intros d k. rewrite Ec, Hnm. destruct (decide (d = c)) as [->|].
    + rewrite lookup_insert_eq. intros [= <-]. split; [unfold c in *; lia|done].
    + rewrite lookup_insert_ne by done. intros Hk. destruct (inv_ids0 d k Hk). split; [lia|done].
  - intros d k. rewrite Ec. unfold place_ok, base. rewrite E4, Em. destruct (decide (d = c)) as [->|Hd].
    + rewrite lookup_insert_eq. intros [= <-]. cbn [conn_name conn_place getLoop]. rewrite lookup_insert_eq.
      destruct Et as [[-> ->]|[-> ->]]; [done|]. split; [done|]. rewrite in_flight_snoc by done. by rewrite Hnone.
    + rewrite lookup_insert_ne by done. intros Hk. destruct (inv_ids0 d k Hk) as (?&Hn).
      assert (conn_name k <> name) as Hne.
      { rewrite Hn, Hname. intros E. apply Hd. apply (connName_inj s); [done|lia|unfold c in *; lia|done]. }
      rewrite lookup_insert_ne by done. pose proof (inv_places0 d k Hk) as Hp. unfold place_ok in Hp. rewrite Hb.
      destruct Et as [[-> _]|[-> _]]; [done|]. rewrite in_flight_snoc_other by (cbn; congruence). done.
  - intros n d. rewrite Em, Ec. destruct (decide (n = name)) as [->|].
    + rewrite lookup_insert_eq. intros [= <-]. rewrite lookup_insert_eq. eauto.
    + rewrite lookup_insert_ne by done. intros Hn. destruct (inv_mapped0 n d Hn) as (k&Hk&<-).
      exists k. split; [|done]. rewrite lookup_insert_ne by congruence. done.
  - intros l' f d Hin Hf. rewrite Ec. destruct (decide (d = c)) as [->|]; [by rewrite lookup_insert_eq|].
    rewrite lookup_insert_ne by done. destruct Et as [[Et _]|[Et _]]; rewrite Et in Hin; [by eapply inv_tasks0|].
    apply elem_of_app in Hin as [?|Hin]; [by eapply inv_tasks0|].
    apply list_elem_of_singleton in Hin as [= -> ->]. cbn in Hf. congruence.
Qed.

Lemma newConnection_ok s :
  inv s -> nextConnId_ s + 1 < 2 ^ 31 ->
  exists s', newConnection (base s) s = Ok s' /\ inv s' /\ nextConnId_ s' = nextConnId_ s + 1.
Proof.
  intros Hinv Hc. unfold newConnection. rewrite Z.eqb_refl. cbn [EventLoopThreadPool.assertInLoopThread mbind outcome_bind].
  destruct (inv_pool _ Hinv) as (Hwf&Hst).
  destruct (EventLoopThreadPool.getNextLoop_spec _ Hwf Hst) as (l&p&->&Hwf'&Hst'&_&Hb&_). cbn [mbind outcome_bind].
  destruct (Z.ltb_spec (nextConnId_ s + 1) (2 ^ 31)); [|lia]. cbn [mbind outcome_bind]. unfold runInLoop.
  destruct (base s =? l).
  - cbn [run_task]. unfold connectEstablished, place_of. cbn [conns]. rewrite lookup_insert_eq.
    cbn [mbind outcome_bind conn_place]. rewrite bool_decide_eq_true_2 by done. cbn [massert mbind outcome_bind].
    eexists. split; [done|]. split; [|done]. eapply (inv_join s _ p (connName s (nextConnId_ s)) l Up); try done.
    + apply Hinv.
    + cbn. by rewrite insert_insert_eq.
    + by left.
  - eexists. split; [done|]. split; [|done].
    eapply (inv_join s _ p (connName s (nextConnId_ s)) l Created); try done; [apply Hinv|by right].
Qed.

Lemma server_exec_ok s e :
  inv s -> nextConnId_ s + 1 < 2 ^ 31 ->
  exists s', exec s e = Ok s' /\ inv s' /\ nextConnId_ s <= nextConnId_ s' <= nextConnId_ s + 1.
Proof.
  intros Hinv Hc. destruct e as [|c|loop]; cbn [exec].
  - destruct (newConnection_ok s Hinv Hc) as (s'&?&?&?). exists s'. split_and!; try done; lia.
  - destruct (conns s !! c) as [k|] eqn:Hk; [|exists s; split_and!; try done; lia].
    case_decide as Ek; [|exists s; split_and!; try done; lia].
    destruct (server_handleClose_ok s c k Hinv Hk Ek) as (s'&?&?&?). exists s'. split_and!; try done; lia.
  - destruct (take_task loop (tasks s)) as [[f ts]|] eqn:Ht; [|exists s; split_and!; try done; lia].
    destruct (run_task_ok s loop f ts Hinv Ht) as (s'&?&?&?). exists s'. split_and!; try done; lia.
Qed.

Lemma server_run_ok s es :
  inv s -> nextConnId_ s + zlen es < 2 ^ 31 -> exists s', run s es = Ok s' /\ inv s'.
Proof.
  revert s. induction es as [|e es IH]; intros s Hinv Hc; cbn; [eauto|].
  destruct (server_exec_ok s e Hinv) as (s1&->&Hi&?); [zlia|]. cbn. apply IH; [done|zlia].
Qed.

(** The server after its constructor, [setThreadNum] and [start()]. *)
Definition started_server (startLoop : Z -> Z) (loop : Z) (ipPort nameArg : bytes) (n : Z) : outcome t :=
  s ← setThreadNum n (new_ loop ipPort nameArg);
  start startLoop false loop s.

Lemma started_inv startLoop loop ipPort nameArg n :
  0 <= n < 2 ^ 31 -> zlen ipPort <= 50 ->
  exists s, started_server startLoop loop ipPort nameArg n = Ok s /\ inv s /\ nextConnId_ s = 1.
Proof.
  intros Hn Hip. unfold started_server, setThreadNum. destruct (Z.leb_spec 0 n); [|lia].
  destruct (EventLoopThreadPool.start_spec startLoop false loop nameArg n Hn) as (p&E&Hwf&Hst&Hb&_).
  rewrite <- (Z.eqb_refl loop) in E. cbn [massert mbind outcome_bind]. unfold start.
  match goal with |- context [EventLoopThreadPool.start ?a ?b ?c ?d] =>
    change (EventLoopThreadPool.start a b c d) with
      (EventLoopThreadPool.start startLoop false (loop =? loop)
        (EventLoopThreadPool.setThreadNum n (EventLoopThreadPool.new_ loop nameArg))) end.
  rewrite E. cbn.
  unfold runInLoop, base. cbn. rewrite Hb, Z.eqb_refl. eexists. split; [done|]. split; [|done].
  split; try done; cbn; set_solver.
Qed.

(** * Property *)

(** C26: the server keeps its books.  From [start()] on, with any number of I/O
    threads and any interleaving of accepted connections, closing connections
    and loops running their functors, no assertion of the server or of its
    connections fails (a removed connection is in the map exactly once), each
    connection is established once, in its own loop, then closed and destroyed
    once in that order, and it stays in [connections_] until its removal runs in
    the base loop.  When no functor is left, the map holds exactly the
    connections that are up. *)
Theorem server_connection_lifecycle startLoop loop ipPort nameArg n es s0 :
  0 <= n < 2 ^ 31 -> zlen ipPort <= 50 -> zlen es < 2 ^ 31 - 2 ->
  started_server startLoop loop ipPort nameArg n = Ok s0 ->
  exists s, run s0 es = Ok s /\
    (forall c k, conns s !! c = Some k -> place_ok s c k) /\
    (tasks s = [] -> forall name c, connections_ s !! name = Some c <->
       exists k, conns s !! c = Some k /\ conn_place k = Up /\ conn_name k = name).
Proof.
  intros Hn Hip Hes Hst. destruct (started_inv startLoop loop ipPort nameArg n Hn Hip) as (s1&E&Hinv&Hid).
  assert (s1 = s0) as -> by congruence. destruct (server_run_ok s0 es Hinv) as (s&Hr&Hi); [lia|].
  exists s. split; [done|]. split; [apply Hi|]. intros Ht name c. split.
  - intros Hm. destruct (inv_mapped _ Hi name c Hm) as (k&Hk&Hnm). exists k. split; [done|]. split; [|done].
    pose proof (inv_places _ Hi c k Hk) as Hp. unfold place_ok in Hp. rewrite Ht, Hnm, Hm in Hp.
    by destruct (conn_place k) as [| | |]; [destruct Hp| |destruct Hp as [[_ ?]|[? _]]|destruct Hp].
  - intros (k&Hk&Hu&<-). pose proof (inv_places _ Hi c k Hk) as Hp. unfold place_ok in Hp. rewrite Hu in Hp. apply Hp.
Qed.

(** Two connections on two I/O loops; the first one closes. *)
Definition example_events : list event :=
  [NewConnection; NewConnection; RunTask 100; HandleClose 1; RunTask 101; RunTask 9; RunTask 100].

Lemma server_connection_lifecycle_witness :
  exists s0 s, started_server (fun i => 100 + i) 9 (lit "0.0.0.0:80") (lit "web") 2 = Ok s0 /\
    run s0 example_events = Ok s /\ tasks s = [] /\
    connections_ s !! (lit "web-0.0.0.0:80#2") = Some 2 /\ connections_ s !! (lit "web-0.0.0.0:80#1") = None.
Proof.
  destruct (started_server (fun i => 100 + i) 9 (lit "0.0.0.0:80") (lit "web") 2) as [s0|] eqn:E; [|discriminate E].
  destruct (server_connection_lifecycle (fun i => 100 + i) 9 (lit "0.0.0.0:80") (lit "web") 2 example_events s0)
    as (s&Hr&_).
  - lia.
  - vm_compute. discriminate.
  - vm_compute. reflexivity.
  - exact E.
  - exists s0, s. split; [reflexivity|]. split; [exact Hr|].
    vm_compute in E. injection E as <-. vm_compute in Hr. injection Hr as <-. vm_compute. repeat split.
Defined.

End TcpServer.
