(* ===== verification/NetHttpRequest.v ===== *)
(** src/muduo/net/http/HttpRequest.h: the fields of a parsed HTTP request.
    Strings are byte lists; [headers_] is a finite map from field to value. *)

From S2P Require Import Prelude.

Module HttpRequest.

Inductive Method := kInvalid | kGet | kPost | kHead | kPut | kDelete.
Inductive Version := kUnknown | kHttp10 | kHttp11.
#[global] Instance Method_eq_dec : EqDecision Method.
Proof. solve_decision. Defined.
#[global] Instance Version_eq_dec : EqDecision Version.
Proof. solve_decision. Defined.

Record t := mk {
  method_ : Method;
  version_ : Version;
  path_ : bytes;
  query_ : bytes;
  receiveTime_ : Z;
  headers_ : gmap bytes bytes
}.

Definition new_ : t := mk kInvalid kUnknown [] [] 0 ∅.

Definition setVersion (v : Version) (r : t) : t :=
  mk (method_ r) v (path_ r) (query_ r) (receiveTime_ r) (headers_ r).

(** The method a request line starts with; [kInvalid] for any other word. *)
Definition method_of (m : bytes) : Method :=
  if bytes_eqb m (lit "GET") then kGet
  else if bytes_eqb m (lit "POST") then kPost
  else if bytes_eqb m (lit "HEAD") then kHead
  else if bytes_eqb m (lit "PUT") then kPut
  else if bytes_eqb m (lit "DELETE") then kDelete
  else kInvalid.

Definition setMethod (m : bytes) (r : t) : outcome (bool * t) :=
  massert (bool_decide (method_ r = kInvalid)) "method_ == kInvalid";;
  let method := method_of m in
  Ok (bool_decide (method <> kInvalid),
      mk method (version_ r) (path_ r) (query_ r) (receiveTime_ r) (headers_ r)).

Definition methodString (r : t) : bytes :=
  match method_ r with
  | kGet => lit "GET"
  | kPost => lit "POST"
  | kHead => lit "HEAD"
  | kPut => lit "PUT"
  | kDelete => lit "DELETE"
  | kInvalid => lit "UNKNOWN"
  end.

Definition setPath (p : bytes) (r : t) : t :=
  mk (method_ r) (version_ r) p (query_ r) (receiveTime_ r) (headers_ r).
Definition setQuery (q : bytes) (r : t) : t :=
  mk (method_ r) (version_ r) (path_ r) q (receiveTime_ r) (headers_ r).
Definition setReceiveTime (x : Z) (r : t) : t :=
  mk (method_ r) (version_ r) (path_ r) (query_ r) x (headers_ r).

(** [isspace] of the C locale. *)
Definition isspace (c : Z) : bool := (c =? 32) || ((9 <=? c) && (c <=? 13)).

(** The two trimming loops. *)
Fixpoint skip_spaces (s : bytes) : bytes :=
  match s with
  | [] => []
  | c :: s' => if isspace c then skip_spaces s' else s
  end.
Definition trim_right (s : bytes) : bytes := reverse (skip_spaces (reverse s)).

(** [line] is the text from [start] to [end], [colon] the offset of its first
    colon. *)
Definition addHeader (line : bytes) (colon : Z) (r : t) : t :=
  let field := ztake colon line in
  let value := trim_right (skip_spaces (zdrop (colon + 1) line)) in
  mk (method_ r) (version_ r) (path_ r) (query_ r) (receiveTime_ r) (<[field := value]> (headers_ r)).

Definition getHeader (field : bytes) (r : t) : bytes := default [] (headers_ r !! field).

(** [swap]: both requests. *)
Definition swap (r that : t) : t * t := (that, r).

(** * Lemmas *)

Lemma skip_spaces_id s : (forall c s', s = c :: s' -> isspace c = false) -> skip_spaces s = s.
Proof. destruct s as [|c s]; [done|]. intros H. cbn. by rewrite (H c s). Qed.

Lemma skip_spaces_app sp s :
  Forall (fun c => isspace c = true) sp -> (forall c s', s = c :: s' -> isspace c = false) ->
  skip_spaces (sp ++ s) = s.
Proof. induction 1 as [|c sp Hc _ IH]; intros Hs; cbn; [by apply skip_spaces_id|]. rewrite Hc. auto. Qed.

(** Text without spaces at its ends. *)
Definition trimmed (s : bytes) : Prop :=
  (forall c s', s = c :: s' -> isspace c = false) /\ (forall c s', s = s' ++ [c] -> isspace c = false).

Lemma trim_right_app s sp :
  trimmed s -> Forall (fun c => isspace c = true) sp -> trim_right (s ++ sp) = s.
Proof.
  intros [_ Hs] Hsp. unfold trim_right. rewrite reverse_app, skip_spaces_app.
  - apply reverse_involutive.
  - by apply Forall_reverse.
  - intros c s' E. apply (Hs c (reverse s')). apply (f_equal reverse) in E.
    by rewrite reverse_involutive, reverse_cons in E.
Qed.

(** A header line "field: value" stores the value; spaces around it do not
    count. *)
Lemma addHeader_line field sp1 value sp2 r :
  trimmed value -> Forall (fun c => isspace c = true) sp1 -> Forall (fun c => isspace c = true) sp2 ->
  value <> [] \/ sp2 = [] ->
  addHeader (field ++ 58 :: sp1 ++ value ++ sp2) (zlen field) r =
  mk (method_ r) (version_ r) (path_ r) (query_ r) (receiveTime_ r) (<[field := value]> (headers_ r)).
Proof.
  intros Ht H1 H2 Hne. unfold addHeader. rewrite ztake_app_exact by done.
  assert (zdrop (zlen field + 1) (field ++ 58 :: sp1 ++ value ++ sp2) = sp1 ++ value ++ sp2) as ->.
  { rewrite cons_middle, app_assoc. apply zdrop_app_exact. zlia. }
  rewrite skip_spaces_app, trim_right_app; try done.
  intros c s' E. destruct value as [|v value]; [destruct Hne; [done|by subst]|].
  injection E as <- _. by apply (proj1 Ht v value).
Qed.

(** The line the way it is usually printed: one space, nothing after the value. *)
Lemma addHeader_printed field value r :
  trimmed value ->
  addHeader (field ++ 58 :: [32] ++ value) (zlen field) r =
  mk (method_ r) (version_ r) (path_ r) (query_ r) (receiveTime_ r) (<[field := value]> (headers_ r)).
Proof.
  intros Ht. rewrite <- (addHeader_line field [32] value [] r); [by rewrite app_nil_r|done| | |by right].
  - by repeat constructor.
  - constructor.
Qed.

Lemma method_of_methodString r : method_ r <> kInvalid -> method_of (methodString r) = method_ r.
Proof. unfold methodString. by destruct (method_ r). Qed.

End HttpRequest.
