(* ===== verification/NetHttpContext.v ===== *)
(** src/muduo/net/http/HttpContext.h and HttpContext.cc: the incremental parser
    of HTTP requests on a connection's input buffer.

    [parseRequest] is the code's loop, over the buffer, with fuel for its
    iterations; [parse_bytes] is a reference parser on byte strings that reads
    one line at a time, and [reads] the format of requests as a relation that
    uses none of the code's functions.  The file proves that the loop computes
    both and terminates where the server calls it, what it does in the other
    contexts, that parsing does not depend on how the bytes arrive, and that a
    printed request is parsed back. *)

From S2P Require Import Prelude BaseTimestamp Endian BaseStringPiece NetBuffer NetHttpRequest.

Module HttpContext.

Inductive HttpRequestParseState := kExpectRequestLine | kExpectHeaders | kExpectBody | kGotAll.
#[global] Instance state_eq_dec : EqDecision HttpRequestParseState.
Proof. solve_decision. Defined.

Record t := mk { state_ : HttpRequestParseState; request_ : HttpRequest.t }.

Definition new_ : t := mk kExpectRequestLine HttpRequest.new_.
Definition gotAll (x : t) : bool := bool_decide (state_ x = kGotAll).
Definition reset (x : t) : t :=
  mk kExpectRequestLine (fst (HttpRequest.swap (request_ x) HttpRequest.new_)).

(** [line] is the text between [begin] and [end]. *)
Definition processRequestLine (line : bytes) (r : HttpRequest.t) : outcome (bool * HttpRequest.t) :=
  let space := find_idx 32 line in
  if space =? zlen line then Ok (false, r)
  else
    '(method_ok, r) ← HttpRequest.setMethod (ztake space line) r;
    if (method_ok : bool)
    then
      let start := zdrop (space + 1) line in
      let space := find_idx 32 start in
      if space =? zlen start then Ok (false, r)
      else
        let url := ztake space start in
        let question := find_idx 63 url in
        let r := if question =? zlen url then HttpRequest.setPath url r
                 else HttpRequest.setQuery (zdrop question url) (HttpRequest.setPath (ztake question url) r) in
        let start := zdrop (space + 1) start in
        let succeed := (zlen start =? 8) && bytes_eqb (ztake 7 start) (lit "HTTP/1.") in
        if succeed
        then match znth start 7 with
             | Some 49 => Ok (true, HttpRequest.setVersion HttpRequest.kHttp11 r)
             | Some 48 => Ok (true, HttpRequest.setVersion HttpRequest.kHttp10 r)
             | _ => Ok (false, r)
             end
        else Ok (false, r)
    else Ok (false, r).

(** The text from [peek()] to [crlf]. *)
Definition line_to (buf : Buffer.t) (crlf : Z) : bytes :=
  zslice (Buffer.peek buf) crlf (Buffer.buffer_ buf).

(** One iteration of the loop of [parseRequest]: [ok], [hasMore], the buffer
    and the context after it. *)
Definition parse_iter (receiveTime : Timestamp.t) (ok : bool) (buf : Buffer.t) (x : t)
    : outcome (bool * bool * Buffer.t * t) :=
  match state_ x with
  | kExpectRequestLine =>
      match Buffer.findCRLF buf with
      | Some crlf =>
          '(ok, r) ← processRequestLine (line_to buf crlf) (request_ x);
          if (ok : bool)
          then
            let r := HttpRequest.setReceiveTime receiveTime r in
            buf ← Buffer.retrieveUntil (crlf + 2) buf;
            Ok (ok, true, buf, mk kExpectHeaders r)
          else Ok (ok, false, buf, mk (state_ x) r)
      | None => Ok (ok, false, buf, x)
      end
  | kExpectHeaders =>
      match Buffer.findCRLF buf with
      | Some crlf =>
          let line := line_to buf crlf in
          let colon := find_idx 58 line in
          let '(hasMore, x) :=
            if colon =? zlen line then (false, mk kGotAll (request_ x))
            else (true, mk (state_ x) (HttpRequest.addHeader line colon (request_ x))) in
          buf ← Buffer.retrieveUntil (crlf + 2) buf;
          Ok (ok, hasMore, buf, x)
      | None => Ok (ok, false, buf, x)
      end
  | kExpectBody => Ok (ok, true, buf, x)
  | kGotAll => Ok (ok, true, buf, x)
  end.

Fixpoint parse_loop (fuel : nat) (receiveTime : Timestamp.t) (ok : bool) (buf : Buffer.t) (x : t)
    : outcome (option (bool * Buffer.t * t)) :=
  match fuel with
  | O => Ok None
  | S fuel' =>
      '(ok, hasMore, buf, x) ← parse_iter receiveTime ok buf x;
      if (hasMore : bool) then parse_loop fuel' receiveTime ok buf x else Ok (Some (ok, buf, x))
  end.

(** [None] when the loop still runs after [fuel] iterations. *)
Definition parseRequest (fuel : nat) (buf : Buffer.t) (receiveTime : Timestamp.t) (x : t)
    : outcome (option (bool * Buffer.t * t)) :=
  parse_loop fuel receiveTime true buf x.

(** * Reference parser on byte strings *)

(** The first line, without its CRLF, and what follows it. *)
Definition next_line (c : bytes) : option (bytes * bytes) :=
  let i := Buffer.search_crlf c in
  if i =? zlen c then None else Some (ztake i c, zdrop (i + 2) c).

Definition spec_iter (receiveTime : Timestamp.t) (x : t) (c : bytes) : outcome (bool * bool * t * bytes) :=
  match next_line c with
  | None => Ok (true, false, x, c)
  | Some (line, rest) =>
      if decide (state_ x = kExpectRequestLine)
      then
        '(ok, r) ← processRequestLine line (request_ x);
        Ok (if (ok : bool) then (true, true, mk kExpectHeaders (HttpRequest.setReceiveTime receiveTime r), rest)
            else (false, false, mk (state_ x) r, c))
      else
        let colon := find_idx 58 line in
        Ok (if colon =? zlen line then (true, false, mk kGotAll (request_ x), rest)
            else (true, true, mk (state_ x) (HttpRequest.addHeader line colon (request_ x)), rest))
  end.

Fixpoint spec_loop (fuel : nat) (receiveTime : Timestamp.t) (x : t) (c : bytes)
    : outcome (option (bool * t * bytes)) :=
  match fuel with
  | O => Ok None
  | S fuel' =>
      '(ok, hasMore, x, c) ← spec_iter receiveTime x c;
      if (hasMore : bool) then spec_loop fuel' receiveTime x c else Ok (Some (ok, x, c))
  end.
Definition parse_bytes (receiveTime : Timestamp.t) (x : t) (c : bytes) : outcome (option (bool * t * bytes)) :=
  spec_loop (S (length c)) receiveTime x c.

(** A context [HttpServer] hands to the parser. *)
Definition parsing (x : t) : Prop := state_ x = kExpectRequestLine \/ state_ x = kExpectHeaders.

(** * Lemmas *)

Lemma search_crlf_app c d :
  Buffer.search_crlf c < zlen c -> Buffer.search_crlf (c ++ d) = Buffer.search_crlf c.
Proof.
  induction c as [|x [|y c] IH]; cbn [Buffer.search_crlf app] in *; [zlia|zlia|].
  rewrite zlen_cons. destruct (_ && _); [done|]. intros Hlt. rewrite IH; [done|lia].
Qed.

Lemma crlf_fits c : Buffer.search_crlf c < zlen c -> Buffer.search_crlf c + 2 <= zlen c.
Proof.
  intros Hlt. destruct (proj1 (Buffer.search_crlf_spec c) Hlt) as (pre&post&E&Hp).
  rewrite <- Hp. rewrite E. unfold Buffer.kCRLF. zlia.
Qed.

Lemma next_line_app c d line rest :
  next_line c = Some (line, rest) -> next_line (c ++ d) = Some (line, rest ++ d).
Proof.
  unfold next_line. pose proof (Buffer.search_crlf_bounds c) as Hb.
  destruct (Z.eqb_spec (Buffer.search_crlf c) (zlen c)); [done|]. intros [= <- <-].
  pose proof (crlf_fits c ltac:(lia)) as Hfit.
  rewrite search_crlf_app by lia. destruct (Z.eqb_spec (Buffer.search_crlf c) (zlen (c ++ d))); [zlia|].
  by rewrite ztake_app_le, zdrop_app_le by lia.
Qed.

Lemma next_line_len c line rest : next_line c = Some (line, rest) -> (length rest + 2 <= length c)%nat.
Proof.
  unfold next_line. pose proof (Buffer.search_crlf_bounds c) as Hb.
  destruct (Z.eqb_spec (Buffer.search_crlf c) (zlen c)); [done|]. intros [= <- <-].
  pose proof (crlf_fits c ltac:(lia)) as Hfit.
  unfold zdrop. rewrite length_drop. unfold zlen in *. lia.
Qed.

Lemma next_line_printed line rest :
  Forall (fun c => c <> 13) line -> next_line (line ++ Buffer.kCRLF ++ rest) = Some (line, rest).
Proof.
  intros Hl. unfold next_line. rewrite Buffer.search_crlf_line by done.
  destruct (Z.eqb_spec (zlen line) (zlen (line ++ Buffer.kCRLF ++ rest))) as [E|].
  { unfold Buffer.kCRLF in E. zlia. }
  rewrite ztake_app_exact by done. f_equal. f_equal. rewrite app_assoc. apply zdrop_app_exact.
  unfold Buffer.kCRLF. zlia.
Qed.

Lemma findCRLF_next_line b :
  Buffer.wf b ->
  Buffer.findCRLF b = (fun p => Buffer.peek b + zlen (fst p)) <$> next_line (Buffer.content b).
Proof.
  intros Hb. unfold Buffer.findCRLF, Buffer.findCRLF_between, Buffer.beginWrite, next_line.
  change (zslice (Buffer.peek b) _ _) with (Buffer.content b).
  pose proof (Buffer.content_len b Hb) as Hl. pose proof (Buffer.search_crlf_bounds (Buffer.content b)) as Hs.
  unfold Buffer.peek.
  destruct (Z.eqb_spec (Buffer.readerIndex_ b + Buffer.search_crlf (Buffer.content b)) (Buffer.writerIndex_ b)),
    (Z.eqb_spec (Buffer.search_crlf (Buffer.content b)) (zlen (Buffer.content b))); try lia; [done|].
  cbn. do 2 f_equal. zlia.
Qed.

(** The line and the rest, in the buffer. *)
Lemma next_line_buffer b line rest :
  Buffer.wf b -> next_line (Buffer.content b) = Some (line, rest) ->
  line_to b (Buffer.peek b + zlen line) = line /\
  exists b', Buffer.retrieveUntil (Buffer.peek b + zlen line + 2) b = Ok b' /\ Buffer.wf b' /\
    Buffer.content b' = rest.
Proof.
  intros Hb Hn. unfold next_line in Hn.
  pose proof (Buffer.search_crlf_bounds (Buffer.content b)) as Hs.
  pose proof (Buffer.content_len b Hb) as Hl.
  destruct (Z.eqb_spec (Buffer.search_crlf (Buffer.content b)) (zlen (Buffer.content b))); [done|].
  injection Hn as Hline Hrest. set (i := Buffer.search_crlf (Buffer.content b)) in *.
  assert (zlen line = i) as Hi by (rewrite <- Hline; zlia).
  assert (i + 2 <= zlen (Buffer.content b)) as Hfit by (apply crlf_fits; lia).
  assert (Hb2 := Hb). unfold Buffer.wf, Buffer.vector_max_size in Hb2. split.
  - unfold line_to, Buffer.peek. rewrite <- Hline at 2. unfold Buffer.content. rewrite Hi.
    rewrite ztake_zslice by lia. done.
  - unfold Buffer.retrieveUntil, Buffer.peek, Buffer.beginWrite. do 2 assert_ok by (zbool; lia).
    rewrite Hi. replace (Buffer.readerIndex_ b + i + 2 - Buffer.readerIndex_ b) with (i + 2) by lia.
    unfold u64. rewrite uwrap_small by (unfold urange; lia).
    destruct (Buffer.retrieve_ok (i + 2) b) as (b'&->&Hb'&Hc'&_); [done|lia|done|].
    exists b'. by rewrite Hc', Hrest.
Qed.

(** One iteration on the buffer is one on its bytes. *)
Lemma parse_iter_spec time buf x :
  Buffer.wf buf -> parsing x ->
  match spec_iter time x (Buffer.content buf) with
  | Ok (ok, more, x', c') => exists buf', parse_iter time true buf x = Ok (ok, more, buf', x') /\
      Buffer.wf buf' /\ Buffer.content buf' = c' /\ (more = true -> parsing x' /\ ok = true)
  | Err e => parse_iter time true buf x = Err e
  end.
Proof.
  intros Hb Hx. unfold spec_iter, parse_iter. rewrite findCRLF_next_line by done.
  destruct (next_line (Buffer.content buf)) as [[line rest]|] eqn:En; cbn [fmap option_fmap option_map fst].
  2: { exists buf. destruct Hx as [E|E]; rewrite E; by split_and!. }
  destruct (next_line_buffer buf line rest Hb En) as (El&b'&Er&Hb'&Hc').
  rewrite El. destruct Hx as [E|E]; rewrite E.
  - rewrite decide_True by done. destruct (processRequestLine line (request_ x)) as [[ok r]|e]; cbn; [|done].
    destruct ok; [rewrite Er; cbn; exists b'|exists buf]; split_and!; try done. intros _. split; [by right|done].
  - rewrite decide_False by done. destruct (find_idx 58 line =? zlen line); cbn; rewrite Er; cbn; exists b';
      split_and!; try done. intros _. split; [by right|done].
Qed.

Lemma parse_loop_spec fuel time buf x :
  Buffer.wf buf -> parsing x ->
  match spec_loop fuel time x (Buffer.content buf) with
  | Ok (Some (ok, x', c')) => exists buf', parse_loop fuel time true buf x = Ok (Some (ok, buf', x')) /\
      Buffer.wf buf' /\ Buffer.content buf' = c'
  | Ok None => parse_loop fuel time true buf x = Ok None
  | Err e => parse_loop fuel time true buf x = Err e
  end.
Proof.
  revert buf x. induction fuel as [|fuel IH]; intros buf x Hb Hx; cbn; [done|].
  pose proof (parse_iter_spec time buf x Hb Hx) as Hi.
  destruct (spec_iter time x (Buffer.content buf)) as [[[[ok more] x'] c']|e]; cbn; [|by rewrite Hi].
  destruct Hi as (buf'&->&Hb'&<-&Hmore). cbn. destruct more; [|by exists buf'].
  destruct (Hmore eq_refl) as (Hx'&->). by apply IH.
Qed.

(** A continuing iteration consumes a line, so the loop needs at most one
    iteration per byte and one more. *)
Lemma spec_iter_consumes time x c ok x' c' :
  spec_iter time x c = Ok (ok, true, x', c') -> (length c' < length c)%nat.
Proof.
  unfold spec_iter. destruct (next_line c) as [[line rest]|] eqn:En; [|done].
  apply next_line_len in En. case_decide.
  - destruct (processRequestLine _ _) as [[b r]|]; cbn; [|done]. destruct b; intros [=]; subst. lia.
  - destruct (_ =? _); intros [=]; subst. lia.
Qed.

Lemma spec_loop_fuel fuel1 fuel2 time x c :
  (length c < fuel1)%nat -> (length c < fuel2)%nat -> spec_loop fuel1 time x c = spec_loop fuel2 time x c.
Proof.
  revert fuel2 x c. induction fuel1 as [|fuel1 IH]; intros [|fuel2] x c H1 H2; try lia. cbn.
  destruct (spec_iter time x c) as [[[[ok more] x'] c']|e] eqn:E; cbn; [|done].
  destruct more; [|done]. apply spec_iter_consumes in E. apply IH; lia.
Qed.

Lemma spec_loop_total fuel time x c :
  (length c < fuel)%nat ->
  match spec_loop fuel time x c with Ok None => False | _ => True end.
Proof.
  revert x c. induction fuel as [|fuel IH]; intros x c Hf; [lia|]. cbn.
  destruct (spec_iter time x c) as [[[[ok more] x'] c']|e] eqn:E; cbn; [|done].
  destruct more; [|done]. apply spec_iter_consumes in E. apply IH. lia.
Qed.

Lemma parse_bytes_unfold time x c :
  parse_bytes time x c = '(ok, more, x', c') ← spec_iter time x c;
    if (more : bool) then parse_bytes time x' c' else Ok (Some (ok, x', c')).
Proof.
  unfold parse_bytes at 1. cbn [spec_loop].
  destruct (spec_iter time x c) as [[[[ok more] x'] c']|e] eqn:E; cbn [mbind outcome_bind]; [|done].
  destruct more; [|done]. apply spec_iter_consumes in E. unfold parse_bytes. apply spec_loop_fuel; lia.
Qed.

(** The only check that can fail is the one on an earlier method. *)
Lemma processRequestLine_fault line r e :
  processRequestLine line r = Err e -> e = AssertFail "method_ == kInvalid" /\ HttpRequest.method_ r <> HttpRequest.kInvalid.
Proof.
  unfold processRequestLine, HttpRequest.setMethod. destruct (find_idx 32 line =? zlen line); [done|].
  destruct (decide (HttpRequest.method_ r = HttpRequest.kInvalid)) as [Em|Em].
  - rewrite (bool_decide_eq_true_2 (HttpRequest.method_ r = _)) by done. cbn [massert mbind outcome_bind]. repeat (case_match; try done).
  - rewrite (bool_decide_eq_false_2 (HttpRequest.method_ r = _)) by done. cbn. by intros [= <-].
Qed.

(** More input after the line does not change an iteration that found one. *)
Lemma spec_iter_app time x c d :
  next_line c <> None ->
  spec_iter time x (c ++ d) =
  '(ok, more, x', c') ← spec_iter time x c; Ok (ok, more, x', c' ++ d).
Proof.
  unfold spec_iter. destruct (next_line c) as [[line rest]|] eqn:En; [|done]. intros _.
  rewrite (next_line_app _ _ _ _ En). case_decide.
  - destruct (processRequestLine _ _) as [[[] r]|]; done.
  - by destruct (_ =? _).
Qed.

Lemma parse_bytes_app time x c d x' c' :
  parse_bytes time x c = Ok (Some (true, x', c')) -> parsing x -> state_ x' <> kGotAll ->
  parse_bytes time x (c ++ d) = parse_bytes time x' (c' ++ d).
Proof.
  remember (length c) as n eqn:Hn. revert x c Hn. induction n as [n IH] using lt_wf_ind. intros x c Hn Hp Hx Hst.
  rewrite parse_bytes_unfold in Hp. destruct (next_line c) as [[line rest]|] eqn:En.
  2: { unfold spec_iter in Hp. rewrite En in Hp. cbn in Hp. injection Hp as <- <-. done. }
  rewrite (parse_bytes_unfold time x (c ++ d)), spec_iter_app by congruence.
  destruct (spec_iter time x c) as [[[[ok more] x1] c1]|e] eqn:E; cbn in *; [|done].
  destruct more.
  - pose proof (spec_iter_consumes _ _ _ _ _ _ E) as Hlt. eapply IH; try done; [lia|].
    unfold spec_iter in E. rewrite En in E. case_decide.
    + destruct (processRequestLine _ _) as [[[] r]|]; cbn in E; [|done..]. injection E as <- <- <-. by right.
    + destruct (_ =? _); [done|]. injection E as <- <- <-. destruct Hx as [Hx|Hx]; [done|]. by right.
  - injection Hp as -> <- <-. unfold spec_iter in E. rewrite En in E. case_decide.
    + destruct (processRequestLine _ _) as [[[] r]|]; cbn in E; done.
    + destruct (_ =? _); [|done]. injection E as <- <-. done.
Qed.

(** * Printing a request *)

Definition method_text (m : HttpRequest.Method) : bytes :=
  HttpRequest.methodString (HttpRequest.mk m HttpRequest.kUnknown [] [] 0 ∅).
Definition request_line (m : HttpRequest.Method) (path query : bytes) (v : HttpRequest.Version) : bytes :=
  method_text m ++ 32 :: (path ++ query) ++ 32 :: lit "HTTP/1." ++
  [match v with HttpRequest.kHttp10 => 48 | _ => 49 end].
Definition header_line (h : bytes * bytes) : bytes := fst h ++ 58 :: [32] ++ snd h.
Fixpoint header_text (hs : list (bytes * bytes)) : bytes :=
  match hs with
  | [] => Buffer.kCRLF
  | h :: hs' => header_line h ++ Buffer.kCRLF ++ header_text hs'
  end.
Definition request_text m path query v hs : bytes :=
  request_line m path query v ++ Buffer.kCRLF ++ header_text hs.

Definition without (c : Z) (s : bytes) : Prop := Forall (fun x => x <> c) s.
Definition path_ok (path : bytes) : Prop := without 32 path /\ without 63 path /\ without 13 path.
Definition query_ok (query : bytes) : Prop :=
  (query = [] \/ exists q, query = 63 :: q) /\ without 32 query /\ without 13 query.
Definition header_ok (h : bytes * bytes) : Prop :=
  without 58 (fst h) /\ without 13 (fst h) /\ HttpRequest.trimmed (snd h) /\ without 13 (snd h).
Definition add_headers (m : gmap bytes bytes) (hs : list (bytes * bytes)) : gmap bytes bytes :=
  foldl (fun m h => <[fst h := snd h]> m) m hs.

Lemma method_text_clean m : m <> HttpRequest.kInvalid -> without 32 (method_text m) /\ without 13 (method_text m).
Proof. destruct m; intros H; try done; by split; repeat constructor. Qed.

Lemma processRequestLine_printed m path query v r :
  m <> HttpRequest.kInvalid -> v <> HttpRequest.kUnknown -> path_ok path -> query_ok query ->
  HttpRequest.method_ r = HttpRequest.kInvalid -> HttpRequest.query_ r = [] ->
  processRequestLine (request_line m path query v) r =
  Ok (true, HttpRequest.mk m v path query (HttpRequest.receiveTime_ r) (HttpRequest.headers_ r)).
Proof.
  intros Hm Hv (Hp1&Hp2&_) (Hq1&Hq2&_) Hr Hrq. destruct (method_text_clean m Hm) as [Hm1 _].
  set (tail := lit "HTTP/1." ++ [match v with HttpRequest.kHttp10 => 48 | _ => 49 end]).
  unfold request_line. fold tail.
  unfold processRequestLine. rewrite find_idx_first by done.
  destruct (Z.eqb_spec (zlen (method_text m)) (zlen (method_text m ++ 32 :: (path ++ query) ++ 32 :: tail))); [zlia|].
  rewrite ztake_app_exact by done. unfold HttpRequest.setMethod.
  rewrite (bool_decide_eq_true_2 (HttpRequest.method_ r = _)) by done. cbn [massert mbind outcome_bind].
  assert (HttpRequest.method_of (method_text m) = m) as -> by by destruct m.
  rewrite (bool_decide_eq_true_2 (m <> _)) by done.
  assert (zdrop (zlen (method_text m) + 1) (method_text m ++ 32 :: (path ++ query) ++ 32 :: tail)
          = (path ++ query) ++ 32 :: tail) as ->.
  { rewrite (cons_middle 32 (method_text m)), app_assoc. apply zdrop_app_exact. zlia. }
  rewrite find_idx_first by by apply Forall_app.
  destruct (Z.eqb_spec (zlen (path ++ query)) (zlen ((path ++ query) ++ 32 :: tail))); [zlia|].
  rewrite ztake_app_exact by done.
  assert (zdrop (zlen (path ++ query) + 1) ((path ++ query) ++ 32 :: tail) = tail) as ->.
  { rewrite cons_middle, app_assoc. apply zdrop_app_exact. zlia. }
  set (r1 := if find_idx 63 (path ++ query) =? zlen (path ++ query) then _ else _).
  assert (r1 = HttpRequest.mk m (HttpRequest.version_ r) path query (HttpRequest.receiveTime_ r) (HttpRequest.headers_ r)) as ->.
  { unfold r1. destruct Hq1 as [->|(q&->)].
    - rewrite app_nil_r, find_idx_none, Z.eqb_refl by done. unfold HttpRequest.setPath. cbn. by rewrite Hrq.
    - rewrite find_idx_first by done. destruct (Z.eqb_spec (zlen path) (zlen (path ++ 63 :: q))); [zlia|].
      by rewrite ztake_app_exact, zdrop_app_exact by done. }
  unfold tail. by destruct v.
Qed.

Lemma header_line_clean h : header_ok h -> without 13 (header_line h).
Proof. intros (_&H1&_&H2). apply Forall_app. split; [done|]. by repeat constructor. Qed.

Lemma request_line_clean m path query v :
  m <> HttpRequest.kInvalid -> path_ok path -> query_ok query -> without 13 (request_line m path query v).
Proof.
  intros Hm (_&_&Hp) (_&_&Hq). destruct (method_text_clean m Hm) as [_ ?]. unfold request_line, without.
  apply Forall_app. split; [done|]. constructor; [done|]. apply Forall_app. split; [by apply Forall_app|].
  constructor; [done|]. destruct v; by repeat constructor.
Qed.

(** Header lines are stored in order, up to the empty line. *)
Lemma parse_headers time r hs rest :
  Forall header_ok hs ->
  parse_bytes time (mk kExpectHeaders r) (header_text hs ++ rest) =
  Ok (Some (true, mk kGotAll (HttpRequest.mk (HttpRequest.method_ r) (HttpRequest.version_ r) (HttpRequest.path_ r)
    (HttpRequest.query_ r) (HttpRequest.receiveTime_ r) (add_headers (HttpRequest.headers_ r) hs)), rest)).
Proof.
  intros Hhs. revert r. induction Hhs as [|h hs Hh _ IH]; intros r.
  - rewrite parse_bytes_unfold. unfold spec_iter. cbn [header_text].
    rewrite <- (app_nil_l (Buffer.kCRLF ++ rest)), next_line_printed by constructor.
    cbn. by destruct r.
  - rewrite parse_bytes_unfold. unfold spec_iter. cbn [header_text]. rewrite <- !app_assoc.
    rewrite next_line_printed by by apply header_line_clean.
    rewrite decide_False by done. destruct Hh as (Hf&_&Hv&_).
    assert (find_idx 58 (header_line h) = zlen (fst h)) as -> by by apply find_idx_first.
    destruct (Z.eqb_spec (zlen (fst h)) (zlen (header_line h))) as [E|_]; [unfold header_line in E; zlia|].
    cbn [mbind outcome_bind state_ request_].
    unfold header_line. rewrite HttpRequest.addHeader_printed by done. by rewrite IH.
Qed.

Lemma parse_printed time m path query v hs rest :
  m <> HttpRequest.kInvalid -> v <> HttpRequest.kUnknown -> path_ok path -> query_ok query ->
  Forall header_ok hs ->
  parse_bytes time new_ (request_text m path query v hs ++ rest) =
  Ok (Some (true, mk kGotAll (HttpRequest.mk m v path query time (add_headers ∅ hs)), rest)).
Proof.
  intros Hm Hv Hp Hq Hhs. rewrite parse_bytes_unfold. unfold spec_iter, request_text. rewrite <- !app_assoc.
  rewrite next_line_printed by by apply request_line_clean.
  rewrite decide_True by done. cbn [request_ new_].
  rewrite processRequestLine_printed by done. cbn [mbind outcome_bind]. by rewrite parse_headers.
Qed.

(** A context that expects a request line has no method yet: what [HttpContext()],
    [reset()] and a successful parse leave. *)
Definition fresh (x : t) : Prop :=
  parsing x /\ (state_ x = kExpectRequestLine -> HttpRequest.method_ (request_ x) = HttpRequest.kInvalid).

Lemma new_fresh : fresh new_.
Proof. split; [by left|done]. Qed.

Lemma spec_iter_fresh time x c :
  fresh x ->
  exists ok more x' c', spec_iter time x c = Ok (ok, more, x', c') /\
    (more = true -> fresh x') /\ (ok = true -> state_ x' <> kGotAll -> fresh x').
Proof.
  intros Hx. assert (Hx0 := Hx). destruct Hx as (Hp&Hm). unfold spec_iter.
  destruct (next_line c) as [[line rest]|]; [|by eexists _, _, _, _; split_and!].
  case_decide as Hst.
  - destruct (processRequestLine line (request_ x)) as [[ok r]|e] eqn:E.
    + destruct ok; eexists _, _, _, _; (split_and!; [done|..]); try done; intros; by split; [right|].
    + apply processRequestLine_fault in E as (_&E). by destruct E; auto.
  - assert (state_ x = kExpectHeaders) as E by by destruct Hp.
    destruct (_ =? _); eexists _, _, _, _; (split_and!; [done|..]); try done; intros; split; try done; by right.
Qed.

Lemma parse_bytes_fresh time x c :
  fresh x -> exists ok x' c', parse_bytes time x c = Ok (Some (ok, x', c')) /\
    (ok = true -> state_ x' <> kGotAll -> fresh x').
Proof.
  remember (length c) as n eqn:Hn. revert x c Hn. induction n as [n IH] using lt_wf_ind. intros x c Hn Hx.
  rewrite parse_bytes_unfold. destruct (spec_iter_fresh time x c Hx) as (ok&more&x'&c'&E&H1&H2). rewrite E.
  cbn [mbind outcome_bind]. destruct more; [|by eexists _, _, _].
  apply spec_iter_consumes in E. by apply (IH (length c')); [lia|..|apply H1].
Qed.

(** Header lines are never rejected. *)
Lemma parse_bytes_never_false time x c :
  state_ x = kExpectHeaders -> exists x' c', parse_bytes time x c = Ok (Some (true, x', c')).
Proof.
  remember (length c) as n eqn:Hn. revert x c Hn. induction n as [n IH] using lt_wf_ind. intros x c Hn Hx.
  rewrite parse_bytes_unfold.
  destruct (spec_iter time x c) as [[[[ok more] x'] c']|e] eqn:E; cbn.
  - assert (Hlt := E). unfold spec_iter in E. destruct (next_line c) as [[line rest]|].
    2: { injection E as <- <- <- <-. by eexists _, _. }
    rewrite decide_False in E by congruence.
    destruct (_ =? _); injection E as <- <- <- <-; [by eexists _, _|].
    apply spec_iter_consumes in Hlt. eapply (IH (length rest)); [lia|done|done].
  - unfold spec_iter in E. destruct (next_line c) as [[line rest]|]; [|done].
    rewrite decide_False in E by congruence. by destruct (_ =? _).
Qed.

Lemma parse_bytes_false time x c x' c' :
  parsing x -> parse_bytes time x c = Ok (Some (false, x', c')) -> state_ x' = kExpectRequestLine.
Proof.
  intros [Hx|Hx] E.
  2: { destruct (parse_bytes_never_false time x c Hx) as (y&d&E'). by rewrite E' in E. }
  rewrite parse_bytes_unfold in E. unfold spec_iter in E. destruct (next_line c) as [[line rest]|]; [|done].
  rewrite decide_True in E by done. destruct (processRequestLine line _) as [[[] r]|]; cbn [mbind outcome_bind] in E; [| |done].
  - destruct (parse_bytes_never_false time (mk kExpectHeaders (HttpRequest.setReceiveTime time r)) rest eq_refl) as (y&d&E').
    by rewrite E' in E.
  - by injection E as <- _.
Qed.

(** A line whose method was recognised cannot be processed twice. *)
Lemma processRequestLine_again line r0 r :
  processRequestLine line r0 = Ok (false, r) -> HttpRequest.method_ r0 = HttpRequest.kInvalid ->
  HttpRequest.method_ r <> HttpRequest.kInvalid ->
  processRequestLine line r = Err (AssertFail "method_ == kInvalid").
Proof.
  unfold processRequestLine. destruct (find_idx 32 line =? zlen line).
  { intros E H0 Hm. injection E as ->. by destruct Hm. }
  intros _ _ Hm. unfold HttpRequest.setMethod. by rewrite (bool_decide_eq_false_2 (HttpRequest.method_ r = _)) by done.
Qed.

Lemma parseRequest_runs fuel time buf x :
  Buffer.wf buf -> fresh x -> (length (Buffer.content buf) < fuel)%nat ->
  exists ok buf' x', parseRequest fuel buf time x = Ok (Some (ok, buf', x')) /\ Buffer.wf buf' /\
    parse_bytes time x (Buffer.content buf) = Ok (Some (ok, x', Buffer.content buf')) /\
    (ok = true -> state_ x' <> kGotAll -> fresh x').
Proof.
  intros Hb Hx Hf. destruct (parse_bytes_fresh time x (Buffer.content buf) Hx) as (ok&x'&c'&E&Hx').
  pose proof (parse_loop_spec fuel time buf x Hb (proj1 Hx)) as Hl. unfold parse_bytes in E.
  rewrite (spec_loop_fuel fuel (S (length (Buffer.content buf)))), E in Hl by lia.
  destruct Hl as (buf'&?&?&<-). by exists ok, buf', x'.
Qed.

(** * The format of requests *)

(** The text before and after the first [c]. *)
Fixpoint cut (c : Z) (s : bytes) : option (bytes * bytes) :=
  match s with
  | [] => None
  | x :: s' => if decide (x = c) then Some ([], s') else '(a, b) ← cut c s'; Some (x :: a, b)
  end.
(** The text before and after the first CR LF. *)
Fixpoint cut_line (s : bytes) : option (bytes * bytes) :=
  match s with
  | [] => None
  | x :: s' =>
      match s' with
      | [] => None
      | y :: rest => if decide (x = 13 /\ y = 10) then Some ([], rest) else '(a, b) ← cut_line s'; Some (x :: a, b)
      end
  end.

Definition read_method (w : bytes) : HttpRequest.Method :=
  if decide (w = lit "GET") then HttpRequest.kGet else if decide (w = lit "POST") then HttpRequest.kPost
  else if decide (w = lit "HEAD") then HttpRequest.kHead else if decide (w = lit "PUT") then HttpRequest.kPut
  else if decide (w = lit "DELETE") then HttpRequest.kDelete else HttpRequest.kInvalid.
Definition read_version (w : bytes) : option HttpRequest.Version :=
  if decide (w = lit "HTTP/1.0") then Some HttpRequest.kHttp10
  else if decide (w = lit "HTTP/1.1") then Some HttpRequest.kHttp11 else None.
(** "method target version" in a request that has nothing but headers yet; or
    the method recognised in a line that is no request line. *)
Definition read_request_line (time : Timestamp.t) (line : bytes) (r : HttpRequest.t) : HttpRequest.Method + HttpRequest.t :=
  match cut 32 line with
  | None => inl HttpRequest.kInvalid
  | Some (word, line) =>
      let m := read_method word in
      if decide (m = HttpRequest.kInvalid) then inl HttpRequest.kInvalid
      else match cut 32 line with
      | None => inl m
      | Some (target, version) =>
          match read_version version with
          | None => inl m
          | Some v =>
              let '(path, query) := match cut 63 target with
                | Some (path, query) => (path, 63 :: query)
                | None => (target, HttpRequest.query_ r) end in
              inr (HttpRequest.mk m v path query time (HttpRequest.headers_ r))
          end
      end
  end.

Definition blank (c : Z) : bool := bool_decide (c ∈ [9; 10; 11; 12; 13; 32]).
Fixpoint drop_front (s : bytes) : bytes :=
  match s with [] => [] | c :: s' => if blank c then drop_front s' else s end.
Fixpoint drop_back (s : bytes) : bytes :=
  match s with
  | [] => []
  | c :: s' => match drop_back s' with [] => if blank c then [] else [c] | s'' => c :: s'' end
  end.
Definition with_header (field value : bytes) (r : HttpRequest.t) : HttpRequest.t :=
  HttpRequest.mk (HttpRequest.method_ r) (HttpRequest.version_ r) (HttpRequest.path_ r) (HttpRequest.query_ r)
    (HttpRequest.receiveTime_ r) (<[field := drop_back (drop_front value)]> (HttpRequest.headers_ r)).

(** What the bytes read so far are: an incomplete request, one that is
    complete, or a line that is no request line. *)
Inductive verdict :=
| Incomplete (x : t) (rest : bytes)
| Complete (r : HttpRequest.t) (rest : bytes)
| Rejected (m : HttpRequest.Method).

(** The first line without a colon, empty or not, ends the headers. *)
Inductive reads_headers : HttpRequest.t -> bytes -> verdict -> Prop :=
| headers_wait r c : cut_line c = None -> reads_headers r c (Incomplete (mk kExpectHeaders r) c)
| headers_end r c line rest : cut_line c = Some (line, rest) -> cut 58 line = None -> reads_headers r c (Complete r rest)
| headers_field r c line rest field value v : cut_line c = Some (line, rest) -> cut 58 line = Some (field, value) ->
    reads_headers (with_header field value r) rest v -> reads_headers r c v.
Inductive reads (time : Timestamp.t) : t -> bytes -> verdict -> Prop :=
| reads_wait r c : cut_line c = None -> reads time (mk kExpectRequestLine r) c (Incomplete (mk kExpectRequestLine r) c)
| reads_reject r c line rest m : cut_line c = Some (line, rest) -> read_request_line time line r = inl m ->
    reads time (mk kExpectRequestLine r) c (Rejected m)
| reads_line r c line rest r' v : cut_line c = Some (line, rest) -> read_request_line time line r = inr r' ->
    reads_headers r' rest v -> reads time (mk kExpectRequestLine r) c v
| reads_more r c v : reads_headers r c v -> reads time (mk kExpectHeaders r) c v.

Lemma reads_headers_det r c v v' : reads_headers r c v -> reads_headers r c v' -> v = v'.
Proof.
  intros H. revert v'. induction H as [r c Hc|r c line rest Hc Hl|r c line rest f x v Hc Hl H IH]; intros v' H';
    inversion H'; subst; simplify_eq; try done; by apply IH.
Qed.
Lemma reads_det time x c v v' : reads time x c v -> reads time x c v' -> v = v'.
Proof.
  intros H H'. destruct H; inversion H'; subst; simplify_eq;
    repeat match goal with E : ?t = _, E' : ?t = _ |- _ => rewrite E in E'; simplify_eq end;
    done || by eapply reads_headers_det.
Qed.

Lemma ztake_next {A} i (x : A) l : 0 <= i -> ztake (1 + i) (x :: l) = x :: ztake i l.
Proof. intros Hi. unfold ztake. by replace (Z.to_nat (1 + i)) with (S (Z.to_nat i)) by lia. Qed.
Lemma zdrop_next {A} i (x : A) l : 0 <= i -> zdrop (1 + i) (x :: l) = zdrop i l.
Proof. intros Hi. unfold zdrop. by replace (Z.to_nat (1 + i)) with (S (Z.to_nat i)) by lia. Qed.
Lemma cut_find c s :
  cut c s = if find_idx c s =? zlen s then None else Some (ztake (find_idx c s) s, zdrop (find_idx c s + 1) s).
Proof.
  induction s as [|x s IH]; [done|]. cbn [cut find_idx]. rewrite zlen_cons. pose proof (find_idx_bounds c s).
  destruct (Z.eqb_spec x c) as [->|Hne].
  - rewrite decide_True by done. destruct (Z.eqb_spec 0 (1 + zlen s)); [lia|]. done.
  - rewrite decide_False, IH by done. destruct (Z.eqb_spec (find_idx c s) (zlen s)), (Z.eqb_spec (1 + find_idx c s) (1 + zlen s));
      try lia; [done|]. cbn. rewrite ztake_next, <-Z.add_assoc, zdrop_next by lia. done.
Qed.
Lemma find_idx_at c s : find_idx c s < zlen s -> zdrop (find_idx c s) s = c :: zdrop (find_idx c s + 1) s.
Proof.
  induction s as [|x s IH]; [done|]. cbn [find_idx]. rewrite zlen_cons. pose proof (find_idx_bounds c s).
  destruct (Z.eqb_spec x c) as [->|Hne]; [done|]. intros Hlt. rewrite <-Z.add_assoc, !zdrop_next by lia. apply IH. lia.
Qed.
Lemma cut_line_next s : cut_line s = next_line s.
Proof.
  unfold next_line. induction s as [|x s IH]; [done|]. cbn [cut_line Buffer.search_crlf]. destruct s as [|y s]; [done|].
  set (l := y :: s) in *. pose proof (Buffer.search_crlf_bounds l). rewrite zlen_cons. case_decide as E.
  - destruct E as [-> ->]. cbn [andb Z.eqb Pos.eqb]. unfold l. pose proof (zlen_nonneg (10 :: s)).
    destruct (Z.eqb_spec 0 (1 + zlen (10 :: s))); [lia|]. done.
  - assert ((x =? 13) && (y =? 10) = false) as ->.
    { destruct (Z.eqb_spec x 13), (Z.eqb_spec y 10); try done. by destruct E. }
    rewrite IH. destruct (Z.eqb_spec (Buffer.search_crlf l) (zlen l)), (Z.eqb_spec (1 + Buffer.search_crlf l) (1 + zlen l));
      try lia; [done|]. cbn [mbind option_bind]. by rewrite ztake_next, <-Z.add_assoc, zdrop_next by lia.
Qed.

Lemma blank_isspace c : blank c = HttpRequest.isspace c.
Proof.
  unfold blank, HttpRequest.isspace. apply eq_true_iff_eq. rewrite bool_decide_eq_true, orb_true_iff, andb_true_iff.
  rewrite Z.eqb_eq, !Z.leb_le, !elem_of_cons, elem_of_nil. lia.
Qed.
Lemma drop_front_skip s : drop_front s = HttpRequest.skip_spaces s.
Proof. induction s as [|c s IH]; cbn; [done|]. by rewrite blank_isspace, IH. Qed.
Lemma drop_back_snoc s c : drop_back (s ++ [c]) = if blank c then drop_back s else s ++ [c].
Proof.
  induction s as [|x s IH]; cbn; [by destruct (blank c)|]. rewrite IH. destruct (blank c); [done|]. by destruct s.
Qed.
Lemma drop_back_trim s : drop_back s = HttpRequest.trim_right s.
Proof.
  induction s as [|c s IH] using rev_ind; [done|]. rewrite drop_back_snoc. unfold HttpRequest.trim_right in *.
  rewrite reverse_snoc. cbn [HttpRequest.skip_spaces]. rewrite blank_isspace, IH. destruct (HttpRequest.isspace c); [done|].
  by rewrite reverse_cons, reverse_involutive.
Qed.
Lemma with_header_add field value line colon r :
  colon = find_idx 58 line -> cut 58 line = Some (field, value) ->
  HttpRequest.addHeader line colon r = with_header field value r.
Proof.
  intros ->. rewrite cut_find. destruct (_ =? _); [done|]. intros [= <- <-]. unfold HttpRequest.addHeader, with_header.
  by rewrite drop_back_trim, drop_front_skip.
Qed.

Lemma read_method_of w : HttpRequest.method_of w = read_method w.
Proof.
  unfold HttpRequest.method_of, read_method, bytes_eqb. repeat case_decide; repeat case_bool_decide; congruence.
Qed.
(** Eight bytes that start with "HTTP/1.". *)
Lemma read_version_ok w :
  read_version w =
    if (zlen w =? 8) && bytes_eqb (ztake 7 w) (lit "HTTP/1.")
    then match znth w 7 with Some 49 => Some HttpRequest.kHttp11 | Some 48 => Some HttpRequest.kHttp10 | _ => None end
    else None.
Proof.
  unfold read_version. destruct (Z.eqb_spec (zlen w) 8) as [Hl|Hl]; cbn [andb].
  2: { rewrite !decide_False; [done|intros ->; done|intros ->; done]. }
  unfold bytes_eqb. case_bool_decide as H7.
  2: { rewrite !decide_False; [done|intros ->; done|intros ->; done]. }
  assert (exists c, w = lit "HTTP/1." ++ [c]) as (c&->).
  { rewrite <-(ztake_zdrop 7 w), H7. pose proof (zlen_zdrop 7 w) as Hd. destruct (zdrop 7 w) as [|c [|d l]]; try zlia. by exists c. }
  change (znth (lit "HTTP/1." ++ [c]) 7) with (Some c).
  destruct (decide (c = 48)) as [->|H48]; [done|]. destruct (decide (c = 49)) as [->|H49]; [done|].
  rewrite !decide_False; [|by intros [= ->]..]. repeat case_match; simplify_eq; done.
Qed.

Lemma processRequestLine_reads time line r :
  HttpRequest.method_ r = HttpRequest.kInvalid ->
  exists r1, match read_request_line time line r with
    | inr r' => processRequestLine line r = Ok (true, r1) /\ HttpRequest.setReceiveTime time r1 = r'
    | inl m => processRequestLine line r = Ok (false, r1) /\ HttpRequest.method_ r1 = m
    end.
Proof.
  intros Hm. unfold read_request_line, processRequestLine. rewrite cut_find.
  destruct (find_idx 32 line =? zlen line); [exists r; by split|]. unfold HttpRequest.setMethod.
  rewrite (bool_decide_eq_true_2 (HttpRequest.method_ r = _)) by done. cbn [massert mbind outcome_bind]. rewrite read_method_of.
  set (m := read_method _). set (rest := zdrop _ line). cbv zeta.
  destruct (decide (m = HttpRequest.kInvalid)) as [E|Hv].
  { rewrite bool_decide_eq_false_2 by (intros Hne; by apply Hne). eexists. by split. }
  rewrite (bool_decide_eq_true_2 (m <> _)) by done. rewrite cut_find.
  destruct (find_idx 32 rest =? zlen rest); [eexists; by split|].
  set (url := ztake (find_idx 32 rest) rest). set (ver := zdrop (find_idx 32 rest + 1) rest).
  rewrite read_version_ok, (cut_find 63 url). pose proof (find_idx_at 63 url) as Hq. pose proof (find_idx_bounds 63 url).
  assert (forall v A (x y z : A), v <> 49 -> v <> 48 -> match v with 49 => x | 48 => y | _ => z end = z) as Hz.
  { intros. repeat case_match; done. }
  destruct (Z.eqb_spec (find_idx 63 url) (zlen url)); [|rewrite Hq by lia];
    (destruct (_ && _); [|eexists; by split]); (destruct (znth ver 7) as [v|]; [|eexists; by split]);
    (destruct (decide (v = 49)) as [->|H1]; [eexists; by split|]); (destruct (decide (v = 48)) as [->|H0]; [eexists; by split|]);
    rewrite !Hz by done; eexists; by split.
Qed.

(** What a verdict says of the result of [parseRequest]. *)
Definition result_of (c : bytes) (v : verdict) (ok : bool) (x : t) (rest : bytes) : Prop :=
  match v with
  | Incomplete x0 rest0 => ok = true /\ x = x0 /\ rest = rest0
  | Complete r rest0 => ok = true /\ x = mk kGotAll r /\ rest = rest0
  | Rejected m => ok = false /\ state_ x = kExpectRequestLine /\ HttpRequest.method_ (request_ x) = m /\ rest = c
  end.

Lemma parse_bytes_headers time r c ok x rest :
  parse_bytes time (mk kExpectHeaders r) c = Ok (Some (ok, x, rest)) ->
  exists v, reads_headers r c v /\ forall c0, result_of c0 v ok x rest.
Proof.
  remember (length c) as n eqn:Hn. revert r c Hn. induction n as [n IH] using lt_wf_ind. intros r c Hn.
  rewrite parse_bytes_unfold. unfold spec_iter. rewrite <-cut_line_next. cbn [state_ request_].
  destruct (cut_line c) as [[line rest1]|] eqn:Ec; cbn [mbind outcome_bind].
  2: { intros [= <- <- <-]. eexists. split; [by apply headers_wait|done]. }
  rewrite decide_False by done. destruct (cut 58 line) as [[field value]|] eqn:El.
  - pose proof El as El'. rewrite cut_find in El'. destruct (find_idx 58 line =? zlen line); [done|]. cbn [mbind outcome_bind].
    rewrite (with_header_add field value) by done. intros E. rewrite cut_line_next in Ec. pose proof (next_line_len _ _ _ Ec).
    destruct (IH (length rest1) ltac:(lia) _ rest1 eq_refl E) as (v&Hv&Hr). exists v. split; [|done].
    eapply headers_field; [by rewrite cut_line_next|done|done].
  - pose proof El as El'. rewrite cut_find in El'. destruct (find_idx 58 line =? zlen line); [|done]. cbn [mbind outcome_bind].
    intros [= <- <- <-]. eexists. split; [by eapply headers_end|done].
Qed.
Lemma parse_bytes_reads time x c ok x' rest :
  fresh x -> parse_bytes time x c = Ok (Some (ok, x', rest)) -> exists v, reads time x c v /\ result_of c v ok x' rest.
Proof.
  intros ([Hst|Hst]&Hm); destruct x as [st r]; cbn [state_ request_] in *; subst st.
  2: { intros E. destruct (parse_bytes_headers _ _ _ _ _ _ E) as (v&?&?). exists v. split; [by constructor|auto]. }
  rewrite parse_bytes_unfold. unfold spec_iter. rewrite <-cut_line_next. cbn [state_ request_].
  destruct (cut_line c) as [[line rest1]|] eqn:Ec; cbn [mbind outcome_bind].
  2: { intros [= <- <- <-]. eexists. split; [by apply reads_wait|done]. }
  rewrite decide_True by done. destruct (processRequestLine_reads time line r (Hm eq_refl)) as (r1&Hr1).
  destruct (read_request_line time line r) as [m|r'] eqn:El; destruct Hr1 as [-> Hr1]; cbn [mbind outcome_bind].
  - intros [= <- <- <-]. eexists. split; [by eapply reads_reject|done].
  - rewrite Hr1. intros E. destruct (parse_bytes_headers _ _ _ _ _ _ E) as (v&?&?). exists v. split; [by eapply reads_line|auto].
Qed.

(** [while (hasMore)] with a state that no branch leaves. *)
Lemma parse_loop_stuck fuel time buf x :
  state_ x = kGotAll \/ state_ x = kExpectBody -> parseRequest fuel buf time x = Ok None.
Proof.
  intros Hx. unfold parseRequest. generalize true as ok. induction fuel as [|fuel IH]; intros ok; [done|]. cbn [parse_loop].
  unfold parse_iter. destruct Hx as [E|E]; rewrite E; cbn [mbind outcome_bind]; apply IH.
Qed.
Lemma parse_again_fails fuel time buf x line rest :
  Buffer.wf buf -> state_ x = kExpectRequestLine -> HttpRequest.method_ (request_ x) <> HttpRequest.kInvalid ->
  cut_line (Buffer.content buf) = Some (line, rest) -> 32 ∈ line ->
  parseRequest (S fuel) buf time x = Err (AssertFail "method_ == kInvalid").
Proof.
  intros Hb Hst Hm Hc Hsp. unfold parseRequest. cbn [parse_loop]. pose proof (parse_iter_spec time buf x Hb (or_introl Hst)) as Hi.
  unfold spec_iter in Hi. rewrite <-cut_line_next, Hc, decide_True in Hi by done.
  assert (processRequestLine line (request_ x) = Err (AssertFail "method_ == kInvalid")) as Ep.
  { unfold processRequestLine, HttpRequest.setMethod. rewrite (bool_decide_eq_false_2 (HttpRequest.method_ (request_ x) = _)) by done.
    destruct (Z.eqb_spec (find_idx 32 line) (zlen line)) as [E|]; [|done]. exfalso.
    pose proof (find_idx_prefix 32 line) as Hp. rewrite E, ztake_all in Hp by done.
    by apply (proj1 (Forall_forall _ _) Hp 32). }
  rewrite Ep in Hi. cbn [mbind outcome_bind] in Hi. by rewrite Hi.
Qed.

(** * Properties *)

(** C33: [parseRequest] in every context, on a well-formed buffer.  In one that
    waits for headers, or for a request line with no method recognised yet
    ([fresh]: what the constructor, [reset()] and an incomplete parse leave), it
    terminates within one iteration per readable byte and one more, no check of
    [Buffer] or [HttpRequest] fails, and its verdict, the context and the bytes it
    leaves unread are what the format of requests says of the readable bytes:
    an incomplete request, a complete one, or a first line that is no request
    line, which stays unread while its method stays in the context.  (As in the
    code, the first line without a colon ends the headers, empty or not.)  In the
    other contexts it does not: in [kGotAll] and [kExpectBody] it never returns, and
    with a method recognised in a rejected line, the next line with a space fails
    the assertion of [setMethod]. *)
Theorem parseRequest_terminates_and_refines time buf x :
  Buffer.wf buf ->
  (fresh x -> forall fuel, (length (Buffer.content buf) < fuel)%nat ->
    exists ok buf' x' v, parseRequest fuel buf time x = Ok (Some (ok, buf', x')) /\ Buffer.wf buf' /\
      reads time x (Buffer.content buf) v /\ (forall v', reads time x (Buffer.content buf) v' -> v' = v) /\
      result_of (Buffer.content buf) v ok x' (Buffer.content buf')) /\
  (state_ x = kGotAll \/ state_ x = kExpectBody -> forall fuel, parseRequest fuel buf time x = Ok None) /\
  (state_ x = kExpectRequestLine -> HttpRequest.method_ (request_ x) <> HttpRequest.kInvalid ->
    forall line rest, cut_line (Buffer.content buf) = Some (line, rest) -> 32 ∈ line ->
    forall fuel, parseRequest (S fuel) buf time x = Err (AssertFail "method_ == kInvalid")).
Proof.
  intros Hb. split; [|split].
  - intros Hx fuel Hf. destruct (parseRequest_runs fuel time buf x Hb Hx Hf) as (ok&buf'&x'&E&Hb'&Hp&_).
    destruct (parse_bytes_reads _ _ _ _ _ _ Hx Hp) as (v&Hv&Hr). exists ok, buf', x', v. split_and!; try done.
    intros v' Hv'. by eapply reads_det.
  - intros Hx fuel. by apply parse_loop_stuck.
  - intros Hst Hm line rest Hc Hsp fuel. by eapply parse_again_fails.
Qed.

(** C34: parsing does not depend on how the request was cut into segments.  When
    the first segment leaves the request incomplete, parsing the unread bytes
    followed by the second segment gives the verdict, the context and the
    unread bytes that parsing both segments at once gives. *)
Theorem parseRequest_incremental time x b1 b1' x1 fuel1 d b2 b12 :
  fresh x -> Buffer.wf b1 -> (length (Buffer.content b1) < fuel1)%nat ->
  parseRequest fuel1 b1 time x = Ok (Some (true, b1', x1)) -> gotAll x1 = false ->
  Buffer.wf b2 -> Buffer.content b2 = Buffer.content b1' ++ d ->
  Buffer.wf b12 -> Buffer.content b12 = Buffer.content b1 ++ d ->
  forall fuel, (length (Buffer.content b12) < fuel)%nat -> (length (Buffer.content b2) < fuel)%nat ->
  exists ok x' r2 r12,
    parseRequest fuel b2 time x1 = Ok (Some (ok, r2, x')) /\
    parseRequest fuel b12 time x = Ok (Some (ok, r12, x')) /\ Buffer.content r2 = Buffer.content r12.
Proof.
  intros Hx Hb1 Hf1 E1 Hg Hb2 Hc2 Hb12 Hc12 fuel Hfuel Hfuel2. apply bool_decide_eq_false in Hg.
  destruct (parseRequest_runs fuel1 time b1 x) as (?&?&?&E&_&Hp1&Hx1); [done..|].
  rewrite E1 in E. injection E as <- <- <-. specialize (Hx1 eq_refl Hg).
  destruct (parseRequest_runs fuel time b2 x1) as (ok&r2&x'&E2&_&Hp2&_); [done..|].
  destruct (parseRequest_runs fuel time b12 x) as (ok'&r12&x''&E12&_&Hp12&_); [done..|].
  rewrite Hc12, (parse_bytes_app _ _ _ _ _ _ Hp1), <- Hc2, Hp2 in Hp12; [|apply Hx|done].
  injection Hp12 as <- <- Hr. by exists ok, x', r2, r12.
Qed.

(** C35: a request printed with any method but the invalid one, HTTP/1.0 or 1.1,
    a path, an optional query and trimmed header values is parsed back to
    exactly that request, and the bytes after it stay in the buffer. *)
Theorem parseRequest_round_trip time m path query v hs rest buf fuel :
  m <> HttpRequest.kInvalid -> v <> HttpRequest.kUnknown -> path_ok path -> query_ok query ->
  Forall header_ok hs -> Buffer.wf buf -> Buffer.content buf = request_text m path query v hs ++ rest ->
  (length (Buffer.content buf) < fuel)%nat ->
  exists buf', parseRequest fuel buf time new_ =
    Ok (Some (true, buf', mk kGotAll (HttpRequest.mk m v path query time (add_headers ∅ hs)))) /\
    Buffer.content buf' = rest.
Proof.
  intros Hm Hv Hp Hq Hhs Hb Hc Hf.
  destruct (parseRequest_runs fuel time buf new_ Hb new_fresh Hf) as (ok&buf'&x'&E&_&Hpb&_).
  rewrite Hc, parse_printed in Hpb by done. injection Hpb as <- <- Hr. by exists buf'.
Qed.

(** A request line that names a known method but is otherwise rejected
    leaves the method in the context, and the line in the buffer.  Parsing
    again with that context, as the next message on the connection does, runs
    into [assert(method_ == kInvalid)]. *)
Theorem rejected_line_breaks_next_parse time buf buf' x' fuel :
  Buffer.wf buf -> (length (Buffer.content buf) < fuel)%nat ->
  parseRequest fuel buf time new_ = Ok (Some (false, buf', x')) ->
  HttpRequest.method_ (request_ x') <> HttpRequest.kInvalid ->
  forall buf2 d time2 fuel2,
    Buffer.wf buf2 -> Buffer.content buf2 = Buffer.content buf' ++ d ->
    parseRequest (S fuel2) buf2 time2 x' = Err (AssertFail "method_ == kInvalid").
Proof.
  intros Hb Hf E Hm buf2 d time2 fuel2 Hb2 Hc2.
  destruct (parseRequest_runs fuel time buf new_ Hb new_fresh Hf) as (?&?&?&E'&_&Hpb&_).
  rewrite E in E'. injection E' as <- <- <-.
  rewrite parse_bytes_unfold in Hpb. unfold spec_iter in Hpb.
  destruct (next_line (Buffer.content buf)) as [[line rest]|] eqn:En; [|done].
  rewrite decide_True in Hpb by done.
  destruct (processRequestLine line (request_ new_)) as [[ok r]|] eqn:Ep; [|done].
  destruct ok; cbn [mbind outcome_bind] in Hpb.
  { destruct (parse_bytes_never_false time (mk kExpectHeaders (HttpRequest.setReceiveTime time r)) rest) as (y&c&Ey);
      [done|]. by rewrite Ey in Hpb. }
  injection Hpb as <- Hc. cbn [request_] in Hm.
  assert (parsing (mk (state_ new_) r)) as Hpars by by left.
  pose proof (parse_iter_spec time2 buf2 (mk (state_ new_) r) Hb2 Hpars) as Hi.
  unfold spec_iter in Hi. rewrite Hc2, <- Hc, (next_line_app _ _ _ _ En), decide_True in Hi by done.
  cbn [request_] in Hi. rewrite (processRequestLine_again line _ r Ep eq_refl Hm) in Hi. cbn [mbind outcome_bind] in Hi.
  unfold parseRequest. cbn [parse_loop]. change kExpectRequestLine with (state_ new_). by rewrite Hi.
Qed.

(** * Witnesses *)

(** A buffer that holds [c]. *)
Definition received (c : bytes) : Buffer.t := Buffer.mk (replicate 8 0 ++ c) 8 (8 + zlen c).
Definition example_text : bytes :=
  request_text HttpRequest.kGet (lit "/a") (lit "?b=1") HttpRequest.kHttp11 [(lit "Host", lit "x y")].
Definition bad_line : bytes := lit "GET / HTTP/2.0" ++ Buffer.kCRLF.

Ltac received_wf := vm_compute; repeat split; discriminate.

Lemma parseRequest_terminates_and_refines_witness :
  exists buf' v, parseRequest 100 (received example_text) 5 new_ = Ok (Some (true, buf',
      mk kGotAll (HttpRequest.mk HttpRequest.kGet HttpRequest.kHttp11 (lit "/a") (lit "?b=1") 5 {[lit "Host" := lit "x y"]}))) /\
    reads 5 new_ (Buffer.content (received example_text)) v.
Proof.
  destruct (parseRequest_terminates_and_refines 5 (received example_text) new_) as (H&_&_); [received_wf|].
  destruct (H new_fresh 100%nat) as (ok&buf'&x'&v&E&_&Hv&_); [vm_compute; lia|].
  exists buf', v. split; [|exact Hv]. vm_compute in E. injection E as <- <- <-. vm_compute. reflexivity.
Defined.

(** "GET /a?b=1 HT" and then "TP/1.1" and the header. *)
Lemma parseRequest_incremental_witness :
  exists ok x' r2 r12,
    parseRequest 100 (received example_text) 5 new_ = Ok (Some (ok, r2, x')) /\
    parseRequest 100 (received example_text) 5 new_ = Ok (Some (ok, r12, x')) /\
    Buffer.content r2 = Buffer.content r12.
Proof.
  apply (parseRequest_incremental 5 new_ (received (ztake 13 example_text)) (received (ztake 13 example_text))
    new_ 100 (zdrop 13 example_text)).
  - apply new_fresh.
  - received_wf.
  - vm_compute. lia.
  - vm_compute. reflexivity.
  - reflexivity.
  - received_wf.
  - vm_compute. reflexivity.
  - received_wf.
  - vm_compute. reflexivity.
  - vm_compute. lia.
  - vm_compute. lia.
Defined.

Lemma parseRequest_round_trip_witness :
  exists buf', parseRequest 100 (received (example_text ++ lit "next")) 5 new_ =
    Ok (Some (true, buf', mk kGotAll (HttpRequest.mk HttpRequest.kGet HttpRequest.kHttp11 (lit "/a") (lit "?b=1") 5
      (add_headers ∅ [(lit "Host", lit "x y")])))) /\ Buffer.content buf' = lit "next".
Proof.
  apply (parseRequest_round_trip 5 HttpRequest.kGet (lit "/a") (lit "?b=1") HttpRequest.kHttp11
    [(lit "Host", lit "x y")] (lit "next")).
  - done.
  - done.
  - split_and!; repeat constructor; done.
  - split_and!; [right; by eexists| |]; repeat constructor; done.
  - constructor; [|constructor]. split_and!; [by repeat constructor| by repeat constructor| |by repeat constructor].
    split; [by intros ? ? [= <- <-]|]. intros c s' E. apply (f_equal last) in E. rewrite last_snoc in E.
    by injection E as <-.
  - received_wf.
  - vm_compute. reflexivity.
  - vm_compute. lia.
Defined.

Lemma rejected_line_breaks_next_parse_witness :
  parseRequest 9 (received (bad_line ++ lit "x")) 6
    (mk kExpectRequestLine (HttpRequest.mk HttpRequest.kGet HttpRequest.kUnknown (lit "/") [] 0 ∅)) =
  Err (AssertFail "method_ == kInvalid").
Proof.
  apply (rejected_line_breaks_next_parse 5 (received bad_line) (received bad_line) _ 100) with (d := lit "x").
  - received_wf.
  - vm_compute. lia.
  - vm_compute. reflexivity.
  - done.
  - received_wf.
  - vm_compute. reflexivity.
Defined.

End HttpContext.
