(* ===== verification/NetHttpResponse.v ===== *)
(** src/muduo/net/http/HttpResponse.h and HttpResponse.cc: a response and its
    text on the wire.

    [headers_] is a [std::map], kept as an association list in key order.  The
    file proves that a client that reads lines up to the empty one and then
    [Content-Length] bytes recovers the response. *)

From S2P Require Import Prelude BaseTimestamp Endian BaseStringPiece NetBuffer NetHttpRequest NetHttpContext.

Module HttpResponse.

Inductive HttpStatusCode := kUnknown | k200Ok | k301MovedPermanently | k400BadRequest | k404NotFound.
Definition code_value (c : HttpStatusCode) : Z :=
  match c with
  | kUnknown => 0
  | k200Ok => 200
  | k301MovedPermanently => 301
  | k400BadRequest => 400
  | k404NotFound => 404
  end.

Record t := mk {
  headers_ : list (bytes * bytes);
  statusCode_ : HttpStatusCode;
  statusMessage_ : bytes;
  closeConnection_ : bool;
  body_ : bytes
}.

Definition new_ (close : bool) : t := mk [] kUnknown [] close [].
Definition setStatusCode (code : HttpStatusCode) (r : t) : t :=
  mk (headers_ r) code (statusMessage_ r) (closeConnection_ r) (body_ r).
Definition setStatusMessage (message : bytes) (r : t) : t :=
  mk (headers_ r) (statusCode_ r) message (closeConnection_ r) (body_ r).
Definition setCloseConnection (on : bool) (r : t) : t :=
  mk (headers_ r) (statusCode_ r) (statusMessage_ r) on (body_ r).
Definition closeConnection (r : t) : bool := closeConnection_ r.
Definition setBody (body : bytes) (r : t) : t :=
  mk (headers_ r) (statusCode_ r) (statusMessage_ r) (closeConnection_ r) body.

(** [headers_[key] = value] on the ordered map. *)
Fixpoint map_set (key value : bytes) (l : list (bytes * bytes)) : list (bytes * bytes) :=
  match l with
  | [] => [(key, value)]
  | (k, v) :: l' =>
      let c := StringPiece.lex key k in
      if c <? 0 then (key, value) :: l
      else if c =? 0 then (k, value) :: l'
      else (k, v) :: map_set key value l'
  end.
Definition addHeader (key value : bytes) (r : t) : t :=
  mk (map_set key value (headers_ r)) (statusCode_ r) (statusMessage_ r) (closeConnection_ r) (body_ r).
Definition setContentType (contentType : bytes) (r : t) : t := addHeader (lit "Content-Type") contentType r.

(** [output->append(const char* )]: up to the NUL. *)
Definition append_cstr (s : bytes) (b : Buffer.t) : outcome Buffer.t :=
  Buffer.append_piece (StringPiece.of_cstr (s ++ [0])) b.

Definition append_header (header : bytes * bytes) (output : Buffer.t) : outcome Buffer.t :=
  output ← Buffer.append_string (fst header) output;
  output ← append_cstr (lit ": ") output;
  output ← Buffer.append_string (snd header) output;
  append_cstr Buffer.kCRLF output.

Definition appendToBuffer (r : t) (output : Buffer.t) : outcome Buffer.t :=
  output ← append_cstr (snprintf 32 (lit "HTTP/1.1 " ++ fmt_d (code_value (statusCode_ r)) ++ lit " ")) output;
  output ← Buffer.append_string (statusMessage_ r) output;
  output ← append_cstr Buffer.kCRLF output;
  output ← (if closeConnection_ r
            then append_cstr (lit "Connection: close" ++ Buffer.kCRLF) output
            else
              output ← append_cstr (snprintf 32 (lit "Content-Length: " ++ fmt_d (i64 (zlen (body_ r))) ++ Buffer.kCRLF)) output;
              append_cstr (lit "Connection: Keep-Alive" ++ Buffer.kCRLF) output);
  output ← foldM (fun output header => append_header header output) output (headers_ r);
  output ← append_cstr Buffer.kCRLF output;
  Buffer.append_string (body_ r) output.

(** * A client *)

(** The lines up to the empty one, and what follows it. *)
Fixpoint read_lines (fuel : nat) (c : bytes) : option (list bytes * bytes) :=
  match fuel with
  | O => None
  | S fuel' =>
      '(line, rest) ← HttpContext.next_line c;
      match line with
      | [] => Some ([], rest)
      | _ => '(lines, rest) ← read_lines fuel' rest; Some (line :: lines, rest)
      end
  end.
Definition split_header (line : bytes) : bytes * bytes :=
  let i := find_idx 58 line in (ztake i line, zdrop (i + 2) line).
Definition find_header (key : bytes) (hs : list (bytes * bytes)) : option bytes :=
  snd <$> head (filter (fun h => fst h = key) hs).
(** Status line, headers, body and the bytes after the response; a body
    without a length extends to the end of the stream. *)
Definition read_response (c : bytes) : option (bytes * list (bytes * bytes) * bytes * bytes) :=
  '(lines, rest) ← read_lines (S (length c)) c;
  match lines with
  | [] => None
  | status :: lines =>
      let hs := split_header <$> lines in
      Some (match find_header (lit "Content-Length") hs with
            | Some v => (status, hs, ztake (dec_val 0 v) rest, zdrop (dec_val 0 v) rest)
            | None => (status, hs, rest, [])
            end)
  end.

(** Text that fits on a line; header names have no colon and do not repeat
    the length the server adds. *)
Definition line_ok (s : bytes) : Prop := HttpContext.without 13 s /\ zlen s < 2 ^ 31.
Definition header_ok (h : bytes * bytes) : Prop :=
  line_ok (fst h) /\ line_ok (snd h) /\ HttpContext.without 58 (fst h) /\ fst h <> lit "Content-Length".
Definition response_ok (r : t) : Prop :=
  line_ok (statusMessage_ r) /\ Forall header_ok (headers_ r) /\ zlen (body_ r) < 2 ^ 31.

Definition status_line (r : t) : bytes :=
  (lit "HTTP/1.1 " ++ fmt_d (code_value (statusCode_ r)) ++ lit " ") ++ statusMessage_ r.
Definition server_headers (r : t) : list (bytes * bytes) :=
  if closeConnection_ r then [(lit "Connection", lit "close")]
  else [(lit "Content-Length", fmt_d (zlen (body_ r))); (lit "Connection", lit "Keep-Alive")].

(** The text of a response. *)
Definition header_lines (hs : list (bytes * bytes)) : list bytes := HttpContext.header_line <$> hs.
Definition lines_text (ls : list bytes) : bytes := foldr (fun l r => l ++ Buffer.kCRLF ++ r) [] ls.
Definition response_text (r : t) : bytes :=
  lines_text (status_line r :: header_lines (server_headers r ++ headers_ r)) ++ Buffer.kCRLF ++ body_ r.

(** * Lemmas *)

(** [f] appends [s] to any buffer, unless it would grow past the largest
    vector. *)
Definition puts (f : Buffer.t -> outcome Buffer.t) (s : bytes) : Prop :=
  forall b, Buffer.wf b -> ok_or_throw (f b) (fun b' => Buffer.wf b' /\ Buffer.content b' = Buffer.content b ++ s).

Lemma puts_bind f g s u : puts f s -> puts g u -> puts (fun b => f b ≫= g) (s ++ u).
Proof.
  intros Hf Hg b Hb. apply ok_or_throw_bind. apply (ok_or_throw_mono _ _ _ (Hf b Hb)).
  intros b1 (Hb1&Hc1). apply (ok_or_throw_mono _ _ _ (Hg b1 Hb1)). intros b2 (?&Hc2).
  split; [done|]. by rewrite Hc2, Hc1, app_assoc.
Qed.

Lemma puts_piece p s : StringPiece.valid p -> StringPiece.text p = s -> puts (Buffer.append_piece p) s.
Proof.
  intros Hv <- b Hb. unfold Buffer.append_piece, StringPiece.text, StringPiece.data, StringPiece.size.
  destruct Hv as (Hl&Hm). unfold u64. rewrite uwrap_small by (lia || unfold urange; lia).
  destruct (Buffer.append_or_throw (StringPiece.ptr_ p) (StringPiece.length_ p) b Hb Hl)
    as [(b'&->&?&?)| ->]; [lia|done|done].
Qed.

Lemma puts_string s : zlen s < 2 ^ 31 -> puts (Buffer.append_string s) s.
Proof.
  intros Hs. unfold Buffer.append_string. pose proof (zlen_nonneg s).
  assert (i32 (zlen s) = zlen s) as E by (apply swrap_small; [lia|unfold srange; lia]).
  apply puts_piece.
  - unfold StringPiece.valid. cbn. rewrite E. lia.
  - unfold StringPiece.text. cbn. rewrite E. by apply ztake_all.
Qed.

Lemma puts_cstr s : Forall (fun c => c <> 0) s -> zlen s < 2 ^ 31 -> puts (append_cstr s) s.
Proof.
  intros Hn Hs. unfold append_cstr. pose proof (zlen_nonneg s).
  assert (i32 (StringPiece.strlen (s ++ [0])) = zlen s) as E.
  { unfold StringPiece.strlen. rewrite find_idx_first by done. apply swrap_small; [lia|unfold srange; lia]. }
  apply puts_piece.
  - unfold StringPiece.valid. cbn. rewrite E. zlia.
  - unfold StringPiece.text. cbn. rewrite E. by apply ztake_app_exact.
Qed.

Lemma puts_header h : header_ok h -> puts (append_header h) (HttpContext.header_line h ++ Buffer.kCRLF).
Proof.
  intros ((_&H1)&(_&H2)&_). unfold append_header, HttpContext.header_line.
  replace ((fst h ++ 58 :: [32] ++ snd h) ++ Buffer.kCRLF) with (fst h ++ lit ": " ++ snd h ++ Buffer.kCRLF)
    by by rewrite <- !app_assoc.
  apply puts_bind; [by apply puts_string|]. apply puts_bind; [by apply puts_cstr; [repeat constructor|]|].
  apply puts_bind; [by apply puts_string|]. by apply puts_cstr; [repeat constructor|].
Qed.

Lemma puts_headers hs : Forall header_ok hs ->
  puts (fun b => foldM (fun output header => append_header header output) b hs) (lines_text (header_lines hs)).
Proof.
  induction 1 as [|h hs Hh _ IH].
  - intros b Hb. cbn. by rewrite app_nil_r.
  - change (lines_text (header_lines (h :: hs)))
      with (HttpContext.header_line h ++ Buffer.kCRLF ++ lines_text (header_lines hs)).
    rewrite app_assoc. by apply puts_bind; [apply puts_header|].
Qed.

Lemma code_length c : zlen (fmt_d (code_value c)) <= 3.
Proof. by destruct c. Qed.

Lemma text_no_nul x : 0 <= x -> Forall (fun c => c <> 0) (fmt_d x).
Proof. intros Hx. eapply Forall_impl; [by apply fmt_d_digits|]. cbn. lia. Qed.

Lemma lines_text_app l1 l2 : lines_text (l1 ++ l2) = lines_text l1 ++ lines_text l2.
Proof.
  unfold lines_text. rewrite foldr_app. induction l1 as [|l l1 IH]; cbn [foldr]; [done|].
  by rewrite IH, <- !app_assoc.
Qed.

(** The part that tells the client how the response ends. *)
Lemma puts_server_headers r : zlen (body_ r) < 2 ^ 31 ->
  puts (fun output => if closeConnection_ r
            then append_cstr (lit "Connection: close" ++ Buffer.kCRLF) output
            else
              output ← append_cstr (snprintf 32 (lit "Content-Length: " ++ fmt_d (i64 (zlen (body_ r))) ++ Buffer.kCRLF)) output;
              append_cstr (lit "Connection: Keep-Alive" ++ Buffer.kCRLF) output)
    (lines_text (header_lines (server_headers r))).
Proof.
  intros Hb. pose proof (zlen_nonneg (body_ r)).
  assert (zlen (fmt_d (zlen (body_ r))) <= 10) by (apply (fmt_d_length 10); lia).
  unfold server_headers. destruct (closeConnection_ r).
  { by apply puts_cstr; [repeat constructor|]. }
  assert (i64 (zlen (body_ r)) = zlen (body_ r)) as -> by (apply swrap_small; [lia|unfold srange; lia]).
  unfold snprintf. rewrite ztake_all by (unfold Buffer.kCRLF; cbn [lit]; zlia).
  set (n := fmt_d (zlen (body_ r))) in *.
  replace (lines_text _) with ((lit "Content-Length: " ++ n ++ Buffer.kCRLF) ++ lit "Connection: Keep-Alive" ++ Buffer.kCRLF)
    by (cbn; by rewrite <- app_assoc).
  apply puts_bind; apply puts_cstr.
  - repeat first [apply Forall_app; split|done|by apply text_no_nul|by repeat constructor].
  - unfold Buffer.kCRLF. cbn [lit]. zlia.
  - by repeat constructor.
  - done.
Qed.

Lemma response_text_parts r :
  response_text r =
  (lit "HTTP/1.1 " ++ fmt_d (code_value (statusCode_ r)) ++ lit " ") ++ statusMessage_ r ++ Buffer.kCRLF ++
  lines_text (header_lines (server_headers r)) ++ lines_text (header_lines (headers_ r)) ++ Buffer.kCRLF ++ body_ r.
Proof.
  unfold response_text, header_lines. rewrite fmap_app.
  change (lines_text (status_line r :: ?l)) with (status_line r ++ Buffer.kCRLF ++ lines_text l).
  rewrite lines_text_app. unfold status_line. by rewrite <- !app_assoc.
Qed.

Lemma appendToBuffer_text r : response_ok r -> puts (appendToBuffer r) (response_text r).
Proof.
  intros ((_&Hm)&Hhs&Hb). pose proof (code_length (statusCode_ r)) as Hcode.
  rewrite response_text_parts. unfold appendToBuffer.
  assert (snprintf 32 (lit "HTTP/1.1 " ++ fmt_d (code_value (statusCode_ r)) ++ lit " ") =
    lit "HTTP/1.1 " ++ fmt_d (code_value (statusCode_ r)) ++ lit " ") as ->
    by (apply ztake_all; cbn [lit]; zlia).
  apply puts_bind; [apply puts_cstr|].
  { repeat first [apply Forall_app; split|by apply text_no_nul; destruct (statusCode_ r)|by repeat constructor]. }
  { cbn [lit]. zlia. }
  apply puts_bind; [by apply puts_string|].
  apply puts_bind; [by apply puts_cstr; [repeat constructor|]|].
  apply puts_bind; [by apply (puts_server_headers r)|].
  apply puts_bind; [by apply (puts_headers (headers_ r))|].
  apply puts_bind; [by apply puts_cstr; [repeat constructor|]|by apply puts_string].
Qed.

Lemma read_lines_text ls rest fuel :
  Forall (HttpContext.without 13) ls -> Forall (fun l => l <> []) ls ->
  (length ls < fuel)%nat ->
  read_lines fuel (lines_text ls ++ Buffer.kCRLF ++ rest) = Some (ls, rest).
Proof.
  intros Hc Hne. revert fuel. induction ls as [|l ls IH]; intros [|fuel] Hf; try lia; cbn [read_lines].
  - change (lines_text [] ++ Buffer.kCRLF ++ rest) with ([] ++ Buffer.kCRLF ++ rest).
    by rewrite HttpContext.next_line_printed by constructor.
  - apply Forall_cons in Hc as [Hl Hc]. apply Forall_cons in Hne as [Hln Hne].
    change (lines_text (l :: ls)) with (l ++ Buffer.kCRLF ++ lines_text ls). rewrite <- !app_assoc.
    rewrite HttpContext.next_line_printed by done. cbn [mbind option_bind]. destruct l as [|x l]; [done|].
    rewrite IH; [done..|]. cbn in Hf. lia.
Qed.

Lemma split_header_line h : HttpContext.without 58 (fst h) -> split_header (HttpContext.header_line h) = h.
Proof.
  intros Hf. unfold split_header, HttpContext.header_line. rewrite find_idx_first by done.
  rewrite ztake_app_exact by done. destruct h as [k v]. cbn [fst snd] in *. f_equal.
  change (58 :: [32] ++ v) with ([58; 32] ++ v). rewrite app_assoc. apply zdrop_app_exact. zlia.
Qed.

Lemma split_header_lines hs : Forall (fun h => HttpContext.without 58 (fst h)) hs ->
  split_header <$> header_lines hs = hs.
Proof.
  induction 1 as [|h hs Hh _ IH]; [done|].
  unfold header_lines in *. rewrite !fmap_cons, IH. by rewrite split_header_line.
Qed.

Lemma digits_line x : 0 <= x -> HttpContext.without 13 (fmt_d x).
Proof. intros Hx. eapply Forall_impl; [by apply fmt_d_digits|]. cbn. lia. Qed.

Lemma response_lines_clean r : response_ok r ->
  Forall (HttpContext.without 13) (status_line r :: header_lines (server_headers r ++ headers_ r)).
Proof.
  intros ((Hm&_)&Hhs&_). constructor.
  - unfold status_line. repeat (apply Forall_app; split); try done; [by repeat constructor| |by repeat constructor].
    apply digits_line. by destruct (statusCode_ r).
  - unfold header_lines. rewrite fmap_app. apply Forall_app. split.
    + unfold server_headers. destruct (closeConnection_ r); cbn; [by repeat constructor|].
      constructor; [|by repeat constructor]. unfold HttpContext.header_line. cbn [fst snd].
      do 16 (constructor; [done|]). apply digits_line. apply zlen_nonneg.
    + apply Forall_fmap. eapply Forall_impl; [done|]. intros h ((H1&_)&(H2&_)&_). cbn.
      unfold HttpContext.header_line. apply Forall_app. split; [done|]. by repeat constructor.
Qed.

Lemma find_header_none hs : Forall header_ok hs -> find_header (lit "Content-Length") hs = None.
Proof.
  intros Hhs. unfold find_header. rewrite filter_none; [done|].
  eapply Forall_impl; [done|]. by intros h (_&_&_&?).
Qed.

Lemma read_response_text r rest : response_ok r ->
  read_response (response_text r ++ rest) =
  Some (if closeConnection_ r then (status_line r, server_headers r ++ headers_ r, body_ r ++ rest, [])
        else (status_line r, server_headers r ++ headers_ r, body_ r, rest)).
Proof.
  intros Hr. unfold read_response. unfold response_text at 2. rewrite <- !app_assoc.
  rewrite read_lines_text.
  - cbn [mbind option_bind]. rewrite split_header_lines.
    + unfold server_headers. destruct (closeConnection_ r).
      * change (find_header ?k ([?h] ++ ?hs)) with (find_header k hs). by rewrite find_header_none by apply Hr.
      * change (find_header _ _) with (Some (fmt_d (zlen (body_ r)))). cbn iota beta.
        rewrite fmt_d_val by apply zlen_nonneg. by rewrite ztake_app_exact, zdrop_app_exact by done.
    + apply Forall_app. split.
      * unfold server_headers. destruct (closeConnection_ r); by repeat constructor.
      * eapply Forall_impl; [apply Hr|]. by intros h (_&_&?&_).
  - by apply response_lines_clean.
  - constructor; [by unfold status_line|]. apply Forall_fmap, Forall_forall. intros h _ E. cbn in E.
    unfold HttpContext.header_line in E. by destruct (fst h).
  - unfold response_text. set (ls := status_line r :: _).
    assert (length ls <= length (lines_text ls))%nat; [|rewrite !length_app; unfold Buffer.kCRLF; cbn [length]; lia].
    clearbody ls. induction ls as [|l ls IH]; [done|].
    change (lines_text (l :: ls)) with (l ++ Buffer.kCRLF ++ lines_text ls). rewrite !length_app.
    unfold Buffer.kCRLF. cbn [length]. lia.
Qed.

(** * Properties *)

(** C36: a client can read the response.  [appendToBuffer] appends to any
    well-formed buffer a text from which a client that splits lines recovers
    the status line, [Connection] and every header that was set, and the body:
    with keep-alive, exactly [Content-Length] bytes, so that the bytes of the
    next response stay apart; on a connection to be closed, everything up to
    the end of the stream. *)
Theorem response_is_readable r b :
  response_ok r -> Buffer.wf b ->
  ok_or_throw (appendToBuffer r b) (fun b' => Buffer.wf b' /\
    exists text, Buffer.content b' = Buffer.content b ++ text /\
    forall rest, read_response (text ++ rest) =
      Some (if closeConnection_ r then (status_line r, server_headers r ++ headers_ r, body_ r ++ rest, [])
            else (status_line r, server_headers r ++ headers_ r, body_ r, rest))).
Proof.
  intros Hr Hb. apply (ok_or_throw_mono _ _ _ (appendToBuffer_text r Hr b Hb)). intros b' (?&Hc).
  split; [done|]. exists (response_text r). split; [done|]. intros rest. by apply read_response_text.
Qed.

Definition example_response : t :=
  setBody (lit "hi") (setContentType (lit "text/plain") (addHeader (lit "Server") (lit "Muduo")
    (setStatusMessage (lit "OK") (setStatusCode k200Ok (new_ false))))).

Lemma response_is_readable_witness :
  ok_or_throw (appendToBuffer example_response (HttpContext.received [])) (fun b' => Buffer.wf b' /\
    exists text, Buffer.content b' = [] ++ text /\
    forall rest, read_response (text ++ rest) =
      Some (lit "HTTP/1.1 200 OK",
            [(lit "Content-Length", lit "2"); (lit "Connection", lit "Keep-Alive");
             (lit "Content-Type", lit "text/plain"); (lit "Server", lit "Muduo")], lit "hi", rest)).
Proof.
  apply (response_is_readable example_response (HttpContext.received [])).
  - split_and!; try done; [repeat constructor; done|]. repeat constructor; done.
  - vm_compute. repeat split; discriminate.
Defined.

End HttpResponse.
