(* ===== verification/NetHttpServer.v ===== *)
(** src/muduo/net/http/HttpServer.cc: the callbacks an HTTP server installs on
    its connections.

    The state of one connection is the TcpConnection and the [boost::any]
    context the server stored in it; the user's callback is a function from
    the request and the prepared response to the response. *)

From S2P Require Import Prelude BaseTimestamp Endian BaseStringPiece NetBuffer NetChannel NetTcpConnection NetHttpRequest NetHttpContext NetHttpResponse.

Module HttpServer.

Record t := mk {
  conn : TcpConnection.t;
  context : option HttpContext.t
}.

Definition defaultHttpCallback (_ : HttpRequest.t) (resp : HttpResponse.t) : HttpResponse.t :=
  HttpResponse.setCloseConnection true
    (HttpResponse.setStatusMessage (lit "Not Found") (HttpResponse.setStatusCode HttpResponse.k404NotFound resp)).

Definition onConnection (s : t) : t :=
  if TcpConnection.connected (conn s) then mk (conn s) (Some HttpContext.new_) else s.

Definition bad_request : bytes := lit "HTTP/1.1 400 Bad Request" ++ Buffer.kCRLF ++ Buffer.kCRLF.

(** Whether the client wants the connection closed after the response. *)
Definition wants_close (req : HttpRequest.t) : bool :=
  let connection := HttpRequest.getHeader (lit "Connection") req in
  bytes_eqb connection (lit "close") ||
  (bool_decide (HttpRequest.version_ req = HttpRequest.kHttp10) && negb (bytes_eqb connection (lit "Keep-Alive"))).

Section Callbacks.
Context (httpCallback_ : HttpRequest.t -> HttpResponse.t -> HttpResponse.t).
(** The kernel's answer to the write that sends the response. *)
Context (wr : bytes -> TcpConnection.write_result).

Definition onRequest (req : HttpRequest.t) (c : TcpConnection.t) : outcome TcpConnection.t :=
  let close := wants_close req in
  let response := httpCallback_ req (HttpResponse.new_ close) in
  buf ← Buffer.new_ Buffer.kInitialSize;
  buf ← HttpResponse.appendToBuffer response buf;
  '(_, c) ← TcpConnection.sendBuffer true wr buf c;
  Ok (if HttpResponse.closeConnection response then TcpConnection.shutdown true c else c).

(** [None] when the parser is still running after [fuel] iterations. *)
Definition onMessage (fuel : nat) (receiveTime : Timestamp.t) (s : t) : outcome (option t) :=
  match context s with
  | None => Err (Undefined "context is a null pointer")
  | Some context =>
      r ← HttpContext.parseRequest fuel (TcpConnection.inputBuffer_ (conn s)) receiveTime context;
      match r with
      | None => Ok None
      | Some (ok, buf, context) =>
          let c := TcpConnection.set_input buf (conn s) in
          c ← (if (ok : bool) then Ok c
               else
                 c ← TcpConnection.send true wr (StringPiece.of_cstr (bad_request ++ [0])) c;
                 Ok (TcpConnection.shutdown true c));
          if HttpContext.gotAll context
          then
            c ← onRequest (HttpContext.request_ context) c;
            Ok (Some (mk c (Some (HttpContext.reset context))))
          else Ok (Some (mk c (Some context)))
      end
  end.
End Callbacks.

(** * Lemmas *)

(** The peer has not reset the connection. *)
Definition no_reset (wr : bytes -> TcpConnection.write_result) : Prop :=
  forall data e, wr data = TcpConnection.WriteError e -> e <> TcpConnection.EPIPE /\ e <> TcpConnection.ECONNRESET.

(** A live connection takes responsibility for the whole message. *)
Lemma sendInLoop_accepts wr data c :
  TcpConnection.inv c -> TcpConnection.state_ c = TcpConnection.kConnected -> zlen data < 2 ^ 63 ->
  TcpConnection.wr_ok wr -> no_reset wr ->
  ok_or_throw (TcpConnection.sendInLoop wr data c) (fun c' => TcpConnection.inv c' /\
    TcpConnection.accepted c' = TcpConnection.accepted c ++ data /\
    TcpConnection.state_ c' = TcpConnection.state_ c /\ TcpConnection.inputBuffer_ c' = TcpConnection.inputBuffer_ c).
Proof.
  intros Hinv Hst Hlen Hwr Hnr. assert (TcpConnection.phase_of c <> TcpConnection.Opening) as Hph.
  { by rewrite (TcpConnection.phase_connected c Hst). }
  pose proof (TcpConnection.sendInLoop_ok wr data c Hinv Hph Hlen Hwr) as Hok. revert Hok.
  unfold TcpConnection.sendInLoop. rewrite decide_False by congruence.
  destruct (TcpConnection.try_write wr data c) as [[[n remaining] fault] c1] eqn:E.
  assert (fault = false) as ->.
  { unfold TcpConnection.try_write in E. destruct (_ && _); [|by injection E as _ _ <- _].
    destruct (wr data) as [k|e] eqn:Ew; injection E as _ _ <- _; [done|].
    destruct (Hnr _ _ Ew). destruct (Z.eqb_spec e TcpConnection.EPIPE), (Z.eqb_spec e TcpConnection.ECONNRESET);
      try done. by rewrite andb_false_r. }
  apply TcpConnection.try_write_ok in E as (_&_&_&_&Hacc&_&_&_&Ein&Est&_); try done.
  2: by apply TcpConnection.phase_connected.
  destruct (massert _ _) as [[]|[]]; cbn [mbind outcome_bind]; try done. cbn [negb andb].
  destruct (0 <? remaining).
  - set (c2 := if _ && _ then _ else _).
    assert (TcpConnection.accepted c2 = TcpConnection.accepted c ++ data /\
      TcpConnection.state_ c2 = TcpConnection.state_ c /\
      TcpConnection.inputBuffer_ c2 = TcpConnection.inputBuffer_ c) as (H1&H2&H3).
    { unfold c2. destruct (_ && _); cbn; by rewrite Hacc. }
    destruct (Buffer.append _ _ _) as [out|[]]; cbn [mbind outcome_bind ok_or_throw]; try done.
    intros (Hi&_). split; [done|]. by destruct (Channel.isWriting _).
  - cbn. intros (Hi&_). split_and!; try done. by rewrite Hacc.
Qed.

(** After [shutdown]. *)
Lemma shutdown_state c :
  TcpConnection.state_ c = TcpConnection.kConnected ->
  TcpConnection.state_ (TcpConnection.shutdown true c) = TcpConnection.kDisconnecting /\
  TcpConnection.accepted (TcpConnection.shutdown true c) = TcpConnection.accepted c /\
  TcpConnection.inputBuffer_ (TcpConnection.shutdown true c) = TcpConnection.inputBuffer_ c.
Proof.
  intros Hst. unfold TcpConnection.shutdown. rewrite decide_True by done. unfold TcpConnection.shutdownInLoop.
  by destruct (Channel.isWriting _).
Qed.

Lemma onRequest_ok cb wr req c :
  let resp := cb req (HttpResponse.new_ (wants_close req)) in
  HttpResponse.response_ok resp -> TcpConnection.inv c -> TcpConnection.state_ c = TcpConnection.kConnected ->
  TcpConnection.wr_ok wr -> no_reset wr ->
  ok_or_throw (onRequest cb wr req c) (fun c' => TcpConnection.inv c' /\
    TcpConnection.accepted c' = TcpConnection.accepted c ++ HttpResponse.response_text resp /\
    TcpConnection.state_ c' = (if HttpResponse.closeConnection resp then TcpConnection.kDisconnecting else TcpConnection.kConnected) /\
    TcpConnection.inputBuffer_ c' = TcpConnection.inputBuffer_ c).
Proof.
  intros resp Hr Hinv Hst Hwr Hnr. unfold onRequest. fold resp. cbn zeta.
  destruct (Buffer.new_ok Buffer.kInitialSize) as (b0&->&Hb0&Hc0&_); [by vm_compute|by vm_compute|]. cbn [mbind outcome_bind].
  apply ok_or_throw_bind. apply (ok_or_throw_mono _ _ _ (HttpResponse.appendToBuffer_text resp Hr b0 Hb0)).
  intros b (Hb&Hc). rewrite Hc0, app_nil_l in Hc.
  unfold TcpConnection.sendBuffer. rewrite decide_True, TcpConnection.read_buffer by done. cbn [mbind outcome_bind].
  rewrite outcome_bind_assoc. apply ok_or_throw_bind.
  refine (ok_or_throw_mono _ _ _ (sendInLoop_accepts wr _ c Hinv Hst _ Hwr Hnr) _); [by apply TcpConnection.content_small|].
  rewrite Hc. intros c1 (Hi&Ha&Hs&Hin). cbn. rewrite Hst in Hs. destruct (HttpResponse.closeConnection resp); [|done].
  destruct (shutdown_state c1 Hs) as (?&Ha'&Hin'). rewrite Ha', Hin'. split; [|done].
  by apply TcpConnection.shutdown_ok.
Qed.

Lemma reply_bad_request wr c :
  TcpConnection.inv c -> TcpConnection.state_ c = TcpConnection.kConnected -> TcpConnection.wr_ok wr -> no_reset wr ->
  ok_or_throw (c ← TcpConnection.send true wr (StringPiece.of_cstr (bad_request ++ [0])) c;
               Ok (TcpConnection.shutdown true c))
    (fun c' => TcpConnection.inv c' /\ TcpConnection.accepted c' = TcpConnection.accepted c ++ bad_request /\
      TcpConnection.state_ c' = TcpConnection.kDisconnecting /\
      TcpConnection.inputBuffer_ c' = TcpConnection.inputBuffer_ c).
Proof.
  intros Hinv Hst Hwr Hnr. unfold TcpConnection.send. rewrite decide_True by done.
  replace (StringPiece.as_string _) with (Ok bad_request) by by vm_compute. cbn [mbind outcome_bind].
  apply ok_or_throw_bind.
  refine (ok_or_throw_mono _ _ _ (sendInLoop_accepts wr bad_request c Hinv Hst _ Hwr Hnr) _); [done|].
  intros c1 (Hi&Ha&Hs&Hin). rewrite Hst in Hs. destruct (shutdown_state c1 Hs) as (?&Ha'&Hin').
  cbn. rewrite Ha', Hin'. split; [|done]. by apply TcpConnection.shutdown_ok.
Qed.

(** * Properties *)

(** C32: every message is answered as HTTP asks.  On a connected connection
    whose context is between requests or inside one, [onMessage] parses the
    input buffer as the reference parser does and leaves the bytes after the
    request in it.  A complete request gets the user's response, once, and the
    context starts over; the connection is then shut down exactly when the
    response says so.  An incomplete request gets nothing.  A malformed request
    line gets "400 Bad Request" and a shutdown. *)
Theorem onMessage_answers cb wr fuel time s ctx :
  TcpConnection.inv (conn s) -> TcpConnection.state_ (conn s) = TcpConnection.kConnected ->
  context s = Some ctx -> HttpContext.fresh ctx ->
  (forall req close, HttpResponse.response_ok (cb req (HttpResponse.new_ close))) ->
  TcpConnection.wr_ok wr -> no_reset wr ->
  (length (Buffer.content (TcpConnection.inputBuffer_ (conn s))) < fuel)%nat ->
  ok_or_throw (onMessage cb wr fuel time s) (fun r => exists s' ok ctx' rest,
    r = Some s' /\ TcpConnection.inv (conn s') /\
    HttpContext.parse_bytes time ctx (Buffer.content (TcpConnection.inputBuffer_ (conn s))) = Ok (Some (ok, ctx', rest)) /\
    Buffer.content (TcpConnection.inputBuffer_ (conn s')) = rest /\
    let sent := TcpConnection.accepted (conn s) in
    if negb ok
    then TcpConnection.accepted (conn s') = sent ++ bad_request /\
         TcpConnection.state_ (conn s') = TcpConnection.kDisconnecting
    else if HttpContext.gotAll ctx'
    then let req := HttpContext.request_ ctx' in
         let resp := cb req (HttpResponse.new_ (wants_close req)) in
         TcpConnection.accepted (conn s') = sent ++ HttpResponse.response_text resp /\
         context s' = Some HttpContext.new_ /\
         TcpConnection.state_ (conn s') =
           (if HttpResponse.closeConnection resp then TcpConnection.kDisconnecting else TcpConnection.kConnected)
    else TcpConnection.accepted (conn s') = sent /\ context s' = Some ctx' /\ HttpContext.fresh ctx' /\
         TcpConnection.state_ (conn s') = TcpConnection.kConnected).
Proof.
  intros Hinv Hst Hctx Hfr Hcb Hwr Hnr Hfuel. unfold onMessage. rewrite Hctx.
  destruct (HttpContext.parseRequest_runs fuel time (TcpConnection.inputBuffer_ (conn s)) ctx)
    as (ok&b&ctx'&E&Hb&Hp&Hfr'); [apply Hinv|done|done|].
  rewrite E. cbn [mbind outcome_bind]. rewrite Hp.
  destruct (TcpConnection.inv_input (conn s) b Hinv Hb) as (Hinv1&_).
  set (c1 := TcpConnection.set_input b (conn s)) in *. destruct ok.
  - destruct (HttpContext.gotAll ctx') eqn:Hg; cbn [mbind outcome_bind].
    + apply ok_or_throw_bind.
      refine (ok_or_throw_mono _ _ _ (onRequest_ok cb wr (HttpContext.request_ ctx') c1 _ Hinv1 Hst Hwr Hnr) _); [apply Hcb|].
      intros c2 (Hi&Ha&Hs&Hin). cbn. eexists _, _, _, _. split; [done|]. split; [done|]. split; [done|].
      cbn. by rewrite Hin, Hg.
    + cbn. eexists _, _, _, _. split; [done|]. split; [done|]. split; [done|]. cbn. rewrite Hg.
      split_and!; try done. apply Hfr'; [done|]. by apply bool_decide_eq_false in Hg.
  - assert (HttpContext.state_ ctx' = HttpContext.kExpectRequestLine) as Hs0
      by (eapply HttpContext.parse_bytes_false; [apply Hfr|done]).
    apply ok_or_throw_bind. refine (ok_or_throw_mono _ _ _ (reply_bad_request wr c1 Hinv1 Hst Hwr Hnr) _).
    intros c2 (Hi&Ha&Hs&Hin). unfold HttpContext.gotAll. rewrite bool_decide_eq_false_2 by congruence.
    cbn. eexists _, _, _, _. split; [done|]. split; [done|]. split; [done|]. cbn. by rewrite Hin.
Qed.

(** An established connection that received [c]. *)
Lemma established_with c : Buffer.wf (HttpContext.received c) ->
  exists x, TcpConnection.inv x /\ TcpConnection.state_ x = TcpConnection.kConnected /\
    TcpConnection.inputBuffer_ x = HttpContext.received c /\ TcpConnection.accepted x = [].
Proof.
  intros Hc. destruct (TcpConnection.new_inv 7) as (x&_&Hi&Hp&Ha).
  eexists (TcpConnection.set_input (HttpContext.received c) _).
  split; [apply TcpConnection.inv_input; [|done]; by apply (TcpConnection.inv_established x 1)|]. done.
Qed.

Definition write_all (d : bytes) : TcpConnection.write_result := TcpConnection.Wrote (zlen d).

(** The default callback answers a keep-alive request with 404 and closes. *)
Lemma onMessage_answers_witness :
  exists x, TcpConnection.inv x /\
  ok_or_throw (onMessage defaultHttpCallback write_all 100 5 (mk x (Some HttpContext.new_))) (fun r => exists s',
    r = Some s' /\ TcpConnection.accepted (conn s') =
      lit "HTTP/1.1 404 Not Found" ++ Buffer.kCRLF ++ lit "Connection: close" ++ Buffer.kCRLF ++ Buffer.kCRLF /\
    TcpConnection.state_ (conn s') = TcpConnection.kDisconnecting).
Proof.
  destruct (established_with HttpContext.example_text) as (x&Hi&Hst&Hin&Ha).
  { vm_compute. repeat split; discriminate. }
  exists x. split; [exact Hi|].
  refine (ok_or_throw_mono _ _ _ (onMessage_answers defaultHttpCallback write_all 100 5 (mk x (Some HttpContext.new_))
    HttpContext.new_ Hi Hst eq_refl HttpContext.new_fresh _ _ _ _) _).
  - intros req close. split; [|split; [constructor|reflexivity]]. split; [by repeat constructor|reflexivity].
  - intros d n [= <-]. zlen_pose. lia.
  - intros d e [=].
  - cbn [conn]. rewrite Hin. vm_compute. lia.
  - intros r (s'&ok&ctx'&rest&->&_&Hp&_&H). exists s'. split; [done|]. cbn [conn] in Hp, H. rewrite Hin in Hp.
    vm_compute in Hp. injection Hp as <- <- <-. rewrite Ha in H. destruct H as (H1&_&H2). by rewrite H1.
Defined.

End HttpServer.
