(* ===== verification/NetProtobufCodec.v ===== *)
(** src/muduo/net/protobuf/ProtobufCodecLite.h and ProtobufCodecLite.cc: the
    length-prefixed, tagged and checksummed framing of protobuf messages.

    The protobuf library and zlib's adler32 are parameters.  [onMessage] is the
    code's loop on the input buffer, with fuel for its iterations; [decode] is
    the same format read from a byte string.  The file proves that the loop
    terminates and computes [decode], and that any sequence of encoded messages
    is delivered intact, however much of a further frame follows it. *)

From S2P Require Import Prelude BaseTimestamp Endian BaseStringPiece NetBuffer NetChannel NetTcpConnection.

Module ProtobufCodecLite.

Definition kHeaderLen : Z := 4.
Definition kChecksumLen : Z := 4.
Definition kMaxMessageLen : Z := 64 * 1024 * 1024.

Inductive ErrorCode :=
| kNoError | kInvalidLength | kCheckSumError | kInvalidNameLen | kUnknownMessageType | kParseError.
#[global] Instance ErrorCode_eq_dec : EqDecision ErrorCode.
Proof. solve_decision. Defined.

Definition errorCodeToString (e : ErrorCode) : string :=
  match e with
  | kNoError => "NoError"
  | kInvalidLength => "InvalidLength"
  | kCheckSumError => "CheckSumError"
  | kInvalidNameLen => "InvalidNameLen"
  | kUnknownMessageType => "UnknownMessageType"
  | kParseError => "ParseError"
  end.

(** The calls of the user's callbacks. *)
Inductive effect (M : Type) := Delivered (m : M) | Failed (e : ErrorCode).
Arguments Delivered {M} m.
Arguments Failed {M} e.

Section Codec.
Context `{HO : HostOrder}.
Context {M : Type} (SerializeToArray : M -> bytes) (ParseFromArray : bytes -> option M) (adler32 : bytes -> Z).
(** [tag_] and the optional [rawCb_]. *)
Context (tag_ : bytes) (rawCb_ : option (bytes -> bool)).

Definition kMinMessageLen : Z := i32 (zlen tag_ + kChecksumLen).

Definition asInt32 (mem : bytes) : outcome Z :=
  m ← Buffer.read_mem mem 4;
  Ok (i32 (networkToHost32 (load m))).

Definition checksum (mem : bytes) (len : Z) : outcome Z :=
  m ← Buffer.read_mem mem len;
  Ok (i32 (adler32 m)).

Definition validateChecksum (mem : bytes) (len : Z) : outcome bool :=
  expectedCheckSum ← asInt32 (zdrop (len - kChecksumLen) mem);
  checkSum ← checksum mem (len - kChecksumLen);
  Ok (checkSum =? expectedCheckSum).

(** The error code, and the message when there is no error. *)
Definition parse (mem : bytes) (len : Z) : outcome (ErrorCode * option M) :=
  ok ← validateChecksum mem len;
  if (ok : bool)
  then
    m ← Buffer.read_mem mem (zlen tag_);
    if bytes_eqb m tag_
    then
      data ← Buffer.read_mem (zdrop (zlen tag_) mem) (len - kChecksumLen - zlen tag_);
      Ok match ParseFromArray data with
         | Some message => (kNoError, Some message)
         | None => (kParseError, None)
         end
    else Ok (kUnknownMessageType, None)
  else Ok (kCheckSumError, None).

(** [serializeToBuffer]: protobuf refuses messages of 2 GiB and more. *)
Definition serializeToBuffer (message : M) (buf : Buffer.t) : outcome (Z * Buffer.t) :=
  let data := SerializeToArray message in
  let byte_size := zlen data in
  (if byte_size + kChecksumLen <? 2 ^ 31 then Ok tt else Err (LogFatal "ToIntSize"));;
  buf ← Buffer.ensureWritableBytes (byte_size + kChecksumLen) buf;
  v ← Buffer.write_at (Buffer.buffer_ buf) (Buffer.beginWrite buf) data;
  buf ← Buffer.hasWritten byte_size (Buffer.mk v (Buffer.readerIndex_ buf) (Buffer.writerIndex_ buf));
  Ok (byte_size, buf).

Definition fillEmptyBuffer (message : M) (buf : Buffer.t) : outcome Buffer.t :=
  massert (Buffer.readableBytes buf =? 0) "buf->readableBytes() == 0";;
  buf ← Buffer.append_string tag_ buf;
  '(byte_size, buf) ← serializeToBuffer message buf;
  checkSum ← checksum (Buffer.mem_at buf (Buffer.peek buf)) (i32 (Buffer.readableBytes buf));
  buf ← Buffer.appendInt32 checkSum buf;
  massert (Buffer.readableBytes buf =? u64 (zlen tag_ + byte_size + kChecksumLen))
    "buf->readableBytes() == tag_.size() + byte_size + kChecksumLen";;
  let len := i32 (hostToNetwork32 (u32 (i32 (Buffer.readableBytes buf)))) in
  Buffer.prepend (store 4 len) 4 buf.

Definition send (wr : bytes -> TcpConnection.write_result) (message : M) (conn : TcpConnection.t)
    : outcome TcpConnection.t :=
  buf ← Buffer.new_ Buffer.kInitialSize;
  buf ← fillEmptyBuffer message buf;
  '(_, conn) ← TcpConnection.sendBuffer true wr buf conn;
  Ok conn.

(** One iteration of the loop of [onMessage]: whether it goes on, the
    callbacks, the buffer. *)
Definition onMessage_iter (buf : Buffer.t) : outcome (bool * list (effect M) * Buffer.t) :=
  if u32 (kMinMessageLen + kHeaderLen) <=? Buffer.readableBytes buf
  then
    len ← Buffer.peekInt32 buf;
    if (kMaxMessageLen <? len) || (len <? kMinMessageLen)
    then Ok (false, [Failed kInvalidLength], buf)
    else if u64 (kHeaderLen + len) <=? Buffer.readableBytes buf
    then
      raw ← Buffer.read_mem (Buffer.mem_at buf (Buffer.peek buf)) (kHeaderLen + len);
      if (match rawCb_ with Some cb => negb (cb raw) | None => false end)
      then
        buf ← Buffer.retrieve (kHeaderLen + len) buf;
        Ok (true, [], buf)
      else
        '(errorCode, message) ← parse (Buffer.mem_at buf (Buffer.peek buf + kHeaderLen)) len;
        match message with
        | Some m =>
            buf ← Buffer.retrieve (kHeaderLen + len) buf;
            Ok (true, [Delivered m], buf)
        | None => Ok (false, [Failed errorCode], buf)
        end
    else Ok (false, [], buf)
  else Ok (false, [], buf).

(** [None] when the loop still runs after [fuel] iterations. *)
Fixpoint onMessage (fuel : nat) (buf : Buffer.t) : outcome (option (list (effect M) * Buffer.t)) :=
  match fuel with
  | O => Ok None
  | S fuel' =>
      '(more, es, buf) ← onMessage_iter buf;
      if (more : bool)
      then
        r ← onMessage fuel' buf;
        Ok match r with Some (es', buf) => Some (es ++ es', buf) | None => None end
      else Ok (Some (es, buf))
  end.

(** [defaultErrorCallback]: a connected connection is shut down. *)
Definition defaultErrorCallback (conn : TcpConnection.t) : TcpConnection.t :=
  if TcpConnection.connected conn then TcpConnection.shutdown true conn else conn.

(** * The format on byte strings *)

Definition int32_at (c : bytes) : Z := i32 (be_value (ztake 4 c)).

(** The message in a frame's body (tag, payload, checksum), or the error. *)
Definition check_body (body : bytes) : ErrorCode + M :=
  let n := zlen body - kChecksumLen in
  if negb (i32 (adler32 (ztake n body)) =? int32_at (zdrop n body)) then inl kCheckSumError
  else if negb (bytes_eqb (ztake (zlen tag_) body) tag_) then inl kUnknownMessageType
  else match ParseFromArray (zslice (zlen tag_) n body) with
       | Some m => inr m
       | None => inl kParseError
       end.

(** The first frame of [c]: wait for more bytes, give up, or consume it. *)
Inductive verdict := Wait | Reject (e : ErrorCode) | Consume (m : option M) (n : Z).
Definition first_frame (c : bytes) : verdict :=
  if zlen c <? zlen tag_ + kChecksumLen + kHeaderLen then Wait
  else
    let len := int32_at c in
    if (kMaxMessageLen <? len) || (len <? zlen tag_ + kChecksumLen) then Reject kInvalidLength
    else if zlen c <? kHeaderLen + len then Wait
    else if (match rawCb_ with Some cb => negb (cb (ztake (kHeaderLen + len) c)) | None => false end)
    then Consume None (kHeaderLen + len)
    else match check_body (zslice kHeaderLen (kHeaderLen + len) c) with
         | inl e => Reject e
         | inr m => Consume (Some m) (kHeaderLen + len)
         end.

Fixpoint decode_loop (fuel : nat) (c : bytes) : option (list (effect M) * bytes) :=
  match fuel with
  | O => None
  | S fuel' =>
      match first_frame c with
      | Wait => Some ([], c)
      | Reject e => Some ([Failed e], c)
      | Consume m n =>
          '(es, rest) ← decode_loop fuel' (zdrop n c);
          Some (match m with Some m => [Delivered m] | None => [] end ++ es, rest)
      end
  end.
Definition decode (c : bytes) : option (list (effect M) * bytes) := decode_loop (S (length c)) c.

(** The frame of a message. *)
Definition body_of (m : M) : bytes :=
  let p := tag_ ++ SerializeToArray m in p ++ be_bytes 4 (adler32 p).
Definition frame (m : M) : bytes := be_bytes 4 (zlen (body_of m)) ++ body_of m.

(** The tag leaves room for a message. *)
Definition tag_fits : Prop := zlen tag_ + kChecksumLen <= kMaxMessageLen.

(** * Lemmas *)

Lemma read_mem_take mem n : n <= zlen mem -> Buffer.read_mem mem n = Ok (ztake n mem).
Proof. intros. unfold Buffer.read_mem. by destruct (Z.leb_spec n (zlen mem)); [|lia]. Qed.

Lemma asInt32_ok mem : Forall is_byte mem -> 4 <= zlen mem -> asInt32 mem = Ok (int32_at mem).
Proof.
  intros Hb Hl. unfold asInt32, int32_at. rewrite read_mem_take by done. cbn [mbind outcome_bind]. f_equal.
  apply (Buffer.load_int Buffer.W32); [by apply Forall_take|].
  change (Buffer.width_bytes Buffer.W32) with 4%nat. unfold ztake, zlen in *. rewrite length_take. lia.
Qed.

Lemma parse_ok mem len :
  Forall is_byte mem -> zlen tag_ + kChecksumLen <= len <= zlen mem ->
  parse mem len = Ok match check_body (ztake len mem) with inl e => (e, None) | inr m => (kNoError, Some m) end.
Proof.
  intros Hb Hl. unfold kChecksumLen in *. unfold parse, validateChecksum, check_body, checksum, kChecksumLen.
  assert (zlen (ztake len mem) = len) as Hz by zlia. rewrite Hz.
  rewrite asInt32_ok by (by apply Forall_drop || zlia). cbn [mbind outcome_bind].
  rewrite (read_mem_take mem (len - 4)) by lia. cbn [mbind outcome_bind].
  assert (ztake (len - 4) (ztake len mem) = ztake (len - 4) mem) as -> by (apply ztake_ztake; lia).
  assert (int32_at (zdrop (len - 4) (ztake len mem)) = int32_at (zdrop (len - 4) mem)) as ->.
  { unfold int32_at. rewrite zdrop_ztake, ztake_ztake by zlia. done. }
  destruct (_ =? _); [|done]. cbn [negb]. rewrite (read_mem_take mem (zlen tag_)) by zlia. cbn [mbind outcome_bind].
  rewrite ztake_ztake by zlia. destruct (bytes_eqb _ _); [|done]. cbn [negb].
  rewrite read_mem_take by zlia. cbn [mbind outcome_bind].
  assert (zslice (zlen tag_) (len - 4) (ztake len mem) = ztake (len - 4 - zlen tag_) (zdrop (zlen tag_) mem)) as ->.
  { unfold zslice. rewrite zdrop_ztake, ztake_ztake by zlia. done. }
  by destruct (ParseFromArray _).
Qed.

Definition deliver (m : option M) : list (effect M) := match m with Some m => [Delivered m] | None => [] end.

Lemma onMessage_iter_ok buf :
  tag_fits -> Buffer.wf buf -> Forall is_byte (Buffer.buffer_ buf) ->
  match first_frame (Buffer.content buf) with
  | Wait => onMessage_iter buf = Ok (false, [], buf)
  | Reject e => onMessage_iter buf = Ok (false, [Failed e], buf)
  | Consume m n => exists buf', onMessage_iter buf = Ok (true, deliver m, buf') /\ Buffer.wf buf' /\
      Forall is_byte (Buffer.buffer_ buf') /\ Buffer.content buf' = zdrop n (Buffer.content buf) /\
      0 < n <= zlen (Buffer.content buf) /\ Buffer.retrieve n buf = Ok buf'
  end.
Proof.
  intros Htag Hwf Hby. unfold tag_fits, kMaxMessageLen, kChecksumLen in Htag. pose proof (zlen_nonneg tag_).
  assert (Forall is_byte (Buffer.content buf)) as Hc by (unfold Buffer.content, zslice; by apply Forall_take, Forall_drop).
  pose proof (Buffer.content_len buf Hwf) as Hlen. assert (Hwf2 := Hwf). unfold Buffer.wf, Buffer.vector_max_size in Hwf2.
  unfold first_frame, onMessage_iter. rewrite Buffer.readable_content by done.
  assert (kMinMessageLen = zlen tag_ + 4) as -> by (apply swrap_small; [lia|unfold srange, kChecksumLen; lia]).
  assert (u32 (zlen tag_ + 4 + kHeaderLen) = zlen tag_ + 8) as ->
    by (unfold kHeaderLen; unfold u32; rewrite uwrap_small; [lia|lia|unfold urange; lia]).
  unfold kChecksumLen, kHeaderLen, kMaxMessageLen. set (c := Buffer.content buf) in *.
  destruct (Z.ltb_spec (zlen c) (zlen tag_ + 4 + 4)), (Z.leb_spec (zlen tag_ + 8) (zlen c)); try lia; [done|].
  assert (Buffer.peekInt32 buf = Ok (int32_at c)) as ->
    by (apply (Buffer.peekInt_ok Buffer.W32); [done|done|cbn; fold c; lia]).
  cbn [mbind outcome_bind]. set (len := int32_at c). destruct (_ || _) eqn:Ebad; [done|].
  apply orb_false_iff in Ebad as [?%Z.ltb_ge ?%Z.ltb_ge].
  assert (u64 (4 + len) = 4 + len) as -> by (unfold u64; rewrite uwrap_small; [lia|lia|unfold urange; lia]).
  destruct (Z.ltb_spec (zlen c) (4 + len)), (Z.leb_spec (4 + len) (zlen c)); try lia; [done|].
  rewrite Buffer.read_mem_content by (done || fold c; lia). fold c. cbn [mbind outcome_bind].
  destruct (Buffer.retrieve_ok (4 + len) buf) as (buf'&Er&Hwf'&Hc'&Hb'&_); [done|lia|fold c; lia|]. fold c in Hc'.
  assert (exists buf', Buffer.retrieve (4 + len) buf = Ok buf' /\ Buffer.wf buf' /\
      Forall is_byte (Buffer.buffer_ buf') /\ Buffer.content buf' = zdrop (4 + len) c /\ 0 < 4 + len <= zlen c) as Hret.
  { exists buf'. rewrite Hb'. split_and!; try done; lia. }
  clear dependent buf'. destruct Hret as (buf'&Er&?&?&?&?). rewrite Er.
  destruct (match rawCb_ with Some _ => _ | None => _ end); [by exists buf'; do 5 (split; [done|])|].
  rewrite parse_ok; [|by apply Forall_drop|unfold Buffer.mem_at, Buffer.peek, kChecksumLen; zlia].
  assert (ztake len (Buffer.mem_at buf (Buffer.peek buf + 4)) = zslice 4 (4 + len) c) as ->.
  { unfold c, Buffer.content, Buffer.mem_at, Buffer.peek. rewrite zslice_zslice by lia.
    unfold zslice. f_equal. lia. }
  cbn [mbind outcome_bind]. destruct (check_body _) as [e|m]; [done|]. cbn. exists buf'. by do 5 (split; [done|]).
Qed.

Lemma onMessage_ok fuel buf :
  tag_fits -> Buffer.wf buf -> Forall is_byte (Buffer.buffer_ buf) ->
  match decode_loop fuel (Buffer.content buf) with
  | Some (es, rest) => exists buf', onMessage fuel buf = Ok (Some (es, buf')) /\ Buffer.wf buf' /\
      Buffer.content buf' = rest /\ Forall is_byte (Buffer.buffer_ buf')
  | None => onMessage fuel buf = Ok None
  end.
Proof.
  intros Htag. revert buf. induction fuel as [|fuel IH]; intros buf Hwf Hby; cbn [decode_loop onMessage]; [done|].
  pose proof (onMessage_iter_ok buf Htag Hwf Hby) as Hi.
  destruct (first_frame (Buffer.content buf)) as [|e|m n].
  - rewrite Hi. by exists buf.
  - rewrite Hi. by exists buf.
  - destruct Hi as (buf1&->&Hwf1&Hby1&Hc1&_). specialize (IH buf1 Hwf1 Hby1). rewrite Hc1 in IH.
    cbn [mbind outcome_bind option_bind].
    destruct (decode_loop fuel _) as [[es rest]|]; cbn; [|by rewrite IH].
    destruct IH as (buf2&->&?&?&?). by exists buf2.
Qed.

Lemma first_frame_progress c m n : first_frame c = Consume m n -> 0 < n <= zlen c.
Proof.
  unfold first_frame, kHeaderLen, kChecksumLen. pose proof (zlen_nonneg tag_).
  destruct (Z.ltb_spec (zlen c) (zlen tag_ + 4 + 4)); [done|]. destruct (_ || _) eqn:E; [done|].
  apply orb_false_iff in E as [_ ?%Z.ltb_ge]. destruct (Z.ltb_spec (zlen c) (4 + int32_at c)); [done|].
  destruct (match rawCb_ with Some _ => _ | None => _ end); [intros [= _ <-]; lia|].
  destruct (check_body _); [done|]. intros [= _ <-]. lia.
Qed.

Lemma decode_loop_fuel fuel1 fuel2 c :
  (length c < fuel1)%nat -> (length c < fuel2)%nat -> decode_loop fuel1 c = decode_loop fuel2 c /\ decode_loop fuel1 c <> None.
Proof.
  revert fuel2 c. induction fuel1 as [|fuel1 IH]; intros [|fuel2] c H1 H2; try lia. cbn [decode_loop].
  destruct (first_frame c) as [|e|m n] eqn:E; [done|done|]. apply first_frame_progress in E.
  assert (length (zdrop n c) < length c)%nat by (unfold zlen, zdrop in *; rewrite length_drop; lia).
  destruct (IH fuel2 (zdrop n c)) as (->&Hne); [lia|lia|]. split; [done|].
  destruct (decode_loop fuel2 (zdrop n c)) as [[es rest]|] eqn:Ed; [done|].
  destruct (IH fuel2 (zdrop n c)) as (Heq&Hn); [lia|lia|]. by rewrite Heq in Hn.
Qed.

Lemma decode_unfold c :
  decode c = match first_frame c with
    | Wait => Some ([], c)
    | Reject e => Some ([Failed e], c)
    | Consume m n => '(es, rest) ← decode (zdrop n c); Some (deliver m ++ es, rest)
    end.
Proof.
  unfold decode at 1. cbn [decode_loop]. destruct (first_frame c) as [|e|m n] eqn:E; [done|done|].
  apply first_frame_progress in E. unfold decode.
  destruct (decode_loop_fuel (length c) (S (length (zdrop n c))) (zdrop n c)) as (->&_); [|lia|done].
  unfold zlen, zdrop in *. rewrite length_drop. lia.
Qed.

(** A message the codec accepts: parsing undoes serialising, the frame is not
    too long, and the raw callback lets it pass. *)
Definition message_ok (m : M) : Prop :=
  ParseFromArray (SerializeToArray m) = Some m /\ zlen (body_of m) <= kMaxMessageLen /\
  match rawCb_ with Some cb => cb (frame m) = true | None => True end.

Lemma int32_at_be v c : int32_at (be_bytes 4 v ++ c) = i32 v.
Proof.
  unfold int32_at. rewrite ztake_app_exact by by rewrite zlen_be_bytes.
  rewrite be_value_be_bytes. apply swrap_uwrap. lia.
Qed.

Lemma body_len m : zlen (body_of m) = zlen tag_ + zlen (SerializeToArray m) + 4.
Proof. unfold body_of. rewrite !zlen_app, zlen_be_bytes. lia. Qed.

Lemma check_body_of m : ParseFromArray (SerializeToArray m) = Some m -> check_body (body_of m) = inr m.
Proof.
  intros Hp. unfold check_body. rewrite body_len. unfold kChecksumLen.
  replace (zlen tag_ + zlen (SerializeToArray m) + 4 - 4) with (zlen (tag_ ++ SerializeToArray m)) by zlia.
  unfold body_of. rewrite ztake_app_exact, zdrop_app_exact by done.
  rewrite <- (app_nil_r (be_bytes 4 _)), int32_at_be, Z.eqb_refl. cbn [negb].
  rewrite <- !app_assoc, ztake_app_exact by done.
  replace (bytes_eqb tag_ tag_) with true by (symmetry; by apply bytes_eqb_eq). cbn [negb].
  rewrite zslice_app_mid; [by rewrite Hp|done|zlia].
Qed.

(** A frame at the head of the stream is consumed whole. *)
Lemma first_frame_of m rest : message_ok m -> first_frame (frame m ++ rest) = Consume (Some m) (zlen (frame m)).
Proof.
  intros (Hp&Hlen&Hraw). unfold first_frame, kHeaderLen, kChecksumLen.
  assert (zlen (frame m) = 4 + zlen (body_of m)) as Hf by (unfold frame; by rewrite zlen_app, zlen_be_bytes).
  pose proof (body_len m) as Hb. pose proof (zlen_nonneg (SerializeToArray m)). pose proof (zlen_nonneg tag_).
  assert (int32_at (frame m ++ rest) = zlen (body_of m)) as Hi.
  { unfold frame. rewrite <- app_assoc, int32_at_be. apply swrap_small; [lia|]. unfold srange, kMaxMessageLen in *. lia. }
  rewrite Hi, zlen_app, Hf. pose proof (zlen_nonneg rest).
  destruct (Z.ltb_spec (4 + zlen (body_of m) + zlen rest) (zlen tag_ + 4 + 4)); [lia|].
  destruct (Z.ltb_spec kMaxMessageLen (zlen (body_of m))); [lia|].
  destruct (Z.ltb_spec (zlen (body_of m)) (zlen tag_ + 4)); [lia|]. cbn [orb].
  destruct (Z.ltb_spec (4 + zlen (body_of m) + zlen rest) (4 + zlen (body_of m))); [lia|].
  rewrite (ztake_app_exact _ (frame m)) by lia.
  assert (match rawCb_ with Some cb => negb (cb (frame m)) | None => false end = false) as ->.
  { destruct rawCb_ as [cb|]; [|done]. by rewrite Hraw. }
  assert (zslice 4 (4 + zlen (body_of m)) (frame m ++ rest) = body_of m) as ->.
  { unfold frame. rewrite <- app_assoc. apply zslice_app_mid; [by rewrite zlen_be_bytes|done]. }
  by rewrite check_body_of.
Qed.

Lemma first_frame_nil : first_frame [] = Wait.
Proof.
  unfold first_frame, kHeaderLen, kChecksumLen. pose proof (zlen_nonneg tag_).
  by destruct (Z.ltb_spec (zlen (@nil Z)) (zlen tag_ + 4 + 4)); [|change (zlen (@nil Z)) with 0 in *; lia].
Qed.

Lemma first_frame_prefix m c w : message_ok m -> c ++ w = frame m -> w <> [] -> first_frame c = Wait.
Proof.
  intros (_ & Hlen & _) Hc Hw.
  assert (zlen c < zlen (frame m)) as Hl.
  { rewrite <-Hc, zlen_app. destruct w; [done|]. rewrite zlen_cons. pose proof (zlen_nonneg w). lia. }
  unfold first_frame, kHeaderLen, kChecksumLen.
  pose proof (body_len m) as Hb.
  pose proof (zlen_nonneg (SerializeToArray m)). unfold kMaxMessageLen in *.
  destruct (Z.ltb_spec (zlen c) (zlen tag_ + 4 + 4)) as [|Hge]; [done|].
  pose proof (zlen_nonneg tag_).
  assert (int32_at c = zlen (body_of m)) as ->.
  { assert (int32_at c = int32_at (frame m)) as ->.
    { unfold int32_at. rewrite <-Hc, ztake_app_le by lia. done. }
    unfold frame. rewrite int32_at_be. apply swrap_small; [lia|unfold srange; lia]. }
  replace (_ || _) with false by (symmetry; apply orb_false_iff; split; apply Z.ltb_ge; lia).
  destruct (Z.ltb_spec (zlen c) (4 + zlen (body_of m))) as [|Hge2]; [done|].
  unfold frame in Hl. rewrite zlen_app, zlen_be_bytes in Hl. lia.
Qed.

(** What has arrived of a sequence of frames: some whole ones and an
    incomplete one. *)
Lemma frames_split ms c w : Forall message_ok ms -> c ++ w = concat (frame <$> ms) ->
  exists ms1 ms2 tl, ms = ms1 ++ ms2 /\ c = concat (frame <$> ms1) ++ tl /\ tl ++ w = concat (frame <$> ms2) /\
    first_frame tl = Wait.
Proof.
  intros Hms. revert c. induction Hms as [|m ms Hm Hms IH]; intros c Hc; cbn [fmap list_fmap concat] in Hc.
  - apply app_eq_nil in Hc as [-> ->]. exists [], [], []. (split_and!; [done..|]).
    apply first_frame_nil.
  - destruct (decide (zlen c < zlen (frame m))) as [Hlt|Hge].
    + exists [], (m :: ms), c. (split_and!; [done..|]).
      assert (c ++ zdrop (zlen c) (frame m) = frame m) as Hp.
      { assert (c = ztake (zlen c) (frame m)) as Hp.
        { apply (f_equal (ztake (zlen c))) in Hc. rewrite ztake_app_exact, ztake_app_le in Hc by lia. done. }
        rewrite Hp at 1. apply ztake_zdrop. }
      eapply first_frame_prefix; [done|exact Hp|]. intros Hn. rewrite Hn, app_nil_r in Hp. rewrite Hp in Hlt. lia.
    + assert (c = frame m ++ zdrop (zlen (frame m)) c) as Ec.
      { assert (ztake (zlen (frame m)) c = frame m) as Ht.
        { apply (f_equal (ztake (zlen (frame m)))) in Hc. rewrite ztake_app_le, ztake_app_exact in Hc by lia. done. }
        rewrite <-Ht at 1. by rewrite ztake_zdrop. }
      rewrite Ec, <-app_assoc in Hc. apply app_inv_head in Hc.
      destruct (IH _ Hc) as (ms1 & ms2 & tl & -> & Htl & Hw & Hf).
      exists (m :: ms1), ms2, tl. (split_and!; [done| |done..]).
      rewrite Ec, Htl. cbn [fmap list_fmap concat]. by rewrite <-app_assoc.
Qed.

Lemma decode_frames ms rest :
  Forall message_ok ms -> first_frame rest = Wait ->
  decode (concat (frame <$> ms) ++ rest) = Some (Delivered <$> ms, rest).
Proof.
  intros Hms Hw. induction Hms as [|m ms Hm _ IH]; cbn [fmap list_fmap concat app].
  - by rewrite decode_unfold, Hw.
  - rewrite <- app_assoc, decode_unfold, first_frame_of by done. rewrite zdrop_app_exact by done.
    rewrite IH. done.
Qed.

Lemma serializeToBuffer_ok m b :
  Buffer.wf b -> zlen (Buffer.buffer_ b) < 2 ^ 32 -> zlen (SerializeToArray m) + 4 < 2 ^ 31 ->
  exists b', serializeToBuffer m b = Ok (zlen (SerializeToArray m), b') /\ Buffer.wf b' /\
    Buffer.content b' = Buffer.content b ++ SerializeToArray m /\
    zlen (Buffer.buffer_ b') <= zlen (Buffer.buffer_ b) + zlen (SerializeToArray m) + 4 /\
    (Buffer.readerIndex_ b' = Buffer.readerIndex_ b \/ Buffer.readerIndex_ b' = Buffer.kCheapPrepend).
Proof.
  intros Hwf Hsz Hm. unfold serializeToBuffer, kChecksumLen. set (data := SerializeToArray m) in *.
  pose proof (zlen_nonneg data). destruct (Z.ltb_spec (zlen data + 4) (2 ^ 31)); [|lia]. cbn [mbind outcome_bind].
  assert (Hwf2 := Hwf). unfold Buffer.wf, Buffer.vector_max_size in Hwf2.
  destruct (Buffer.ensureWritable_ok (zlen data + 4) b) as (b1&->&Hb1&Hc1&Hfit&Hs1&Hr1&_);
    [done|lia|unfold Buffer.vector_max_size; lia|].
  cbn [mbind outcome_bind]. unfold Buffer.beginWrite.
  destruct (Buffer.fill_ok b1 data) as (v&->&Hv&Hb'&Hc'); [done|lia|]. cbn [mbind outcome_bind].
  unfold Buffer.hasWritten.
  rewrite Buffer.writable_wf by (assert (Hb2 := Hb1); unfold Buffer.wf in *; cbn in *; rewrite Hv; lia).
  cbn [Buffer.buffer_ Buffer.writerIndex_]. rewrite Hv. assert_ok.
  unfold u64. rewrite uwrap_small by (lia || (unfold urange; assert (Hb2 := Hb1); unfold Buffer.wf in Hb2; lia)).
  eexists. split; [done|]. split; [done|]. cbn [Buffer.buffer_ Buffer.readerIndex_]. rewrite Hc', Hc1, Hv.
  split_and!; try done; [lia|]. destruct Hr1 as [->|[-> _]]; auto.
Qed.

(** A buffer as its constructor makes it. *)
Definition fresh_buffer (b : Buffer.t) : Prop :=
  Buffer.wf b /\ Buffer.content b = [] /\ Buffer.readerIndex_ b = Buffer.kCheapPrepend /\ zlen (Buffer.buffer_ b) < 2 ^ 31.

Lemma fillEmptyBuffer_ok m b :
  fresh_buffer b -> zlen (body_of m) <= kMaxMessageLen ->
  exists b', fillEmptyBuffer m b = Ok b' /\ Buffer.wf b' /\ Buffer.content b' = frame m.
Proof.
  intros (Hwf&Hc&Hr&Hsz) Hlen. unfold fillEmptyBuffer, kChecksumLen. rewrite body_len in Hlen. unfold kMaxMessageLen in Hlen.
  pose proof (zlen_nonneg (SerializeToArray m)). pose proof (zlen_nonneg tag_).
  rewrite Buffer.readable_content, Hc by done. cbn [zlen length Z.of_nat Z.eqb massert mbind outcome_bind].
  assert (Hwf2 := Hwf). unfold Buffer.wf, Buffer.vector_max_size in Hwf2. unfold Buffer.kCheapPrepend in *.
  destruct (Buffer.append_string_ok tag_ b) as (b1&->&Hb1&Hc1&Hs1&Hr1);
    [done|lia|unfold Buffer.vector_max_size; lia|]. cbn [mbind outcome_bind]. rewrite Hc, app_nil_l in Hc1.
  destruct (serializeToBuffer_ok m b1) as (b2&->&Hb2&Hc2&Hs2&Hr2); [done|lia|lia|]. cbn [mbind outcome_bind].
  rewrite Hc1 in Hc2. unfold checksum.
  rewrite Buffer.readable_content, Hc2, zlen_app by done.
  assert (i32 (zlen tag_ + zlen (SerializeToArray m)) = zlen (Buffer.content b2)) as ->.
  { rewrite Hc2, zlen_app. apply swrap_small; [lia|unfold srange; lia]. }
  rewrite (Buffer.read_mem_content b2) by (done || zlia). rewrite ztake_all by lia. cbn [mbind outcome_bind].
  change (Buffer.appendInt32 ?x ?b) with (Buffer.appendInt Buffer.W32 x b). rewrite Buffer.appendInt_be.
  cbn [Buffer.width_bytes].
  assert (Hb2w := Hb2). unfold Buffer.wf, Buffer.vector_max_size in Hb2w.
  destruct (Buffer.append_ok (be_bytes 4 (i32 (adler32 (Buffer.content b2)))) (Z.of_nat 4) b2) as (b3&->&Hb3&Hc3&Hs3&Hr3&_);
    [done|rewrite zlen_be_bytes; lia|unfold Buffer.vector_max_size; lia|]. cbn [mbind outcome_bind].
  assert (Buffer.content b3 = body_of m) as Hc3'.
  { rewrite Hc3, ztake_all by (rewrite zlen_be_bytes; lia). rewrite Hc2. unfold body_of. cbn zeta. apply (f_equal (app _)).
    apply be_bytes_mod_eq. apply (uwrap_swrap 32). lia. }
  rewrite Buffer.readable_content, Hc3', body_len by done.
  assert (u64 (zlen tag_ + zlen (SerializeToArray m) + 4) = zlen tag_ + zlen (SerializeToArray m) + 4) as ->
    by (apply uwrap_small; [lia|unfold urange; lia]).
  rewrite Z.eqb_refl. cbn [massert mbind outcome_bind].
  assert (i32 (zlen tag_ + zlen (SerializeToArray m) + 4) = zlen (body_of m)) as ->
    by (rewrite body_len; apply swrap_small; [lia|unfold srange; lia]).
  change (Buffer.prepend (store 4 (i32 (hostToNetwork32 (u32 (zlen (body_of m)))))) 4 b3)
    with (Buffer.prependInt Buffer.W32 (zlen (body_of m)) b3).
  rewrite Buffer.prependInt_be. cbn [Buffer.width_bytes].
  rewrite <- (zlen_be_bytes 4 (zlen (body_of m))).
  destruct (Buffer.prepend_ok (be_bytes 4 (zlen (body_of m))) b3) as (b4&->&Hb4&Hc4&_); [done| |].
  { rewrite zlen_be_bytes. unfold Buffer.kCheapPrepend in *. lia. }
  exists b4. split_and!; try done. by rewrite Hc4, Hc3'.
Qed.

(** * Properties *)

(** C30: [onMessage] terminates on every input (its loop runs at most once per
    readable byte and once more), never reads outside the buffer, and its
    callbacks, in order, and the bytes it leaves are those of the format: it
    waits on an incomplete frame, stops with [kInvalidLength], [kCheckSumError],
    [kUnknownMessageType] or [kParseError] on a bad one, and consumes good
    ones. *)
Theorem codec_onMessage_refines_format buf fuel :
  tag_fits -> Buffer.wf buf -> Forall is_byte (Buffer.buffer_ buf) ->
  (length (Buffer.content buf) < fuel)%nat ->
  exists es buf', onMessage fuel buf = Ok (Some (es, buf')) /\ Buffer.wf buf' /\
    decode (Buffer.content buf) = Some (es, Buffer.content buf').
Proof.
  intros Htag Hwf Hby Hf. pose proof (onMessage_ok fuel buf Htag Hwf Hby) as H.
  destruct (decode_loop_fuel fuel (S (length (Buffer.content buf))) (Buffer.content buf)) as (E&Hne); [done|lia|].
  destruct (decode_loop fuel (Buffer.content buf)) as [[es rest]|]; [|done].
  destruct H as (buf'&H&Hw&<-&_). by exists es, buf'.
Qed.

(** C29: messages survive the wire.  [fillEmptyBuffer] turns a message into its
    frame; a receiver whose input holds any number of such frames, followed by
    an incomplete one, delivers exactly these messages, in order, and keeps
    the incomplete frame. *)
Theorem codec_round_trip ms rest buf fuel :
  tag_fits -> Forall message_ok ms -> first_frame rest = Wait ->
  Buffer.wf buf -> Forall is_byte (Buffer.buffer_ buf) ->
  Buffer.content buf = concat (frame <$> ms) ++ rest -> (length (Buffer.content buf) < fuel)%nat ->
  (forall m b, m ∈ ms -> fresh_buffer b ->
     exists b', fillEmptyBuffer m b = Ok b' /\ Buffer.content b' = frame m) /\
  exists buf', onMessage fuel buf = Ok (Some (Delivered <$> ms, buf')) /\ Buffer.content buf' = rest.
Proof.
  intros Htag Hms Hrest Hwf Hby Hc Hf. split.
  - intros m b Hm Hb. apply (proj1 (Forall_forall _ _) Hms) in Hm as (_&Hlen&_).
    destruct (fillEmptyBuffer_ok m b Hb Hlen) as (b'&?&_&?). by exists b'.
  - pose proof (onMessage_ok fuel buf Htag Hwf Hby) as H.
    destruct (decode_loop_fuel fuel (S (length (Buffer.content buf))) (Buffer.content buf)) as (E&_); [done|lia|].
    rewrite E in H. fold (decode (Buffer.content buf)) in H. rewrite Hc, decode_frames in H by done.
    destruct H as (buf'&?&_&?&_). by exists buf'.
Qed.

End Codec.

(** * Witnesses: messages are byte strings, and adler32 as zlib documents it. *)

Definition adler32 (s : bytes) : Z :=
  let '(a, b) := foldl (fun '(a, b) c => ((a + c) mod 65521, (b + (a + c) mod 65521) mod 65521)) (1, 0) s in
  b * 65536 + a.
Definition example_tag : bytes := lit "RPC0".
Definition example_input (c : bytes) : Buffer.t := Buffer.mk (replicate 8 0 ++ c) 8 (8 + zlen c).

Lemma adler32_wikipedia : adler32 (lit "Wikipedia") = 300286872.
Proof. reflexivity. Qed.

Lemma codec_onMessage_refines_format_witness :
  exists es buf', onMessage (HO := true) Some adler32 example_tag None 100
      (example_input (be_bytes 4 9 ++ lit "RPC0x----")) = Ok (Some (es, buf')) /\ Buffer.wf buf' /\
    decode Some adler32 example_tag None (be_bytes 4 9 ++ lit "RPC0x----") = Some (es, Buffer.content buf').
Proof.
  apply (codec_onMessage_refines_format (HO := true) (M := bytes) Some adler32 example_tag None
    (example_input (be_bytes 4 9 ++ lit "RPC0x----")) 100).
  - vm_compute. discriminate.
  - vm_compute. repeat split; discriminate.
  - apply Buffer.bytesb_spec. vm_compute. reflexivity.
  - vm_compute. lia.
Defined.

Lemma codec_round_trip_witness :
  exists buf', onMessage (HO := true) Some adler32 example_tag None 100
      (example_input (frame (fun s : bytes => s) adler32 example_tag (lit "hi") ++
                      frame (fun s : bytes => s) adler32 example_tag (lit "you") ++ [0; 0])) =
    Ok (Some ([Delivered (lit "hi"); Delivered (lit "you")], buf')) /\ Buffer.content buf' = [0; 0].
Proof.
  apply (codec_round_trip (HO := true) (M := bytes) (fun s => s) Some adler32 example_tag None
    [lit "hi"; lit "you"] [0; 0]).
  - vm_compute. discriminate.
  - repeat constructor; vm_compute; discriminate.
  - vm_compute. reflexivity.
  - vm_compute. repeat split; discriminate.
  - apply Buffer.bytesb_spec. vm_compute. reflexivity.
  - vm_compute. reflexivity.
  - vm_compute. lia.
Defined.

End ProtobufCodecLite.
