(* ===== verification/NetProtobufCodecT.v ===== *)
(** src/muduo/net/protobuf/ProtobufCodecLite.h, the class template
    ProtobufCodecLiteT, and [down_pointer_cast] of src/muduo/net/Callbacks.h: the
    codec for one message type.

    A protobuf message is its dynamic type and its content; how a type's content
    is serialised and parsed is a parameter.  The codec makes messages from its
    prototype, so that the cast in [onRpcMessage] always succeeds: the file proves
    that, and that the typed codec carries contents through unchanged. *)

From S2P Require Import Prelude BaseTimestamp Endian BaseStringPiece NetBuffer NetChannel NetTcpConnection NetProtobufCodec.

Module ProtobufCodecLiteT.
Import ProtobufCodecLite.

Section CodecT.
Context `{HO : HostOrder}.
(** Message types and contents. *)
Context {Ty C : Type} `{EqDecision Ty} (SerializeToArray : Ty -> C -> bytes) (ParseFromArray : Ty -> bytes -> option C)
  (adler32 : bytes -> Z).
(** The template's arguments, and the optional raw callback. *)
Context (MSG : Ty) (TAG : bytes) (rawCb_ : option (bytes -> bool)).

Definition Message : Type := Ty * C.

(** [prototype_->New()] and then [ParseFromArray]; the prototype is
    [MSG::default_instance()]. *)
Definition parse_new (data : bytes) : option Message := pair MSG <$> ParseFromArray MSG data.
Definition serialize (message : Message) : bytes := SerializeToArray message.1 message.2.

(** [down_pointer_cast<MSG>]: the dynamic_cast of the debug build is asserted. *)
Definition down_pointer_cast (f : Message) : outcome C :=
  massert (bool_decide (f.1 = MSG)) "f == NULL || dynamic_cast<To*>(get_pointer(f)) != NULL";; Ok f.2.

Definition tag : bytes := TAG.
(** The argument [messageCallback_] is called with. *)
Definition onRpcMessage (message : Message) : outcome C := down_pointer_cast message.
Definition deliver_typed (e : effect Message) : outcome (effect C) :=
  match e with Delivered m => c ← onRpcMessage m; Ok (Delivered c) | Failed e => Ok (Failed e) end.
Definition onMessage (fuel : nat) (buf : Buffer.t) : outcome (option (list (effect C) * Buffer.t)) :=
  r ← ProtobufCodecLite.onMessage parse_new adler32 TAG rawCb_ fuel buf;
  match r with
  | None => Ok None
  | Some (es, buf) => es ← foldM (fun acc e => e ← deliver_typed e; Ok (acc ++ [e])) [] es; Ok (Some (es, buf))
  end.
Definition send (wr : bytes -> TcpConnection.write_result) (message : C) (conn : TcpConnection.t) : outcome TcpConnection.t :=
  ProtobufCodecLite.send serialize adler32 TAG wr (MSG, message) conn.
Definition fillEmptyBuffer (message : C) (buf : Buffer.t) : outcome Buffer.t :=
  ProtobufCodecLite.fillEmptyBuffer serialize adler32 TAG (MSG, message) buf.

(** What the codec of the type alone does: the same format on contents. *)
#[local] Abbreviation decode_typed := (decode (ParseFromArray MSG) adler32 TAG rawCb_).

Definition typed (e : effect C) : effect Message :=
  match e with Delivered c => Delivered (MSG, c) | Failed e => Failed e end.

Lemma check_body_typed body : check_body parse_new adler32 TAG body =
  match check_body (ParseFromArray MSG) adler32 TAG body with inl e => inl e | inr c => inr (MSG, c) end.
Proof.
  unfold check_body, parse_new. destruct (negb (_ =? _)); [done|]. destruct (negb _); [done|].
  by destruct (ParseFromArray MSG _).
Qed.

Lemma first_frame_typed c : first_frame parse_new adler32 TAG rawCb_ c =
  match first_frame (ParseFromArray MSG) adler32 TAG rawCb_ c with
  | Wait => Wait | Reject e => Reject e | Consume m n => Consume (pair MSG <$> m) n
  end.
Proof.
  unfold first_frame. destruct (_ <? _); [done|]. destruct (_ || _); [done|]. destruct (_ <? _); [done|].
  destruct (match rawCb_ with Some _ => _ | None => _ end); [done|]. rewrite check_body_typed.
  by destruct (check_body (ParseFromArray MSG) _ _ _).
Qed.

Lemma decode_loop_typed fuel c : decode_loop parse_new adler32 TAG rawCb_ fuel c =
  match decode_loop (ParseFromArray MSG) adler32 TAG rawCb_ fuel c with
  | Some (es, rest) => Some (typed <$> es, rest)
  | None => None
  end.
Proof.
  revert c. induction fuel as [|fuel IH]; intros c; cbn [decode_loop]; [done|]. rewrite first_frame_typed.
  destruct (first_frame (ParseFromArray MSG) _ _ _ c) as [|e|m n]; [done|done|]. rewrite IH.
  destruct (decode_loop (ParseFromArray MSG) _ _ _ fuel _) as [[es rest]|]; [|done]. cbn. by destruct m.
Qed.

Lemma deliver_all es acc :
  foldM (fun acc e => e ← deliver_typed e; Ok (acc ++ [e])) acc (typed <$> es) = Ok (acc ++ es).
Proof.
  revert acc. induction es as [|e es IH]; intros acc; [by rewrite app_nil_r|]. cbn [fmap list_fmap foldM].
  assert (deliver_typed (typed e) = Ok e) as ->.
  { destruct e as [c|e]; [|done]. cbn. unfold onRpcMessage, down_pointer_cast. cbn. by rewrite bool_decide_eq_true_2. }
  cbn [mbind outcome_bind]. rewrite IH. by rewrite <-app_assoc.
Qed.

(** The cast never fails: on any input the typed codec makes the callbacks
    of the codec on contents, and leaves the same bytes. *)
Theorem typed_codec_never_miscasts buf fuel :
  tag_fits TAG -> Buffer.wf buf -> Forall is_byte (Buffer.buffer_ buf) -> (length (Buffer.content buf) < fuel)%nat ->
  exists es buf', onMessage fuel buf = Ok (Some (es, buf')) /\ Buffer.wf buf' /\
    decode_typed (Buffer.content buf) = Some (es, Buffer.content buf').
Proof.
  intros Htag Hwf Hby Hf. unfold onMessage.
  pose proof (onMessage_ok parse_new adler32 TAG rawCb_ fuel buf Htag Hwf Hby) as Hok. rewrite decode_loop_typed in Hok.
  destruct (decode_loop_fuel (ParseFromArray MSG) adler32 TAG rawCb_ fuel (S (length (Buffer.content buf))) (Buffer.content buf))
    as (E & Hne); [done|lia|]. unfold decode. rewrite <-E.
  destruct (decode_loop (ParseFromArray MSG) _ _ _ fuel _) as [[es rest]|]; [|done]. cbn [mbind option_bind] in Hok.
  destruct Hok as (buf' & -> & Hwf' & <- & _). cbn [mbind outcome_bind]. rewrite deliver_all. cbn [mbind outcome_bind app].
  by exists es, buf'.
Qed.

(** What the typed codec writes, it reads: contents go through in order. *)
Theorem typed_codec_round_trip cs buf fuel :
  tag_fits TAG -> Forall (message_ok (SerializeToArray MSG) (ParseFromArray MSG) adler32 TAG rawCb_) cs ->
  Buffer.wf buf -> Forall is_byte (Buffer.buffer_ buf) -> (length (Buffer.content buf) < fuel)%nat ->
  Buffer.content buf = concat (frame (SerializeToArray MSG) adler32 TAG <$> cs) ->
  (forall c b, c ∈ cs -> fresh_buffer b -> exists b', fillEmptyBuffer c b = Ok b' /\
     Buffer.content b' = frame (SerializeToArray MSG) adler32 TAG c) /\
  exists buf', onMessage fuel buf = Ok (Some (Delivered <$> cs, buf')) /\ Buffer.content buf' = [].
Proof.
  intros Htag Hcs Hwf Hby Hf Hc. split.
  - intros c b Hin Hb. apply (proj1 (Forall_forall _ _) Hcs) in Hin as (_ & Hlen & _).
    destruct (fillEmptyBuffer_ok serialize adler32 TAG (MSG, c) b Hb Hlen) as (b' & E & _ & Hb'). by exists b'.
  - unfold onMessage. pose proof (onMessage_ok parse_new adler32 TAG rawCb_ fuel buf Htag Hwf Hby) as Hok.
    rewrite decode_loop_typed in Hok.
    destruct (decode_loop_fuel (ParseFromArray MSG) adler32 TAG rawCb_ fuel (S (length (Buffer.content buf))) (Buffer.content buf))
      as (E & _); [done|lia|]. rewrite E in Hok.
    change (decode_loop (ParseFromArray MSG) adler32 TAG rawCb_ (S (length (Buffer.content buf))) (Buffer.content buf))
      with (decode_typed (Buffer.content buf)) in Hok. rewrite Hc in Hok. rewrite <-(app_nil_r (concat _)) in Hok.
    rewrite (decode_frames (SerializeToArray MSG)) in Hok; [|done|apply first_frame_nil]. cbn [mbind option_bind] in Hok.
    destruct Hok as (buf' & -> & _ & Hr & _). cbn [mbind outcome_bind]. rewrite deliver_all. by exists buf'.
Qed.

End CodecT.
End ProtobufCodecLiteT.
