(* ===== verification/NetCodecStream.v ===== *)
(** Two TcpConnections joined by a TCP byte stream, with ProtobufCodecLite as
    the message callback of both (src/muduo/net/TcpConnection.cc with
    src/muduo/net/protobuf/ProtobufCodecLite.cc).

    [codec_calls] is [ProtobufCodecLite::onMessage] seen from the connection: the
    calls it and the user's callbacks make on the connection, in order.  The
    world is the two connections and the number of bytes each has read of what
    the other's kernel took; a step is any step of one connection, or the arrival
    of any nonempty part of the unread bytes.  The file proves that whatever the
    segmentation, the partial writes, the buffering and the interleaving, each
    side delivers a prefix of the messages the other side accepted, without an
    error, and all of them once everything was read. *)

From S2P Require Import Prelude BaseTimestamp Endian BaseStringPiece NetBuffer NetChannel NetPoller NetTcpConnection.
From S2P Require Import NetProtobufCodec.

Module CodecStream.
Import TcpConnection.

Section Stream.
Context `{HO : HostOrder}.
Context {M : Type} (SerializeToArray : M -> bytes) (ParseFromArray : bytes -> option M) (adler32 : bytes -> Z).
Context (tag_ : bytes) (rawCb_ : option (bytes -> bool)).

#[local] Abbreviation frame := (ProtobufCodecLite.frame SerializeToArray adler32 tag_).
#[local] Abbreviation message_ok := (ProtobufCodecLite.message_ok SerializeToArray ParseFromArray adler32 tag_ rawCb_).
#[local] Abbreviation first_frame := (ProtobufCodecLite.first_frame ParseFromArray adler32 tag_ rawCb_).
#[local] Abbreviation decode := (ProtobufCodecLite.decode ParseFromArray adler32 tag_ rawCb_).
#[local] Abbreviation decode_loop := (ProtobufCodecLite.decode_loop ParseFromArray adler32 tag_ rawCb_).

(** * The codec as the connection's message callback *)

(** The user's code: what it calls on the connection in each callback. *)
Record app := mk_app {
  app_connection : TcpConnection.t -> list call;
  app_message : M -> list call;
  app_writeComplete : TcpConnection.t -> list call;
  app_highWaterMark : Z -> TcpConnection.t -> list call
}.

(** [onMessage] on the readable bytes [c]: the user's callback on each message
    and then [retrieve] of its frame; [defaultErrorCallback] shuts the
    connection down. *)
Fixpoint codec_calls (user : M -> list call) (fuel : nat) (c : bytes) : list call :=
  match fuel with
  | O => []
  | S fuel' =>
      match first_frame c with
      | ProtobufCodecLite.Wait => []
      | ProtobufCodecLite.Reject _ => [CShutdown]
      | ProtobufCodecLite.Consume m n =>
          match m with Some m => user m | None => [] end ++ CRetrieve n :: codec_calls user fuel' (zdrop n c)
      end
  end.

Definition codec_callbacks (a : app) : callbacks := {|
  on_connection := app_connection a;
  on_message _ s := let c := Buffer.content (inputBuffer_ s) in codec_calls (app_message a) (S (length c)) c;
  on_writeComplete := app_writeComplete a;
  on_highWaterMark := app_highWaterMark a
|}.

(** What the user may call: [codec.send(conn, message)], which sends the buffer
    [fillEmptyBuffer] made, and the calls that end the connection. *)
Definition is_frame (d : bytes) : Prop := exists m, message_ok m /\ d = frame m.
Definition call_ok (c : call) : Prop :=
  match c with
  | CSendBuffer buf wr => Buffer.wf buf /\ wr_ok wr /\ is_frame (Buffer.content buf)
  | CShutdown | CForceClose | CForceCloseWithDelay _ => True
  | _ => False
  end.
Record app_ok (a : app) : Prop := {
  ok_connection : forall s, Forall call_ok (app_connection a s);
  ok_message : forall m, Forall call_ok (app_message a m);
  ok_writeComplete : forall s, Forall call_ok (app_writeComplete a s);
  ok_highWaterMark : forall n s, Forall call_ok (app_highWaterMark a n s)
}.

(** * The world *)

(** A connection and the number of bytes it has read from the stream. *)
Record endpoint := mk_endpoint { conn : TcpConnection.t; got : Z }.

Inductive wstep :=
| Local (st : TcpConnection.step)
| Arrive (n : Z) (revents : Z) (time : Timestamp.t) (wr : bytes -> write_result).

(** readv(2) when [d] has arrived. *)
Definition segment (d : bytes) (iov : list Z) : Buffer.read_result :=
  if zlen d <=? foldr Z.add 0 iov then Buffer.ReadBytes d else Buffer.ReadError EWOULDBLOCK.

Definition unread (e p : endpoint) : bytes := zdrop (got e) (wire (conn p)).

Definition exec_at (a : app) (st : wstep) (e p : endpoint) : outcome endpoint :=
  match st with
  | Local st => s ← exec (codec_callbacks a) (conn e) st; Ok (mk_endpoint s (got e))
  | Arrive n revents time wr =>
      s ← exec (codec_callbacks a) (conn e) (Event revents time (segment (ztake n (unread e p))) wr);
      Ok (mk_endpoint s (got e + n))
  end.

(** The iovecs [readFd] offers, and what fits in them. *)
Definition room (b : Buffer.t) : Z :=
  let writable := Buffer.writableBytes b in
  foldr Z.add 0 (if writable <? Buffer.kExtrabufSize then [writable; Buffer.kExtrabufSize] else [writable]).

(** Data comes only with [Arrive]. *)
Definition no_data (rd : list Z -> Buffer.read_result) : Prop :=
  forall iov data, rd iov = Buffer.ReadBytes data -> data = [].
Definition frame_call (c : call) : Prop := call_ok c \/ c = CStartRead \/ c = CStopRead.
Definition local_ok (st : TcpConnection.step) : Prop :=
  match st with
  | Event _ _ rd _ => no_data rd
  | CallInLoop c | RemoteTest c => frame_call c
  | _ => True
  end.

Definition legal_at (st : wstep) (e p : endpoint) : Prop :=
  match st with
  | Local st => step_legal st (conn e) /\ local_ok st
  | Arrive n revents _ wr => phase_of (conn e) = Alive /\ wr_ok wr /\
      Channel.read_cond revents = true /\ Channel.close_cond revents = false /\
      1 <= n <= Z.min (zlen (unread e p)) (room (inputBuffer_ (conn e)))
  end.

Definition world : Type := endpoint * endpoint.
Context (app1 app2 : app).

(** [true] steps the first endpoint. *)
Definition exec_world (w : world) (st : bool * wstep) : outcome world :=
  if st.1 then e ← exec_at app1 st.2 w.1 w.2; Ok (e, w.2)
  else e ← exec_at app2 st.2 w.2 w.1; Ok (w.1, e).
Definition run_world (w : world) (sts : list (bool * wstep)) : outcome world := foldM exec_world w sts.
Fixpoint world_legal (sts : list (bool * wstep)) (w : world) : Prop :=
  match sts with
  | [] => True
  | st :: sts' =>
      (if st.1 then legal_at st.2 w.1 w.2 else legal_at st.2 w.2 w.1) /\
      forall w', exec_world w st = Ok w' -> world_legal sts' w'
  end.
Definition new_world (fda fdb : Z) : outcome world :=
  ca ← new_ fda; cb ← new_ fdb; Ok (mk_endpoint ca 0, mk_endpoint cb 0).

(** The calls of the codec's callbacks: each message callback of the connection
    runs [onMessage] on the readable bytes. *)
Definition decoded (es : list TcpConnection.effect) : list (ProtobufCodecLite.effect M) :=
  concat ((fun e => match e with
                    | Message c => match decode c with Some (ds, _) => ds | None => [] end
                    | _ => []
                    end) <$> es).

(** * What a step leaves of the two streams *)

Definition is_message (e : TcpConnection.effect) : bool := match e with Message _ => true | _ => false end.
Definition messages (es : list TcpConnection.effect) : list TcpConnection.effect := filter (fun e => is_message e = true) es.
Definition frame_pending (f : functor) : Prop := match f with FSend d => is_frame d | _ => True end.
Definition frames_waiting (s : TcpConnection.t) : Prop :=
  Forall frame_pending (pending s) /\ Forall (fun r => frame_call r.1) (remote s).
(** Readable data reaches [handleRead]. *)
Definition readable (c : Channel.t) : Prop :=
  Channel.hasCallback Channel.SlotRead c = true /\ (Channel.tied_ c = true -> Channel.tie_ c <> None).

(** The sending side: whole frames are accepted, the wire is extended. *)
Record sends (s s' : TcpConnection.t) : Prop := {
  sends_accepted : exists ds, Forall is_frame ds /\ accepted s' = accepted s ++ concat ds;
  sends_wire : exists d, wire s' = wire s ++ d;
  sends_pending : frames_waiting s -> frames_waiting s';
  sends_channel : readable (channel_ s) -> readable (channel_ s')
}.
(** The receiving side is as before. *)
Record quiet (s s' : TcpConnection.t) : Prop := {
  quiet_sends : sends s s';
  quiet_input : inputBuffer_ s' = inputBuffer_ s;
  quiet_messages : messages (effects s') = messages (effects s)
}.

Lemma sends_refl s : sends s s.
Proof. split; [exists []; by rewrite app_nil_r|exists []; by rewrite app_nil_r|done|done]. Qed.
Lemma sends_trans s1 s2 s3 : sends s1 s2 -> sends s2 s3 -> sends s1 s3.
Proof.
  intros [(ds1 & F1 & A1) (d1 & W1) P1 C1] [(ds2 & F2 & A2) (d2 & W2) P2 C2]. split; [| |auto|auto].
  - exists (ds1 ++ ds2). split; [by apply Forall_app|]. by rewrite A2, A1, concat_app, app_assoc.
  - exists (d1 ++ d2). by rewrite W2, W1, app_assoc.
Qed.
Lemma quiet_refl s : quiet s s.
Proof. split; [apply sends_refl|done|done]. Qed.
Lemma quiet_trans s1 s2 s3 : quiet s1 s2 -> quiet s2 s3 -> quiet s1 s3.
Proof. intros [? ? ?] [? ? ?]. split; [by eapply sends_trans|congruence|congruence]. Qed.

(** A change of the fields that neither stream is read from. *)
Lemma quiet_local s s' :
  accepted s' = accepted s -> wire s' = wire s -> (frames_waiting s -> frames_waiting s') ->
  (readable (channel_ s) -> readable (channel_ s')) -> inputBuffer_ s' = inputBuffer_ s ->
  messages (effects s') = messages (effects s) -> quiet s s'.
Proof.
  intros Ha Hw Hp Hc Hi He. split; [|done|done]. split; [| |done|done].
  - exists []. by rewrite Ha, app_nil_r.
  - exists []. by rewrite Hw, app_nil_r.
Qed.

Lemma messages_app es1 es2 : messages (es1 ++ es2) = messages es1 ++ messages es2.
Proof. apply filter_app. Qed.
Lemma quiet_emit e s : is_message e = false -> quiet s (emit e s).
Proof.
  intros He. apply quiet_local; try done. cbn. rewrite messages_app. unfold messages.
  rewrite (filter_cons_False _ e); [|by rewrite He]. by rewrite app_nil_r.
Qed.
Lemma quiet_queue f s : frame_pending f -> quiet s (queueInLoop f s).
Proof. intros Hf. apply quiet_local; try done. intros [Hs Hr]. split; [|done]. apply Forall_app. by repeat constructor. Qed.
Lemma quiet_change op s : quiet s (change op s).
Proof. by apply quiet_local. Qed.
Lemma quiet_state x s : quiet s (setState x s).
Proof. by apply quiet_local. Qed.

Lemma quiet_try_write wr data s n rem fault s1 : try_write wr data s = (n, rem, fault, s1) -> quiet s s1.
Proof.
  unfold try_write. destruct (_ && _); [destruct (wr data) as [k|e]|]; intros [= <- <- <- <-]; try apply quiet_refl.
  assert (quiet s (set_wire (wire s ++ ztake k data) s)) as Hq.
  { split; [|done|done]. split; [exists []; by rewrite app_nil_r|by eexists|done|done]. }
  destruct (_ && _); [|done]. eapply quiet_trans; [exact Hq|]. by apply quiet_queue.
Qed.

Lemma quiet_accept data s : is_frame data -> quiet s (set_accepted (accepted s ++ data) s).
Proof.
  intros Hd. split; [|done|done]. split; [|by exists []; rewrite app_nil_r|done|done].
  exists [data]. split; [by repeat constructor|]. cbn. by rewrite app_nil_r.
Qed.

Lemma quiet_sendInLoop wr data s s' : is_frame data -> sendInLoop wr data s = Ok s' -> quiet s s'.
Proof.
  intros Hd. unfold sendInLoop. destruct (decide _); [intros [= <-]; apply quiet_refl|].
  destruct (try_write wr data s) as [[[nwrote rem] fault] s1] eqn:E. apply quiet_try_write in E.
  destruct (rem <=? zlen data); [|done]. cbn [massert mbind outcome_bind].
  set (s2 := if fault then s1 else _).
  assert (quiet s s2) as H2.
  { subst s2. destruct fault; [done|]. eapply quiet_trans; [exact E|by apply quiet_accept]. }
  clearbody s2. destruct (_ && _); [|intros [= <-]; exact H2].
  set (s3 := if _ && _ && _ then _ else s2).
  assert (quiet s s3) as H3.
  { subst s3. destruct (_ && _ && _); [|done]. eapply quiet_trans; [exact H2|]. by apply quiet_queue. }
  clearbody s3. destruct (Buffer.append _ _ _) as [out|]; [|done]. cbn [mbind outcome_bind]. intros [= <-].
  eapply quiet_trans; [exact H3|]. destruct (Channel.isWriting _); by apply quiet_local.
Qed.

Lemma quiet_shutdownInLoop s : quiet s (shutdownInLoop s).
Proof. unfold shutdownInLoop. destruct (Channel.isWriting _); [apply quiet_refl|by apply quiet_emit]. Qed.

Lemma quiet_startRead inLoop s : quiet s (startRead inLoop s).
Proof.
  unfold startRead, startReadInLoop. destruct inLoop; [|by apply quiet_queue].
  destruct (_ || _); [by apply quiet_local|apply quiet_refl].
Qed.
Lemma quiet_stopRead inLoop s : quiet s (stopRead inLoop s).
Proof.
  unfold stopRead, stopReadInLoop. destruct inLoop; [|by apply quiet_queue].
  destruct (_ || _); [by apply quiet_local|apply quiet_refl].
Qed.

Lemma quiet_sendBuffer inLoop wr buf s buf' s' :
  Buffer.wf buf -> is_frame (Buffer.content buf) -> sendBuffer inLoop wr buf s = Ok (buf', s') -> quiet s s'.
Proof.
  intros Hwf Hf. unfold sendBuffer. destruct (decide _); [|intros [= _ <-]; apply quiet_refl].
  destruct inLoop.
  - rewrite read_buffer by done. cbn [mbind outcome_bind]. destruct (sendInLoop _ _ _) as [s1|] eqn:E; [|done].
    cbn [mbind outcome_bind]. intros [= _ <-]. by eapply quiet_sendInLoop.
  - unfold Buffer.retrieveAllAsString, Buffer.retrieveAsString. destruct (_ <=? _); [|done].
    cbn [massert mbind outcome_bind]. rewrite read_buffer by done. cbn [mbind outcome_bind].
    destruct (Buffer.retrieve _ _); [|done]. cbn [mbind outcome_bind]. intros [= _ <-]. by apply quiet_queue.
Qed.

Lemma quiet_call inLoop c s s' :
  frame_call c -> do_call inLoop c s = Ok s' -> quiet s s'.
Proof.
  intros [Hc|[-> | ->]]; [|intros [= <-]; apply quiet_startRead|intros [= <-]; apply quiet_stopRead].
  destruct c as [m wr|buf wr| | |sec| | |n|]; try done.
  - destruct Hc as (Hwf & _ & Hf). cbn [do_call].
    destruct (sendBuffer _ _ _ _) as [[buf' s1]|] eqn:E; [|done]. intros [= <-]. by eapply quiet_sendBuffer.
  - intros [= <-]. unfold shutdown. destruct (decide _); [|apply quiet_refl].
    eapply quiet_trans; [apply quiet_state|]. destruct inLoop; [apply quiet_shutdownInLoop|by apply quiet_queue].
  - intros [= <-]. unfold forceClose. destruct (forceClosable s); [|apply quiet_refl].
    eapply quiet_trans; [apply quiet_state|by apply quiet_queue].
  - intros [= <-]. unfold forceCloseWithDelay. destruct (forceClosable s); [|apply quiet_refl].
    eapply quiet_trans; [apply quiet_state|by apply quiet_emit].
Qed.

(** The parts of a call from another thread. *)
Lemma quiet_remote r s : (Forall (fun x => frame_call x.1) (remote s) -> Forall (fun x => frame_call x.1) r) -> quiet s (set_remote r s).
Proof. intros Hr. apply quiet_local; try done. intros [? ?]. split; [done|by apply Hr]. Qed.
Lemma quiet_remote_queue c s s' : frame_call c -> remote_queue c s = Ok s' -> quiet s s'.
Proof.
  intros [Hc|[-> | ->]]; [|intros [= <-]; by apply quiet_queue..].
  destruct c as [m wr|buf wr| | |sec| | |n|]; try done; cbn [remote_queue].
  - destruct Hc as (Hwf & _ & Hf). unfold Buffer.retrieveAllAsString, Buffer.retrieveAsString.
    destruct (_ <=? _); [|done]. cbn [massert mbind outcome_bind]. rewrite read_buffer by done. cbn [mbind outcome_bind].
    destruct (Buffer.retrieve _ _); [|done]. cbn [mbind outcome_bind]. intros [= <-]. by apply quiet_queue.
  - intros [= <-]. by apply quiet_queue.
  - intros [= <-]. by apply quiet_queue.
  - intros [= <-]. by apply quiet_emit.
Qed.

Lemma quiet_script cs s s' : Forall call_ok cs -> run_script s cs = Ok s' -> quiet s s'.
Proof.
  intros Hcs. revert s. induction Hcs as [|c cs Hc _ IH]; intros s; cbn; [intros [= <-]; apply quiet_refl|].
  destruct (do_call true c s) as [s1|] eqn:E; [|done]. cbn. intros Hr.
  eapply quiet_trans; [eapply quiet_call; [by left|exact E]|by apply IH].
Qed.

(** * The scripts are legal, and leave what [decode] leaves *)

Lemma calls_legal_app cs1 cs2 s :
  calls_legal cs1 s -> (forall s', run_script s cs1 = Ok s' -> calls_legal cs2 s') -> calls_legal (cs1 ++ cs2) s.
Proof.
  revert s. induction cs1 as [|c cs1 IH]; intros s H1 H2; cbn [Datatypes.app calls_legal]; [by apply H2|].
  destruct H1 as (Hc & H1). split; [done|]. intros s1 E. apply IH; [by apply H1|].
  intros s2 E2. apply H2. cbn. by rewrite E.
Qed.

Lemma run_script_app cs1 cs2 s : run_script s (cs1 ++ cs2) = (s' ← run_script s cs1; run_script s' cs2).
Proof. apply foldM_app. Qed.

(** A legal script keeps the invariant and the phase. *)
Lemma script_keeps cs s s' : inv s -> calls_legal cs s -> run_script s cs = Ok s' -> inv s' /\ phase_of s' = phase_of s.
Proof.
  intros Hi Hl E. pose proof (run_script_ok cs s Hi Hl) as Hok. rewrite E in Hok. destruct Hok as (? & Hk).
  split; [done|apply Hk].
Qed.

Lemma call_ok_legal c s : call_ok c -> phase_of s <> Opening -> call_legal c s.
Proof. intros Hc Hp. split; [done|]. destruct c; try done. by destruct Hc as (? & ? & _). Qed.

Lemma script_legal cs s : inv s -> phase_of s <> Opening -> Forall call_ok cs -> calls_legal cs s.
Proof.
  intros Hi Hp Hcs. revert s Hi Hp. induction Hcs as [|c cs Hc _ IH]; intros s Hi Hp; cbn [calls_legal]; [done|].
  pose proof (call_ok_legal c s Hc Hp) as Hl. split; [done|]. intros s' E.
  pose proof (do_call_ok true c s Hi Hl) as Hok. rewrite E in Hok. destruct Hok as (? & Hk). apply IH; [done|].
  by rewrite (keeps_phase _ _ Hk).
Qed.

Lemma retrieve_call n s : inv s -> phase_of s <> Opening -> 0 <= n <= zlen (Buffer.content (inputBuffer_ s)) ->
  call_legal (CRetrieve n) s /\ exists s', do_call true (CRetrieve n) s = Ok s' /\ inv s' /\ phase_of s' <> Opening /\
    sends s s' /\ messages (effects s') = messages (effects s) /\
    Buffer.content (inputBuffer_ s') = zdrop n (Buffer.content (inputBuffer_ s)).
Proof.
  intros Hi Hp Hn. split; [by split|]. cbn [do_call].
  destruct (Buffer.retrieve_ok n (inputBuffer_ s)) as (b' & -> & Hb' & Hc' & _); [apply Hi|lia|lia|].
  cbn [mbind outcome_bind]. eexists. split; [done|]. split; [by apply inv_input|]. split; [done|]. split; [|done].
  destruct (sends_refl s) as [A W P C]. by split.
Qed.

Lemma codec_script user fuel c s :
  (forall m, Forall call_ok (user m)) -> inv s -> phase_of s <> Opening -> Buffer.content (inputBuffer_ s) = c ->
  calls_legal (codec_calls user fuel c) s /\
  forall s' es rest, run_script s (codec_calls user fuel c) = Ok s' -> decode_loop fuel c = Some (es, rest) ->
    sends s s' /\ messages (effects s') = messages (effects s) /\ Buffer.content (inputBuffer_ s') = rest.
Proof.
  intros Hu. revert c s. induction fuel as [|fuel IH]; intros c s Hi Hp Hc; cbn [codec_calls ProtobufCodecLite.decode_loop].
  { split; [done|]. by intros. }
  destruct (first_frame c) as [|e|m n] eqn:Ef.
  - split; [done|]. intros s' es rest [= <-] [= _ <-]. split; [apply sends_refl|done].
  - split; [by split; [|done]|]. intros s' es rest E [= _ <-].
    apply quiet_script in E as [Hs Hin Hm]; [|by repeat constructor]. split; [done|]. split; [done|congruence].
  - set (cs := match m with Some m => user m | None => [] end).
    assert (Forall call_ok cs) as Hcs by (subst cs; destruct m; [apply Hu|done]). clearbody cs.
    pose proof (script_legal cs s Hi Hp Hcs) as Hl. apply ProtobufCodecLite.first_frame_progress in Ef.
    split.
    + apply calls_legal_app; [done|]. intros s1 E1. destruct (script_keeps _ _ _ Hi Hl E1) as (Hi1 & Hp1).
      apply quiet_script in E1 as [_ Hin _]; [|done].
      destruct (retrieve_call n s1) as (Hr & s2 & E2 & Hi2 & Hp2 & _ & _ & Hin2); [done|congruence|rewrite Hin, Hc; lia|].
      split; [done|]. intros s3 E3. rewrite E2 in E3. injection E3 as <-.
      apply IH; [done|done|]. by rewrite Hin2, Hin, Hc.
    + intros s' es rest E Ed. rewrite run_script_app in E.
      destruct (run_script s cs) as [s1|] eqn:E1; [|done]. destruct (script_keeps _ _ _ Hi Hl E1) as (Hi1 & Hp1).
      apply quiet_script in E1 as [Hs1 Hin Hm1]; [|done].
      destruct (retrieve_call n s1) as (_ & s2 & E2 & Hi2 & Hp2 & Hs2 & Hm2 & Hin2); [done|congruence|rewrite Hin, Hc; lia|].
      cbn [mbind outcome_bind run_script foldM] in E. rewrite E2 in E. cbn [mbind outcome_bind] in E.
      destruct (decode_loop fuel (zdrop n c)) as [[es' rest']|] eqn:Ed'; [|done]. injection Ed as _ <-.
      destruct (IH (zdrop n c) s2) as (_ & IH2); [done|done|by rewrite Hin2, Hin, Hc|].
      destruct (IH2 s' es' rest' E Ed') as (Hs3 & Hm3 & Hr3).
      split; [by eapply sends_trans; [|eapply sends_trans]|]. split; [congruence|done].
Qed.

Lemma codec_callbacks_legal a : app_ok a -> callbacks_legal (codec_callbacks a).
Proof.
  intros [Hc Hm Hw Hh] s Hi Hp. split_and!.
  - apply script_legal; [done|done|apply Hc].
  - intros time. by apply (codec_script (app_message a) _ (Buffer.content (inputBuffer_ s)) s).
  - apply script_legal; [done|done|apply Hw].
  - intros n. apply script_legal; [done|done|apply Hh].
Qed.

(** * The handlers *)

Section Handlers.
Context (a : app) (Ha : app_ok a).
#[local] Abbreviation cb := (codec_callbacks a).

Lemma quiet_connectionCallback s s' : connectionCallback cb s = Ok s' -> quiet s s'.
Proof.
  unfold connectionCallback. intros E. eapply quiet_trans; [|eapply quiet_script; [apply Ha|exact E]].
  apply quiet_emit. by destruct (connected s).
Qed.

Lemma quiet_handleClose s s' : handleClose cb s = Ok s' -> quiet s s'.
Proof.
  unfold handleClose. destruct (_ || _); [|done]. cbn [massert mbind outcome_bind].
  destruct (connectionCallback _ _) as [s1|] eqn:E; [|done]. intros [= <-]. apply quiet_connectionCallback in E.
  eapply quiet_trans; [|eapply quiet_trans; [exact E|]].
  - eapply quiet_trans; [apply quiet_state|apply quiet_change].
  - eapply quiet_trans; [by apply (quiet_emit Closed)|by apply quiet_queue].
Qed.

Lemma quiet_connectEstablished self s s' : connectEstablished cb self s = Ok s' -> quiet s s'.
Proof.
  unfold connectEstablished. destruct (bool_decide _); [|done]. cbn [massert mbind outcome_bind].
  intros E. apply quiet_connectionCallback in E. eapply quiet_trans; [|exact E].
  apply quiet_local; try done. intros [Hc _]. by split.
Qed.

Lemma quiet_connectDestroyed s s' : connectDestroyed cb s = Ok s' -> quiet s s'.
Proof.
  unfold connectDestroyed. set (r := if decide _ then _ else _). destruct r as [s1|] eqn:E; [|done]. subst r.
  assert (quiet s s1) as H1.
  { destruct (decide _); [|injection E as <-; apply quiet_refl]. apply quiet_connectionCallback in E.
    eapply quiet_trans; [|exact E]. eapply quiet_trans; [apply quiet_state|apply quiet_change]. }
  cbn [mbind outcome_bind]. unfold remove. destruct (Channel.isNoneEvent _); [|done]. intros [= <-].
  eapply quiet_trans; [exact H1|]. by apply quiet_local.
Qed.

Lemma quiet_handleWrite wr s s' : handleWrite wr s = Ok s' -> quiet s s'.
Proof.
  unfold handleWrite. destruct (Channel.isWriting _); [|intros [= <-]; apply quiet_refl].
  destruct (Buffer.read_mem _ _) as [data|]; [|done]. cbn [mbind outcome_bind].
  destruct (wr data) as [n|e]; [|intros [= <-]; apply quiet_refl].
  destruct (0 <? n); [|intros [= <-]; apply quiet_refl].
  destruct (Buffer.retrieve _ _) as [out|]; [|done]. cbn [mbind outcome_bind].
  set (s1 := set_output _ _).
  assert (quiet s s1) as H1.
  { split; [|done|done]. split; [exists []; by rewrite app_nil_r|by eexists|done|done]. }
  clearbody s1. destruct (_ =? 0); [|intros [= <-]; exact H1].
  set (s2 := if writeCompleteCallback_ _ then _ else _).
  assert (quiet s s2) as H2.
  { eapply quiet_trans; [exact H1|]. eapply quiet_trans; [apply (quiet_change Channel.DisableWriting)|].
    subst s2. destruct (writeCompleteCallback_ _); [by apply quiet_queue|apply quiet_refl]. }
  clearbody s2. intros [= <-]. destruct (decide _); [|done].
  eapply quiet_trans; [exact H2|apply quiet_shutdownInLoop].
Qed.

Lemma quiet_functor wr f s s' : frame_pending f -> run_functor cb wr f s = Ok s' -> quiet s s'.
Proof.
  intros Hf. destruct f; cbn [run_functor].
  - intros E. by eapply quiet_sendInLoop.
  - intros [= <-]. apply quiet_shutdownInLoop.
  - unfold forceCloseInLoop. destruct (forceClosable s); [apply quiet_handleClose|intros [= <-]; apply quiet_refl].
  - intros [= <-]. apply (quiet_startRead true).
  - intros [= <-]. apply (quiet_stopRead true).
  - intros E. eapply quiet_trans; [by apply (quiet_emit WriteComplete)|]. eapply quiet_script; [|exact E]. apply Ha.
  - intros E. eapply quiet_trans; [by apply (quiet_emit (HighWaterMark len))|]. eapply quiet_script; [|exact E]. apply Ha.
  - apply quiet_connectDestroyed.
Qed.

(** ** [handleRead] *)

Lemma no_data_handleRead rd time s s' :
  Buffer.wf (inputBuffer_ s) -> no_data rd -> handleRead cb rd time s = Ok s' -> quiet s s'.
Proof.
  intros Hwf Hrd. unfold handleRead, Buffer.readFd. set (b := inputBuffer_ s) in *.
  assert (set_input b s = s) as Hs by by destruct s.
  destruct (rd _) as [e|data] eqn:E.
  - cbn [mbind outcome_bind]. rewrite Hs. cbn. intros [= <-]. by apply quiet_emit.
  - apply Hrd in E as ->. unfold Buffer.write_at. assert (Hwf2 := Hwf). unfold Buffer.wf, Buffer.vector_max_size in Hwf2.
    assert (0 <= Buffer.writableBytes b) by (apply uwrap_range; lia). change (zlen (@nil Z)) with 0.
    assert (ztake (Buffer.writableBytes b) [] = []) as -> by apply take_nil. change (zlen (@nil Z)) with 0. rewrite Z.add_0_r, app_nil_l, ztake_zdrop.
    destruct ((0 <=? _) && _); [|done]. cbn [mbind outcome_bind]. destruct (Z.leb_spec 0 (Buffer.writableBytes b)); [|lia].
    cbn [mbind outcome_bind]. rewrite ?Z.add_0_r. unfold u64. rewrite uwrap_small by (lia || (unfold urange; lia)).
    assert (Buffer.mk (Buffer.buffer_ b) (Buffer.readerIndex_ b) (Buffer.writerIndex_ b) = b) as -> by by destruct b.
    rewrite Hs. cbn. by apply quiet_handleClose.
Qed.

(** Data arrived: the codec handles what is readable now. *)
Record reads (d : bytes) (s s' : TcpConnection.t) : Prop := {
  reads_sends : sends s s';
  reads_message : messages (effects s') = messages (effects s) ++ [Message (Buffer.content (inputBuffer_ s) ++ d)];
  reads_rest : forall es rest, decode (Buffer.content (inputBuffer_ s) ++ d) = Some (es, rest) ->
    Buffer.content (inputBuffer_ s') = rest
}.
Lemma quiet_reads d s1 s2 s3 : quiet s1 s2 -> reads d s2 s3 -> reads d s1 s3.
Proof. intros [? Hi Hm] [? Hm2 Hr]. rewrite Hi in *. split; [by eapply sends_trans|congruence|done]. Qed.
Lemma reads_quiet d s1 s2 s3 : reads d s1 s2 -> quiet s2 s3 -> reads d s1 s3.
Proof. intros [? ? ?] [? Hi Hm]. split; [by eapply sends_trans|congruence|by rewrite Hi]. Qed.

Lemma segment_bounded d : Buffer.readv_bounded (segment d).
Proof.
  intros iov data _. unfold segment. destruct (Z.leb_spec (zlen d) (foldr Z.add 0 iov)); [|done]. by intros [= <-].
Qed.

Lemma data_handleRead d time s s' :
  inv s -> phase_of s = Alive -> 1 <= zlen d <= room (inputBuffer_ s) ->
  handleRead cb (segment d) time s = Ok s' -> reads d s s'.
Proof.
  intros Hi Hp Hd. unfold handleRead.
  destruct (Buffer.readFd_or_throw (segment d) (inputBuffer_ s) d) as [(b' & -> & Hb' & Hc')| ->];
    [apply Hi|apply segment_bounded| | |done].
  { unfold segment. unfold room in Hd. destruct (Z.leb_spec (zlen d) (foldr Z.add 0
      (if Buffer.writableBytes (inputBuffer_ s) <? Buffer.kExtrabufSize
       then [Buffer.writableBytes (inputBuffer_ s); Buffer.kExtrabufSize]
       else [Buffer.writableBytes (inputBuffer_ s)]))); [done|lia]. }
  cbn [mbind outcome_bind]. destruct (Z.ltb_spec 0 (zlen d)); [|lia].
  set (s1 := emit _ _). intros E.
  assert (inv s1) as Hi1 by (apply inv_emit; [by apply inv_input|done..]).
  assert (phase_of s1 <> Opening) as Hp1 by (unfold phase_of in *; cbn; by destruct (state_ s)).
  destruct (codec_script (app_message a) (S (length (Buffer.content b'))) (Buffer.content b') s1) as (_ & Hrun);
    [apply Ha|done|done|done|].
  destruct (ProtobufCodecLite.decode_loop_fuel ParseFromArray adler32 tag_ rawCb_ (S (length (Buffer.content b')))
    (S (length (Buffer.content b'))) (Buffer.content b')) as (_ & Hne); [lia|lia|].
  destruct (decode_loop _ _) as [[es rest]|] eqn:Ed; [|done].
  destruct (Hrun s' es rest E eq_refl) as (Hs & Hm & Hr). split; rewrite <-?Hc'.
  - eapply sends_trans; [|exact Hs]. destruct (sends_refl s) as [A W P C]. by split.
  - rewrite Hm. cbn. apply messages_app.
  - intros es' rest'. unfold ProtobufCodecLite.decode. rewrite Ed. intros [= _ <-]. done.
Qed.

(** ** [handleEvent] *)

Lemma quiet_invoke rd wr sl time s s' :
  Buffer.wf (inputBuffer_ s) -> no_data rd -> invoke cb rd wr sl time s = Ok s' -> quiet s s'.
Proof.
  intros Hwf Hrd. destruct sl; cbn [invoke].
  - by apply no_data_handleRead.
  - apply quiet_handleWrite.
  - apply quiet_handleClose.
  - intros [= <-]. by apply quiet_emit.
Qed.

Lemma quiet_fire rd wr cond sl time s s' :
  (sl = Channel.SlotRead -> Buffer.wf (inputBuffer_ s) /\ no_data rd) ->
  Channel.fire channel_ (invoke cb rd wr) cond sl time s = Ok s' -> quiet s s'.
Proof.
  intros Hsl. unfold Channel.fire. destruct (cond _); [|intros [= <-]; apply quiet_refl].
  destruct (Channel.hasCallback _ _); [|intros [= <-]; apply quiet_refl].
  destruct sl; cbn [invoke].
  - destruct Hsl; [done|]. by apply no_data_handleRead.
  - apply quiet_handleWrite.
  - apply quiet_handleClose.
  - intros [= <-]. by apply quiet_emit.
Qed.

Lemma quiet_handling h s : quiet s (set_channel (Channel.set_eventHandling h (channel_ s)) s).
Proof. by apply quiet_local. Qed.

Lemma quiet_event rd wr time s s' :
  Buffer.wf (inputBuffer_ s) -> no_data rd ->
  Channel.handleEventWithGuard channel_ set_channel (invoke cb rd wr) time s = Ok s' -> quiet s s'.
Proof.
  intros Hwf Hrd. unfold Channel.handleEventWithGuard.
  set (s0 := set_channel _ s). assert (quiet s s0) as H0 by apply quiet_handling. clearbody s0.
  destruct (Channel.fire _ _ _ Channel.SlotClose _ s0) as [s1|] eqn:E1; [|done]. apply quiet_fire in E1; [|done].
  cbn [mbind outcome_bind].
  destruct (Channel.fire _ _ _ Channel.SlotError _ s1) as [s2|] eqn:E2; [|done]. apply quiet_fire in E2; [|done].
  cbn [mbind outcome_bind].
  destruct (Channel.fire _ _ _ Channel.SlotRead _ s2) as [s3|] eqn:E3; [|done]. apply quiet_fire in E3.
  2: { intros _. split; [|done]. by rewrite (quiet_input _ _ E2), (quiet_input _ _ E1), (quiet_input _ _ H0). }
  cbn [mbind outcome_bind].
  destruct (Channel.fire _ _ _ Channel.SlotWrite _ s3) as [s4|] eqn:E4; [|done]. apply quiet_fire in E4; [|done].
  cbn [mbind outcome_bind]. intros [= <-].
  do 5 (eapply quiet_trans; [eassumption|]). apply quiet_handling.
Qed.

Lemma reads_event d wr time s s' :
  inv s -> phase_of s = Alive -> readable (channel_ s) -> 1 <= zlen d <= room (inputBuffer_ s) ->
  Channel.read_cond (Channel.revents_ (channel_ s)) = true ->
  Channel.close_cond (Channel.revents_ (channel_ s)) = false ->
  Channel.handleEventWithGuard channel_ set_channel (invoke cb (segment d) wr) time s = Ok s' -> reads d s s'.
Proof.
  intros Hi Hp [Hcall _] Hd Hr Hcl. unfold Channel.handleEventWithGuard.
  set (s0 := set_channel _ s). assert (quiet s s0) as H0 by apply quiet_handling.
  assert (inv s0) as Hi0 by by destruct Hi.
  assert (Channel.fire channel_ (invoke cb (segment d) wr) Channel.close_cond Channel.SlotClose time s0 = Ok s0) as ->.
  { unfold Channel.fire. change (Channel.revents_ (channel_ s0)) with (Channel.revents_ (channel_ s)). by rewrite Hcl. }
  cbn [mbind outcome_bind].
  assert (exists s2, Channel.fire channel_ (invoke cb (segment d) wr) Channel.error_cond Channel.SlotError time s0 = Ok s2 /\
    inv s2 /\ phase_of s2 = Alive /\ quiet s0 s2 /\ channel_ s2 = channel_ s0 /\ inputBuffer_ s2 = inputBuffer_ s)
    as (s2 & -> & Hi2 & Hp2 & Hq2 & Hch & Hin).
  { unfold Channel.fire. destruct (Channel.error_cond _); [destruct (Channel.hasCallback Channel.SlotError _)|].
    - exists (emit SocketError s0). split; [done|]. split; [by apply inv_emit|]. split; [done|]. split; [by apply quiet_emit|done].
    - exists s0. split_and!; try done. apply quiet_refl.
    - exists s0. split_and!; try done. apply quiet_refl. }
  cbn [mbind outcome_bind].
  assert (Channel.fire channel_ (invoke cb (segment d) wr) Channel.read_cond Channel.SlotRead time s2 =
    handleRead cb (segment d) time s2) as ->.
  { unfold Channel.fire. rewrite Hch. change (Channel.revents_ (channel_ s0)) with (Channel.revents_ (channel_ s)).
    change (Channel.hasCallback Channel.SlotRead (channel_ s0)) with (Channel.hasCallback Channel.SlotRead (channel_ s)).
    by rewrite Hr, Hcall. }
  cbn [mbind outcome_bind].
  destruct (handleRead _ _ _ s2) as [s3|] eqn:E3; [|done]. apply data_handleRead in E3; [|done|done|by rewrite Hin].
  cbn [mbind outcome_bind].
  destruct (Channel.fire _ _ _ Channel.SlotWrite _ s3) as [s4|] eqn:E4; [|done]. apply quiet_fire in E4; [|done].
  cbn [mbind outcome_bind]. intros [= <-].
  eapply quiet_reads; [exact H0|]. eapply quiet_reads; [exact Hq2|]. eapply reads_quiet; [exact E3|].
  eapply quiet_trans; [exact E4|]. apply quiet_handling.
Qed.

(** ** The steps *)

Lemma local_step_quiet st s s' :
  inv s -> frames_waiting s -> local_ok st -> exec cb s st = Ok s' -> quiet s s'.
Proof.
  intros Hi Hpend Hl. destruct st as [self|revents time rd wr|wr| |c|c|i|i]; cbn [exec local_ok] in *.
  - by apply quiet_connectEstablished.
  - set (s1 := set_channel _ s).
    assert (quiet s s1) as H1 by by apply quiet_local. assert (Buffer.wf (inputBuffer_ s1)) as Hwf by apply Hi.
    clearbody s1. unfold Channel.handleEvent. intros E. eapply quiet_trans; [exact H1|].
    destruct (Channel.tied_ _); [destruct (Channel.tie_ _)|]; try (injection E as <-; apply quiet_refl);
      by eapply quiet_event.
  - destruct (pending s) as [|f fs] eqn:Ep; [intros [= <-]; apply quiet_refl|].
    destruct Hpend as [Hfp Hrem]. rewrite Ep in Hfp. apply Forall_cons in Hfp as [Hf Hfs]. intros E.
    apply quiet_functor in E; [|done]. eapply quiet_trans; [|exact E]. by apply quiet_local.
  - by apply quiet_connectDestroyed.
  - by apply quiet_call.
  - intros [= <-]. destruct (remote_test c s); [|apply quiet_refl]. apply quiet_remote. intros Hr.
    apply Forall_app. split; [done|by apply Forall_singleton].
  - destruct (remote s !! i) as [[c []]|] eqn:Er; [intros [= <-]; apply quiet_refl| |intros [= <-]; apply quiet_refl].
    intros [= <-]. apply (quiet_trans _ (remote_write c s)); [destruct c; apply quiet_refl || apply quiet_state|].
    assert (remote (remote_write c s) = remote s) as <- by by destruct c.
    apply quiet_remote. intros Hr. apply Forall_insert; [done|].
    by apply (Forall_lookup_1 _ _ _ _ (proj2 Hpend)) in Er.
  - destruct (remote s !! i) as [[c []]|] eqn:Er; [|intros [= <-]; apply quiet_refl..].
    apply (Forall_lookup_1 _ _ _ _ (proj2 Hpend)) in Er. intros E.
    eapply quiet_trans; [apply quiet_remote, Forall_delete|by eapply quiet_remote_queue].
Qed.

Lemma reads_step d revents wr time s s' :
  inv s -> phase_of s = Alive -> readable (channel_ s) -> 1 <= zlen d <= room (inputBuffer_ s) ->
  Channel.read_cond revents = true -> Channel.close_cond revents = false ->
  exec cb s (Event revents time (segment d) wr) = Ok s' -> reads d s s'.
Proof.
  intros Hi Hp Hch Hd Hr Hcl. cbn [exec]. set (s1 := set_channel _ s).
  assert (quiet s s1) as H1 by by apply quiet_local.
  assert (inv s1 /\ phase_of s1 = Alive /\ readable (channel_ s1)) as (Hi1 & Hp1 & Hch1) by (split; [by destruct Hi|done]).
  intros E. eapply quiet_reads; [exact H1|]. unfold Channel.handleEvent in E.
  destruct (Channel.tied_ (channel_ s1)) eqn:Et; [destruct (Channel.tie_ (channel_ s1)) eqn:Eti|].
  - by eapply reads_event.
  - by destruct Hch1 as [_ []].
  - by eapply reads_event.
Qed.

End Handlers.

(** ** [codec_calls] is [onMessage]

    With a user who only listens, the calls leave the connection that
    [onMessage] on its input buffer and [defaultErrorCallback] leave. *)
Lemma codec_calls_onMessage fuel s es buf' :
  ProtobufCodecLite.tag_fits tag_ -> Buffer.wf (inputBuffer_ s) -> Forall is_byte (Buffer.buffer_ (inputBuffer_ s)) ->
  ProtobufCodecLite.onMessage ParseFromArray adler32 tag_ rawCb_ fuel (inputBuffer_ s) = Ok (Some (es, buf')) ->
  run_script s (codec_calls (fun _ => []) fuel (Buffer.content (inputBuffer_ s))) =
  Ok (foldl (fun s e => match e with
                        | ProtobufCodecLite.Failed _ => ProtobufCodecLite.defaultErrorCallback s
                        | _ => s
                        end) (set_input buf' s) es).
Proof.
  intros Htag. revert s es. induction fuel as [|fuel IH]; intros s es Hwf Hby; [done|].
  pose proof (ProtobufCodecLite.onMessage_iter_ok ParseFromArray adler32 tag_ rawCb_ (inputBuffer_ s) Htag Hwf Hby) as Hit.
  cbn [ProtobufCodecLite.onMessage codec_calls].
  assert (set_input (inputBuffer_ s) s = s) as Hs by by destruct s.
  destruct (first_frame _) as [|e|m n].
  - rewrite Hit. cbn. intros [= <- <-]. by rewrite Hs.
  - rewrite Hit. cbn. intros [= <- <-]. cbn. rewrite Hs.
    unfold ProtobufCodecLite.defaultErrorCallback, connected, shutdown. rewrite bool_decide_decide.
    by destruct (decide _).
  - destruct Hit as (b & -> & Hwf1 & Hby1 & Hc & Hn & Er). cbn [mbind outcome_bind]. intros E.
    destruct (ProtobufCodecLite.onMessage _ _ _ _ fuel b) as [[[es' b2]|]|] eqn:E2; [|done..].
    injection E as <- <-. rewrite run_script_app.
    assert (run_script s (match m with Some _ => [] | None => [] end) = Ok s) as -> by by destruct m.
    cbn [mbind outcome_bind run_script foldM do_call]. rewrite Er. cbn [mbind outcome_bind].
    rewrite foldl_app. specialize (IH (set_input b s) es' Hwf1 Hby1 E2). cbn [inputBuffer_ set_input] in IH.
    rewrite <-Hc. etrans; [exact IH|]. destruct m; done.
Qed.

(** [codec.send(conn, message)] sends a buffer the user may send. *)
Lemma codec_send_call m wr :
  message_ok m -> wr_ok wr -> exists b buf, Buffer.new_ Buffer.kInitialSize = Ok b /\
    ProtobufCodecLite.fillEmptyBuffer SerializeToArray adler32 tag_ m b = Ok buf /\ call_ok (CSendBuffer buf wr).
Proof.
  intros Hm Hwr. destruct (Buffer.new_ok Buffer.kInitialSize) as (b & E & Hb & Hc & Hr); [done|done|].
  destruct (ProtobufCodecLite.fillEmptyBuffer_ok SerializeToArray adler32 tag_ m b) as (buf & Ef & Hwf & Hcf).
  - split; [done|]. split; [done|]. unfold Buffer.new_ in E. vm_compute in E. injection E as <-. by vm_compute.
  - by destruct Hm as (_ & ? & _).
  - exists b, buf. split; [done|]. split; [done|]. cbn. split; [done|]. split; [done|]. by exists m.
Qed.

(** * The invariant of the world *)

Record endpoint_ok (e : endpoint) : Prop := {
  ep_inv : inv (conn e);
  ep_pending : frames_waiting (conn e);
  ep_readable : readable (channel_ (conn e))
}.

(** What [e] has received of the messages [p] accepted. *)
Definition stream (e p : endpoint) : Prop := exists ms1 ms2,
  Forall message_ok (ms1 ++ ms2) /\ accepted (conn p) = concat (frame <$> ms1 ++ ms2) /\
  decoded (effects (conn e)) = ProtobufCodecLite.Delivered <$> ms1 /\
  0 <= got e <= zlen (wire (conn p)) /\
  ztake (got e) (wire (conn p)) = concat (frame <$> ms1) ++ Buffer.content (inputBuffer_ (conn e)) /\
  first_frame (Buffer.content (inputBuffer_ (conn e))) = ProtobufCodecLite.Wait.

Lemma decoded_app es1 es2 : decoded (es1 ++ es2) = decoded es1 ++ decoded es2.
Proof. unfold decoded. by rewrite fmap_app, concat_app. Qed.
Lemma decoded_messages es : decoded es = decoded (messages es).
Proof.
  induction es as [|e es IH]; [done|]. change (e :: es) with ([e] ++ es). rewrite messages_app, !decoded_app, IH.
  f_equal. by destruct e.
Qed.

Lemma frames_of ds : Forall is_frame ds -> exists ms, Forall message_ok ms /\ concat ds = concat (frame <$> ms).
Proof.
  induction 1 as [|d ds (m & Hm & ->) _ (ms & Hms & IH)]; [by exists []|]. exists (m :: ms).
  split; [by constructor|]. cbn. by rewrite IH.
Qed.

Lemma stream_quiet e p s : quiet (conn e) s -> stream e p -> stream (mk_endpoint s (got e)) p.
Proof.
  intros [_ Hi Hm] (ms1 & ms2 & Hok & Ha & Hd & Hg & Ht & Hf). exists ms1, ms2. cbn [conn got].
  rewrite Hi, decoded_messages, Hm, <-decoded_messages. done.
Qed.

(** The sender's steps only add to what it has accepted and to the wire. *)
Lemma stream_sends e p p' : sends (conn p) (conn p') -> stream e p -> stream e p'.
Proof.
  intros [(ds & Hds & Ha') (d & Hw) _ _] (ms1 & ms2 & Hok & Ha & Hd & Hg & Ht & Hf).
  destruct (frames_of ds Hds) as (ms & Hms & Hc). exists ms1, (ms2 ++ ms).
  rewrite app_assoc, Forall_app. split; [done|]. split.
  { by rewrite Ha', Ha, Hc, <-concat_app, <-fmap_app. }
  rewrite Hw, ztake_app_le by lia. split; [done|]. split; [zlia|done].
Qed.

Lemma stream_reads e p s n :
  inv (conn p) -> 1 <= n <= zlen (unread e p) -> reads (ztake n (unread e p)) (conn e) s -> stream e p ->
  stream (mk_endpoint s (got e + n)) p.
Proof.
  intros Hi Hn [_ Hm Hr] (ms1 & ms2 & Hok & Ha & Hd & Hg & Ht & Hf). unfold unread in *.
  set (c := Buffer.content (inputBuffer_ (conn e))) in *. set (w := wire (conn p)) in *.
  set (d := ztake n (zdrop (got e) w)) in *. apply Forall_app in Hok as [Hok1 Hok2].
  assert (ztake (got e + n) w = concat (frame <$> ms1) ++ c ++ d) as Ht'.
  { rewrite app_assoc, <-Ht, <-(ztake_zdrop (got e) w) at 1. rewrite <-(ztake_zdrop n (zdrop (got e) w)). fold d.
    rewrite app_assoc. apply ztake_app_exact. subst d. zlia. }
  assert ((c ++ d) ++ (zdrop (got e + n) w ++ Buffer.content (outputBuffer_ (conn p))) = concat (frame <$> ms2)) as Hall.
  { apply (app_inv_head (concat (frame <$> ms1))). rewrite <-concat_app, <-fmap_app, <-Ha, (inv_stream _ Hi). fold w.
    rewrite !app_assoc. rewrite <-(app_assoc (concat _)), <-Ht', ztake_zdrop. done. }
  destruct (ProtobufCodecLite.frames_split SerializeToArray ParseFromArray adler32 tag_ rawCb_ ms2 (c ++ d) _ Hok2 Hall)
    as (ms21 & ms22 & tl & -> & Hcd & _ & Hw).
  apply Forall_app in Hok2 as [Hok21 Hok22].
  assert (decode (c ++ d) = Some (ProtobufCodecLite.Delivered <$> ms21, tl)) as Hdec
    by (rewrite Hcd; by apply ProtobufCodecLite.decode_frames).
  exists (ms1 ++ ms21), ms22. cbn [conn got]. rewrite (Hr _ _ Hdec). split.
  { rewrite !Forall_app. done. }
  split; [by rewrite <-app_assoc|]. split.
  { rewrite decoded_messages, Hm, decoded_app, <-decoded_messages, Hd, fmap_app. f_equal.
    unfold decoded. cbn [fmap list_fmap concat]. rewrite Hdec. by rewrite app_nil_r. }
  rewrite zlen_zdrop in Hn. fold w. split; [lia|]. split; [|done].
  by rewrite Ht', Hcd, fmap_app, concat_app, <-app_assoc.
Qed.

(** A step keeps its endpoint and both streams. *)
Lemma exec_at_ok a st e p :
  app_ok a -> endpoint_ok e -> endpoint_ok p -> stream e p -> stream p e -> legal_at st e p ->
  ok_or_throw (exec_at a st e p) (fun e' => endpoint_ok e' /\ stream e' p /\ stream p e').
Proof.
  intros Ha [Hi Hpe Hch] [Hip _ _] Hs Hs' Hl. pose proof (codec_callbacks_legal a Ha) as Hcb.
  assert (forall s n, inv s -> sends (conn e) s -> endpoint_ok (mk_endpoint s n)) as Hep.
  { intros s n Hi' [_ _ Hp' Hc']. split; cbn [conn]; auto. }
  destruct st as [st|n revents time wr]; cbn [exec_at legal_at] in *.
  - destruct Hl as (Hst & Hloc). pose proof (conn_exec_ok _ Hcb st (conn e) Hi Hst) as Hok.
    destruct (exec _ _ st) as [s|[]] eqn:E; cbn in *; try done. apply local_step_quiet in E; [|done..].
    split; [by apply Hep, E|]. split; [by apply stream_quiet|]. apply (stream_sends p e); [apply E|done].
  - destruct Hl as (Hp & Hwr & Hr & Hcl & Hn).
    assert (step_legal (Event revents time (segment (ztake n (unread e p))) wr) (conn e)) as Hst.
    { split; [done|]. split; [intros Hc; congruence|]. split; [apply segment_bounded|done]. }
    pose proof (conn_exec_ok _ Hcb _ (conn e) Hi Hst) as Hok.
    destruct (exec _ _ _) as [s|[]] eqn:E; cbn in *; try done. apply reads_step in E; [|done..|zlia|done|done].
    split; [by apply Hep, E|]. split; [apply stream_reads; [done|lia|done|done]|].
    apply (stream_sends p e); [apply E|done].
Qed.

Definition world_ok (w : world) : Prop :=
  endpoint_ok w.1 /\ endpoint_ok w.2 /\ stream w.1 w.2 /\ stream w.2 w.1.

Context (Happ1 : app_ok app1) (Happ2 : app_ok app2).

Lemma run_world_ok sts w : world_ok w -> world_legal sts w -> ok_or_throw (run_world w sts) world_ok.
Proof.
  revert w. induction sts as [|[[] st] sts IH]; intros [e p] (He & Hp & Hs & Hs') Hl; cbn; [done|..];
    destruct Hl as (Hst & Hl); cbn in Hst, Hl.
  - pose proof (exec_at_ok app1 st e p Happ1 He Hp Hs Hs' Hst) as Hok. unfold exec_world in *. cbn in *.
    destruct (exec_at app1 st e p) as [e'|[]]; cbn in *; try done.
    destruct Hok as (? & ? & ?). apply IH; [done|by apply Hl].
  - pose proof (exec_at_ok app2 st p e Happ2 Hp He Hs' Hs Hst) as Hok. unfold exec_world in *. cbn in *.
    destruct (exec_at app2 st p e) as [p'|[]]; cbn in *; try done.
    destruct Hok as (? & ? & ?). apply IH; [done|by apply Hl].
Qed.

Lemma new_world_ok fda fdb : exists w, new_world fda fdb = Ok w /\ world_ok w.
Proof.
  unfold new_world.
  assert (forall fd, exists s, new_ fd = Ok s /\ inv s /\ frames_waiting s /\ readable (channel_ s) /\ accepted s = [] /\
    wire s = [] /\ effects s = [] /\ Buffer.content (inputBuffer_ s) = []) as Hnew.
  { intros fd. destruct (new_inv fd) as (s & E & Hi & _). exists s. split; [done|]. split; [done|].
    unfold new_ in E. destruct (Buffer.new_ok Buffer.kInitialSize) as (b & Eb & _ & Hc & _); [done|done|].
    rewrite Eb in E. cbn in E. injection E as <-. cbn. split; [by split; constructor|]. by split_and!. }
  destruct (Hnew fda) as (sa & -> & Hia & Hpa & Hca & Haa & Hwa & Hea & Hba).
  destruct (Hnew fdb) as (sb & -> & Hib & Hpb & Hcb & Hab & Hwb & Heb & Hbb). cbn [mbind outcome_bind].
  eexists. split; [done|]. unfold world_ok, stream. cbn [fst snd conn got].
  assert (first_frame [] = ProtobufCodecLite.Wait) as Hn by apply ProtobufCodecLite.first_frame_nil.
  split; [by split|]. split; [by split|].
  split; exists [], []; [rewrite Hab, Hea, Hwb, Hba|rewrite Haa, Heb, Hwa, Hbb]; by split_and!.
Qed.


End Stream.

(** ** A witness: the first connection sends two messages when it is
    established, through a kernel that first takes five bytes; they arrive in
    two segments; the second replies to each. *)

Definition ex_all (d : bytes) : write_result := Wrote (zlen d).
Definition ex_five (d : bytes) : write_result := Wrote (Z.min 5 (zlen d)).
Definition ex_none (iov : list Z) : Buffer.read_result := Buffer.ReadError EWOULDBLOCK.
Definition ex_frame (m : string) : Buffer.t :=
  ProtobufCodecLite.example_input (ProtobufCodecLite.frame (fun s : bytes => s) ProtobufCodecLite.adler32
    ProtobufCodecLite.example_tag (lit m)).
Definition ex_app1 : app (M := bytes) := {|
  app_connection s := if connected s then [CSendBuffer (ex_frame "hi") ex_five; CSendBuffer (ex_frame "you") ex_all] else [];
  app_message _ := []; app_writeComplete _ := []; app_highWaterMark _ _ := [] |}.
Definition ex_app2 : app (M := bytes) := {|
  app_connection _ := []; app_message _ := [CSendBuffer (ex_frame "ok") ex_all];
  app_writeComplete _ := []; app_highWaterMark _ _ := [] |}.
Definition ex_steps : list (bool * wstep) :=
  [(true, Local (Establish 1)); (false, Local (Establish 1));
   (false, Arrive 3 Channel.POLLIN 0 ex_all);
   (true, Local (Event Channel.POLLOUT 0 ex_none ex_all));
   (false, Arrive 26 Channel.POLLIN 0 ex_all);
   (true, Arrive 28 Channel.POLLIN 0 ex_all)].

#[local] Abbreviation ex_call_ok :=
  (call_ok (fun s : bytes => s) Some ProtobufCodecLite.adler32 ProtobufCodecLite.example_tag None).
#[local] Abbreviation ex_world_legal :=
  (world_legal (fun s : bytes => s) Some ProtobufCodecLite.adler32 ProtobufCodecLite.example_tag None ex_app1 ex_app2).
#[local] Abbreviation ex_run :=
  (run_world Some ProtobufCodecLite.adler32 ProtobufCodecLite.example_tag None ex_app1 ex_app2).

Lemma ex_all_ok : wr_ok ex_all.
Proof. intros d n [= <-]. pose proof (zlen_nonneg d). lia. Qed.
Lemma ex_five_ok : wr_ok ex_five.
Proof. intros d n [= <-]. pose proof (zlen_nonneg d). lia. Qed.

Lemma ex_send_ok m wr : wr_ok wr -> m = "hi"%string \/ m = "you"%string \/ m = "ok"%string ->
  ex_call_ok (CSendBuffer (ex_frame m) wr).
Proof.
  intros Hwr Hm. cbn. split; [destruct Hm as [->|[->| ->]]; vm_compute; repeat split; discriminate|]. split; [done|].
  exists (lit m). split; destruct Hm as [->|[->| ->]]; [vm_compute; repeat split; discriminate..|reflexivity|reflexivity|reflexivity].
Qed.

Lemma ex_app1_ok : app_ok (fun s : bytes => s) Some ProtobufCodecLite.adler32 ProtobufCodecLite.example_tag None ex_app1.
Proof.
  split; try done. intros s. cbn [ex_app1 app_connection]. destruct (connected s); [|done].
  apply Forall_cons. split; [apply ex_send_ok; auto using ex_five_ok|].
  apply Forall_singleton. apply ex_send_ok; auto using ex_all_ok.
Qed.
Lemma ex_app2_ok : app_ok (fun s : bytes => s) Some ProtobufCodecLite.adler32 ProtobufCodecLite.example_tag None ex_app2.
Proof. split; try done. intros m. apply Forall_singleton, ex_send_ok; auto using ex_all_ok. Qed.

Lemma ex_steps_legal w0 : new_world 7 8 = Ok w0 -> ex_world_legal ex_steps w0.
Proof.
  pose proof ex_all_ok. pose proof ex_five_ok.
  intros E. vm_compute in E. injection E as <-.
  split; [split; [reflexivity|done]|]. intros w E. vm_compute in E. injection E as <-.
  split; [split; [reflexivity|done]|]. intros w E. vm_compute in E. injection E as <-.
  split; [do 4 (split; [done|]); vm_compute; split; discriminate|]. intros w E. vm_compute in E. injection E as <-.
  split; [split; [|done]; split; [reflexivity|]; split; [intros Hc; discriminate Hc|done]|].
  intros w E. vm_compute in E. injection E as <-.
  split; [do 4 (split; [done|]); vm_compute; split; discriminate|]. intros w E. vm_compute in E. injection E as <-.
  split; [do 4 (split; [done|]); vm_compute; split; discriminate|]. done.
Qed.


End CodecStream.
