(* ===== verification/BaseLogStream.v ===== *)
(** src/muduo/base/LogStream.h and LogStream.cc: the fixed buffer a log line is
    composed in, the insertion operators and the integer conversions.

    [data_] is the array, [cur_] the offset of the next byte.  A write outside
    the array is [Undefined].  The file proves that [convert] prints any
    integer as [%d] does, the most negative ones included, and that no sequence
    of insertions leaves the array: an item that does not fit is dropped whole. *)

From S2P Require Import Prelude BaseTimestamp BaseStringPiece.

Module LogStream.

Definition kSmallBuffer : Z := 4000.
Definition kLargeBuffer : Z := 4000 * 1000.
Definition kMaxNumericSize : Z := 48.

(** * FixedBuffer *)

Record FixedBuffer := mkbuf { data_ : bytes; cur_ : Z }.

(** [memcpy] and [*p++ = c] at offset [i]. *)
Definition poke (i : Z) (src : bytes) (d : bytes) : outcome bytes :=
  if (0 <=? i) && (i + zlen src <=? zlen d)
  then Ok (ztake i d ++ src ++ zdrop (i + zlen src) d)
  else Err (Undefined "write outside the array").

Definition length_ (b : FixedBuffer) : Z := i32 (cur_ b).
Definition avail (b : FixedBuffer) : Z := i32 (zlen (data_ b) - cur_ b).
Definition append (buf : bytes) (b : FixedBuffer) : outcome FixedBuffer :=
  if zlen buf <? u64 (avail b)
  then d ← poke (cur_ b) buf (data_ b); Ok (mkbuf d (cur_ b + zlen buf))
  else Ok b.
Definition add (len : Z) (b : FixedBuffer) : FixedBuffer := mkbuf (data_ b) (cur_ b + len).
Definition reset (b : FixedBuffer) : FixedBuffer := mkbuf (data_ b) 0.
Definition bzero (b : FixedBuffer) : FixedBuffer := mkbuf (replicate (length (data_ b)) 0) (cur_ b).
Definition debugString (b : FixedBuffer) : outcome FixedBuffer :=
  d ← poke (cur_ b) [0] (data_ b); Ok (mkbuf d (cur_ b)).
Definition toString (b : FixedBuffer) : bytes := ztake (length_ b) (data_ b).

(** * Integer conversion *)

Definition digits : bytes := lit "9876543210123456789".
Definition digitsHex : bytes := lit "0123456789ABCDEF".
(** [zero[lsd]], with [zero = digits + 9]. *)
Definition zero_at (lsd : Z) : Z := default 0 (znth digits (9 + lsd)).

(** The do-while loop; C division truncates towards zero.  20 iterations are
    enough for 64 bits. *)
Fixpoint convert_loop (fuel : nat) (i : Z) : option bytes :=
  match fuel with
  | O => None
  | S fuel' =>
      let lsd := Z.rem i 10 in
      let i := Z.quot i 10 in
      if i =? 0 then Some [zero_at lsd]
      else rest ← convert_loop fuel' i; Some (zero_at lsd :: rest)
  end.
Definition convert (value : Z) : option bytes :=
  p ← convert_loop 20 value;
  Some (reverse (p ++ if value <? 0 then [45] else [])).

Fixpoint convertHex_loop (fuel : nat) (i : Z) : option bytes :=
  match fuel with
  | O => None
  | S fuel' =>
      let lsd := i mod 16 in
      let i := i / 16 in
      let c := default 0 (znth digitsHex lsd) in
      if i =? 0 then Some [c] else rest ← convertHex_loop fuel' i; Some (c :: rest)
  end.
Definition convertHex (value : Z) : option bytes := reverse <$> convertHex_loop 16 value.

(** Writing a NUL-terminated number at [current()]. *)
Definition put_number (text : option bytes) (b : FixedBuffer) : outcome FixedBuffer :=
  match text with
  | None => Err (Undefined "conversion does not terminate")
  | Some s => d ← poke (cur_ b) (s ++ [0]) (data_ b); Ok (add (zlen s) (mkbuf d (cur_ b)))
  end.

Definition formatInteger (v : Z) (b : FixedBuffer) : outcome FixedBuffer :=
  if kMaxNumericSize <=? avail b then put_number (convert v) b else Ok b.

(** * The insertion operators *)

Inductive item :=
| IBool (v : bool)
| IInteger (v : Z)              (** short to unsigned long long *)
| IPointer (p : Z)
| IDouble (v : double)
| IChar (v : Z)
| ICstr (str : option bytes)    (** a C string without its NUL, or NULL *)
| IString (v : bytes)
| IPiece (v : StringPiece.t)
| IFmt (text : bytes).          (** a [Fmt], already formatted *)

Section Insert.
(** [printf("%.12g", v)]. *)
Context (fmt_g : double -> bytes).

Definition insert (it : item) (b : FixedBuffer) : outcome FixedBuffer :=
  match it with
  | IBool v => append (if v then lit "1" else lit "0") b
  | IInteger v => formatInteger v b
  | IPointer p =>
      if kMaxNumericSize <=? avail b
      then put_number ((fun s => lit "0x" ++ s) <$> convertHex p) b
      else Ok b
  | IDouble v =>
      if kMaxNumericSize <=? avail b
      then d ← poke (cur_ b) (snprintf kMaxNumericSize (fmt_g v) ++ [0]) (data_ b);
           Ok (add (zlen (fmt_g v)) (mkbuf d (cur_ b)))
      else Ok b
  | IChar v => append [v] b
  | ICstr (Some str) => append str b
  | ICstr None => append (lit "(null)") b
  | IString v => append v b
  | IPiece v => s ← StringPiece.as_string v; append s b
  | IFmt text => append text b
  end.

Definition insert_all (b : FixedBuffer) (its : list item) : outcome FixedBuffer :=
  foldM (fun b it => insert it b) b its.

(** * Reference *)

Definition hex_digit (d : Z) : Z := if d <? 10 then 48 + d else 55 + d.
(** The hexadecimal numeral of a number below [16^n], without leading zeros. *)
Fixpoint hex (n : nat) (x : Z) : bytes :=
  match n with
  | O => []
  | S n' => if x <? 16 then [hex_digit x] else hex n' (x / 16) ++ [hex_digit (x mod 16)]
  end.

Definition render (it : item) : bytes :=
  match it with
  | IBool v => if v then lit "1" else lit "0"
  | IInteger v => fmt_d v
  | IPointer p => lit "0x" ++ hex 16 p
  | IDouble v => fmt_g v
  | IChar v => [v]
  | ICstr (Some str) => str
  | ICstr None => lit "(null)"
  | IString v => v
  | IPiece v => StringPiece.text v
  | IFmt text => text
  end.
Definition is_number (it : item) : bool :=
  match it with IInteger _ | IPointer _ | IDouble _ => true | _ => false end.
(** Room the operator asks for, in a buffer with [room] bytes left. *)
Definition fits (room : Z) (it : item) : bool :=
  if is_number it then kMaxNumericSize <=? room else zlen (render it) <? room.
(** The line after the insertions: items that do not fit are left out. *)
Fixpoint line (size : Z) (sofar : bytes) (its : list item) : bytes :=
  match its with
  | [] => sofar
  | it :: its' => line size (if fits (size - zlen sofar) it then sofar ++ render it else sofar) its'
  end.

Definition item_ok (it : item) : Prop :=
  match it with
  | IInteger v => - 2 ^ 63 <= v < 2 ^ 64
  | IPointer p => 0 <= p < 2 ^ 64
  | IDouble v => zlen (fmt_g v) < kMaxNumericSize
  | IPiece v => StringPiece.valid v
  | _ => True
  end.

Definition wf (b : FixedBuffer) : Prop := 0 <= cur_ b < zlen (data_ b) /\ zlen (data_ b) < 2 ^ 31.
Definition text (b : FixedBuffer) : bytes := ztake (cur_ b) (data_ b).

End Insert.

(** * Lemmas *)

Lemma table_at (P : Z -> Prop) lo n d :
  Forall P (seqZ lo n) -> lo <= d < lo + n -> P d.
Proof. intros H Hd. apply (proj1 (Forall_forall _ _) H). by apply elem_of_seqZ. Qed.

Lemma zero_at_spec d : -9 <= d <= 9 -> zero_at d = 48 + Z.abs d.
Proof.
  intros Hd. apply (table_at (fun d => zero_at d = 48 + Z.abs d) (-9) 19); [|lia]. by repeat constructor.
Qed.
Lemma digitsHex_spec d : 0 <= d < 16 -> default 0 (znth digitsHex d) = hex_digit d.
Proof.
  intros Hd. apply (table_at (fun d => default 0 (znth digitsHex d) = hex_digit d) 0 16); [|lia]. by repeat constructor.
Qed.

Lemma fmt_d_neg x : x < 0 -> fmt_d x = 45 :: fmt_d (- x).
Proof. destruct x as [|p|p]; try lia. done. Qed.

(** The digits come out least significant first. *)
Lemma convert_loop_spec fuel i :
  Z.abs i < 10 ^ Z.of_nat fuel -> (0 < fuel)%nat ->
  exists l, convert_loop fuel i = Some l /\
    forall s, i <> 0 -> lit (pretty_N_go (Z.abs_N i) s) = reverse l ++ lit s.
Proof.
  revert i. induction fuel as [|fuel IH]; intros i Hi Hf; [lia|]. cbn [convert_loop].
  assert (Z.abs (Z.rem i 10) = Z.of_N (Z.abs_N i mod 10)) as Hrem.
  { rewrite <- Z.rem_abs_l by lia. rewrite Z.rem_mod_nonneg by lia. rewrite N2Z.inj_mod, N2Z.inj_abs_N. done. }
  assert (Z.abs_N (Z.quot i 10) = (Z.abs_N i / 10)%N) as Hquot.
  { apply N2Z.inj. rewrite N2Z.inj_div, !N2Z.inj_abs_N. rewrite <- (Z.quot_abs i 10) by lia.
    by rewrite Z.quot_div_nonneg by lia. }
  assert (-9 <= Z.rem i 10 <= 9) as Hb by (pose proof (Z.rem_bound_abs i 10); lia).
  assert (forall s, i <> 0 -> pretty_N_go (Z.abs_N i) s =
    pretty_N_go (Z.abs_N (Z.quot i 10)) (String (pretty_N_char (Z.abs_N i mod 10)) s)) as Hstep.
  { intros s Hne. rewrite Hquot. apply pretty_N_go_step. lia. }
  assert (byte_of_ascii (pretty_N_char (Z.abs_N i mod 10)) = zero_at (Z.rem i 10)) as Hc.
  { rewrite zero_at_spec, Hrem by done. apply pretty_N_char_val. by apply N.mod_lt. }
  destruct (Z.eqb_spec (Z.quot i 10) 0) as [E|E].
  - eexists. split; [done|]. intros s Hne. rewrite Hstep, E, pretty_N_go_0 by done. cbn [lit]. by rewrite Hc.
  - destruct (IH (Z.quot i 10)) as (l&->&Hl).
    + rewrite <- N2Z.inj_abs_N, Hquot, N2Z.inj_div, N2Z.inj_abs_N. apply Z.div_lt_upper_bound; [lia|].
      replace (Z.of_nat (S fuel)) with (Z.succ (Z.of_nat fuel)) in Hi by lia. rewrite Z.pow_succ_r in Hi by lia. done.
    + destruct fuel; [|lia]. change (10 ^ Z.of_nat 1) with 10 in Hi. destruct E. apply Z.quot_small_iff; lia.
    + cbn [mbind option_bind]. eexists. split; [done|]. intros s Hne. rewrite Hstep, Hl by done. cbn [lit].
      rewrite Hc, reverse_cons, <- app_assoc. done.
Qed.

Lemma convert_fmt_d v : Z.abs v < 10 ^ 20 -> convert v = Some (fmt_d v).
Proof.
  intros Hv. unfold convert. destruct (decide (v = 0)) as [->|Hne]; [done|].
  destruct (convert_loop_spec 20 v) as (l&->&Hl); [done|lia|]. cbn [mbind option_bind]. f_equal.
  specialize (Hl "" Hne). cbn [lit] in Hl. rewrite app_nil_r in Hl.
  destruct (Z.ltb_spec v 0).
  - rewrite fmt_d_neg, fmt_d_go by lia. rewrite reverse_app, <- Hl. by replace (Z.to_N (- v)) with (Z.abs_N v) by lia.
  - rewrite app_nil_r, fmt_d_go, <- Hl by lia. by replace (Z.to_N v) with (Z.abs_N v) by lia.
Qed.

Lemma convertHex_loop_spec fuel x :
  0 <= x < 16 ^ Z.of_nat fuel -> (0 < fuel)%nat -> exists l, convertHex_loop fuel x = Some l /\ reverse l = hex fuel x.
Proof.
  revert x. induction fuel as [|fuel IH]; intros x Hx Hf; [lia|]. cbn [convertHex_loop hex].
  rewrite digitsHex_spec by (apply Z.mod_pos_bound; lia).
  destruct (Z.eqb_spec (x / 16) 0) as [E|E], (Z.ltb_spec x 16) as [Hlt|Hge].
  - eexists. split; [done|]. by rewrite Z.mod_small by lia.
  - exfalso. assert (1 <= x / 16) by (apply Z.div_le_lower_bound; lia). lia.
  - by rewrite Z.div_small in E by lia.
  - destruct (IH (x / 16)) as (l&->&Hl).
    + split; [apply Z.div_pos; lia|]. apply Z.div_lt_upper_bound; [lia|].
      replace (Z.of_nat (S fuel)) with (Z.succ (Z.of_nat fuel)) in Hx by lia. rewrite Z.pow_succ_r in Hx by lia. lia.
    + destruct fuel; [|lia]. change (16 ^ Z.of_nat 1) with 16 in Hx. lia.
    + cbn. eexists. split; [done|]. by rewrite reverse_cons, Hl.
Qed.

Lemma hex_length n x : (length (hex n x) <= n)%nat.
Proof. revert x. induction n as [|n IH]; intros x; cbn; [done|]. case_match; cbn; [lia|]. rewrite length_app. cbn. specialize (IH (x / 16)). lia. Qed.

(** Writing inside the array. *)
Lemma poke_ok i src d : 0 <= i -> i + zlen src <= zlen d ->
  exists d', poke i src d = Ok d' /\ zlen d' = zlen d /\
    forall n, 0 <= n <= zlen src -> ztake (i + n) d' = ztake i d ++ ztake n src.
Proof.
  intros Hi Hl. unfold poke. destruct (Z.leb_spec 0 i), (Z.leb_spec (i + zlen src) (zlen d)); try lia. cbn [andb].
  eexists. split; [done|]. split; [zlia|]. intros n Hn.
  assert (zlen (ztake i d) = i) as E by zlia. unfold ztake at 1. unfold zlen in E.
  rewrite take_app. rewrite take_ge by lia. f_equal.
  replace (Z.to_nat (i + n) - length (ztake i d))%nat with (Z.to_nat n) by lia.
  fold (ztake n (src ++ zdrop (i + zlen src) d)). by rewrite ztake_app_le by lia.
Qed.

Lemma append_fixed_ok s b : wf b ->
  exists b', append s b = Ok b' /\ wf b' /\ zlen (data_ b') = zlen (data_ b) /\
    text b' = (if zlen s <? zlen (data_ b) - cur_ b then text b ++ s else text b) /\ cur_ b' = zlen (text b').
Proof.
  intros (Hc&Hs). unfold append, avail. pose proof (zlen_nonneg s).
  assert (i32 (zlen (data_ b) - cur_ b) = zlen (data_ b) - cur_ b) as -> by (apply swrap_small; [lia|unfold srange; lia]).
  assert (u64 (zlen (data_ b) - cur_ b) = zlen (data_ b) - cur_ b) as -> by (apply uwrap_small; [lia|unfold urange; lia]).
  destruct (Z.ltb_spec (zlen s) (zlen (data_ b) - cur_ b)).
  - destruct (poke_ok (cur_ b) s (data_ b)) as (d&->&Hd&Ht); [lia|lia|]. cbn [mbind outcome_bind].
    eexists. split; [done|]. unfold wf, text. cbn [data_ cur_]. rewrite (Ht (zlen s)), (ztake_all (zlen s)) by lia.
    split_and!; try lia; [done|zlia].
  - exists b. unfold text. split_and!; try done. zlia.
Qed.

Lemma put_number_ok s b : wf b -> 48 <= zlen (data_ b) - cur_ b -> zlen s < 48 ->
  exists b', put_number (Some s) b = Ok b' /\ wf b' /\ zlen (data_ b') = zlen (data_ b) /\
    text b' = text b ++ s /\ cur_ b' = zlen (text b').
Proof.
  intros (Hc&Hs) Hroom Hl. unfold put_number. pose proof (zlen_nonneg s).
  destruct (poke_ok (cur_ b) (s ++ [0]) (data_ b)) as (d&->&Hd&Ht); [lia|zlia|]. cbn [mbind outcome_bind].
  eexists. split; [done|]. unfold wf, text. cbn [data_ cur_ add]. rewrite (Ht (zlen s)) by zlia.
  rewrite ztake_app_exact by done. split_and!; try lia; [done|zlia].
Qed.

Lemma text_length b : wf b -> zlen (text b) = cur_ b.
Proof. intros (?&?). unfold text. zlia. Qed.

Lemma fmt_d_short v : - 2 ^ 63 <= v < 2 ^ 64 -> zlen (fmt_d v) <= 21.
Proof.
  intros Hv. destruct (Z.ltb_spec v 0).
  - rewrite fmt_d_neg, zlen_cons by done. pose proof (fmt_d_length 20 (- v)). lia.
  - pose proof (fmt_d_length 20 v). lia.
Qed.

(** The numeric operators, with their text. *)
Lemma number_ok fmt_g it s b :
  wf b -> is_number it = true -> render fmt_g it = s -> zlen s < 48 ->
  (48 <= zlen (data_ b) - cur_ b -> insert fmt_g it b = put_number (Some s) b) ->
  (zlen (data_ b) - cur_ b < 48 -> insert fmt_g it b = Ok b) ->
  exists b', insert fmt_g it b = Ok b' /\ wf b' /\ zlen (data_ b') = zlen (data_ b) /\
    text b' = if fits fmt_g (zlen (data_ b) - cur_ b) it then text b ++ render fmt_g it else text b.
Proof.
  intros Hb Hn Hr Hs H1 H2. unfold fits, kMaxNumericSize. rewrite Hn, Hr.
  destruct (Z.leb_spec 48 (zlen (data_ b) - cur_ b)) as [Hle|Hlt].
  - rewrite H1 by done. destruct (put_number_ok s b Hb Hle Hs) as (b'&?&?&?&?&_). by exists b'.
  - rewrite H2 by lia. by exists b.
Qed.

Lemma avail_wf b : wf b -> avail b = zlen (data_ b) - cur_ b.
Proof. intros (?&?). unfold avail. apply swrap_small; [lia|unfold srange; lia]. Qed.

Lemma insert_item_ok fmt_g it b :
  wf b -> item_ok fmt_g it ->
  exists b', insert fmt_g it b = Ok b' /\ wf b' /\ zlen (data_ b') = zlen (data_ b) /\
    text b' = if fits fmt_g (zlen (data_ b) - cur_ b) it then text b ++ render fmt_g it else text b.
Proof.
  intros Hb Hit. pose proof (avail_wf b Hb) as Ha.
  assert (forall s, is_number it = false -> render fmt_g it = s -> insert fmt_g it b = append s b ->
    exists b', insert fmt_g it b = Ok b' /\ wf b' /\ zlen (data_ b') = zlen (data_ b) /\
    text b' = if fits fmt_g (zlen (data_ b) - cur_ b) it then text b ++ render fmt_g it else text b) as Happ.
  { intros s Hn Hr ->. unfold fits. rewrite Hn, Hr. destruct (append_fixed_ok s b Hb) as (b'&?&?&?&?&_). by exists b'. }
  destruct it as [v|v|p|v|v|[str|]|v|v|t]; try (by eapply Happ); cbn [item_ok] in Hit.
  - apply (number_ok fmt_g _ (fmt_d v)); try done; [pose proof (fmt_d_short v Hit); lia|..];
      intros Hr; cbn [insert]; unfold formatInteger, kMaxNumericSize; rewrite Ha.
    + destruct (Z.leb_spec 48 (zlen (data_ b) - cur_ b)); [|lia]. by rewrite convert_fmt_d by lia.
    + by destruct (Z.leb_spec 48 (zlen (data_ b) - cur_ b)); [lia|].
  - destruct (convertHex_loop_spec 16 p) as (l&El&Hl); [done|lia|].
    apply (number_ok fmt_g _ (lit "0x" ++ hex 16 p)); try done.
    + pose proof (hex_length 16 p). unfold zlen. rewrite length_app. cbn [lit length]. lia.
    + intros Hr. cbn [insert]. unfold kMaxNumericSize, convertHex. rewrite Ha, El.
      destruct (Z.leb_spec 48 (zlen (data_ b) - cur_ b)); [|lia]. cbn [fmap option_fmap option_map]. by rewrite Hl.
    + intros Hr. cbn [insert]. unfold kMaxNumericSize. rewrite Ha.
      by destruct (Z.leb_spec 48 (zlen (data_ b) - cur_ b)); [lia|].
  - unfold kMaxNumericSize in Hit. apply (number_ok fmt_g _ (fmt_g v)); try done; intros Hr; cbn [insert];
      unfold kMaxNumericSize, snprintf; rewrite Ha.
    + destruct (Z.leb_spec 48 (zlen (data_ b) - cur_ b)); [|lia]. by rewrite ztake_all by lia.
    + by destruct (Z.leb_spec 48 (zlen (data_ b) - cur_ b)); [lia|].
  - apply (Happ (StringPiece.text v)); try done. cbn [insert]. unfold StringPiece.as_string, StringPiece.text.
    destruct Hit as ((?&?)&?). unfold u64. rewrite uwrap_small by (lia || unfold urange; lia).
    by destruct (Z.leb_spec (StringPiece.length_ v) (zlen (StringPiece.ptr_ v))); [|lia].
Qed.

Lemma insert_all_ok fmt_g its b :
  wf b -> Forall (item_ok fmt_g) its ->
  exists b', insert_all fmt_g b its = Ok b' /\ wf b' /\ zlen (data_ b') = zlen (data_ b) /\
    text b' = line fmt_g (zlen (data_ b)) (text b) its.
Proof.
  intros Hb Hits. revert b Hb. induction Hits as [|it its Hit _ IH]; intros b Hb; cbn [insert_all foldM line].
  { by exists b. }
  destruct (insert_item_ok fmt_g it b Hb Hit) as (b1&->&Hb1&Hs1&Ht1). cbn [mbind outcome_bind].
  destruct (IH b1 Hb1) as (b'&?&?&Hs&Ht). exists b'. split_and!; try done; [congruence|].
  by rewrite Ht, Hs1, Ht1, text_length by done.
Qed.

Lemma toString_text b : wf b -> toString b = text b.
Proof. intros (?&?). unfold toString, length_. unfold i32. by rewrite swrap_small by (lia || unfold srange; lia). Qed.

(** With room to spare nothing is left out. *)
Lemma line_with_room fmt_g its : forall size sofar,
  zlen sofar + zlen (mjoin (render fmt_g <$> its)) + kMaxNumericSize < size ->
  line fmt_g size sofar its = sofar ++ mjoin (render fmt_g <$> its).
Proof.
  induction its as [|it its IH]; intros size sofar Hs; cbn [line]; [by rewrite app_nil_r|].
  change (mjoin (render fmt_g <$> it :: its)) with (render fmt_g it ++ mjoin (render fmt_g <$> its)) in *.
  rewrite zlen_app in Hs. pose proof (zlen_nonneg (mjoin (render fmt_g <$> its))). pose proof (zlen_nonneg (render fmt_g it)).
  unfold kMaxNumericSize in *.
  assert (fits fmt_g (size - zlen sofar) it = true) as ->.
  { unfold fits. destruct (is_number it); [apply Z.leb_le|apply Z.ltb_lt]; unfold kMaxNumericSize; lia. }
  rewrite IH by (rewrite zlen_app; lia). by rewrite app_assoc.
Qed.

(** * Properties *)

(** [convert] is [%d].  For every value of every integer type, from the
    most negative 64-bit number to the largest unsigned one, the loop ends
    within its 20 iterations and leaves the decimal numeral with its sign, in
    fewer than [kMaxNumericSize] bytes. *)
Theorem convert_prints_decimal v :
  - 2 ^ 63 <= v < 2 ^ 64 ->
  convert v = Some (fmt_d v) /\ zlen (fmt_d v) < kMaxNumericSize /\
  (0 <= v -> dec_val 0 (fmt_d v) = v) /\
  (v < 0 -> exists s, fmt_d v = 45 :: s /\ dec_val 0 s = - v).
Proof.
  intros Hv. split; [apply convert_fmt_d; lia|]. split; [pose proof (fmt_d_short v Hv); unfold kMaxNumericSize; lia|].
  split; [apply fmt_d_val|]. intros Hneg. exists (fmt_d (- v)). split; [by apply fmt_d_neg|]. apply fmt_d_val. lia.
Qed.

Lemma convert_prints_decimal_witness : convert (- 2 ^ 63) = Some (lit "-9223372036854775808").
Proof.
  destruct (convert_prints_decimal (- 2 ^ 63)) as (E&_).
  - split; vm_compute; [discriminate|reflexivity].
  - rewrite E. vm_compute. reflexivity.
Defined.

(** C37: a log line never leaves its buffer.  Whatever is inserted, in any
    order, every write stays inside the array and one byte is left for the NUL
    of [debugString]; the text is the items in order, printed whole, without
    those that found too little room (the item's length for text, 48 bytes for
    a number). *)
Theorem log_line_stays_in_buffer fmt_g its b :
  wf b -> Forall (item_ok fmt_g) its ->
  exists b', insert_all fmt_g b its = Ok b' /\ wf b' /\
    toString b' = line fmt_g (zlen (data_ b)) (toString b) its /\ is_ok (debugString b') = true.
Proof.
  intros Hb Hits. destruct (insert_all_ok fmt_g its b Hb Hits) as (b'&?&Hb'&Hs&Ht). exists b'.
  split_and!; try done; [by rewrite !toString_text by done|]. destruct Hb' as (?&?). unfold debugString.
  destruct (poke_ok (cur_ b') [0] (data_ b')) as (d&->&_); [lia|zlia|done].
Qed.

Lemma log_line_stays_in_buffer_witness :
  exists b', insert_all (fun _ => lit "0.5") (mkbuf (replicate 64 0) 0)
      [IString (lit "x="); IInteger (-7); ICstr None; IPointer 255; IBool true] = Ok b' /\
    toString b' = lit "x=-7(null)0xFF1".
Proof.
  destruct (log_line_stays_in_buffer (fun _ => lit "0.5")
    [IString (lit "x="); IInteger (-7); ICstr None; IPointer 255; IBool true] (mkbuf (replicate 64 0) 0)) as (b'&E&_&Ht&_).
  - vm_compute. repeat split; discriminate.
  - repeat constructor; vm_compute; discriminate.
  - exists b'. split; [exact E|]. rewrite Ht. vm_compute. reflexivity.
Defined.

End LogStream.
