(* ===== verification/NetConnector.v ===== *)
(** src/muduo/net/Connector.h and Connector.cc: active connects with back-off.

    The state is the object, the functors it has queued in its loop, the retry
    timers it has armed, and the sockets it has created, closed and handed to
    its callback.  What the kernel answers (errno of connect(2), SO_ERROR,
    self-connection) is an argument of the step.  Other threads' [start] and
    [stop] queue functors.  The file proves that under the use the class is
    written for no assertion fails, no descriptor leaks and retries back off. *)

From S2P Require Import Prelude.

Module Connector.

Inductive States := kDisconnected | kConnecting | kConnected.
#[global] Instance States_eq_dec : EqDecision States.
Proof. solve_decision. Defined.

Definition kMaxRetryDelayMs : Z := 30 * 1000.
Definition kInitRetryDelayMs : Z := 500.

Inductive functor := FStart | FStop | FResetChannel.
#[global] Instance functor_eq_dec : EqDecision functor.
Proof. solve_decision. Defined.

Record t := mk {
  connect_ : bool;
  state_ : States;
  (** the descriptor of [channel_], and whether it is still in the poller *)
  channel_ : option (Z * bool);
  retryDelayMs_ : Z;
  functors : list functor;
  (** delays of the armed timers, and of all retries since the last restart *)
  timers : list Z;
  retries : list Z;
  created : list Z;
  closed : list Z;
  handed : list Z
}.

Definition set_connect x s := mk x (state_ s) (channel_ s) (retryDelayMs_ s) (functors s) (timers s) (retries s)
  (created s) (closed s) (handed s).
Definition setState x s := mk (connect_ s) x (channel_ s) (retryDelayMs_ s) (functors s) (timers s) (retries s)
  (created s) (closed s) (handed s).
Definition set_channel x s := mk (connect_ s) (state_ s) x (retryDelayMs_ s) (functors s) (timers s) (retries s)
  (created s) (closed s) (handed s).
Definition set_functors x s := mk (connect_ s) (state_ s) (channel_ s) (retryDelayMs_ s) x (timers s) (retries s)
  (created s) (closed s) (handed s).
Definition set_timers x s := mk (connect_ s) (state_ s) (channel_ s) (retryDelayMs_ s) (functors s) x (retries s)
  (created s) (closed s) (handed s).
Definition create fd s := mk (connect_ s) (state_ s) (channel_ s) (retryDelayMs_ s) (functors s) (timers s) (retries s)
  (created s ++ [fd]) (closed s) (handed s).
Definition close fd s := mk (connect_ s) (state_ s) (channel_ s) (retryDelayMs_ s) (functors s) (timers s) (retries s)
  (created s) (closed s ++ [fd]) (handed s).
Definition newConnectionCallback fd s := mk (connect_ s) (state_ s) (channel_ s) (retryDelayMs_ s) (functors s) (timers s)
  (retries s) (created s) (closed s) (handed s ++ [fd]).

Definition new_ : t := mk false kDisconnected None kInitRetryDelayMs [] [] [] [] [] [].
Definition destroy (s : t) : outcome unit :=
  massert (bool_decide (channel_ s = None)) "!channel_".

Definition queueInLoop (f : functor) (s : t) : t := set_functors (functors s ++ [f]) s.

Definition retry (sockfd : Z) (s : t) : t :=
  let s := setState kDisconnected (close sockfd s) in
  if connect_ s
  then mk (connect_ s) (state_ s) (channel_ s) (Z.min (retryDelayMs_ s * 2) kMaxRetryDelayMs) (functors s)
         (timers s ++ [retryDelayMs_ s]) (retries s ++ [retryDelayMs_ s]) (created s) (closed s) (handed s)
  else s.

Definition connecting (sockfd : Z) (s : t) : outcome t :=
  let s := setState kConnecting s in
  massert (bool_decide (channel_ s = None)) "!channel_";;
  Ok (set_channel (Some (sockfd, true)) s).

(** How [connect] treats each errno. *)
Inductive connect_result := Proceed | Retry | GiveUp.
Definition classify (savedErrno : Z) : connect_result :=
  if bool_decide (savedErrno ∈ [0; 115; 4; 106]) then Proceed              (* 0 EINPROGRESS EINTR EISCONN *)
  else if bool_decide (savedErrno ∈ [11; 98; 99; 111; 101]) then Retry     (* EAGAIN EADDRINUSE EADDRNOTAVAIL ECONNREFUSED ENETUNREACH *)
  else GiveUp.

(** [sockfd] is the new socket, [savedErrno] what connect(2) left. *)
Definition connect (sockfd savedErrno : Z) (s : t) : outcome t :=
  let s := create sockfd s in
  match classify savedErrno with
  | Proceed => connecting sockfd s
  | Retry => Ok (retry sockfd s)
  | GiveUp => Ok (close sockfd s)
  end.

Definition startInLoop (sockfd savedErrno : Z) (s : t) : outcome t :=
  massert (bool_decide (state_ s = kDisconnected)) "state_ == kDisconnected";;
  if connect_ s then connect sockfd savedErrno s else Ok s.

Definition start (inLoop : bool) (sockfd savedErrno : Z) (s : t) : outcome t :=
  let s := set_connect true s in
  if inLoop then startInLoop sockfd savedErrno s else Ok (queueInLoop FStart s).

(** The channel leaves the poller now and is deleted by a queued functor. *)
Definition removeAndResetChannel (s : t) : outcome (Z * t) :=
  match channel_ s with
  | Some (fd, true) => Ok (fd, queueInLoop FResetChannel (set_channel (Some (fd, false)) s))
  | Some (fd, false) => Err (AssertFail "hasChannel")
  | None => Err (Undefined "channel_ is null")
  end.
Definition resetChannel (s : t) : t := set_channel None s.

Definition stop (s : t) : t := queueInLoop FStop (set_connect false s).
Definition stopInLoop (s : t) : outcome t :=
  if decide (state_ s = kConnecting)
  then
    '(sockfd, s) ← removeAndResetChannel (setState kDisconnected s);
    Ok (retry sockfd s)
  else Ok s.

Definition restart (sockfd savedErrno : Z) (s : t) : outcome t :=
  let s := setState kDisconnected s in
  let s := mk true (state_ s) (channel_ s) kInitRetryDelayMs (functors s) (timers s) [] (created s) (closed s) (handed s) in
  startInLoop sockfd savedErrno s.

Definition handleWrite (err : Z) (self : bool) (s : t) : outcome t :=
  if decide (state_ s = kConnecting)
  then
    '(sockfd, s) ← removeAndResetChannel s;
    if negb (err =? 0) then Ok (retry sockfd s)
    else if self then Ok (retry sockfd s)
    else
      let s := setState kConnected s in
      if connect_ s then Ok (newConnectionCallback sockfd s) else Ok (close sockfd s)
  else
    massert (bool_decide (state_ s = kDisconnected)) "state_ == kDisconnected";;
    Ok s.

Definition handleError (s : t) : outcome t :=
  if decide (state_ s = kConnecting)
  then '(sockfd, s) ← removeAndResetChannel s; Ok (retry sockfd s)
  else Ok s.

(** [handleEvent] of the channel, on POLLERR and POLLOUT: its error and write
    callbacks, the only ones it has, in one pass.  [err] is SO_ERROR. *)
Definition handleEvent (pollerr pollout : bool) (err : Z) (self : bool) (s : t) : outcome t :=
  s ← (if pollerr then handleError s else Ok s);
  if pollout then handleWrite err self s else Ok s.

(** * Runs *)

Inductive event :=
| Start (inLoop : bool) (sockfd savedErrno : Z)
| Stop
| Restart (sockfd savedErrno : Z)
| HandleEvent (pollerr pollout : bool) (err : Z) (self : bool)
| TimerFires (sockfd savedErrno : Z)
| RunFunctor (sockfd savedErrno : Z).

Definition exec (s : t) (e : event) : outcome t :=
  match e with
  | Start inLoop fd e => start inLoop fd e s
  | Stop => Ok (stop s)
  | Restart fd e => restart fd e s
  | HandleEvent pollerr pollout err self => handleEvent pollerr pollout err self s
  | TimerFires fd e =>
      match timers s with
      | [] => Ok s
      | _ :: ts => startInLoop fd e (set_timers ts s)
      end
  | RunFunctor fd e =>
      match functors s with
      | [] => Ok s
      | FStart :: fs => startInLoop fd e (set_functors fs s)
      | FStop :: fs => stopInLoop (set_functors fs s)
      | FResetChannel :: fs => Ok (resetChannel (set_functors fs s))
      end
  end.

(** The use the class is written for: [start] on a connector at rest (in
    particular not while a timer of an earlier attempt is armed, which [stop]
    does not cancel), [restart] once the connection it made is gone, and passes of
    [handleEvent] that begin while the channel is in the poller; a timer fires in a later iteration
    of the loop than the one that armed it, so after the functors queued then. *)
Definition at_rest (s : t) : Prop :=
  state_ s = kDisconnected /\ channel_ s = None /\ timers s = [] /\ functors s = [].
Definition legal (s : t) (e : event) : Prop :=
  match e with
  | Start _ _ _ => at_rest s
  | Restart _ _ => state_ s = kConnected /\ functors s = []
  | HandleEvent _ _ _ _ => exists fd, channel_ s = Some (fd, true)
  | TimerFires _ _ => FResetChannel ∉ functors s
  | Stop | RunFunctor _ _ => True
  end.
Fixpoint legal_run (s : t) (es : list event) : Prop :=
  match es with
  | [] => True
  | e :: es' => legal s e /\ forall s', exec s e = Ok s' -> legal_run s' es'
  end.
Definition run (s : t) (es : list event) : outcome t := foldM exec s es.

(** * Invariant *)

(** The socket the connector still owns. *)
Definition owned (s : t) : list Z :=
  match channel_ s with Some (fd, true) => [fd] | _ => [] end.

(** Delay number [i] of the back-off. *)
Definition backoff (i : nat) : Z := Z.min (kInitRetryDelayMs * 2 ^ Z.of_nat i) kMaxRetryDelayMs.

Definition count (f : functor) (s : t) : nat := length (filter (fun g => g = f) (functors s)).

Definition place_ok (s : t) : Prop :=
  match state_ s with
  | kConnecting => (exists fd, channel_ s = Some (fd, true)) /\ timers s = [] /\ count FStart s = 0%nat /\
      count FResetChannel s = 0%nat
  | kConnected => timers s = [] /\ count FStart s = 0%nat
  | kDisconnected => (length (timers s) + count FStart s <= 1)%nat /\
      (count FStart s = 1%nat -> channel_ s = None)
  end.
Definition channel_ok (s : t) : Prop :=
  match channel_ s with
  | Some (_, true) => state_ s = kConnecting
  | Some (_, false) => count FResetChannel s = 1%nat
  | None => count FResetChannel s = 0%nat
  end.

Record inv (s : t) : Prop := {
  inv_place : place_ok s;
  inv_channel : channel_ok s;
  inv_stop : FStop ∈ functors s -> connect_ s = false;
  inv_sockets : created s ≡ₚ closed s ++ handed s ++ owned s;
  inv_delay : retryDelayMs_ s = backoff (length (retries s));
  inv_retries : forall i d, retries s !! i = Some d -> d = backoff i
}.

(** * Lemmas *)

Lemma backoff_next i : Z.min (backoff i * 2) kMaxRetryDelayMs = backoff (S i).
Proof.
  unfold backoff, kMaxRetryDelayMs, kInitRetryDelayMs. replace (Z.of_nat (S i)) with (Z.succ (Z.of_nat i)) by lia.
  rewrite Z.pow_succ_r by lia. assert (0 < 2 ^ Z.of_nat i) by (apply Z.pow_pos_nonneg; lia). lia.
Qed.

Lemma retries_snoc s :
  inv s -> forall i d, (retries s ++ [retryDelayMs_ s]) !! i = Some d -> d = backoff i.
Proof.
  intros Hinv i d Hi. apply lookup_app_Some in Hi as [Hi|[Hge Hi]]; [by eapply inv_retries|].
  apply list_lookup_singleton_Some in Hi as [Hi <-]. rewrite (inv_delay _ Hinv). f_equal. lia.
Qed.

Lemma count_app f fs g s :
  functors s = fs ++ [g] -> count f s = (length (filter (fun h => h = f) fs) + if decide (g = f) then 1 else 0)%nat.
Proof. intros E. unfold count. rewrite E, filter_app, length_app, filter_cons. by case_decide. Qed.

Lemma count_elem f s : f ∈ functors s -> (0 < count f s)%nat.
Proof.
  intros Hin. unfold count. assert (f ∈ filter (fun g => g = f) (functors s)) as H by by apply list_elem_of_filter.
  destruct (filter _ _); [by apply not_elem_of_nil in H|]. cbn. lia.
Qed.

Lemma closed_socket (c h : list Z) fd : (c ++ h) ++ [fd] ≡ₚ (c ++ [fd]) ++ h.
Proof. rewrite <- !app_assoc. apply Permutation_app_head, Permutation_app_comm. Qed.

(** A connector ready for a new attempt. *)
Record ready (s : t) : Prop := {
  ready_inv : inv s;
  ready_state : state_ s = kDisconnected;
  ready_channel : channel_ s = None;
  ready_timers : timers s = [];
  ready_functors : count FStart s = 0%nat
}.

Lemma startInLoop_ok fd e s : ready s -> exists s', startInLoop fd e s = Ok s' /\ inv s'.
Proof.
  intros [Hinv Hst Hch Ht Hf]. unfold startInLoop. rewrite (bool_decide_eq_true_2 (state_ s = _)) by done.
  cbn [massert mbind outcome_bind]. destruct (connect_ s) eqn:Ec; [|by exists s].
  assert (Hs := retries_snoc s Hinv). destruct Hinv as [Hp Hc Hstop Hso Hd Hr].
  unfold channel_ok in Hc. rewrite Hch in Hc.
  assert (owned s = []) as Ho by (unfold owned; by rewrite Hch). rewrite Ho, app_nil_r in Hso.
  unfold connect. destruct (classify e).
  - unfold connecting. cbn [channel_ setState create]. rewrite Hch. rewrite bool_decide_eq_true_2 by done.
    cbn [massert mbind outcome_bind]. eexists. split; [done|]. split; try done.
    + unfold place_ok. cbn. split_and!; eauto; done.
    + cbn. rewrite Hso. by rewrite app_assoc.
  - eexists. split; [done|]. unfold retry. cbn [connect_ setState close create]. rewrite Ec. split; try done.
    + unfold place_ok. cbn. rewrite Ht. unfold count in *. cbn in *. split; [lia|]. intros. lia.
    + unfold channel_ok. cbn. by rewrite Hch.
    + cbn. intros Hin. specialize (Hstop Hin). congruence.
    + unfold owned. cbn. rewrite Hch, app_nil_r, Hso. apply closed_socket.
    + cbn. rewrite length_app, Nat.add_1_r, <- backoff_next, <- Hd. done.
  - eexists. split; [done|]. split; try done.
    + unfold channel_ok. cbn. by rewrite Hch.
    + unfold owned. cbn. rewrite Hch, app_nil_r, Hso. apply closed_socket.
Qed.

Lemma attempt_done s fd :
  inv s -> state_ s = kConnecting -> channel_ s = Some (fd, true) ->
  removeAndResetChannel s = Ok (fd, queueInLoop FResetChannel (set_channel (Some (fd, false)) s)) /\
  timers s = [] /\ count FStart s = 0%nat /\ count FResetChannel s = 0%nat /\
  created s ≡ₚ closed s ++ handed s ++ [fd].
Proof.
  intros [Hp Hc Hstop Hso Hd Hr] Hst Hch. unfold removeAndResetChannel, place_ok, owned in *. rewrite Hst, Hch in *.
  by destruct Hp as (_&?&?&?).
Qed.

(** After the attempt, in the state [st] and with the socket closed or handed. *)
Lemma inv_after s s' fd :
  inv s -> state_ s = kConnecting -> channel_ s = Some (fd, true) ->
  channel_ s' = Some (fd, false) -> functors s' = functors s ++ [FResetChannel] -> connect_ s' = connect_ s ->
  created s' = created s ->
  (closed s' = closed s ++ [fd] /\ handed s' = handed s) \/ (closed s' = closed s /\ handed s' = handed s ++ [fd]) ->
  (state_ s' = kDisconnected /\ connect_ s = true /\ timers s' = [retryDelayMs_ s] /\
     retries s' = retries s ++ [retryDelayMs_ s] /\ retryDelayMs_ s' = Z.min (retryDelayMs_ s * 2) kMaxRetryDelayMs) \/
  (state_ s' <> kConnecting /\ timers s' = [] /\ retries s' = retries s /\ retryDelayMs_ s' = retryDelayMs_ s) ->
  inv s'.
Proof.
  intros Hinv Hst Hch E1 E2 E3 E4 E5 E6. destruct (attempt_done s fd Hinv Hst Hch) as (_&Ht&Hf&Hrs&Hso).
  assert (count FStart s' = 0%nat) as Cs by by rewrite (count_app FStart _ _ _ E2), decide_False, Nat.add_0_r.
  assert (count FResetChannel s' = 1%nat) as Cr.
  { rewrite (count_app FResetChannel _ _ _ E2), decide_True by done. unfold count in Hrs. by rewrite Hrs. }
  split.
  - unfold place_ok. destruct E6 as [(->&_&->&_)|(Hne&->&_)]; [cbn; split; [lia|intros; lia]|].
    destruct (state_ s'); [|done|done]. cbn. split; [lia|intros; lia].
  - unfold channel_ok. by rewrite E1.
  - rewrite E2, E3. intros [Hin|Hin%list_elem_of_singleton]%elem_of_app; [by apply Hinv|done].
  - unfold owned. rewrite E1, E4, Hso. destruct E5 as [(->&->)|(->&->)]; rewrite app_nil_r; [|by rewrite app_assoc].
    rewrite app_assoc. apply closed_socket.
  - destruct E6 as [(_&_&_&->&->)|(_&_&->&->)]; [|apply Hinv].
    by rewrite length_app, Nat.add_1_r, <- backoff_next, <- (inv_delay _ Hinv).
  - destruct E6 as [(_&_&_&->&_)|(_&_&->&_)]; [by apply retries_snoc|apply Hinv].
Qed.

Lemma retry_after s fd :
  inv s -> state_ s = kConnecting -> channel_ s = Some (fd, true) ->
  inv (retry fd (queueInLoop FResetChannel (set_channel (Some (fd, false)) s))).
Proof.
  intros Hinv Hst Hch. destruct (attempt_done s fd Hinv Hst Hch) as (_&Ht&_).
  unfold retry. cbn [connect_ setState close queueInLoop set_functors set_channel].
  destruct (connect_ s) eqn:Ec; apply (inv_after s _ fd); try done; try (by left); cbn; rewrite ?Ht.
  - by left.
  - by right.
Qed.

Lemma handleWrite_connector_ok err self s :
  inv s -> (exists fd, channel_ s = Some (fd, true)) -> exists s', handleWrite err self s = Ok s' /\ inv s'.
Proof.
  intros Hinv (fd&Hch). assert (state_ s = kConnecting) as Hst.
  { pose proof (inv_channel _ Hinv) as Hc. unfold channel_ok in Hc. by rewrite Hch in Hc. }
  destruct (attempt_done s fd Hinv Hst Hch) as (Er&Ht&_).
  unfold handleWrite. rewrite decide_True, Er by done. cbn [mbind outcome_bind].
  destruct (negb (err =? 0)); [eexists; split; [done|]; by apply retry_after|].
  destruct self; [eexists; split; [done|]; by apply retry_after|].
  cbn [connect_ setState queueInLoop set_functors set_channel].
  destruct (connect_ s) eqn:Ec; eexists; (split; [done|]); apply (inv_after s _ fd); try done;
    try (by left); try (by right); right; cbn; by rewrite Ht.
Qed.

Lemma handleError_connector_ok s :
  inv s -> (exists fd, channel_ s = Some (fd, true)) ->
  exists s', handleError s = Ok s' /\ inv s' /\ state_ s' = kDisconnected.
Proof.
  intros Hinv (fd&Hch). assert (state_ s = kConnecting) as Hst.
  { pose proof (inv_channel _ Hinv) as Hc. unfold channel_ok in Hc. by rewrite Hch in Hc. }
  unfold handleError. destruct (attempt_done s fd Hinv Hst Hch) as (Er&_).
  rewrite decide_True, Er by done. eexists. split; [done|]. split; [by apply retry_after|].
  unfold retry. cbn. by destruct (connect_ s).
Qed.

(** What is left of a pass after its attempt has failed does nothing. *)
Lemma late_events s : state_ s = kDisconnected ->
  handleError s = Ok s /\ forall err self, handleWrite err self s = Ok s.
Proof.
  intros Hst. unfold handleError, handleWrite. split; [by rewrite decide_False by (by rewrite Hst)|]. intros err self.
  by rewrite decide_False, bool_decide_eq_true_2 by (by rewrite Hst).
Qed.
Lemma handleEvent_connector_ok pollerr pollout err self s :
  inv s -> (exists fd, channel_ s = Some (fd, true)) -> exists s', handleEvent pollerr pollout err self s = Ok s' /\ inv s'.
Proof.
  intros Hinv Hch. unfold handleEvent. destruct pollerr; cbn [mbind outcome_bind].
  - destruct (handleError_connector_ok s Hinv Hch) as (s1&->&Hi&Hst). cbn [mbind outcome_bind].
    exists s1. split; [|done]. destruct pollout; [by apply late_events|done].
  - destruct pollout; [by apply handleWrite_connector_ok|by exists s].
Qed.

Lemma stopInLoop_ok s : inv s -> exists s', stopInLoop s = Ok s' /\ inv s'.
Proof.
  intros Hinv. unfold stopInLoop. case_decide as Hst; [|by exists s].
  assert (exists fd, channel_ s = Some (fd, true)) as (fd&Hch).
  { pose proof (inv_place _ Hinv) as Hp. unfold place_ok in Hp. rewrite Hst in Hp. apply Hp. }
  unfold removeAndResetChannel. cbn [channel_ setState]. rewrite Hch. cbn [mbind outcome_bind].
  eexists. split; [done|]. pose proof (retry_after s fd Hinv Hst Hch) as H.
  unfold retry in *. cbn in *. done.
Qed.

(** Running the oldest functor leaves the others. *)
Lemma connector_inv_pop f fs s :
  inv s -> functors s = f :: fs -> f <> FResetChannel -> inv (set_functors fs s).
Proof.
  intros Hinv Ef Hne.
  assert (forall g, count g (set_functors fs s) <= count g s)%nat as Hle.
  { intros g. unfold count. cbn. rewrite Ef, filter_cons. case_decide; cbn; lia. }
  assert (count FResetChannel (set_functors fs s) = count FResetChannel s) as Hr.
  { unfold count. cbn. rewrite Ef, filter_cons. by rewrite decide_False. }
  destruct Hinv as [Hp Hc Hstop Hso Hd Hrt]. pose proof (Hle FStart). split; try done.
  - unfold place_ok in *. rewrite Hr. cbn [state_ set_functors channel_ timers].
    destruct (state_ s); [|by destruct Hp as (?&?&?&?); split_and!; try done; lia|destruct Hp; split; [done|lia]].
    destruct Hp as (?&Hp). split; [lia|]. intros. apply Hp. lia.
  - unfold channel_ok in *. by rewrite Hr.
  - cbn. intros Hin. apply Hstop. rewrite Ef. by right.
Qed.

Lemma connector_exec_ok s e : inv s -> legal s e -> exists s', exec s e = Ok s' /\ inv s'.
Proof.
  intros Hinv Hl. destruct e as [inLoop fd e| |fd e|pollerr pollout err self|fd e|fd e]; cbn [exec legal] in *.
  - destruct Hl as (Hst&Hch&Ht&Hf).
    assert (inv (set_connect true s)) as Hi.
    { destruct Hinv. split; try done. cbn. rewrite Hf. set_solver. }
    unfold start. destruct inLoop.
    + apply startInLoop_ok. split; try done. unfold count. cbn. by rewrite Hf.
    + eexists. split; [done|]. destruct Hi as [Hp Hc Hstop Hso Hd Hr]. split; try done.
      * unfold place_ok, count. cbn. rewrite Hst, Hf, Ht, Hch. cbn. split; [done|done].
      * unfold channel_ok, count in *. cbn in *. rewrite Hch, Hf in *. done.
      * cbn. rewrite Hf. cbn. intros Hin. apply list_elem_of_singleton in Hin. done.
  - eexists. split; [done|]. unfold stop.
    assert (forall f, f <> FStop -> count f (queueInLoop FStop (set_connect false s)) = count f s) as Hcnt.
    { intros f Hne. rewrite (count_app f (functors s) FStop) by done. rewrite decide_False by done. by rewrite Nat.add_0_r. }
    destruct Hinv as [Hp Hc Hstop Hso Hd Hr]. split; try done.
    + unfold place_ok in *. rewrite !Hcnt by done. done.
    + unfold channel_ok in *. rewrite !Hcnt by done. done.
  - destruct Hl as (Hst&Hf). unfold restart. apply startInLoop_ok.
    destruct Hinv as [Hp Hc Hstop Hso Hd Hr].
    unfold place_ok, channel_ok, count, owned in *. rewrite Hst, Hf in *. cbn in *.
    assert (channel_ s = None) as Hch by by destruct (channel_ s) as [[? []]|].
    destruct Hp as (Ht&_). split; cbn; try done; [|unfold count; cbn; by rewrite Hf].
    split; unfold place_ok, channel_ok, count, owned; cbn; rewrite ?Hf, ?Hch, ?Ht; cbn; try done.
    + split; [lia|done].
    + set_solver.
    + by rewrite Hch in Hso.
  - by apply handleEvent_connector_ok.
  - destruct (timers s) as [|d ts] eqn:Et; [by exists s|]. apply startInLoop_ok.
    pose proof (inv_place _ Hinv) as Hp. pose proof (inv_channel _ Hinv) as Hc. unfold place_ok, channel_ok in *.
    rewrite Et in Hp. destruct (state_ s) eqn:Hst; [|by destruct Hp as (_&?&_)|by destruct Hp as (?&_)].
    destruct Hp as (Hlen&Hp). cbn in Hlen. assert (ts = []) as -> by by destruct ts; cbn in Hlen; [|lia].
    assert (count FResetChannel s = 0%nat) as Hnr.
    { unfold count. rewrite filter_none; [done|]. apply Forall_forall. intros x Hx ->. done. }
    assert (channel_ s = None) as Hch.
    { destruct (channel_ s) as [[? []]|]; [done|lia|done]. }
    split; try done; [|unfold count in *; cbn in *; lia].
    destruct Hinv as [_ _ Hstop Hso Hd Hr]. split; try done.
    + unfold place_ok. cbn. rewrite Hst. unfold count in *. cbn in *. split; [lia|done].
    + unfold channel_ok. cbn. by rewrite Hch.
  - destruct (functors s) as [|f fs] eqn:Ef; [by exists s|].
    destruct f; [|by apply stopInLoop_ok; eapply connector_inv_pop|].
    + pose proof (inv_place _ Hinv) as Hp. assert (0 < count FStart s)%nat as Hpos by (apply count_elem; rewrite Ef; left).
      unfold place_ok in Hp. destruct (state_ s) eqn:Hst; [|destruct Hp as (_&_&?&_); lia|destruct Hp as (_&?); lia].
      destruct Hp as (Hlen&Hch). apply startInLoop_ok. split; [by eapply connector_inv_pop|done| | |].
      * apply Hch. lia.
      * cbn. destruct (timers s); [done|]. cbn in Hlen. lia.
      * unfold count in *. cbn in *. rewrite Ef, filter_cons, decide_True in * by done. cbn in *. lia.
    + eexists. split; [done|]. set (s' := resetChannel (set_functors fs s)).
      assert (count FStart s = count FStart s') as Cs by (unfold count; cbn; rewrite Ef, filter_cons; by rewrite decide_False).
      assert (count FResetChannel s = S (count FResetChannel s')) as Cr
        by (unfold count; cbn; rewrite Ef, filter_cons; by rewrite decide_True).
      destruct Hinv as [Hp Hc Hstop Hso Hd Hr]. unfold channel_ok, place_ok, owned in *. rewrite Cs, Cr in *.
      assert (state_ s <> kConnecting) as Hst by (intros E; rewrite E in Hp; destruct Hp as (_&_&_&?); lia).
      assert (exists x, channel_ s = Some (x, false) /\ count FResetChannel s' = 0%nat) as (x&Hch&Hz).
      { destruct (channel_ s) as [[x []]|]; [done| |lia]. exists x. split; [done|]. by injection Hc. }
      rewrite Hch in *. split; try done.
      * unfold place_ok. change (state_ s') with (state_ s). change (timers s') with (timers s).
        destruct (state_ s); [|done|done]. destruct Hp as (?&_). by split.
      * cbn. intros Hin. apply Hstop. rewrite Ef. by right.
Qed.

Lemma connector_run_ok es s : inv s -> legal_run s es -> exists s', run s es = Ok s' /\ inv s'.
Proof.
  revert s. induction es as [|e es IH]; intros s Hinv Hl; cbn; [by exists s|].
  destruct Hl as (Hl&Hes). destruct (connector_exec_ok s e Hinv Hl) as (s1&E&Hi). rewrite E. cbn. by apply IH; [|apply Hes].
Qed.

(** * Property *)

(** C31: a connector works through failures.  In every legal run, with any
    answers of the kernel, passes of [handleEvent] with an error, writability or
    both, timers, and [stop] at any time, no assertion fails and no null or
    unregistered channel is touched; at most one attempt is under way (a registered
    channel, an armed timer or a queued start); every socket created has been
    closed once, handed to the callback once, or is the one being connected; the
    [i]-th retry since the last restart waits min(500 * 2^i, 30000) ms, so 0.5 s,
    1 s, 2 s, ... up to 30 s; and once the attempt has failed, further error and
    write events of its channel change nothing, while a write event after it has
    succeeded fails the assertion. *)
Theorem connector_backs_off_safely es :
  legal_run new_ es ->
  exists s, run new_ es = Ok s /\ place_ok s /\ channel_ok s /\
    created s ≡ₚ closed s ++ handed s ++ owned s /\
    (forall i d, retries s !! i = Some d -> d = Z.min (500 * 2 ^ Z.of_nat i) 30000) /\
    (state_ s <> kConnecting -> handleError s = Ok s) /\
    (state_ s = kDisconnected -> forall err self, handleWrite err self s = Ok s) /\
    (state_ s = kConnected -> forall err self, handleWrite err self s = Err (AssertFail "state_ == kDisconnected")).
Proof.
  intros Hl. destruct (connector_run_ok es new_) as (s&?&Hinv); [|done|].
  { split; unfold place_ok, channel_ok; cbn; try done. split; [lia|done]. }
  exists s. split_and!; [done|apply Hinv..| | |].
  - intros Hst. unfold handleError. by rewrite decide_False.
  - intros Hst. by apply late_events.
  - intros Hst err self. unfold handleWrite. rewrite decide_False by (by rewrite Hst). by rewrite Hst.
Qed.

(** Refused, then an error reported together with writability on the first
    retry, then connected. *)
Definition example_events : list event :=
  [Start true 5 111; TimerFires 6 115; HandleEvent true true 111 false; RunFunctor 0 0; TimerFires 7 115;
   HandleEvent false true 0 false; RunFunctor 0 0].

Lemma connector_backs_off_safely_witness :
  exists s, run new_ example_events = Ok s /\ retries s = [500; 1000] /\ handed s = [7] /\ closed s = [5; 6].
Proof.
  destruct (connector_backs_off_safely example_events) as (s&E&_).
  - repeat match goal with
    | |- legal_run _ (_ :: _) => split; [|intros ? H; vm_compute in H; injection H as <-]
    | |- legal_run _ [] => exact I
    | |- legal_run _ _ => unfold example_events
    | |- legal _ (Start _ _ _) => repeat split
    | |- legal _ (HandleEvent _ _ _ _) => eexists; reflexivity
    | |- legal _ (RunFunctor _ _) => exact I
    | |- legal _ (TimerFires _ _) => vm_compute; intros H; inversion H
    end.
  - exists s. split; [exact E|]. vm_compute in E. injection E as <-. repeat split.
Defined.

End Connector.
