(* ===== verification/BaseDate.v ===== *)
(** src/muduo/base/Date.h and Date.cc: dates of the Gregorian calendar as
    Julian day numbers.

    The operations are those of a 32-bit [int], written out; division is C's,
    towards zero.  The file proves that none of them overflows for the dates of the
    years -4799 to 1,000,000 and the day numbers -32044 to 536,838,867, where the
    functions compute [julian_day] and [civil_date] exactly (beyond, signed overflow
    is undefined in C++, and the wrapped value here is one possibility).  The
    reference is the calendar itself: month lengths and leap years. *)

From S2P Require Import Prelude BaseTimestamp.

Module Date.

Record YearMonthDay := mkymd { year : Z; month : Z; day : Z }.

Definition kDaysPerWeek : Z := 7.

Definition getJulianDayNumber (year month day : Z) : Z :=
  let a := Z.quot (i32 (14 - month)) 12 in
  let y := i32 (i32 (year + 4800) - a) in
  let m := i32 (i32 (month + i32 (12 * a)) - 3) in
  i32 (i32 (i32 (i32 (i32 (i32 (day + Z.quot (i32 (i32 (153 * m) + 2)) 5) + i32 (y * 365)) + Z.quot y 4)
    - Z.quot y 100) + Z.quot y 400) - 32045).

Definition getYearMonthDay (julianDayNumber : Z) : YearMonthDay :=
  let a := i32 (julianDayNumber + 32044) in
  let b := Z.quot (i32 (i32 (4 * a) + 3)) 146097 in
  let c := i32 (a - Z.quot (i32 (b * 146097)) 4) in
  let d := Z.quot (i32 (i32 (4 * c) + 3)) 1461 in
  let e := i32 (c - Z.quot (i32 (1461 * d)) 4) in
  let m := Z.quot (i32 (i32 (5 * e) + 2)) 153 in
  mkymd (i32 (i32 (i32 (i32 (b * 100) + d) - 4800) + Z.quot m 10)) (i32 (i32 (m + 3) - i32 (12 * Z.quot m 10)))
    (i32 (i32 (e - Z.quot (i32 (i32 (153 * m) + 2)) 5) + 1)).

(** A date is its [julianDayNumber_]. *)
Definition kJulianDayOf1970_01_01 : Z := getJulianDayNumber 1970 1 1.
Definition of_ymd (y m d : Z) : Z := getJulianDayNumber y m d.
Definition of_tm (t : tm) : Z := getJulianDayNumber (tm_year t + 1900) (tm_mon t + 1) (tm_mday t).
Definition valid (j : Z) : bool := 0 <? j.
Definition yearMonthDay (j : Z) : YearMonthDay := getYearMonthDay j.
Definition weekDay (j : Z) : Z := Z.rem (i32 (j + 1)) kDaysPerWeek.
Definition toIsoString (j : Z) : bytes :=
  let ymd := yearMonthDay j in
  snprintf 32 (fmt_wd 4 (year ymd) ++ lit "-" ++ fmt_0d 2 (month ymd) ++ lit "-" ++ fmt_0d 2 (day ymd)).
Definition ltb (x y : Z) : bool := x <? y.
Definition eqb (x y : Z) : bool := x =? y.

(** * The calendar *)

Definition leap (y : Z) : bool := (y mod 4 =? 0) && (negb (y mod 100 =? 0) || (y mod 400 =? 0)).
Definition days_in_month (y m : Z) : Z :=
  if m =? 2 then (if leap y then 29 else 28)
  else if (m =? 4) || (m =? 6) || (m =? 9) || (m =? 11) then 30 else 31.
Definition valid_date (d : YearMonthDay) : Prop :=
  1 <= month d <= 12 /\ 1 <= day d <= days_in_month (year d) (month d).
Definition next_day (d : YearMonthDay) : YearMonthDay :=
  if day d <? days_in_month (year d) (month d) then mkymd (year d) (month d) (day d + 1)
  else if month d <? 12 then mkymd (year d) (month d + 1) 1
  else mkymd (year d + 1) 1 1.
Definition in_range (y : Z) : Prop := -4799 <= y <= 1000000.

(** The same computations on unbounded integers, and the values of their
    operations. *)
Definition julian_day (year month day : Z) : Z :=
  let a := Z.quot (14 - month) 12 in
  let y := year + 4800 - a in
  let m := month + 12 * a - 3 in
  day + Z.quot (153 * m + 2) 5 + y * 365 + Z.quot y 4 - Z.quot y 100 + Z.quot y 400 - 32045.
Definition civil_date (julianDayNumber : Z) : YearMonthDay :=
  let a := julianDayNumber + 32044 in
  let b := Z.quot (4 * a + 3) 146097 in
  let c := a - Z.quot (b * 146097) 4 in
  let d := Z.quot (4 * c + 3) 1461 in
  let e := c - Z.quot (1461 * d) 4 in
  let m := Z.quot (5 * e + 2) 153 in
  mkymd (b * 100 + d - 4800 + Z.quot m 10) (m + 3 - 12 * Z.quot m 10) (e - Z.quot (153 * m + 2) 5 + 1).
Definition date_ints (year month day : Z) : list Z :=
  let a := Z.quot (14 - month) 12 in
  let y := year + 4800 - a in
  let m := month + 12 * a - 3 in
  let n := day + Z.quot (153 * m + 2) 5 in
  [14 - month; year + 4800; y; 12 * a; month + 12 * a; m; 153 * m; 153 * m + 2; n; y * 365; n + y * 365;
   n + y * 365 + Z.quot y 4; n + y * 365 + Z.quot y 4 - Z.quot y 100;
   n + y * 365 + Z.quot y 4 - Z.quot y 100 + Z.quot y 400; julian_day year month day].
Definition number_ints (julianDayNumber : Z) : list Z :=
  let a := julianDayNumber + 32044 in
  let b := Z.quot (4 * a + 3) 146097 in
  let c := a - Z.quot (b * 146097) 4 in
  let d := Z.quot (4 * c + 3) 1461 in
  let e := c - Z.quot (1461 * d) 4 in
  let m := Z.quot (5 * e + 2) 153 in
  [a; 4 * a; 4 * a + 3; b * 146097; c; 4 * c; 4 * c + 3; 1461 * d; e; 5 * e; 5 * e + 2; 153 * m; 153 * m + 2;
   e - Z.quot (153 * m + 2) 5; e - Z.quot (153 * m + 2) 5 + 1; m + 3; 12 * Z.quot m 10; m + 3 - 12 * Z.quot m 10;
   b * 100; b * 100 + d; b * 100 + d - 4800; b * 100 + d - 4800 + Z.quot m 10].

(** * Lemmas *)

Lemma i32_exact x : srange 32 x -> i32 x = x.
Proof. by apply swrap_small. Qed.
Ltac exact_ints H :=
  repeat rewrite Forall_cons in H;
  repeat match goal with |- context [i32 ?x] =>
    lazymatch x with context [i32 _] => fail | _ => rewrite !(i32_exact x) by apply H end end.
Lemma date_ints_exact y m d : Forall (srange 32) (date_ints y m d) -> getJulianDayNumber y m d = julian_day y m d.
Proof. intros H. unfold date_ints in H. cbv zeta in H. unfold getJulianDayNumber. cbv zeta. exact_ints H. done. Qed.
Lemma number_ints_exact j : Forall (srange 32) (number_ints j) -> getYearMonthDay j = civil_date j.
Proof. intros H. unfold number_ints in H. cbv zeta in H. unfold getYearMonthDay. cbv zeta. exact_ints H. done. Qed.

(** A year counted from March: [y = 400 q + 100 r + 4 s + t]. *)
Definition parts (y q r s t : Z) : Prop :=
  y = 400 * q + 100 * r + 4 * s + t /\ 0 <= q /\ 0 <= r < 4 /\ 0 <= s < 25 /\ 0 <= t < 4.
Lemma parts_exist y : 0 <= y -> exists q r s t, parts y q r s t.
Proof.
  intros Hy. exists (y / 400), (y mod 400 / 100), (y mod 400 mod 100 / 4), (y mod 400 mod 100 mod 4).
  unfold parts. Z.to_euclidean_division_equations. lia.
Qed.

(** The length of the year that starts in March of year [y]. *)
Definition march_year_length (r s t : Z) : Z :=
  if (t =? 3) && (negb (s =? 24) || (r =? 3)) then 366 else 365.

(** The day [e] of the March year, in the inverse computation. *)
Lemma inverse_parts q r s t e :
  0 <= q -> 0 <= r < 4 -> 0 <= s < 25 -> 0 <= t < 4 -> 0 <= e < march_year_length r s t ->
  let a := 146097 * q + 36524 * r + 1461 * s + 365 * t + e in
  let b := Z.quot (4 * a + 3) 146097 in
  let c := a - Z.quot (b * 146097) 4 in
  let d := Z.quot (4 * c + 3) 1461 in
  b = 4 * q + r /\ c = 1461 * s + 365 * t + e /\ d = 4 * s + t /\ c - Z.quot (1461 * d) 4 = e.
Proof.
  intros Hq Hr Hs Ht He. cbn zeta.
  assert (e <= 365 /\ (e = 365 -> t = 3 /\ (s <> 24 \/ r = 3))) as (He2&He3).
  { unfold march_year_length in He. destruct (Z.eqb_spec t 3), (Z.eqb_spec s 24), (Z.eqb_spec r 3); cbn in He; lia. }
  assert (Z.quot (4 * (146097 * q + 36524 * r + 1461 * s + 365 * t + e) + 3) 146097 = 4 * q + r) as Eb.
  { rewrite Z.quot_div_nonneg by lia. symmetry. apply (Z.div_unique _ _ _
      (4 * (146097 * q + 36524 * r + 1461 * s + 365 * t + e) + 3 - 146097 * (4 * q + r))); lia. }
  rewrite Eb.
  assert (Z.quot ((4 * q + r) * 146097) 4 = 146097 * q + 36524 * r) as Ec.
  { rewrite Z.quot_div_nonneg by lia. symmetry. apply (Z.div_unique _ _ _ r); lia. }
  rewrite Ec.
  assert (Z.quot (4 * (146097 * q + 36524 * r + 1461 * s + 365 * t + e - (146097 * q + 36524 * r)) + 3) 1461 = 4 * s + t) as Ed.
  { rewrite Z.quot_div_nonneg by lia. symmetry. apply (Z.div_unique _ _ _
      (4 * (1461 * s + 365 * t + e) + 3 - 1461 * (4 * s + t))); lia. }
  rewrite Ed. split_and!; [done|lia|done|].
  assert (Z.quot (1461 * (4 * s + t)) 4 = 1461 * s + 365 * t) as ->; [|lia].
  rewrite Z.quot_div_nonneg by lia. symmetry. apply (Z.div_unique _ _ _ t); lia.
Qed.

(** The leap day closes the March year before. *)
Lemma leap_parts y q r s t :
  parts y q r s t -> leap (y + 1) = (t =? 3) && (negb (s =? 24) || (r =? 3)).
Proof.
  unfold parts, leap. intros (->&?&?&?&?).
  destruct (Z.eqb_spec t 3), (Z.eqb_spec s 24), (Z.eqb_spec r 3),
    (Z.eqb_spec ((400 * q + 100 * r + 4 * s + t + 1) mod 4) 0),
    (Z.eqb_spec ((400 * q + 100 * r + 4 * s + t + 1) mod 100) 0),
    (Z.eqb_spec ((400 * q + 100 * r + 4 * s + t + 1) mod 400) 0); cbn; try done;
    exfalso; Z.to_euclidean_division_equations; lia.
Qed.

(** 4800 years are whole cycles. *)
Lemma leap_shift y : leap y = leap (y + 4800).
Proof.
  unfold leap. replace ((y + 4800) mod 4) with (y mod 4);
    [replace ((y + 4800) mod 100) with (y mod 100);
      [replace ((y + 4800) mod 400) with (y mod 400); [done|]|]|].
  - by rewrite <-(Z.mod_add y 12 400).
  - by rewrite <-(Z.mod_add y 48 100).
  - by rewrite <-(Z.mod_add y 1200 4).
Qed.

Lemma month_cases m :
  1 <= m <= 12 ->
  m = 1 \/ m = 2 \/ m = 3 \/ m = 4 \/ m = 5 \/ m = 6 \/ m = 7 \/ m = 8 \/ m = 9 \/ m = 10 \/ m = 11 \/ m = 12.
Proof. lia. Qed.
Ltac each_month H :=
  apply month_cases in H;
  destruct H as [ -> | [ -> | [ -> | [ -> | [ -> | [ -> | [ -> | [ -> | [ -> | [ -> | [ -> | -> ]]]]]]]]]]].

(** The March year and the month counted from March, as the code has them. *)
Definition march_shift (month : Z) : Z := if month <=? 2 then 1 else 0.
Definition march_month (month : Z) : Z := month + 12 * march_shift month - 3.
Definition month_start (m' : Z) : Z := (153 * m' + 2) / 5.

Lemma quot_shift m : 1 <= m <= 12 -> Z.quot (14 - m) 12 = march_shift m.
Proof. intros Hm. each_month Hm; reflexivity. Qed.

(** The forward computation adds up whole cycles, years and days. *)
Lemma jdn_parts y m d q r s t :
  1 <= m <= 12 -> parts (y + 4800 - march_shift m) q r s t ->
  julian_day y m d + 32044 =
    146097 * q + 36524 * r + 1461 * s + 365 * t + (month_start (march_month m) + d - 1).
Proof.
  intros Hm (Hy&Hq&Hr&Hs&Ht). unfold julian_day. rewrite (quot_shift m Hm).
  change (m + 12 * march_shift m - 3) with (march_month m). rewrite Hy.
  assert (0 <= march_month m) by (each_month Hm; by vm_compute).
  rewrite (Z.quot_div_nonneg (153 * march_month m + 2)) by lia.
  change ((153 * march_month m + 2) / 5) with (month_start (march_month m)).
  rewrite !Z.quot_div_nonneg by lia.
  rewrite <-(Z.div_unique (400 * q + 100 * r + 4 * s + t) 4 (100 * q + 25 * r + s) t) by lia.
  rewrite <-(Z.div_unique (400 * q + 100 * r + 4 * s + t) 100 (4 * q + r) (4 * s + t)) by lia.
  rewrite <-(Z.div_unique (400 * q + 100 * r + 4 * s + t) 400 q (100 * r + 4 * s + t)) by lia.
  lia.
Qed.

(** Where in the March year a valid date lies, and that the month is found
    back from there. *)
Lemma month_parts y m d q r s t :
  parts (y + 4800 - march_shift m) q r s t -> valid_date (mkymd y m d) ->
  let e := month_start (march_month m) + d - 1 in
  0 <= e < march_year_length r s t /\ Z.quot (5 * e + 2) 153 = march_month m.
Proof.
  intros Hq (Hm&Hd). cbn [year month day] in *.
  assert (m = 2 -> leap y = (t =? 3) && (negb (s =? 24) || (r =? 3))) as Hleap.
  { intros ->. rewrite <-(leap_parts _ _ _ _ _ Hq). change (march_shift 2) with 1.
    rewrite (leap_shift y). f_equal. lia. }
  cbn zeta. unfold march_year_length. clear Hq.
  each_month Hm; (destruct (decide (leap y = true)) as [Hl|Hl%not_true_is_false];
    unfold days_in_month in Hd; rewrite ?Hl in Hd; cbn in Hd;
    try (rewrite <-Hleap, Hl by done);
    match goal with |- context [month_start ?x] =>
      let v := eval vm_compute in (month_start x) in change (month_start x) with v;
      let v := eval vm_compute in x in change x with v end;
    rewrite Z.quot_div_nonneg by lia;
    (split; [try destruct (_ && _); lia |]); symmetry;
    match goal with |- ?k = ?x / 153 => apply (Z.div_unique_pos x 153 k (x - 153 * k)); lia end).
Qed.

Lemma valid_date_parts x :
  valid_date x -> in_range (year x) ->
  exists q r s t, parts (year x + 4800 - march_shift (month x)) q r s t.
Proof.
  intros _ (?&_). apply parts_exist. unfold march_shift. destruct (_ <=? 2); lia.
Qed.

(** From the position in the March year back to the date. *)
Lemma date_of_parts m :
  1 <= m <= 12 -> march_month m + 3 - 12 * Z.quot (march_month m) 10 = m /\ Z.quot (march_month m) 10 = march_shift m.
Proof. intros Hm. each_month Hm; done. Qed.

Lemma civil_roundtrip x :
  valid_date x -> in_range (year x) ->
  civil_date (julian_day (year x) (month x) (day x)) = x.
Proof.
  intros Hv Hr. destruct (valid_date_parts x Hv Hr) as (q&r&s&t&Hp).
  destruct x as [y m d]. cbn [year month day] in *. pose proof Hv as (Hm&_). cbn [month] in Hm.
  destruct (month_parts y m d q r s t Hp Hv) as (He&Emonth).
  pose proof Hp as (Hy&Hq&Hr'&Hs&Ht).
  destruct (inverse_parts q r s t _ Hq Hr' Hs Ht He) as (Eb&_&Ed&Ee).
  unfold civil_date. rewrite (jdn_parts y m d q r s t Hm Hp).
  cbn zeta in *. rewrite Eb in *. rewrite Ed in *. rewrite Ee in *. rewrite Emonth.
  destruct (date_of_parts m Hm) as (E1&E2). rewrite E1, E2.
  assert (0 <= march_month m) by (each_month Hm; by vm_compute).
  rewrite Z.quot_div_nonneg by lia. unfold month_start. f_equal; lia.
Qed.

(** Every day number lies in some March year. *)
Lemma day_parts a :
  0 <= a ->
  exists q r s t e, 0 <= q /\ 0 <= r < 4 /\ 0 <= s < 25 /\ 0 <= t < 4 /\ 0 <= e < march_year_length r s t /\
    a = 146097 * q + 36524 * r + 1461 * s + 365 * t + e.
Proof.
  intros Ha.
  set (q := a / 146097). set (a1 := a mod 146097).
  set (r := Z.min 3 (a1 / 36524)). set (a2 := a1 - 36524 * r).
  set (s := a2 / 1461). set (a3 := a2 mod 1461).
  set (t := Z.min 3 (a3 / 365)). exists q, r, s, t, (a3 - 365 * t).
  assert (a = 146097 * q + a1 /\ 0 <= a1 < 146097 /\ 0 <= q) as (?&?&?).
  { unfold q, a1. Z.to_euclidean_division_equations. lia. }
  assert (0 <= r < 4 /\ 0 <= a2 <= 36524 /\ (a2 = 36524 -> r = 3)) as (?&?&?).
  { unfold a2, r. clearbody q a1. Z.to_euclidean_division_equations. lia. }
  assert (a2 = 1461 * s + a3 /\ 0 <= a3 < 1461 /\ 0 <= s < 25) as (?&?&?).
  { unfold s, a3. clearbody q a1 r a2. Z.to_euclidean_division_equations. lia. }
  assert (0 <= t < 4 /\ 0 <= a3 - 365 * t <= 365 /\ (a3 - 365 * t = 365 -> t = 3)) as (?&?&?).
  { unfold t. clearbody q a1 r a2 s a3. Z.to_euclidean_division_equations. lia. }
  clearbody q t s a3. assert (a2 = a1 - 36524 * r) by done. clearbody a1 r a2.
  split_and!; try lia. unfold march_year_length.
  destruct (Z.eqb_spec t 3), (Z.eqb_spec s 24), (Z.eqb_spec r 3); cbn; lia.
Qed.

(** The position in the March year names a valid day of the month. *)
Lemma date_of_position q r s t e :
  0 <= q -> 0 <= r < 4 -> 0 <= s < 25 -> 0 <= t < 4 -> 0 <= e < march_year_length r s t ->
  let m' := Z.quot (5 * e + 2) 153 in
  let m := m' + 3 - 12 * Z.quot m' 10 in
  let y := 400 * q + 100 * r + 4 * s + t - 4800 + Z.quot m' 10 in
  let d := e - Z.quot (153 * m' + 2) 5 + 1 in
  valid_date (mkymd y m d) /\ march_shift m = Z.quot m' 10 /\ march_month m = m' /\
  Z.quot (153 * m' + 2) 5 = month_start m'.
Proof.
  intros Hq Hr Hs Ht He. cbn zeta.
  assert (He' : 0 <= e <= 365) by (unfold march_year_length in He; destruct (_ && _) in He; lia).
  assert (exists m, 1 <= m <= 12 /\ Z.quot (5 * e + 2) 153 = march_month m) as (m&Hm&Em).
  { assert (0 <= Z.quot (5 * e + 2) 153 < 12) as Hm'.
    { rewrite Z.quot_div_nonneg by lia. clear -He'. Z.to_euclidean_division_equations. lia. }
    destruct (decide (Z.quot (5 * e + 2) 153 < 10)).
    - exists (Z.quot (5 * e + 2) 153 + 3). split; [lia|]. unfold march_month, march_shift.
      destruct (Z.leb_spec (Z.quot (5 * e + 2) 153 + 3) 2); lia.
    - exists (Z.quot (5 * e + 2) 153 - 9). split; [lia|]. unfold march_month, march_shift.
      destruct (Z.leb_spec (Z.quot (5 * e + 2) 153 - 9) 2); lia. }
  rewrite Em. destruct (date_of_parts m Hm) as (E1&E2). rewrite E1, E2.
  assert (153 * march_month m <= 5 * e + 2 < 153 * march_month m + 153) as Hb.
  { rewrite <-Em, Z.quot_div_nonneg by lia. clear -He'. Z.to_euclidean_division_equations. lia. }
  assert (m = 2 -> leap (400 * q + 100 * r + 4 * s + t - 4800 + march_shift m) = (t =? 3) && (negb (s =? 24) || (r =? 3))) as Hleap.
  { intros ->. change (march_shift 2) with 1.
    rewrite (leap_shift (400 * q + 100 * r + 4 * s + t - 4800 + 1)), <-(leap_parts (400 * q + 100 * r + 4 * s + t) q r s t).
    - f_equal. lia.
    - unfold parts. lia. }
  revert Hleap. generalize (400 * q + 100 * r + 4 * s + t - 4800 + march_shift m) as y. intros y Hleap.
  clear Em E1 E2.
  unfold march_year_length in He.
  each_month Hm; (unfold valid_date, days_in_month; cbn [year month day];
    (split_and!; try done);
    match goal with
    | |- context [Z.quot ?x ?y] => let v := eval vm_compute in (Z.quot x y) in change (Z.quot x y) with v
    end;
    match type of Hb with context [march_month ?x] =>
      let v := eval vm_compute in (march_month x) in change (march_month x) with v in Hb end;
    cbn [Z.eqb Pos.eqb orb];
    try (rewrite Hleap by done; destruct (_ && _)); lia).
Qed.

Lemma julian_roundtrip j :
  -32044 <= j ->
  let x := civil_date j in
  valid_date x /\ julian_day (year x) (month x) (day x) = j.
Proof.
  intros Hj. destruct (day_parts (j + 32044)) as (q&r&s&t&e&Hq&Hr&Hs&Ht&He&Ea); [lia|].
  destruct (inverse_parts q r s t e Hq Hr Hs Ht He) as (Eb&_&Ed&Ee).
  destruct (date_of_position q r s t e Hq Hr Hs Ht He) as (Hv&Esh&Emm&Est).
  cbn zeta in *. unfold civil_date. rewrite Ea. rewrite Eb in *. rewrite Ed in *. rewrite Ee in *.
  replace ((4 * q + r) * 100 + (4 * s + t) - 4800) with (400 * q + 100 * r + 4 * s + t - 4800) by lia.
  split; [exact Hv|]. cbn [year month day].
  apply (Z.add_cancel_r _ _ 32044). rewrite Ea. rewrite (jdn_parts _ _ _ q r s t).
  - rewrite Emm, <-Est. lia.
  - apply Hv.
  - rewrite Esh. unfold parts. lia.
Qed.

(** The first of March follows the last of February. *)
Lemma march_first_aux y :
  -4799 <= y -> julian_day y 3 1 = julian_day y 2 (if leap y then 29 else 28) + 1.
Proof.
  intros Hy. destruct (parts_exist (y + 4799)) as (q&r&s&t&Hp); [lia|].
  pose proof (jdn_parts y 2 (if leap y then 29 else 28) q r s t) as H2.
  change (march_shift 2) with 1 in H2. replace (y + 4800 - 1) with (y + 4799) in H2 by lia.
  specialize (H2 ltac:(lia) Hp). change (month_start (march_month 2)) with 337 in H2.
  rewrite (leap_shift y) in H2 |- *. replace (y + 4800) with (y + 4799 + 1) in H2 |- * by lia.
  rewrite (leap_parts _ _ _ _ _ Hp) in H2 |- *. destruct Hp as (Hy'&?&?&?&?).
  assert (forall q' r' s' t', parts (y + 4800) q' r' s' t' ->
    julian_day y 3 1 + 32044 = 146097 * q' + 36524 * r' + 1461 * s' + 365 * t') as Hmar.
  { intros q' r' s' t' Hp. rewrite (jdn_parts y 3 1 q' r' s' t'); [|lia|].
    - change (month_start (march_month 3)) with 0. lia.
    - change (march_shift 3) with 0. by rewrite Z.sub_0_r. }
  destruct (Z.eqb_spec t 3), (Z.eqb_spec s 24), (Z.eqb_spec r 3); cbn [andb orb negb] in *;
    first
      [ specialize (Hmar q r s (t + 1)); unfold parts in Hmar; lia
      | specialize (Hmar q r (s + 1) 0); unfold parts in Hmar; lia
      | specialize (Hmar q (r + 1) 0 0); unfold parts in Hmar; lia
      | specialize (Hmar (q + 1) 0 0 0); unfold parts in Hmar; lia ].
Qed.

Lemma julian_next_day x :
  valid_date x -> in_range (year x) ->
  let y := next_day x in
  valid_date y /\ julian_day (year y) (month y) (day y) = julian_day (year x) (month x) (day x) + 1.
Proof.
  intros (Hm&Hd) (Hlo&_). destruct x as [y m d]. unfold next_day. cbn [year month day] in *.
  destruct (Z.ltb_spec d (days_in_month y m)).
  { split; [split; cbn [year month day]; lia|]. unfold julian_day. cbn zeta. cbn [year month day]. lia. }
  assert (d = days_in_month y m) as -> by lia. clear H Hd. unfold days_in_month.
  each_month Hm; cbn [Z.ltb Z.eqb Pos.eqb orb Z.compare Pos.compare Pos.compare_cont year month day];
    repeat match goal with |- context [Zpos ?p + 1] =>
      let v := eval vm_compute in (Zpos p + 1) in change (Zpos p + 1) with v end;
    (split; [unfold valid_date, days_in_month; cbn [Z.eqb Pos.eqb orb year month day]; try destruct (leap _); lia|]).
  2: exact (march_first_aux y Hlo).
  all: unfold julian_day; cbn zeta;
    repeat match goal with |- context [Z.quot (14 - ?m) 12] =>
      let v := eval vm_compute in (Z.quot (14 - m) 12) in change (Z.quot (14 - m) 12) with v end.
  all: repeat match goal with |- context [Z.quot (153 * ?m + 2) 5] =>
      let v := eval vm_compute in (Z.quot (153 * m + 2) 5) in change (Z.quot (153 * m + 2) 5) with v end.
  all: try replace (y + 1 + 4800 - 1) with (y + 4800 - 0) by lia; lia.
Qed.

Lemma julian_bounds x :
  valid_date x -> in_range (year x) ->
  0 <= 4 * (julian_day (year x) (month x) (day x) + 32044) + 3 <= 2 ^ 31 - 1.
Proof.
  intros Hv Hr. destruct (valid_date_parts x Hv Hr) as (q&r&s&t&Hp).
  destruct x as [y m d]. cbn [year month day] in *. pose proof Hv as (Hm&_). cbn [month] in Hm.
  destruct (month_parts y m d q r s t Hp Hv) as (He&_).
  rewrite (jdn_parts y m d q r s t Hm Hp). cbn zeta in He.
  assert (march_year_length r s t <= 366) by (unfold march_year_length; destruct (_ && _); lia).
  assert (0 <= march_shift m) by (unfold march_shift; destruct (_ <=? _); lia).
  destruct Hp, Hr. lia.
Qed.

(** * No operation overflows *)

Definition in_int (j : Z) : Prop := -32044 <= j <= 536838867.

Lemma quot_between x k n : 0 <= x -> 0 < k -> x < k * (n + 1) -> 0 <= Z.quot x k <= n.
Proof.
  intros Hx Hk Hn. rewrite Z.quot_div_nonneg by lia. split; [apply Z.div_pos; lia|].
  enough (x / k < n + 1) by lia. by apply Z.div_lt_upper_bound.
Qed.
Lemma date_ints_fit y m d :
  1 <= m <= 12 -> 1 <= d <= 31 -> 0 <= y + 4800 - march_shift m <= 2000000 -> Forall (srange 32) (date_ints y m d).
Proof.
  intros Hm Hd Hy. unfold date_ints, julian_day. cbv zeta. rewrite (quot_shift m Hm).
  assert (0 <= march_shift m <= 1 /\ 0 <= march_month m <= 11 /\ m + 12 * march_shift m - 3 = march_month m) as (?&?&->)
    by (each_month Hm; by vm_compute).
  assert (0 <= Z.quot (153 * march_month m + 2) 5 <= 337).
  { apply quot_between; lia. }
  set (z := y + 4800 - march_shift m) in *.
  assert (0 <= Z.quot z 4 <= z /\ 0 <= Z.quot z 100 <= z /\ 0 <= Z.quot z 400 <= z) as (?&?&?)
    by (split; [|split]; apply quot_between; lia).
  repeat constructor; unfold srange; lia.
Qed.
Lemma number_ints_fit j : in_int j -> Forall (srange 32) (number_ints j).
Proof.
  intros Hj. destruct (day_parts (j + 32044)) as (q&r&s&t&e&Hq&Hr&Hs&Ht&He&Ea); [unfold in_int in Hj; lia|].
  destruct (inverse_parts q r s t e Hq Hr Hs Ht He) as (Eb&Ec&Ed&Ee).
  assert (0 <= e <= 365) as He' by (unfold march_year_length in He; destruct (_ && _) in He; lia).
  unfold number_ints, in_int in *. cbv zeta in *. rewrite Ea. rewrite Eb in *. rewrite Ec in *. rewrite Ed in *. rewrite Ee in *.
  assert (0 <= Z.quot (5 * e + 2) 153 <= 11) as Hm by (apply quot_between; lia).
  set (m := Z.quot (5 * e + 2) 153) in *. clearbody m.
  assert (0 <= Z.quot (153 * m + 2) 5 <= 337 /\ 0 <= Z.quot m 10 <= 1) as (?&?)
    by (split; apply quot_between; lia).
  repeat constructor; unfold srange; lia.
Qed.

Lemma days_bounds x : valid_date x -> 1 <= month x <= 12 /\ 1 <= day x <= 31.
Proof. intros (Hm&Hd). split; [done|]. unfold days_in_month in Hd. repeat case_match; lia. Qed.
Lemma shift_bounds m : 0 <= march_shift m <= 1.
Proof. unfold march_shift. destruct (_ <=? _); lia. Qed.
Lemma date_ints_in_range x : valid_date x -> in_range (year x) ->
  Forall (srange 32) (date_ints (year x) (month x) (day x)).
Proof.
  intros Hv (H1&H2). destruct (days_bounds x Hv). pose proof (shift_bounds (month x)). apply date_ints_fit; lia.
Qed.
Lemma of_ymd_exact x : valid_date x -> in_range (year x) ->
  getJulianDayNumber (year x) (month x) (day x) = julian_day (year x) (month x) (day x).
Proof. intros. by apply date_ints_exact, date_ints_in_range. Qed.
Lemma civil_exact j : in_int j -> getYearMonthDay j = civil_date j.
Proof. intros. by apply number_ints_exact, number_ints_fit. Qed.

Lemma date_number_bounds x : valid_date x -> in_range (year x) -> in_int (getJulianDayNumber (year x) (month x) (day x)).
Proof.
  intros Hv Hr. rewrite of_ymd_exact by done. pose proof (julian_bounds x Hv Hr). unfold in_int. lia.
Qed.
Lemma date_roundtrip_aux x : valid_date x -> in_range (year x) ->
  getYearMonthDay (getJulianDayNumber (year x) (month x) (day x)) = x.
Proof.
  intros Hv Hr. rewrite (civil_exact _ (date_number_bounds x Hv Hr)), (of_ymd_exact x Hv Hr). exact (civil_roundtrip x Hv Hr).
Qed.
Lemma civil_year j : in_int j -> 0 <= year (civil_date j) + 4800 - march_shift (month (civil_date j)) <= 2000000.
Proof.
  intros Hj. destruct (day_parts (j + 32044)) as (q&r&s&t&e&Hq&Hr&Hs&Ht&He&Ea); [unfold in_int in Hj; lia|].
  destruct (inverse_parts q r s t e Hq Hr Hs Ht He) as (Eb&_&Ed&Ee).
  destruct (date_of_position q r s t e Hq Hr Hs Ht He) as (_&Esh&_&_).
  unfold in_int in Hj. cbn zeta in *. unfold civil_date. cbv zeta. rewrite Ea. rewrite Eb in *. rewrite Ed in *. rewrite Ee in *.
  cbn [year month]. rewrite Esh. lia.
Qed.
Lemma number_roundtrip_aux j : in_int j ->
  let x := getYearMonthDay j in
  valid_date x /\ Forall (srange 32) (date_ints (year x) (month x) (day x)) /\
  getJulianDayNumber (year x) (month x) (day x) = j.
Proof.
  intros Hj. cbn zeta. rewrite civil_exact by done. destruct (julian_roundtrip j) as (Hv&Ej); [unfold in_int in Hj; lia|].
  split; [done|]. assert (Forall (srange 32) (date_ints (year (civil_date j)) (month (civil_date j)) (day (civil_date j)))) as Hf.
  { destruct (days_bounds _ Hv). pose proof (civil_year j Hj). by apply date_ints_fit. }
  split; [done|]. by rewrite (date_ints_exact _ _ _ Hf).
Qed.
Lemma next_day_aux x : valid_date x -> in_range (year x) ->
  let y := next_day x in
  valid_date y /\ getJulianDayNumber (year y) (month y) (day y) = getJulianDayNumber (year x) (month x) (day x) + 1.
Proof.
  intros Hv Hr. destruct (julian_next_day x Hv Hr) as (Hv'&Ey). cbn zeta in *. split; [done|].
  rewrite (of_ymd_exact x Hv Hr), <-Ey. apply date_ints_exact. destruct (days_bounds _ Hv'). apply date_ints_fit; [done|done|].
  pose proof (shift_bounds (month (next_day x))). unfold in_range in Hr.
  assert (year x <= year (next_day x) <= year x + 1) as Hy; [|lia].
  unfold next_day. repeat case_match; cbn; lia.
Qed.

Lemma week_step n : in_int n -> 0 <= n -> weekDay (n + 1) = if weekDay n =? 6 then 0 else weekDay n + 1.
Proof.
  intros Hn Hpos. unfold in_int in Hn. unfold weekDay, kDaysPerWeek. rewrite !i32_exact by (unfold srange; lia).
  rewrite !Z.rem_mod_nonneg by lia. destruct (Z.eqb_spec ((n + 1) mod 7) 6); Z.to_euclidean_division_equations; lia.
Qed.

(** * Properties *)

(** Thursday, 1 January 1970 is day 2440588. *)
Example epoch_day : kJulianDayOf1970_01_01 = 2440588 /\ weekDay kJulianDayOf1970_01_01 = 4 /\
  toIsoString kJulianDayOf1970_01_01 = lit "1970-01-01".
Proof. by vm_compute. Qed.

(** C40: dates and day numbers.  For the valid dates of the years -4799 to
    1,000,000, the constructor and [yearMonthDay] are inverse, the calendar's
    next day is a valid date with the next number, on which [weekDay] moves on
    by one and from Saturday to Sunday; every number from -32044 to 536,838,867
    names a valid date whose number it is; and in all these computations, both
    ways, no operation leaves the range of a 32-bit [int].  The next number does:
    [4 * a + 3] is 2^31 + 3. *)
Theorem date_numbers_follow_calendar (x : YearMonthDay) (j : Z) :
  valid_date x -> in_range (year x) -> -32044 <= j <= 536838867 ->
  let n := of_ymd (year x) (month x) (day x) in
  let x' := next_day x in
  let z := yearMonthDay j in
  yearMonthDay n = x /\
  (valid_date x' /\ of_ymd (year x') (month x') (day x') = n + 1) /\
  (0 <= n -> weekDay (n + 1) = if weekDay n =? 6 then 0 else weekDay n + 1) /\
  (valid_date z /\ of_ymd (year z) (month z) (day z) = j) /\
  Forall (srange 32) (date_ints (year x) (month x) (day x) ++ number_ints n) /\
  Forall (srange 32) (number_ints j ++ date_ints (year z) (month z) (day z)) /\
  ~ Forall (srange 32) (number_ints 536838868).
Proof.
  intros Hv Hr Hj. cbn zeta. unfold of_ymd. destruct (next_day_aux x Hv Hr) as (Hv'&E'). destruct (number_roundtrip_aux j Hj) as (Hz&Hf&Ez).
  pose proof (date_number_bounds x Hv Hr) as Hn.
  split_and!; [by apply date_roundtrip_aux|done|done| |done|done| | |].
  - by apply week_step.
  - apply Forall_app. split; [by apply date_ints_in_range|by apply number_ints_fit].
  - apply Forall_app. split; [by apply number_ints_fit|done].
  - intros H. unfold number_ints in H. cbv zeta in H. rewrite !Forall_cons in H. unfold srange in H. lia.
Qed.

Lemma date_numbers_follow_calendar_witness :
  yearMonthDay (of_ymd 2024 2 29) = mkymd 2024 2 29 /\ of_ymd 2024 3 1 = of_ymd 2024 2 29 + 1.
Proof.
  destruct (date_numbers_follow_calendar (mkymd 2024 2 29) 1721120) as (H1&(_&H2)&_).
  - vm_compute. intuition discriminate.
  - unfold in_range. cbn. lia.
  - lia.
  - cbn [year month day] in *. split_and!; [exact H1|exact H2].
Defined.
End Date.
