(* ===== verification/BaseMonitor.v ===== *)
(** src/muduo/base/Mutex.h and Condition.h, and the monitors built from them.

    A thread calls an operation of an object, waits for the object's mutex,
    tests the condition of its [while] loop, and either sleeps on a condition
    variable or runs the rest of the operation and leaves.  All data are
    touched under the mutex only, so the steps are: call, lock, run (one test
    of the loop condition with what follows it) and wake up.  notify() wakes a
    sleeping thread, whichever the scheduler picks; threads also wake up
    spuriously.  Holding the lock is recorded in the pthread mutex ([owner]) and
    in [holder_].

    The file proves mutual exclusion for every monitor, and a criterion by
    which no wake-up is lost ([served]): as long as a thread sleeps on a
    condition variable, enough threads are awake to use what is available. *)

From S2P Require Import Prelude.

Module Monitor.

(** * MutexLock *)

Record MutexLock := mkmutex { owner : option Z; holder_ : Z }.

Definition new_mutex : MutexLock := mkmutex None 0.
Definition assignHolder (tid : Z) (m : MutexLock) : MutexLock := mkmutex (owner m) tid.
Definition unassignHolder (m : MutexLock) : MutexLock := mkmutex (owner m) 0.
Definition isLockedByThisThread (tid : Z) (m : MutexLock) : bool := holder_ m =? tid.
Definition assertLocked (tid : Z) (m : MutexLock) : outcome unit :=
  massert (isLockedByThisThread tid m) "isLockedByThisThread()".
(** pthread_mutex_lock blocks while another thread owns the mutex. *)
Definition lock (tid : Z) (m : MutexLock) : option MutexLock :=
  match owner m with
  | None => Some (assignHolder tid (mkmutex (Some tid) (holder_ m)))
  | Some _ => None
  end.
Definition unlock (tid : Z) (m : MutexLock) : outcome MutexLock :=
  let m := unassignHolder m in
  massert (bool_decide (owner m = Some tid)) "errnum == 0";;
  Ok (mkmutex None (holder_ m)).
(** pthread_cond_wait inside an [UnassignGuard]: the mutex is released until
    the thread is woken and locks it again. *)
Definition wait (tid : Z) (m : MutexLock) : outcome MutexLock :=
  let m := unassignHolder m in
  massert (bool_decide (owner m = Some tid)) "errnum == 0";;
  Ok (mkmutex None (holder_ m)).
Definition destroy_mutex (m : MutexLock) : outcome unit :=
  massert (holder_ m =? 0) "holder_ == 0".

(** * Operations *)

Section Operation.
Context {D R Cv : Type}.

Inductive signal := Notify (c : Cv) | NotifyAll (c : Cv).

(** [MutexLockGuard lock(mutex_); while (test) c.wait(); rest].  The first
    argument of the two functions is [isLockedByThisThread()] of the thread
    that runs them. *)
Record operation := mkop {
  wait_on : option Cv;
  test : bool -> D -> outcome bool;
  rest : bool -> D -> outcome (D * R * list signal)
}.
(** An operation without a loop. *)
Definition no_wait (f : bool -> D -> outcome (D * R * list signal)) : operation :=
  mkop None (fun _ _ => Ok false) f.
End Operation.
Arguments signal : clear implicits.
Arguments operation : clear implicits.

Class Monitor (D Op R Cv : Type) := code : Op -> operation D R Cv.

(** * Threads *)

Section Threads.
Context {D Op R Cv : Type} `{!EqDecision Cv} `{!Monitor D Op R Cv}.

Inductive thread :=
| Idle
| Entering (o : Op)
| Inside (o : Op)
| Sleeping (c : Cv) (o : Op).

Record t := mk {
  data : D;
  mutex_ : MutexLock;
  threads : gmap Z thread;
  history : list (Z * Op * R)
}.
Definition set_threads (ths : gmap Z thread) (s : t) : t := mk (data s) (mutex_ s) ths (history s).

Definition sleeps_on (c : Cv) (th : thread) : bool :=
  match th with Sleeping c' _ => bool_decide (c' = c) | _ => false end.
Definition wake (th : thread) : thread :=
  match th with Sleeping _ o => Entering o | _ => th end.

(** pthread_cond_signal: the scheduler's choice if that thread sleeps there,
    else the first that does. *)
Definition notify (pick : Z) (c : Cv) (ths : gmap Z thread) : gmap Z thread :=
  match ths !! pick with
  | Some th => if sleeps_on c th then <[pick := wake th]> ths
      else match list_find (fun x => sleeps_on c x.2 = true) (map_to_list ths) with
           | Some (_, (i, th)) => <[i := wake th]> ths
           | None => ths
           end
  | None => match list_find (fun x => sleeps_on c x.2 = true) (map_to_list ths) with
            | Some (_, (i, th)) => <[i := wake th]> ths
            | None => ths
            end
  end.
(** pthread_cond_broadcast. *)
Definition notifyAll (c : Cv) (ths : gmap Z thread) : gmap Z thread :=
  (fun th => if sleeps_on c th then wake th else th) <$> ths.
Definition raise (pick : Z) (ths : gmap Z thread) (sg : signal Cv) : gmap Z thread :=
  match sg with Notify c => notify pick c ths | NotifyAll c => notifyAll c ths end.

Inductive event :=
| Call (tid : Z) (o : Op)
| Lock (tid : Z)
| Run (tid : Z) (pick : Z)
| Spurious (tid : Z).

(** One step of thread [tid]; a step that is not possible changes nothing. *)
Definition exec (s : t) (e : event) : outcome t :=
  match e with
  | Call tid o =>
      match threads s !! tid with
      | Some Idle => Ok (set_threads (<[tid := Entering o]> (threads s)) s)
      | _ => Ok s
      end
  | Lock tid =>
      match threads s !! tid, lock tid (mutex_ s) with
      | Some (Entering o), Some m => Ok (mk (data s) m (<[tid := Inside o]> (threads s)) (history s))
      | _, _ => Ok s
      end
  | Run tid pick =>
      match threads s !! tid with
      | Some (Inside o) =>
          let locked := isLockedByThisThread tid (mutex_ s) in
          again ← test (code o) locked (data s);
          match (again : bool), wait_on (code o) with
          | true, Some c =>
              m ← wait tid (mutex_ s);
              Ok (mk (data s) m (<[tid := Sleeping c o]> (threads s)) (history s))
          | _, _ =>
              '(d, r, sigs) ← rest (code o) locked (data s);
              m ← unlock tid (mutex_ s);
              Ok (mk d m (foldl (raise pick) (<[tid := Idle]> (threads s)) sigs) (history s ++ [(tid, o, r)]))
          end
      | _ => Ok s
      end
  | Spurious tid =>
      match threads s !! tid with
      | Some (Sleeping c o) => Ok (set_threads (<[tid := Entering o]> (threads s)) s)
      | _ => Ok s
      end
  end.
Definition run (s : t) (es : list event) : outcome t := foldM exec s es.

(** An object with its threads, none of them in a call.  Thread ids are
    positive. *)
Definition init (d : D) (tids : gset Z) : t :=
  mk d new_mutex (gset_to_gmap Idle (filter (fun i => 0 < i) tids)) [].

(** * Counting threads *)

Definition count (P : thread -> bool) (ths : gmap Z thread) : Z :=
  Z.of_nat (size (filter (fun x => P x.2 = true) ths)).
Definition awake (c : Cv) (th : thread) : bool :=
  match th with Entering o | Inside o => bool_decide (wait_on (code o) = Some c) | _ => false end.
Definition b2z (b : bool) : Z := if b then 1 else 0.

Lemma count_nonneg P ths : 0 <= count P ths.
Proof. unfold count. lia. Qed.

Lemma count_fresh P ths i x : ths !! i = None -> count P (<[i := x]> ths) = count P ths + b2z (P x).
Proof.
  intros Hi. unfold count. rewrite map_filter_insert. cbn. destruct (P x) eqn:E; cbn.
  - rewrite decide_True by done. rewrite map_size_insert_None; [lia|].
    apply map_lookup_filter_None. by left.
  - rewrite decide_False by done. rewrite delete_id by done. lia.
Qed.
Lemma count_update P ths i x y :
  ths !! i = Some y -> count P (<[i := x]> ths) = count P ths - b2z (P y) + b2z (P x).
Proof.
  intros Hi. rewrite <-(insert_delete_id ths i y) at 2 by done.
  rewrite <-(insert_delete_eq ths i x). rewrite !count_fresh by apply lookup_delete_eq. lia.
Qed.
Lemma count_pos P ths : 0 < count P ths -> exists i x, ths !! i = Some x /\ P x = true.
Proof.
  unfold count. intros Hc.
  destruct (map_choose (filter (fun x => P x.2 = true) ths)) as (i&x&Hx).
  { intros E. rewrite E, map_size_empty in Hc. lia. }
  apply map_lookup_filter_Some in Hx as [Hi Hp]. eauto.
Qed.
Lemma count_member P ths i x : ths !! i = Some x -> P x = true -> 0 < count P ths.
Proof.
  intros Hi Hp. pose proof (count_update P ths i x x Hi) as H.
  unfold count in *. assert (size (filter (fun x => P x.2 = true) ths) <> 0%nat); [|lia].
  intros E. apply map_size_empty_iff in E.
  assert (filter (fun x => P x.2 = true) ths !! i = Some x) as Hx by by apply map_lookup_filter_Some.
  by rewrite E, lookup_empty in Hx.
Qed.

Lemma count_fmap_le P Q f ths :
  (forall x, b2z (P x) <= b2z (Q (f x))) -> count P ths <= count Q (f <$> ths).
Proof.
  intros Hf. induction ths as [|i x m Hi IH] using map_ind; [done|].
  rewrite fmap_insert, !count_fresh by (rewrite ?lookup_fmap, ?Hi; done). specialize (Hf x). lia.
Qed.
Lemma count_fmap_ge P Q f ths :
  (forall x, b2z (Q (f x)) <= b2z (P x)) -> count Q (f <$> ths) <= count P ths.
Proof.
  intros Hf. induction ths as [|i x m Hi IH] using map_ind; [done|].
  rewrite fmap_insert, !count_fresh by (rewrite ?lookup_fmap, ?Hi; done). specialize (Hf x). lia.
Qed.

(** * Waking threads *)

(** Threads may have been woken, and nothing else. *)
Definition woken (ths ths' : gmap Z thread) : Prop :=
  forall i, ths' !! i = ths !! i \/
    exists c o, ths !! i = Some (Sleeping c o) /\ ths' !! i = Some (Entering o).
Definition sleep_ok (ths : gmap Z thread) : Prop :=
  forall i c o, ths !! i = Some (Sleeping c o) -> wait_on (code o) = Some c.

Lemma woken_refl ths : woken ths ths.
Proof. intros i. by left. Qed.
Lemma woken_trans ths1 ths2 ths3 : woken ths1 ths2 -> woken ths2 ths3 -> woken ths1 ths3.
Proof.
  intros H1 H2 i. destruct (H1 i) as [E1|(c&o&E1&E1')], (H2 i) as [E2|(c'&o'&E2&E2')].
  - left. congruence.
  - right. exists c', o'. split; congruence.
  - right. exists c, o. split; congruence.
  - congruence.
Qed.
Lemma woken_sleep_ok ths ths' : woken ths ths' -> sleep_ok ths -> sleep_ok ths'.
Proof. intros Hw Hs i c o Hi. destruct (Hw i) as [E|(?&?&_&E)]; [|congruence]. rewrite E in Hi. eauto. Qed.
Lemma woken_inside ths ths' i o : woken ths ths' -> ths' !! i = Some (Inside o) <-> ths !! i = Some (Inside o).
Proof. intros Hw. destruct (Hw i) as [->|(?&?&->&->)]; naive_solver. Qed.
Lemma woken_tids ths ths' i : woken ths ths' -> is_Some (ths' !! i) <-> is_Some (ths !! i).
Proof. intros Hw. destruct (Hw i) as [->|(?&?&->&->)]; [done|]. by split. Qed.
Lemma woken_one ths i c o : ths !! i = Some (Sleeping c o) -> woken ths (<[i := Entering o]> ths).
Proof.
  intros Hi j. destruct (decide (i = j)) as [<-|]; [|left; by rewrite lookup_insert_ne].
  right. exists c, o. by rewrite lookup_insert_eq.
Qed.

Lemma sleeps_on_inv c th : sleeps_on c th = true -> exists o, th = Sleeping c o.
Proof. destruct th; cbn; try done. intros ->%bool_decide_eq_true. eauto. Qed.

(** notify() wakes one sleeper if there is one. *)
Lemma notify_spec pick c ths :
  (notify pick c ths = ths /\ count (sleeps_on c) ths = 0) \/
  exists i o, ths !! i = Some (Sleeping c o) /\ notify pick c ths = <[i := Entering o]> ths.
Proof.
  assert (match list_find (fun x => sleeps_on c x.2 = true) (map_to_list ths) with
          | Some (_, (i, th)) => exists o, ths !! i = Some (Sleeping c o) /\ th = Sleeping c o
          | None => count (sleeps_on c) ths = 0 end) as Hfind.
  { destruct (list_find _ _) as [[k [i th]]|] eqn:E.
    - apply list_find_Some in E as (E&Hs&_). cbn in Hs. apply sleeps_on_inv in Hs as (o&->).
      apply list_elem_of_lookup_2, elem_of_map_to_list in E. eauto.
    - apply list_find_None in E. destruct (Z_le_gt_dec (count (sleeps_on c) ths) 0).
      { pose proof (count_nonneg (sleeps_on c) ths). lia. }
      destruct (count_pos (sleeps_on c) ths) as (i&x&Hi&Hx); [lia|].
      rewrite Forall_forall in E. destruct (E (i, x)); [|done]. by apply elem_of_map_to_list. }
  unfold notify. destruct (ths !! pick) as [th|] eqn:Ep; [destruct (sleeps_on c th) eqn:Es|].
  1: { apply sleeps_on_inv in Es as (o&->). right. exists pick, o. by split. }
  all: destruct (list_find _ _) as [[k [i th']]|]; [|by left];
    destruct Hfind as (o&?&->); right; by exists i, o.
Qed.

Lemma notifyAll_woken c ths : sleep_ok ths -> woken ths (notifyAll c ths).
Proof.
  intros Hs i. unfold notifyAll. rewrite lookup_fmap. destruct (ths !! i) as [th|] eqn:E; [|by left]. cbn.
  destruct (sleeps_on c th) eqn:Ec; [|by left]. apply sleeps_on_inv in Ec as (o&->). right. eauto.
Qed.
Lemma notifyAll_none c ths : count (sleeps_on c) (notifyAll c ths) = 0.
Proof.
  assert (count (sleeps_on c) (notifyAll c ths) <= count (fun _ => false) ths) as H.
  { apply count_fmap_ge. intros x. destruct (sleeps_on c x) eqn:E; [|by rewrite E].
    apply sleeps_on_inv in E as (o&->). done. }
  pose proof (count_nonneg (sleeps_on c) (notifyAll c ths)).
  enough (count (fun _ => false) ths = 0) by lia. clear.
  induction ths as [|i x m Hi IH] using map_ind; [done|]. rewrite count_fresh by done. cbn. lia.
Qed.

Definition is_notify (c : Cv) (sg : signal Cv) : bool :=
  match sg with Notify c' => bool_decide (c' = c) | NotifyAll _ => false end.
Fixpoint notifies (c : Cv) (sigs : list (signal Cv)) : Z :=
  match sigs with [] => 0 | sg :: sigs' => b2z (is_notify c sg) + notifies c sigs' end.
Definition notifies_all (c : Cv) (sigs : list (signal Cv)) : Prop := NotifyAll c ∈ sigs.

(** One signal, seen from the threads that wait for [c]. *)
Lemma raise_spec pick sg ths c :
  sleep_ok ths ->
  let ths' := raise pick ths sg in
  woken ths ths' /\ count (sleeps_on c) ths' <= count (sleeps_on c) ths /\
  count (awake c) ths <= count (awake c) ths' /\
  match sg with
  | Notify c' => c' = c -> count (sleeps_on c) ths' = 0 \/ count (awake c) ths + 1 <= count (awake c) ths'
  | NotifyAll c' => c' = c -> count (sleeps_on c) ths' = 0
  end.
Proof.
  intros Hs. destruct sg as [c'|c']; cbn.
  - destruct (notify_spec pick c' ths) as [(->&H0)|(i&o&Hi&->)].
    + split_and!; try lia || apply woken_refl. intros ->. by left.
    + pose proof (Hs _ _ _ Hi) as Hw. rewrite !(count_update _ _ _ _ _ Hi). cbn. rewrite Hw.
      split; [by eapply woken_one|]. destruct (decide (c' = c)) as [->|Hne].
      * rewrite !bool_decide_eq_true_2 by done. cbn. split_and!; lia.
      * rewrite !bool_decide_eq_false_2 by congruence. cbn. split_and!; lia || done.
  - split; [by apply notifyAll_woken|]. split_and!.
    + apply count_fmap_ge. intros x. destruct (sleeps_on c' x); [|done]. destruct x; cbn; try case_bool_decide; done.
    + apply count_fmap_le. intros x. destruct (sleeps_on c' x); [|done]. destruct x; cbn; try done. by case_bool_decide.
    + intros ->. apply notifyAll_none.
Qed.

Lemma raises_spec pick sigs ths c :
  sleep_ok ths ->
  let ths' := foldl (raise pick) ths sigs in
  woken ths ths' /\ count (sleeps_on c) ths' <= count (sleeps_on c) ths /\
  (count (sleeps_on c) ths' = 0 \/
   ~ notifies_all c sigs /\ count (awake c) ths + notifies c sigs <= count (awake c) ths').
Proof.
  revert ths. induction sigs as [|sg sigs IH]; intros ths Hs; cbn.
  { split; [apply woken_refl|]. split; [done|]. right. split; [by intros ?%elem_of_nil|]. unfold notifies. cbn. lia. }
  destruct (raise_spec pick sg ths c Hs) as (Hw&Hle&Haw&Hsg).
  destruct (IH (raise pick ths sg)) as (Hw'&Hle'&Hor); [by eapply woken_sleep_ok|].
  split; [by eapply woken_trans|]. split; [lia|]. destruct Hor as [H0|(Hna&Hc)]; [by left|].
  pose proof (count_nonneg (sleeps_on c) (foldl (raise pick) (raise pick ths sg) sigs)).
  unfold notifies_all in *. destruct sg as [c'|c']; cbn [notifies is_notify].
  - destruct (decide (c' = c)) as [->|].
    + rewrite bool_decide_eq_true_2 by done. cbn [b2z]. destruct (Hsg eq_refl) as [H0|H1]; [left; lia|]. right.
      split; [by intros [?|?]%elem_of_cons|lia].
    + rewrite bool_decide_eq_false_2 by done. cbn [b2z]. right. split; [by intros [?|?]%elem_of_cons|lia].
  - destruct (decide (c' = c)) as [->|].
    + left. specialize (Hsg eq_refl). lia.
    + right. split; [intros [?|?]%elem_of_cons; congruence|cbn [b2z]; lia].
Qed.

(** * Invariants of every monitor *)

(** Mutual exclusion: the thread inside is the owner of the mutex, and
    [holder_] says so. *)
Record lock_inv (s : t) : Prop := {
  lock_owner : forall i, owner (mutex_ s) = Some i <-> exists o, threads s !! i = Some (Inside o);
  lock_holder : holder_ (mutex_ s) = default 0 (owner (mutex_ s));
  lock_tids : forall i, is_Some (threads s !! i) -> 0 < i;
  lock_sleep : sleep_ok (threads s)
}.

Lemma init_lock_inv d tids : lock_inv (init d tids).
Proof.
  assert (forall i th, threads (init d tids) !! i = Some th -> th = Idle /\ 0 < i) as Hth.
  { intros i th Hi. cbn in Hi. apply lookup_gset_to_gmap_Some in Hi as [Hi <-].
    by apply elem_of_filter in Hi as [? _]. }
  split.
  - intros i. split; [done|]. intros (o&Hi). by apply Hth in Hi as [? _].
  - done.
  - intros i (th&Hi). by eapply Hth.
  - intros i c o Hi. by apply Hth in Hi as [? _].
Qed.

(** Steps other than new calls. *)
Definition internal (e : event) : bool := match e with Call _ _ => false | _ => true end.

(** The steps an event can be, with what they find. *)
Inductive step (s : t) : event -> t -> Prop :=
| SCall i o : threads s !! i = Some Idle -> step s (Call i o) (set_threads (<[i := Entering o]> (threads s)) s)
| SLock i o : threads s !! i = Some (Entering o) -> owner (mutex_ s) = None ->
    step s (Lock i) (mk (data s) (mkmutex (Some i) i) (<[i := Inside o]> (threads s)) (history s))
| SSleep i o c pick : threads s !! i = Some (Inside o) -> test (code o) true (data s) = Ok true ->
    wait_on (code o) = Some c ->
    step s (Run i pick) (mk (data s) new_mutex (<[i := Sleeping c o]> (threads s)) (history s))
| SLeave i o d r sigs pick : threads s !! i = Some (Inside o) ->
    (test (code o) true (data s) = Ok false \/ wait_on (code o) = None) ->
    rest (code o) true (data s) = Ok (d, r, sigs) ->
    step s (Run i pick) (mk d new_mutex (foldl (raise pick) (<[i := Idle]> (threads s)) sigs) (history s ++ [(i, o, r)]))
| SWake i o c : threads s !! i = Some (Sleeping c o) ->
    step s (Spurious i) (set_threads (<[i := Entering o]> (threads s)) s).

(** What the code of the operations may do wrong. *)
Definition code_ok (s : t) (o : Op) : Prop :=
  exists again, test (code o) true (data s) = Ok again /\
    (again = false \/ wait_on (code o) = None -> is_ok (rest (code o) true (data s)) = true).

Lemma inside_locked s i o :
  lock_inv s -> threads s !! i = Some (Inside o) ->
  isLockedByThisThread i (mutex_ s) = true /\ owner (mutex_ s) = Some i.
Proof.
  intros Hl Hi. assert (owner (mutex_ s) = Some i) as Ho by (apply (lock_owner _ Hl); eauto).
  split; [|done]. unfold isLockedByThisThread. rewrite (lock_holder _ Hl), Ho. apply Z.eqb_refl.
Qed.

(** An event is a step, or is not possible. *)
Lemma exec_step s e :
  lock_inv s -> (forall i o, threads s !! i = Some (Inside o) -> code_ok s o) ->
  exists s', exec s e = Ok s' /\ (s' = s \/ step s e s').
Proof.
  intros Hl Hok. destruct e as [i o|i|i pick|i]; cbn.
  - destruct (threads s !! i) as [[]|] eqn:Ei; eauto. eexists. split; [done|]. right. by constructor.
  - destruct (threads s !! i) as [[]|] eqn:Ei; eauto. unfold lock.
    destruct (owner (mutex_ s)) eqn:Eo; eauto. eexists. split; [done|]. right. by constructor.
  - destruct (threads s !! i) as [[]|] eqn:Ei; eauto. destruct (inside_locked s i o Hl Ei) as (Hlk&Ho).
    destruct (Hok _ _ Ei) as (again&Hag&Hrest). rewrite Hlk, Hag. cbn [mbind outcome_bind].
    unfold unlock, wait, unassignHolder. cbn [owner]. rewrite Ho, bool_decide_eq_true_2 by done.
    destruct again; [destruct (wait_on (code o)) as [c|] eqn:Ew|].
    + eexists. split; [done|]. right. by econstructor.
    + destruct (rest (code o) true (data s)) as [[[d r] sigs]|] eqn:Er; [|by discriminate Hrest; right].
      eexists. split; [done|]. right. econstructor; eauto.
    + destruct (rest (code o) true (data s)) as [[[d r] sigs]|] eqn:Er; [|by discriminate Hrest; left].
      eexists. split; [destruct (wait_on (code o)); done|]. right. econstructor; eauto.
  - destruct (threads s !! i) as [[]|] eqn:Ei; eauto. eexists. split; [done|]. right. by econstructor.
Qed.

(** The parts of [lock_inv] after thread [i] changed its place. *)
Lemma insert_tids (ths : gmap Z thread) i th th' :
  (forall j, is_Some (ths !! j) -> 0 < j) -> ths !! i = Some th ->
  forall j, is_Some (<[i := th']> ths !! j) -> 0 < j.
Proof.
  intros Ht Hi j Hj. apply Ht. destruct (decide (i = j)) as [<-|]; [by rewrite Hi|].
  by rewrite lookup_insert_ne in Hj.
Qed.
Lemma insert_sleep_ok ths i th :
  sleep_ok ths -> (forall c o, th = Sleeping c o -> wait_on (code o) = Some c) -> sleep_ok (<[i := th]> ths).
Proof.
  intros Hs Hth j c o Hj. destruct (decide (i = j)) as [<-|].
  - rewrite lookup_insert_eq in Hj. injection Hj as ->. by apply Hth.
  - rewrite lookup_insert_ne in Hj by done. eauto.
Qed.
Lemma insert_inside (ths : gmap Z thread) i j th th' o :
  ths !! i = Some th -> (forall o, th <> Inside o) -> (forall o, th' <> Inside o) ->
  <[i := th']> ths !! j = Some (Inside o) <-> ths !! j = Some (Inside o).
Proof.
  intros Hi H1 H2. destruct (decide (i = j)) as [<-|]; [|by rewrite lookup_insert_ne].
  rewrite lookup_insert_eq, Hi. split; intros [= ->]; [by destruct (H2 o)|by destruct (H1 o)].
Qed.
Lemma leave_inside s i j o th :
  lock_inv s -> threads s !! i = Some (Inside o) -> (forall o, th <> Inside o) ->
  ~ exists o', <[i := th]> (threads s) !! j = Some (Inside o').
Proof.
  intros Hl Hi Hth (o'&Hj). destruct (decide (i = j)) as [<-|].
  - rewrite lookup_insert_eq in Hj. injection Hj as ->. by destruct (Hth o').
  - rewrite lookup_insert_ne in Hj by done.
    assert (owner (mutex_ s) = Some j /\ owner (mutex_ s) = Some i) as [??] by (split; apply (lock_owner _ Hl); eauto).
    congruence.
Qed.
Lemma raises_woken pick sigs ths : sleep_ok ths -> woken ths (foldl (raise pick) ths sigs).
Proof.
  revert ths. induction sigs as [|sg sigs IH]; intros ths Hs; cbn; [apply woken_refl|].
  assert (woken ths (raise pick ths sg)) as Hw.
  { destruct sg as [c|c]; [apply (raise_spec pick (Notify c) ths c Hs)|apply (raise_spec pick (NotifyAll c) ths c Hs)]. }
  eapply woken_trans; [done|]. apply IH. by eapply woken_sleep_ok.
Qed.

Lemma step_lock_inv s e s' : lock_inv s -> step s e s' -> lock_inv s'.
Proof.
  intros Hl Hst. pose proof Hl as [Ho Hh Ht Hs].
  destruct Hst as [i o Hi|i o Hi Hown|i o c pick Hi Htst Hw|i o d r sigs pick Hi Htst Hr|i o c Hi].
  - split; cbn; [|done|by eapply insert_tids|by apply insert_sleep_ok].
    intros j. rewrite Ho. f_equiv. intros o'. by rewrite insert_inside.
  - split; cbn; [|done|by eapply insert_tids|by apply insert_sleep_ok].
    intros j. split; [intros [= <-]; exists o; by rewrite lookup_insert_eq|].
    intros (o'&Hj). destruct (decide (i = j)) as [<-|]; [done|]. rewrite lookup_insert_ne in Hj by done.
    assert (owner (mutex_ s) = Some j) by (apply Ho; eauto). congruence.
  - split; cbn; [|done|by eapply insert_tids|apply insert_sleep_ok; [done|by intros ?? [= <- <-]]].
    intros j. split; [done|]. by intros ?%(leave_inside s i j o _ Hl Hi).
  - assert (sleep_ok (<[i := Idle]> (threads s))) as Hs' by by apply insert_sleep_ok.
    pose proof (raises_woken pick sigs _ Hs') as Hwk.
    split; cbn; [|done| |by eapply woken_sleep_ok].
    + intros j. split; [done|]. intros (o'&Hj). apply (woken_inside _ _ _ _ Hwk) in Hj.
      destruct (leave_inside s i j o Idle Hl Hi); [done|eauto].
    + intros j Hj. apply (woken_tids _ _ _ Hwk) in Hj. by eapply insert_tids.
  - split; cbn; [|done|by eapply insert_tids|by apply insert_sleep_ok].
    intros j. rewrite Ho. f_equiv. intros o'. by rewrite insert_inside.
Qed.

(** A thread that finds the lock free and need not wait runs its operation in
    two steps. *)
Lemma two_steps s j pick o d r sigs :
  owner (mutex_ s) = None -> threads s !! j = Some (Entering o) ->
  test (code o) true (data s) = Ok false -> rest (code o) true (data s) = Ok (d, r, sigs) ->
  exists s', run s [Lock j; Run j pick] = Ok s' /\ data s' = d /\ history s' = history s ++ [(j, o, r)] /\
    mutex_ s' = new_mutex /\ threads s' = foldl (raise pick) (<[j := Idle]> (threads s)) sigs.
Proof.
  intros Hown Hj Ht Hr. unfold run. cbn [foldM exec]. rewrite Hj. unfold lock. rewrite Hown.
  cbn [mbind outcome_bind threads]. rewrite lookup_insert_eq. cbn [mutex_ data].
  unfold isLockedByThisThread, assignHolder, unlock, unassignHolder. cbn [holder_ owner]. rewrite Z.eqb_refl, Ht.
  cbn [mbind outcome_bind]. rewrite Hr. cbn [mbind outcome_bind]. rewrite bool_decide_eq_true_2 by done.
  rewrite insert_insert_eq. eexists. split; [done|]. done.
Qed.

(** * The criterion *)

(** [need c d] is how many of the threads that wait for [c] could go on in [d];
    [None] when all of them could, so that none may sleep. *)
Definition leaves (o : Op) (d : D) : Prop := test (code o) true d = Ok false \/ wait_on (code o) = None.
(** Running the rest of [o] in [d] keeps [Inv], and wakes the threads that can
    go on in the new state, unless [o]'s own thread made room for them. *)
Definition leave_ok (Inv : D -> list (Z * Op * R) -> Prop) (need : Cv -> D -> option Z)
    (d : D) (h : list (Z * Op * R)) (o : Op) : Prop :=
  exists d' r sigs, rest (code o) true d = Ok (d', r, sigs) /\ (forall i, Inv d' (h ++ [(i, o, r)])) /\
    forall c, notifies_all c sigs \/ need c d = None \/
      exists n n', need c d = Some n /\ need c d' = Some n' /\
        (n' <= 0 \/ n' + b2z (bool_decide (wait_on (code o) = Some c)) <= n + notifies c sigs).
Record monitor_spec (Inv : D -> list (Z * Op * R) -> Prop) (need : Cv -> D -> option Z) : Prop := {
  spec_test d h o : Inv d h -> is_ok (test (code o) true d) = true;
  spec_sleep d h o c : Inv d h -> test (code o) true d = Ok true -> wait_on (code o) = Some c ->
    exists n, need c d = Some n /\ n <= 0;
  spec_leave d h o : Inv d h -> leaves o d -> leave_ok Inv need d h o
}.

Lemma read_only_leave Inv need d h o r :
  wait_on (code o) = None -> rest (code o) true d = Ok (d, r, []) -> (forall i, Inv d (h ++ [(i, o, r)])) ->
  leave_ok Inv need d h o.
Proof.
  intros Hw Hr Hi. exists d, r, []. split; [done|]. split; [done|]. intros c. right.
  destruct (need c d) as [n|] eqn:En; [right|by left]. exists n, n. split; [done|]. split; [done|]. right.
  rewrite Hw, bool_decide_eq_false_2 by done. cbn. lia.
Qed.

Definition served (need : Cv -> D -> option Z) (s : t) : Prop :=
  forall c, count (sleeps_on c) (threads s) = 0 \/
    exists n, need c (data s) = Some n /\ n <= count (awake c) (threads s).

Section Criterion.
Context (Inv : D -> list (Z * Op * R) -> Prop) (need : Cv -> D -> option Z).
Context (Hspec : monitor_spec Inv need).

Record good (s : t) : Prop := {
  good_lock : lock_inv s;
  good_data : Inv (data s) (history s);
  good_served : served need s
}.

Lemma served_le s ths :
  served need s -> (forall c, count (sleeps_on c) ths <= count (sleeps_on c) (threads s)) ->
  (forall c, count (awake c) (threads s) <= count (awake c) ths) -> served need (set_threads ths s).
Proof.
  intros Hs H1 H2 c. specialize (H1 c). specialize (H2 c). pose proof (count_nonneg (sleeps_on c) ths).
  destruct (Hs c) as [?|(n&?&?)]; [left; cbn; lia|]. right. exists n. cbn. split; [done|lia].
Qed.

Lemma step_good s e s' : good s -> step s e s' -> good s'.
Proof.
  intros [Hl Hd Hs] Hst. assert (lock_inv s') as Hl' by by eapply step_lock_inv.
  destruct Hst as [i o Hi|i o Hi Hown|i o c pick Hi Htst Hw|i o d r sigs pick Hi Htst Hr|i o c Hi].
  - split; [done|done|]. apply served_le; [done|..]; intros c; rewrite (count_update _ _ _ _ _ Hi); cbn; [lia|].
    destruct (bool_decide _); cbn; lia.
  - split; [done|done|]. intros c. destruct (Hs c) as [H0|(n&Hn&Hle)]; [left|right; exists n; split; [done|]]; cbn;
      rewrite (count_update _ _ _ _ _ Hi); cbn; lia.
  - split; [done|done|]. intros c'. cbn.
    destruct (spec_sleep _ _ Hspec _ _ _ _ Hd Htst Hw) as (n&Hn&Hn0).
    destruct (decide (c' = c)) as [->|Hne].
    + right. exists n. split; [done|]. pose proof (count_nonneg (awake c) (<[i := Sleeping c o]> (threads s))). lia.
    + destruct (Hs c') as [H0|(n'&Hn'&Hle)]; [left|right; exists n'; split; [done|]];
        rewrite (count_update _ _ _ _ _ Hi); cbn; rewrite bool_decide_eq_false_2 by congruence; cbn; lia.
  - destruct (spec_leave _ _ Hspec _ _ _ Hd Htst) as (d'&r'&sigs'&Hr'&Hinv&Hneed).
    rewrite Hr in Hr'. injection Hr' as <- <- <-. split; [done|apply Hinv|]. intros c. cbn.
    destruct (raises_spec pick sigs (<[i := Idle]> (threads s)) c) as (_&Hle&Hor).
    { apply insert_sleep_ok; [apply Hl|done]. }
    pose proof (count_nonneg (sleeps_on c) (foldl (raise pick) (<[i := Idle]> (threads s)) sigs)).
    pose proof (count_nonneg (awake c) (foldl (raise pick) (<[i := Idle]> (threads s)) sigs)).
    rewrite !(count_update _ _ _ _ _ Hi) in *. cbn [sleeps_on awake] in *.
    destruct Hor as [Hz|(Hna&Hc)]; [by left|].
    destruct (Hneed c) as [?|[Hnone|(n&n'&Hn&Hn'&Hor)]]; [done|..].
    + left. destruct (Hs c) as [?|(?&?&_)]; [cbn in *; lia|congruence].
    + destruct (Hs c) as [?|(m&Hm&Hle')]; [left; cbn in *; lia|]. right. exists n'. split; [done|].
      cbn [b2z] in *. destruct Hor; [lia|]. assert (m = n) as -> by congruence. lia.
  - split; [done|done|]. pose proof (lock_sleep _ Hl _ _ _ Hi).
    apply served_le; [done|..]; intros c'; rewrite (count_update _ _ _ _ _ Hi); cbn; [destruct (bool_decide _); cbn; lia|].
    destruct (bool_decide _); cbn; lia.
Qed.

(** No event fails, and every run keeps the invariant. *)
Lemma good_exec s e : good s -> exists s', exec s e = Ok s' /\ good s' /\ (s' = s \/ step s e s').
Proof.
  intros Hg. destruct (exec_step s e) as (s'&He&Hst).
  - apply Hg.
  - intros i o Hi. pose proof (spec_test _ _ Hspec _ _ o (good_data _ Hg)) as Ht.
    destruct (test (code o) true (data s)) as [again|] eqn:Et; [|done]. exists again. split; [done|].
    intros Hag. assert (leaves o (data s)) as Hlv.
    { unfold leaves. rewrite Et. destruct Hag as [->|?]; [by left|by right]. }
    destruct (spec_leave _ _ Hspec _ _ _ (good_data _ Hg) Hlv) as (?&?&?&->&_). done.
  - exists s'. split; [done|]. split; [|done]. destruct Hst as [->|Hst]; [done|by eapply step_good].
Qed.
Lemma good_run es s : good s -> exists s', run s es = Ok s' /\ good s'.
Proof.
  revert s. induction es as [|e es IH]; intros s Hg; cbn; [eauto|].
  destruct (good_exec s e Hg) as (s1&->&Hg1&_). cbn. by apply IH.
Qed.
Lemma good_init d tids : Inv d [] -> good (init d tids).
Proof.
  intros Hd. split; [apply init_lock_inv|done|]. intros c. left.
  pose proof (count_nonneg (sleeps_on c) (threads (init d tids))).
  destruct (Z_le_gt_dec (count (sleeps_on c) (threads (init d tids))) 0); [lia|].
  destruct (count_pos (sleeps_on c) (threads (init d tids))) as (i&x&Hi&Hx); [lia|].
  cbn in Hi. apply lookup_gset_to_gmap_Some in Hi as [_ <-]. done.
Qed.

(** With the lock free and something to go on with, some awake thread that
    waits for [c] can lock and run: the next two steps are its. *)
Lemma served_progress s c n i o :
  good s -> owner (mutex_ s) = None -> need c (data s) = Some n -> 0 < n ->
  threads s !! i = Some (Entering o) \/ threads s !! i = Some (Sleeping c o) -> wait_on (code o) = Some c ->
  exists j o', threads s !! j = Some (Entering o') /\ wait_on (code o') = Some c.
Proof.
  intros Hg Hown Hn Hpos Hi Hw. destruct Hi as [Hi|Hi]; [by exists i, o|].
  destruct (good_served _ Hg c) as [H0|(n'&Hn'&Hle)].
  { pose proof (count_member (sleeps_on c) _ _ _ Hi) as Hc. cbn in Hc. rewrite bool_decide_eq_true_2 in Hc by done.
    specialize (Hc eq_refl). lia. }
  destruct (count_pos (awake c) (threads s)) as (j&x&Hj&Hx); [congruence || (assert (n' = n) by congruence; lia)|].
  destruct x as [|o'|o'|]; try done; cbn in Hx; apply bool_decide_eq_true in Hx; [by exists j, o'|].
  assert (owner (mutex_ s) = Some j) by (apply (lock_owner _ (good_lock _ Hg)); eauto). congruence.
Qed.

(** The thread inside can always run, and leaves the lock free. *)
Lemma inside_releases s i pick :
  good s -> owner (mutex_ s) = Some i -> exists s', exec s (Run i pick) = Ok s' /\ good s' /\ owner (mutex_ s') = None.
Proof.
  intros Hg Hown. destruct (good_exec s (Run i pick) Hg) as (s'&He&Hg'&_). exists s'. split; [done|]. split; [done|].
  apply (lock_owner _ (good_lock _ Hg)) in Hown as (o&Hi). cbn in He. rewrite Hi in He.
  apply bind_ok in He as (again&_&He). unfold wait, unlock in He.
  destruct again, (wait_on (code o)).
  all: repeat match goal with
    | H : _ ≫= _ = Ok _ |- _ => apply bind_ok in H as (?&?&H)
    | x : _ * _ |- _ => destruct x
    | H : Ok _ = Ok _ |- _ => injection H as <-
    end; done.
Qed.
End Criterion.

(** * Termination *)

Definition move (s s' : t) : Prop :=
  exists e, internal e = true /\ exec s e = Ok s' /\ threads s' <> threads s.

Definition is_entering (th : thread) : bool := match th with Entering _ => true | _ => false end.
Definition is_inside (th : thread) : bool := match th with Inside _ => true | _ => false end.
Definition todo (s : t) : Z := 2 * count is_entering (threads s) + count is_inside (threads s).

(** [P k d]: from [d], no operation waits, during [k] more steps. *)
Section Termination.
Context (P : Z -> D -> Prop).
Context (P_open : forall k d o, 0 <= k -> P (k + 1) d ->
  P k d /\ test (code o) true d = Ok false /\
  exists d' r sigs, rest (code o) true d = Ok (d', r, sigs) /\ P k d').

Record released (s : t) : Prop := {
  released_lock : lock_inv s;
  released_none : forall i c o, threads s !! i <> Some (Sleeping c o);
  released_data : P (todo s) (data s)
}.

Lemma todo_nonneg s : 0 <= todo s.
Proof.
  unfold todo. pose proof (count_nonneg is_entering (threads s)). pose proof (count_nonneg is_inside (threads s)). lia.
Qed.

Lemma inside_todo s i o : threads s !! i = Some (Inside o) -> 1 <= todo s.
Proof.
  intros Hi. pose proof (count_member is_inside _ _ _ Hi eq_refl). unfold todo.
  pose proof (count_nonneg is_entering (threads s)). lia.
Qed.
(** Running leaves the inside. *)
Lemma run_leaves s s' i pick o :
  lock_inv s -> exec s (Run i pick) = Ok s' -> threads s !! i = Some (Inside o) ->
  exists th, threads s' !! i = Some th /\ forall o', th <> Inside o'.
Proof.
  intros Hl He Hi. cbn in He. rewrite Hi in He. apply bind_ok in He as (again&_&He).
  assert (forall d r sigs m,
    Ok (mk d m (foldl (raise pick) (<[i := Idle]> (threads s)) sigs) (history s ++ [(i, o, r)])) = Ok s' ->
    exists th, threads s' !! i = Some th /\ forall o', th <> Inside o') as Hleave.
  { intros d r sigs m [= <-]. cbn.
    assert (sleep_ok (<[i := Idle]> (threads s))) as Hs by (apply insert_sleep_ok; [apply Hl|done]).
    destruct (raises_woken pick sigs _ Hs i) as [E|(c&o'&E&_)];
      rewrite lookup_insert_eq in E; [by exists Idle|done]. }
  destruct again; [destruct (wait_on (code o)) as [c|]|].
  - outcome_inv. exists (Sleeping c o). cbn. split; [by rewrite lookup_insert_eq|done].
  - apply bind_ok in He as ([[d r] sigs]&_&He). apply bind_ok in He as (m&_&He). by eapply Hleave.
  - destruct (wait_on (code o));
      apply bind_ok in He as ([[d r] sigs]&_&He); apply bind_ok in He as (m&_&He); by eapply Hleave.
Qed.

Lemma raises_id pick sigs (ths : gmap Z thread) :
  (forall i c o, ths !! i <> Some (Sleeping c o)) -> sleep_ok ths -> foldl (raise pick) ths sigs = ths.
Proof.
  intros Hn Hs. pose proof (raises_woken pick sigs ths Hs) as Hw. apply map_eq. intros i.
  destruct (Hw i) as [->|(c&o&Hi&_)]; [done|by destruct (Hn i c o)].
Qed.

Lemma released_step s e :
  released s -> internal e = true ->
  exists s', exec s e = Ok s' /\ (s' = s \/ released s' /\ todo s' = todo s - 1).
Proof.
  intros [Hl Hn Hd] He. pose proof (todo_nonneg s) as H0.
  assert (forall i th, (forall c o, th <> Sleeping c o) ->
    forall j c o, <[i := th]> (threads s) !! j <> Some (Sleeping c o)) as Hn'.
  { intros i th Hth j c o Hj. destruct (decide (i = j)) as [<-|].
    - rewrite lookup_insert_eq in Hj. injection Hj as ->. by destruct (Hth c o).
    - rewrite lookup_insert_ne in Hj by done. by eapply Hn. }
  destruct (exec_step s e Hl) as (s'&Hex&[->|Hst]).
  { intros i o Hi. assert (0 <= todo s - 1) as Hk.
    { pose proof (inside_todo s i o Hi). lia. }
    replace (todo s) with (todo s - 1 + 1) in Hd by lia.
    destruct (P_open _ _ o Hk Hd) as (_&Ht&d'&r&sigs&Hr&_). exists false. split; [done|]. by rewrite Hr. }
  { exists s. by split; [|left]. }
  exists s'. split; [done|]. pose proof (step_lock_inv _ _ _ Hl Hst) as Hl'.
  destruct Hst as [|i o Hi Hown|i o c pick Hi Ht Hw|i o d r sigs pick Hi Hlv Hr|i o c Hi]; [done|..].
  - right. assert (todo (mk (data s) (mkmutex (Some i) i) (<[i := Inside o]> (threads s)) (history s)) = todo s - 1) as Et.
    { unfold todo. cbn. rewrite !(count_update _ _ _ _ _ Hi). cbn. lia. }
    split; [|done]. split; [done|by apply Hn'|]. rewrite Et. cbn.
    replace (todo s) with (todo s - 1 + 1) in Hd by lia. apply (P_open _ _ o) in Hd; [apply Hd|].
    pose proof (todo_nonneg (mk (data s) (mkmutex (Some i) i) (<[i := Inside o]> (threads s)) (history s))). lia.
  - exfalso. pose proof (inside_todo s i o Hi). replace (todo s) with (todo s - 1 + 1) in Hd by lia.
    apply (P_open _ _ o) in Hd as (_&Hf&_); [congruence|lia].
  - right. pose proof (inside_todo s i o Hi). rewrite raises_id in * by (apply Hn' || apply insert_sleep_ok; try apply Hl; done).
    assert (todo (mk d new_mutex (<[i := Idle]> (threads s)) (history s ++ [(i, o, r)])) = todo s - 1) as Et.
    { unfold todo. cbn. rewrite !(count_update _ _ _ _ _ Hi). cbn. lia. }
    split; [|done]. split; [done|by apply Hn'|]. rewrite Et. cbn.
    replace (todo s) with (todo s - 1 + 1) in Hd by lia. apply (P_open _ _ o) in Hd as (_&_&d'&r'&sigs'&Hr'&HP); [|lia].
    rewrite Hr in Hr'. by injection Hr' as <- <- <-.
  - by destruct (Hn i c o).
Qed.

(** At most [todo s] steps are left, and when none is possible every thread
    has returned. *)
Lemma released_terminates n s s' :
  released s -> nsteps move n s s' -> released s' /\ Z.of_nat n + todo s' <= todo s.
Proof.
  intros Hr Hs. induction Hs as [s|n s s1 s2 (e&He&Hex&Hne) _ IH]; [by split; [|lia]|].
  destruct (released_step s e Hr He) as (s1'&Hex'&Hor). rewrite Hex in Hex'. injection Hex' as <-.
  destruct Hor as [->|(Hr1&Ht)]; [done|]. destruct (IH Hr1) as (?&?). split; [done|]. lia.
Qed.
Lemma released_idle s :
  released s -> (forall s', ~ move s s') -> forall i th, threads s !! i = Some th -> th = Idle.
Proof.
  intros Hr Hstuck i th Hi.
  assert (owner (mutex_ s) = None) as Hown.
  { destruct (owner (mutex_ s)) as [j|] eqn:Eo; [|done]. apply (lock_owner _ (released_lock _ Hr)) in Eo as (o&Hj).
    destruct (released_step s (Run j 0) Hr eq_refl) as (s'&Hex&_). destruct (Hstuck s'). exists (Run j 0).
    split; [done|]. split; [done|]. intros E. destruct (run_leaves s s' j 0 o (released_lock _ Hr) Hex Hj) as (th'&Hj'&Hne).
    rewrite E, Hj in Hj'. injection Hj' as <-. by destruct (Hne o). }
  destruct th as [|o|o|c o]; [done|..].
  - exfalso. eapply Hstuck. exists (Lock i). split; [done|]. cbn. rewrite Hi. unfold lock. rewrite Hown.
    split; [done|]. cbn. intros E. pose proof (f_equal (fun m => m !! i) E) as Hx. cbn in Hx.
    rewrite lookup_insert_eq, Hi in Hx. done.
  - assert (owner (mutex_ s) = Some i) by (apply (lock_owner _ (released_lock _ Hr)); eauto). congruence.
  - by destruct (released_none _ Hr i c o).
Qed.
End Termination.
End Threads.
Arguments thread : clear implicits.
Arguments event : clear implicits.
Arguments t : clear implicits.

(** The arithmetic of the criterion for concrete signals. *)
Ltac need_lia :=
  cbn -[zlen Z.add Z.sub Z.le b2z]; repeat case_bool_decide; try congruence; cbn [b2z]; zlia.
End Monitor.
