(* ===== verification/BaseBlockingQueue.v ===== *)
(** src/muduo/base/BlockingQueue.h: an unbounded queue between threads, as a
    monitor (BaseMonitor).  Moving from a deque leaves it empty. *)

From S2P Require Import Prelude BaseMonitor.

Module BlockingQueue.
Section Queue.
Context {T : Type}.

Inductive cv := notEmpty_.
#[export] Instance cv_eq_dec : EqDecision cv.
Proof. solve_decision. Defined.

Inductive op := Put (x : T) | Take | Drain | Size.
Inductive result := RVoid | RItem (x : T) | RItems (l : list T) | RSize (n : Z).

Definition put (x : T) : Monitor.operation (list T) result cv :=
  Monitor.no_wait (fun _ queue_ => Ok (queue_ ++ [x], RVoid, [Monitor.Notify notEmpty_])).
Definition take : Monitor.operation (list T) result cv :=
  Monitor.mkop (Some notEmpty_)
    (fun _ queue_ => Ok (bool_decide (queue_ = [])))
    (fun _ queue_ => match queue_ with
                     | [] => Err (AssertFail "!queue_.empty()")
                     | front :: queue_ => Ok (queue_, RItem front, [])
                     end).
Definition drain : Monitor.operation (list T) result cv :=
  Monitor.no_wait (fun _ queue_ => Ok ([], RItems queue_, [])).
Definition size : Monitor.operation (list T) result cv :=
  Monitor.no_wait (fun _ queue_ => Ok (queue_, RSize (u64 (zlen queue_)), [])).

#[export] Instance monitor : Monitor.Monitor (list T) op result cv := fun o =>
  match o with Put x => put x | Take => take | Drain => drain | Size => size end.

Abbreviation state := (Monitor.t (list T) op result cv).
Definition new_ (tids : gset Z) : state := Monitor.init [] tids.

(** * Specification *)

(** The items put in and given out, in the order of the history. *)
Definition put_of (e : Z * op * result) : list T := match e.1.2 with Put x => [x] | _ => [] end.
Definition given_of (e : Z * op * result) : list T :=
  match e.2 with RItem x => [x] | RItems l => l | _ => [] end.
Definition puts (h : list (Z * op * result)) : list T := h ≫= put_of.
Definition given (h : list (Z * op * result)) : list T := h ≫= given_of.

Definition fifo (queue_ : list T) (h : list (Z * op * result)) : Prop := puts h = given h ++ queue_.
Definition need (c : cv) (queue_ : list T) : option Z := Some (zlen queue_).

Lemma puts_snoc h e : puts (h ++ [e]) = puts h ++ put_of e.
Proof. unfold puts. rewrite bind_app. cbn. by rewrite app_nil_r. Qed.
Lemma given_snoc h e : given (h ++ [e]) = given h ++ given_of e.
Proof. unfold given. rewrite bind_app. cbn. by rewrite app_nil_r. Qed.

Lemma queue_spec : Monitor.monitor_spec fifo need.
Proof.
  split.
  - intros d h [] _; done.
  - intros d h [] c _; cbn; try done. intros [= Ht] _. apply bool_decide_eq_true in Ht as ->. by exists 0.
  - intros d h o Hf Hlv. unfold Monitor.leave_ok, fifo in *. setoid_rewrite puts_snoc. setoid_rewrite given_snoc. rewrite Hf.
    destruct o as [x| | |]; cbn -[u64].
    + do 3 eexists. split; [done|]. split; [intros i; cbn; by rewrite !app_nil_r, app_assoc|].
      intros []. right; right. do 2 eexists. split; [done|]. split; [done|]. right. Monitor.need_lia.
    + destruct d as [|x d]; [destruct Hlv; done|].
      do 3 eexists. split; [done|]. split; [intros i; cbn; by rewrite app_nil_r, <-app_assoc|].
      intros []. right; right. do 2 eexists. split; [done|]. split; [done|]. right. Monitor.need_lia.
    + do 3 eexists. split; [done|]. split; [intros i; cbn; by rewrite !app_nil_r|].
      intros []. right; right. do 2 eexists. split; [done|]. split; [done|]. by left.
    + do 3 eexists. split; [done|]. split; [intros i; cbn; by rewrite !app_nil_r|].
      intros []. right; right. do 2 eexists. split; [done|]. split; [done|]. right. Monitor.need_lia.
Qed.

End Queue.
Arguments op : clear implicits.
Arguments result : clear implicits.

(** * Properties *)

(** BlockingQueue is a FIFO queue that loses no wake-up.  For any threads
    that call its operations, under any interleaving and any choice of woken
    threads: no assertion fails; the items taken and drained are, in order, the
    first of those put, and the others are in the queue; at most one thread is
    inside; and whenever the lock is free, the queue has items and some thread
    is waiting in [take], asleep or not, then a thread that is awake takes the
    first item with its next two steps. *)
Theorem blocking_queue_fifo_and_wakes {T} (tids : gset Z) (es : list (Monitor.event (op T))) :
  exists s : Monitor.t (list T) (op T) (result T) cv, Monitor.run (new_ tids) es = Ok s /\
    puts (Monitor.history s) = given (Monitor.history s) ++ Monitor.data s /\
    (forall i j o o', Monitor.threads s !! i = Some (Monitor.Inside o) ->
      Monitor.threads s !! j = Some (Monitor.Inside o') -> i = j) /\
    forall i front rest, Monitor.owner (Monitor.mutex_ s) = None -> Monitor.data s = front :: rest ->
      Monitor.threads s !! i = Some (Monitor.Entering Take) \/
        Monitor.threads s !! i = Some (Monitor.Sleeping notEmpty_ Take) ->
      exists j s', Monitor.run s [Monitor.Lock j; Monitor.Run j 0] = Ok s' /\ Monitor.data s' = rest /\
        Monitor.history s' = Monitor.history s ++ [(j, Take, RItem front)].
Proof.
  destruct (Monitor.good_run _ _ queue_spec es (new_ tids)) as (s&Hrun&Hg); [by apply Monitor.good_init|].
  exists s. split; [done|]. split; [apply (Monitor.good_data _ _ _ Hg)|]. split.
  - intros i j o o' Hi Hj. pose proof (Monitor.lock_owner _ (Monitor.good_lock _ _ _ Hg)) as Ho.
    assert (Monitor.owner (Monitor.mutex_ s) = Some i) by (apply Ho; eauto).
    assert (Monitor.owner (Monitor.mutex_ s) = Some j) by (apply Ho; eauto). congruence.
  - intros i front rest Hown Hd Hi.
    assert (need notEmpty_ (Monitor.data s) = Some (zlen (front :: rest))) as Hn by (unfold need; by rewrite Hd).
    assert (0 < zlen (front :: rest)) as Hpos by zlia.
    destruct (Monitor.served_progress fifo need s notEmpty_ _ i Take Hg Hown Hn Hpos Hi eq_refl) as (j&o&Hj&Hw).
    destruct o; try done. exists j.
    destruct (Monitor.two_steps s j 0 Take rest (RItem front) []) as (s'&?&?&?&_); [done|done|..].
    + cbn. by rewrite Hd, bool_decide_eq_false_2.
    + cbn. by rewrite Hd.
    + eauto.
Qed.
End BlockingQueue.
