(* ===== verification/BaseBoundedBlockingQueue.v ===== *)
(** src/muduo/base/BoundedBlockingQueue.h: a queue of bounded capacity between
    threads, as a monitor (BaseMonitor).  The container is Boost's
    [circular_buffer], a parameter with the documented behaviour of the
    operations the code uses. *)

From S2P Require Import Prelude BaseMonitor.

(** [items] is the sequence a buffer stands for. *)
Class CircularBuffer (T B : Type) := {
  cb_new : Z -> B;
  cb_items : B -> list T;
  cb_capacity : B -> Z;
  cb_full : B -> bool;
  cb_empty : B -> bool;
  cb_size : B -> Z;
  cb_push_back : T -> B -> B;
  cb_front : B -> option T;
  cb_pop_front : B -> B
}.
Class CircularBufferLaws T B `{CircularBuffer T B} : Prop := {
  cb_new_items n : 0 <= n -> cb_items (cb_new n) = [];
  cb_new_capacity n : 0 <= n -> cb_capacity (cb_new n) = n;
  cb_full_spec b : cb_full b = (zlen (cb_items b) =? cb_capacity b);
  cb_empty_spec b : cb_empty b = bool_decide (cb_items b = []);
  cb_size_spec b : cb_size b = zlen (cb_items b);
  cb_push_back_spec x b : zlen (cb_items b) < cb_capacity b ->
    cb_items (cb_push_back x b) = cb_items b ++ [x] /\ cb_capacity (cb_push_back x b) = cb_capacity b;
  cb_front_spec x l b : cb_items b = x :: l -> cb_front b = Some x;
  cb_pop_front_spec x l b : cb_items b = x :: l ->
    cb_items (cb_pop_front b) = l /\ cb_capacity (cb_pop_front b) = cb_capacity b
}.

Module BoundedBlockingQueue.

Inductive cv := notEmpty_ | notFull_.
#[export] Instance cv_eq_dec : EqDecision cv.
Proof. solve_decision. Defined.

Section Queue.
Context {T B : Type} `{!CircularBuffer T B}.

Inductive op := Put (x : T) | Take | Empty | Full | Size | Capacity.
Inductive result := RVoid | RItem (x : T) | RBool (b : bool) | RSize (n : Z).

Definition put (x : T) : Monitor.operation B result cv :=
  Monitor.mkop (Some notFull_)
    (fun _ queue_ => Ok (cb_full queue_))
    (fun _ queue_ =>
       massert (negb (cb_full queue_)) "!queue_.full()";;
       Ok (cb_push_back x queue_, RVoid, [Monitor.Notify notEmpty_])).
Definition take : Monitor.operation B result cv :=
  Monitor.mkop (Some notEmpty_)
    (fun _ queue_ => Ok (cb_empty queue_))
    (fun _ queue_ =>
       massert (negb (cb_empty queue_)) "!queue_.empty()";;
       match cb_front queue_ with
       | None => Err (Undefined "front() of an empty buffer")
       | Some front => Ok (cb_pop_front queue_, RItem front, [Monitor.Notify notFull_])
       end).
Definition empty : Monitor.operation B result cv :=
  Monitor.no_wait (fun _ queue_ => Ok (queue_, RBool (cb_empty queue_), [])).
Definition full : Monitor.operation B result cv :=
  Monitor.no_wait (fun _ queue_ => Ok (queue_, RBool (cb_full queue_), [])).
Definition size : Monitor.operation B result cv :=
  Monitor.no_wait (fun _ queue_ => Ok (queue_, RSize (cb_size queue_), [])).
Definition capacity : Monitor.operation B result cv :=
  Monitor.no_wait (fun _ queue_ => Ok (queue_, RSize (cb_capacity queue_), [])).

#[export] Instance monitor : Monitor.Monitor B op result cv := fun o =>
  match o with
  | Put x => put x | Take => take | Empty => empty | Full => full | Size => size | Capacity => capacity
  end.

Definition new_ (maxSize : Z) (tids : gset Z) : Monitor.t B op result cv := Monitor.init (cb_new maxSize) tids.

(** * Specification *)

Definition put_of (e : Z * op * result) : list T := match e.1.2 with Put x => [x] | _ => [] end.
Definition given_of (e : Z * op * result) : list T := match e.2 with RItem x => [x] | _ => [] end.
Definition puts (h : list (Z * op * result)) : list T := h ≫= put_of.
Definition given (h : list (Z * op * result)) : list T := h ≫= given_of.

Definition bounded_fifo (maxSize : Z) (queue_ : B) (h : list (Z * op * result)) : Prop :=
  puts h = given h ++ cb_items queue_ /\ cb_capacity queue_ = maxSize /\ zlen (cb_items queue_) <= maxSize.
Definition need (c : cv) (queue_ : B) : option Z :=
  Some (match c with
        | notEmpty_ => zlen (cb_items queue_)
        | notFull_ => cb_capacity queue_ - zlen (cb_items queue_)
        end).

Context `{!CircularBufferLaws T B}.

Lemma bounded_puts_snoc h e : puts (h ++ [e]) = puts h ++ put_of e.
Proof. unfold puts. rewrite bind_app. cbn. by rewrite app_nil_r. Qed.
Lemma bounded_given_snoc h e : given (h ++ [e]) = given h ++ given_of e.
Proof. unfold given. rewrite bind_app. cbn. by rewrite app_nil_r. Qed.

Lemma put_ok x queue_ :
  zlen (cb_items queue_) < cb_capacity queue_ ->
  Monitor.test (put x) true queue_ = Ok false /\
  Monitor.rest (put x) true queue_ = Ok (cb_push_back x queue_, RVoid, [Monitor.Notify notEmpty_]).
Proof. intros Hlt. cbn. rewrite cb_full_spec. by destruct (Z.eqb_spec (zlen (cb_items queue_)) (cb_capacity queue_)); [lia|]. Qed.
Lemma take_ok x l queue_ :
  cb_items queue_ = x :: l ->
  Monitor.test take true queue_ = Ok false /\
  Monitor.rest take true queue_ = Ok (cb_pop_front queue_, RItem x, [Monitor.Notify notFull_]).
Proof.
  intros E. cbn. rewrite cb_empty_spec, E, bool_decide_eq_false_2 by done. cbn.
  by rewrite (cb_front_spec _ _ _ E).
Qed.

Lemma bounded_read maxSize d h e :
  bounded_fifo maxSize d h -> put_of e = [] -> given_of e = [] -> bounded_fifo maxSize d (h ++ [e]).
Proof.
  intros (Hf&?) Hp Hg. split; [|done]. by rewrite bounded_puts_snoc, bounded_given_snoc, Hp, Hg, !app_nil_r.
Qed.

Lemma bounded_spec maxSize : Monitor.monitor_spec (bounded_fifo maxSize) need.
Proof.
  split.
  - intros d h [] _; done.
  - intros d h o c (_&Hcap&_) Ht Hw. destruct o; try done; injection Hw as <-; injection Ht as Ht; eexists; (split; [done|]).
    + rewrite cb_full_spec in Ht. apply Z.eqb_eq in Ht. cbn. lia.
    + rewrite cb_empty_spec in Ht. apply bool_decide_eq_true in Ht. cbn. by rewrite Ht.
  - intros d h o Hinv Hlv.
    destruct o as [x| | | | |]; [| |by eapply Monitor.read_only_leave; [done|done|intros i; apply bounded_read]..];
      destruct Hinv as (Hf&Hcap&Hle); unfold Monitor.leave_ok, bounded_fifo; setoid_rewrite bounded_puts_snoc;
      setoid_rewrite bounded_given_snoc; rewrite Hf.
    + assert (zlen (cb_items d) < cb_capacity d) as Hlt.
      { destruct Hlv as [Ht|Ht]; [|done]. injection Ht as Ht. rewrite cb_full_spec in Ht. apply Z.eqb_neq in Ht. lia. }
      destruct (put_ok x d Hlt) as [_ Hr]. do 3 eexists. split; [exact Hr|].
      destruct (cb_push_back_spec x d Hlt) as [Ei Ec]. rewrite Ei, Ec. split.
      * intros i. cbn. rewrite app_nil_r, app_assoc. split; [done|]. split; [done|]. zlia.
      * intros c. right; right. do 2 eexists. split; [done|]. split; [done|]. right.
        destruct c; rewrite ?Ei, ?Ec; Monitor.need_lia.
    + destruct (cb_items d) as [|x l] eqn:Ed.
      { destruct Hlv as [Ht|Ht]; [|done]. injection Ht as Ht. by rewrite cb_empty_spec, Ed in Ht. }
      destruct (take_ok x l d Ed) as [_ Hr]. do 3 eexists. split; [exact Hr|].
      destruct (cb_pop_front_spec x l d Ed) as [Ei Ec]. rewrite Ei, Ec. split.
      * intros i. cbn. rewrite app_nil_r, <-app_assoc. split; [done|]. split; [done|]. zlia.
      * intros c. right; right. do 2 eexists. split; [done|]. split; [done|]. right.
        destruct c; rewrite ?Ei, ?Ec, ?Ed; Monitor.need_lia.
Qed.
End Queue.
Arguments op : clear implicits.
Arguments result : clear implicits.

(** * Properties *)

Section Properties.
Context {T B : Type} `{!CircularBuffer T B} `{!CircularBufferLaws T B}.

(** C15: BoundedBlockingQueue is a FIFO queue of bounded length on which neither
    side loses a wake-up.  For any threads, interleaving and choice of woken
    threads: no assertion fails; what was put is what was taken followed by
    what the buffer holds, never more than [maxSize] items; and whenever the
    lock is free, if the buffer has an item and a thread is waiting in [take],
    a thread that is awake takes the first item with its next two steps, and
    if the buffer has room and a thread is waiting in [put], a thread that is
    awake puts its item. *)
Theorem bounded_queue_fifo_and_wakes (maxSize : Z) (tids : gset Z) (es : list (Monitor.event (op T))) :
  0 <= maxSize ->
  exists s : Monitor.t B (op T) (result T) cv, Monitor.run (new_ maxSize tids) es = Ok s /\
    puts (Monitor.history s) = given (Monitor.history s) ++ cb_items (Monitor.data s) /\
    zlen (cb_items (Monitor.data s)) <= maxSize /\
    (forall i front rest, Monitor.owner (Monitor.mutex_ s) = None -> cb_items (Monitor.data s) = front :: rest ->
      Monitor.threads s !! i = Some (Monitor.Entering Take) \/
        Monitor.threads s !! i = Some (Monitor.Sleeping notEmpty_ Take) ->
      exists j s', Monitor.run s [Monitor.Lock j; Monitor.Run j 0] = Ok s' /\
        Monitor.history s' = Monitor.history s ++ [(j, Take, RItem front)]) /\
    (forall i x, Monitor.owner (Monitor.mutex_ s) = None -> zlen (cb_items (Monitor.data s)) < maxSize ->
      Monitor.threads s !! i = Some (Monitor.Entering (Put x)) \/
        Monitor.threads s !! i = Some (Monitor.Sleeping notFull_ (Put x)) ->
      exists j y s', Monitor.run s [Monitor.Lock j; Monitor.Run j 0] = Ok s' /\
        Monitor.history s' = Monitor.history s ++ [(j, Put y, RVoid)]).
Proof.
  intros Hmax.
  destruct (Monitor.good_run _ _ (bounded_spec maxSize) es (new_ maxSize tids)) as (s&Hrun&Hg).
  { apply Monitor.good_init. unfold bounded_fifo. rewrite cb_new_items, cb_new_capacity by done. done. }
  exists s. pose proof (Monitor.good_data _ _ _ Hg) as (Hf&Hcap&Hlen). split_and!; try done.
  - intros i front rest Hown Hd Hi.
    assert (need notEmpty_ (Monitor.data s) = Some (zlen (front :: rest))) as Hn by (unfold need; by rewrite Hd).
    assert (0 < zlen (front :: rest)) as Hpos by zlia.
    destruct (Monitor.served_progress _ need s notEmpty_ _ i Take Hg Hown Hn Hpos Hi eq_refl) as (j&o&Hj&Hw).
    destruct o; try done. exists j. destruct (take_ok _ _ _ Hd) as [Ht Hr].
    destruct (Monitor.two_steps s j 0 Take _ _ _ Hown Hj Ht Hr) as (s'&?&?&?&_). eauto.
  - intros i x Hown Hd Hi.
    assert (need notFull_ (Monitor.data s) = Some (maxSize - zlen (cb_items (Monitor.data s)))) as Hn
      by (unfold need; by rewrite Hcap).
    destruct (Monitor.served_progress _ need s notFull_ _ i (Put x) Hg Hown Hn ltac:(lia) Hi eq_refl) as (j&o&Hj&Hw).
    destruct o as [y| | | | |]; try done. exists j, y. destruct (put_ok y (Monitor.data s)) as [Ht Hr]; [lia|].
    destruct (Monitor.two_steps s j 0 (Put y) _ _ _ Hown Hj Ht Hr) as (s'&?&?&?&_). eauto.
Qed.
End Properties.

(** A circular buffer as a list and its capacity. *)
Definition list_buffer (T : Type) : Type := list T * Z.
#[export] Instance list_circular_buffer T : CircularBuffer T (list_buffer T) := {|
  cb_new n := ([], n);
  cb_items b := b.1;
  cb_capacity b := b.2;
  cb_full b := zlen b.1 =? b.2;
  cb_empty b := bool_decide (zlen b.1 = 0);
  cb_size b := zlen b.1;
  cb_push_back x b := if zlen b.1 <? b.2 then (b.1 ++ [x], b.2) else (tail b.1 ++ [x], b.2);
  cb_front b := head b.1;
  cb_pop_front b := (tail b.1, b.2)
|}.
#[export] Instance list_circular_buffer_laws T : CircularBufferLaws T (list_buffer T).
Proof.
  split; try done.
  - intros [l n]. cbn. apply bool_decide_ext. split; [|by intros ->]. intros H. apply zlen_lt_0. lia.
  - intros x [l n] Hlt. cbn in *. by destruct (Z.ltb_spec (zlen l) n); [|lia].
  - intros x l [l' n] E. cbn in *. by subst.
  - intros x l [l' n] E. cbn in *. by subst.
Qed.

(** Two consumers sleep; a producer with room for one item puts two. *)
Definition witness_events : list (Monitor.event (op Z)) :=
  [Monitor.Call 1 Take; Monitor.Lock 1; Monitor.Run 1 0; Monitor.Call 2 Take; Monitor.Lock 2; Monitor.Run 2 0;
   Monitor.Call 3 (Put 7); Monitor.Lock 3; Monitor.Run 3 2; Monitor.Call 3 (Put 8); Monitor.Lock 3; Monitor.Run 3 1].
Lemma bounded_queue_fifo_and_wakes_witness :
  0 <= 1 /\
  exists s : Monitor.t (list_buffer Z) (op Z) (result Z) cv,
    Monitor.run (new_ 1 {[1; 2; 3]}) witness_events = Ok s /\
    Monitor.threads s !! 1 = Some (Monitor.Sleeping notEmpty_ Take) /\
    Monitor.threads s !! 2 = Some (Monitor.Entering Take) /\
    Monitor.threads s !! 3 = Some (Monitor.Sleeping notFull_ (Put 8)) /\
    zlen (cb_items (Monitor.data s)) <= 1.
Proof.
  split; [lia|].
  destruct (bounded_queue_fifo_and_wakes (B := list_buffer Z) 1 {[1; 2; 3]} witness_events) as (s&Hrun&_&Hlen&_); [lia|].
  exists s. split; [exact Hrun|]. vm_compute in Hrun. injection Hrun as <-. split_and!; first [reflexivity|exact Hlen].
Defined.
End BoundedBlockingQueue.
