(* ===== verification/BaseCountDownLatch.v ===== *)
(** src/muduo/base/CountDownLatch.h and CountDownLatch.cc: a counter threads
    wait for, as a monitor (BaseMonitor).  [count_] is an [int]; its decrement
    wraps, which needs 2^31 calls. *)

From S2P Require Import Prelude BaseMonitor.

Module CountDownLatch.

Inductive cv := condition_.
#[export] Instance cv_eq_dec : EqDecision cv.
Proof. solve_decision. Defined.

Inductive op := Wait | CountDown | GetCount.
Inductive result := RVoid | RCount (n : Z).

Definition wait : Monitor.operation Z result cv :=
  Monitor.mkop (Some condition_) (fun _ count_ => Ok (0 <? count_)) (fun _ count_ => Ok (count_, RVoid, [])).
Definition countDown : Monitor.operation Z result cv :=
  Monitor.no_wait (fun _ count_ =>
    let count_ := i32 (count_ - 1) in
    Ok (count_, RVoid, if count_ =? 0 then [Monitor.NotifyAll condition_] else [])).
Definition getCount : Monitor.operation Z result cv :=
  Monitor.no_wait (fun _ count_ => Ok (count_, RCount count_, [])).

#[export] Instance monitor : Monitor.Monitor Z op result cv := fun o =>
  match o with Wait => wait | CountDown => countDown | GetCount => getCount end.

Abbreviation latch := (Monitor.t Z op result cv).
Definition new_ (count : Z) (tids : gset Z) : latch := Monitor.init count tids.

(** * Specification *)

(** The calls of [countDown] made so far. *)
Fixpoint downs (h : list (Z * op * result)) : Z :=
  match h with [] => 0 | (_, CountDown, _) :: h' => 1 + downs h' | _ :: h' => downs h' end.

Definition latch_inv (n count_ : Z) (h : list (Z * op * result)) : Prop :=
  count_ = i32 (n - downs h) /\
  forall h1 i r h2, h = h1 ++ (i, Wait, r) :: h2 -> i32 (n - downs h1) <= 0.
Definition need (c : cv) (count_ : Z) : option Z := if 0 <? count_ then Some 0 else None.

Lemma downs_app h1 h2 : downs (h1 ++ h2) = downs h1 + downs h2.
Proof. induction h1 as [|[[i []] r] h1 IH]; cbn; lia. Qed.
Lemma downs_nonneg h : 0 <= downs h.
Proof. induction h as [|[[i []] r] h IH]; cbn; lia. Qed.

Lemma latch_inv_snoc n d d' h i o r :
  latch_inv n d h -> d' = i32 (n - downs (h ++ [(i, o, r)])) -> (o = Wait -> d <= 0) ->
  latch_inv n d' (h ++ [(i, o, r)]).
Proof.
  intros (Hd&Hh) Hd' Ho. split; [done|]. intros h1 j r' h2 E.
  destruct h2 as [|x h2 _] using rev_ind.
  - apply app_inj_tail in E as [-> E]. injection E as -> -> ->. rewrite <-Hd. by apply Ho.
  - rewrite app_comm_cons, app_assoc in E. apply app_inj_tail in E as [-> _]. by eapply Hh.
Qed.

Lemma i32_pred x : i32 (i32 x - 1) = i32 (x - 1).
Proof.
  unfold i32, swrap. f_equal. change (2 ^ (32 - 1)) with 2147483648.
  replace ((x + 2147483648) mod 2 ^ 32 - 2147483648 - 1 + 2147483648) with ((x + 2147483648) mod 2 ^ 32 - 1) by lia.
  rewrite Zminus_mod_idemp_l. f_equal. lia.
Qed.

Lemma latch_spec n : Monitor.monitor_spec (latch_inv n) need.
Proof.
  split.
  - intros d h [] _; done.
  - intros d h [] c _ Ht _; try done. injection Ht as Ht. exists 0. unfold need. by rewrite Ht.
  - intros d h o Hinv Hlv. destruct o.
    + assert (d <= 0) as Hle by (destruct Hlv as [[= Ht]|]; [lia|done]).
      exists d, RVoid, []. split; [done|]. split.
      * intros i. apply (latch_inv_snoc n d); [done| |done]. rewrite downs_app. cbn. rewrite Z.add_0_r. apply Hinv.
      * intros c. right; left. unfold need. destruct (Z.ltb_spec 0 d); [lia|done].
    + set (d' := i32 (d - 1)).
      exists d', RVoid, (if d' =? 0 then [Monitor.NotifyAll condition_] else []). split; [done|]. split.
      * intros i. apply (latch_inv_snoc n d); [done| |done]. rewrite downs_app. cbn.
        unfold d'. destruct Hinv as [-> _]. rewrite i32_pred. f_equal. lia.
      * intros []. unfold need. destruct (Z.eqb_spec d' 0); [left; by left|].
        destruct (Z.ltb_spec 0 d); [|by right; left]. right; right.
        assert (0 < d') as Hpos.
        { assert (srange 32 d) as Hr by (destruct Hinv as [-> _]; by apply swrap_range).
          unfold d' in *. unfold i32 in *. rewrite swrap_small in * by (unfold srange in *; lia). lia. }
        destruct (Z.ltb_spec 0 d'); [|lia]. exists 0, 0. split; [done|]. split; [done|]. by left.
    + apply Monitor.read_only_leave with (r := RCount d); [done|done|]. intros i.
      apply (latch_inv_snoc n d); [done| |done]. rewrite downs_app. cbn. rewrite Z.add_0_r. apply Hinv.
Qed.

(** After the count has reached zero, for [k] more steps. *)
Definition open_for (k count_ : Z) : Prop := - 2 ^ 31 + k <= count_ <= 0.
Lemma open_for_step k d o :
  0 <= k -> open_for (k + 1) d ->
  open_for k d /\ Monitor.test (Monitor.code o) true d = Ok false /\
  exists d' r sigs, Monitor.rest (Monitor.code o) true d = Ok (d', r, sigs) /\ open_for k d'.
Proof.
  unfold open_for. intros Hk Hd. split; [lia|]. split.
  { destruct o; cbn; [|done|done]. f_equal. lia. }
  assert (i32 (d - 1) = d - 1) as E by (apply swrap_small; unfold srange; lia).
  destruct o; do 3 eexists; (split; [done|]); rewrite ?E; lia.
Qed.

(** * Properties *)

(** A latch opens for everybody once it is counted down.  In every run,
    [wait] returns only after the count reached zero, [getCount] and [wait]
    see the initial count less the calls of [countDown]; and from any reachable
    state whose count is zero or less (2^31 calls of [countDown] away from
    wrapping), without new calls at most two steps per thread are possible, and
    when no step is possible every thread has returned: no waiter is left
    asleep. *)
Theorem latch_releases_all (n : Z) (tids : gset Z) (es : list (Monitor.event op)) :
  srange 32 n ->
  exists s : Monitor.t Z op result cv, Monitor.run (new_ n tids) es = Ok s /\
    Monitor.data s = i32 (n - downs (Monitor.history s)) /\
    (forall h1 i r h2, Monitor.history s = h1 ++ (i, Wait, r) :: h2 -> i32 (n - downs h1) <= 0) /\
    (- 2 ^ 31 + Monitor.todo s <= Monitor.data s <= 0 ->
     forall k s', nsteps Monitor.move k s s' ->
       Z.of_nat k <= Monitor.todo s /\
       ((forall s'', ~ Monitor.move s' s'') ->
        forall i th, Monitor.threads s' !! i = Some th -> th = Monitor.Idle)).
Proof.
  intros Hn.
  destruct (Monitor.good_run _ _ (latch_spec n) es (new_ n tids)) as (s&Hrun&Hg).
  { apply Monitor.good_init. split; [cbn; rewrite Z.sub_0_r; symmetry; by apply swrap_small|].
    by intros [|??] i r h2. }
  exists s. pose proof (Monitor.good_data _ _ _ Hg) as (Hc&Hw). split_and!; [done..|].
  intros Hopen k s' Hst.
  assert (Monitor.released open_for s) as Hrel.
  { split; [apply Hg| |exact Hopen]. intros i c o Hi.
    destruct (Monitor.good_served _ _ _ Hg c) as [H0|(m&Hm&_)].
    - pose proof (Monitor.count_member (Monitor.sleeps_on c) _ _ _ Hi) as Hpos. cbn in Hpos.
      rewrite bool_decide_eq_true_2 in Hpos by done. specialize (Hpos eq_refl). lia.
    - unfold need in Hm. destruct (Z.ltb_spec 0 (Monitor.data s)); [lia|done]. }
  destruct (Monitor.released_terminates open_for open_for_step k s s' Hrel Hst) as (Hrel'&Hle).
  pose proof (Monitor.todo_nonneg s'). split; [lia|].
  intros Hstuck. by eapply (Monitor.released_idle open_for open_for_step).
Qed.

(** Two threads wait, a third counts down from 1: both are awake, and four
    more steps let them return. *)
Definition witness_events : list (Monitor.event op) :=
  [Monitor.Call 1 Wait; Monitor.Lock 1; Monitor.Run 1 0; Monitor.Call 2 Wait; Monitor.Lock 2; Monitor.Run 2 0;
   Monitor.Call 3 CountDown; Monitor.Lock 3; Monitor.Run 3 0].
Lemma latch_releases_all_witness :
  srange 32 1 /\
  exists s : Monitor.t Z op result cv, Monitor.run (new_ 1 {[1; 2; 3]}) witness_events = Ok s /\
    Monitor.data s = 0 /\ Monitor.todo s = 4 /\
    forall k s', nsteps Monitor.move k s s' -> Z.of_nat k <= 4.
Proof.
  assert (srange 32 1) as Hr by (unfold srange; lia). split; [exact Hr|].
  destruct (latch_releases_all 1 {[1; 2; 3]} witness_events Hr) as (s&Hrun&_&_&Hend).
  exists s. split; [exact Hrun|].
  assert (Monitor.data s = 0 /\ Monitor.todo s = 4) as [Hd Ht]
    by (vm_compute in Hrun; injection Hrun as <-; split; reflexivity).
  split; [exact Hd|]. split; [exact Ht|]. intros k s' Hst. rewrite <-Ht. eapply Hend; [|exact Hst].
  rewrite Hd, Ht. lia.
Defined.
End CountDownLatch.
