(* ===== verification/BaseThreadPool.v ===== *)
(** src/muduo/base/ThreadPool.h and ThreadPool.cc: worker threads that take
    tasks from a queue, bounded if [maxQueueSize_] is positive.

    The queue with its two condition variables is a monitor (BaseMonitor);
    the workers run [runInThread] on top of it.  A task is an [std::function]:
    [Some] number, or [None] for the empty one.  Tasks may call the pool.
    What happens to exceptions of tasks is in BaseException. *)

From S2P Require Import Prelude BaseMonitor.

Module ThreadPool.

Abbreviation Task := (option Z).

Inductive cv := notEmpty_ | notFull_.
#[export] Instance cv_eq_dec : EqDecision cv.
Proof. solve_decision. Defined.

Record data := mkdata { queue_ : list Task; maxQueueSize_ : Z; running_ : bool }.

Inductive op := RunTask (task : Task) | TakeTask | Stop | QueueSize.
(** [run] returns nothing; whether it queued the task is a ghost, and so is
    whether [take] took its result from the queue. *)
Inductive result := RRun (queued : bool) | RTask (task : Task) (popped : bool) | RVoid | RSize (n : Z).
#[export] Instance op_eq_dec : EqDecision op.
Proof. solve_decision. Defined.

(** * The monitor *)

Definition isFull (locked : bool) (d : data) : outcome bool :=
  massert locked "isLockedByThisThread()";;
  Ok ((0 <? maxQueueSize_ d) && (maxQueueSize_ d <=? zlen (queue_ d))).

(** The locked part of [run]; see [run] below. *)
Definition run_locked (task : Task) : Monitor.operation data result cv :=
  Monitor.mkop (Some notFull_)
    (fun locked d => full ← isFull locked d; Ok (full && running_ d))
    (fun locked d =>
       if running_ d
       then full ← isFull locked d;
            massert (negb full) "!isFull()";;
            Ok (mkdata (queue_ d ++ [task]) (maxQueueSize_ d) (running_ d), RRun true, [Monitor.Notify notEmpty_])
       else Ok (d, RRun false, [])).
Definition take : Monitor.operation data result cv :=
  Monitor.mkop (Some notEmpty_)
    (fun _ d => Ok (bool_decide (queue_ d = []) && running_ d))
    (fun _ d =>
       match queue_ d with
       | [] => Ok (d, RTask None false, [])
       | task :: queue => Ok (mkdata queue (maxQueueSize_ d) (running_ d), RTask task true,
                              if 0 <? maxQueueSize_ d then [Monitor.Notify notFull_] else [])
       end).
(** The locked part of [stop]; the joins are in [join]. *)
Definition stop_locked : Monitor.operation data result cv :=
  Monitor.no_wait (fun _ d => Ok (mkdata (queue_ d) (maxQueueSize_ d) false, RVoid,
                                  [Monitor.NotifyAll notEmpty_; Monitor.NotifyAll notFull_])).
Definition queueSize : Monitor.operation data result cv :=
  Monitor.no_wait (fun _ d => Ok (d, RSize (zlen (queue_ d)), [])).

#[export] Instance monitor : Monitor.Monitor data op result cv := fun o =>
  match o with RunTask x => run_locked x | TakeTask => take | Stop => stop_locked | QueueSize => queueSize end.

Abbreviation mstate := (Monitor.t data op result cv).

(** * The workers *)

(** Where a worker is in the loop of [runInThread]: at the test of [running_],
    in [take()], before [task()], in it, or out of the loop. *)
Inductive place := AtLoop | InTake | Got (task : Task) | Busy (task : Z) | Exited.
#[export] Instance place_eq_dec : EqDecision place.
Proof. solve_decision. Defined.

(** [started] has the tasks the workers have started; [inline], those that
    [run] ran in its caller. *)
Record t := mk { mon : mstate; workers : gmap Z place; started : list Z; inline : list Z }.

(** [start] on a new object: [running_] is set and the workers begin.  [tids]
    are the other threads of the program. *)
Definition start (maxSize : Z) (numThreads : gset Z) (tids : gset Z) : t :=
  mk (Monitor.init (mkdata [] maxSize true) (numThreads ∪ tids))
     (gset_to_gmap AtLoop (filter (fun i => 0 < i) numThreads)) [] [].

(** [run]: without workers the task runs at once, in the caller. *)
Definition run (tid : Z) (task : Task) (s : t) : outcome t :=
  if bool_decide (workers s = ∅)
  then match task with
       | Some x => Ok (mk (mon s) (workers s) (started s) (inline s ++ [x]))
       | None => Err (StdException "bad_function_call")
       end
  else m ← Monitor.exec (mon s) (Monitor.Call tid (RunTask task)); Ok (mk m (workers s) (started s) (inline s)).

Inductive event :=
| Enter (tid : Z) (o : op)        (* a call from outside, or by a running task *)
| Step (e : Monitor.event op)     (* a step of a thread that is in a call *)
| Loop (tid : Z) | Begin (tid : Z) | Finish (tid : Z).

Definition tid_of (e : Monitor.event op) : Z :=
  match e with Monitor.Call i _ | Monitor.Lock i | Monitor.Run i _ | Monitor.Spurious i => i end.

(** What [take] gave thread [i] with its last step. *)
Definition taken_by (i : Z) (m : mstate) : Task :=
  match last (Monitor.history m) with Some (j, TakeTask, RTask x _) => if i =? j then x else None | _ => None end.
(** The worker returns from [take()] when its thread leaves the monitor. *)
Definition returned (i : Z) (m : mstate) (p : place) : place :=
  match p, Monitor.threads m !! i with InTake, Some Monitor.Idle => Got (taken_by i m) | _, _ => p end.

(** A call of a thread that is in no other; [run] has a test before it locks. *)
Definition enter (tid : Z) (o : op) (s : t) : outcome t :=
  match o, Monitor.threads (mon s) !! tid with
  | RunTask task, Some Monitor.Idle => run tid task s
  | _, _ => m ← Monitor.exec (mon s) (Monitor.Call tid o); Ok (mk m (workers s) (started s) (inline s))
  end.
(** [runInThread], one test, call or task at a time, and the other threads. *)
Definition exec (s : t) (e : event) : outcome t :=
  match e with
  | Enter tid o =>
      if bool_decide (o = TakeTask) then Ok s
      else match workers s !! tid with
           | None | Some (Busy _) => enter tid o s
           | _ => Ok s
           end
  | Step e =>
      if Monitor.internal e
      then m ← Monitor.exec (mon s) e;
           Ok (mk m (alter (returned (tid_of e) m) (tid_of e) (workers s)) (started s) (inline s))
      else Ok s
  | Loop tid =>
      match workers s !! tid with
      | Some AtLoop =>
          if running_ (Monitor.data (mon s))
          then m ← Monitor.exec (mon s) (Monitor.Call tid TakeTask); Ok (mk m (<[tid := InTake]> (workers s)) (started s) (inline s))
          else Ok (mk (mon s) (<[tid := Exited]> (workers s)) (started s) (inline s))
      | _ => Ok s
      end
  | Begin tid =>
      match workers s !! tid with
      | Some (Got (Some x)) => Ok (mk (mon s) (<[tid := Busy x]> (workers s)) (started s ++ [x]) (inline s))
      | Some (Got None) => Ok (mk (mon s) (<[tid := AtLoop]> (workers s)) (started s) (inline s))
      | _ => Ok s
      end
  | Finish tid =>
      match workers s !! tid, Monitor.threads (mon s) !! tid with
      | Some (Busy _), Some Monitor.Idle => Ok (mk (mon s) (<[tid := AtLoop]> (workers s)) (started s) (inline s))
      | _, _ => Ok s
      end
  end.
Definition run_events (s : t) (es : list event) : outcome t := foldM exec s es.

(** The joins of [stop] return. *)
Definition join (s : t) : bool := bool_decide (map_Forall (fun _ p => p = Exited) (workers s)).

(** * Specification of the queue *)

Definition accepted_of (e : Z * op * result) : list Task :=
  match e with (_, RunTask x, RRun true) => [x] | _ => [] end.
Definition taken_of (e : Z * op * result) : list Task :=
  match e with (_, TakeTask, RTask x true) => [x] | _ => [] end.
Definition accepted (h : list (Z * op * result)) : list Task := h ≫= accepted_of.
Definition taken (h : list (Z * op * result)) : list Task := h ≫= taken_of.

Record pool_inv (maxSize : Z) (d : data) (h : list (Z * op * result)) : Prop := {
  pool_fifo : accepted h = taken h ++ queue_ d;
  pool_max : maxQueueSize_ d = maxSize;
  pool_bound : 0 < maxSize -> zlen (queue_ d) <= maxSize;
  pool_results : Forall (fun e : Z * op * result => match e with
    | (_, TakeTask, RTask x popped) => popped = false -> x = None
    | (_, TakeTask, _) => False | _ => True end) h
}.
Definition need (c : cv) (d : data) : option Z :=
  if running_ d
  then Some (match c with
             | notEmpty_ => zlen (queue_ d)
             | notFull_ => if 0 <? maxQueueSize_ d then maxQueueSize_ d - zlen (queue_ d) else 0
             end)
  else None.

Lemma accepted_snoc h e : accepted (h ++ [e]) = accepted h ++ accepted_of e.
Proof. unfold accepted. rewrite bind_app. cbn. by rewrite app_nil_r. Qed.
Lemma taken_snoc h e : taken (h ++ [e]) = taken h ++ taken_of e.
Proof. unfold taken. rewrite bind_app. cbn. by rewrite app_nil_r. Qed.

(** A result that neither queues nor takes a task. *)
Lemma pool_inv_read m d d' h e :
  pool_inv m d h -> queue_ d' = queue_ d -> maxQueueSize_ d' = maxQueueSize_ d -> accepted_of e = [] -> taken_of e = [] ->
  match e with (_, TakeTask, RTask x popped) => popped = false -> x = None | (_, TakeTask, _) => False | _ => True end ->
  pool_inv m d' (h ++ [e]).
Proof.
  intros [Hf Hm Hb Hr] Eq Em Ha Ht He.
  split; rewrite ?Eq, ?Em; [|done|done|by apply Forall_app; split; [|apply Forall_singleton]].
  by rewrite accepted_snoc, taken_snoc, Ha, Ht, !app_nil_r.
Qed.

Lemma run_leave m d h x : pool_inv m d h -> Monitor.leaves (RunTask x) d -> Monitor.leave_ok (pool_inv m) need d h (RunTask x).
Proof.
  intros Hinv Hlv. assert (running_ d = true -> (0 <? maxQueueSize_ d) && (maxQueueSize_ d <=? zlen (queue_ d)) = false) as Hfull.
  { intros Hr. destruct Hlv as [Ht|]; [|done]. cbn in Ht. injection Ht as Ht. rewrite Hr, andb_true_r in Ht. done. }
  unfold Monitor.leave_ok. cbn. unfold isFull. cbn. destruct (running_ d) eqn:Er.
  - rewrite Hfull by done. cbn. do 3 eexists. split; [done|]. split.
    + intros i. destruct Hinv as [Hf Hm Hb Hres].
      split; cbn; [|done| |by apply Forall_app; split; [|apply Forall_singleton]].
      * rewrite accepted_snoc, taken_snoc, Hf. cbn. by rewrite app_nil_r, app_assoc.
      * intros Hpos. specialize (Hfull eq_refl). zlia.
    + intros c. right; right. unfold need. cbn. rewrite Er. do 2 eexists. split; [done|]. split; [done|].
      destruct c; [right; Monitor.need_lia|]. destruct (0 <? maxQueueSize_ d); [right; Monitor.need_lia|by left].
  - do 3 eexists. split; [done|]. split.
    + intros i. by eapply pool_inv_read.
    + intros c. right; left. unfold need. by rewrite Er.
Qed.

Lemma take_leave m d h : pool_inv m d h -> Monitor.leaves TakeTask d -> Monitor.leave_ok (pool_inv m) need d h TakeTask.
Proof.
  intros Hinv Hlv. unfold Monitor.leave_ok. cbn. destruct (queue_ d) as [|x q] eqn:Eq.
  - assert (running_ d = false) as Er.
    { destruct Hlv as [Ht|]; [|done]. cbn in Ht. injection Ht as Ht. by rewrite Eq in Ht. }
    do 3 eexists. split; [done|]. split; [intros i; by eapply pool_inv_read|].
    intros c. right; left. unfold need. by rewrite Er.
  - do 3 eexists. split; [done|]. split.
    + intros i. destruct Hinv as [Hf Hm Hb Hres].
      split; cbn; [|done| |by apply Forall_app; split; [|apply Forall_singleton]].
      * rewrite accepted_snoc, taken_snoc, Hf, Eq. cbn. by rewrite app_nil_r, <-app_assoc.
      * intros Hpos. specialize (Hb Hpos). rewrite Eq in Hb. zlia.
    + intros c. right. unfold need. cbn. rewrite Eq. destruct (running_ d); [right|by left].
      do 2 eexists. split; [done|]. split; [done|].
      destruct c; [right; destruct (0 <? maxQueueSize_ d); Monitor.need_lia|].
      destruct (0 <? maxQueueSize_ d); [right; Monitor.need_lia|by left].
Qed.

Lemma pool_spec m : Monitor.monitor_spec (pool_inv m) need.
Proof.
  split.
  - intros d h [] _; done.
  - intros d h o c Hinv Ht Hw. destruct o; try done; injection Hw as <-; cbn in Ht; injection Ht as Ht;
      apply andb_true_iff in Ht as [Ht Hr]; unfold need; rewrite Hr; eexists; (split; [done|]).
    + apply andb_true_iff in Ht as [-> Ht]. lia.
    + apply bool_decide_eq_true in Ht. by rewrite Ht.
  - intros d h o Hinv Hlv. destruct o; [by apply run_leave|by apply take_leave|..].
    + do 3 eexists. split; [done|]. split; [intros i; by eapply pool_inv_read|].
      intros c. left. unfold Monitor.notifies_all. destruct c; set_solver.
    + eapply Monitor.read_only_leave; [done|done|]. intros i. by eapply pool_inv_read.
Qed.

(** * Workers and monitor together *)

(** The task a worker has taken and not yet started. *)
Definition got (p : place) : list Z := match p with Got (Some x) => [x] | _ => [] end.
Definition gather {A} (f : place -> list A) (w : gmap Z place) : list A := map_to_list w ≫= (fun x => f x.2).
Abbreviation holding := (gather got).

Lemma gather_insert {A} (f : place -> list A) w i p : gather f (<[i := p]> w) ≡ₚ f p ++ gather f (delete i w).
Proof.
  unfold gather. rewrite <-insert_delete_eq. by rewrite map_to_list_insert by apply lookup_delete_eq.
Qed.
Lemma gather_lookup {A} (f : place -> list A) w i p : w !! i = Some p -> gather f w ≡ₚ f p ++ gather f (delete i w).
Proof. intros Hi. by rewrite <-gather_insert, insert_id. Qed.
Lemma holding_same w i p p' : w !! i = Some p -> got p = [] -> got p' = [] -> holding (<[i := p']> w) ≡ₚ holding w.
Proof. intros Hi Hp Hp'. by rewrite gather_insert, (gather_lookup got w i p Hi), Hp, Hp'. Qed.
Lemma holding_none w : (forall i p, w !! i = Some p -> got p = []) -> holding w = [].
Proof.
  intros Hw. unfold gather.
  assert (Forall (fun x : Z * place => got x.2 = []) (map_to_list w)) as Hf.
  { apply Forall_forall. intros [i p] Hi. apply elem_of_map_to_list in Hi. by eapply Hw. }
  induction Hf as [|x l Hx _ IH]; [done|]. cbn. by rewrite Hx, IH.
Qed.

Definition in_take (th : Monitor.thread op cv) : bool :=
  match th with
  | Monitor.Entering TakeTask | Monitor.Inside TakeTask | Monitor.Sleeping _ TakeTask => true
  | _ => false
  end.
Definition place_ok (th : Monitor.thread op cv) (p : option place) : Prop :=
  match p with
  | Some InTake => in_take th = true
  | Some (Busy _) | None => in_take th = false
  | _ => th = Monitor.Idle
  end.

Record good (m : Z) (s : t) : Prop := {
  good_mon : Monitor.good (pool_inv m) need (mon s);
  good_place : forall i th, Monitor.threads (mon s) !! i = Some th -> place_ok th (workers s !! i);
  good_worker : forall i, is_Some (workers s !! i) -> is_Some (Monitor.threads (mon s) !! i);
  good_started : omap id (taken (Monitor.history (mon s))) ≡ₚ started s ++ holding (workers s)
}.

Lemma place_woken ths ths' i th' p :
  Monitor.woken ths ths' -> ths' !! i = Some th' -> (forall th, ths !! i = Some th -> place_ok th p) -> place_ok th' p.
Proof.
  intros Hw Hi Hp. destruct (Hw i) as [E|(c&o&E&E')].
  - apply Hp. congruence.
  - specialize (Hp _ E). rewrite Hi in E'. injection E' as ->. by destruct p as [[]|].
Qed.

Lemma start_good m numThreads tids : good m (start m numThreads tids).
Proof.
  split; cbn.
  - apply Monitor.good_init. split; [done|done|intros ?; cbn [queue_]; zlia|constructor].
  - intros i th Hi. apply lookup_gset_to_gmap_Some in Hi as [_ <-].
    destruct (gset_to_gmap AtLoop _ !! i) as [p|] eqn:E; [|done].
    by apply lookup_gset_to_gmap_Some in E as [_ <-].
  - intros i (p&Hi). apply lookup_gset_to_gmap_Some in Hi as [Hi _]. exists Monitor.Idle.
    apply lookup_gset_to_gmap_Some. set_solver.
  - rewrite holding_none; [done|]. intros i p Hi. by apply lookup_gset_to_gmap_Some in Hi as [_ <-].
Qed.

(** Thread [i] goes from [th] to [th'] and worker [i] from place to place. *)
Lemma good_change m s mon' w' i th th' :
  good m s -> Monitor.good (pool_inv m) need mon' ->
  Monitor.threads (mon s) !! i = Some th -> Monitor.woken (<[i := th']> (Monitor.threads (mon s))) (Monitor.threads mon') ->
  (forall j, j <> i -> w' !! j = workers s !! j) -> (is_Some (w' !! i) <-> is_Some (workers s !! i)) ->
  place_ok th' (w' !! i) ->
  omap id (taken (Monitor.history mon')) ≡ₚ started s ++ holding w' ->
  good m (mk mon' w' (started s) (inline s)).
Proof.
  intros Hg Hm Hi Hw Hj Hwi Hp Hs. split; cbn; [done| | |done].
  - intros j thj Hthj. eapply place_woken; [done|done|]. intros th0 Hth0.
    destruct (decide (j = i)) as [->|Hne].
    + rewrite lookup_insert_eq in Hth0. by injection Hth0 as <-.
    + rewrite lookup_insert_ne in Hth0 by done. rewrite Hj by done. by eapply good_place.
  - intros j Hjw. apply (Monitor.woken_tids _ _ _ Hw). destruct (decide (j = i)) as [->|Hne].
    + by rewrite lookup_insert_eq.
    + rewrite lookup_insert_ne by done. rewrite Hj in Hjw by done. by eapply good_worker.
Qed.

Lemma in_take_inside o : in_take (Monitor.Inside o) = true -> o = TakeTask.
Proof. by destruct o. Qed.

Lemma leave_started m s i o d r mtx ths :
  good m s -> Monitor.threads (mon s) !! i = Some (Monitor.Inside o) ->
  let mon' := Monitor.mk d mtx ths (Monitor.history (mon s) ++ [(i, o, r)]) in
  Monitor.good (pool_inv m) need mon' -> ths !! i = Some Monitor.Idle ->
  omap id (taken (Monitor.history mon')) ≡ₚ started s ++ holding (alter (returned i mon') i (workers s)).
Proof.
  intros Hg Hi mon' Hm Hidle. pose proof (good_place _ _ Hg _ _ Hi) as Hpl.
  pose proof (pool_results _ _ _ (Monitor.good_data _ _ _ Hm)) as Hres. cbn in Hres.
  apply Forall_app in Hres as [_ Hres]. rewrite Forall_singleton in Hres.
  unfold mon' at 1. cbn [Monitor.history]. rewrite taken_snoc, omap_app, (good_started _ _ Hg), <-app_assoc. f_equiv.
  destruct (workers s !! i) as [p|] eqn:Ew.
  2: { rewrite alter_id by congruence. destruct o; try done; by rewrite app_nil_r. }
  assert (alter (returned i mon') i (workers s) = <[i := returned i mon' p]> (workers s)) as ->.
  { apply map_eq. intros j. destruct (decide (i = j)) as [<-|].
    - by rewrite lookup_alter_eq, lookup_insert_eq, Ew.
    - by rewrite lookup_alter_ne, lookup_insert_ne. }
  destruct (decide (p = InTake)) as [->|Hp].
  - apply in_take_inside in Hpl as ->. unfold returned, mon', taken_by. cbn. rewrite Hidle, last_snoc, Z.eqb_refl.
    rewrite gather_insert. rewrite <-(insert_id _ _ _ Ew) at 1. rewrite gather_insert. cbn.
    destruct r as [|x popped| |]; try done.
    destruct popped; [|rewrite (Hres eq_refl); by rewrite app_nil_r].
    destruct x as [x|]; cbn; [apply Permutation_app_comm|by rewrite app_nil_r].
  - assert (returned i mon' p = p) as -> by by destruct p. rewrite insert_id by done.
    destruct o; [by rewrite app_nil_r| |by rewrite app_nil_r..]. by destruct p.
Qed.

Lemma pool_step_good m s e mon' :
  good m s -> Monitor.internal e = true -> Monitor.good (pool_inv m) need mon' -> Monitor.step (mon s) e mon' ->
  good m (mk mon' (alter (returned (tid_of e) mon') (tid_of e) (workers s)) (started s) (inline s)).
Proof.
  intros Hg He Hm Hst. pose proof (good_place _ _ Hg) as Hpl.
  assert (forall i, Monitor.threads mon' !! i <> Some Monitor.Idle ->
    alter (returned i mon') i (workers s) = workers s) as Hkeep.
  { intros i Hne. apply alter_id. intros p Hp. unfold returned.
    destruct p; try done. destruct (Monitor.threads mon' !! i) as [[]|]; try done. }
  destruct Hst as [|i o Hi Hown|i o c pick Hi Ht Hw|i o d r sigs pick Hi Hlv Hr|i o c Hi]; [done|..]; cbn [tid_of].
  - rewrite Hkeep by (cbn; by rewrite lookup_insert_eq).
    eapply good_change; [done|done|done|apply Monitor.woken_refl|done|done| |apply Hg].
    specialize (Hpl _ _ Hi). by destruct (workers s !! i) as [[]|].
  - rewrite Hkeep by (cbn; by rewrite lookup_insert_eq).
    eapply good_change; [done|done|done|apply Monitor.woken_refl|done|done| |apply Hg].
    specialize (Hpl _ _ Hi). by destruct (workers s !! i) as [[]|].
  - assert (Monitor.woken (<[i := Monitor.Idle]> (Monitor.threads (mon s)))
        (foldl (Monitor.raise pick) (<[i := Monitor.Idle]> (Monitor.threads (mon s))) sigs)) as Hwk.
    { apply Monitor.raises_woken, Monitor.insert_sleep_ok; [apply Hg|done]. }
    eapply good_change; [done|done|done|exact Hwk| | | |].
    + intros j Hne. by rewrite lookup_alter_ne.
    + rewrite lookup_alter_eq. apply fmap_is_Some.
    + rewrite lookup_alter_eq. specialize (Hpl _ _ Hi).
      destruct (workers s !! i) as [[]|]; try done. cbn. unfold returned. cbn.
      destruct (Hwk i) as [E|(c&o'&E&_)]; rewrite lookup_insert_eq in E; [by rewrite E|done].
    + eapply leave_started; [done|done|done|].
      destruct (Hwk i) as [E|(c&o'&E&_)]; rewrite lookup_insert_eq in E; done.
  - rewrite Hkeep by (cbn; by rewrite lookup_insert_eq).
    eapply good_change; [done|done|done|apply Monitor.woken_refl|done|done| |apply Hg].
    specialize (Hpl _ _ Hi). by destruct (workers s !! i) as [[]|].
Qed.

(** A call of thread [i], which is outside the monitor. *)
Lemma call_good m s i o w' :
  good m s -> Monitor.threads (mon s) !! i = Some Monitor.Idle ->
  (forall j, j <> i -> w' !! j = workers s !! j) -> (is_Some (w' !! i) <-> is_Some (workers s !! i)) ->
  place_ok (Monitor.Entering o) (w' !! i) -> holding w' ≡ₚ holding (workers s) ->
  exists mon', Monitor.exec (mon s) (Monitor.Call i o) = Ok mon' /\ good m (mk mon' w' (started s) (inline s)).
Proof.
  intros Hg Hi Hj Hw Hp Hh.
  destruct (Monitor.good_exec _ _ (pool_spec m) (mon s) (Monitor.Call i o) (good_mon _ _ Hg)) as (mon'&Hex&Hm&_).
  exists mon'. split; [done|]. cbn in Hex. rewrite Hi in Hex. injection Hex as <-.
  eapply good_change; [done|done|done|apply Monitor.woken_refl|done|done|done|]. cbn.
  rewrite Hh. apply Hg.
Qed.
Lemma call_noop m s i o :
  good m s -> Monitor.threads (mon s) !! i <> Some Monitor.Idle -> Monitor.exec (mon s) (Monitor.Call i o) = Ok (mon s).
Proof. intros _ Hi. cbn. destruct (Monitor.threads (mon s) !! i) as [[]|]; done. Qed.

(** A worker outside the monitor goes to another place outside. *)
Lemma move_good m s i p p' st :
  good m s -> workers s !! i = Some p -> Monitor.threads (mon s) !! i = Some Monitor.Idle ->
  place_ok Monitor.Idle (Some p') -> st ++ got p' ≡ₚ started s ++ got p ->
  good m (mk (mon s) (<[i := p']> (workers s)) st (inline s)).
Proof.
  intros Hg Hw Hi Hp Hst. split; cbn; [apply Hg| | |].
  - intros j th Hj. destruct (decide (i = j)) as [<-|].
    + rewrite lookup_insert_eq. rewrite Hi in Hj. by injection Hj as <-.
    + rewrite lookup_insert_ne by done. by eapply good_place.
  - intros j Hj. apply (good_worker _ _ Hg). destruct (decide (i = j)) as [<-|]; [by rewrite Hw|].
    by rewrite lookup_insert_ne in Hj.
  - rewrite (good_started _ _ Hg), gather_insert, app_assoc, Hst, <-app_assoc. f_equiv.
    rewrite <-gather_insert. by rewrite insert_id.
Qed.

(** A pool without workers runs its tasks in the caller, and an empty
    [std::function] cannot be called. *)
Definition given (e : event) : Prop := match e with Enter _ (RunTask None) => False | _ => True end.
Definition fits (s : t) (e : event) : Prop := workers s = ∅ -> given e.

Lemma enter_good m s i o :
  good m s -> fits s (Enter i o) -> o <> TakeTask ->
  (workers s !! i <> None -> exists x, workers s !! i = Some (Busy x)) ->
  exists s', enter i o s = Ok s' /\ good m s'.
Proof.
  intros Hg Hfit Ho Hw.
  assert (exists m', Monitor.exec (mon s) (Monitor.Call i o) = Ok m' /\ good m (mk m' (workers s) (started s) (inline s))) as Hcall.
  { assert (Monitor.threads (mon s) !! i = Some Monitor.Idle \/ Monitor.threads (mon s) !! i <> Some Monitor.Idle)
      as [Hi|Hi] by (destruct (Monitor.threads (mon s) !! i) as [[]|]; auto).
    - apply call_good; try done.
      destruct (workers s !! i) as [p|]; [destruct Hw as (x&[= ->]); [done|]|]; by destruct o.
    - exists (mon s). split; [by apply (call_noop m)|by destruct s]. }
  destruct Hcall as (m'&Hc&Hg').
  assert (exists s', (m ← Monitor.exec (mon s) (Monitor.Call i o); Ok (mk m (workers s) (started s) (inline s))) = Ok s' /\
    good m s') as Hsome by (rewrite Hc; cbn; eauto).
  unfold enter. destruct o as [task| | |]; try done.
  destruct (Monitor.threads (mon s) !! i) as [[]|]; try done. unfold run.
  destruct (bool_decide (workers s = ∅)) eqn:E; [|done]. apply bool_decide_eq_true in E.
  destruct task as [x|]; [|by destruct (Hfit E)].
  eexists. split; [done|]. split; apply Hg.
Qed.

Lemma exec_good m s e : good m s -> fits s e -> exists s', exec s e = Ok s' /\ good m s'.
Proof.
  intros Hg Hfit. assert (exists s', Ok s = Ok s' /\ good m s') as Hsame by eauto.
  destruct e as [i o|e|i|i|i]; cbn [exec].
  - destruct (bool_decide (o = TakeTask)) eqn:Eo; [done|]. apply bool_decide_eq_false in Eo.
    destruct (workers s !! i) as [[]|] eqn:Ew; try done; apply enter_good; try done; rewrite Ew; intros ?; by try eexists.
  - destruct (Monitor.internal e) eqn:He; [|done].
    destruct (Monitor.good_exec _ _ (pool_spec m) (mon s) e (good_mon _ _ Hg)) as (mon'&->&Hm&[->|Hst]); cbn.
    + rewrite alter_id; [destruct s; eauto|]. intros p Hp. unfold returned. destruct p; try done.
      destruct (Monitor.threads (mon s) !! tid_of e) as [[]|] eqn:Ei; try done.
      pose proof (good_place _ _ Hg _ _ Ei) as Hpl. by rewrite Hp in Hpl.
    + eexists. split; [done|]. by apply pool_step_good.
  - destruct (workers s !! i) as [[]|] eqn:Ew; try done.
    destruct (good_worker _ _ Hg i) as (th&Hth); [by rewrite Ew|].
    pose proof (good_place _ _ Hg _ _ Hth) as Hpl. rewrite Ew in Hpl. cbn in Hpl. subst th.
    destruct (running_ _).
    + destruct (call_good m s i TakeTask (<[i := InTake]> (workers s))) as (mon'&->&?); try done.
      * intros j Hne. by rewrite lookup_insert_ne.
      * by rewrite lookup_insert_eq, Ew.
      * by rewrite lookup_insert_eq.
      * by eapply holding_same.
      * eauto.
    + eexists. split; [done|]. by eapply move_good.
  - destruct (workers s !! i) as [[| |[x|]| |]|] eqn:Ew; try done;
      destruct (good_worker _ _ Hg i) as (th&Hth); try (by rewrite Ew);
      pose proof (good_place _ _ Hg _ _ Hth) as Hpl; rewrite Ew in Hpl; cbn in Hpl; subst th;
      (eexists; split; [done|]); eapply move_good; try done; cbn; by rewrite ?app_nil_r.
  - destruct (workers s !! i) as [[]|] eqn:Ew; try done.
    destruct (Monitor.threads (mon s) !! i) as [[]|] eqn:Ei; try done.
    eexists. split; [done|]. by eapply move_good.
Qed.
(** The set of workers is that of [start]. *)
Lemma start_workers m numThreads tids :
  workers (start m numThreads tids) = ∅ <-> filter (fun i => 0 < i) numThreads = ∅.
Proof. cbn. by rewrite <-dom_empty_iff_L, dom_gset_to_gmap. Qed.
Lemma exec_workers s e s' : exec s e = Ok s' -> dom (workers s') = dom (workers s).
Proof.
  assert (forall i p p', workers s !! i = Some p -> dom (<[i := p']> (workers s)) = dom (workers s)) as Hins.
  { intros i p p' Hi. by apply dom_insert_lookup_L; rewrite Hi. }
  destruct e as [i o|e|i|i|i]; cbn; intros He.
  - destruct (bool_decide _); [by injection He as <-|].
    assert (enter i o s = Ok s' \/ s' = s) as [Hen| ->]; [|clear He|done].
    { destruct (workers s !! i) as [[]|]; first [by left|right; by injection He as <-]. }
    unfold enter, run in Hen. repeat case_match; outcome_inv; done.
  - destruct (Monitor.internal e); outcome_inv; [|done]. cbn. apply dom_alter_L.
  - destruct (workers s !! i) as [[]|] eqn:Ew; [destruct (running_ _)|..]; outcome_inv; try done; cbn; by eapply Hins.
  - destruct (workers s !! i) as [[| |[]| |]|] eqn:Ew; outcome_inv; try done; cbn; by eapply Hins.
  - destruct (workers s !! i) as [[]|] eqn:Ew; [..|by outcome_inv];
      try (by outcome_inv). destruct (Monitor.threads (mon s) !! i) as [[]|]; outcome_inv; try done; cbn; by eapply Hins.
Qed.
Lemma run_events_workers es s s' : run_events s es = Ok s' -> dom (workers s') = dom (workers s).
Proof.
  revert s. induction es as [|e es IH]; intros s; cbn; [by intros [= ->]|].
  intros (s1&He&Hes)%bind_ok. rewrite (IH _ Hes). by eapply exec_workers.
Qed.
Lemma run_events_good m es s :
  good m s -> (workers s = ∅ -> Forall given es) -> exists s', run_events s es = Ok s' /\ good m s'.
Proof.
  revert s. induction es as [|e es IH]; intros s Hg Hes; cbn; [eauto|].
  destruct (exec_good m s e Hg) as (s1&He&Hg1); [intros E; by apply Hes, Forall_cons in E as [? ?]|]. rewrite He. cbn.
  apply IH; [done|]. intros E. apply dom_empty_iff_L in E. rewrite (exec_workers _ _ _ He) in E.
  apply dom_empty_iff_L in E. by apply Hes, Forall_cons in E as [? ?].
Qed.

(** * Stopping *)

Definition stopped (_ : Z) (d : data) : Prop := running_ d = false.
Lemma stopped_step k d o :
  0 <= k -> stopped (k + 1) d ->
  stopped k d /\ Monitor.test (Monitor.code o) true d = Ok false /\
  exists d' r sigs, Monitor.rest (Monitor.code o) true d = Ok (d', r, sigs) /\ stopped k d'.
Proof.
  unfold stopped. intros _ Hr. split; [done|]. split.
  - destruct o; cbn; rewrite ?Hr, ?andb_false_r; done.
  - destruct o; cbn; rewrite ?Hr; try (do 3 eexists; split; [done|done]).
    destruct (queue_ d); do 3 eexists; (split; [done|done]).
Qed.

(** The steps a worker may still make outside the monitor. *)
Definition steps_left (p : place) : nat :=
  match p with Exited => 0 | AtLoop => 1 | Busy _ => 2 | Got _ | InTake => 3 end.
Definition work (s : t) : Z :=
  Monitor.todo (mon s) + zlen (gather (fun p => replicate (steps_left p) tt) (workers s)).
Definition quiet (e : event) : bool := match e with Enter _ _ => false | _ => true end.
Definition move (s s' : t) : Prop := exists e, quiet e = true /\ exec s e = Ok s' /\ s' <> s.

Lemma left_change w i p p' :
  w !! i = Some p ->
  zlen (gather (fun p => replicate (steps_left p) tt) (<[i := p']> w)) =
    zlen (gather (fun p => replicate (steps_left p) tt) w) - Z.of_nat (steps_left p) + Z.of_nat (steps_left p').
Proof.
  intros Hi. unfold zlen.
  rewrite (Permutation_length (gather_insert (fun p => replicate (steps_left p) tt) w i p')).
  rewrite (Permutation_length (gather_lookup (fun p => replicate (steps_left p) tt) w i p Hi)).
  rewrite !length_app, !length_replicate. lia.
Qed.
Lemma work_nonneg s : 0 <= work s.
Proof. unfold work. pose proof (Monitor.todo_nonneg (mon s)). zlia. Qed.

(** Returning from [take] leaves no more to do. *)
Lemma left_returned i mon' w :
  zlen (gather (fun p => replicate (steps_left p) tt) (alter (returned i mon') i w)) =
  zlen (gather (fun p => replicate (steps_left p) tt) w).
Proof.
  destruct (w !! i) as [p|] eqn:Ew; [|by rewrite alter_id by congruence].
  assert (alter (returned i mon') i w = <[i := returned i mon' p]> w) as ->.
  { apply map_eq. intros j. destruct (decide (i = j)) as [<-|].
    - by rewrite lookup_alter_eq, lookup_insert_eq, Ew.
    - by rewrite lookup_alter_ne, lookup_insert_ne. }
  rewrite (left_change w i p) by done. unfold returned.
  destruct p; try lia. destruct (Monitor.threads mon' !! i) as [[]|]; cbn; lia.
Qed.

Definition stopping (m : Z) (s : t) : Prop := good m s /\ Monitor.released stopped (mon s).

Lemma quiet_step m s e s' :
  stopping m s -> quiet e = true -> exec s e = Ok s' -> s' = s \/ stopping m s' /\ work s' < work s.
Proof.
  intros [Hg Hrel] He Hex. destruct (exec_good m s e Hg) as (s1&Hex1&Hg1); [by destruct e|].
  rewrite Hex in Hex1. injection Hex1 as <-.
  assert (forall i p p' st, s' = mk (mon s) (<[i := p']> (workers s)) st (inline s) -> workers s !! i = Some p ->
    (steps_left p' < steps_left p)%nat -> stopping m s' /\ work s' < work s) as Hw.
  { intros i p p' st -> Hi Hlt. split; [by split|]. unfold work. cbn. rewrite (left_change _ i p) by done. lia. }
  destruct e as [i o|e|i|i|i]; [done|..]; cbn [exec] in Hex.
  - destruct (Monitor.internal e) eqn:Ei; [|left; congruence].
    destruct (Monitor.released_step stopped stopped_step (mon s) e Hrel Ei) as (mon'&Hm&Hor). rewrite Hm in Hex.
    cbn in Hex. injection Hex as <-. destruct Hor as [->|(Hrel'&Ht)].
    + left. destruct s as [mo w st il]. cbn in *. f_equal. apply alter_id. intros p Hp. unfold returned.
      destruct p; try done. destruct (Monitor.threads mo !! tid_of e) as [[]|] eqn:Eth; try done.
      pose proof (good_place _ _ Hg _ _ Eth) as Hpl. cbn in Hpl. by rewrite Hp in Hpl.
    + right. split; [by split|]. unfold work. cbn. rewrite left_returned, Ht. lia.
  - destruct (workers s !! i) as [[]|] eqn:Ew; try (left; congruence).
    pose proof (Monitor.released_data _ _ Hrel) as Hd. unfold stopped in Hd. rewrite Hd in Hex. injection Hex as <-.
    right. by eapply Hw; [done|done|cbn; lia].
  - destruct (workers s !! i) as [[| |[x|]| |]|] eqn:Ew; try (left; congruence); injection Hex as <-; right;
      (eapply Hw; [done|done|cbn; lia]).
  - destruct (workers s !! i) as [[]|] eqn:Ew; try (left; congruence).
    destruct (Monitor.threads (mon s) !! i) as [[]|]; try (left; congruence). injection Hex as <-.
    right. eapply Hw; [done|done|cbn; lia].
Qed.

Lemma stopping_terminates m n s s' : stopping m s -> nsteps move n s s' -> stopping m s' /\ Z.of_nat n + work s' <= work s.
Proof.
  intros Hs Hst. induction Hst as [s|n s s1 s2 (e&He&Hex&Hne) _ IH]; [by split; [|lia]|].
  destruct (quiet_step m s e s1 Hs He Hex) as [->|(Hs1&Hlt)]; [done|].
  destruct (IH Hs1) as (?&?). split; [done|]. lia.
Qed.

(** When nothing is left to do, every worker is out of its loop. *)
Lemma stopping_joins m s : stopping m s -> (forall s', ~ move s s') -> join s = true.
Proof.
  intros [Hg Hrel] Hstuck.
  assert (forall i th, Monitor.threads (mon s) !! i = Some th -> th = Monitor.Idle) as Hidle.
  { apply (Monitor.released_idle stopped stopped_step); [done|]. intros mon' (e&He&Hex&Hne).
    destruct (Hstuck (mk mon' (alter (returned (tid_of e) mon') (tid_of e) (workers s)) (started s) (inline s))).
    exists (Step e). split; [done|]. cbn. rewrite He, Hex. split; [done|]. intros E. apply Hne.
    by rewrite <-E. }
  unfold join. apply bool_decide_eq_true. intros i p Hp.
  destruct (good_worker _ _ Hg i) as (th&Hth); [by rewrite Hp|]. pose proof (Hidle _ _ Hth) as ->.
  pose proof (good_place _ _ Hg _ _ Hth) as Hpl. rewrite Hp in Hpl.
  assert (forall e p' st, quiet e = true -> exec s e = Ok (mk (mon s) (<[i := p']> (workers s)) st (inline s)) -> p' = p) as Hno.
  { intros e p' st He Hex. destruct (decide (p' = p)) as [|Hne]; [done|]. edestruct Hstuck. exists e. split; [done|]. split; [done|].
    intros E. apply (f_equal (fun s => workers s !! i)) in E. cbn in E. rewrite lookup_insert_eq, Hp in E. congruence. }
  destruct p as [| |[x|]|x|]; try done.
  - specialize (Hno (Loop i) Exited (started s) eq_refl). cbn in Hno. rewrite Hp in Hno.
    pose proof (Monitor.released_data _ _ Hrel) as Hd. unfold stopped in Hd. rewrite Hd in Hno. by specialize (Hno eq_refl).
  - specialize (Hno (Begin i) (Busy x) (started s ++ [x]) eq_refl). cbn in Hno. rewrite Hp in Hno. by specialize (Hno eq_refl).
  - specialize (Hno (Begin i) AtLoop (started s) eq_refl). cbn in Hno. rewrite Hp in Hno. by specialize (Hno eq_refl).
  - specialize (Hno (Finish i) AtLoop (started s) eq_refl). cbn in Hno. rewrite Hp, Hth in Hno. by specialize (Hno eq_refl).
Qed.

(** The steps of one thread that locks, runs and leaves. *)
Lemma both_steps s i pick m1 m2 :
  Monitor.run (mon s) [Monitor.Lock i; Monitor.Run i pick] = Ok m1 -> m2 = m1 ->
  exists s', run_events s [Step (Monitor.Lock i); Step (Monitor.Run i pick)] = Ok s' /\ mon s' = m2.
Proof.
  intros Hr ->. unfold Monitor.run in Hr. cbn [foldM] in Hr. apply bind_ok in Hr as (m&Hl&Hr).
  apply bind_ok in Hr as (m'&Hrn&[= <-]). unfold run_events. cbn [foldM exec Monitor.internal mon].
  rewrite Hl. cbn [mbind outcome_bind exec Monitor.internal mon]. rewrite Hrn. cbn. eauto.
Qed.

(** A worker in [take] is awake or waits for [notEmpty_]. *)
Lemma in_take_waits m s i :
  good m s -> Monitor.owner (Monitor.mutex_ (mon s)) = None -> workers s !! i = Some InTake ->
  Monitor.threads (mon s) !! i = Some (Monitor.Entering TakeTask) \/
  Monitor.threads (mon s) !! i = Some (Monitor.Sleeping notEmpty_ TakeTask).
Proof.
  intros Hg Hown Hi. destruct (good_worker _ _ Hg i) as (th&Hth); [by rewrite Hi|].
  pose proof (good_place _ _ Hg _ _ Hth) as Hpl. rewrite Hi in Hpl. cbn in Hpl.
  destruct th as [|[]|[]|c []]; try done; [by left| |].
  - assert (Monitor.owner (Monitor.mutex_ (mon s)) = Some i)
      by (apply (Monitor.lock_owner _ (Monitor.good_lock _ _ _ (good_mon _ _ Hg))); eauto). congruence.
  - pose proof (Monitor.lock_sleep _ (Monitor.good_lock _ _ _ (good_mon _ _ Hg)) _ _ _ Hth) as Hc.
    cbn in Hc. injection Hc as <-. by right.
Qed.

(** Tasks do not wait beside sleeping workers. *)
Lemma pool_takes m s i task rest :
  good m s -> running_ (Monitor.data (mon s)) = true -> queue_ (Monitor.data (mon s)) = task :: rest ->
  Monitor.owner (Monitor.mutex_ (mon s)) = None -> workers s !! i = Some InTake ->
  exists j s', run_events s [Step (Monitor.Lock j); Step (Monitor.Run j 0)] = Ok s' /\
    Monitor.history (mon s') = Monitor.history (mon s) ++ [(j, TakeTask, RTask task true)].
Proof.
  intros Hg Hr Hq Hown Hi.
  assert (need notEmpty_ (Monitor.data (mon s)) = Some (zlen (task :: rest))) as Hn by (unfold need; by rewrite Hr, Hq).
  destruct (Monitor.served_progress _ need (mon s) notEmpty_ _ i TakeTask (good_mon _ _ Hg) Hown Hn
    ltac:(zlia) (in_take_waits m s i Hg Hown Hi) eq_refl) as (j&o&Hj&Hw). destruct o; try done.
  edestruct (Monitor.two_steps (mon s) j 0 TakeTask) as (m'&Hrun&_&Hh&_); [done|done|cbn; by rewrite Hq|cbn; by rewrite Hq|].
  destruct (both_steps s j 0 m' m' Hrun eq_refl) as (s'&?&<-). eauto.
Qed.
(** Nor do callers of [run] beside room in the queue. *)
Lemma pool_admits m s i x :
  good m s -> running_ (Monitor.data (mon s)) = true -> 0 < m -> zlen (queue_ (Monitor.data (mon s))) < m ->
  Monitor.owner (Monitor.mutex_ (mon s)) = None ->
  Monitor.threads (mon s) !! i = Some (Monitor.Entering (RunTask x)) \/
    Monitor.threads (mon s) !! i = Some (Monitor.Sleeping notFull_ (RunTask x)) ->
  exists j y s', run_events s [Step (Monitor.Lock j); Step (Monitor.Run j 0)] = Ok s' /\
    Monitor.history (mon s') = Monitor.history (mon s) ++ [(j, RunTask y, RRun true)].
Proof.
  intros Hg Hr Hm Hq Hown Hi. pose proof (pool_max _ _ _ (Monitor.good_data _ _ _ (good_mon _ _ Hg))) as Hmax.
  assert (need notFull_ (Monitor.data (mon s)) = Some (m - zlen (queue_ (Monitor.data (mon s))))) as Hn.
  { unfold need. rewrite Hr, Hmax. by destruct (Z.ltb_spec 0 m); [|lia]. }
  destruct (Monitor.served_progress _ need (mon s) notFull_ _ i (RunTask x) (good_mon _ _ Hg) Hown Hn
    ltac:(lia) Hi eq_refl) as (j&o&Hj&Hw). destruct o as [y| | |]; try done.
  assert (isFull true (Monitor.data (mon s)) = Ok false) as Hfull.
  { unfold isFull. cbn. rewrite Hmax. do 2 f_equal. lia. }
  edestruct (Monitor.two_steps (mon s) j 0 (RunTask y)) as (m'&Hrun&_&Hh&_); [done|done| | |].
  { unfold Monitor.code, monitor, run_locked. cbn [Monitor.test]. by rewrite Hfull. }
  { unfold Monitor.code, monitor, run_locked. cbn [Monitor.rest]. rewrite Hr, Hfull. reflexivity. }
  destruct (both_steps s j 0 m' m' Hrun eq_refl) as (s'&?&<-). eauto.
Qed.

Lemma stopping_start m s : good m s -> running_ (Monitor.data (mon s)) = false -> stopping m s.
Proof.
  intros Hg Hr. split; [done|]. split; [apply Hg| |done]. intros i c o Hi.
  destruct (Monitor.good_served _ _ _ (good_mon _ _ Hg) c) as [H0|(k&Hk&_)].
  - pose proof (Monitor.count_member (Monitor.sleeps_on c) _ _ _ Hi) as Hpos. cbn in Hpos.
    rewrite bool_decide_eq_true_2 in Hpos by done. specialize (Hpos eq_refl). lia.
  - unfold need in Hk. by rewrite Hr in Hk.
Qed.

(** * Properties *)

(** C14: a thread pool runs what it accepts, and stops.  For any workers and
    other threads, under any interleaving (tasks may call the pool; a pool
    without workers is given no empty [std::function], which its caller would
    call): no assertion fails; the accepted tasks are, in order, the ones taken
    followed by the queue, which is never longer than a positive
    [maxQueueSize_]; each task taken is started once or is in the hands of the
    worker that took it.  While the pool runs, neither side loses a wake-up:
    whenever the lock is free, if tasks wait and a worker is in [take], a
    worker that is awake takes the first task with its next two steps, and if
    a bounded queue has room and a thread waits in [run], a thread that is
    awake queues its task.  Without workers a call of [run] runs its task
    before it returns, in the caller.  Once [stop] has cleared [running_],
    without new calls only boundedly many steps are left, after which every
    worker has left its loop, so that the joins of [stop] return. *)
Theorem pool_runs_and_stops maxSize (numThreads tids : gset Z) (es : list event) :
  (filter (fun i => 0 < i) numThreads = ∅ -> Forall given es) ->
  exists s, run_events (start maxSize numThreads tids) es = Ok s /\
    let h := Monitor.history (mon s) in
    let d := Monitor.data (mon s) in
    accepted h = taken h ++ queue_ d /\
    (0 < maxSize -> zlen (queue_ d) <= maxSize) /\
    omap id (taken h) ≡ₚ started s ++ holding (workers s) /\
    (running_ d = true -> Monitor.owner (Monitor.mutex_ (mon s)) = None ->
     (forall i task rest, queue_ d = task :: rest -> workers s !! i = Some InTake ->
       exists j s', run_events s [Step (Monitor.Lock j); Step (Monitor.Run j 0)] = Ok s' /\
         Monitor.history (mon s') = h ++ [(j, TakeTask, RTask task true)]) /\
     (forall i x, 0 < maxSize -> zlen (queue_ d) < maxSize ->
       Monitor.threads (mon s) !! i = Some (Monitor.Entering (RunTask x)) \/
         Monitor.threads (mon s) !! i = Some (Monitor.Sleeping notFull_ (RunTask x)) ->
       exists j y s', run_events s [Step (Monitor.Lock j); Step (Monitor.Run j 0)] = Ok s' /\
         Monitor.history (mon s') = h ++ [(j, RunTask y, RRun true)])) /\
    (filter (fun i => 0 < i) numThreads = ∅ -> forall i x, Monitor.threads (mon s) !! i = Some Monitor.Idle ->
       exec s (Enter i (RunTask (Some x))) = Ok (mk (mon s) (workers s) (started s) (inline s ++ [x]))) /\
    (running_ d = false -> forall n s', nsteps move n s s' ->
       Z.of_nat n <= work s /\ ((forall s'', ~ move s' s'') -> join s' = true)).
Proof.
  intros Hes. destruct (run_events_good maxSize es (start maxSize numThreads tids)) as (s&Hrun&Hg); [apply start_good| |].
  { intros E. apply Hes. by apply start_workers in E. }
  exists s. split; [done|]. cbn zeta. pose proof (Monitor.good_data _ _ _ (good_mon _ _ Hg)) as Hd.
  split_and!; [apply Hd|apply Hd|apply Hg| | |].
  - intros Hr Hown. split; intros; [by eapply pool_takes|by eapply pool_admits].
  - intros E i x Hi. apply (start_workers maxSize _ tids) in E. apply dom_empty_iff_L in E.
    rewrite <-(run_events_workers _ _ _ Hrun) in E. apply dom_empty_iff_L in E.
    cbn [exec]. rewrite bool_decide_false by done. rewrite E, lookup_empty. unfold enter, run. rewrite Hi, E.
    by rewrite bool_decide_true.
  - intros Hr n s' Hst. destruct (stopping_terminates maxSize n s s') as (Hs'&Hle); [by apply stopping_start|done|].
    pose proof (work_nonneg s'). split; [lia|]. by apply (stopping_joins maxSize).
Qed.

(** Two producers and a worker; the queue has room for one task.  The second
    producer sleeps until the worker has taken the first task. *)
Definition full_events : list event :=
  [Enter 2 (RunTask (Some 10)); Step (Monitor.Lock 2); Step (Monitor.Run 2 0);
   Enter 3 (RunTask (Some 11)); Step (Monitor.Lock 3); Step (Monitor.Run 3 0);
   Loop 1; Step (Monitor.Lock 1); Step (Monitor.Run 1 3)].
Lemma pool_runs_and_stops_witness :
  (filter (fun i => 0 < i) ({[1]} : gset Z) = ∅ -> Forall given full_events) /\
  exists s, run_events (start 1 {[1]} {[2; 3]}) full_events = Ok s /\
    Monitor.threads (mon s) !! 3 = Some (Monitor.Entering (RunTask (Some 11))) /\
    workers s !! 1 = Some (Got (Some 10)) /\
    exists j y s', run_events s [Step (Monitor.Lock j); Step (Monitor.Run j 0)] = Ok s' /\
      Monitor.history (mon s') = Monitor.history (mon s) ++ [(j, RunTask y, RRun true)].
Proof.
  split; [done|].
  destruct (pool_runs_and_stops 1 {[1]} {[2; 3]} full_events) as (s&Hrun&_&_&_&Hwake&_); [done|].
  exists s. split; [exact Hrun|]. vm_compute in Hrun. injection Hrun as <-.
  split; [reflexivity|]. split; [reflexivity|].
  destruct Hwake as [_ Hroom]; [reflexivity|reflexivity|].
  apply (Hroom 3 (Some 11)); [reflexivity|reflexivity|by left].
Defined.

(** One worker sleeps in [take]; a task is queued and run, then the pool is
    stopped while a second task waits, which is never run. *)
Example pool_drops_queued_tasks_at_stop :
  exists s, run_events (start 0 {[1]} {[2]})
    [Loop 1; Step (Monitor.Lock 1); Step (Monitor.Run 1 0);
     Enter 2 (RunTask (Some 10)); Step (Monitor.Lock 2); Step (Monitor.Run 2 1);
     Step (Monitor.Lock 1); Step (Monitor.Run 1 0); Begin 1;
     Enter 2 (RunTask (Some 11)); Step (Monitor.Lock 2); Step (Monitor.Run 2 1);
     Enter 2 Stop; Step (Monitor.Lock 2); Step (Monitor.Run 2 1); Finish 1; Loop 1] = Ok s /\
    join s = true /\ started s = [10] /\ queue_ (Monitor.data (mon s)) = [Some 11].
Proof. eexists. split; [vm_compute; reflexivity|]. by vm_compute. Qed.
End ThreadPool.
