(* ===== verification/BaseThread.v ===== *)
(** src/muduo/base/Thread.h, Thread.cc, CurrentThread.h and Atomic.h: starting
    a thread and waiting until it has published its id.

    The state is the Thread object with its CountDownLatch, and how far the
    thread that calls [start] and [join] ([self]) and the new thread ([ctid])
    have come.  The latch is the monitor of BaseCountDownLatch, on which both
    threads act; the hand-over is proved from what the latch promises. *)

From S2P Require Import Prelude BaseMonitor BaseCountDownLatch.

Module Thread.
#[local] Existing Instances CountDownLatch.cv_eq_dec CountDownLatch.monitor.

(** * AtomicIntegerT, for a width: the new value and the result *)

Section Atomic.
Context (w : Z).
Definition get (value_ : Z) : Z * Z := (if value_ =? 0 then 0 else value_, value_).
Definition getAndAdd (x value_ : Z) : Z * Z := (swrap w (value_ + x), value_).
Definition addAndGet (x value_ : Z) : Z * Z :=
  let '(v, old) := getAndAdd x value_ in (v, swrap w (old + x)).
Definition incrementAndGet (value_ : Z) : Z * Z := addAndGet 1 value_.
Definition decrementAndGet (value_ : Z) : Z * Z := addAndGet (-1) value_.
Definition add (x value_ : Z) : Z := fst (getAndAdd x value_).
Definition increment (value_ : Z) : Z := fst (incrementAndGet value_).
Definition decrement (value_ : Z) : Z := fst (decrementAndGet value_).
Definition getAndSet (newValue value_ : Z) : Z * Z := (newValue, value_).
End Atomic.

(** * CurrentThread *)

(** The thread-local cache of the id and its text. *)
Record current := mkcurrent { t_cachedTid : Z; t_tidString : bytes; t_tidStringLength : Z; t_threadName : bytes }.
Definition new_current : current := mkcurrent 0 [] 6 (lit "unknown").
Definition cacheTid (gettid : Z) (c : current) : current :=
  if t_cachedTid c =? 0
  then let text := fmt_wd 5 gettid ++ lit " " in
       mkcurrent gettid (snprintf 32 text) (zlen text) (t_threadName c)
  else c.
Definition tid (gettid : Z) (c : current) : Z * current :=
  let c := if t_cachedTid c =? 0 then cacheTid gettid c else c in (t_cachedTid c, c).
Definition isMainThread (gettid getpid : Z) (c : current) : bool * current :=
  let '(i, c) := tid gettid c in (i =? getpid, c).
Definition afterFork (gettid : Z) (c : current) : current :=
  snd (tid gettid (mkcurrent 0 (t_tidString c) (t_tidStringLength c) (lit "main"))).
Definition set_name (n : bytes) (c : current) : current :=
  mkcurrent (t_cachedTid c) (t_tidString c) (t_tidStringLength c) n.

(** * Thread *)

Inductive caller := BeforeStart | InStart | Started | InJoin | Joined.
Inductive callee := NotCreated | Created | TidSet | Counting | Running | Finished.

Record t := mk {
  started_ : bool;
  joined_ : bool;
  tid_ : Z;
  name_ : bytes;
  latch_ : CountDownLatch.latch;
  parent : caller;
  child : callee;
  local : current;        (* the thread-local variables of the new thread *)
  runs : Z                (* how often [func_] was called *)
}.
Definition set_parent p s := mk (started_ s) (joined_ s) (tid_ s) (name_ s) (latch_ s) p (child s) (local s) (runs s).
Definition set_child c s := mk (started_ s) (joined_ s) (tid_ s) (name_ s) (latch_ s) (parent s) c (local s) (runs s).
Definition set_latch l s := mk (started_ s) (joined_ s) (tid_ s) (name_ s) l (parent s) (child s) (local s) (runs s).
Definition set_local l s := mk (started_ s) (joined_ s) (tid_ s) (name_ s) (latch_ s) (parent s) (child s) l (runs s).

Definition setDefaultName (numCreated_ : Z) (name : bytes) : Z * bytes :=
  let '(numCreated_, num) := incrementAndGet 32 numCreated_ in
  (numCreated_, match name with [] => snprintf 32 (lit "Thread" ++ fmt_d num) | _ => name end).

Section Threads.
Context (self ctid : Z).

(** The constructor; the class's counter goes along. *)
Definition new_ (numCreated_ : Z) (n : bytes) : Z * t :=
  let '(numCreated_, name) := setDefaultName numCreated_ n in
  (numCreated_, mk false false 0 name (CountDownLatch.new_ 1 {[self; ctid]}) BeforeStart NotCreated new_current 0).

(** [start] up to the wait for the latch; [created] is the result of
    pthread_create. *)
Definition start (created : bool) (s : t) : outcome t :=
  massert (negb (started_ s)) "!started_";;
  if created
  then l ← Monitor.exec (latch_ s) (Monitor.Call self CountDownLatch.Wait);
       Ok (mk true (joined_ s) (tid_ s) (name_ s) l InStart Created (local s) (runs s))
  else Err (LogFatal "Failed in pthread_create").
(** ... and after it. *)
Definition start_returns (s : t) : outcome t :=
  massert (0 <? tid_ s) "tid_ > 0";; Ok (set_parent Started s).

Definition join (s : t) : outcome t :=
  massert (started_ s) "started_";;
  massert (negb (joined_ s)) "!joined_";;
  Ok (mk (started_ s) true (tid_ s) (name_ s) (latch_ s) InJoin (child s) (local s) (runs s)).

(** Whether the destructor detaches the thread. *)
Definition detaches (s : t) : bool := started_ s && negb (joined_ s).

(** [ThreadData::runInThread], in the steps other threads can see. *)
Definition publish_tid (s : t) : t :=
  let '(i, c) := tid ctid (local s) in
  mk (started_ s) (joined_ s) i (name_ s) (latch_ s) (parent s) TidSet c (runs s).
Definition count_down (s : t) : outcome t :=
  l ← Monitor.exec (latch_ s) (Monitor.Call ctid CountDownLatch.CountDown);
  Ok (set_child Counting (set_latch l s)).
Definition call_func (s : t) : t :=
  let n := match name_ s with [] => lit "muduoThread" | n => n end in
  let s := set_local (set_name n (local s)) (set_child Running s) in
  mk (started_ s) (joined_ s) (tid_ s) (name_ s) (latch_ s) (parent s) (child s) (local s) (runs s + 1).
Definition func_returns (s : t) : t :=
  set_local (set_name (lit "finished") (local s)) (set_child Finished s).

Inductive event :=
| Start (created : bool)
| Latch (e : Monitor.event CountDownLatch.op)
| StartReturns | Join | JoinReturns
| PublishTid | CountDown | CallFunc | FuncReturns.

(** A step that is not possible changes nothing; [start] and [join] may be
    called at any time the caller is not inside them. *)
Definition exec (s : t) (e : event) : outcome t :=
  match e, parent s, child s with
  | Start created, (BeforeStart | Started | Joined), _ => start created s
  | Latch e, _, _ => if Monitor.internal e then l ← Monitor.exec (latch_ s) e; Ok (set_latch l s) else Ok s
  | StartReturns, InStart, _ =>
      match Monitor.threads (latch_ s) !! self with Some Monitor.Idle => start_returns s | _ => Ok s end
  | Join, (BeforeStart | Started | Joined), _ => join s
  | JoinReturns, InJoin, Finished => Ok (set_parent Joined s)
  | PublishTid, _, Created => Ok (publish_tid s)
  | CountDown, _, TidSet => count_down s
  | CallFunc, _, Counting =>
      match Monitor.threads (latch_ s) !! ctid with Some Monitor.Idle => Ok (call_func s) | _ => Ok s end
  | FuncReturns, _, Running => Ok (func_returns s)
  | _, _, _ => Ok s
  end.
Definition run (s : t) (es : list event) : outcome t := foldM exec s es.

(** * Invariant *)

(** Calls the class is made for: [start] once, [join] once after it. *)
Definition event_legal (s : t) (e : event) : Prop :=
  match e with
  | Start created => parent s = BeforeStart /\ created = true
  | Join => parent s = Started
  | _ => True
  end.
Fixpoint legal (s : t) (es : list event) : Prop :=
  match es with
  | [] => True
  | e :: es' => event_legal s e /\ forall s', exec s e = Ok s' -> legal s' es'
  end.

Definition in_call (o : CountDownLatch.op) (th : Monitor.thread CountDownLatch.op CountDownLatch.cv) : bool :=
  match th with
  | Monitor.Entering o' | Monitor.Inside o' | Monitor.Sleeping _ o' =>
      match o, o' with CountDownLatch.Wait, CountDownLatch.Wait | CountDownLatch.CountDown, CountDownLatch.CountDown => true | _, _ => false end
  | Monitor.Idle => false
  end.
(** What the two threads are doing with the latch. *)
Definition place_ok (s : t) (i : Z) (th : Monitor.thread CountDownLatch.op CountDownLatch.cv) : Prop :=
  th = Monitor.Idle \/ i = self /\ parent s = InStart /\ in_call CountDownLatch.Wait th = true \/
  i = ctid /\ child s = Counting /\ in_call CountDownLatch.CountDown th = true.
Definition published (c : callee) : bool := match c with NotCreated | Created => false | _ => true end.
Definition counted (c : callee) : bool := match c with Counting | Running | Finished => true | _ => false end.
Definition waited (h : list (Z * CountDownLatch.op * CountDownLatch.result)) : Prop :=
  exists h1 i r h2, h = h1 ++ (i, CountDownLatch.Wait, r) :: h2.

Definition parent_ok (s : t) : Prop :=
  match parent s with
    | BeforeStart => started_ s = false /\ joined_ s = false /\ child s = NotCreated
    | InStart => started_ s = true /\ joined_ s = false
    | Started => started_ s = true /\ joined_ s = false /\ published (child s) = true
    | InJoin => published (child s) = true
    | Joined => child s = Finished
    end.
Definition runs_ok (s : t) : Prop := runs s = match child s with Running | Finished => 1 | _ => 0 end.

Record inv (s : t) : Prop := {
  inv_latch : Monitor.good (CountDownLatch.latch_inv 1) CountDownLatch.need (latch_ s);
  inv_place : forall i th, Monitor.threads (latch_ s) !! i = Some th -> place_ok s i th;
  inv_tids : is_Some (Monitor.threads (latch_ s) !! self) /\ is_Some (Monitor.threads (latch_ s) !! ctid);
  inv_downs : 0 < CountDownLatch.downs (Monitor.history (latch_ s)) -> counted (child s) = true;
  inv_waited : parent s = InStart -> Monitor.threads (latch_ s) !! self = Some Monitor.Idle ->
    waited (Monitor.history (latch_ s));
  inv_tid : tid_ s = (if published (child s) then ctid else 0);
  inv_local : t_cachedTid (local s) = (if published (child s) then ctid else 0);
  inv_parent : parent_ok s;
  inv_runs : runs_ok s
}.

Context (Hne : self <> ctid) (Hpos_self : 0 < self) (Hpos_ctid : 0 < ctid).

Lemma waited_downs s : inv s -> waited (Monitor.history (latch_ s)) -> 0 < CountDownLatch.downs (Monitor.history (latch_ s)).
Proof.
  intros Hi (h1&i&r&h2&E). destruct (Monitor.good_data _ _ _ (inv_latch _ Hi)) as [_ Hw].
  specialize (Hw _ _ _ _ E). rewrite E, CountDownLatch.downs_app.
  pose proof (CountDownLatch.downs_nonneg h1). pose proof (CountDownLatch.downs_nonneg ((i, CountDownLatch.Wait, r) :: h2)).
  destruct (Z_le_gt_dec (CountDownLatch.downs h1) 0); [|lia].
  replace (CountDownLatch.downs h1) with 0 in Hw by lia. vm_compute in Hw. done.
Qed.

Lemma thread_place_woken s ths ths' i th' :
  Monitor.woken ths ths' -> (forall th, ths !! i = Some th -> place_ok s i th) -> ths' !! i = Some th' -> place_ok s i th'.
Proof.
  intros Hw Hp Hi. destruct (Hw i) as [E|(c&o&E&E')]; [apply Hp; congruence|].
  specialize (Hp _ E). rewrite Hi in E'. injection E' as ->. by destruct Hp as [|[|]]; [|right; left|right; right].
Qed.

(** The latch moves, the rest of the object stays. *)
Lemma latch_change s l i th th' e :
  inv s -> Monitor.good (CountDownLatch.latch_inv 1) CountDownLatch.need l ->
  Monitor.threads (latch_ s) !! i = Some th -> Monitor.woken (<[i := th']> (Monitor.threads (latch_ s))) (Monitor.threads l) ->
  place_ok s i th' -> Monitor.history l = Monitor.history (latch_ s) ++ e ->
  (0 < CountDownLatch.downs e -> counted (child s) = true) ->
  (th' = Monitor.Idle -> i = self -> waited (Monitor.history l)) ->
  inv (set_latch l s).
Proof.
  intros Hinv Hg Hi Hw Hp Hh Hd Hwt. pose proof Hinv as [_ Hpl Hself Hdn Hwd Ht Hlo Hpar Hr]. split; cbn; try done.
  - intros j thj Hj. eapply (thread_place_woken s) in Hj; [done|done|]. intros th0 Hth0.
    destruct (decide (i = j)) as [<-|]; [rewrite lookup_insert_eq in Hth0; congruence|].
    rewrite lookup_insert_ne in Hth0 by done. by apply Hpl.
  - destruct Hself as [Hs1 Hs2]. split; apply (Monitor.woken_tids _ _ _ Hw).
    + destruct (decide (i = self)) as [->|]; [by rewrite lookup_insert_eq|by rewrite lookup_insert_ne].
    + destruct (decide (i = ctid)) as [->|]; [by rewrite lookup_insert_eq|by rewrite lookup_insert_ne].
  - rewrite Hh, CountDownLatch.downs_app. intros Hpos.
    destruct (Z_lt_le_dec 0 (CountDownLatch.downs e)); [by apply Hd|apply Hdn; lia].
  - intros Hs Hself'. destruct (Hw self) as [E|(?&?&_&E)]; [|congruence]. rewrite Hself' in E.
    destruct (decide (i = self)) as [->|].
    + rewrite lookup_insert_eq in E. injection E as <-. by apply Hwt.
    + rewrite lookup_insert_ne in E by done. destruct (Hwd Hs (eq_sym E)) as (h1&j&r&h2&E2).
      exists h1, j, r, (h2 ++ e). rewrite Hh, E2, <-app_assoc. done.
Qed.

Lemma latch_step s e l :
  inv s -> Monitor.internal e = true -> Monitor.exec (latch_ s) e = Ok l -> inv (set_latch l s).
Proof.
  intros Hinv He Hex.
  destruct (Monitor.good_exec _ _ (CountDownLatch.latch_spec 1) (latch_ s) e (inv_latch _ Hinv)) as (l'&Hex'&Hg&Hst).
  rewrite Hex in Hex'. injection Hex' as <-. destruct Hst as [->|Hst]; [by destruct s|].
  destruct Hst as [|i o Hi Hown|i o c pick Hi Ht Hw|i o d r sigs pick Hi Hlv Hr|i o c Hi]; [done|..];
    pose proof (inv_place _ Hinv _ _ Hi) as Hp.
  - eapply latch_change with (e := []); [done|done|done|apply Monitor.woken_refl| |by rewrite app_nil_r|done|done].
    by destruct Hp as [|[|]]; [|right; left|right; right].
  - eapply latch_change with (e := []); [done|done|done|apply Monitor.woken_refl| |by rewrite app_nil_r|done|done].
    by destruct Hp as [|[|]]; [|right; left|right; right].
  - eapply latch_change with (e := [(i, o, r)]); [done|done|done| |by left|done| |].
    + apply Monitor.raises_woken, Monitor.insert_sleep_ok; [apply (inv_latch _ Hinv)|done].
    + destruct Hp as [|[(_&_&Hc)|(_&Hc&_)]]; [done| |by rewrite Hc]. by destruct o.
    + intros _ ->. destruct Hp as [|[(_&_&Hc)|(Hsc&Hc&Ho)]]; [done|..].
      * destruct o; try done. by exists (Monitor.history (latch_ s)), self, r, [].
      * congruence.
  - eapply latch_change with (e := []); [done|done|done|apply Monitor.woken_refl| |by rewrite app_nil_r|done|done].
    by destruct Hp as [|[|]]; [|right; left|right; right].
Qed.

Lemma thread_new_inv num n : inv (snd (new_ num n)).
Proof.
  unfold new_, setDefaultName, incrementAndGet, addAndGet, getAndAdd. cbn.
  assert (Monitor.good (CountDownLatch.latch_inv 1) CountDownLatch.need (CountDownLatch.new_ 1 {[self; ctid]})) as Hg.
  { apply Monitor.good_init. split; [done|]. by intros [|??] i r h2. }
  split; cbn; try done.
  - intros i th Hi. apply lookup_gset_to_gmap_Some in Hi as [_ <-]. by left.
  - split; exists Monitor.Idle; apply lookup_gset_to_gmap_Some; set_solver.
Qed.

(** A call of one of the two threads on the latch. *)
Lemma latch_call s i o l s' :
  inv s -> Monitor.threads (latch_ s) !! i = Some Monitor.Idle -> Monitor.exec (latch_ s) (Monitor.Call i o) = Ok l ->
  (forall j th, Monitor.threads (latch_ s) !! j = Some th -> th = Monitor.Idle \/ place_ok s' j th) ->
  place_ok s' i (Monitor.Entering o) ->
  latch_ s' = l -> tid_ s' = tid_ s -> local s' = local s -> counted (child s) = false -> published (child s') = published (child s) ->
  (parent s' = InStart -> i = self \/ parent s = InStart) ->
  parent_ok s' -> runs_ok s' -> inv s'.
Proof.
  intros Hinv Hi Hex Hpl Hp El Et Elo Hcnt Hpub Hpar Hm Hr.
  destruct (Monitor.good_exec _ _ (CountDownLatch.latch_spec 1) (latch_ s) (Monitor.Call i o) (inv_latch _ Hinv)) as (l'&Hex'&Hg&_).
  rewrite Hex in Hex'. injection Hex' as <-. cbn in Hex. rewrite Hi in Hex. injection Hex as <-.
  split; rewrite ?El; [done| | | | | | |done|done]; cbn.
  - intros j th Hj. destruct (decide (i = j)) as [<-|].
    + rewrite lookup_insert_eq in Hj. by injection Hj as <-.
    + rewrite lookup_insert_ne in Hj by done. destruct (Hpl _ _ Hj) as [->|?]; [by left|done].
  - destruct (inv_tids _ Hinv) as [Hs1 Hs2]. split.
    + destruct (decide (i = self)) as [->|]; [by rewrite lookup_insert_eq|by rewrite lookup_insert_ne].
    + destruct (decide (i = ctid)) as [->|]; [by rewrite lookup_insert_eq|by rewrite lookup_insert_ne].
  - intros Hd. apply (inv_downs _ Hinv) in Hd. congruence.
  - intros Hs Hself. destruct (decide (i = self)) as [->|]; [by rewrite lookup_insert_eq in Hself|].
    rewrite lookup_insert_ne in Hself by done. destruct (Hpar Hs) as [|Hs']; [done|]. by apply (inv_waited _ Hinv).
  - rewrite Et, Hpub. apply Hinv.
  - rewrite Elo, Hpub. apply Hinv.
Qed.

(** The events of the new thread. *)
Definition of_child (e : event) : bool :=
  match e with PublishTid | CountDown | CallFunc | FuncReturns => true | _ => false end.
Lemma thread_exec_child_ok s e : inv s -> of_child e = true -> exists s', exec s e = Ok s' /\ inv s'.
Proof.
  intros Hinv Hl. pose proof Hinv as [Hg Hpl [Hself Hctid] Hdn Hwd Ht Hlo Hpar Hr]. unfold parent_ok, runs_ok in Hpar, Hr.
  assert (exists s', Ok s = Ok s' /\ inv s') as Hsame by eauto.
  destruct e; try done; cbn [exec].
  - destruct (child s) eqn:Ec; try (by destruct (parent s)).
    exists (publish_tid s). split; [by destruct (parent s)|]. unfold publish_tid, tid. rewrite Hlo. cbn.
    unfold cacheTid. rewrite Hlo. cbn.
    split; cbn; try done.
    + intros i th Hi. destruct (Hpl _ _ Hi) as [|[|(_&?&_)]]; [by left|by right; left|congruence].
    + unfold parent_ok. cbn. destruct (parent s); naive_solver.
  - destruct (child s) eqn:Ec; try (by destruct (parent s)).
    enough (exists s', count_down s = Ok s' /\ inv s') by (by destruct (parent s)). unfold count_down. destruct Hctid as (th&Hth).
    assert (th = Monitor.Idle) as -> by (destruct (Hpl _ _ Hth) as [|[(?&_)|(_&?&_)]]; congruence).
    destruct (Monitor.good_exec _ _ (CountDownLatch.latch_spec 1) (latch_ s) (Monitor.Call ctid CountDownLatch.CountDown) Hg) as (l&Hexl&_).
    rewrite Hexl. cbn. eexists. split; [done|].
    eapply (latch_call s ctid); try done; cbn; rewrite ?Ec; try done.
    + intros j th Hj'. destruct (Hpl _ _ Hj') as [|[|(_&?&_)]]; [by left|right; by right; left|congruence].
    + right; right. done.
    + by right.
    + unfold parent_ok. cbn. destruct (parent s); naive_solver.
  - destruct (child s) eqn:Ec; try (by destruct (parent s)).
    destruct (Monitor.threads (latch_ s) !! ctid) as [[]|] eqn:Eth; try (by destruct (parent s)).
    exists (call_func s). split; [by destruct (parent s)|]. split; cbn; try done.
    + intros i th Hi. destruct (Hpl _ _ Hi) as [|[|(->&_&Hin)]]; [by left|by right; left|].
      rewrite Eth in Hi. by injection Hi as <-.
    + unfold parent_ok. cbn. destruct (parent s); naive_solver.
    + unfold runs_ok. cbn. rewrite Hr. lia.
  - destruct (child s) eqn:Ec; try (by destruct (parent s)).
    exists (func_returns s). split; [by destruct (parent s)|]. split; cbn; try done.
    + intros i th Hi. destruct (Hpl _ _ Hi) as [|[|(_&?&_)]]; [by left|by right; left|congruence].
    + unfold parent_ok. cbn. destruct (parent s); naive_solver.
Qed.

Lemma thread_exec_ok s e : inv s -> event_legal s e -> exists s', exec s e = Ok s' /\ inv s'.
Proof.
  intros Hinv Hl. pose proof Hinv as [Hg Hpl [Hself Hctid] Hdn Hwd Ht Hlo Hpar Hr]. unfold parent_ok, runs_ok in Hpar, Hr.
  assert (exists s', Ok s = Ok s' /\ inv s') as Hsame by eauto.
  destruct (of_child e) eqn:Eof; [by apply thread_exec_child_ok|].
  destruct e as [created|e| | | | | | |]; try done; cbn [exec].
  - destruct Hl as [Hp ->]. rewrite Hp in *. destruct Hpar as (Hs&Hj&Hc). unfold start. rewrite Hs.
    destruct Hself as (th&Hth). assert (th = Monitor.Idle) as ->.
    { destruct (Hpl _ _ Hth) as [|[(_&?&_)|(?&?&_)]]; congruence. }
    destruct (Monitor.good_exec _ _ (CountDownLatch.latch_spec 1) (latch_ s) (Monitor.Call self CountDownLatch.Wait) Hg) as (l&Hex&_).
    rewrite Hex. cbn [massert negb mbind outcome_bind]. eexists. split; [done|].
    eapply (latch_call s self); try done; cbn; rewrite ?Hc; try done.
    + intros j th Hj'. left. destruct (Hpl _ _ Hj') as [|[(_&?&_)|(_&?&_)]]; congruence.
    + right; left. done.
    + by left.
    + unfold runs_ok. cbn. by rewrite Hr, Hc.
  - destruct (Monitor.internal e) eqn:He; [|done].
    destruct (Monitor.good_exec _ _ (CountDownLatch.latch_spec 1) (latch_ s) e Hg) as (l&Hex&_).
    rewrite Hex. cbn. eexists. split; [done|]. by eapply latch_step.
  - destruct (parent s) eqn:Ep; try done. destruct (Monitor.threads (latch_ s) !! self) as [[]|] eqn:Eth; try done.
    assert (counted (child s) = true) as Hc by (apply Hdn, waited_downs; auto).
    assert (published (child s) = true) as Hpub by by destruct (child s).
    unfold start_returns. rewrite Ht, Hpub. destruct (Z.ltb_spec 0 ctid); [|lia]. cbn. eexists. split; [done|].
    split; cbn; try done; [|unfold parent_ok; cbn; naive_solver].
    intros i th Hi. destruct (Hpl _ _ Hi) as [|[(->&_&Hin)|]]; [by left| |by right; right].
    rewrite Eth in Hi. by injection Hi as <-.
  - cbn in Hl. rewrite Hl in *. destruct Hpar as (Hs&Hj&Hpub). unfold join. rewrite Hs, Hj. cbn. eexists. split; [done|].
    split; cbn; try done. intros i th Hi. destruct (Hpl _ _ Hi) as [|[(_&?&_)|]]; [by left|congruence|by right; right].
  - destruct (parent s) eqn:Ep; try done. destruct (child s) eqn:Ec; try done. eexists. split; [done|].
    split; cbn; rewrite ?Ec; try done; [|unfold runs_ok; cbn; by rewrite Ec].
    intros i th Hi. destruct (Hpl _ _ Hi) as [|[(_&?&_)|(_&?&_)]]; [by left|congruence|congruence].
Qed.

Lemma thread_run_ok es s : inv s -> legal s es -> exists s', run s es = Ok s' /\ inv s'.
Proof.
  revert s. induction es as [|e es IH]; intros s Hinv Hl; cbn; [eauto|]. destruct Hl as [He Hl].
  destruct (thread_exec_ok s e Hinv He) as (s1&Hex&H1). rewrite Hex. cbn. auto.
Qed.
End Threads.

(** * Properties *)

(** [Thread::start] returns after the new thread has published its id.
    Under any interleaving of the two threads, with [start] and [join] called
    as intended: no assertion fails; when [start] has returned, [tid_] is the
    id of the new thread; [func_] is called at most once, and has returned when
    [join] returns. *)
Theorem thread_start_publishes_tid (self ctid num : Z) (name : bytes) (es : list event) :
  self <> ctid -> 0 < self -> 0 < ctid -> legal self ctid (snd (new_ self ctid num name)) es ->
  exists s, run self ctid (snd (new_ self ctid num name)) es = Ok s /\
    (parent s = Started \/ parent s = InJoin \/ parent s = Joined -> tid_ s = ctid) /\
    runs s <= 1 /\ (parent s = Joined -> child s = Finished /\ runs s = 1).
Proof.
  intros Hne H1 H2 Hl. destruct (thread_run_ok self ctid Hne H2 es _ (thread_new_inv self ctid Hne H1 H2 num name) Hl) as (s&Hrun&Hi).
  exists s. split; [done|]. destruct Hi as [_ _ _ _ _ Ht _ Hp Hr]. unfold parent_ok, runs_ok in *. split_and!.
  - intros [E|[E|E]]; rewrite E in Hp; rewrite Ht; [by destruct Hp as (_&_&->)|by rewrite Hp|by rewrite Hp].
  - rewrite Hr. by destruct (child s).
  - intros E. rewrite E in Hp. by rewrite Hr, Hp.
Qed.

(** A complete run: the parent sleeps on the latch until the child, whose id
    is 2, has counted it down. *)
Definition witness_events : list event :=
  [Start true; Latch (Monitor.Lock 1); Latch (Monitor.Run 1 0); PublishTid; CountDown; Latch (Monitor.Lock 2);
   Latch (Monitor.Run 2 0); Latch (Monitor.Lock 1); Latch (Monitor.Run 1 0); StartReturns; CallFunc; Join;
   FuncReturns; JoinReturns].
Lemma witness_legal : legal 1 2 (snd (new_ 1 2 0 [])) witness_events.
Proof.
  unfold witness_events.
  repeat (split; [first [exact I|reflexivity|by split]|]; intros ? E; vm_compute in E; injection E as <-). exact I.
Qed.
Lemma thread_start_publishes_tid_witness :
  exists s, run 1 2 (snd (new_ 1 2 0 [])) witness_events = Ok s /\ parent s = Joined /\ tid_ s = 2 /\
    name_ s = lit "Thread1" /\ runs s = 1.
Proof.
  destruct (thread_start_publishes_tid 1 2 0 [] witness_events) as (s&Hrun&Ht&_&Hj); [lia|lia|lia|exact witness_legal|].
  exists s. split; [exact Hrun|].
  assert (parent s = Joined /\ name_ s = lit "Thread1") as [Hp Hn]
    by (vm_compute in Hrun; injection Hrun as <-; split; reflexivity).
  split; [exact Hp|]. split; [apply Ht; right; right; exact Hp|]. split; [exact Hn|]. apply (Hj Hp).
Defined.
End Thread.
