(* ===== verification/NetEventLoopThread.v ===== *)
(** src/muduo/net/EventLoopThread.h and EventLoopThread.cc: a thread that runs a
    loop on its stack and hands the loop's address to the thread that started
    it.

    [loop_] with its mutex and condition is a monitor (BaseMonitor), with two
    clients: the caller [self] of [startLoop], and the new thread [io], whose
    EventLoop has the address [addr].  The pointer is 0 for NULL.  [claimed] is
    a ghost: [startLoop] has returned.  Starting the thread is one step here;
    BaseThread has its details. *)

From S2P Require Import Prelude BaseMonitor.

Module EventLoopThread.

Inductive cv := cond_.
#[export] Instance cv_eq_dec : EqDecision cv.
Proof. solve_decision. Defined.

Record data := mkdata { loop_ : Z; claimed : bool }.
Inductive op := GetLoop | SetLoop | ClearLoop.
Inductive result := RLoop (loop : Z) | RVoid.

(** The locked part of [startLoop]. *)
Definition get_loop : Monitor.operation data result cv :=
  Monitor.mkop (Some cond_) (fun _ d => Ok (loop_ d =? 0)) (fun _ d => Ok (mkdata (loop_ d) true, RLoop (loop_ d), [])).
(** The two locked parts of [threadFunc]. *)
Definition set_loop (loop : Z) : Monitor.operation data result cv :=
  Monitor.no_wait (fun _ d => Ok (mkdata loop (claimed d), RVoid, [Monitor.Notify cond_])).
Definition clear_loop : Monitor.operation data result cv :=
  Monitor.no_wait (fun _ d => Ok (mkdata 0 (claimed d), RVoid, [])).

(** Where the new thread is in [threadFunc]. *)
Inductive place := NotStarted | InCallback | Publishing | Looping | Clearing | Done.

Record t := mk { mon : Monitor.t data op result cv; started : bool; thread_ : place; exiting_ : bool }.

Section Threads.
Context (self io addr : Z).

#[local] Instance monitor : Monitor.Monitor data op result cv := fun o =>
  match o with GetLoop => get_loop | SetLoop => set_loop addr | ClearLoop => clear_loop end.

Definition new_ : t := mk (Monitor.init (mkdata 0 false) {[self; io]}) false NotStarted false.

(** [startLoop]: the thread is started and the caller waits. *)
Definition startLoop (s : t) : outcome t :=
  massert (negb (started s)) "!thread_.started()";;
  m ← Monitor.exec (mon s) (Monitor.Call self GetLoop);
  Ok (mk m true InCallback (exiting_ s)).

(** [threadFunc] after the callback, and after [loop.loop()]. *)
Definition publish (s : t) : outcome t :=
  m ← Monitor.exec (mon s) (Monitor.Call io SetLoop);
  Ok (mk m (started s) Publishing (exiting_ s)).
Definition clear (s : t) : outcome t :=
  m ← Monitor.exec (mon s) (Monitor.Call io ClearLoop);
  Ok (mk m (started s) Clearing (exiting_ s)).

(** The destructor: the new state, and whether it calls [quit] on the loop and
    joins the thread. *)
Definition destroy (s : t) : t * bool :=
  (mk (mon s) (started s) (thread_ s) true, negb (loop_ (Monitor.data (mon s)) =? 0)).

Inductive event := StartLoop | Step (e : Monitor.event op) | CallbackReturns | LoopReturns | Enter | Destroy.

Definition io_idle (s : t) : bool :=
  match Monitor.threads (mon s) !! io with Some Monitor.Idle => true | _ => false end.

(** [Enter] is the new thread leaving one of its locked parts. *)
Definition exec (s : t) (e : event) : outcome t :=
  match e, thread_ s with
  | StartLoop, _ => startLoop s
  | Step e, _ => if Monitor.internal e then m ← Monitor.exec (mon s) e; Ok (mk m (started s) (thread_ s) (exiting_ s)) else Ok s
  | CallbackReturns, InCallback => publish s
  | Enter, Publishing => Ok (if io_idle s then mk (mon s) (started s) Looping (exiting_ s) else s)
  | LoopReturns, Looping => clear s
  | Enter, Clearing => Ok (if io_idle s then mk (mon s) (started s) Done (exiting_ s) else s)
  | Destroy, _ => Ok (fst (destroy s))
  | _, _ => Ok s
  end.
Definition run (s : t) (es : list event) : outcome t := foldM exec s es.

(** * Specification *)

Definition loop_inv (d : data) (h : list (Z * op * result)) : Prop :=
  (loop_ d = 0 \/ loop_ d = addr) /\
  (claimed d = true <-> exists i r, (i, GetLoop, r) ∈ h) /\
  Forall (fun e : Z * op * result => match e with
    | (_, GetLoop, r) => r = RLoop addr | _ => True end) h.
Definition need (c : cv) (d : data) : option Z :=
  Some (if negb (loop_ d =? 0) && negb (claimed d) then 1 else 0).


Lemma claimed_app d (h : list (Z * op * result)) i o r :
  (claimed d = true <-> exists i r, (i, GetLoop, r) ∈ h) -> o <> GetLoop ->
  claimed d = true <-> exists j r', (j, GetLoop, r') ∈ h ++ [(i, o, r)].
Proof.
  intros Hc Ho. rewrite Hc. split; intros (j&r'&Hj); exists j, r'.
  - apply elem_of_app. by left.
  - apply elem_of_app in Hj as [?|Hj]; [done|]. apply list_elem_of_singleton in Hj. congruence.
Qed.

Lemma loop_spec : Monitor.monitor_spec loop_inv need.
Proof.
  split.
  - intros d h [] _; done.
  - intros d h [] c _ Ht _; try done. injection Ht as Ht. unfold need. rewrite Ht. by exists 0.
  - intros d h o (Hl&Hc&Hh) Hlv. destruct o.
    + assert (loop_ d = addr) as E.
      { destruct Hlv as [[= Ht]|]; [|done]. apply Z.eqb_neq in Ht. by destruct Hl. }
      do 3 eexists. split; [done|]. split.
      * intros i. split; [done|]. split.
        -- split; [|done]. intros _. exists i, (RLoop (loop_ d)). apply elem_of_app. right. by apply list_elem_of_singleton.
        -- apply Forall_app. split; [done|]. apply Forall_singleton. by rewrite E.
      * intros c. right; right. unfold need. cbn. rewrite andb_false_r. do 2 eexists. split; [done|]. split; [done|]. by left.
    + do 3 eexists. split; [done|]. split.
      * intros i. split; [by right|]. split; [by apply (claimed_app d)|]. apply Forall_app. split; [done|]. by apply Forall_singleton.
      * intros c. right; right. unfold need. do 2 eexists. split; [done|]. split; [done|]. right. destruct c.
        destruct (negb (loop_ d =? 0) && _), (negb (loop_ _ =? 0) && _); Monitor.need_lia.
    + do 3 eexists. split; [done|]. split.
      * intros i. split; [by left|]. split; [by apply (claimed_app d)|]. apply Forall_app. split; [done|]. by apply Forall_singleton.
      * intros c. right; right. unfold need. do 2 eexists. split; [done|]. split; [done|]. by left.
Qed.

(** * Invariant *)

Definition legal (s : t) (e : event) : Prop := match e with StartLoop => started s = false | _ => True end.
Fixpoint legal_run (s : t) (es : list event) : Prop :=
  match es with [] => True | e :: es' => legal s e /\ forall s', exec s e = Ok s' -> legal_run s' es' end.

Definition in_get (th : Monitor.thread op cv) : bool :=
  match th with Monitor.Entering GetLoop | Monitor.Inside GetLoop | Monitor.Sleeping _ GetLoop => true | _ => false end.
Definition place_ok (s : t) (i : Z) (th : Monitor.thread op cv) : Prop :=
  (i = self -> th = Monitor.Idle /\ (started s = true -> claimed (Monitor.data (mon s)) = true) \/
     started s = true /\ in_get th = true) /\
  (i <> self -> in_get th = false) /\
  (i = io -> thread_ s = Publishing \/ thread_ s = Clearing \/ th = Monitor.Idle).

Record inv (s : t) : Prop := {
  inv_mon : Monitor.good loop_inv need (mon s);
  inv_place : forall i th, Monitor.threads (mon s) !! i = Some th -> place_ok s i th;
  inv_tids : is_Some (Monitor.threads (mon s) !! self) /\ is_Some (Monitor.threads (mon s) !! io);
  inv_started : started s = false -> thread_ s = NotStarted
}.

Context (Hne : self <> io) (Hself : 0 < self) (Hio : 0 < io).

Lemma loop_place_woken s ths ths' i th' :
  Monitor.woken ths ths' -> (forall th, ths !! i = Some th -> place_ok s i th) -> ths' !! i = Some th' -> place_ok s i th'.
Proof.
  intros Hw Hp Hi. destruct (Hw i) as [E|(c&o&E&E')]; [apply Hp; congruence|].
  specialize (Hp _ E). rewrite Hi in E'. injection E' as ->. destruct Hp as (H1&H2&H3). split_and!.
  - intros Es. destruct (H1 Es) as [[? _]|[? ?]]; [done|by right].
  - intros Es. by apply H2.
  - intros Es. destruct (H3 Es) as [?|[?|?]]; [by left|by right; left|done].
Qed.

(** One thread moves in the monitor. *)
Lemma mon_change s s' i th th' :
  inv s -> Monitor.good loop_inv need (mon s') -> (started s' = false -> thread_ s' = NotStarted) ->
  Monitor.threads (mon s) !! i = Some th ->
  Monitor.woken (<[i := th']> (Monitor.threads (mon s))) (Monitor.threads (mon s')) ->
  (forall j thj, j <> i -> place_ok s j thj -> place_ok s' j thj) -> place_ok s' i th' -> inv s'.
Proof.
  intros Hinv Hg Hst Hi Hw Hoth Hp. split; [done| | |done].
  - intros j thj Hj. eapply loop_place_woken; [exact Hw| |exact Hj]. intros th0 Hth0.
    destruct (decide (i = j)) as [<-|]; [rewrite lookup_insert_eq in Hth0; by injection Hth0 as <-|].
    rewrite lookup_insert_ne in Hth0 by done. apply Hoth; [done|]. by apply Hinv.
  - destruct (inv_tids _ Hinv) as [H1 H2]. split; apply (Monitor.woken_tids _ _ _ Hw).
    + destruct (decide (i = self)) as [->|]; [by rewrite lookup_insert_eq|by rewrite lookup_insert_ne].
    + destruct (decide (i = io)) as [->|]; [by rewrite lookup_insert_eq|by rewrite lookup_insert_ne].
Qed.

Lemma mon_step s e m :
  inv s -> Monitor.internal e = true -> Monitor.exec (mon s) e = Ok m -> inv (mk m (started s) (thread_ s) (exiting_ s)).
Proof.
  intros Hinv He Hex.
  destruct (Monitor.good_exec _ _ loop_spec (mon s) e (inv_mon _ Hinv)) as (m'&Hex'&Hg&Hst).
  rewrite Hex in Hex'. injection Hex' as <-. destruct Hst as [->|Hst]; [by destruct s|].
  destruct Hst as [|i o Hi Hown|i o c pick Hi Ht Hw|i o d r sigs pick Hi Hlv Hr|i o c Hi]; [done|..];
    pose proof (inv_place _ Hinv _ _ Hi) as (P1&P2&P3).
  - eapply mon_change; [done|done|apply Hinv|done|apply Monitor.woken_refl|done|].
    split_and!; [intros E; right; by destruct (P1 E) as [[? _]|]|done|intros E; by destruct (P3 E) as [?|[?|?]]; auto].
  - eapply mon_change; [done|done|apply Hinv|done|apply Monitor.woken_refl|done|].
    split_and!; [intros E; right; by destruct (P1 E) as [[? _]|]|done|intros E; by destruct (P3 E) as [?|[?|?]]; auto].
  - assert (claimed (Monitor.data (mon s)) = true -> claimed d = true) as Hcl.
    { destruct o; cbn in Hr; injection Hr as <- <- <-; done. }
    eapply mon_change; [done|done|apply Hinv|done| | |].
    + apply Monitor.raises_woken, Monitor.insert_sleep_ok; [apply (inv_mon _ Hinv)|done].
    + intros j thj Hj (Q1&Q2&Q3). split_and!; [|done|done]. intros E. destruct (Q1 E) as [[? Q]|?]; [left|by right].
      split; [done|]. cbn. auto.
    + split_and!; [|done|by right; right]. intros E. left. split; [done|]. cbn. intros Hs.
      destruct (P1 E) as [[? _]|[_ Hget]]; [done|]. destruct o; try done. cbn in Hr. by injection Hr as <- <- <-.
  - eapply mon_change; [done|done|apply Hinv|done|apply Monitor.woken_refl|done|].
    split_and!; [intros E; right; by destruct (P1 E) as [[? _]|]|done|intros E; by destruct (P3 E) as [?|[?|?]]; auto].
Qed.

(** A call of thread [i] from outside the monitor. *)
Lemma mon_call s i o st pl :
  inv s -> Monitor.threads (mon s) !! i = Some Monitor.Idle -> (st = false -> pl = NotStarted) ->
  (forall m ex, Monitor.data m = Monitor.data (mon s) ->
    (forall j thj, j <> i -> place_ok s j thj -> place_ok (mk m st pl ex) j thj) /\
    place_ok (mk m st pl ex) i (Monitor.Entering o)) ->
  exists m, Monitor.exec (mon s) (Monitor.Call i o) = Ok m /\ inv (mk m st pl (exiting_ s)).
Proof.
  intros Hinv Hi Hst Hp.
  destruct (Monitor.good_exec _ _ loop_spec (mon s) (Monitor.Call i o) (inv_mon _ Hinv)) as (m&Hex&Hg&_).
  exists m. split; [done|]. cbn in Hex. rewrite Hi in Hex. injection Hex as <-.
  destruct (Hp (Monitor.set_threads (<[i := Monitor.Entering o]> (Monitor.threads (mon s))) (mon s)) (exiting_ s) eq_refl) as [H1 H2].
  eapply mon_change; [done|done|done|done|apply Monitor.woken_refl|done|done].
Qed.

Lemma loop_exec_ok s e : inv s -> legal s e -> exists s', exec s e = Ok s' /\ inv s'.
Proof.
  intros Hinv Hl. assert (exists s', Ok s = Ok s' /\ inv s') as Hsame by eauto.
  destruct (inv_tids _ Hinv) as [(ths&Hths) (thio&Hthio)].
  pose proof (inv_place _ Hinv _ _ Hths) as (S1&_&_). pose proof (inv_place _ Hinv _ _ Hthio) as (_&I2&I3).
  assert (forall p, (thread_ s = Publishing \/ thread_ s = Clearing -> thio = Monitor.Idle) -> started s = true ->
    inv (mk (mon s) (started s) p (exiting_ s))) as Hplace.
  { intros p Hid Hs. split; cbn; [apply Hinv| |apply Hinv|congruence]. intros i th Hi.
    destruct (inv_place _ Hinv _ _ Hi) as (P1&P2&P3). split_and!; [done|done|]. intros ->. right; right.
    rewrite Hthio in Hi. injection Hi as <-. destruct (P3 eq_refl) as [|[|]]; auto. }
  destruct e as [|e| | | |]; cbn [exec].
  - cbn in Hl. unfold startLoop. rewrite Hl. cbn [negb massert mbind outcome_bind].
    destruct (S1 eq_refl) as [[-> _]|[? _]]; [|congruence].
    destruct (mon_call s self GetLoop true InCallback) as (m&->&Hm); [done|done|done| |cbn; eauto].
    intros m ex Ed. split.
    + intros j thj Hj (P1&P2&P3). split_and!; [done|done|]. intros E. destruct (P3 E) as [Q|[Q|]]; [..|by right; right];
        rewrite (inv_started _ Hinv Hl) in Q; done.
    + split_and!; [by right|done|done].
  - destruct (Monitor.internal e) eqn:He; [|done].
    destruct (Monitor.good_exec _ _ loop_spec (mon s) e (inv_mon _ Hinv)) as (m&Hex&_). rewrite Hex. cbn.
    eexists. split; [done|]. by eapply mon_step.
  - destruct (thread_ s) eqn:Et; try done. unfold publish.
    assert (thio = Monitor.Idle) as -> by (destruct (I3 eq_refl) as [|[|]]; congruence).
    destruct (mon_call s io SetLoop (started s) Publishing) as (m&->&Hm); [done|done| | |cbn; eauto].
    { intros Hs. pose proof (inv_started _ Hinv Hs). congruence. }
    intros m ex Ed. split.
    + intros j thj Hj (P1&P2&P3). split_and!; [|done|done]. intros E. destruct (P1 E) as [[? Q]|]; [left|by right].
      split; [done|]. cbn. by rewrite Ed.
    + split_and!; [done|done|by left].
  - destruct (thread_ s) eqn:Et; try done. unfold clear.
    assert (thio = Monitor.Idle) as -> by (destruct (I3 eq_refl) as [|[|]]; congruence).
    destruct (mon_call s io ClearLoop (started s) Clearing) as (m&->&Hm); [done|done| | |cbn; eauto].
    { intros Hs. pose proof (inv_started _ Hinv Hs). congruence. }
    intros m ex Ed. split.
    + intros j thj Hj (P1&P2&P3). split_and!; [|done|done]. intros E. destruct (P1 E) as [[? Q]|]; [left|by right].
      split; [done|]. cbn. by rewrite Ed.
    + split_and!; [done|done|by right; left].
  - unfold io_idle. rewrite Hthio. assert (thread_ s <> NotStarted -> started s = true) as Hs.
    { intros Hn. destruct (started s) eqn:E; [done|]. by destruct (Hn (inv_started _ Hinv E)). }
    destruct (thread_ s) eqn:Et; try done; destruct thio; eauto; eexists; (split; [done|]); apply Hplace; auto; by apply Hs.
  - assert (inv (fst (destroy s))) by by destruct Hinv. destruct (thread_ s); eauto.
Qed.

Lemma loop_run_ok es s : inv s -> legal_run s es -> exists s', run s es = Ok s' /\ inv s'.
Proof.
  revert s. induction es as [|e es IH]; intros s Hinv Hl; cbn; [eauto|]. destruct Hl as [He Hl].
  destruct (loop_exec_ok s e Hinv He) as (s1&Hex&H1). rewrite Hex. cbn. auto.
Qed.
Lemma loop_thread_new_inv : inv new_.
Proof.
  split; cbn; [|..|done].
  - apply Monitor.good_init. split; [by left|]. split; [|constructor]. split; [done|].
    intros (i&r&[]%not_elem_of_nil).
  - intros i th Hi. apply lookup_gset_to_gmap_Some in Hi as [_ <-]. split_and!; [|done|by right; right].
    intros _. by left.
  - split; exists Monitor.Idle; apply lookup_gset_to_gmap_Some; set_solver.
Qed.

(** While the loop is there to take, the caller of [startLoop] is awake. *)
Lemma caller_awake s :
  inv s -> addr <> 0 -> started s = true -> loop_ (Monitor.data (mon s)) = addr ->
  Monitor.owner (Monitor.mutex_ (mon s)) = None -> claimed (Monitor.data (mon s)) = false ->
  Monitor.threads (mon s) !! self = Some (Monitor.Entering GetLoop).
Proof.
  intros Hinv Ha Hs Hlp Hown Hcl. destruct (inv_tids _ Hinv) as [(th&Hth) _].
  destruct (inv_place _ Hinv _ _ Hth) as (P1&_&_). destruct (P1 eq_refl) as [[_ Hc]|[_ Hget]].
  { specialize (Hc Hs). congruence. }
  assert (need cond_ (Monitor.data (mon s)) = Some 1) as Hn.
  { unfold need. rewrite Hlp, Hcl. by destruct (Z.eqb_spec addr 0). }
  destruct th as [|[]|[]|[] []]; try done.
  - assert (Monitor.owner (Monitor.mutex_ (mon s)) = Some self)
      by (apply (Monitor.lock_owner _ (Monitor.good_lock _ _ _ (inv_mon _ Hinv))); eauto). congruence.
  - destruct (Monitor.served_progress _ need (mon s) cond_ 1 self GetLoop (inv_mon _ Hinv) Hown Hn) as (j&o&Hj&Hw);
      [lia|by right|done|].
    destruct (inv_place _ Hinv _ _ Hj) as (_&P2&_). destruct o; try done.
    destruct (decide (j = self)) as [->|Hjs]; [congruence|]. by specialize (P2 Hjs).
Qed.
Lemma steps_run s i j pick m :
  Monitor.run (mon s) [Monitor.Lock i; Monitor.Run j pick] = Ok m ->
  run s [Step (Monitor.Lock i); Step (Monitor.Run j pick)] = Ok (mk m (started s) (thread_ s) (exiting_ s)).
Proof.
  unfold Monitor.run, run. cbn [foldM]. intros H. apply bind_ok in H as (m1&H1&H). apply bind_ok in H as (m2&H2&H).
  injection H as <-. cbn [exec Monitor.internal]. rewrite H1. cbn [mbind outcome_bind mon]. by rewrite H2.
Qed.
End Threads.

(** * Properties *)

(** [startLoop] returns the new thread's loop.  With [startLoop] called
    once, under any interleaving of the caller and the new thread: no assertion
    fails, everything [startLoop] returns is the address of the loop, never
    NULL; and while the loop is published and [startLoop] has not returned, its
    caller is not asleep: when the lock is free, its next two steps return the
    loop. *)
Theorem start_loop_returns_loop self io addr (es : list event) :
  self <> io -> 0 < self -> 0 < io -> addr <> 0 -> legal_run self io addr (new_ self io) es ->
  exists s, run self io addr (new_ self io) es = Ok s /\
    (forall i r, (i, GetLoop, r) ∈ Monitor.history (mon s) -> r = RLoop addr) /\
    (started s = true -> loop_ (Monitor.data (mon s)) = addr -> Monitor.owner (Monitor.mutex_ (mon s)) = None ->
     claimed (Monitor.data (mon s)) = false ->
     exists s', run self io addr s [Step (Monitor.Lock self); Step (Monitor.Run self 0)] = Ok s' /\
       (self, GetLoop, RLoop addr) ∈ Monitor.history (mon s')).
Proof.
  intros Hne H1 H2 Ha Hl.
  destruct (loop_run_ok self io addr Hne es _ (loop_thread_new_inv self io addr Hne H1 H2) Hl) as (s&Hrun&Hi).
  exists s. split; [done|]. destruct (Monitor.good_data _ _ _ (inv_mon _ _ _ _ Hi)) as (_&_&Hh). split.
  { intros i r Hin. rewrite Forall_forall in Hh. by apply Hh in Hin. }
  intros Hs Hlp Hown Hcl. assert (Monitor.threads (mon s) !! self = Some (Monitor.Entering GetLoop)) as Hth
    by by apply (caller_awake self io addr).
  destruct (Monitor.two_steps (Monitor0 := monitor addr) (mon s) self 0 GetLoop (mkdata (loop_ (Monitor.data (mon s))) true) (RLoop addr) [])
    as (m&Hm&_&Hhist&_); [done|done| | |].
  - cbn. rewrite Hlp. by destruct (Z.eqb_spec addr 0).
  - cbn. by rewrite Hlp.
  - exists (mk m (started s) (thread_ s) (exiting_ s)). split; [by eapply steps_run|]. cbn. rewrite Hhist.
    apply elem_of_app. right. by apply list_elem_of_singleton.
Qed.

(** The caller sleeps, the loop is published, and the caller gets it. *)
Definition witness_events : list event :=
  [StartLoop; Step (Monitor.Lock 1); Step (Monitor.Run 1 0); CallbackReturns; Step (Monitor.Lock 2); Step (Monitor.Run 2 0)].
Lemma loop_witness_legal : legal_run 1 2 64 (new_ 1 2) witness_events.
Proof.
  unfold witness_events. repeat (split; [first [exact I|reflexivity]|]; intros ? E; vm_compute in E; injection E as <-). exact I.
Qed.
Lemma start_loop_returns_loop_witness :
  exists s s', run 1 2 64 (new_ 1 2) witness_events = Ok s /\
    run 1 2 64 s [Step (Monitor.Lock 1); Step (Monitor.Run 1 0)] = Ok s' /\
    (1, GetLoop, RLoop 64) ∈ Monitor.history (mon s').
Proof.
  destruct (start_loop_returns_loop 1 2 64 witness_events) as (s&Hrun&_&Hnext); [lia|lia|lia|lia|exact loop_witness_legal|].
  destruct Hnext as (s'&Hrun'&Hin); [vm_compute in Hrun; injection Hrun as <-; reflexivity..|].
  exists s, s'. split; [exact Hrun|]. split; [exact Hrun'|exact Hin].
Defined.

(** A loop that quits before the caller has looked: [loop_] is NULL again, and
    the caller of [startLoop] sleeps with nobody left to wake it. *)
Example start_loop_misses_a_short_loop :
  exists s, run 1 2 64 (new_ 1 2)
    [StartLoop; CallbackReturns; Step (Monitor.Lock 2); Step (Monitor.Run 2 0); Enter; LoopReturns;
     Step (Monitor.Lock 2); Step (Monitor.Run 2 0); Enter; Step (Monitor.Lock 1); Step (Monitor.Run 1 0)] = Ok s /\
    thread_ s = Done /\ Monitor.threads (mon s) !! 1 = Some (Monitor.Sleeping cond_ GetLoop).
Proof. eexists. split; [vm_compute; reflexivity|]. by vm_compute. Qed.
End EventLoopThread.
