(* ===== verification/BaseFileUtil.v ===== *)
(** src/muduo/base/FileUtil.h and FileUtil.cc: appending to a stream and
    reading a small file.

    The C library's stream is a parameter ([Stdio]): a state, the bytes it has
    accepted, fwrite_unlocked and ferror.  The kernel's read(2) is a function of
    the size asked for and the rest of the file.  The loops take fuel; the
    theorems show that they end.  Opening and closing is in BaseFileStreams. *)

From S2P Require Import Prelude.

Class Stdio (F : Type) := {
  stream_bytes : F -> bytes;
  fwrite : bytes -> F -> Z * F;
  ferror : F -> Z
}.
(** fwrite accepts a prefix of the data, and when it accepts nothing of
    non-empty data the error indicator is set. *)
Class StdioLaws F `{Stdio F} : Prop := {
  fwrite_spec d f : let '(n, f') := fwrite d f in
    0 <= n <= zlen d /\ stream_bytes f' = stream_bytes f ++ ztake n d /\ (n = 0 -> d <> [] -> ferror f' <> 0)
}.

Module FileUtil.

(** * AppendFile *)

Section AppendFile.
Context {F : Type} `{!Stdio F}.

Record AppendFile := mkappend { fp_ : F; writtenBytes_ : Z }.

Definition write (logline : bytes) (f : F) : Z * F := fwrite logline f.

(** The loop of [append]: [written] so far; [None] when fuel runs out. *)
Fixpoint append_loop (fuel : nat) (logline : bytes) (written : Z) (f : F) : option (Z * F) :=
  match fuel with
  | O => None
  | S fuel =>
      if written =? zlen logline then Some (written, f)
      else
        let remain := zlen logline - written in
        let '(n, f) := write (zdrop written logline) f in
        if negb (n =? remain) && negb (ferror f =? 0) then Some (written, f)
        else append_loop fuel logline (written + n) f
  end.
Definition append (fuel : nat) (logline : bytes) (a : AppendFile) : option AppendFile :=
  '(written, f) ← append_loop fuel logline 0 (fp_ a);
  Some (mkappend f (i64 (writtenBytes_ a + written))).
Definition open_append (f : F) : AppendFile := mkappend f 0.
End AppendFile.
Arguments AppendFile : clear implicits.

(** * ReadSmallFile *)

Definition kBufferSize : Z := 64 * 1024.
Definition EISDIR : Z := 21.

(** What fstat(2) and read(2) answer. *)
Inductive stat := StatError (errno : Z) | StatFile (isreg isdir : bool) (size mtime ctime : Z).
Inductive read_result := ReadError (errno : Z) | ReadBytes (n : Z).

Record ReadSmallFile := mkread { fd_ : Z; err_ : Z; buf_ : bytes }.
Definition open_read (fd errno : Z) : ReadSmallFile :=
  mkread fd (if fd <? 0 then errno else 0) [].

(** The loop of [readToString]: [content] so far and the rest of the file. *)
Fixpoint read_loop (fuel : nat) (read : Z -> bytes -> read_result) (maxSize : Z)
    (content rest : bytes) (err : Z) : option (Z * bytes) :=
  match fuel with
  | O => None
  | S fuel =>
      if zlen content <? u64 maxSize
      then
        let toRead := Z.min (u64 maxSize - zlen content) kBufferSize in
        match read toRead rest with
        | ReadError errno => Some (errno, content)
        | ReadBytes n =>
            if 0 <? n then read_loop fuel read maxSize (content ++ ztake n rest) (zdrop n rest) err
            else Some (err, content)
        end
      else Some (err, content)
  end.

Record attributes := mkattr { fileSize : option Z; modifyTime : option Z; createTime : option Z }.
Definition no_attributes : attributes := mkattr None None None.

(** [want_size] etc. say which of the output pointers are given. *)
Definition readToString (fuel : nat) (st : stat) (read : Z -> bytes -> read_result)
    (want_size want_mtime want_ctime : bool) (maxSize : Z) (content0 file : bytes) (r : ReadSmallFile)
    : option (Z * bytes * attributes) :=
  let err := err_ r in
  if fd_ r <? 0 then Some (err, content0, no_attributes)
  else
    let '(err, attr) :=
      if want_size
      then match st with
           | StatError errno => (errno, no_attributes)
           | StatFile isreg isdir size mtime ctime =>
               (if isreg then err else if isdir then EISDIR else err,
                mkattr (if isreg then Some size else None) (if want_mtime then Some mtime else None)
                       (if want_ctime then Some ctime else None))
           end
      else (err, no_attributes) in
    '(err, content) ← read_loop fuel read maxSize [] file err;
    Some (err, content, attr).

(** pread(2) of the first bytes into [buf_]: the error, the size and the
    buffer, up to the NUL. *)
Definition readToBuffer (pread : Z -> bytes -> read_result) (file : bytes) (r : ReadSmallFile)
    : Z * option Z * ReadSmallFile :=
  if fd_ r <? 0 then (err_ r, None, r)
  else match pread (kBufferSize - 1) file with
       | ReadBytes n => (err_ r, Some n, mkread (fd_ r) (err_ r) (ztake n file))
       | ReadError errno => (errno, None, r)
       end.

(** * Lemmas *)

Section AppendLemmas.
Context {F : Type} `{!Stdio F} `{!StdioLaws F}.

(** What the loop leaves in the stream: a prefix of the line that contains at
    least the bytes it counted, and all of them unless the stream failed. *)
Lemma append_loop_ok fuel logline written (f : F) base :
  0 <= written <= zlen logline -> stream_bytes f = base ++ ztake written logline ->
  zlen logline - written < Z.of_nat fuel ->
  exists w f' k, append_loop fuel logline written f = Some (w, f') /\
    written <= w <= k /\ k <= zlen logline /\ stream_bytes f' = base ++ ztake k logline /\
    (w <> zlen logline -> ferror f' <> 0).
Proof.
  revert written f. induction fuel as [|fuel IH]; intros written f Hw Ha Hfuel; [lia|]. cbn [append_loop].
  destruct (Z.eqb_spec written (zlen logline)) as [->|Hne].
  { exists (zlen logline), f, (zlen logline). split; [done|]. split; [lia|]. done. }
  pose proof (fwrite_spec (zdrop written logline) f) as Hf. unfold write.
  destruct (fwrite (zdrop written logline) f) as [n f1]. destruct Hf as (Hn&Hacc&Herr).
  assert (zlen (zdrop written logline) = zlen logline - written) as Hlen by zlia. rewrite Hlen in Hn.
  assert (stream_bytes f1 = base ++ ztake (written + n) logline) as Ha1.
  { rewrite Hacc, Ha, <-app_assoc. f_equal. unfold ztake, zdrop.
    replace (Z.to_nat (written + n)) with (Z.to_nat written + Z.to_nat n)%nat by lia. by rewrite take_take_drop. }
  destruct (Z.eqb_spec n (zlen logline - written)) as [En|Enn]; cbn [negb andb].
  - destruct (IH (written + n) f1) as (w&f'&k&E&Hr1&Hr); [pose proof (zlen_nonneg logline); lia|done|lia|]. exists w, f', k. split; [done|]. split; [lia|]. apply Hr.
  - destruct (Z.eqb_spec (ferror f1) 0) as [E0|E0]; cbn [negb].
    + assert (n <> 0) as Hn0.
      { intros ->. apply Herr; [done| |done]. intros E. rewrite E in Hlen. rewrite zlen_nil in Hlen. lia. }
      destruct (IH (written + n) f1) as (w&f'&k&E&Hr1&Hr); [pose proof (zlen_nonneg logline); lia|done|lia|]. exists w, f', k. split; [done|]. split; [lia|]. apply Hr.
    + exists written, f1, (written + n). split; [done|]. split; [lia|]. split; [lia|]. split; [done|]. done.
Qed.
End AppendLemmas.

(** The loop of [readToString] collects the file up to [maxSize]. *)
Definition read_ok (read : Z -> bytes -> read_result) : Prop :=
  forall n rest, 0 < n -> exists k, read n rest = ReadBytes k /\ k <= n /\ k <= zlen rest /\
    (rest <> [] -> 0 < k).
Lemma read_loop_ok fuel read maxSize content rest err :
  read_ok read -> zlen content <= u64 maxSize -> zlen rest < Z.of_nat fuel ->
  read_loop fuel read maxSize content rest err = Some (err, ztake (u64 maxSize) (content ++ rest)).
Proof.
  intros Hread. revert content rest. induction fuel as [|fuel IH]; intros content rest Hc Hfuel; [zlia|].
  cbn [read_loop]. pose proof (zlen_nonneg content). pose proof (zlen_nonneg rest).
  destruct (Z.ltb_spec (zlen content) (u64 maxSize)) as [Hlt|Hge].
  2: { rewrite ztake_app_le by lia. rewrite ztake_all by lia. done. }
  set (toRead := Z.min _ _). assert (0 < toRead <= u64 maxSize - zlen content) as Ht by (unfold toRead, kBufferSize; lia).
  destruct (Hread toRead rest) as (k&->&Hk1&Hk2&Hk3); [lia|].
  destruct (Z.ltb_spec 0 k) as [Hpos|Hzero].
  - rewrite IH; [|zlia|zlia]. f_equal. f_equal. rewrite <-app_assoc. by rewrite ztake_zdrop.
  - destruct rest as [|x rest]; [|specialize (Hk3 ltac:(done)); lia]. rewrite app_nil_r, ztake_all by lia. done.
Qed.

(** * Properties *)

(** [AppendFile::append] ends and loses nothing silently.  For every stream
    that makes progress or reports an error, the loop ends (fuel above the
    length of the line is enough); the stream then holds a prefix of the line
    that has at least the bytes added to [writtenBytes_], and all of the line,
    all of it counted, unless the stream's error indicator is set. *)
Theorem append_file_delivers {F} `{!Stdio F} `{!StdioLaws F} (logline : bytes) (a : AppendFile F) fuel :
  zlen logline < Z.of_nat fuel -> 0 <= writtenBytes_ a -> writtenBytes_ a + zlen logline < 2 ^ 63 ->
  exists a' k, append fuel logline a = Some a' /\
    stream_bytes (fp_ a') = stream_bytes (fp_ a) ++ ztake k logline /\
    writtenBytes_ a <= writtenBytes_ a' <= writtenBytes_ a + k /\ k <= zlen logline /\
    (ferror (fp_ a') = 0 -> k = zlen logline /\ writtenBytes_ a' = writtenBytes_ a + zlen logline).
Proof.
  intros Hfuel H0 Hmax. pose proof (zlen_nonneg logline).
  destruct (append_loop_ok fuel logline 0 (fp_ a) (stream_bytes (fp_ a))) as (w&f'&k&E&Hw&Hk&Hacc&Herr); [lia| |lia|].
  { rewrite ztake_0 by lia. by rewrite app_nil_r. }
  unfold append. rewrite E. cbn. eexists _, k. split; [done|]. cbn.
  assert (i64 (writtenBytes_ a + w) = writtenBytes_ a + w) as -> by (apply swrap_small; unfold srange; lia).
  split; [done|]. split; [lia|]. split; [done|]. intros Hok.
  destruct (decide (w = zlen logline)); [lia|]. by apply Herr in Hok.
Qed.

(** A stream that takes at most four bytes per call and fails for good after
    ten. *)
Record small_stream := mksmall { small_bytes : bytes; small_error : bool }.
#[export] Instance small_stdio : Stdio small_stream := {|
  stream_bytes := small_bytes;
  fwrite d f :=
    let n := Z.max 0 (Z.min (Z.min 4 (zlen d)) (10 - zlen (small_bytes f))) in
    (n, mksmall (small_bytes f ++ ztake n d) (n =? 0));
  ferror f := if small_error f then 5 else 0
|}.
#[export] Instance small_stdio_laws : StdioLaws small_stream.
Proof.
  split. intros d [b e]. cbn -[Z.min Z.max]. set (n := Z.max 0 _). pose proof (zlen_nonneg d).
  split; [lia|]. split; [done|]. intros ->. by rewrite Z.eqb_refl.
Qed.
Lemma append_file_delivers_witness :
  exists a k, append 12 (lit "hello, log") (open_append (mksmall [] false)) = Some a /\
    stream_bytes (fp_ a) = ztake k (lit "hello, log") /\ writtenBytes_ a = 10 /\ ferror (fp_ a) = 0.
Proof.
  destruct (append_file_delivers (F := small_stream) (lit "hello, log") (open_append (mksmall [] false)) 12)
    as (a&k&E&Hs&_&_&Hok); [vm_compute; reflexivity|cbn; lia|vm_compute; reflexivity|].
  exists a, k. split; [exact E|]. split; [exact Hs|].
  assert (ferror (fp_ a) = 0) as He by (vm_compute in E; injection E as <-; reflexivity).
  split; [exact (proj2 (Hok He))|exact He].
Defined.

(** [ReadSmallFile::readToString] reads the file.  For an open regular file
    and a kernel that returns at least a byte until the end of the file, the
    loop ends (fuel above the size of the file is enough) and the result is the
    file, cut at [maxSize] bytes, without error and with the attributes asked
    for; the 64 KB buffer is no limit. *)
Theorem read_small_file_reads (file content0 : bytes) read fd size mtime ctime wm wc maxSize fuel :
  read_ok read -> 0 <= fd -> zlen file < Z.of_nat fuel ->
  readToString fuel (StatFile true false size mtime ctime) read true wm wc maxSize content0 file (open_read fd 0) =
    Some (0, ztake (u64 maxSize) file,
      mkattr (Some size) (if wm then Some mtime else None) (if wc then Some ctime else None)).
Proof.
  intros Hr Hfd Hfuel. unfold readToString, open_read. cbn [fd_ err_]. destruct (Z.ltb_spec fd 0); [lia|].
  rewrite (read_loop_ok fuel read maxSize [] file 0 Hr); [done| |done]. apply (uwrap_range 64). lia.
Qed.
Definition witness_read (n : Z) (rest : bytes) : read_result := ReadBytes (Z.max 0 (Z.min (Z.min 3 n) (zlen rest))).
Lemma read_small_file_reads_witness :
  readToString 20 (StatFile true false 12 100 200) witness_read true true false 7 (lit "old") (lit "hello, world") (open_read 3 0) =
    Some (0, lit "hello, ", mkattr (Some 12) (Some 100) None).
Proof.
  rewrite (read_small_file_reads (lit "hello, world") (lit "old") witness_read 3 12 100 200 true false 7 20).
  - reflexivity.
  - intros n rest Hn. eexists. split; [reflexivity|]. pose proof (zlen_nonneg rest). split; [lia|]. split; [lia|].
    intros Hne. destruct rest; [done|]. rewrite zlen_cons. pose proof (zlen_nonneg rest). lia.
  - lia.
  - vm_compute. reflexivity.
Defined.
End FileUtil.
