(* ===== verification/BaseFileStreams.v ===== *)
(** src/muduo/base/FileUtil.h and FileUtil.cc: the life of the two file
    objects in the process.  [AppendFile] is opened, appended to, flushed and
    destroyed; [ReadSmallFile] opens a descriptor that its destructor closes;
    [readFile] is the whole of it.

    BaseFileUtil has the loops; here they run in a world of streams,
    descriptors and files, which is a parameter ([Files]) with the laws of the
    manual pages of fopen, fwrite, fflush, fclose, open and close
    ([FilesLaws]).  A stream knows what it has accepted and what it still
    holds in its buffer; after an error nothing is said of the file. *)

From S2P Require Import Prelude BaseFileUtil.

(** An open stream: the file it appends to, all it has accepted since it was
    opened, the end of that which is still in the user-space buffer, and its
    error indicator. *)
Record stream := mkstream { st_name : bytes; st_accepted : bytes; st_buffered : bytes; st_error : Z }.

Class Files (W : Type) := {
  file : W -> bytes -> option bytes;
  streams : W -> gmap Z stream;
  descriptors : W -> gmap Z bytes;
  fopen : bytes -> W -> option Z * W;
  setbuffer : Z -> Z -> W -> W;
  fwrite_unlocked : Z -> bytes -> W -> Z * W;
  fflush : Z -> W -> W;
  fclose : Z -> W -> Z * W;
  open : bytes -> W -> (Z * Z) * W;
  fstat : Z -> W -> FileUtil.stat;
  read : Z -> bytes -> FileUtil.read_result;
  close : Z -> W -> W
}.

Section World.
Context {W : Type} `{!Files W}.

(** What a file holds; nothing when it does not exist. *)
Definition contents (w : W) (name : bytes) : bytes := default [] (file w name).
Definition stream_of (w : W) (fp : Z) : stream := default (mkstream [] [] [] 0) (streams w !! fp).

(** The stream writes to its own file only. *)
Definition only_file (name : bytes) (w w' : W) : Prop := forall n, n <> name -> file w' n = file w n.

(** A call on the stream [fp]: it stays open on its file, no other stream or
    file changes, an error stays, and without one the file and the buffer
    together grow by [new]. *)
Record stream_step (fp : Z) (new : bytes) (w w' : W) : Prop := mkstep {
  step_streams : streams w' = <[fp := stream_of w' fp]> (streams w);
  step_descriptors : descriptors w' = descriptors w;
  step_name : st_name (stream_of w' fp) = st_name (stream_of w fp);
  step_accepted : st_accepted (stream_of w' fp) = st_accepted (stream_of w fp) ++ new;
  step_only : only_file (st_name (stream_of w fp)) w w';
  step_intact : st_error (stream_of w' fp) = 0 -> st_error (stream_of w fp) = 0 /\
    contents w' (st_name (stream_of w fp)) ++ st_buffered (stream_of w' fp) =
    contents w (st_name (stream_of w fp)) ++ st_buffered (stream_of w fp) ++ new
}.

Class FilesLaws : Prop := {
  fopen_spec name w : match fopen name w with
    | (Some fp, w') => streams w !! fp = None /\ streams w' = <[fp := mkstream name [] [] 0]> (streams w) /\
        descriptors w' = descriptors w /\ contents w' name = contents w name /\ only_file name w w'
    | (None, w') => streams w' = streams w
    end;
  setbuffer_spec fp n w : is_Some (streams w !! fp) ->
    streams (setbuffer fp n w) = streams w /\ descriptors (setbuffer fp n w) = descriptors w /\
    forall name, file (setbuffer fp n w) name = file w name;
  (** fwrite accepts a prefix; when it accepts nothing of non-empty data the
      error indicator is set *)
  fwrite_unlocked_spec fp d w : is_Some (streams w !! fp) ->
    let '(n, w') := fwrite_unlocked fp d w in
    0 <= n <= zlen d /\ stream_step fp (ztake n d) w w' /\
    (n = 0 -> d <> [] -> st_error (stream_of w' fp) <> 0);
  fflush_spec fp w : is_Some (streams w !! fp) -> stream_step fp [] w (fflush fp w) /\
    (st_error (stream_of (fflush fp w) fp) = 0 -> st_buffered (stream_of (fflush fp w) fp) = []);
  (** a return value of 0 says that the buffer was written *)
  fclose_spec fp w : is_Some (streams w !! fp) -> let '(rc, w') := fclose fp w in
    streams w' = delete fp (streams w) /\ descriptors w' = descriptors w /\
    only_file (st_name (stream_of w fp)) w w' /\
    (rc = 0 -> contents w' (st_name (stream_of w fp)) =
               contents w (st_name (stream_of w fp)) ++ st_buffered (stream_of w fp));
  open_spec name w : let '((fd, errno), w') := open name w in
    streams w' = streams w /\ (forall n, file w' n = file w n) /\
    if 0 <=? fd then descriptors w !! fd = None /\ descriptors w' = <[fd := name]> (descriptors w) /\ is_Some (file w name)
    else descriptors w' = descriptors w;
  read_spec : FileUtil.read_ok read;
  close_spec fd w : is_Some (descriptors w !! fd) ->
    descriptors (close fd w) = delete fd (descriptors w) /\ streams (close fd w) = streams w /\
    forall n, file (close fd w) n = file w n
}.
End World.
Arguments FilesLaws W {_}.

Module FileStreams.
Section FileStreams.
Context {W : Type} `{!Files W}.

(** * AppendFile: the stream [fp_] in the world *)

(** The C library's calls on one stream, for the loop of
    [FileUtil.append]. *)
Definition stdio (fp : Z) : Stdio W := {|
  stream_bytes w := st_accepted (stream_of w fp);
  fwrite := fwrite_unlocked fp;
  ferror w := st_error (stream_of w fp)
|}.

Record AppendFile := mkfile { fp_ : Z; writtenBytes_ : Z }.

(** The constructor; [None] is its failed assertion. *)
Definition AppendFile_ctor (filename : bytes) (w : W) : option (AppendFile * W) :=
  match fopen filename w with
  | (Some fp, w) => Some (mkfile fp 0, setbuffer fp (64 * 1024) w)
  | (None, _) => None
  end.
Definition AppendFile_dtor (a : AppendFile) (w : W) : Z * W := fclose (fp_ a) w.
Definition append (fuel : nat) (logline : bytes) (a : AppendFile) (w : W) : option (AppendFile * W) :=
  r ← FileUtil.append (Stdio0 := stdio (fp_ a)) fuel logline (FileUtil.mkappend w (writtenBytes_ a));
  Some (mkfile (fp_ a) (FileUtil.writtenBytes_ r), FileUtil.fp_ r).
Definition flush (a : AppendFile) (w : W) : W := fflush (fp_ a) w.
Definition writtenBytes (a : AppendFile) : Z := writtenBytes_ a.

(** What the owner does with it. *)
Inductive op := Append (logline : bytes) | Flush.
Definition run_op (fuel : nat) (o : op) (a : AppendFile) (w : W) : option (AppendFile * W) :=
  match o with Append l => append fuel l a w | Flush => Some (a, flush a w) end.
Fixpoint run (fuel : nat) (os : list op) (a : AppendFile) (w : W) : option (AppendFile * W) :=
  match os with
  | [] => Some (a, w)
  | o :: os => '(a, w) ← run_op fuel o a w; run fuel os a w
  end.
Definition line_of (o : op) : bytes := match o with Append l => l | Flush => [] end.
Definition lines (os : list op) : bytes := os ≫= line_of.

(** * ReadSmallFile: the descriptor [fd_] *)

Definition ReadSmallFile_ctor (filename : bytes) (w : W) : FileUtil.ReadSmallFile * W :=
  let '((fd, errno), w) := open filename w in (FileUtil.open_read fd errno, w).
Definition ReadSmallFile_dtor (r : FileUtil.ReadSmallFile) (w : W) : W :=
  if 0 <=? FileUtil.fd_ r then close (FileUtil.fd_ r) w else w.
Definition buffer (r : FileUtil.ReadSmallFile) : bytes := FileUtil.buf_ r.

Definition readFile (fuel : nat) (filename : bytes) (maxSize : Z) (content0 : bytes) (want_size want_mtime want_ctime : bool)
    (w : W) : option (Z * bytes * FileUtil.attributes * W) :=
  let '(r, w) := ReadSmallFile_ctor filename w in
  let behind := default [] (contents w <$> descriptors w !! FileUtil.fd_ r) in
  '(err, content, attr) ←
    FileUtil.readToString fuel (fstat (FileUtil.fd_ r) w) read want_size want_mtime want_ctime maxSize content0 behind r;
  Some (err, content, attr, ReadSmallFile_dtor r w).

(** * Lemmas *)

Context `{!FilesLaws W}.

Lemma stream_of_open w fp s : streams w !! fp = Some s -> stream_of w fp = s.
Proof. unfold stream_of. by intros ->. Qed.
Lemma step_open fp new w w' : stream_step fp new w w' -> is_Some (streams w' !! fp).
Proof. intros []. rewrite step_streams0, lookup_insert. by case_decide; eauto. Qed.

Lemma stream_step_refl fp w : is_Some (streams w !! fp) -> stream_step fp [] w w.
Proof.
  intros [s Hs]. split; rewrite ?app_nil_r; try done.
  rewrite (stream_of_open _ _ _ Hs). by rewrite insert_id.
Qed.
Lemma stream_step_trans fp a b w1 w2 w3 :
  stream_step fp a w1 w2 -> stream_step fp b w2 w3 -> stream_step fp (a ++ b) w1 w3.
Proof.
  intros [S1 D1 N1 A1 O1 I1] [S2 D2 N2 A2 O2 I2]. split.
  - rewrite S2 at 1. rewrite S1. by rewrite insert_insert_eq.
  - congruence.
  - congruence.
  - by rewrite A2, A1, app_assoc.
  - intros n Hn. rewrite O2 by congruence. by apply O1.
  - intros E. destruct (I2 E) as [E2 J2]. destruct (I1 E2) as [E1 J1]. split; [done|].
    rewrite N1 in J2. rewrite J2, app_assoc, J1. by rewrite <-!app_assoc.
Qed.

(** The loop of [append]: it ends, the stream accepts a prefix of the line
    with at least the bytes that were counted, and all of it unless the stream
    failed. *)
Lemma append_loop_steps fuel fp logline written w0 :
  is_Some (streams w0 !! fp) -> 0 <= written <= zlen logline -> zlen logline - written < Z.of_nat fuel ->
  exists n w k, FileUtil.append_loop (Stdio0 := stdio fp) fuel logline written w0 = Some (n, w) /\
    written <= n <= written + k /\ written + k <= zlen logline /\
    stream_step fp (ztake k (zdrop written logline)) w0 w /\
    (n <> zlen logline -> st_error (stream_of w fp) <> 0).
Proof.
  revert written w0. induction fuel as [|fuel IH]; intros written w0 Hopen Hw Hfuel; [lia|]. cbn [FileUtil.append_loop].
  destruct (Z.eqb_spec written (zlen logline)) as [->|Hne].
  { exists (zlen logline), w0, 0. split; [done|]. rewrite ztake_0 by lia. split_and!; [lia|lia|lia|by apply stream_step_refl|done]. }
  pose proof (fwrite_unlocked_spec fp (zdrop written logline) w0 Hopen) as Hf. unfold FileUtil.write. cbn [fwrite ferror stdio].
  destruct (fwrite_unlocked fp (zdrop written logline) w0) as [n w1]. destruct Hf as (Hn&Hstep&Herr).
  assert (zlen (zdrop written logline) = zlen logline - written) as Hlen by zlia. rewrite Hlen in Hn.
  assert (0 < n -> exists m w k, FileUtil.append_loop (Stdio0 := stdio fp) fuel logline (written + n) w1 = Some (m, w) /\
    written <= m <= written + k /\ written + k <= zlen logline /\
    stream_step fp (ztake k (zdrop written logline)) w0 w /\ (m <> zlen logline -> st_error (stream_of w fp) <> 0)) as Hgo.
  { intros Hpos. destruct (IH (written + n) w1) as (m&w&k&E&Hm&Hk&Hs&He); [by eapply step_open|lia|lia|].
    exists m, w, (n + k). split; [done|]. split; [lia|]. split; [lia|]. split; [|done].
    replace (ztake (n + k) (zdrop written logline)) with (ztake n (zdrop written logline) ++ ztake k (zdrop (written + n) logline)).
    { by eapply stream_step_trans. }
    unfold ztake, zdrop. replace (Z.to_nat (written + n)) with (Z.to_nat written + Z.to_nat n)%nat by lia.
    replace (Z.to_nat (n + k)) with (Z.to_nat n + Z.to_nat k)%nat by lia. by rewrite <-drop_drop, take_take_drop. }
  destruct (Z.eqb_spec n (zlen logline - written)); cbn [negb andb]; [apply Hgo; lia|].
  destruct (Z.eqb_spec (st_error (stream_of w1 fp)) 0) as [E0|E0]; cbn [negb].
  - apply Hgo. destruct (decide (n = 0)) as [->|]; [|lia]. exfalso. apply Herr; [done| |done].
    intros E. rewrite E, zlen_nil in Hlen. lia.
  - exists written, w1, n. split; [done|]. split; [lia|]. split; [lia|]. done.
Qed.

Lemma append_steps fuel l a w :
  is_Some (streams w !! fp_ a) -> zlen l < Z.of_nat fuel -> 0 <= writtenBytes_ a -> writtenBytes_ a + zlen l < 2 ^ 63 ->
  exists n k w', append fuel l a w = Some (mkfile (fp_ a) (writtenBytes_ a + n), w') /\
    0 <= n <= k /\ k <= zlen l /\ stream_step (fp_ a) (ztake k l) w w' /\
    (st_error (stream_of w' (fp_ a)) = 0 -> n = zlen l /\ k = zlen l).
Proof.
  intros Hopen Hfuel H0 Hmax. pose proof (zlen_nonneg l).
  destruct (append_loop_steps fuel (fp_ a) l 0 w Hopen) as (n&w'&k&E&Hn&Hk&Hs&He); [lia|lia|].
  exists n, k, w'. unfold append, FileUtil.append. cbn [FileUtil.fp_ FileUtil.writtenBytes_]. rewrite E. cbn.
  assert (i64 (writtenBytes_ a + n) = writtenBytes_ a + n) as -> by (apply swrap_small; unfold srange; lia).
  split; [done|]. split; [lia|]. split; [lia|]. split; [by rewrite zdrop_0 in Hs by lia|].
  intros Eerr. destruct (decide (n = zlen l)); [lia|]. by apply He in Eerr.
Qed.

(** Every operation of the script: bytes are appended to the stream, all of
    them and all counted when its error indicator is clear. *)
Lemma run_appends fuel os a w :
  is_Some (streams w !! fp_ a) -> Forall (fun o => zlen (line_of o) < Z.of_nat fuel) os ->
  0 <= writtenBytes_ a -> writtenBytes_ a + zlen (lines os) < 2 ^ 63 ->
  exists n new w', run fuel os a w = Some (mkfile (fp_ a) (writtenBytes_ a + n), w') /\
    0 <= n <= zlen new /\ zlen new <= zlen (lines os) /\ stream_step (fp_ a) new w w' /\
    (st_error (stream_of w' (fp_ a)) = 0 -> n = zlen (lines os) /\ new = lines os).
Proof.
  revert a w. induction os as [|o os IH]; intros a w Hopen Hfuel H0 Hmax.
  { exists 0, [], w. cbn. rewrite Z.add_0_r. destruct a. split; [done|]. split_and!; [lia|zlia|zlia|by apply stream_step_refl|done]. }
  apply Forall_cons in Hfuel as [Hf1 Hf2]. change (lines (o :: os)) with (line_of o ++ lines os) in *.
  rewrite zlen_app in Hmax |- *. pose proof (zlen_nonneg (line_of o)). pose proof (zlen_nonneg (lines os)).
  assert (exists n k w', run_op fuel o a w = Some (mkfile (fp_ a) (writtenBytes_ a + n), w') /\
    0 <= n <= k /\ k <= zlen (line_of o) /\ stream_step (fp_ a) (ztake k (line_of o)) w w' /\
    (st_error (stream_of w' (fp_ a)) = 0 -> n = zlen (line_of o) /\ k = zlen (line_of o))) as (n&k&w1&E&Hn&Hk&Hs&He).
  { destruct o as [l|]; cbn [run_op line_of] in *; [apply append_steps; (done || lia)|].
    exists 0, 0, (flush a w). rewrite Z.add_0_r. destruct a as [fp wr]. split; [done|]. split_and!; [lia|lia|lia|by apply (fflush_spec fp w)|done]. }
  cbn [run]. rewrite E. cbn.
  destruct (IH (mkfile (fp_ a) (writtenBytes_ a + n)) w1) as (m&new&w2&E2&Hm&Hnew&Hs2&He2); cbn in *; [by eapply step_open|done|lia|lia|].
  exists (n + m), (ztake k (line_of o) ++ new), w2. rewrite Z.add_assoc. split; [done|]. rewrite zlen_app, zlen_ztake by lia.
  split; [lia|]. split; [lia|]. split; [by eapply stream_step_trans|].
  intros E0. destruct (He2 E0) as [-> ->]. destruct (step_intact _ _ _ _ Hs2 E0) as [E1 _]. destruct (He E1) as [-> ->].
  split; [lia|]. by rewrite ztake_all by lia.
Qed.

(** * Properties *)

(** What is appended reaches the file.  Whatever sequence of appends and
    flushes is made on an opened file, it ends; without a stream error every
    byte is counted and is in the file or still in the stream's buffer, all of
    it in the file after a flush, and after the destructor when fclose
    succeeds.  No other file is touched and the destructor leaves exactly the
    streams that were open before. *)
Theorem append_file_reaches_file fuel os name a (w w1 : W) :
  AppendFile_ctor name w = Some (a, w1) ->
  Forall (fun o => zlen (line_of o) < Z.of_nat fuel) os -> zlen (lines os) < 2 ^ 63 ->
  exists a' w', run fuel os a w1 = Some (a', w') /\
    let ok v := st_error (stream_of v (fp_ a)) = 0 in
    (ok w' -> writtenBytes a' = zlen (lines os) /\
      contents w' name ++ st_buffered (stream_of w' (fp_ a)) = contents w name ++ lines os) /\
    (ok (flush a' w') -> contents (flush a' w') name = contents w name ++ lines os) /\
    let '(rc, w'') := AppendFile_dtor a' w' in
    streams w'' = streams w /\ descriptors w'' = descriptors w /\ only_file name w w'' /\
    (ok w' -> rc = 0 -> contents w'' name = contents w name ++ lines os).
Proof.
  unfold AppendFile_ctor. pose proof (fopen_spec name w) as Ho. destruct (fopen name w) as [[fp|] w0]; [|done].
  intros [= <- <-] Hfuel Hmax. destruct Ho as (Hnew&Hs0&Hd0&Hc0&Hf0).
  assert (streams w0 !! fp = Some (mkstream name [] [] 0)) as Hfp by (rewrite Hs0; apply lookup_insert_eq).
  destruct (setbuffer_spec fp (64 * 1024) w0 ltac:(eauto)) as (Hs1&Hd1&Hf1). set (w1 := setbuffer _ _ _) in *.
  assert (stream_of w1 fp = mkstream name [] [] 0) as Hst by (apply stream_of_open; congruence).
  assert (contents w1 name = contents w name) as Hc1 by (unfold contents in *; rewrite Hf1; done).
  destruct (run_appends fuel os (mkfile fp 0) w1) as (n&new&w'&E&_&_&Hstep&He); cbn; [rewrite Hs1; eauto|done|lia|lia|].
  cbn in *. exists (mkfile fp n), w'. split; [done|]. cbn.
  pose proof (step_open _ _ _ _ Hstep) as Hopen'. destruct (fflush_spec fp w' Hopen') as [Hfl Hempty].
  destruct (Hstep) as [S1 D1 N1 _ O1 I1]. rewrite Hst in *. cbn in *. rewrite Hc1 in I1. split; [|split].
  - intros E0. destruct (He E0) as [-> ->]. split; [done|]. by apply I1.
  - intros E0. destruct (step_intact _ _ _ _ Hfl E0) as [E1 J]. destruct (He E1) as [-> ->].
    unfold flush in *. cbn in *. rewrite N1, (Hempty E0), app_nil_r, app_nil_r in J. rewrite J. by apply I1.
  - unfold AppendFile_dtor. cbn. pose proof (fclose_spec fp w' Hopen') as Hcl. destruct (fclose fp w') as [rc w''].
    destruct Hcl as (Sc&Dc&Oc&Cc). rewrite N1 in *. split_and!.
    + rewrite Sc, S1, Hs1, Hs0, delete_insert_eq, delete_insert_id by done. done.
    + congruence.
    + intros m Hm. rewrite Oc, O1, Hf1, Hf0 by done. done.
    + intros E0 Erc. destruct (He E0) as [-> ->]. rewrite (Cc Erc). by apply I1.
Qed.

(** [readFile] ends and closes what it opened: descriptors, streams and files
    are as before, whether or not the file could be opened and read; an opened
    regular file is returned whole, up to [maxSize], without error. *)
Theorem readFile_reads_and_closes fuel name maxSize content0 wm wc (w : W) :
  zlen (contents w name) < Z.of_nat fuel ->
  exists err content attr w', readFile fuel name maxSize content0 true wm wc w = Some (err, content, attr, w') /\
    descriptors w' = descriptors w /\ streams w' = streams w /\ (forall n, file w' n = file w n) /\
    let '((fd, errno), w1) := open name w in
    (fd < 0 -> err = errno /\ content = content0) /\
    (forall size mtime ctime, 0 <= fd -> fstat fd w1 = FileUtil.StatFile true false size mtime ctime ->
      err = 0 /\ content = ztake (u64 maxSize) (contents w name) /\ FileUtil.fileSize attr = Some size).
Proof.
  intros Hfuel. unfold readFile, ReadSmallFile_ctor. pose proof (open_spec name w) as Ho.
  destruct (open name w) as [[fd errno] w1]. destruct Ho as (Hs&Hf&Hd). unfold FileUtil.readToString, FileUtil.open_read, ReadSmallFile_dtor.
  cbn [FileUtil.fd_ FileUtil.err_]. destruct (Z.ltb_spec fd 0) as [Hneg|Hpos].
  { destruct (Z.leb_spec 0 fd); [lia|]. cbn. eexists _, _, _, _. split; [done|]. split_and!; try done. intros; lia. }
  destruct (Z.leb_spec 0 fd); [|lia]. destruct Hd as (Hn&Hd&_).
  assert (descriptors w1 !! fd = Some name) as Hl by (rewrite Hd; apply lookup_insert_eq).
  rewrite Hl. cbn. replace (contents w1 name) with (contents w name) by (unfold contents; by rewrite Hf).
  destruct (close_spec fd w1 ltac:(eauto)) as (Cd&Cs&Cf).
  destruct (match fstat fd w1 with FileUtil.StatError e => _ | FileUtil.StatFile _ _ _ _ _ => _ end) as [e attr] eqn:Est.
  rewrite (FileUtil.read_loop_ok _ _ _ _ _ _ read_spec); [|apply (uwrap_range 64); lia|done]. cbn.
  eexists _, _, _, _. split; [done|]. rewrite Cd, Hd, delete_insert_id by done. split; [done|]. split; [congruence|].
  split; [intros; by rewrite Cf, Hf|]. split; [lia|]. intros size mtime ctime _ Hst. rewrite Hst in Est. by injection Est as <- <-.
Qed.
End FileStreams.

(** * A world that meets the laws: every stream buffers until it is flushed,
    and takes four bytes at a time. *)

Record disk := mkdisk { d_files : gmap bytes bytes; d_streams : gmap Z stream; d_fds : gmap Z bytes }.
Definition disk_stream (d : disk) (fp : Z) : stream := default (mkstream [] [] [] 0) (d_streams d !! fp).
Definition disk_flush (fp : Z) (d : disk) : disk :=
  let s := disk_stream d fp in
  mkdisk (<[st_name s := default [] (d_files d !! st_name s) ++ st_buffered s]> (d_files d))
    (<[fp := mkstream (st_name s) (st_accepted s) [] (st_error s)]> (d_streams d)) (d_fds d).
#[export] Instance disk_world : Files disk := {|
  file d n := d_files d !! n;
  streams := d_streams;
  descriptors := d_fds;
  fopen name d := let fp := fresh (dom (d_streams d)) in
    (Some fp, mkdisk (<[name := default [] (d_files d !! name)]> (d_files d)) (<[fp := mkstream name [] [] 0]> (d_streams d)) (d_fds d));
  setbuffer _ _ d := d;
  fwrite_unlocked fp data d := let s := disk_stream d fp in let n := Z.min 4 (zlen data) in
    (n, mkdisk (d_files d)
          (<[fp := mkstream (st_name s) (st_accepted s ++ ztake n data) (st_buffered s ++ ztake n data) (st_error s)]> (d_streams d)) (d_fds d));
  fflush := disk_flush;
  fclose fp d := let d := disk_flush fp d in (0, mkdisk (d_files d) (delete fp (d_streams d)) (d_fds d));
  open name d := match d_files d !! name with
    | Some _ => let fd := fresh (dom (d_fds d)) in
        if 0 <=? fd then ((fd, 0), mkdisk (d_files d) (d_streams d) (<[fd := name]> (d_fds d))) else ((-1, 24), d)
    | None => ((-1, 2), d)
    end;
  fstat fd d := FileUtil.StatFile true false (zlen (default [] (n ← d_fds d !! fd; d_files d !! n))) 100 200;
  read n rest := FileUtil.ReadBytes (Z.max 0 (Z.min (Z.min 3 n) (zlen rest)));
  close fd d := mkdisk (d_files d) (d_streams d) (delete fd (d_fds d))
|}.

Lemma disk_stream_of d fp : stream_of d fp = disk_stream d fp.
Proof. done. Qed.
Lemma disk_flush_steps d fp : stream_step fp [] d (disk_flush fp d).
Proof.
  assert (stream_of (disk_flush fp d) fp =
    mkstream (st_name (disk_stream d fp)) (st_accepted (disk_stream d fp)) [] (st_error (disk_stream d fp))) as E.
  { unfold stream_of, disk_flush. cbn. by rewrite lookup_insert_eq. }
  split; rewrite ?E, ?disk_stream_of; cbn; try done.
  - by rewrite app_nil_r.
  - intros n Hn. cbn. by rewrite lookup_insert_ne.
  - intros E0. split; [done|]. unfold contents. cbn. rewrite lookup_insert_eq. cbn. by rewrite !app_nil_r.
Qed.
#[export] Instance disk_laws : FilesLaws disk.
Proof.
  split; cbn; try done.
  - intros name d. set (fp := fresh _). assert (fp ∉ dom (d_streams d)) as Hf by apply is_fresh.
    split; [by apply not_elem_of_dom|]. split; [done|]. split; [done|]. unfold contents. cbn.
    split; [by rewrite lookup_insert_eq|]. intros n Hn. cbn. by rewrite lookup_insert_ne.
  - intros fp data d _. pose proof (zlen_nonneg data). split; [lia|]. split.
    2: { intros E. destruct data as [|x data]; [done|]. rewrite zlen_cons in E. pose proof (zlen_nonneg data). lia. }
    split; unfold stream_of; cbn; by rewrite ?lookup_insert_eq.
  - intros fp d _. split; [apply disk_flush_steps|]. intros _. unfold stream_of. cbn. by rewrite lookup_insert_eq.
  - intros fp d _. split; [by rewrite delete_insert_eq|]. split; [done|]. split.
    + intros n Hn. cbn. by rewrite lookup_insert_ne.
    + intros _. unfold contents. cbn. by rewrite lookup_insert_eq.
  - intros name d. destruct (d_files d !! name) eqn:E; [|done]. destruct (Z.leb_spec 0 (fresh (dom (d_fds d)))) as [Hp|]; [|done].
    split; [done|]. split; [done|]. destruct (Z.leb_spec 0 (fresh (dom (d_fds d)))); [|lia].
    split; [apply not_elem_of_dom, is_fresh|]. by split.
  - intros n rest Hn. eexists. split; [done|]. pose proof (zlen_nonneg rest). split; [lia|]. split; [lia|].
    intros Hne. destruct rest as [|x rest]; [done|]. rewrite zlen_cons in *. pose proof (zlen_nonneg rest). lia.
Qed.

Definition witness_disk : disk := mkdisk (<[lit "log" := lit "old,"]> ∅) ∅ ∅.
Definition witness_script : list op := [Append (lit "hello, "); Flush; Append (lit "world")].
Lemma append_file_reaches_file_witness : exists a w a' w',
  AppendFile_ctor (lit "log") witness_disk = Some (a, w) /\ run 20 witness_script a w = Some (a', w') /\
  contents (AppendFile_dtor a' w').2 (lit "log") = lit "old,hello, world" /\ writtenBytes a' = 12.
Proof.
  destruct (AppendFile_ctor (lit "log") witness_disk) as [[a w]|] eqn:E; [|by vm_compute in E].
  destruct (append_file_reaches_file 20 witness_script (lit "log") a witness_disk w E) as (a'&w'&Er&Hok&_&Hcl).
  { repeat constructor. }
  { reflexivity. }
  assert (st_error (stream_of w' (fp_ a)) = 0) as H0.
  { vm_compute in E. injection E as <- <-. vm_compute in Er. injection Er as <- <-. reflexivity. }
  exists a, w, a', w'. split; [reflexivity|]. split; [exact Er|]. split; [|exact (proj1 (Hok H0))].
  destruct (AppendFile_dtor a' w') as [rc w''] eqn:Ed. assert (rc = 0) as Erc by (injection Ed as <- _; reflexivity).
  exact (proj2 (proj2 (proj2 Hcl)) H0 Erc).
Defined.
Lemma readFile_reads_and_closes_witness : exists attr,
  readFile 20 (lit "log") 100 [] true true true witness_disk = Some (0, lit "old,", attr, witness_disk).
Proof.
  destruct (readFile_reads_and_closes 20 (lit "log") 100 [] true true witness_disk) as (err&c&attr&w'&E&_).
  { reflexivity. }
  exists attr. vm_compute in E |- *. injection E as <- <- <- <-. reflexivity.
Defined.
End FileStreams.
