(* ===== verification/BaseLogFile.v ===== *)
(** src/muduo/base/LogFile.h and LogFile.cc: a log file that is replaced by a
    new one when it is large enough or a new day (UTC) begins.

    Streams are those of BaseFileUtil; [fopen] gives the stream of a newly
    opened file.  What time(2), gmtime_r, hostname and pid return are arguments.
    [closed] is a ghost: the files written before the current one, with the
    times they were opened at; [flushes] the times of the flushes made.  The
    mutex of a thread-safe LogFile makes [append] one step. *)

From stdpp Require Import sorting.
From S2P Require Import Prelude BaseTimestamp BaseFileUtil.

Module LogFile.

Definition kRollPerSeconds_ : Z := 60 * 60 * 24.

Section LogFile.
Context {F : Type} `{!Stdio F}.
Context (fopen : bytes -> F) (gmtime_r : Z -> tm) (hostname : bytes) (pid : Z).

Record config := mkconfig { basename_ : bytes; rollSize_ : Z; flushInterval_ : Z; checkEveryN_ : Z }.
Record t := mk {
  count_ : Z;
  startOfPeriod_ : Z;
  lastRoll_ : Z;
  lastFlush_ : Z;
  file_ : option (FileUtil.AppendFile F);
  closed : list (Z * FileUtil.AppendFile F);
  flushes : list Z
}.
Definition set_count n s := mk n (startOfPeriod_ s) (lastRoll_ s) (lastFlush_ s) (file_ s) (closed s) (flushes s).
Definition set_file f s := mk (count_ s) (startOfPeriod_ s) (lastRoll_ s) (lastFlush_ s) (Some f) (closed s) (flushes s).

(** strftime with ".%Y%m%d-%H%M%S." *)
Definition strftime_name (x : tm) : bytes :=
  lit "." ++ fmt_d (tm_year x + 1900) ++ fmt_0d 2 (tm_mon x + 1) ++ fmt_0d 2 (tm_mday x) ++ lit "-" ++
  fmt_0d 2 (tm_hour x) ++ fmt_0d 2 (tm_min x) ++ fmt_0d 2 (tm_sec x) ++ lit ".".
Definition getLogFileName (basename : bytes) (now : Z) : bytes :=
  basename ++ strftime_name (gmtime_r now) ++ hostname ++ snprintf 32 (lit "." ++ fmt_d pid) ++ lit ".log".

Definition rollFile (c : config) (now : Z) (s : t) : bool * t :=
  let filename := getLogFileName (basename_ c) now in
  let start := Z.quot now kRollPerSeconds_ * kRollPerSeconds_ in
  if lastRoll_ s <? now
  then (true, mk (count_ s) start now now (Some (FileUtil.open_append (fopen filename)))
                 (match file_ s with Some f => closed s ++ [(lastRoll_ s, f)] | None => closed s end) (flushes s))
  else (false, s).

Definition new_ (c : config) (now : Z) : outcome t :=
  massert (find_idx 47 (basename_ c) =? zlen (basename_ c)) "basename.find('/') == string::npos";;
  Ok (snd (rollFile c now (mk 0 0 0 0 None [] []))).

(** [flush] on the current file. *)
Definition flush (now : Z) (s : t) : t :=
  mk (count_ s) (startOfPeriod_ s) (lastRoll_ s) (lastFlush_ s) (file_ s) (closed s) (flushes s ++ [now]).

(** [now] is the time the check reads, [now'] the one [rollFile] reads. *)
Definition append_unlocked (c : config) (fuel : nat) (logline : bytes) (now now' : Z) (s : t) : outcome t :=
  match file_ s with
  | None => Err (Undefined "null file_")
  | Some f =>
      match FileUtil.append fuel logline f with
      | None => Err (Undefined "append does not return")
      | Some f =>
          let s := set_file f s in
          if rollSize_ c <? FileUtil.writtenBytes_ f then Ok (snd (rollFile c now' s))
          else
            let s := set_count (i32 (count_ s + 1)) s in
            if checkEveryN_ c <=? count_ s
            then
              let s := set_count 0 s in
              let thisPeriod_ := Z.quot now kRollPerSeconds_ * kRollPerSeconds_ in
              if negb (thisPeriod_ =? startOfPeriod_ s) then Ok (snd (rollFile c now' s))
              else if flushInterval_ c <? now - lastFlush_ s
              then Ok (flush now (mk (count_ s) (startOfPeriod_ s) (lastRoll_ s) now (file_ s) (closed s) (flushes s)))
              else Ok s
            else Ok s
      end
  end.
(** Both branches on the mutex do the same work. *)
Definition append := append_unlocked.

(** A sequence of lines with the times their appends read. *)
Definition append_all (c : config) (l : list (bytes * Z * Z)) (s : t) : outcome t :=
  foldM (fun s '(line, now, now') => append c (S (length line)) line now now' s) s l.

(** The clock does not go back, starting from [from]. *)
Fixpoint clock_ok (from : Z) (l : list (bytes * Z * Z)) : Prop :=
  match l with [] => True | (_, now, now') :: l' => from <= now /\ now <= now' /\ clock_ok now' l' end.
Fixpoint clock_end (from : Z) (l : list (bytes * Z * Z)) : Z :=
  match l with [] => from | (_, _, now') :: l' => clock_end now' l' end.

Lemma clock_ok_app now l m : clock_ok now (l ++ m) <-> clock_ok now l /\ clock_ok (clock_end now l) m.
Proof.
  revert now. induction l as [|[[x n1] n2] l IH]; intros now; cbn; [by split; [|intros []]|]. rewrite IH.
  by split; [intros (?&?&?&?)|intros ((?&?&?)&?)].
Qed.

Definition file_bytes (f : FileUtil.AppendFile F) : bytes := stream_bytes (FileUtil.fp_ f).
Definition day (time : Z) : Z := Z.quot time kRollPerSeconds_.
(** Why a file opened at [x.1] was replaced at time [next]. *)
Definition rolled_for (c : config) (x : Z * FileUtil.AppendFile F) (next : Z) : Prop :=
  rollSize_ c < zlen (file_bytes x.2) \/ day x.1 <> day next.
(** The file opened after each of the closed ones. *)
Definition next_opens (s : t) : list Z := tail ((closed s).*1 ++ [lastRoll_ s]).

(** * The invariant: [lines] are what was appended so far, [now] the time *)

Record inv (now : Z) (lines : list bytes) (groups : list (list bytes)) (s : t)
    (f : FileUtil.AppendFile F) : Prop := {
  inv_file : file_ s = Some f;
  inv_groups : exists g, mjoin groups ++ g = lines /\ file_bytes f = mjoin g /\
    file_bytes <$> (closed s).*2 = mjoin <$> groups;
  inv_written : FileUtil.writtenBytes_ f = zlen (file_bytes f);
  inv_sorted : StronglySorted Z.lt ((closed s).*1 ++ [lastRoll_ s]);
  inv_period : startOfPeriod_ s = Z.quot (lastRoll_ s) kRollPerSeconds_ * kRollPerSeconds_;
  inv_time : 0 < lastRoll_ s <= now
}.

Context `{!StdioLaws F} (reliable : forall f : F, ferror f = 0) (fopen_empty : forall n, stream_bytes (fopen n) = []).

Lemma file_append_ok line (f : FileUtil.AppendFile F) :
  FileUtil.writtenBytes_ f = zlen (file_bytes f) -> zlen (file_bytes f) + zlen line < 2 ^ 63 ->
  exists f', FileUtil.append (S (length line)) line f = Some f' /\ file_bytes f' = file_bytes f ++ line /\
    FileUtil.writtenBytes_ f' = zlen (file_bytes f').
Proof.
  intros Hw Hmax. pose proof (zlen_nonneg line). pose proof (zlen_nonneg (file_bytes f)).
  destruct (FileUtil.append_loop_ok (S (length line)) line 0 (FileUtil.fp_ f) (file_bytes f)) as (w&f'&k&E&Hk1&Hk2&Hb&He);
    [lia|rewrite ztake_0 by lia; by rewrite app_nil_r|unfold zlen in *; lia|].
  destruct (decide (w = zlen line)) as [->|Hne]; [|by (specialize (He Hne); rewrite reliable in He)].
  unfold FileUtil.append. rewrite E. cbn [mbind option_bind]. eexists. split; [done|].
  unfold file_bytes in *. cbn [FileUtil.fp_ FileUtil.writtenBytes_]. rewrite ztake_all in Hb by lia. split; [done|].
  rewrite Hb, zlen_app, Hw. apply swrap_small; [lia|]. unfold srange. lia.
Qed.

(** The file outgrows [rollSize_] only within the second it was opened in. *)
Definition size_ok (c : config) (now : Z) (s : t) (f : FileUtil.AppendFile F) : Prop :=
  rollSize_ c < FileUtil.writtenBytes_ f -> lastRoll_ s = now.

Lemma inv_later now now' lines groups s f : now <= now' -> inv now lines groups s f -> inv now' lines groups s f.
Proof. intros Hle [H1 H2 H3 H4 H5 H6]. split; auto. lia. Qed.

Lemma sorted_snoc (l : list Z) x : StronglySorted Z.lt l -> (forall y, y ∈ l -> y < x) -> StronglySorted Z.lt (l ++ [x]).
Proof.
  intros Hs Hx. induction Hs as [|a l Hs IH Ha]; cbn; [repeat constructor|].
  constructor; [apply IH; set_solver|]. apply Forall_app. split; [done|]. repeat constructor. apply Hx. set_solver.
Qed.

Lemma rollFile_inv c now lines groups s f :
  inv now lines groups s f ->
  exists groups' f', inv now lines groups' (snd (rollFile c now s)) f' /\ size_ok c now (snd (rollFile c now s)) f'.
Proof.
  intros Hinv. pose proof Hinv as [Hf (g&Hl&Hb&Hg) Hw Hs Hp Ht]. unfold rollFile.
  destruct (Z.ltb_spec (lastRoll_ s) now) as [Hlt|Hge]; cbn [snd].
  - rewrite Hf. exists (groups ++ [g]), (FileUtil.open_append (fopen (getLogFileName (basename_ c) now))).
    split; [|done]. split; cbn [file_ closed lastRoll_ startOfPeriod_ FileUtil.open_append]; [done| | | |done|lia].
    + exists []. split; [by rewrite app_nil_r, join_app; cbn; rewrite app_nil_r|].
      split; [apply fopen_empty|]. rewrite !fmap_app, Hg. cbn. by rewrite Hb.
    + unfold file_bytes. cbn. by rewrite fopen_empty.
    + rewrite fmap_app. cbn. apply sorted_snoc; [done|]. intros y [Hy|Hy%list_elem_of_singleton]%elem_of_app; [|lia].
      enough (y < lastRoll_ s) by lia. apply StronglySorted_app in Hs as (Hs&_&_). apply Hs; [done|]. by apply list_elem_of_singleton.
  - exists groups, f. split; [done|]. intros _. lia.
Qed.

(** What [append_unlocked] does once the line is in the file, now [f]. *)
Inductive append_step (c : config) (now now' : Z) (s : t) (f : FileUtil.AppendFile F) : t -> Prop :=
| StepSize : rollSize_ c < FileUtil.writtenBytes_ f -> append_step c now now' s f (snd (rollFile c now' (set_file f s)))
| StepCount : ~ rollSize_ c < FileUtil.writtenBytes_ f -> i32 (count_ s + 1) < checkEveryN_ c ->
    append_step c now now' s f (set_count (i32 (count_ s + 1)) (set_file f s))
| StepDay : ~ rollSize_ c < FileUtil.writtenBytes_ f -> Z.quot now kRollPerSeconds_ * kRollPerSeconds_ <> startOfPeriod_ s ->
    append_step c now now' s f (snd (rollFile c now' (set_count 0 (set_file f s))))
| StepFlush : ~ rollSize_ c < FileUtil.writtenBytes_ f -> Z.quot now kRollPerSeconds_ * kRollPerSeconds_ = startOfPeriod_ s ->
    append_step c now now' s f (flush now (mk 0 (startOfPeriod_ s) (lastRoll_ s) now (Some f) (closed s) (flushes s)))
| StepRecent : ~ rollSize_ c < FileUtil.writtenBytes_ f -> Z.quot now kRollPerSeconds_ * kRollPerSeconds_ = startOfPeriod_ s ->
    now - lastFlush_ s <= flushInterval_ c -> append_step c now now' s f (set_count 0 (set_file f s)).

Lemma append_cases c line now now' s f f1 :
  file_ s = Some f -> FileUtil.append (S (length line)) line f = Some f1 ->
  exists s', append c (S (length line)) line now now' s = Ok s' /\ append_step c now now' s f1 s'.
Proof.
  intros Hf E. unfold append, append_unlocked. rewrite Hf, E.
  destruct (Z.ltb_spec (rollSize_ c) (FileUtil.writtenBytes_ f1)); [eexists; split; [done|by apply StepSize]|].
  change (count_ (set_file f1 s)) with (count_ s). cbn [count_ set_count set_file startOfPeriod_ lastFlush_].
  destruct (Z.leb_spec (checkEveryN_ c) (i32 (count_ s + 1))); [|eexists; split; [done|apply StepCount; lia]].
  destruct (Z.eqb_spec (Z.quot now kRollPerSeconds_ * kRollPerSeconds_) (startOfPeriod_ s)); cbn [negb].
  - destruct (Z.ltb_spec (flushInterval_ c) (now - lastFlush_ s)); eexists; (split; [done|]);
      [apply (StepFlush c now now' s f1)|apply (StepRecent c now now' s f1)]; done || lia.
  - eexists. split; [done|]. apply (StepDay c now now' s f1); done || lia.
Qed.

(** One line: it goes at the end of the current file, which may then be
    replaced. *)
Lemma append_step_inv c line now0 now now' lines groups s f f1 s' :
  inv now0 lines groups s f -> now0 <= now -> now <= now' ->
  file_bytes f1 = file_bytes f ++ line -> FileUtil.writtenBytes_ f1 = zlen (file_bytes f1) ->
  append_step c now now' s f1 s' ->
  exists groups' f', inv now' (lines ++ [line]) groups' s' f' /\ size_ok c now' s' f'.
Proof.
  intros Hinv H1 H2 Hb1 Hw1 Hst. pose proof Hinv as [Hf (g&Hl&Hb&Hg) Hw Hs Hp Ht].
  assert (forall s1, closed s1 = closed s -> lastRoll_ s1 = lastRoll_ s -> startOfPeriod_ s1 = startOfPeriod_ s -> file_ s1 = Some f1 ->
    inv now' (lines ++ [line]) groups s1 f1) as Hnew.
  { intros s1 Ec Er Ep Ef. split; rewrite ?Ec, ?Er, ?Ep; [done| |done|done|done|lia].
    exists (g ++ [line]). rewrite <-Hl, <-app_assoc, join_app, Hb1, Hb. cbn. by rewrite app_nil_r. }
  destruct Hst; try (by apply (rollFile_inv c now' _ groups _ f1), Hnew);
    exists groups, f1; (split; [by apply Hnew|intros ?; lia]).
Qed.

(** * When files are rolled and flushed *)

Record policy (c : config) (now : Z) (s : t) : Prop := {
  policy_count : 0 < checkEveryN_ c < 2 ^ 31 -> 0 <= count_ s < checkEveryN_ c;
  policy_flush : lastRoll_ s <= lastFlush_ s <= now;
  policy_flushed : lastFlush_ s = lastRoll_ s \/ lastFlush_ s ∈ flushes s;
  policy_rolled : Forall2 (rolled_for c) (closed s) (next_opens s)
}.

Lemma next_opens_snoc (l : list Z) x y : tail ((l ++ [x]) ++ [y]) = tail (l ++ [x]) ++ [y].
Proof. by destruct l. Qed.
Lemma day_le x y : 0 <= x <= y -> day x <= day y.
Proof. intros. apply Z.quot_le_mono; [done|lia]. Qed.

Lemma rollFile_policy c now now' s f :
  policy c now s -> now <= now' -> file_ s = Some f -> rolled_for c (lastRoll_ s, f) now' ->
  policy c now' (snd (rollFile c now' s)) /\ lastRoll_ (snd (rollFile c now' s)) = Z.max now' (lastRoll_ s).
Proof.
  intros [Hc Hf Hfl Hr] Hle Hfile Hwhy. unfold rollFile. destruct (Z.ltb_spec (lastRoll_ s) now'); cbn [snd].
  - rewrite Hfile. split; [|cbn; lia]. split; cbn; [done|lia|by left|].
    unfold next_opens. cbn. rewrite fmap_app. cbn. rewrite next_opens_snoc. apply Forall2_app; [done|]. by constructor.
  - split; [|lia]. split; [done|lia|done|done].
Qed.

(** An append that only counts, or one that checks the day and the flush
    interval: [rollFile] does at once what a check would do. *)
Definition checked (c : config) (now : Z) (s : t) : Prop :=
  day now <= day (lastRoll_ s) /\ now - lastFlush_ s <= Z.max 0 (flushInterval_ c).
Definition counted (s s' : t) : Prop :=
  count_ s' = i32 (count_ s + 1) /\ lastRoll_ s' = lastRoll_ s /\ lastFlush_ s' = lastFlush_ s.

Lemma append_step_policy c now0 now now' lines groups s f f1 s' :
  inv now0 lines groups s f -> policy c now0 s -> now0 <= now -> now <= now' ->
  FileUtil.writtenBytes_ f1 = zlen (file_bytes f1) -> append_step c now now' s f1 s' ->
  policy c now' s' /\ lastRoll_ s <= lastRoll_ s' /\ lastFlush_ s <= lastFlush_ s' /\ (checked c now s' \/ counted s s').
Proof.
  intros Hinv Hpol H1 H2 Hw Hst. pose proof (inv_period _ _ _ _ _ Hinv) as Hp.
  pose proof (inv_time _ _ _ _ _ Hinv) as Ht. pose proof Hpol as [Hc Hf Hfl Hr].
  assert (forall s1, lastRoll_ s1 = lastRoll_ s -> lastFlush_ s1 = lastFlush_ s -> closed s1 = closed s ->
    flushes s1 = flushes s -> (0 < checkEveryN_ c < 2 ^ 31 -> 0 <= count_ s1 < checkEveryN_ c) -> policy c now0 s1) as Hsame.
  { intros s1 E1 E2 E3 E4 Hc1. split; unfold next_opens; rewrite ?E1, ?E2, ?E3, ?E4; done. }
  assert (forall s1, lastRoll_ s1 = lastRoll_ s -> policy c now0 s1 -> file_ s1 = Some f1 -> lastFlush_ s1 = lastFlush_ s ->
    rolled_for c (lastRoll_ s, f1) now' ->
    let s' := snd (rollFile c now' s1) in
    policy c now' s' /\ lastRoll_ s <= lastRoll_ s' /\ lastFlush_ s <= lastFlush_ s' /\ (checked c now s' \/ counted s s')) as Hroll.
  { intros s1 E1 Hp1 Ef1 E2 Hwhy. destruct (rollFile_policy c now0 now' s1 f1) as [Hp' Hl]; [done|lia|done|by rewrite E1|].
    pose proof (policy_flush _ _ _ Hp'). cbn zeta. rewrite E1 in Hl. split; [done|]. split; [lia|]. split; [lia|].
    left. split; [|lia]. apply day_le. lia. }
  destruct Hst as [Hbig|Hsmall Hcnt|Hsmall Hday|Hsmall Hday|Hsmall Hday Hrec].
  - apply Hroll; [done|by apply Hsame|done|done|]. left. cbn. lia.
  - split.
    { destruct (Hsame (set_count (i32 (count_ s + 1)) (set_file f1 s))) as [A1 A2 A3 A4]; try done.
      { cbn. intros HN. specialize (Hc HN). split; [|done]. unfold i32; rewrite swrap_small by (unfold srange; lia); lia. }
      split; [done|lia|done|done]. }
    split; [cbn; lia|]. split; [cbn; lia|]. by right.
  - apply Hroll; [done|apply Hsame; try done; cbn; lia|done|done|]. right. cbn. intros E.
    apply Hday. rewrite Hp. f_equal. fold (day now) (day (lastRoll_ s)).
    pose proof (day_le (lastRoll_ s) now ltac:(lia)). pose proof (day_le now now' ltac:(lia)). lia.
  - split; [split; cbn; [lia|lia|right; apply elem_of_app; right; by apply list_elem_of_singleton|done]|]. split; [cbn; lia|]. split; [cbn; lia|]. left. split; cbn; [|lia].
    rewrite Hp in Hday. apply Z.mul_reg_r in Hday; [unfold day; lia|done].
  - split; [split; cbn; [lia|lia|done|done]|]. split; [cbn; lia|]. split; [cbn; lia|]. left. split; cbn; [|lia].
    rewrite Hp in Hday. apply Z.mul_reg_r in Hday; [unfold day; lia|done].
Qed.

Definition log_ok (c : config) (now : Z) (lines : list bytes) (s : t) : Prop :=
  exists groups f, inv now lines groups s f /\ size_ok c now s f /\ policy c now s.

Lemma log_append_ok c line now0 now now' lines s :
  log_ok c now0 lines s -> now0 <= now -> now <= now' -> zlen (mjoin lines) + zlen line < 2 ^ 63 ->
  exists s', append c (S (length line)) line now now' s = Ok s' /\ log_ok c now' (lines ++ [line]) s' /\
    lastRoll_ s <= lastRoll_ s' /\ lastFlush_ s <= lastFlush_ s' /\ (checked c now s' \/ counted s s').
Proof.
  intros (groups&f&Hinv&Hsz&Hpol) H1 H2 Hmax. pose proof Hinv as [Hf (g&Hl&Hb&Hg) Hw Hs Hp Ht].
  destruct (file_append_ok line f Hw) as (f1&E&Hb1&Hw1).
  { rewrite Hb. subst lines. rewrite join_app, zlen_app in Hmax. pose proof (zlen_nonneg (mjoin (mjoin groups))). lia. }
  destruct (append_cases c line now now' s f f1 Hf E) as (s'&Hex&Hst). exists s'. split; [done|].
  destruct (append_step_policy _ _ _ _ _ _ _ _ _ _ Hinv Hpol H1 H2 Hw1 Hst) as (Hpol'&Hc).
  destruct (append_step_inv _ _ _ _ _ _ _ _ _ _ _ Hinv H1 H2 Hb1 Hw1 Hst) as (groups'&f'&Hinv'&Hsz').
  split; [|done]. by exists groups', f'.
Qed.

Lemma append_all_ok c l : forall now lines s,
  log_ok c now lines s -> clock_ok now l -> zlen (mjoin lines) + zlen (mjoin l.*1.*1) < 2 ^ 63 ->
  exists s', append_all c l s = Ok s' /\ log_ok c (clock_end now l) (lines ++ l.*1.*1) s' /\
    lastRoll_ s <= lastRoll_ s' /\ lastFlush_ s <= lastFlush_ s' /\
    ((exists x, x ∈ l /\ day x.1.2 <= day (lastRoll_ s') /\ x.1.2 - lastFlush_ s' <= Z.max 0 (flushInterval_ c)) \/
     (0 < checkEveryN_ c < 2 ^ 31 -> count_ s' = count_ s + zlen l)).
Proof.
  induction l as [|[[line n1] n2] l IH]; intros now lines s Hok Hc Hmax.
  { exists s. cbn. rewrite app_nil_r. split_and!; try done. right. intros. zlia. }
  destruct Hc as (Hc1&Hc2&Hc3).
  assert (zlen (mjoin ((line, n1, n2) :: l).*1.*1) = zlen line + zlen (mjoin l.*1.*1)) as El by apply zlen_app.
  destruct (log_append_ok c line now n1 n2 lines s Hok Hc1 Hc2) as (s1&E&Hok1&Hr1&Hf1&Hor1).
  { pose proof (zlen_nonneg (mjoin l.*1.*1)). lia. }
  destruct (IH n2 (lines ++ [line]) s1 Hok1 Hc3) as (s'&E'&Hok'&Hr'&Hf'&Hor').
  { rewrite join_app, zlen_app. cbn. rewrite app_nil_r. lia. }
  assert (0 < lastRoll_ s1) as Hpos by (destruct Hok1 as (?&?&[]&_); lia).
  exists s'. split; [unfold append_all in *; cbn [foldM]; rewrite E; exact E'|].
  cbn [clock_end fmap list_fmap fst]. rewrite <-app_assoc in Hok'. split; [exact Hok'|]. split; [lia|]. split; [lia|].
  destruct Hor' as [(x&Hx&Hd&Hfx)|Hcnt]; [left; exists x; split_and!; [by right|done|done]|].
  destruct Hor1 as [[Hd Hfx]|(Hcnt1&_)].
  - left. exists (line, n1, n2). split; [left|]. cbn. split; [|lia]. pose proof (day_le (lastRoll_ s1) (lastRoll_ s')). lia.
  - right. intros HN. rewrite (Hcnt HN), Hcnt1, zlen_cons. destruct Hok as (_&_&_&_&Hpol).
    pose proof (policy_count _ _ _ Hpol HN). unfold i32; rewrite swrap_small by (unfold srange; lia); lia.
Qed.

(** Within [checkEveryN_] appends there is a check, or a roll. *)
Lemma appends_checked c l now lines s s' :
  log_ok c now lines s -> clock_ok now l -> zlen (mjoin lines) + zlen (mjoin l.*1.*1) < 2 ^ 63 ->
  append_all c l s = Ok s' -> 0 < checkEveryN_ c < 2 ^ 31 -> checkEveryN_ c <= zlen l ->
  exists x, x ∈ l /\ day x.1.2 <= day (lastRoll_ s') /\ x.1.2 - lastFlush_ s' <= Z.max 0 (flushInterval_ c).
Proof.
  intros Hok Hc Hmax E HN Hlen. destruct (append_all_ok c l now lines s Hok Hc Hmax) as (s1&E1&Hok1&_&_&Hor).
  rewrite E in E1. injection E1 as <-. destruct Hor as [?|Hcnt]; [done|]. specialize (Hcnt HN).
  destruct Hok as (_&_&_&_&Hpol), Hok1 as (_&_&_&_&Hpol1).
  pose proof (policy_count _ _ _ Hpol HN). pose proof (policy_count _ _ _ Hpol1 HN). lia.
Qed.

Lemma log_new_ok c now :
  Forall (fun b => b <> 47) (basename_ c) -> 0 < now -> exists s, new_ c now = Ok s /\ log_ok c now [] s.
Proof.
  intros Hbase Hnow. set (f := FileUtil.open_append (fopen (getLogFileName (basename_ c) now))).
  exists (mk 0 (Z.quot now kRollPerSeconds_ * kRollPerSeconds_) now now (Some f) [] []). split.
  { unfold new_. rewrite find_idx_none, Z.eqb_refl by done. cbn [massert mbind outcome_bind]. unfold rollFile.
    cbn [lastRoll_]. destruct (Z.ltb_spec 0 now); [done|lia]. }
  exists [], f. split; [|split; [done|split; cbn; [lia|lia|by left|constructor]]].
  split; cbn; [done| | |repeat constructor|done|lia].
  - exists []. split; [done|]. split; [apply fopen_empty|done].
  - unfold file_bytes. cbn. by rewrite fopen_empty.
Qed.
End LogFile.
Arguments t : clear implicits.

(** * Property *)

(** C17: A log file loses, splits and reorders no line, and rolls when it
    should.  With streams that do not fail, new files that start empty and a clock
    that does not go back, the constructor and any sequence of appends succeed;
    the files that were closed and the current one, in the order they were
    opened, hold the lines in the order of the appends, every line whole within
    one file; the files' opening times, which are part of their names, strictly
    increase, and [startOfPeriod_] is the day of the last roll.  A file is
    closed only because it was larger than [rollSize_] or because the next one
    is opened on another day; the current file is larger than [rollSize_] only
    while the second it was opened in lasts; and after any [checkEveryN_]
    appends in a row made on day [d] or later the current file is of day [d] or
    later, and if they were made at time [T] or later, a file was opened or
    flushed no earlier than [flushInterval_] seconds before [T]. *)
Theorem log_file_keeps_lines {F} `{!Stdio F} `{!StdioLaws F} fopen gmtime_r hostname pid
    (c : config) (now : Z) (l : list (bytes * Z * Z)) :
  (forall f : F, ferror f = 0) -> (forall n, stream_bytes (fopen n) = []) ->
  Forall (fun b => b <> 47) (basename_ c) -> 0 < now -> clock_ok now l -> zlen (mjoin l.*1.*1) < 2 ^ 63 ->
  exists s0 s f groups g,
    new_ fopen gmtime_r hostname pid c now = Ok s0 /\ append_all fopen gmtime_r hostname pid c l s0 = Ok s /\
    file_ s = Some f /\ mjoin groups ++ g = l.*1.*1 /\
    file_bytes <$> (closed s).*2 = mjoin <$> groups /\ file_bytes f = mjoin g /\
    StronglySorted Z.lt ((closed s).*1 ++ [lastRoll_ s]) /\ lastRoll_ s <= clock_end now l /\
    startOfPeriod_ s = Z.quot (lastRoll_ s) kRollPerSeconds_ * kRollPerSeconds_ /\
    (rollSize_ c < zlen (file_bytes f) -> lastRoll_ s = clock_end now l) /\
    Forall2 (rolled_for c) (closed s) (next_opens s) /\
    forall l1 l2, l = l1 ++ l2 -> 0 < checkEveryN_ c < 2 ^ 31 -> checkEveryN_ c <= zlen l2 ->
      (forall d, Forall (fun x : bytes * Z * Z => d <= day x.1.2) l2 -> d * kRollPerSeconds_ <= startOfPeriod_ s) /\
      (forall T, Forall (fun x : bytes * Z * Z => T <= x.1.2) l2 ->
        exists u, T - Z.max 0 (flushInterval_ c) <= u /\ (u = lastRoll_ s \/ u ∈ flushes s)).
Proof.
  intros Hrel Hopen Hbase Hnow Hclock Hmax.
  destruct (log_new_ok fopen gmtime_r hostname pid Hopen c now Hbase Hnow) as (s0&E0&Hok0).
  destruct (append_all_ok fopen gmtime_r hostname pid Hrel Hopen c l now [] s0 Hok0 Hclock Hmax) as (s&E&Hok&_).
  destruct Hok as (groups&f&[Hf (g&Hl&Hb&Hg) Hw Hs Hp Ht]&Hz&Hpol). exists s0, s, f, groups, g. rewrite <-Hw.
  repeat (split; [done|]). split; [lia|]. split; [done|]. split; [done|]. split; [apply Hpol|].
  intros l1 l2 -> HN Hlen. apply clock_ok_app in Hclock as [Hc1 Hc2].
  assert (zlen (mjoin (l1 ++ l2).*1.*1) = zlen (mjoin l1.*1.*1) + zlen (mjoin l2.*1.*1)) as El
    by (rewrite !fmap_app, join_app; apply zlen_app).
  pose proof (zlen_nonneg (mjoin l2.*1.*1)). unfold append_all in E. rewrite foldM_app in E. apply bind_ok in E as (s1&E1&E2).
  destruct (append_all_ok fopen gmtime_r hostname pid Hrel Hopen c l1 now [] s0 Hok0 Hc1) as (s1'&E1'&Hok1&_); [change (0 + zlen (mjoin l1.*1.*1) < 2 ^ 63); lia|].
  unfold append_all in E1'. rewrite E1 in E1'. injection E1' as <-.
  destruct (appends_checked fopen gmtime_r hostname pid Hrel Hopen c l2 _ ([] ++ l1.*1.*1) s1 s Hok1 Hc2 ltac:(cbn [app]; lia) E2 HN Hlen) as (x&Hx&Hd&Hfl).
  split.
  - intros d Hall. rewrite Forall_forall in Hall. specialize (Hall x Hx). rewrite Hp. fold (day (lastRoll_ s)).
    apply Z.mul_le_mono_nonneg_r; [done|lia].
  - intros T Hall. rewrite Forall_forall in Hall. specialize (Hall x Hx). exists (lastFlush_ s). split; [lia|].
    apply (policy_flushed _ _ _ Hpol).
Qed.

(** A stream that takes at most five bytes per call and does not fail. *)
Record chunk_stream := mkchunk { chunk_bytes : bytes }.
#[export] Instance chunk_stdio : Stdio chunk_stream := {|
  stream_bytes := chunk_bytes;
  fwrite d f := let n := Z.min 5 (zlen d) in (n, mkchunk (chunk_bytes f ++ ztake n d));
  ferror f := 0
|}.
#[export] Instance chunk_stdio_laws : StdioLaws chunk_stream.
Proof.
  split. intros d f. cbn -[Z.min]. pose proof (zlen_nonneg d). split; [lia|]. split; [done|].
  intros E Hd. destruct d; [done|]. rewrite zlen_cons in E. pose proof (zlen_nonneg d). lia.
Qed.
(** Seven lines: a roll by size one line late (the file is of the same second
    first), one at the beginning of a day, and an oversized file at the end. *)
Definition witness_gmtime (t : Z) : tm := mktm (t `mod` 60) ((t `div` 60) `mod` 60) ((t `div` 3600) `mod` 24) 1 0 70 4 0 0.
Definition witness_config : config := mkconfig (lit "app") 12 3 2.
Definition witness_lines : list (bytes * Z * Z) :=
  [(lit "first line", 86390, 86390); (lit "second", 86390, 86390); (lit "third", 86391, 86391);
   (lit "fourth", 86395, 86395); (lit "a", 86399, 86399); (lit "b", 86401, 86401); (lit "a long seventh line", 86401, 86401)].
Lemma log_file_keeps_lines_witness :
  exists s0 s,
    new_ (fun _ => mkchunk []) witness_gmtime (lit "host") 42 witness_config 86390 = Ok s0 /\
    append_all (fun _ => mkchunk []) witness_gmtime (lit "host") 42 witness_config witness_lines s0 = Ok s /\
    StronglySorted Z.lt ((closed s).*1 ++ [lastRoll_ s]) /\ lastRoll_ s = 86401 /\
    file_bytes <$> (closed s).*2 = [lit "first linesecondthird"; lit "fourthab"].
Proof.
  destruct (log_file_keeps_lines (F := chunk_stream) (fun _ => mkchunk []) witness_gmtime (lit "host") 42
    witness_config 86390 witness_lines) as (s0&s&f&groups&g&E0&E&Hf&Hl&Hg&Hb&Hs&Ht&Hp&Hr&Hwhy&Hchk).
  - intros f. reflexivity.
  - intros n. reflexivity.
  - apply (bool_decide_unpack _). vm_compute. exact I.
  - lia.
  - vm_compute. repeat split; discriminate.
  - vm_compute. reflexivity.
  - exists s0, s. split; [exact E0|]. split; [exact E|]. split; [exact Hs|].
    vm_compute in E0. injection E0 as <-. vm_compute in E. injection E as <-. split; reflexivity.
Defined.
End LogFile.
