(* ===== verification/BaseAsyncLogging.v ===== *)
(** src/muduo/base/AsyncLogging.h and AsyncLogging.cc: threads append lines to
    large buffers; a back-end thread takes the full ones, or all there is when
    [flushInterval_] passes, and writes them to a LogFile.

    The front end's [append] is one step under the mutex.  The back end's steps
    are the test of [running_], the critical section (cut in two by the wait,
    which a notify, the timeout or a spurious wake-up ends), and the writing,
    which only uses the back end's own variables.  [output] lists what is done
    to the LogFile; [ODrop] is a ghost: the buffers the back end throws away.
    A null [BufferPtr] is [None], using it is [Undefined]. *)

From S2P Require Import Prelude BaseTimestamp BaseLogStream.

Module AsyncLogging.
Import LogStream.

Abbreviation BufferPtr := (option FixedBuffer).

Inductive out :=
| OBuffer (text : bytes)
| ONotice (text : bytes)
| ODrop (texts : list bytes)
| OFlush.

Inductive pc := NotStarted | Top | Enter | Waiting | Writing | Finished.
#[export] Instance pc_eq_dec : EqDecision pc.
Proof. solve_decision. Defined.

Record t := mk {
  running_ : bool;
  started_ : bool;
  joined_ : bool;
  currentBuffer_ : BufferPtr;
  nextBuffer_ : BufferPtr;
  buffers_ : list BufferPtr;
  newBuffer1 : BufferPtr;
  newBuffer2 : BufferPtr;
  buffersToWrite : list BufferPtr;
  output : list out;
  at_ : pc
}.

Definition set_front cur next bufs (s : t) : t :=
  mk (running_ s) (started_ s) (joined_ s) cur next bufs (newBuffer1 s) (newBuffer2 s) (buffersToWrite s) (output s) (at_ s).
Definition set_back n1 n2 btw (s : t) : t :=
  mk (running_ s) (started_ s) (joined_ s) (currentBuffer_ s) (nextBuffer_ s) (buffers_ s) n1 n2 btw (output s) (at_ s).
Definition set_at p (s : t) : t :=
  mk (running_ s) (started_ s) (joined_ s) (currentBuffer_ s) (nextBuffer_ s) (buffers_ s)
     (newBuffer1 s) (newBuffer2 s) (buffersToWrite s) (output s) p.
Definition emit o (s : t) : t :=
  mk (running_ s) (started_ s) (joined_ s) (currentBuffer_ s) (nextBuffer_ s) (buffers_ s)
     (newBuffer1 s) (newBuffer2 s) (buffersToWrite s) (output s ++ o) (at_ s).

Definition deref (p : BufferPtr) : outcome FixedBuffer :=
  match p with Some b => Ok b | None => Err (Undefined "null BufferPtr") end.

Section AsyncLogging.
(** [size] is kLargeBuffer in the source. *)
Context (size : Z) (gmtime_r : Z -> tm).

Definition new_buffer : FixedBuffer := mkbuf (replicate (Z.to_nat size) 0) 0.

Definition new_ : t :=
  mk false false false (Some (bzero new_buffer)) (Some (bzero new_buffer)) [] None None [] [] NotStarted.

(** * The front end *)

Definition append (logline : bytes) (s : t) : outcome t :=
  cur ← deref (currentBuffer_ s);
  if zlen logline <? avail cur
  then
    cur ← LogStream.append logline cur;
    Ok (set_front (Some cur) (nextBuffer_ s) (buffers_ s) s)
  else
    let buffers := buffers_ s ++ [Some cur] in
    let '(cur, next) :=
      match nextBuffer_ s with
      | Some b => (b, None)
      | None => (new_buffer, None)
      end in
    cur ← LogStream.append logline cur;
    Ok (set_front (Some cur) next buffers s).

(** The new thread counts the latch down before [start] returns. *)
Definition start (s : t) : outcome t :=
  massert (negb (started_ s)) "!started_";;
  Ok (mk true true (joined_ s) (currentBuffer_ s) (nextBuffer_ s) (buffers_ s)
         (Some (bzero new_buffer)) (Some (bzero new_buffer)) [] (output s) Top).
(** [stop] up to the wait in join(). *)
Definition stop (s : t) : outcome t :=
  massert (started_ s) "started_";;
  massert (negb (joined_ s)) "!joined_";;
  Ok (mk false (started_ s) true (currentBuffer_ s) (nextBuffer_ s) (buffers_ s)
         (newBuffer1 s) (newBuffer2 s) (buffersToWrite s) (output s) (at_ s)).

(** * The back end: [threadFunc] *)

Definition is_empty (p : BufferPtr) : bool := match p with Some b => length_ b =? 0 | None => false end.

(** The loop test and the assertions at the top of the body. *)
Definition loop_top (s : t) : outcome t :=
  if running_ s
  then
    massert (is_empty (newBuffer1 s)) "newBuffer1 && newBuffer1->length() == 0";;
    massert (is_empty (newBuffer2 s)) "newBuffer2 && newBuffer2->length() == 0";;
    massert (bool_decide (buffersToWrite s = [])) "buffersToWrite.empty()";;
    Ok (set_at Enter s)
  else Ok (set_at Finished (emit [OFlush] s)).

(** The critical section after the wait. *)
Definition swap_buffers (s : t) : t :=
  let buffers := buffers_ s ++ [currentBuffer_ s] in
  let '(next, n2) :=
    match nextBuffer_ s with
    | None => (newBuffer2 s, None)
    | Some b => (Some b, newBuffer2 s)
    end in
  set_at Writing (set_back None n2 buffers (set_front (newBuffer1 s) next (buffersToWrite s) s)).
Definition enter (s : t) : t :=
  match buffers_ s with
  | [] => set_at Waiting s
  | _ :: _ => swap_buffers s
  end.

Definition texts (l : list BufferPtr) : outcome (list bytes) :=
  foldM (fun acc p => b ← deref p; Ok (acc ++ [toString b])) [] l.

Definition notice (now : Timestamp.t) (n : Z) : bytes :=
  snprintf 256 (lit "Dropped log messages at " ++ Timestamp.toFormattedString gmtime_r true now ++ lit ", " ++
                fmt_d (n - 2) ++ lit " larger buffers" ++ [10]).

(** Also the texts of the buffers thrown away. *)
Definition drop_old (now : Timestamp.t) (s : t) : outcome (t * list bytes) :=
  massert (negb (bool_decide (buffersToWrite s = []))) "!buffersToWrite.empty()";;
  if 25 <? zlen (buffersToWrite s)
  then
    lost ← texts (zdrop 2 (buffersToWrite s));
    Ok (set_back (newBuffer1 s) (newBuffer2 s) (ztake 2 (buffersToWrite s))
          (emit [ONotice (notice now (zlen (buffersToWrite s)))] s), lost)
  else Ok (s, []).

Definition write_buffers (s : t) : outcome t :=
  l ← texts (buffersToWrite s); Ok (emit (OBuffer <$> l) s).

(** [newBuffer = std::move(buffersToWrite.back()); pop_back(); reset()] *)
Definition take_back (l : list BufferPtr) : outcome (BufferPtr * list BufferPtr) :=
  massert (negb (bool_decide (l = []))) "!buffersToWrite.empty()";;
  b ← deref (default None (last l));
  Ok (Some (reset b), removelast l).
Definition recycle (s : t) : outcome t :=
  let btw := if 2 <? zlen (buffersToWrite s) then ztake 2 (buffersToWrite s) else buffersToWrite s in
  '(n1, btw) ← match newBuffer1 s with Some b => Ok (Some b, btw) | None => take_back btw end;
  '(n2, btw) ← match newBuffer2 s with Some b => Ok (Some b, btw) | None => take_back btw end;
  Ok (emit [OFlush] (set_back n1 n2 [] s)).

(** The body after the critical section. *)
Definition write (now : Timestamp.t) (s : t) : outcome t :=
  '(s, lost) ← drop_old now s;
  s ← write_buffers s;
  s ← recycle (match lost with [] => s | _ => emit [ODrop lost] s end);
  Ok (set_at Top s).

Definition back (now : Timestamp.t) (s : t) : outcome t :=
  match at_ s with
  | Top => loop_top s
  | Enter => Ok (enter s)
  | Waiting => Ok (swap_buffers s)
  | Writing => write now s
  | NotStarted | Finished => Ok s
  end.

Inductive event := Append (logline : bytes) | Start | Stop | Back (now : Timestamp.t).
Definition exec (s : t) (e : event) : outcome t :=
  match e with
  | Append logline => append logline s
  | Start => start s
  | Stop => stop s
  | Back now => back now s
  end.
Definition run (s : t) (es : list event) : outcome t := foldM exec s es.

(** * Invariant *)

(** Start once, then stop at most once: [0] not started, [1] running, [2]
    stopped. *)
Fixpoint client_ok (state : Z) (es : list event) : bool :=
  match es with
  | [] => true
  | Start :: es' => (state =? 0) && client_ok 1 es'
  | Stop :: es' => (state =? 1) && client_ok 2 es'
  | _ :: es' => client_ok state es'
  end.
(** The lines appended, less those longer than a buffer. *)
Definition lines_of (e : event) : list bytes :=
  match e with Append l => if zlen l <? size then [l] else [] | _ => [] end.

Definition text_of (p : BufferPtr) : bytes := match p with Some b => text b | None => [] end.
Definition chunks_of (o : out) : list bytes :=
  match o with OBuffer x => [x] | ODrop l => l | _ => [] end.
Definition out_chunks (s : t) : list bytes := mjoin (chunks_of <$> output s).
(** The buffers on their way, oldest first. *)
Definition chunks (s : t) : list bytes :=
  out_chunks s ++ (text_of <$> buffersToWrite s) ++ (text_of <$> buffers_ s) ++ [text_of (currentBuffer_ s)].

Definition good (b : FixedBuffer) : Prop := zlen (data_ b) = size /\ wf b.
Definition full_ptr (p : BufferPtr) : Prop := exists b, p = Some b /\ good b.
Definition fresh_ptr (p : BufferPtr) : Prop := exists b, p = Some b /\ good b /\ cur_ b = 0.

(** Every chunk is made of whole lines. *)
Definition grouped (lines chunks : list bytes) : Prop := exists gs, mjoin gs = lines /\ chunks = mjoin <$> gs.

Record inv (lines : list bytes) (s : t) : Prop := {
  inv_current : full_ptr (currentBuffer_ s);
  inv_buffers : Forall full_ptr (buffers_ s);
  inv_next : fresh_ptr (nextBuffer_ s) \/ (nextBuffer_ s = None /\ buffers_ s <> []);
  inv_pc : match at_ s with
    | NotStarted => started_ s = false /\ buffersToWrite s = []
    | Top | Enter | Waiting => fresh_ptr (newBuffer1 s) /\ fresh_ptr (newBuffer2 s) /\ buffersToWrite s = []
    | Writing => newBuffer1 s = None /\ Forall full_ptr (buffersToWrite s) /\ (1 <= length (buffersToWrite s))%nat /\
        (fresh_ptr (newBuffer2 s) \/ (newBuffer2 s = None /\ (2 <= length (buffersToWrite s))%nat))
    | Finished => buffersToWrite s = []
    end;
  inv_started : at_ s <> NotStarted -> started_ s = true;
  inv_chunks : grouped lines (chunks s);
  inv_drops : forall l, ODrop l ∈ output s ->
    (23 < length l)%nat /\ exists now, ONotice (notice now (zlen l + 2)) ∈ output s
}.
Definition client_state (state : Z) (s : t) : Prop :=
  started_ s = negb (state =? 0) /\ joined_ s = (state =? 2) /\ (state <> 0 -> at_ s <> NotStarted) /\
  running_ s = (state =? 1).

Context (Hsize : 0 < size < 2 ^ 31).

Lemma new_buffer_good : good new_buffer.
Proof. unfold good, wf, new_buffer. cbn. unfold zlen. rewrite length_replicate. lia. Qed.
Lemma bzero_good b : good b -> good (bzero b).
Proof. unfold good, wf, bzero, zlen. cbn. rewrite length_replicate. done. Qed.
Lemma fresh_new : fresh_ptr (Some (bzero new_buffer)).
Proof. eexists. split; [done|]. split; [|done]. apply bzero_good, new_buffer_good. Qed.
Lemma fresh_full p : fresh_ptr p -> full_ptr p.
Proof. intros (b&->&Hg&_). by exists b. Qed.
Lemma fresh_text p : fresh_ptr p -> text_of p = [].
Proof. intros (b&->&Hg&E). cbn. unfold text. by rewrite E, ztake_0. Qed.
Lemma fresh_is_empty p : fresh_ptr p -> is_empty p = true.
Proof. intros (b&->&Hg&E). cbn. unfold length_. by rewrite E. Qed.
Lemma good_reset b : good b -> good (reset b).
Proof. unfold good, wf, reset. cbn. lia. Qed.
Lemma good_toString b : good b -> toString b = text b.
Proof.
  intros (Hs&Hc&_). unfold toString, length_, text. f_equal. apply swrap_small; [lia|]. unfold srange. lia.
Qed.

Lemma texts_ok l : Forall full_ptr l -> texts l = Ok (text_of <$> l).
Proof.
  intros Hl. unfold texts.
  enough (forall acc, foldM (fun acc p => b ← deref p; Ok (acc ++ [toString b])) acc l = Ok (acc ++ (text_of <$> l)))
    as Hacc by apply Hacc.
  induction Hl as [|p l (b&->&Hg) Hl IH]; intros acc; cbn [foldM]; [by rewrite app_nil_r|].
  cbn [deref mbind outcome_bind]. rewrite IH. by rewrite <-app_assoc, good_toString.
Qed.

Lemma append_good line b : good b ->
  exists b', LogStream.append line b = Ok b' /\ good b' /\
    text b' = if zlen line <? avail b then text b ++ line else text b.
Proof.
  intros (Hs&Hw). destruct (append_fixed_ok line b Hw) as (b'&E&Hw'&Hl&Ht&_). exists b'. rewrite (avail_wf b Hw).
  split; [done|]. split; [|done]. split; [congruence|done].
Qed.
Lemma avail_fresh b : good b -> cur_ b = 0 -> avail b = size.
Proof. intros (Hs&Hw) E. rewrite (avail_wf b Hw). lia. Qed.

(** A line at the end of the last chunk, and a new last chunk. *)
Lemma grouped_extend lines cs x line : grouped lines (cs ++ [x]) -> grouped (lines ++ [line]) (cs ++ [x ++ line]).
Proof.
  intros (gs&<-&E). destruct gs as [|g gs _] using rev_ind; [by destruct cs|].
  rewrite fmap_app in E. apply app_inj_tail in E as [-> ->]. exists (gs ++ [g ++ [line]]).
  rewrite !join_app, fmap_app. cbn. rewrite !app_nil_r, join_app. cbn. by rewrite app_nil_r, <-app_assoc.
Qed.
Lemma grouped_new lines cs : grouped lines cs -> grouped lines (cs ++ [[]]).
Proof.
  intros (gs&<-&->). exists (gs ++ [[]]). rewrite join_app, fmap_app. cbn. by rewrite app_nil_r.
Qed.

(** * Every step keeps the invariant *)

Lemma append_inv lines line s : inv lines s ->
  exists s', append line s = Ok s' /\ inv (lines ++ lines_of (Append line)) s' /\
    at_ s' = at_ s /\ running_ s' = running_ s /\ started_ s' = started_ s /\ joined_ s' = joined_ s.
Proof.
  intros [(cur&Ec&Hcur) Hb Hn Hp Hst Hch Hd]. unfold append. rewrite Ec. cbn [deref mbind outcome_bind].
  assert (avail cur <= size) as Hav by (destruct Hcur as (Hs&Hw); rewrite (avail_wf cur Hw); destruct Hw; lia).
  unfold chunks in Hch. rewrite Ec in Hch. cbn [text_of] in Hch. cbn [lines_of].
  destruct (append_good line cur Hcur) as (cur'&E&Hcur'&Ht).
  destruct (Z.ltb_spec (zlen line) (avail cur)) as [Hlt|Hge].
  { rewrite E. eexists. split; [done|]. split; [|done]. destruct (Z.ltb_spec (zlen line) size); [|lia].
    split; cbn; [by exists cur'|done|done|done|done| |done].
    unfold chunks, out_chunks. cbn. rewrite Ht. rewrite !app_assoc in *. by apply grouped_extend. }
  set (next := match nextBuffer_ s with Some b => (b, None) | None => (new_buffer, None) end).
  assert (exists b, next = (b, None) /\ good b /\ cur_ b = 0) as (b&->&Hgb&Hb0).
  { unfold next. destruct Hn as [(b&->&Hg&E0)|(->&_)]; [by exists b|]. exists new_buffer. split; [done|].
    split; [apply new_buffer_good|done]. }
  destruct (append_good line b Hgb) as (b'&Eb&Hgb'&Htb). rewrite Eb. cbn. eexists. split; [done|]. split; [|done].
  assert (grouped lines ((out_chunks s ++ (text_of <$> buffersToWrite s) ++ (text_of <$> buffers_ s) ++ [text cur]) ++ [[]])) as Hg
    by by apply grouped_new.
  split; cbn; [by exists b'| | |done|done| |done].
  - apply Forall_app. split; [done|]. repeat constructor. by exists cur.
  - right. split; [done|]. by destruct (buffers_ s).
  - unfold chunks, out_chunks. cbn. rewrite Htb, avail_fresh by done.
    assert (text b = []) as Htx by (apply (fresh_text (Some b)); by exists b). rewrite Htx. cbn [app].
    rewrite fmap_app. cbn. rewrite !app_assoc in *. destruct (zlen line <? size); [exact (grouped_extend _ _ _ line Hg)|].
    by rewrite app_nil_r.
Qed.

Lemma swap_inv lines s : inv lines s -> at_ s = Enter \/ at_ s = Waiting -> inv lines (swap_buffers s).
Proof.
  intros [Hc Hb Hn Hp Hst Hch Hd] Hat.
  assert (fresh_ptr (newBuffer1 s) /\ fresh_ptr (newBuffer2 s) /\ buffersToWrite s = []) as (H1&H2&H3)
    by (by destruct Hat as [E|E]; rewrite E in Hp).
  assert (grouped lines ((out_chunks s ++ (text_of <$> buffers_ s) ++ [text_of (currentBuffer_ s)]) ++ [[]])) as Hg.
  { apply grouped_new. unfold chunks in Hch. by rewrite H3 in Hch. }
  assert (Forall full_ptr (buffers_ s ++ [currentBuffer_ s])) as Hall by (apply Forall_app; by repeat constructor).
  assert (started_ s = true) as Hs by (apply Hst; by destruct Hat as [E|E]; rewrite E).
  unfold swap_buffers. destruct (nextBuffer_ s) as [b|] eqn:En.
  all: split; cbn; [by apply fresh_full|by rewrite H3| | |done| |done].
  - left. destruct Hn as [Hn|[? _]]; [done|done].
  - split; [done|]. split; [done|]. split; [rewrite length_app; cbn; lia|by left].
  - unfold chunks, out_chunks. cbn. rewrite H3, (fresh_text _ H1), fmap_app. cbn.
    unfold out_chunks in Hg. by rewrite <-!app_assoc in *.
  - by left.
  - split; [done|]. split; [done|]. rewrite length_app. cbn. split; [lia|]. right. split; [done|].
    destruct Hn as [(?&?&_)|[_ Hne]]; [done|]. destruct (buffers_ s); [done|]. cbn. lia.
  - unfold chunks, out_chunks. cbn. rewrite H3, (fresh_text _ H1), fmap_app. cbn.
    unfold out_chunks in Hg. by rewrite <-!app_assoc in *.
Qed.

Lemma loop_top_inv lines s : inv lines s -> at_ s = Top ->
  let s' := if running_ s then set_at Enter s else set_at Finished (emit [OFlush] s) in
  loop_top s = Ok s' /\ inv lines s'.
Proof.
  intros [Hc Hb Hn Hp Hst Hch Hd] Hat. unfold loop_top. rewrite Hat in *. destruct Hp as (H1&H2&H3).
  specialize (Hst ltac:(done)). destruct (running_ s); cbn zeta.
  - rewrite (fresh_is_empty _ H1), (fresh_is_empty _ H2), bool_decide_eq_true_2 by done. split; [done|]. by split.
  - split; [done|]. split; cbn; try done.
    + unfold chunks, out_chunks in *. cbn. rewrite fmap_app, join_app. cbn. by rewrite app_nil_r.
    + intros l [Hl|Hl%list_elem_of_singleton]%elem_of_app; [|done]. destruct (Hd l Hl) as (Hlen&now&Hnow).
      split; [done|]. exists now. apply elem_of_app. by left.
Qed.

Lemma take_back_ok (l : list BufferPtr) : Forall full_ptr l -> l <> [] ->
  exists p, take_back l = Ok (p, removelast l) /\ fresh_ptr p.
Proof.
  intros Hl Hne. unfold take_back. rewrite bool_decide_eq_false_2 by done. cbn [negb massert mbind outcome_bind].
  destruct l as [|p l _] using rev_ind; [done|]. apply Forall_app in Hl as [_ Hp]. apply Forall_singleton in Hp as (b&->&Hg). rewrite last_snoc. cbn. eexists. split; [done|]. exists (reset b). split; [done|].
  split; [by apply good_reset|done].
Qed.
Lemma Forall_removelast {A} (P : A -> Prop) l : Forall P l -> Forall P (removelast l).
Proof.
  destruct l as [|x l _] using rev_ind; [done|]. intros [? _]%Forall_app. by rewrite removelast_last.
Qed.

(** The buffers that stay are enough to refill [newBuffer1] and
    [newBuffer2]. *)
Lemma recycle_ok s : newBuffer1 s = None -> Forall full_ptr (buffersToWrite s) -> (1 <= length (buffersToWrite s))%nat ->
  (fresh_ptr (newBuffer2 s) \/ (newBuffer2 s = None /\ (2 <= length (buffersToWrite s))%nat)) ->
  exists n1 n2, recycle s = Ok (emit [OFlush] (set_back n1 n2 [] s)) /\ fresh_ptr n1 /\ fresh_ptr n2.
Proof.
  intros H1 Hf Hlen H2. unfold recycle. rewrite H1.
  set (btw := if 2 <? zlen (buffersToWrite s) then ztake 2 (buffersToWrite s) else buffersToWrite s).
  assert (Forall full_ptr btw /\ (length (buffersToWrite s) `min` 2 <= length btw)%nat) as (Hb&Hbl).
  { unfold btw, zlen, ztake. destruct (Z.ltb_spec 2 (Z.of_nat (length (buffersToWrite s)))); [|split; [done|lia]].
    split; [by apply Forall_take|]. rewrite length_take. lia. }
  destruct (take_back_ok btw Hb) as (p&->&Hp); [intros E; rewrite E in Hbl; cbn in Hbl; lia|]. cbn [mbind outcome_bind].
  destruct H2 as [(b&E2&Hg&H0)|(E2&Hlen2)]; rewrite E2.
  - cbn. exists p, (Some b). split; [done|]. split; [done|]. by exists b.
  - destruct (take_back_ok (removelast btw)) as (q&->&Hq).
    + by apply Forall_removelast.
    + intros E. destruct btw as [|x [|y l]]; cbn in *; [lia|lia|done].
    + exists p, q. done.
Qed.

Lemma drop_old_ok now s : Forall full_ptr (buffersToWrite s) -> (1 <= length (buffersToWrite s))%nat ->
  exists keep notices lost, drop_old now s = Ok (set_back (newBuffer1 s) (newBuffer2 s) keep (emit notices s), lost) /\
    Forall full_ptr keep /\ (length (buffersToWrite s) `min` 2 <= length keep)%nat /\
    text_of <$> buffersToWrite s = (text_of <$> keep) ++ lost /\
    (lost = [] /\ notices = [] \/
     (25 < length (buffersToWrite s) /\ 23 < length lost)%nat /\ notices = [ONotice (notice now (zlen lost + 2))]).
Proof.
  intros Hf Hlen. unfold drop_old. rewrite bool_decide_eq_false_2 by (intros E; rewrite E in Hlen; cbn in Hlen; lia).
  cbn [negb massert mbind outcome_bind]. set (btw := buffersToWrite s) in *.
  destruct (Z.ltb_spec 25 (zlen btw)) as [Hbig|Hsmall].
  - exists (ztake 2 btw), [ONotice (notice now (zlen btw))], (text_of <$> zdrop 2 btw).
    rewrite texts_ok by by apply Forall_drop. unfold zlen, ztake, zdrop in *. split; [done|].
    split; [by apply Forall_take|]. split; [rewrite length_take; lia|]. split; [by rewrite <-fmap_app, take_drop|].
    right. rewrite length_fmap, length_drop. split; [lia|]. by replace (Z.of_nat (length btw - Z.to_nat 2) + 2) with (Z.of_nat (length btw)) by lia.
  - exists btw, [], []. split; [|rewrite app_nil_r; split_and!; try done; [lia|by left]].
    destruct s. unfold emit, set_back, btw. cbn. by rewrite app_nil_r.
Qed.

Lemma emit_emit o1 o2 s : emit o2 (emit o1 s) = emit (o1 ++ o2) s.
Proof. unfold emit at 1 3. cbn. by rewrite app_assoc. Qed.
Lemma emit_set_back o a b c s : emit o (set_back a b c s) = set_back a b c (emit o s).
Proof. done. Qed.
Lemma set_back_set_back a b c a' b' c' s : set_back a b c (set_back a' b' c' s) = set_back a b c s.
Proof. done. Qed.

(** What the back end's output holds after a batch. *)
Definition batch (notices : list out) (keep : list BufferPtr) (lost : list bytes) : list out :=
  notices ++ (OBuffer <$> (text_of <$> keep)) ++ (match lost with [] => [] | _ => [ODrop lost] end) ++ [OFlush].
Lemma batch_chunks notices keep lost :
  mjoin (chunks_of <$> notices) = [] -> mjoin (chunks_of <$> batch notices keep lost) = (text_of <$> keep) ++ lost.
Proof.
  intros Hn. unfold batch. rewrite !fmap_app, !join_app, Hn. cbn [app].
  f_equal; [|destruct lost; cbn; by rewrite ?app_nil_r].
  induction keep as [|p keep IH]; [done|]. cbn. f_equal. exact IH.
Qed.

Lemma write_inv lines now s : inv lines s -> at_ s = Writing ->
  exists n1 n2 o, let s' := set_at Top (set_back n1 n2 [] (emit o s)) in write now s = Ok s' /\ inv lines s' /\
    (forall l, ODrop l ∈ o -> (25 < length (buffersToWrite s))%nat).
Proof.
  intros [Hc Hb Hn Hp Hst Hch Hd] Hat. rewrite Hat in *. destruct Hp as (H1&H2&H3&H4). specialize (Hst ltac:(done)).
  destruct (drop_old_ok now s H2 H3) as (keep&notices&lost&E&Hk&Hkl&Htx&Hor).
  unfold write. rewrite E. cbn [mbind outcome_bind]. unfold write_buffers. cbn [buffersToWrite set_back emit].
  rewrite texts_ok by done. cbn [mbind outcome_bind].
  match goal with |- context [recycle ?s0] => destruct (recycle_ok s0) as (n1&n2&Er&Hn1&Hn2) end.
  { by destruct lost. }
  { by destruct lost. }
  { destruct lost; cbn; lia. }
  { assert (fresh_ptr (newBuffer2 s) \/ (newBuffer2 s = None /\ (2 <= length keep)%nat))
      by (destruct H4 as [H4|[H4 H5]]; [by left|right; split; [done|lia]]). by destruct lost. }
  exists n1, n2, (batch notices keep lost). cbn zeta. split.
  { rewrite Er. cbn [mbind outcome_bind]. unfold batch.
    destruct lost; rewrite ?emit_set_back, ?set_back_set_back, ?emit_emit; by rewrite <-?app_assoc. }
  assert (forall l, ODrop l ∈ batch notices keep lost -> l = lost /\ lost <> []) as Hdrop.
  { intros l Hl. unfold batch in Hl. rewrite !elem_of_app in Hl. destruct Hl as [Hl|[Hl|[Hl|Hl]]].
    - destruct Hor as [[_ ->]|[_ ->]]; [by apply elem_of_nil in Hl|by apply list_elem_of_singleton in Hl].
    - apply list_elem_of_fmap in Hl as (x&?&_). done.
    - destruct lost as [|x lost]; [by apply elem_of_nil in Hl|]. by apply list_elem_of_singleton in Hl as [= ->].
    - by apply list_elem_of_singleton in Hl. }
  assert (mjoin (chunks_of <$> notices) = []) as Hnc by (by destruct Hor as [[_ ->]|[_ ->]]).
  split; [|intros l Hl; apply Hdrop in Hl as [-> Hne]; by destruct Hor as [[? _]|[[? _] _]]].
  split; cbn; try done.
  - unfold chunks, out_chunks in *. cbn. rewrite fmap_app, join_app, batch_chunks, <-Htx by done.
    by rewrite <-!app_assoc in *.
  - intros l [Hl|Hl]%elem_of_app.
    { destruct (Hd l Hl) as (Hlen&now'&Hnow). split; [done|]. exists now'. apply elem_of_app. by left. }
    apply Hdrop in Hl as [-> Hne]. destruct Hor as [[? _]|[[_ Hlen] ->]]; [done|]. split; [done|]. exists now. unfold batch.
    rewrite !elem_of_app. right. left. by apply list_elem_of_singleton.
Qed.

(** The next step of the back end; [dist] bounds the steps to the end of the
    thread after stop(). *)
Definition dist (p : pc) : nat :=
  match p with Enter => 4 | Waiting => 3 | Writing => 2 | Top => 1 | _ => 0 end%nat.
(** After stop(), what stays in the front end's buffers: all of it, unless the
    back end is about to take it. *)
Definition missed (s : t) : bytes :=
  match at_ s with
  | Enter | Waiting => []
  | _ => mjoin (text_of <$> buffers_ s) ++ text_of (currentBuffer_ s)
  end.
(** The buffers of the back end's next batch. *)
Definition batch_size (s : t) : nat :=
  match at_ s with
  | Enter | Waiting => S (length (buffers_ s))
  | Writing => length (buffersToWrite s)
  | _ => 0
  end.
(** A step after stop(). *)
Definition winds_down (s s' : t) : Prop :=
  missed s' = missed s /\ (batch_size s' <= batch_size s)%nat /\
  forall l, ODrop l ∈ output s' -> ODrop l ∈ output s \/ (25 < batch_size s)%nat.
Lemma winds_down_refl s : winds_down s s.
Proof. split; [done|]. split; [lia|]. by left. Qed.
Lemma winds_down_trans s1 s2 s3 : winds_down s1 s2 -> winds_down s2 s3 -> winds_down s1 s3.
Proof.
  intros (M1&B1&D1) (M2&B2&D2). split; [congruence|]. split; [lia|].
  intros l Hl. destruct (D2 l Hl) as [Hl'|]; [by apply D1|right; lia].
Qed.
Lemma swap_winds_down lines s : inv lines s -> at_ s = Enter \/ at_ s = Waiting -> winds_down s (swap_buffers s).
Proof.
  intros [_ _ _ Hp _ _ _] Hat.
  assert (fresh_ptr (newBuffer1 s) /\ buffersToWrite s = []) as (H1&H3) by (by destruct Hat as [E|E]; rewrite E in Hp; destruct Hp as (?&_&?)).
  assert (missed s = [] /\ batch_size s = S (length (buffers_ s))) as [Hm Hb] by (unfold missed, batch_size; by destruct Hat as [-> | ->]).
  unfold winds_down. rewrite Hm, Hb. unfold swap_buffers, missed, batch_size.
  destruct (nextBuffer_ s); cbn; rewrite H3, (fresh_text _ H1), length_app; cbn; (split; [done|]; split; [lia|]; by left).
Qed.

Lemma back_inv lines now s : inv lines s ->
  exists s', back now s = Ok s' /\ inv lines s' /\
    (running_ s = false -> dist (at_ s') = pred (dist (at_ s)) \/ (at_ s = Enter /\ at_ s' = Writing)) /\
    (running_ s = false -> winds_down s s') /\
    (at_ s <> NotStarted -> at_ s' <> NotStarted) /\ running_ s' = running_ s /\ started_ s' = started_ s /\ joined_ s' = joined_ s.
Proof.
  intros Hinv. unfold back. destruct (at_ s) eqn:Hat.
  - exists s. rewrite Hat. split_and!; try done; [by left|intros _; apply winds_down_refl].
  - destruct (loop_top_inv lines s Hinv Hat) as (E&Hi). eexists. split; [exact E|]. split; [exact Hi|].
    destruct (running_ s) eqn:Er; cbn; rewrite ?Er; split_and!; auto; try done.
    intros _. unfold winds_down, missed, batch_size. rewrite Hat. cbn. split_and!; try done.
    intros l [?|Hl%list_elem_of_singleton]%elem_of_app; [by left|done].
  - unfold enter. destruct (buffers_ s) as [|b l] eqn:Eb.
    + exists (set_at Waiting s). split; [done|]. split_and!; try done; [|by left|].
      * destruct Hinv as [? ? ? Hp Hst ? ?]. rewrite Hat in *. split; try done. intros _. by apply Hst.
      * intros _. unfold winds_down, missed, batch_size. rewrite Hat. cbn. split_and!; try done. by left.
    + exists (swap_buffers s). split; [done|]. split; [apply swap_inv; auto|].
      pose proof (swap_winds_down lines s Hinv (or_introl Hat)) as Hw.
      split; [intros _; right; unfold swap_buffers; by destruct (nextBuffer_ s)|]. split; [done|].
      unfold swap_buffers. by destruct (nextBuffer_ s).
  - exists (swap_buffers s). split; [done|]. split; [apply swap_inv; auto|].
    pose proof (swap_winds_down lines s Hinv (or_intror Hat)) as Hw.
    split; [intros _; left; unfold swap_buffers; by destruct (nextBuffer_ s)|]. split; [done|].
    unfold swap_buffers. by destruct (nextBuffer_ s).
  - destruct (write_inv lines now s Hinv Hat) as (n1&n2&o&E&Hi&Hdrop). eexists. split; [exact E|]. split; [exact Hi|].
    cbn. split_and!; try done; [by left|]. intros _. unfold winds_down, missed, batch_size. rewrite Hat. cbn.
    split; [done|]. split; [lia|]. intros l [?|Hl]%elem_of_app; [by left|right; by eapply Hdrop].
  - exists s. rewrite Hat. split_and!; try done; [by left|intros _; apply winds_down_refl].
Qed.

Lemma start_inv lines s : inv lines s -> client_state 0 s ->
  exists s', start s = Ok s' /\ inv lines s' /\ client_state 1 s'.
Proof.
  intros [Hc Hb Hn Hp Hst Hch Hd] (Hs&Hj&Ha&Hr). unfold start. rewrite Hs. eexists. split; [done|].
  assert (buffersToWrite s = []) as Hbtw.
  { destruct (at_ s); try by (rewrite Hst in Hs by done). apply Hp. }
  split; [|by repeat split]. split; cbn; try done.
  - split; [apply fresh_new|]. split; [apply fresh_new|done].
  - unfold chunks, out_chunks in *. by rewrite Hbtw in Hch.
Qed.
Lemma stop_inv lines s : inv lines s -> client_state 1 s ->
  exists s', stop s = Ok s' /\ inv lines s' /\ client_state 2 s' /\ winds_down s s' /\ at_ s' = at_ s.
Proof.
  intros [Hc Hb Hn Hp Hst Hch Hd] (Hs&Hj&Ha&Hr). unfold stop. rewrite Hs, Hj. eexists. split; [done|].
  split; [split; cbn; try done; destruct (at_ s); try done; by destruct Ha|]. split; [|split; [by apply (winds_down_refl s)|done]].
  split; [done|]. split; [done|]. split; [intros _; by apply Ha|done].
Qed.

Fixpoint client_end (state : Z) (es : list event) : Z :=
  match es with
  | [] => state
  | Start :: es' => client_end 1 es'
  | Stop :: es' => client_end 2 es'
  | _ :: es' => client_end state es'
  end.
Lemma client_ok_app state es1 es2 :
  client_ok state (es1 ++ es2) = client_ok state es1 && client_ok (client_end state es1) es2.
Proof.
  revert state. induction es1 as [|[] es1 IH]; intros state; cbn; rewrite ?IH, ?andb_assoc; done.
Qed.

Definition lines_in (es : list event) : list bytes := mjoin (lines_of <$> es).
Lemma run_inv es : forall state lines s, inv lines s -> client_state state s -> client_ok state es = true ->
  exists s', run s es = Ok s' /\ inv (lines ++ lines_in es) s' /\ client_state (client_end state es) s'.
Proof.
  induction es as [|e es IH]; intros state lines s Hi Hc Hok.
  { exists s. unfold lines_in. cbn. by rewrite app_nil_r. }
  assert (exists s' state', exec s e = Ok s' /\ inv (lines ++ lines_of e) s' /\ client_state state' s' /\
    client_ok state' es = true /\ client_end state (e :: es) = client_end state' es) as (s1&state'&E&Hi1&Hc1&Hok1&Hend).
  { destruct e as [line| | |now]; cbn in Hok |- *.
    - destruct (append_inv lines line s Hi) as (s'&E&Hi'&Ea&Er&Es&Ej). exists s', state. split; [done|]. split; [done|].
      split; [|done]. unfold client_state. by rewrite Ea, Er, Es, Ej.
    - apply andb_true_iff in Hok as [->%Z.eqb_eq Hok]. destruct (start_inv lines s Hi Hc) as (s'&E&Hi'&Hc').
      exists s', 1. rewrite app_nil_r. done.
    - apply andb_true_iff in Hok as [->%Z.eqb_eq Hok]. destruct (stop_inv lines s Hi Hc) as (s'&E&Hi'&Hc'&_).
      exists s', 2. rewrite app_nil_r. done.
    - destruct (back_inv lines now s Hi) as (s'&E&Hi'&_&_&Hns&Er&Es&Ej). exists s', state. rewrite app_nil_r.
      split; [done|]. split; [done|]. split; [|done]. unfold client_state. rewrite Er, Es, Ej.
      destruct Hc as (?&?&Hc&?). by split_and!; auto. }
  destruct (IH state' _ s1 Hi1 Hc1 Hok1) as (s'&E'&Hi'&Hc'). exists s'. rewrite Hend.
  unfold run in *. cbn [foldM]. rewrite E. cbn [mbind outcome_bind]. split; [done|]. split; [|done].
  by rewrite <-app_assoc in Hi'.
Qed.

Lemma async_new_inv : inv [] new_ /\ client_state 0 new_.
Proof.
  split; [|by repeat split]. split; cbn; try done.
  - apply fresh_full, fresh_new.
  - left. apply fresh_new.
  - exists [[]]. split; [done|]. done.
  - set_solver.
Qed.

(** * After stop() *)

Definition is_back (e : event) : bool := match e with Back _ => true | _ => false end.
Definition backs (es : list event) : nat := length (filter (fun e => is_back e = true) es).

Lemma stopped_run es : forall lines s, inv lines s -> client_state 2 s -> client_ok 2 es = true ->
  exists s', run s es = Ok s' /\ inv (lines ++ lines_in es) s' /\ (dist (at_ s') <= dist (at_ s) - backs es)%nat /\
    at_ s' <> NotStarted /\ (Forall (fun e => is_back e = true) es -> winds_down s s').
Proof.
  induction es as [|e es IH]; intros lines s Hi Hc Hok.
  { exists s. unfold lines_in, backs. cbn. rewrite app_nil_r. split_and!; try done; [lia|by apply Hc|intros _; apply winds_down_refl]. }
  assert (exists s', exec s e = Ok s' /\ inv (lines ++ lines_of e) s' /\ client_state 2 s' /\ client_ok 2 es = true /\
    (dist (at_ s') <= dist (at_ s) - (if is_back e then 1 else 0))%nat /\
    (is_back e = true -> winds_down s s')) as (s1&E&Hi1&Hc1&Hok1&Hd1&Hdr1).
  { destruct e as [line| | |now]; cbn in Hok |- *; try done.
    - destruct (append_inv lines line s Hi) as (s'&E&Hi'&Ea&Er&Es&Ej). exists s'. split; [done|]. split; [done|].
      split; [unfold client_state; by rewrite Ea, Er, Es, Ej|]. split; [done|]. split; [rewrite Ea; lia|done].
    - destruct (back_inv lines now s Hi) as (s'&E&Hi'&Hdist&Hdr&Hns&Er&Es&Ej). exists s'. rewrite app_nil_r.
      destruct Hc as (?&?&Hc&Hrun). cbn in Hrun. split; [done|]. split; [done|].
      split; [unfold client_state; rewrite Er, Es, Ej; by split_and!; auto|]. split; [done|].
      split; [|auto]. destruct (Hdist Hrun) as [->|[-> ->]]; cbn; lia. }
  destruct (IH _ s1 Hi1 Hc1 Hok1) as (s'&E'&Hi'&Hd'&Hns'&Hdr'). exists s'.
  unfold run in *. cbn [foldM]. rewrite E. cbn [mbind outcome_bind]. split; [done|].
  split; [by rewrite <-app_assoc in Hi'|]. split; [|split; [done|]].
  - unfold backs in *. rewrite filter_cons. destruct (is_back e) eqn:Eb;
      [rewrite decide_True by done|rewrite decide_False by done]; cbn [length]; lia.
  - intros [Hb Hbs]%Forall_cons. eapply winds_down_trans; auto.
Qed.

Lemma lines_in_backs es : Forall (fun e => is_back e = true) es -> lines_in es = [].
Proof. intros H. induction H as [|[] es He _ IH]; try done. Qed.
End AsyncLogging.

Lemma join_fmap_join {A} (gs : list (list (list A))) : mjoin (mjoin <$> gs) = mjoin (mjoin gs).
Proof. induction gs as [|g gs IH]; [done|]. cbn. rewrite join_app. f_equal. exact IH. Qed.

(** * Properties *)

(** C12: No line is lost or split silently.  For any interleaving of appends by the
    threads with start, stop and the steps of the back end (start once before
    stop, stop at most once), no assertion fails, no null or full buffer is
    written to; what was written to the log file, then what the back end holds,
    then the full buffers, then the current one, contain the lines in the order of
    the appends, each line whole in one of them, less the lines that do not fit
    a buffer; and every batch of buffers thrown away has more than 23 buffers and
    a notice in the file with their number. *)
Theorem async_log_keeps_lines size gmtime_r es :
  0 < size < 2 ^ 31 -> client_ok 0 es = true ->
  exists s gs, run size gmtime_r (new_ size) es = Ok s /\ mjoin gs = lines_in size es /\
    mjoin (chunks_of <$> output s) ++ (text_of <$> buffersToWrite s) ++ (text_of <$> buffers_ s) ++
      [text_of (currentBuffer_ s)] = mjoin <$> gs /\
    forall l, ODrop l ∈ output s ->
      (23 < length l)%nat /\ exists now, ONotice (notice gmtime_r now (zlen l + 2)) ∈ output s.
Proof.
  intros Hs Hok. destruct (async_new_inv size gmtime_r Hs) as (Hi&Hc).
  destruct (run_inv size gmtime_r Hs es 0 [] _ Hi Hc Hok) as (s&E&Hi'&_).
  destruct (inv_chunks _ _ _ _ Hi') as (gs&Hg&Hch). exists s, gs. split; [done|]. split; [done|]. split; [done|].
  apply Hi'.
Qed.
Lemma async_log_keeps_lines_witness :
  exists s gs, run 8 (fun _ => mktm 0 0 0 1 0 70 4 0 0) (new_ 8)
      [Append (lit "abc"); Start; Append (lit "de"); Append (lit "fgh"); Back 0; Back 0; Append (lit "ij"); Back 0;
       Append (lit "too long"); Stop; Back 0] = Ok s /\
    mjoin gs = [lit "abc"; lit "de"; lit "fgh"; lit "ij"] /\
    mjoin (chunks_of <$> output s) = [lit "abcde"; lit "fgh"] /\ at_ s = Finished.
Proof.
  destruct (async_log_keeps_lines 8 (fun _ => mktm 0 0 0 1 0 70 4 0 0)
    [Append (lit "abc"); Start; Append (lit "de"); Append (lit "fgh"); Back 0; Back 0; Append (lit "ij"); Back 0;
     Append (lit "too long"); Stop; Back 0]) as (s&gs&E&Hg&Hch&Hd).
  - lia.
  - vm_compute. reflexivity.
  - exists s, gs. split; [exact E|]. split; [exact Hg|]. vm_compute in E. injection E as <-. split; reflexivity.
Defined.

(** What is in the log file, notices aside. *)
Definition file_text (s : t) : bytes := mjoin ((fun o => match o with OBuffer x => x | _ => [] end) <$> output s).
Lemma file_text_chunks s : (forall l, ODrop l ∉ output s) -> file_text s = mjoin (mjoin (chunks_of <$> output s)).
Proof.
  unfold file_text. induction (output s) as [|o os IH]; intros Hn; [done|]. cbn [fmap list_fmap mjoin list_join]. rewrite join_app.
  f_equal; [|apply IH; intros l Hl; apply (Hn l); by constructor 2].
  destruct o as [x|x|l|]; cbn; rewrite ?app_nil_r; try done. exfalso. apply (Hn l). by constructor 1.
Qed.

(** C13: stop() ends the back end, and exactly the lines it had no more chance to
    take are missing from the file.  Once stop() was called, at most four more
    steps end the thread, whatever is appended meanwhile.  When nothing is
    appended after stop(), the lines appended before it are, in order, those in
    the file, those of the batches thrown away with a notice, and at the end
    those that were in the front end's buffers when stop() was called - none if
    the back end was past its test of [running_] and had not taken the buffers
    yet, where it waits when there is nothing to do.  If no batch was
    thrown away before stop() and the one under way has at most 25 buffers, then
    the file alone holds all but the last part. *)
Theorem async_log_stops size gmtime_r es1 es2 :
  0 < size < 2 ^ 31 -> client_ok 0 (es1 ++ Stop :: es2) = true -> (4 <= backs es2)%nat ->
  exists s1 s, run size gmtime_r (new_ size) es1 = Ok s1 /\
    run size gmtime_r (new_ size) (es1 ++ Stop :: es2) = Ok s /\ at_ s = Finished /\
    let lost := if decide (at_ s1 = Enter \/ at_ s1 = Waiting) then []
                else mjoin (text_of <$> buffers_ s1) ++ text_of (currentBuffer_ s1) in
    (Forall (fun e => is_back e = true) es2 ->
      mjoin (mjoin (chunks_of <$> output s)) ++ lost = mjoin (lines_in size es1) /\
      ((forall l, ODrop l ∉ output s1) -> (batch_size s1 <= 25)%nat ->
       file_text s ++ lost = mjoin (lines_in size es1))).
Proof.
  intros Hs Hok Hb. destruct (async_new_inv size gmtime_r Hs) as (Hi&Hc).
  rewrite client_ok_app in Hok. apply andb_true_iff in Hok as [Hok1 Hok2].
  destruct (run_inv size gmtime_r Hs es1 0 [] _ Hi Hc Hok1) as (s1&E1&Hi1&Hc1).
  cbn in Hok2. apply andb_true_iff in Hok2 as [Hst%Z.eqb_eq Hok2]. rewrite Hst in Hc1.
  destruct (stop_inv size gmtime_r _ s1 Hi1 Hc1) as (s2&E2&Hi2&Hc2&Hw&Ea).
  destruct (stopped_run size gmtime_r Hs es2 _ s2 Hi2 Hc2 Hok2) as (s&E&Hi'&Hd&Hns&Hw').
  exists s1, s. split; [done|]. split.
  { unfold run in *. rewrite foldM_app, E1. cbn. by rewrite E2. }
  assert (at_ s = Finished) as Hfin.
  { assert (dist (at_ s2) <= 4)%nat by (destruct (at_ s2); cbn; lia). destruct (at_ s); cbn in *; lia || done. }
  split; [done|]. intros lost Hall. specialize (Hw' Hall). pose proof (winds_down_trans _ _ _ Hw Hw') as (Hm&_&Hdr).
  assert (missed s1 = lost) as Hl.
  { unfold missed, lost. case_decide as Hat; [by destruct Hat as [-> | ->]|]. destruct (at_ s1); try done; exfalso; auto. }
  destruct (inv_chunks _ _ _ _ Hi') as (gs&Hg&Hch). pose proof (inv_pc _ _ _ _ Hi') as Hbtw. rewrite Hfin in Hbtw.
  assert (mjoin (mjoin (chunks_of <$> output s)) ++ lost = mjoin (lines_in size es1)) as Hacc.
  { unfold chunks in Hch. rewrite Hbtw in Hch. rewrite <-Hl, <-Hm. unfold missed. rewrite Hfin.
    assert (mjoin (lines_in size es1) = mjoin (mjoin <$> gs)) as ->.
    { rewrite join_fmap_join, Hg. cbn [app]. by rewrite (lines_in_backs size es2 Hall), app_nil_r. }
    rewrite <-Hch. unfold out_chunks. rewrite !join_app. cbn. by rewrite app_nil_r. }
  split; [done|]. intros Hno Hsize. rewrite file_text_chunks; [done|]. intros l Hl'. destruct (Hdr l Hl') as [Hl1|]; [by eapply Hno|lia].
Qed.
(** The back end waits with a line in the current buffer when stop() is
    called. *)
Lemma async_log_stops_witness :
  exists s, run 8 (fun _ => mktm 0 0 0 1 0 70 4 0 0) (new_ 8)
      ([Start; Back 0; Back 0; Append (lit "abc"); Append (lit "de")] ++ Stop :: replicate 4 (Back 0)) = Ok s /\
    at_ s = Finished /\ file_text s = lit "abcde".
Proof.
  destruct (async_log_stops 8 (fun _ => mktm 0 0 0 1 0 70 4 0 0)
    [Start; Back 0; Back 0; Append (lit "abc"); Append (lit "de")] (replicate 4 (Back 0))) as (s1&s&E1&E&Hf&Hall).
  - lia.
  - vm_compute. reflexivity.
  - vm_compute. lia.
  - exists s. split; [exact E|]. split; [exact Hf|].
    destruct Hall as [_ Hfile]; [repeat constructor|]. vm_compute in E1. injection E1 as <-. cbn [output batch_size at_ buffers_ length] in Hfile.
    rewrite <-(app_nil_r (file_text s)). rewrite decide_True in Hfile by (right; reflexivity). rewrite Hfile; [reflexivity|intros l Hl; by apply elem_of_nil in Hl|lia].
Defined.

(** Lines appended while the back end writes a batch are lost when stop() comes
    before it looks at [running_] again: the thread ends with them in the
    buffer. *)
Example async_stop_loses_lines :
  exists s, run 8 (fun _ => mktm 0 0 0 1 0 70 4 0 0) (new_ 8)
      [Start; Append (lit "abc"); Back 0; Back 0; Back 0; Append (lit "de"); Stop; Back 0; Back 0] = Ok s /\
    at_ s = Finished /\ mjoin (mjoin (chunks_of <$> output s)) = lit "abc" /\ text_of (currentBuffer_ s) = lit "de".
Proof. eexists. split; [vm_compute; reflexivity|]. repeat split; reflexivity. Qed.
End AsyncLogging.
