(* ===== verification/BaseTimeZone.v ===== *)
(** src/muduo/base/TimeZone.h and TimeZone.cc: zone files, local time and UTC
    broken-down time.

    A file is its bytes, or [None] when it cannot be opened.  The reader is a
    program over the rest of the file and the [Data] it fills, which keeps what
    was pushed when a [logic_error] is thrown.  [time_t] has 64 bits and stays
    far from overflow; casts to [int] are written out.  gmtime_r and timegm are
    parameters; the file shows that [toUtcTime] and [fromUtcTime] satisfy what
    is assumed of them. *)

From S2P Require Import Prelude BaseTimestamp Endian BaseDate.

Module TimeZone.

Record Transition := mktrans { gmttime : Z; localtime : Z; localtimeIdx : Z }.
Record Localtime := mklocal { gmtOffset : Z; isDst : bool; arrbIdx : Z }.
Record Data := mkdata { transitions : list Transition; localtimes : list Localtime; abbreviation : bytes }.
Definition empty_data : Data := mkdata [] [] [].

(** [Comp(compareGmt)] *)
Definition comp (compareGmt : bool) (lhs rhs : Transition) : bool :=
  if compareGmt then gmttime lhs <? gmttime rhs else localtime lhs <? localtime rhs.
Definition comp_equal (compareGmt : bool) (lhs rhs : Transition) : bool :=
  if compareGmt then gmttime lhs =? gmttime rhs else localtime lhs =? localtime rhs.

(** Second, minute, hour. *)
Definition fillHMS (seconds : Z) : Z * Z * Z :=
  let minutes := seconds / 60 in (seconds mod 60, minutes mod 60, minutes / 60).
Definition kSecondsPerDay : Z := 24 * 60 * 60.

(** * Reading a zone file *)

Inductive result (A : Type) := Ret (a : A) | Throw (what : string) | Stuck (f : fault).
Arguments Ret {A} a.
Arguments Throw {A} what.
Arguments Stuck {A} f.
Definition reader (A : Type) : Type := bytes * Data -> result A * (bytes * Data).
#[export] Instance reader_ret : MRet reader := fun A a st => (Ret a, st).
#[export] Instance reader_bind : MBind reader := fun A B k m st =>
  match m st with
  | (Ret a, st) => k a st
  | (Throw w, st) => (Throw w, st)
  | (Stuck f, st) => (Stuck f, st)
  end.
Definition throw {A} (what : string) : reader A := fun st => (Throw what, st).
Definition stuck {A} (f : fault) : reader A := fun st => (Stuck f, st).
Definition modify (f : Data -> Data) : reader unit := fun st => (Ret tt, (st.1, f st.2)).
Definition get_data : reader Data := fun st => (Ret st.2, st).

(** fread takes what there is, even when it is too little. *)
Definition fread (n : Z) : reader bytes := fun st => (Ret (ztake n st.1), (zdrop n st.1, st.2)).
Definition readBytes (n : Z) : reader bytes :=
  if n <? 0 then stuck (Undefined "array of negative size")
  else
    buf ← fread n;
    if negb (zlen buf =? n) then throw "no enough data" else mret buf.
Definition readInt32 : reader Z :=
  buf ← fread 4;
  if negb (zlen buf =? 4) then throw "bad int32_t data" else mret (i32 (be_value buf)).
Definition readUInt8 : reader Z :=
  buf ← fread 1;
  if negb (zlen buf =? 1) then throw "bad uint8_t data" else mret (be_value buf).

(** [for (int i = 0; i < n; ++i) v.push_back(f())] *)
Fixpoint read_times {A} (n : nat) (f : reader A) : reader (list A) :=
  match n with
  | O => mret []
  | S n => x ← f; l ← read_times n f; mret (x :: l)
  end.

Definition readLocaltime : reader unit :=
  gmtoff ← readInt32; isdst ← readUInt8; abbrind ← readUInt8;
  modify (fun d => mkdata (transitions d) (localtimes d ++ [mklocal gmtoff (negb (isdst =? 0)) abbrind]) (abbreviation d)).
Definition push_transition (x : Z * Z) : reader unit :=
  let '(time, localIdx) := x in
  d ← get_data;
  match znth (localtimes d) localIdx with
  | None => stuck (Undefined "localtimes[localIdx]")
  | Some l =>
      modify (fun d => mkdata (transitions d ++ [mktrans time (time + gmtOffset l) localIdx]) (localtimes d) (abbreviation d))
  end.
Fixpoint for_each {A} (f : A -> reader unit) (l : list A) : reader unit :=
  match l with
  | [] => mret tt
  | x :: l => _ ← f x; for_each f l
  end.

(** The body of the try block; the leap seconds and the flags that follow are
    not read. *)
Definition read_zone : reader unit :=
  head ← readBytes 4;
  (if negb (bytes_eqb head (lit "TZif")) then throw "bad head" else
  version ← readBytes 1;
  _ ← readBytes 15;
  isgmtcnt ← readInt32; isstdcnt ← readInt32; leapcnt ← readInt32;
  timecnt ← readInt32; typecnt ← readInt32; charcnt ← readInt32;
  (if timecnt <? 0 then throw "vector::reserve" else
  trans ← read_times (Z.to_nat timecnt) readInt32;
  idx ← read_times (Z.to_nat timecnt) readUInt8;
  _ ← read_times (Z.to_nat typecnt) readLocaltime;
  _ ← for_each push_transition (zip trans idx);
  abbrev ← readBytes charcnt;
  modify (fun d => mkdata (transitions d) (localtimes d) abbrev))).
Definition readTimeZoneFile (zonefile : option bytes) (data : Data) : outcome (bool * Data) :=
  match zonefile with
  | None => Ok (true, data)
  | Some file =>
      match read_zone (file, data) with
      | (Stuck f, _) => Err f
      | (_, (_, data)) => Ok (true, data)
      end
  end.

(** [data_]: null for the default zone. *)
Definition of_file (zonefile : option bytes) : outcome (option Data) :=
  '(ok, data) ← readTimeZoneFile zonefile empty_data;
  Ok (if ok : bool then Some data else None).
Definition of_offset (eastOfUtc : Z) (name : bytes) : option Data :=
  Some (mkdata [] [mklocal eastOfUtc false 0] name).
Definition valid (data_ : option Data) : bool := bool_decide (is_Some data_).

(** * Local time *)

Definition at_index {A} (l : list A) (i : Z) : outcome A :=
  match znth l i with Some x => Ok x | None => Err (Undefined "vector index") end.

(** std::lower_bound on a partitioned range: the first position whose element is
    not less. *)
Fixpoint lower_bound (less : Transition -> Transition -> bool) (l : list Transition) (x : Transition) : nat :=
  match l with
  | [] => 0
  | y :: l' => if less y x then S (lower_bound less l' x) else 0
  end.

Definition findLocaltime (data : Data) (sentry : Transition) (gmt : bool) : outcome Localtime :=
  let trs := transitions data in
  match trs with
  | [] => at_index (localtimes data) 0
  | front :: _ =>
      if comp gmt sentry front then at_index (localtimes data) 0
      else
        let i := Z.of_nat (lower_bound (comp gmt) trs sentry) in
        match znth trs i with
        | Some tr =>
            if negb (comp_equal gmt sentry tr)
            then
              massert (negb (i =? 0)) "transI != data.transitions.begin()";;
              tr ← at_index trs (i - 1);
              at_index (localtimes data) (localtimeIdx tr)
            else at_index (localtimes data) (localtimeIdx tr)
        | None => tr ← at_index trs (zlen trs - 1); at_index (localtimes data) (localtimeIdx tr)
        end
  end.

(** A struct tm with the fields that only local time sets. *)
Record local_tm := mkltm { ltm : tm; tm_isdst : bool; tm_zone : bytes }.
Definition set_gmtoff (off : Z) (x : tm) : tm :=
  mktm (tm_sec x) (tm_min x) (tm_hour x) (tm_mday x) (tm_mon x) (tm_year x) (tm_wday x) (tm_yday x) off.

Section LocalTime.
Context (gmtime_r : Z -> tm) (timegm : tm -> Z).

(** [&abbreviation[i]] as a C string. *)
Definition zone_name (abbrev : bytes) (i : Z) : outcome bytes :=
  if (0 <=? i) && (i <=? zlen abbrev) then Ok (ztake (find_idx 0 (zdrop i abbrev)) (zdrop i abbrev))
  else Err (Undefined "abbreviation[arrbIdx]").

Definition toLocalTime (data_ : option Data) (seconds : Z) : outcome local_tm :=
  match data_ with
  | None => Err (AssertFail "data_ != NULL")
  | Some data =>
      local ← findLocaltime data (mktrans seconds 0 0) true;
      let localSeconds := seconds + gmtOffset local in
      zone ← zone_name (abbreviation data) (arrbIdx local);
      Ok (mkltm (set_gmtoff (gmtOffset local) (gmtime_r localSeconds)) (isDst local) zone)
  end.

Definition fromLocalTime (data_ : option Data) (localTm : local_tm) : outcome Z :=
  match data_ with
  | None => Err (AssertFail "data_ != NULL")
  | Some data =>
      let seconds := timegm (ltm localTm) in
      local ← findLocaltime data (mktrans 0 seconds 0) false;
      if tm_isdst localTm
      then
        tryTm ← toLocalTime data_ (seconds - gmtOffset local);
        if negb (tm_isdst tryTm) && (tm_hour (ltm tryTm) =? tm_hour (ltm localTm)) && (tm_min (ltm tryTm) =? tm_min (ltm localTm))
        then Ok (seconds - 3600 - gmtOffset local)
        else Ok (seconds - gmtOffset local)
      else Ok (seconds - gmtOffset local)
  end.
End LocalTime.

(** * UTC *)

Definition toUtcTime (secondsSinceEpoch : Z) (yday : bool) : tm :=
  let seconds := i32 (Z.rem secondsSinceEpoch kSecondsPerDay) in
  let days := i32 (Z.quot secondsSinceEpoch kSecondsPerDay) in
  let '(seconds, days) := if seconds <? 0 then (seconds + kSecondsPerDay, days - 1) else (seconds, days) in
  let '(sec, minute, hour) := fillHMS seconds in
  let date := days + Date.kJulianDayOf1970_01_01 in
  let ymd := Date.yearMonthDay date in
  mktm sec minute hour (Date.day ymd) (Date.month ymd - 1) (Date.year ymd - 1900) (Date.weekDay date)
       (if yday then date - Date.of_ymd (Date.year ymd) 1 1 else 0) 0.

Definition fromUtcTime_fields (year month day hour minute seconds : Z) : Z :=
  let date := Date.of_ymd year month day in
  let secondsInDay := hour * 3600 + minute * 60 + seconds in
  let days := date - Date.kJulianDayOf1970_01_01 in
  days * kSecondsPerDay + secondsInDay.
Definition fromUtcTime (utc : tm) : Z :=
  fromUtcTime_fields (tm_year utc + 1900) (tm_mon utc + 1) (tm_mday utc) (tm_hour utc) (tm_min utc) (tm_sec utc).

(** * UTC: lemmas *)

(** The days the calendar computation covers without overflow. *)
Definition utc_range (s : Z) : Prop := 0 <= s + 2472632 * kSecondsPerDay < 2 ^ 29 * kSecondsPerDay.

Lemma floor_day s : utc_range s ->
  let seconds := i32 (Z.rem s kSecondsPerDay) in
  let days := i32 (Z.quot s kSecondsPerDay) in
  (if seconds <? 0 then (seconds + kSecondsPerDay, days - 1) else (seconds, days)) =
    (s mod kSecondsPerDay, s / kSecondsPerDay).
Proof.
  unfold utc_range, kSecondsPerDay. change (24 * 60 * 60) with 86400. intros Hs. cbn zeta.
  assert (i32 (Z.rem s 86400) = Z.rem s 86400) as ->.
  { apply swrap_small; [lia|]. unfold srange. Z.to_euclidean_division_equations. lia. }
  assert (i32 (Z.quot s 86400) = Z.quot s 86400) as ->.
  { apply swrap_small; [lia|]. unfold srange. Z.to_euclidean_division_equations. lia. }
  pose proof (Z.quot_rem s 86400 ltac:(done)). pose proof (Z.rem_bound_abs s 86400 ltac:(done)).
  destruct (Z.ltb_spec (Z.rem s 86400) 0); f_equal.
  - apply (Z.mod_unique _ _ (Z.quot s 86400 - 1)); lia.
  - apply (Z.div_unique _ _ _ (Z.rem s 86400 + 86400)); lia.
  - apply (Z.mod_unique _ _ (Z.quot s 86400)); lia.
  - apply (Z.div_unique _ _ _ (Z.rem s 86400)); lia.
Qed.
Lemma hms_back r : r mod 60 + (r / 60) mod 60 * 60 + r / 60 / 60 * 3600 = r.
Proof. Z.to_euclidean_division_equations. lia. Qed.

Definition ymd_of (u : tm) : Date.YearMonthDay := Date.mkymd (tm_year u + 1900) (tm_mon u + 1) (tm_mday u).
Lemma toUtcTime_date s yday : utc_range s ->
  ymd_of (toUtcTime s yday) = Date.getYearMonthDay (s / kSecondsPerDay + Date.kJulianDayOf1970_01_01) /\
  (tm_sec (toUtcTime s yday), tm_min (toUtcTime s yday), tm_hour (toUtcTime s yday)) = fillHMS (s mod kSecondsPerDay) /\
  tm_wday (toUtcTime s yday) = Date.weekDay (s / kSecondsPerDay + Date.kJulianDayOf1970_01_01).
Proof.
  intros Hs. unfold toUtcTime. rewrite (floor_day s Hs). unfold ymd_of, fillHMS, Date.yearMonthDay.
  cbn [tm_sec tm_min tm_hour tm_mday tm_mon tm_year tm_wday]. split_and!; [|done|done]. by rewrite !Z.sub_add; destruct (Date.getYearMonthDay _).
Qed.
Lemma julian_range s : utc_range s -> Date.in_int (s / kSecondsPerDay + Date.kJulianDayOf1970_01_01).
Proof.
  unfold utc_range, kSecondsPerDay, Date.in_int. change Date.kJulianDayOf1970_01_01 with 2440588. intros Hs.
  Z.to_euclidean_division_equations. lia.
Qed.
Lemma fromUtc_toUtc s yday : utc_range s -> fromUtcTime (toUtcTime s yday) = s.
Proof.
  intros Hs. destruct (toUtcTime_date s yday Hs) as (Hd&Ht&_).
  destruct (Date.number_roundtrip_aux _ (julian_range s Hs)) as (_&_&Hj). rewrite <-Hd in Hj.
  unfold fillHMS in Ht. injection Ht as H1 H2 H3. unfold fromUtcTime, fromUtcTime_fields, Date.of_ymd.
  unfold ymd_of in Hj. cbn in Hj. rewrite Hj, H1, H2, H3.
  pose proof (hms_back (s mod kSecondsPerDay)). pose proof (Z.div_mod s kSecondsPerDay ltac:(done)). lia.
Qed.

(** * Local time: the zone in force *)

(** The transitions with the local time type each one starts. *)
Fixpoint resolve (lts : list Localtime) (trs : list Transition) : option (list (Transition * Localtime)) :=
  match trs with
  | [] => Some []
  | tr :: trs => l ← znth lts (localtimeIdx tr); r ← resolve lts trs; Some ((tr, l) :: r)
  end.
Definition key (gmt : bool) (tr : Transition) : Z := if gmt then gmttime tr else localtime tr.
(** The type of the last transition not after [x], [prev] before the first. *)
Fixpoint in_force (gmt : bool) (prev : Localtime) (l : list (Transition * Localtime)) (x : Z) : Localtime :=
  match l with
  | [] => prev
  | (tr, lt) :: l' => if x <? key gmt tr then prev else in_force gmt lt l' x
  end.

(** A zone's transitions: each with its local time, in order both by UTC and by
    local time, and where clocks go back, no further transition before the time
    that comes twice has passed. *)
Fixpoint zone_ok (prev : Localtime) (l : list (Transition * Localtime)) : Prop :=
  match l with
  | [] => True
  | (tr, lt) :: l' =>
      localtime tr = gmttime tr + gmtOffset lt /\
      match l' with
      | [] => True
      | (tr', _) :: _ =>
          let apart := Z.max 1 (gmtOffset prev - gmtOffset lt) in
          gmttime tr + apart <= gmttime tr' /\ localtime tr + apart <= localtime tr'
      end /\ zone_ok lt l'
  end.
(** The local time of [x] comes again, after the next transition: the type the
    clocks then go back to. *)
Fixpoint turned_back (prev : Localtime) (l : list (Transition * Localtime)) (x : Z) : option Localtime :=
  match l with
  | [] => None
  | (tr, lt) :: l' =>
      if x <? gmttime tr
      then if gmttime tr <=? x + (gmtOffset prev - gmtOffset lt) then Some lt else None
      else turned_back lt l' x
  end.

Lemma comp_key gmt a b : comp gmt a b = (key gmt a <? key gmt b).
Proof. by destruct gmt. Qed.
Lemma comp_equal_key gmt a b : comp_equal gmt a b = (key gmt a =? key gmt b).
Proof. by destruct gmt. Qed.
Lemma zone_ok_sorted gmt prev tr lt l : zone_ok prev ((tr, lt) :: l) ->
  match l with [] => True | (tr', _) :: _ => key gmt tr < key gmt tr' end.
Proof. cbn. intros (_&H&_). destruct l as [|[tr' lt'] l]; [done|]. destruct gmt; cbn; lia. Qed.

Lemma znth_0 {A} (x : A) l : znth (x :: l) 0 = Some x.
Proof. done. Qed.
Lemma znth_S {A} (x : A) l i : 0 <= i -> znth (x :: l) (i + 1) = znth l i.
Proof.
  intros Hi. unfold znth. destruct (Z.ltb_spec (i + 1) 0), (Z.ltb_spec i 0); try lia.
  by replace (Z.to_nat (i + 1)) with (S (Z.to_nat i)) by lia.
Qed.

(** The search past the first transition. *)
Definition search (gmt : bool) (lts : list Localtime) (trs : list Transition) (sentry : Transition) (r : Localtime) : Prop :=
  let i := Z.of_nat (lower_bound (comp gmt) trs sentry) in
  match znth trs i with
  | Some tr =>
      if negb (comp_equal gmt sentry tr) then i <> 0 /\ (tr ← at_index trs (i - 1); at_index lts (localtimeIdx tr)) = Ok r
      else at_index lts (localtimeIdx tr) = Ok r
  | None => (tr ← at_index trs (zlen trs - 1); at_index lts (localtimeIdx tr)) = Ok r
  end.
Lemma search_next gmt lts tr tr' trs sentry r :
  key gmt tr < key gmt sentry -> search gmt lts (tr' :: trs) sentry r -> search gmt lts (tr :: tr' :: trs) sentry r.
Proof.
  intros Hlt. unfold search. cbn zeta. set (l := tr' :: trs). cbn [lower_bound]. rewrite comp_key.
  destruct (Z.ltb_spec (key gmt tr) (key gmt sentry)); [|lia]. generalize (lower_bound (comp gmt) l sentry). intros n.
  replace (Z.of_nat (S n)) with (Z.of_nat n + 1) by lia. rewrite znth_S by lia.
  destruct (znth l (Z.of_nat n)) as [x|]; [destruct (negb _)|].
  - intros (Hn&E). split; [lia|]. unfold at_index in *. replace (Z.of_nat n + 1 - 1) with (Z.of_nat n - 1 + 1) by lia.
    by rewrite znth_S by lia.
  - done.
  - unfold at_index. rewrite (zlen_cons tr l). replace (1 + zlen l - 1) with (zlen l - 1 + 1) by lia.
    by rewrite znth_S by (unfold l; rewrite zlen_cons; pose proof (zlen_nonneg trs); lia).
Qed.
Lemma search_here gmt lts tr trs sentry r :
  key gmt tr <= key gmt sentry -> match trs with [] => True | tr' :: _ => key gmt sentry < key gmt tr' end ->
  at_index lts (localtimeIdx tr) = Ok r -> search gmt lts (tr :: trs) sentry r.
Proof.
  intros Hle Hnext Hr. unfold search. cbn [lower_bound]. rewrite comp_key.
  destruct (Z.ltb_spec (key gmt tr) (key gmt sentry)).
  - destruct trs as [|tr' trs]; [done|]. cbn [lower_bound]. rewrite comp_key.
    destruct (Z.ltb_spec (key gmt tr') (key gmt sentry)); [lia|]. cbn zeta. change (Z.of_nat 1) with (0 + 1).
    rewrite znth_S by done. rewrite znth_0, comp_equal_key. destruct (Z.eqb_spec (key gmt sentry) (key gmt tr')); [lia|]. done.
  - cbn zeta. change (Z.of_nat 0) with 0. rewrite znth_0, comp_equal_key.
    destruct (Z.eqb_spec (key gmt sentry) (key gmt tr)); [done|lia].
Qed.
Lemma search_ok gmt lts sentry : forall trs tr prev lt l,
  resolve lts (tr :: trs) = Some ((tr, lt) :: l) -> zone_ok prev ((tr, lt) :: l) -> key gmt tr <= key gmt sentry ->
  search gmt lts (tr :: trs) sentry (in_force gmt lt l (key gmt sentry)).
Proof.
  induction trs as [|tr' trs IH]; intros tr prev lt l Hres Hz Hle.
  - cbn in Hres. destruct (znth lts _) as [lt0|] eqn:E; [|done]. cbn in Hres. injection Hres as -> <-.
    apply search_here; [done|done|]. unfold at_index. by rewrite E.
  - pose proof (zone_ok_sorted gmt _ _ _ _ Hz) as Hsorted. cbn [resolve] in Hres.
    destruct (znth lts (localtimeIdx tr)) as [lt0|] eqn:E; [|done]. cbn [mbind option_bind] in Hres.
    destruct (znth lts (localtimeIdx tr')) as [lt'|] eqn:E'; [|done]. cbn [mbind option_bind] in Hres.
    destruct (resolve lts trs) as [l'|] eqn:Er; [|done]. cbn in Hres. injection Hres as -> <-. cbn [in_force].
    destruct (Z.ltb_spec (key gmt sentry) (key gmt tr')).
    + apply search_here; [done|done|]. unfold at_index. by rewrite E.
    + apply search_next; [lia|]. apply (IH tr' lt lt' l'); [cbn [resolve]; by rewrite E', Er| |done].
      by destruct Hz as (_&_&Hz).
Qed.

Lemma findLocaltime_ok gmt data front lts l sentry :
  localtimes data = front :: lts -> resolve (localtimes data) (transitions data) = Some l -> zone_ok front l ->
  findLocaltime data sentry gmt = Ok (in_force gmt front l (key gmt sentry)).
Proof.
  intros Hlts Hres Hz. unfold findLocaltime. destruct (transitions data) as [|tr trs].
  { cbn in Hres. injection Hres as <-. by rewrite Hlts. }
  rewrite comp_key. pose proof Hres as Hres'. cbn [resolve] in Hres'. destruct (znth _ (localtimeIdx tr)) as [lt|]; [|done].
  cbn [mbind option_bind] in Hres'. destruct (resolve (localtimes data) trs) as [l'|]; [|done]. cbn in Hres'. injection Hres' as <-.
  cbn [in_force]. destruct (Z.ltb_spec (key gmt sentry) (key gmt tr)) as [Hlt|Hge]; [by rewrite Hlts|].
  pose proof (search_ok gmt (localtimes data) sentry trs tr front lt l' Hres Hz Hge) as Hs. unfold search in Hs.
  cbn zeta in *. destruct (znth _ _) as [x|]; [|done]. destruct (negb _); [|done]. destruct Hs as (Hne&Hs).
  destruct (Z.eqb_spec (Z.of_nat (lower_bound (comp gmt) (tr :: trs) sentry)) 0); [lia|]. exact Hs.
Qed.

Lemma in_force_elem gmt lts : forall trs l prev x,
  resolve lts trs = Some l -> prev ∈ lts -> in_force gmt prev l x ∈ lts.
Proof.
  induction trs as [|tr trs IH]; intros l prev x Hres Hp; cbn [resolve] in Hres; [by injection Hres as <-|].
  destruct (znth lts (localtimeIdx tr)) as [lt|] eqn:E; [|done]. cbn [mbind option_bind] in Hres.
  destruct (resolve lts trs) as [l'|]; [|done]. cbn in Hres. injection Hres as <-. cbn [in_force].
  destruct (_ <? _); [done|]. apply (IH l'); [done|]. unfold znth in E. destruct (_ <? 0); [done|].
  by apply list_elem_of_lookup_2 in E.
Qed.

(** Local time has passed the transition in force. *)
Lemma local_passed : forall l prev tr lt s,
  zone_ok prev ((tr, lt) :: l) -> gmttime tr <= s -> localtime tr <= s + gmtOffset (in_force true lt l s).
Proof.
  induction l as [|[tr' lt'] l IH]; intros prev tr lt s Hz Hs; [cbn in *; lia|].
  destruct Hz as (H1&(H2&H3)&Hz). cbn [in_force key].
  destruct (Z.ltb_spec s (gmttime tr')); [lia|]. specialize (IH lt tr' lt' s Hz H). lia.
Qed.

Lemma turned_back_later : forall l prev s later,
  turned_back prev l s = Some later -> 0 < gmtOffset (in_force true prev l s) - gmtOffset later /\ exists tr, (tr, later) ∈ l.
Proof.
  induction l as [|[tr lt] l IH]; intros prev s later; cbn; [done|]. destruct (Z.ltb_spec s (gmttime tr)).
  - destruct (Z.leb_spec (gmttime tr) (s + (gmtOffset prev - gmtOffset lt))); [|done]. intros [= ->].
    split; [lia|]. exists tr. left.
  - intros Ht. destruct (IH _ _ _ Ht) as (?&tr'&?). split; [done|]. exists tr'. by right.
Qed.
(** Looking the local time of [s] up by local time finds the type in force, or the
    one that the clocks go back to. *)
Lemma local_lookup : forall l prev s,
  zone_ok prev l ->
  let c := in_force true prev l s in
  let c' := in_force false prev l (s + gmtOffset c) in
  match turned_back prev l s with
  | None => c' = c
  | Some later => c' = later /\ in_force true prev l (s + (gmtOffset c - gmtOffset later)) = later
  end.
Proof.
  induction l as [|[tr lt] l IH]; intros prev s Hz; cbn zeta; [done|].
  pose proof Hz as (H1&H2&Hz'). cbn [in_force key turned_back].
  destruct (Z.ltb_spec s (gmttime tr)) as [Hlt|Hge].
  - destruct (Z.ltb_spec (s + gmtOffset prev) (localtime tr)) as [Hb|Hb].
    { destruct (Z.leb_spec (gmttime tr) (s + (gmtOffset prev - gmtOffset lt))); [lia|done]. }
    destruct (Z.leb_spec (gmttime tr) (s + (gmtOffset prev - gmtOffset lt))) as [Hle|]; [|lia].
    destruct (Z.ltb_spec (s + (gmtOffset prev - gmtOffset lt)) (gmttime tr)); [lia|].
    destruct l as [|[tr' lt'] l]; [done|]. cbn [in_force key]. cbn zeta in H2.
    destruct (Z.ltb_spec (s + gmtOffset prev) (localtime tr')); [|lia].
    destruct (Z.ltb_spec (s + (gmtOffset prev - gmtOffset lt)) (gmttime tr')); [done|lia].
  - pose proof (local_passed l prev tr lt s Hz Hge) as Hp.
    destruct (Z.ltb_spec (s + gmtOffset (in_force true lt l s)) (localtime tr)); [lia|].
    specialize (IH lt s Hz'). cbn zeta in IH. destruct (turned_back lt l s) as [later|] eqn:Et; [|done].
    destruct IH as [IH1 IH2]. split; [done|]. destruct (turned_back_later _ _ _ _ Et) as (Hd&_).
    by destruct (Z.ltb_spec (s + (gmtOffset (in_force true lt l s) - gmtOffset later)) (gmttime tr)); [lia|].
Qed.

(** * Zone files: the format, as a writer *)

Record zone := mkzone {
  z_version : Z; z_reserved : bytes; z_isgmtcnt : Z; z_isstdcnt : Z; z_leapcnt : Z;
  z_times : list (Z * Z); z_types : list (Z * Z * Z); z_abbreviation : bytes
}.
Definition encode_type (x : Z * Z * Z) : bytes :=
  let '(off, dst, idx) := x in be_bytes 4 off ++ be_bytes 1 dst ++ be_bytes 1 idx.
Definition encode (z : zone) : bytes :=
  lit "TZif" ++ [z_version z] ++ z_reserved z ++ be_bytes 4 (z_isgmtcnt z) ++ be_bytes 4 (z_isstdcnt z) ++
  be_bytes 4 (z_leapcnt z) ++ be_bytes 4 (zlen (z_times z)) ++ be_bytes 4 (zlen (z_types z)) ++
  be_bytes 4 (zlen (z_abbreviation z)) ++ mjoin (be_bytes 4 <$> (z_times z).*1) ++
  mjoin (be_bytes 1 <$> (z_times z).*2) ++ mjoin (encode_type <$> z_types z) ++ z_abbreviation z.
Record zone_valid (z : zone) : Prop := {
  zv_reserved : zlen (z_reserved z) = 15;
  zv_counts : srange 32 (z_isgmtcnt z) /\ srange 32 (z_isstdcnt z) /\ srange 32 (z_leapcnt z) /\
    zlen (z_times z) < 2 ^ 31 /\ zlen (z_types z) < 2 ^ 31 /\ zlen (z_abbreviation z) < 2 ^ 31;
  zv_times : Forall (fun x => srange 32 x.1 /\ 0 <= x.2 < 256 /\ x.2 < zlen (z_types z)) (z_times z);
  zv_types : Forall (fun x => srange 32 x.1.1 /\ 0 <= x.1.2 < 256 /\ 0 <= x.2 < 256) (z_types z)
}.
Definition local_of (x : Z * Z * Z) : Localtime := mklocal x.1.1 (negb (x.1.2 =? 0)) x.2.
Definition trans_of (lts : list Localtime) (x : Z * Z) : Transition :=
  mktrans x.1 (x.1 + (if znth lts x.2 is Some l then gmtOffset l else 0)) x.2.
Definition data_of (z : zone) : Data :=
  let lts := local_of <$> z_types z in mkdata (trans_of lts <$> z_times z) lts (z_abbreviation z).

(** [m] reads exactly [b], returns [a] and makes [d'] of [d]. *)
Definition reads {A} (m : reader A) (b : bytes) (a : A) (d d' : Data) : Prop :=
  forall rest, m (b ++ rest, d) = (Ret a, (rest, d')).
Lemma reads_bind {A B} (m : reader A) (k : A -> reader B) b1 b2 a r d d1 d2 :
  reads m b1 a d d1 -> reads (k a) b2 r d1 d2 -> reads (m ≫= k) (b1 ++ b2) r d d2.
Proof. intros H1 H2 rest. unfold mbind, reader_bind. by rewrite <-app_assoc, H1, H2. Qed.
Lemma reads_bind_l {A B} (m : reader A) (k : A -> reader B) b a r d d1 d2 :
  reads m [] a d d1 -> reads (k a) b r d1 d2 -> reads (m ≫= k) b r d d2.
Proof. exact (reads_bind m k [] b a r d d1 d2). Qed.
Lemma reads_bind_r {A B} (m : reader A) (k : A -> reader B) b a r d d1 d2 :
  reads m b a d d1 -> reads (k a) [] r d1 d2 -> reads (m ≫= k) b r d d2.
Proof. rewrite <-(app_nil_r b) at 2. apply reads_bind. Qed.
Lemma reads_ret {A} (a : A) d : reads (mret a) [] a d d.
Proof. by intros rest. Qed.
Lemma reads_get d : reads get_data [] d d d.
Proof. by intros rest. Qed.
Lemma to_nat_zlen {A} (l : list A) : Z.to_nat (zlen l) = length l.
Proof. apply Nat2Z.id. Qed.
Lemma reads_fread n b d : n = zlen b -> reads (fread n) b b d d.
Proof.
  intros -> rest. unfold fread. cbn. by rewrite ztake_app_exact, zdrop_app_exact.
Qed.
Lemma reads_bytes n b d : n = zlen b -> reads (readBytes n) b b d d.
Proof.
  intros -> rest. unfold readBytes. pose proof (zlen_nonneg b). destruct (Z.ltb_spec (zlen b) 0); [lia|].
  unfold mbind, reader_bind. rewrite (reads_fread _ b d eq_refl), Z.eqb_refl. done.
Qed.
Lemma reads_int32 v d : srange 32 v -> reads readInt32 (be_bytes 4 v) v d d.
Proof.
  intros Hv rest. unfold readInt32, mbind, reader_bind. rewrite (reads_fread 4 (be_bytes 4 v) d) by by rewrite zlen_be_bytes.
  rewrite zlen_be_bytes. cbn [Z.eqb negb]. rewrite be_value_be_bytes. unfold i32.
  change (8 * Z.of_nat 4) with 32. rewrite swrap_uwrap, swrap_small by (done || lia). done.
Qed.
Lemma reads_uint8 v d : 0 <= v < 256 -> reads readUInt8 (be_bytes 1 v) v d d.
Proof.
  intros Hv rest. unfold readUInt8, mbind, reader_bind. rewrite (reads_fread 1 (be_bytes 1 v) d) by by rewrite zlen_be_bytes.
  rewrite zlen_be_bytes. cbn [Z.eqb negb]. rewrite be_value_be_bytes. change (8 * Z.of_nat 1) with 8.
  by rewrite uwrap_small.
Qed.
Lemma reads_times {A} (m : reader A) (enc : A -> bytes) l d :
  Forall (fun x => reads m (enc x) x d d) l -> reads (read_times (length l) m) (mjoin (enc <$> l)) l d d.
Proof.
  intros Hl. induction Hl as [|x l Hx Hl IH]; [apply reads_ret|]. cbn [read_times length].
  change (mjoin (enc <$> x :: l)) with (enc x ++ mjoin (enc <$> l)). eapply reads_bind; [done|].
  eapply reads_bind_r; [done|]. apply reads_ret.
Qed.
Lemma reads_types l : forall d, Forall (fun x => srange 32 x.1.1 /\ 0 <= x.1.2 < 256 /\ 0 <= x.2 < 256) l ->
  exists u, reads (read_times (length l) readLocaltime) (mjoin (encode_type <$> l)) u d
    (mkdata (transitions d) (localtimes d ++ (local_of <$> l)) (abbreviation d)).
Proof.
  induction l as [|[[off dst] idx] l IH]; intros d Hl.
  { exists []. cbn. rewrite app_nil_r. destruct d. apply reads_ret. }
  apply Forall_cons in Hl as [(H1&H2&H3) Hl]. cbn in H1, H2, H3.
  set (d1 := mkdata (transitions d) (localtimes d ++ [mklocal off (negb (dst =? 0)) idx]) (abbreviation d)).
  destruct (IH d1 Hl) as (u&Hu). exists (tt :: u). cbn [read_times length].
  change (mjoin (encode_type <$> (off, dst, idx) :: l)) with (encode_type (off, dst, idx) ++ mjoin (encode_type <$> l)).
  eapply reads_bind.
  - unfold readLocaltime, encode_type. eapply reads_bind; [by apply reads_int32|]. eapply reads_bind; [by apply reads_uint8|].
    eapply reads_bind_r; [by apply reads_uint8|]. instantiate (1 := d1). by intros rest.
  - eapply reads_bind_r; [done|].
    cbn [transitions localtimes abbreviation d1]. rewrite <-app_assoc. apply reads_ret.
Qed.
Lemma reads_transitions l : forall d, Forall (fun x => 0 <= x.2 < zlen (localtimes d)) l ->
  reads (for_each push_transition l) [] tt d
    (mkdata (transitions d ++ (trans_of (localtimes d) <$> l)) (localtimes d) (abbreviation d)).
Proof.
  induction l as [|[time idx] l IH]; intros d Hl.
  { cbn. rewrite app_nil_r. destruct d. apply reads_ret. }
  apply Forall_cons in Hl as [Hx Hl]. cbn in Hx. cbn [for_each]. eapply reads_bind_l.
  - unfold push_transition. eapply reads_bind_l; [apply reads_get|].
    destruct (znth (localtimes d) idx) as [lt|] eqn:E.
    + instantiate (1 := mkdata (transitions d ++ [trans_of (localtimes d) (time, idx)]) (localtimes d) (abbreviation d)).
      intros rest. unfold modify, trans_of. cbn. by rewrite E.
    + unfold znth in E. destruct (Z.ltb_spec idx 0); [lia|]. apply lookup_ge_None in E. unfold zlen in Hx. lia.
  - cbn [fmap list_fmap]. specialize (IH (mkdata (transitions d ++ [trans_of (localtimes d) (time, idx)]) (localtimes d) (abbreviation d)) Hl).
    cbn [transitions localtimes abbreviation] in IH. rewrite <-app_assoc in IH. exact IH.
Qed.

(** * Properties *)

(** [toUtcTime] is gmtime and [fromUtcTime] timegm.  From 4801 BC for more
    than a million years, before and after the epoch: the fields are in
    range, the date is a valid one of the calendar, and [fromUtcTime] gives the
    seconds back; conversely every valid date and time of day comes back from
    the seconds [fromUtcTime] computes. *)
Theorem utc_time_roundtrip s yday y m d h mi sec :
  utc_range s -> Date.valid_date (Date.mkymd y m d) -> Date.in_range y ->
  0 <= h < 24 -> 0 <= mi < 60 -> 0 <= sec < 60 ->
  let u := toUtcTime s yday in
  let v := toUtcTime (fromUtcTime_fields y m d h mi sec) yday in
  (0 <= tm_sec u < 60 /\ 0 <= tm_min u < 60 /\ 0 <= tm_hour u < 24) /\
  Date.valid_date (ymd_of u) /\ fromUtcTime u = s /\
  ymd_of v = Date.mkymd y m d /\ (tm_hour v, tm_min v, tm_sec v) = (h, mi, sec).
Proof.
  intros Hs Hv Hy Hh Hm Hsec. cbn zeta.
  destruct (toUtcTime_date s yday Hs) as (Hd&Ht&_). unfold fillHMS in Ht. injection Ht as H1 H2 H3.
  split; [|split].
  - rewrite H1, H2, H3. unfold kSecondsPerDay. Z.to_euclidean_division_equations. lia.
  - rewrite Hd. apply (Date.number_roundtrip_aux _ (julian_range s Hs)).
  - split; [by apply fromUtc_toUtc|].
    pose proof (Date.date_number_bounds _ Hv Hy) as Hb. pose proof (Date.date_roundtrip_aux _ Hv Hy) as Hback.
    cbn [Date.year Date.month Date.day] in *. unfold Date.in_int in Hb.
    set (n := Date.getJulianDayNumber y m d) in *. set (r := h * 3600 + mi * 60 + sec).
    assert (0 <= r < 86400) as Hr by (unfold r; lia).
    assert (fromUtcTime_fields y m d h mi sec = (n - 2440588) * 86400 + r) as E by done.
    set (F := fromUtcTime_fields y m d h mi sec) in *. clearbody F n.
    assert (utc_range F) as Hrange.
    { rewrite E. unfold utc_range, kSecondsPerDay. change (24 * 60 * 60) with 86400. lia. }
    destruct (toUtcTime_date _ yday Hrange) as (Hd'&Ht'&_). unfold fillHMS in Ht'. injection Ht' as E1 E2 E3.
    rewrite Hd', E1, E2, E3. rewrite E. unfold kSecondsPerDay. change (24 * 60 * 60) with 86400.
    rewrite (Z.add_comm ((n - 2440588) * 86400)), Z.mod_add, Z.div_add by lia.
    rewrite (Z.mod_small r), (Z.div_small r) by lia. change Date.kJulianDayOf1970_01_01 with 2440588.
    replace (0 + (n - 2440588) + 2440588) with n by lia. split; [done|].
    unfold r. f_equal; [f_equal|]; Z.to_euclidean_division_equations; lia.
Qed.
Lemma utc_time_roundtrip_witness :
  fromUtcTime (toUtcTime (-1) true) = -1 /\
  ymd_of (toUtcTime (fromUtcTime_fields 2024 2 29 23 59 59) true) = Date.mkymd 2024 2 29.
Proof.
  destruct (utc_time_roundtrip (-1) true 2024 2 29 23 59 59) as (_&_&H1&H2&_).
  - vm_compute. split; [discriminate|reflexivity].
  - vm_compute. intuition discriminate.
  - unfold Date.in_range. lia.
  - lia.
  - lia.
  - lia.
  - split; [exact H1|exact H2].
Defined.

(** C19: Local time and back.  For a zone whose transitions are in order (by UTC
    and by local time, none within a time that comes twice), [toLocalTime] gives
    the local time of the type in force: the one of the last transition not after
    the time, the first type of the file before all transitions.
    [fromLocalTime] undoes it at every time whose local time does not come again;
    where it does, because the clocks are about to go back to type [later], it
    gives the second of the two times, or, if they go back from summer to
    standard time, the one an hour before that.  So the time itself comes back also
    in the first passage of the hour that comes twice each autumn, but not when
    clocks go back within standard time or by something else than an hour. *)
Theorem local_time_roundtrip gmtime_r timegm data front lts l s :
  (forall x off, timegm (set_gmtoff off (gmtime_r x)) = x) ->
  localtimes data = front :: lts -> resolve (localtimes data) (transitions data) = Some l -> zone_ok front l ->
  Forall (fun lt => 0 <= arrbIdx lt <= zlen (abbreviation data)) (localtimes data) ->
  let lt := in_force true front l s in
  exists zone, zone_name (abbreviation data) (arrbIdx lt) = Ok zone /\
  let local := mkltm (set_gmtoff (gmtOffset lt) (gmtime_r (s + gmtOffset lt))) (isDst lt) zone in
  toLocalTime gmtime_r (Some data) s = Ok local /\
  match turned_back front l s with
  | None => fromLocalTime gmtime_r timegm (Some data) local = Ok s
  | Some later =>
      let second := s + (gmtOffset lt - gmtOffset later) in
      fromLocalTime gmtime_r timegm (Some data) local = Ok (if isDst lt && negb (isDst later) then second - 3600 else second)
  end.
Proof.
  intros Htm Hlts Hres Hz Hzone. cbn zeta. set (lt := in_force true front l s).
  assert (forall x, exists zone, zone_name (abbreviation data) (arrbIdx (in_force true front l x)) = Ok zone /\
    toLocalTime gmtime_r (Some data) x = Ok (mkltm (set_gmtoff (gmtOffset (in_force true front l x))
      (gmtime_r (x + gmtOffset (in_force true front l x)))) (isDst (in_force true front l x)) zone)) as Hto.
  { intros x. unfold toLocalTime. rewrite (findLocaltime_ok true data front lts l _ Hlts Hres Hz).
    cbn [key gmttime mbind outcome_bind]. assert (in_force true front l x ∈ localtimes data) as Hin.
    { apply (in_force_elem _ _ _ _ _ _ Hres). rewrite Hlts. by left. }
    destruct (proj1 (Forall_forall _ _) Hzone _ Hin). unfold zone_name.
    destruct (Z.leb_spec 0 (arrbIdx (in_force true front l x))), (Z.leb_spec (arrbIdx (in_force true front l x)) (zlen (abbreviation data))); try lia.
    by eexists. }
  destruct (Hto s) as (zone&Hzn&Hs). exists zone. split; [done|]. split; [exact Hs|].
  unfold fromLocalTime. cbn [ltm tm_isdst]. rewrite Htm.
  rewrite (findLocaltime_ok false data front lts l _ Hlts Hres Hz). cbn [key localtime mbind outcome_bind].
  pose proof (local_lookup l front s Hz) as Hl. cbn zeta in Hl. fold lt in Hl.
  destruct (turned_back front l s) as [later|]; [destruct Hl as [-> Hnext]|rewrite Hl].
  - destruct (Hto (s + (gmtOffset lt - gmtOffset later))) as (zone'&_&Hs'). rewrite Hnext in Hs'.
    replace (s + gmtOffset lt - gmtOffset later) with (s + (gmtOffset lt - gmtOffset later)) by lia.
    destruct (isDst lt); [|done]. rewrite Hs'. cbn [mbind outcome_bind tm_isdst ltm].
    replace (s + (gmtOffset lt - gmtOffset later) + gmtOffset later) with (s + gmtOffset lt) by lia.
    unfold set_gmtoff. cbn [tm_hour tm_min]. rewrite !Z.eqb_refl, !andb_true_r. cbn [andb].
    destruct (negb (isDst later)); f_equal; lia.
  - destruct (isDst lt) eqn:Ed; [|f_equal; lia].
    replace (s + gmtOffset lt - gmtOffset lt) with s by lia. rewrite Hs. cbn [mbind outcome_bind tm_isdst]. fold lt.
    rewrite Ed. done.
Qed.

(** C20: A zone file comes back as its data.  For every table of transition times,
    types and abbreviations within the ranges of the format, [readTimeZoneFile]
    on the bytes of the TZif file (followed by anything) fills [Data] with the
    types, the transitions with their local times, and the abbreviations. *)
Theorem zone_file_roundtrip z rest : zone_valid z ->
  readTimeZoneFile (Some (encode z ++ rest)) empty_data = Ok (true, data_of z).
Proof.
  intros [Hr (Hc1&Hc2&Hc3&Hc4&Hc5&Hc6) Ht Hty]. unfold readTimeZoneFile.
  enough (reads read_zone (encode z) tt empty_data (data_of z)) as Hz by (by rewrite Hz).
  pose proof (zlen_nonneg (z_times z)). pose proof (zlen_nonneg (z_types z)). pose proof (zlen_nonneg (z_abbreviation z)).
  unfold read_zone, encode. eapply reads_bind; [by apply reads_bytes|].
  unfold bytes_eqb. rewrite bool_decide_eq_true_2 by done. cbn [negb].
  eapply reads_bind; [by apply reads_bytes|]. eapply reads_bind; [by apply reads_bytes|].
  do 6 (eapply reads_bind; [apply reads_int32; (done || unfold srange; lia)|]).
  destruct (Z.ltb_spec (zlen (z_times z)) 0); [lia|]. rewrite !to_nat_zlen.
  eapply reads_bind.
  { rewrite <-(length_fmap fst (z_times z)). apply reads_times. apply Forall_fmap. eapply Forall_impl; [exact Ht|].
    intros x (Hx&_). by apply reads_int32. }
  eapply reads_bind.
  { rewrite <-(length_fmap snd (z_times z)). apply reads_times. apply Forall_fmap. eapply Forall_impl; [exact Ht|].
    intros x (_&Hx&_). by apply reads_uint8. }
  destruct (reads_types (z_types z) empty_data Hty) as (u&Hu). eapply reads_bind; [exact Hu|].
  eapply reads_bind_l.
  { rewrite zip_fst_snd. apply reads_transitions. cbn. eapply Forall_impl; [exact Ht|]. intros x (_&Hx&Hx').
    cbn. unfold zlen in *. rewrite length_fmap. lia. }
  eapply reads_bind_r; [by apply reads_bytes|].
  intros r. unfold modify, data_of. done.
Qed.
(** New York in 2007: from the second Sunday of March to the first of
    November. *)
Definition new_york : zone :=
  mkzone 50 (replicate 15 0) 0 0 0 [(1173596400, 1); (1194156000, 0)] [(-18000, 0, 0); (-14400, 1, 4)]
    (lit "EST" ++ [0] ++ lit "EDT" ++ [0]).
Lemma zone_file_roundtrip_witness :
  readTimeZoneFile (Some (encode new_york ++ lit "more")) empty_data =
    Ok (true, mkdata [mktrans 1173596400 1173582000 1; mktrans 1194156000 1194138000 0]
      [mklocal (-18000) false 0; mklocal (-14400) true 4] (lit "EST" ++ [0] ++ lit "EDT" ++ [0])).
Proof.
  rewrite (zone_file_roundtrip new_york (lit "more")); [reflexivity|].
  split; [reflexivity|vm_compute; intuition discriminate| |]; repeat constructor; vm_compute; intuition discriminate.
Defined.

(** Half an hour before the clocks go back, in the hour that comes twice. *)
Definition witness_gmtime (x : Z) : tm := mktm (x mod 60) ((x / 60) mod 60) ((x / 60 / 60) mod 24) (x / 60 / 60 / 24) 0 0 0 0 0.
Definition witness_timegm (u : tm) : Z := ((tm_mday u * 24 + tm_hour u) * 60 + tm_min u) * 60 + tm_sec u.
Lemma local_time_roundtrip_witness :
  exists zone, zone_name (abbreviation (data_of new_york)) 4 = Ok zone /\
    fromLocalTime witness_gmtime witness_timegm (Some (data_of new_york))
      (mkltm (set_gmtoff (-14400) (witness_gmtime (1194154200 - 14400))) true zone) = Ok 1194154200.
Proof.
  destruct (local_time_roundtrip witness_gmtime witness_timegm (data_of new_york) (mklocal (-18000) false 0)
    [mklocal (-14400) true 4]
    [(mktrans 1173596400 1173582000 1, mklocal (-14400) true 4); (mktrans 1194156000 1194138000 0, mklocal (-18000) false 0)]
    1194154200) as (zone&Hz&_&H).
  - intros x off. unfold witness_timegm, witness_gmtime, set_gmtoff. cbn [tm_sec tm_min tm_hour tm_mday].
    pose proof (Z.div_mod x 60 ltac:(discriminate)). pose proof (Z.div_mod (x / 60) 60 ltac:(discriminate)).
    pose proof (Z.div_mod (x / 60 / 60) 24 ltac:(discriminate)). lia.
  - reflexivity.
  - reflexivity.
  - vm_compute. intuition discriminate.
  - repeat constructor; vm_compute; intuition discriminate.
  - exists zone. split; [exact Hz|exact H].
Defined.

(** Lord Howe Island, 2 April 2023: at 15:00 UTC the clocks go back half an hour,
    from 11 hours east to 10:30, so that 01:30 to 02:00 comes twice.  The first
    01:40 comes back as 01:10. *)
Definition lord_howe : zone :=
  mkzone 50 (replicate 15 0) 0 0 0 [(1664638200, 1); (1680361200, 0)] [(37800, 0, 0); (39600, 1, 6)]
    (lit "+1030" ++ [0] ++ lit "+11" ++ [0]).
Example lord_howe_comes_back_early :
  exists local, toLocalTime witness_gmtime (Some (data_of lord_howe)) 1680360000 = Ok local /\
    tm_hour (ltm local) = 1 /\ tm_min (ltm local) = 40 /\
    fromLocalTime witness_gmtime witness_timegm (Some (data_of lord_howe)) local = Ok (1680360000 - 1800).
Proof. eexists. split; [vm_compute; reflexivity|]. by vm_compute. Qed.

(** A zone file that does not exist makes a zone that is [valid] and has no local
    time type: [toLocalTime] takes the front of an empty vector. *)
Example missing_zone_file_is_valid gmtime_r s :
  of_file None = Ok (Some empty_data) /\ valid (Some empty_data) = true /\
  toLocalTime gmtime_r (Some empty_data) s = Err (Undefined "vector index").
Proof. done. Qed.
End TimeZone.
