(* ===== verification/BaseLogging.v ===== *)
(** src/muduo/base/Logging.h and Logging.cc: a log statement.

    The state is the thread's ([t_time], [t_lastSecond] and the cached thread
    id); the level, the zone, gmtime_r and strerror_r are arguments.  A
    statement gives the line handed to [g_output] and whether the process
    aborts; BaseLogger has the hooks.  Insertion into the 4000-byte buffer is that of BaseLogStream. *)

From S2P Require Import Prelude BaseTimestamp BaseLogStream BaseThread BaseTimeZone.

Module Logging.
Import LogStream.

(** * Levels and macros *)

Inductive LogLevel := TRACE | DEBUG | INFO | WARN | ERROR | FATAL.
#[export] Instance LogLevel_eq_dec : EqDecision LogLevel.
Proof. solve_decision. Defined.
Definition level_num (l : LogLevel) : Z :=
  match l with TRACE => 0 | DEBUG => 1 | INFO => 2 | WARN => 3 | ERROR => 4 | FATAL => 5 end.
Definition LogLevelName (l : LogLevel) : bytes :=
  match l with
  | TRACE => lit "TRACE " | DEBUG => lit "DEBUG " | INFO => lit "INFO  "
  | WARN => lit "WARN  " | ERROR => lit "ERROR " | FATAL => lit "FATAL "
  end.
Definition initLogLevel (env_trace env_debug : bool) : LogLevel :=
  if env_trace then TRACE else if env_debug then DEBUG else INFO.

Inductive macro := LOG_TRACE | LOG_DEBUG | LOG_INFO | LOG_WARN | LOG_ERROR | LOG_FATAL | LOG_SYSERR | LOG_SYSFATAL.
Definition level_of (m : macro) : LogLevel :=
  match m with
  | LOG_TRACE => TRACE | LOG_DEBUG => DEBUG | LOG_INFO => INFO | LOG_WARN => WARN
  | LOG_ERROR | LOG_SYSERR => ERROR | LOG_FATAL | LOG_SYSFATAL => FATAL
  end.
(** The [if] of the first three macros. *)
Definition enabled (logLevel : LogLevel) (m : macro) : bool :=
  match m with
  | LOG_TRACE => level_num logLevel <=? level_num TRACE
  | LOG_DEBUG => level_num logLevel <=? level_num DEBUG
  | LOG_INFO => level_num logLevel <=? level_num INFO
  | _ => true
  end.
Definition prints_func (m : macro) : bool := match m with LOG_TRACE | LOG_DEBUG => true | _ => false end.
Definition saves_errno (m : macro) : bool := match m with LOG_SYSERR | LOG_SYSFATAL => true | _ => false end.

(** * SourceFile: the part of the path after the last slash *)

Fixpoint strrchr (s : bytes) (c : Z) : option Z :=
  match s with
  | [] => None
  | x :: s' =>
      match strrchr s' c with
      | Some i => Some (i + 1)
      | None => if x =? c then Some 0 else None
      end
  end.
(** [data_] as an offset, and [size_]. *)
Definition SourceFile (arr : bytes) : Z * Z :=
  let size_ := zlen arr in
  match strrchr arr 47 with
  | Some slash => let data_ := slash + 1 in (data_, size_ - data_)
  | None => (0, size_)
  end.
Definition SourceFile_cstr (filename : bytes) : Z * Z :=
  let data_ := match strrchr filename 47 with Some slash => slash + 1 | None => 0 end in
  (data_, zlen (zdrop data_ filename)).
Definition source_text (arr : bytes) (f : Z * Z) : bytes := zslice (fst f) (fst f + snd f) arr.

(** * A statement *)

Record local := mklocal { t_time : bytes; t_lastSecond : Z; t_current : Thread.current }.
Definition new_local : local := mklocal [] 0 Thread.new_current.

Record statement := mkstatement {
  s_macro : macro; s_time : Timestamp.t; s_errno : Z; s_file : bytes; s_line : Z; s_func : bytes; s_items : list item
}.

Section Logger.
Context (gmtime_r : Z -> tm) (strerror_tl : Z -> bytes) (gettid : Z) (fmt_g : double -> bytes).
Context (g_logTimeZone : option TimeZone.Data).

(** [T(str, len)] and its insertion. *)
Definition T (str : bytes) (len : Z) : outcome item :=
  massert (zlen str =? len) "strlen(str) == len_";; Ok (IString str).

Definition broken_down (seconds : Z) : outcome tm :=
  if TimeZone.valid g_logTimeZone
  then l ← TimeZone.toLocalTime gmtime_r g_logTimeZone seconds; Ok (TimeZone.ltm l)
  else Ok (gmtime_r seconds).
Definition date_text (x : tm) : bytes :=
  fmt_wd 4 (tm_year x + 1900) ++ fmt_0d 2 (tm_mon x + 1) ++ fmt_0d 2 (tm_mday x) ++ lit " " ++
  fmt_0d 2 (tm_hour x) ++ lit ":" ++ fmt_0d 2 (tm_min x) ++ lit ":" ++ fmt_0d 2 (tm_sec x).

Definition formatTime (time_ : Timestamp.t) (l : local) : outcome (local * list item) :=
  let microSecondsSinceEpoch := time_ in
  let seconds := Z.quot microSecondsSinceEpoch Timestamp.kMicroSecondsPerSecond in
  let microseconds := i32 (Z.rem microSecondsSinceEpoch Timestamp.kMicroSecondsPerSecond) in
  l ← (if negb (seconds =? t_lastSecond l)
       then
         tm_time ← broken_down seconds;
         massert (zlen (date_text tm_time) =? 17) "len == 17";;
         Ok (mklocal (snprintf 64 (date_text tm_time)) seconds (t_current l))
       else Ok l);
  if TimeZone.valid g_logTimeZone
  then
    let us := lit "." ++ fmt_0d 6 microseconds ++ lit " " in
    massert (zlen us =? 8) "us.length() == 8";;
    a ← T (t_time l) 17; b ← T us 8; Ok (l, [a; b])
  else
    let us := lit "." ++ fmt_0d 6 microseconds ++ lit "Z " in
    massert (zlen us =? 9) "us.length() == 9";;
    a ← T (t_time l) 17; b ← T us 9; Ok (l, [a; b]).

(** What [Impl]'s constructor inserts. *)
Definition Impl_new (time_ : Timestamp.t) (level : LogLevel) (savedErrno : Z) (l : local) : outcome (local * list item) :=
  '(l, its) ← formatTime time_ l;
  let c := snd (Thread.tid gettid (t_current l)) in
  a ← T (Thread.t_tidString c) (Thread.t_tidStringLength c);
  b ← T (LogLevelName level) 6;
  Ok (mklocal (t_time l) (t_lastSecond l) c,
      its ++ [a; b] ++
      (if negb (savedErrno =? 0)
       then [ICstr (Some (strerror_tl savedErrno)); ICstr (Some (lit " (errno=")); IInteger savedErrno; ICstr (Some (lit ") "))]
       else [])).
Definition finish (file : bytes) (line_ : Z) : list item :=
  [ICstr (Some (lit " - ")); IString (source_text file (SourceFile file)); IChar 58; IInteger line_; IChar 10].

(** The whole statement: the constructor, the caller's insertions and the
    destructor.  [None] when the macro's test fails; else the line and whether
    the process aborts after flushing. *)
Definition log (logLevel : LogLevel) (s : statement) (l : local) : outcome (local * option (bytes * bool)) :=
  let m := s_macro s in
  if enabled logLevel m
  then
    '(l, its) ← Impl_new (s_time s) (level_of m) (if saves_errno m then s_errno s else 0) l;
    b ← insert_all fmt_g (mkbuf (replicate (Z.to_nat kSmallBuffer) 0) 0)
          (its ++ (if prints_func m then [ICstr (Some (s_func s)); IChar 32] else []) ++ s_items s ++ finish (s_file s) (s_line s));
    Ok (l, Some (toString b, bool_decide (level_of m = FATAL)))
  else Ok (l, None).

(** The lines of the statements a thread executes, until one aborts. *)
Fixpoint log_all (logLevel : LogLevel) (ss : list statement) (l : local) : outcome (list bytes) :=
  match ss with
  | [] => Ok []
  | s :: ss' =>
      '(l, r) ← log logLevel s l;
      match r with
      | None => log_all logLevel ss' l
      | Some (line, true) => Ok [line]
      | Some (line, false) => lines ← log_all logLevel ss' l; Ok (line :: lines)
      end
  end.

(** * Reference: every line formatted from scratch *)

(** The statements that print nothing: those below the level in force, but no
    warning, error or fatal one. *)
Definition silent (logLevel : LogLevel) (m : macro) : bool :=
  match m, logLevel with
  | LOG_TRACE, TRACE => false
  | LOG_TRACE, _ => true
  | LOG_DEBUG, (TRACE | DEBUG) => false
  | LOG_DEBUG, _ => true
  | LOG_INFO, (TRACE | DEBUG | INFO) => false
  | LOG_INFO, _ => true
  | _, _ => false
  end.
Definition level_text (m : macro) : bytes :=
  match m with
  | LOG_TRACE => lit "TRACE " | LOG_DEBUG => lit "DEBUG " | LOG_INFO => lit "INFO  " | LOG_WARN => lit "WARN  "
  | LOG_ERROR => lit "ERROR " | LOG_SYSERR => lit "ERROR " | LOG_FATAL => lit "FATAL " | LOG_SYSFATAL => lit "FATAL "
  end.
Definition errno_text (s : statement) : bytes :=
  match s_macro s with
  | LOG_SYSERR | LOG_SYSFATAL =>
      if s_errno s =? 0 then [] else strerror_tl (s_errno s) ++ lit " (errno=" ++ fmt_d (s_errno s) ++ lit ") "
  | _ => []
  end.
Definition func_text (s : statement) : bytes :=
  match s_macro s with LOG_TRACE | LOG_DEBUG => s_func s ++ lit " " | _ => [] end.
Definition is_last (m : macro) : bool := match m with LOG_FATAL | LOG_SYSFATAL => true | _ => false end.
(** The last component of a path; [name] is the component read so far. *)
Fixpoint basename_from (name path : bytes) : bytes :=
  match path with
  | [] => name
  | c :: path' => if c =? 47 then basename_from [] path' else basename_from (name ++ [c]) path'
  end.
Definition basename (path : bytes) : bytes := basename_from [] path.

Definition time_text (time_ : Timestamp.t) : bytes :=
  (if broken_down (Z.quot time_ 1000000) is Ok x then date_text x else []) ++ lit "." ++ fmt_0d 6 (Z.rem time_ 1000000) ++
  (if TimeZone.valid g_logTimeZone then lit " " else lit "Z ").
Definition prefix (s : statement) : bytes :=
  time_text (s_time s) ++ fmt_wd 5 gettid ++ lit " " ++ level_text (s_macro s) ++ errno_text s ++ func_text s.
Definition suffix (s : statement) : bytes := lit " - " ++ basename (s_file s) ++ lit ":" ++ fmt_d (s_line s) ++ [10].
Definition full_line (s : statement) : bytes := prefix s ++ mjoin (render fmt_g <$> s_items s) ++ suffix s.
Fixpoint lines (logLevel : LogLevel) (ss : list statement) : list bytes :=
  match ss with
  | [] => []
  | s :: ss' =>
      if silent logLevel (s_macro s) then lines logLevel ss'
      else full_line s :: (if is_last (s_macro s) then [] else lines logLevel ss')
  end.

(** * Lemmas *)

(** Setting off what follows the last slash. *)
Lemma strrchr_spec path :
  match strrchr path 47 with
  | Some i => 0 <= i < zlen path /\ forall name, basename_from name path = zdrop (i + 1) path
  | None => forall name, basename_from name path = name ++ path
  end.
Proof.
  induction path as [|x path IH]; cbn [strrchr basename_from]; [intros name; by rewrite app_nil_r|].
  rewrite zlen_cons. destruct (strrchr path 47) as [i|].
  - destruct IH as [Hi IH]. split; [lia|]. intros name.
    assert (zdrop (i + 1 + 1) (x :: path) = zdrop (i + 1) path) as -> by (unfold zdrop; by replace (Z.to_nat (i + 1 + 1)) with (S (Z.to_nat (i + 1))) by lia).
    rewrite !IH. by destruct (x =? 47).
  - destruct (Z.eqb_spec x 47).
    + split; [zlia|]. intros name. by rewrite IH.
    + intros name. by rewrite IH, <-app_assoc.
Qed.
Lemma basename_spec path : source_text path (SourceFile path) = basename path.
Proof.
  unfold basename, source_text, SourceFile. pose proof (strrchr_spec path) as H.
  destruct (strrchr path 47) as [i|]; cbn [fst snd].
  - destruct H as [Hi ->]. unfold zslice. rewrite ztake_all; [done|]. rewrite zlen_zdrop; lia.
  - rewrite H. cbn [app]. apply zslice_full; lia.
Qed.
Lemma silent_enabled logLevel m : enabled logLevel m = negb (silent logLevel m).
Proof. by destruct m, logLevel. Qed.
Lemma level_text_of m : LogLevelName (level_of m) = level_text m.
Proof. by destruct m. Qed.
Lemma is_last_fatal m : bool_decide (level_of m = FATAL) = is_last m.
Proof. by destruct m. Qed.

Definition tm_ok (x : tm) : Prop :=
  0 <= tm_year x + 1900 < 10000 /\ 0 <= tm_mon x + 1 < 100 /\ 0 <= tm_mday x < 100 /\
  0 <= tm_hour x < 100 /\ 0 <= tm_min x < 100 /\ 0 <= tm_sec x < 100.

Lemma date_text_length x : tm_ok x -> zlen (date_text x) = 17.
Proof.
  intros (H1&H2&H3&H4&H5&H6). unfold date_text. rewrite !zlen_app, !(fmt_0d_length 2) by (lia || cbn; lia).
  assert (zlen (fmt_wd 4 (tm_year x + 1900)) = 4) as ->; [|done].
  unfold fmt_wd. apply pad_length. pose proof (fmt_d_length 4 (tm_year x + 1900)) as H. unfold zlen in H. cbn in H. lia.
Qed.

Definition tid_text : bytes := fmt_wd 5 gettid ++ lit " ".
Definition current_ok (c : Thread.current) : Prop :=
  Thread.t_cachedTid c = 0 \/
  (Thread.t_cachedTid c <> 0 /\ Thread.t_tidString c = tid_text /\ Thread.t_tidStringLength c = zlen tid_text).
Definition cache_ok (l : local) : Prop :=
  (t_lastSecond l = 0 \/ exists x, broken_down (t_lastSecond l) = Ok x /\ tm_ok x /\ t_time l = date_text x) /\
  current_ok (t_current l).

Context (Htid : 0 < gettid < 2 ^ 31).
Lemma tid_text_length : zlen tid_text <= 11.
Proof.
  unfold tid_text, fmt_wd, pad_left. rewrite !zlen_app, zlen_replicate.
  assert (0 <= gettid < 10 ^ Z.of_nat 10) as Hg by (change (10 ^ Z.of_nat 10) with 10000000000; lia).
  pose proof (fmt_d_length 10 gettid Hg ltac:(lia)) as Hl. change (zlen (lit " ")) with 1. unfold zlen in *. lia.
Qed.
Lemma current_tid c : current_ok c ->
  let c' := snd (Thread.tid gettid c) in
  Thread.t_tidString c' = tid_text /\ Thread.t_tidStringLength c' = zlen tid_text /\ current_ok c'.
Proof.
  intros Hc. unfold Thread.tid. destruct (Z.eqb_spec (Thread.t_cachedTid c) 0) as [E|E].
  - unfold Thread.cacheTid. rewrite E. cbn [Z.eqb]. fold tid_text. unfold snprintf. pose proof tid_text_length as Hl. rewrite ztake_all by lia. split; [done|]. split; [done|]. right. cbn.
    split; [lia|done].
  - destruct Hc as [Hc|(_&H1&H2)]; [done|]. cbn. split; [done|]. split; [done|]. by right.
Qed.

Definition statement_ok (s : statement) : Prop :=
  1000000 <= s_time s < 2 ^ 63 /\ (exists x, broken_down (Z.quot (s_time s) 1000000) = Ok x /\ tm_ok x) /\
  srange 32 (s_errno s) /\ srange 32 (s_line s) /\ Forall (item_ok fmt_g) (s_items s) /\
  zlen (full_line s) + kMaxNumericSize < kSmallBuffer.

Lemma formatTime_ok time_ l x :
  1000000 <= time_ -> broken_down (Z.quot time_ 1000000) = Ok x -> tm_ok x -> cache_ok l ->
  exists l' a b, formatTime time_ l = Ok (l', [IString a; IString b]) /\ cache_ok l' /\ a ++ b = time_text time_.
Proof.
  intros Ht Hx Hok (Hc&Hcur). unfold formatTime, Timestamp.kMicroSecondsPerSecond. change (1000 * 1000) with 1000000.
  set (sec := Z.quot time_ 1000000) in *.
  assert (0 < sec) as Hsec by (unfold sec; apply Z.quot_str_pos; lia).
  assert (0 <= Z.rem time_ 1000000 < 1000000) as Hrem by (apply Z.rem_bound_pos; lia).
  assert (i32 (Z.rem time_ 1000000) = Z.rem time_ 1000000) as -> by (apply swrap_small; [lia|unfold srange; lia]).
  assert (exists l', (if negb (sec =? t_lastSecond l) then
      tm_time ← broken_down sec; massert (zlen (date_text tm_time) =? 17) "len == 17";;
      Ok (mklocal (snprintf 64 (date_text tm_time)) sec (t_current l)) else Ok l) = Ok l' /\
    cache_ok l' /\ t_time l' = date_text x) as (l'&->&Hc'&Htime).
  { destruct (Z.eqb_spec sec (t_lastSecond l)) as [E|E]; cbn [negb].
    - exists l. split; [done|]. destruct Hc as [Hc|(y&Hy&_&Hty)]; [lia|]. rewrite <-E in Hy.
      assert (y = x) as -> by congruence. split; [|done]. split; [right; exists x; by rewrite <-E|done].
    - rewrite Hx. cbn [mbind outcome_bind]. rewrite (date_text_length x Hok). cbn [Z.eqb Pos.eqb massert mbind outcome_bind].
      eexists. split; [done|]. unfold snprintf. rewrite ztake_all by (rewrite date_text_length; [lia|done]).
      split; [|done]. split; [right; by exists x|done]. }
  cbn [mbind outcome_bind]. unfold time_text. fold sec. rewrite Hx, Htime. unfold T. rewrite (date_text_length x Hok).
  destruct (TimeZone.valid g_logTimeZone); rewrite !zlen_app, (fmt_0d_length 6) by (lia || cbn; lia);
    cbn [zlen length lit Z.of_nat Pos.of_succ_nat Pos.succ Z.add Pos.add Z.eqb Pos.eqb massert mbind outcome_bind];
    eexists _, _, _; (split; [done|]); by split.
Qed.

Lemma Impl_new_ok time_ level savedErrno l x :
  1000000 <= time_ -> broken_down (Z.quot time_ 1000000) = Ok x -> tm_ok x -> cache_ok l -> srange 32 savedErrno ->
  exists l' its, Impl_new time_ level savedErrno l = Ok (l', its) /\ cache_ok l' /\ Forall (item_ok fmt_g) its /\
    mjoin (render fmt_g <$> its) = time_text time_ ++ tid_text ++ LogLevelName level ++
      (if negb (savedErrno =? 0) then strerror_tl savedErrno ++ lit " (errno=" ++ fmt_d savedErrno ++ lit ") " else []).
Proof.
  intros Ht Hx Hok Hc He. unfold Impl_new. destruct (formatTime_ok time_ l x Ht Hx Hok Hc) as (l1&a&b&->&(Hc1&Hcur)&Hab).
  cbn [mbind outcome_bind]. destruct (current_tid (t_current l1) Hcur) as (H1&H2&Hcur'). rewrite H1, H2.
  unfold T. rewrite Z.eqb_refl. cbn [massert mbind outcome_bind].
  assert (zlen (LogLevelName level) = 6) as -> by by destruct level. cbn [Z.eqb Pos.eqb massert mbind outcome_bind].
  eexists _, _. split; [done|]. split; [by split|]. unfold srange in He.
  destruct (negb (savedErrno =? 0)).
  - split; [repeat constructor; cbn; lia|]. cbn -[lit]. rewrite <-Hab, <-!app_assoc. by rewrite app_nil_r.
  - split; [by repeat constructor|]. cbn. by rewrite <-Hab, <-!app_assoc, !app_nil_r.
Qed.

Lemma log_ok logLevel s l : cache_ok l -> statement_ok s ->
  exists l', log logLevel s l = Ok (l', if silent logLevel (s_macro s)
    then None else Some (full_line s, is_last (s_macro s))) /\ cache_ok l'.
Proof.
  intros Hc (Ht&(x&Hx&Hok)&He&Hline&Hits&Hlen). unfold log. rewrite silent_enabled, is_last_fatal.
  destruct (silent logLevel (s_macro s)); cbn [negb]; [by exists l|].
  set (err := if saves_errno (s_macro s) then s_errno s else 0).
  assert (srange 32 err) as Herr by (unfold err; destruct (saves_errno _); [done|unfold srange; lia]).
  destruct (Impl_new_ok (s_time s) (level_of (s_macro s)) err l x) as (l'&its&->&Hc'&Hok'&Htext); [lia|done|done|done|done|].
  cbn [mbind outcome_bind]. set (all := its ++ _).
  assert (mjoin (render fmt_g <$> all) = full_line s) as Hall.
  { unfold all, finish. rewrite !fmap_app, !join_app, Htext, level_text_of. unfold full_line, prefix, suffix, tid_text, err, errno_text, func_text.
    rewrite <-basename_spec.
    destruct (s_macro s); cbn [saves_errno prints_func Z.eqb negb]; try destruct (s_errno s =? 0);
      do 4 (cbn; rewrite <-?app_assoc); reflexivity. }
  destruct (insert_all_ok fmt_g all (mkbuf (replicate (Z.to_nat kSmallBuffer) 0) 0)) as (b&->&Hb&Hs&Hb').
  { unfold wf, zlen. cbn [data_ cur_]. rewrite length_replicate. unfold kSmallBuffer. lia. }
  { unfold all, finish. unfold srange in Hline. rewrite !Forall_app. split; [done|]. split; [destruct (prints_func _); by repeat constructor|].
    split; [done|]. repeat constructor; cbn; lia. }
  cbn [mbind outcome_bind]. exists l'. split; [|done]. f_equal. f_equal. f_equal. f_equal.
  assert (text (mkbuf (replicate (Z.to_nat kSmallBuffer) 0) 0) = []) as E0 by done. rewrite E0 in Hb'. cbn [data_] in *.
  rewrite zlen_replicate in *. change (Z.of_nat (Z.to_nat kSmallBuffer)) with kSmallBuffer in *.
  rewrite line_with_room in Hb' by (rewrite Hall; rewrite zlen_nil; lia). rewrite Hall in Hb'. cbn [app] in Hb'.
  rewrite <-Hb'. destruct Hb as (Hcur&_). unfold toString, length_, text. f_equal.
  apply swrap_small; [lia|]. rewrite Hs in Hcur. unfold kSmallBuffer in Hcur. unfold srange. lia.
Qed.

Lemma log_all_ok logLevel ss : forall l, cache_ok l -> Forall statement_ok ss -> log_all logLevel ss l = Ok (lines logLevel ss).
Proof.
  induction ss as [|s ss IH]; intros l Hc Hss; cbn [log_all lines]; [done|]. apply Forall_cons in Hss as [Hs Hss].
  destruct (log_ok logLevel s l Hc Hs) as (l'&->&Hc'). cbn [mbind outcome_bind]. destruct (silent _ _); [by apply IH|].
  destruct (is_last _); [done|]. by rewrite IH.
Qed.
End Logger.

(** * Property *)

(** C18: The lines a thread logs under one time zone.  For any statements made
    after the first second of 1970, whose lines fit the buffer and whose times are
    broken down to fields of the usual widths, the assertions on the widths hold
    and every line printed is the date and time with microseconds, the thread id,
    the level, the error text of a LOG_SYS statement, the function's name for
    TRACE and DEBUG, the items, and the file's name without its directory with the
    line number, as if formatted from scratch: the cached second and thread id do
    not show through.  LOG_TRACE, LOG_DEBUG and LOG_INFO print nothing when the
    level in force is above theirs, the others always print, and nothing is printed
    after a FATAL one.  (In second 0, and right after [setTimeZone], the cache does
    show through: see the examples below.) *)
Theorem log_prints_full_lines gmtime_r strerror_tl gettid fmt_g tz logLevel ss :
  0 < gettid < 2 ^ 31 -> Forall (statement_ok gmtime_r strerror_tl gettid fmt_g tz) ss ->
  log_all gmtime_r strerror_tl gettid fmt_g tz logLevel ss new_local =
    Ok (lines gmtime_r strerror_tl gettid fmt_g tz logLevel ss).
Proof. intros Ht Hss. apply log_all_ok; [done| |done]. split; by left. Qed.
Definition witness_gmtime (x : Z) : tm := mktm (x mod 60) ((x / 60) mod 60) ((x / 60 / 60) mod 24) 1 0 70 0 0 0.
Definition witness_statements : list statement :=
  [mkstatement LOG_DEBUG 5000000 0 (lit "a.cc") 1 (lit "f") [];
   mkstatement LOG_INFO 3661000042 0 (lit "muduo/net/a.cc") 7 (lit "f") [ICstr (Some (lit "x=")); IInteger (-5)];
   mkstatement LOG_SYSFATAL 3661500000 2 (lit "b.cc") 8 (lit "g") [ICstr None];
   mkstatement LOG_INFO 3661600000 0 (lit "b.cc") 9 (lit "g") []].
Lemma log_prints_full_lines_witness :
  log_all witness_gmtime (fun _ => lit "No such file") 42 (fun _ => []) None INFO witness_statements new_local =
    Ok [lit "19700101 01:01:01.000042Z    42 INFO  x=-5 - a.cc:7" ++ [10];
        lit "19700101 01:01:01.500000Z    42 FATAL No such file (errno=2) (null) - b.cc:8" ++ [10]].
Proof.
  rewrite (log_prints_full_lines witness_gmtime (fun _ => lit "No such file") 42 (fun _ => []) None INFO witness_statements).
  - vm_compute. reflexivity.
  - lia.
  - repeat constructor; try (vm_compute; intuition discriminate);
      (eexists; split; [reflexivity|]; vm_compute; intuition discriminate).
Defined.

(** The cache starts as if second 0 had been formatted: a statement within the
    first second of 1970 fails the assertion on the length of [t_time]. *)
Example log_at_epoch_fails :
  log witness_gmtime (fun _ => []) 42 (fun _ => []) None INFO
    (mkstatement LOG_INFO 0 0 (lit "a.cc") 1 (lit "f") []) new_local = Err (AssertFail "strlen(str) == len_").
Proof. reflexivity. Qed.

(** After [setTimeZone], a thread that has logged in the same second still prints
    the time of the old zone. *)
Example zone_change_keeps_cached_time :
  let zone := TimeZone.of_offset (8 * 3600) (lit "CST") in
  let stmt t := mkstatement LOG_INFO t 0 (lit "a.cc") 1 (lit "f") [] in
  exists l l', log witness_gmtime (fun _ => []) 42 (fun _ => []) None INFO (stmt 3661000000) new_local =
      Ok (l, Some (lit "19700101 01:01:01.000000Z    42 INFO   - a.cc:1" ++ [10], false)) /\
    log witness_gmtime (fun _ => []) 42 (fun _ => []) zone INFO (stmt 3661000001) l =
      Ok (l', Some (lit "19700101 01:01:01.000001    42 INFO   - a.cc:1" ++ [10], false)) /\
    TimeZone.toLocalTime witness_gmtime zone 3661 = Ok (TimeZone.mkltm (TimeZone.set_gmtoff 28800 (witness_gmtime 32461)) false (lit "CST")).
Proof. eexists _, _. split; [vm_compute; reflexivity|]. split; [vm_compute; reflexivity|reflexivity]. Qed.
End Logging.
