(* ===== verification/BaseLogger.v ===== *)
(** src/muduo/base/Logging.h and Logging.cc: the process-wide side of logging -
    the level, the time zone and the output and flush functions.

    [g_output] and [g_flush] are functions on a world [W] that has stdout and
    whatever else the installed functions write to.  A program is a sequence of
    settings, log statements (BaseLogging) and CHECK_NOTNULLs of one thread.
    The file proves that every line goes to the function in force, that FATAL
    flushes before it aborts and that nothing runs after it; and it shows what a
    change of the time zone does to the cached second. *)

From S2P Require Import Prelude BaseTimestamp BaseLogStream BaseThread BaseTimeZone BaseLogging.

Module Logger.
Import LogStream Logging.

Section Logger.
Context (gmtime_r : Z -> tm) (strerror_tl : Z -> bytes) (gettid : Z) (fmt_g : double -> bytes).
Context {W : Type} (fwrite_stdout : bytes -> W -> W) (fflush_stdout : W -> W).

Definition OutputFunc : Type := bytes -> W -> W.
Definition FlushFunc : Type := W -> W.
Definition defaultOutput : OutputFunc := fwrite_stdout.
Definition defaultFlush : FlushFunc := fflush_stdout.

(** [g_logLevel], [g_output], [g_flush] and [g_logTimeZone]. *)
Record globals := mkglobals {
  g_logLevel : LogLevel; g_output : OutputFunc; g_flush : FlushFunc; g_logTimeZone : option TimeZone.Data
}.
Definition initial (env_trace env_debug : bool) : globals :=
  mkglobals (initLogLevel env_trace env_debug) defaultOutput defaultFlush None.

Definition logLevel (g : globals) : LogLevel := g_logLevel g.
Definition setLogLevel (level : LogLevel) (g : globals) : globals := mkglobals level (g_output g) (g_flush g) (g_logTimeZone g).
Definition setOutput (out : OutputFunc) (g : globals) : globals := mkglobals (g_logLevel g) out (g_flush g) (g_logTimeZone g).
Definition setFlush (flush : FlushFunc) (g : globals) : globals := mkglobals (g_logLevel g) (g_output g) flush (g_logTimeZone g).
Definition setTimeZone (tz : option TimeZone.Data) (g : globals) : globals :=
  mkglobals (g_logLevel g) (g_output g) (g_flush g) tz.

(** A process: one thread of it, the world, and whether [abort] was called. *)
Record process := mkprocess { globals_ : globals; local_ : local; world : W; aborted : bool }.

(** [~Logger] hands the line to [g_output], and for FATAL flushes and aborts. *)
Definition destroy (g : globals) (line : bytes) (fatal : bool) (w : W) : W :=
  let w := g_output g line w in if fatal then g_flush g w else w.
Definition statement_ (s : statement) (p : process) : outcome process :=
  let g := globals_ p in
  '(l, r) ← log gmtime_r strerror_tl gettid fmt_g (g_logTimeZone g) (logLevel g) s (local_ p);
  Ok match r with
     | Some (line, fatal) => mkprocess g l (destroy g line fatal (world p)) fatal
     | None => mkprocess g l (world p) false
     end.
(** CHECK_NOTNULL at time [now]; the pointer is returned. *)
Definition not_null (now : Timestamp.t) (file : bytes) (line : Z) (names : bytes) : statement :=
  mkstatement LOG_FATAL now 0 file line [] [ICstr (Some names)].
Definition CheckNotNull (now : Timestamp.t) (file : bytes) (line : Z) (names : bytes) (ptr : Z) (p : process)
    : outcome (Z * process) :=
  p ← (if ptr =? 0 then statement_ (not_null now file line names) p else Ok p);
  Ok (ptr, p).

Inductive op :=
| SetLogLevel (level : LogLevel) | SetOutput (out : OutputFunc) | SetFlush (flush : FlushFunc)
| SetTimeZone (tz : option TimeZone.Data) | Statement (s : statement)
| CheckNotNull_ (now : Timestamp.t) (file : bytes) (line : Z) (names : bytes) (ptr : Z).

(** Nothing runs after [abort]. *)
Definition exec (p : process) (o : op) : outcome process :=
  if aborted p then Ok p
  else
    let set g := mkprocess g (local_ p) (world p) false in
    match o with
    | SetLogLevel x => Ok (set (setLogLevel x (globals_ p)))
    | SetOutput f => Ok (set (setOutput f (globals_ p)))
    | SetFlush f => Ok (set (setFlush f (globals_ p)))
    | SetTimeZone tz => Ok (set (setTimeZone tz (globals_ p)))
    | Statement s => statement_ s p
    | CheckNotNull_ now file line names ptr => '(_, p) ← CheckNotNull now file line names ptr p; Ok p
    end.
Definition run (p : process) (os : list op) : outcome process := foldM exec p os.

(** * Reference: the calls of output and flush functions, and the end *)

Definition fatal (s : statement) : bool := is_last (s_macro s).
Definition full (tz : option TimeZone.Data) (s : statement) : bytes := full_line gmtime_r strerror_tl gettid fmt_g tz s.
Fixpoint trace (g : globals) (os : list op) : list (W -> W) * bool :=
  match os with
  | [] => ([], false)
  | SetLogLevel x :: os' => trace (setLogLevel x g) os'
  | SetOutput f :: os' => trace (setOutput f g) os'
  | SetFlush f :: os' => trace (setFlush f g) os'
  | SetTimeZone tz :: os' => trace (setTimeZone tz g) os'
  | Statement s :: os' =>
      if silent (g_logLevel g) (s_macro s) then trace g os'
      else if fatal s then ([g_output g (full (g_logTimeZone g) s); g_flush g], true)
      else let '(cs, e) := trace g os' in (g_output g (full (g_logTimeZone g) s) :: cs, e)
  | CheckNotNull_ now file line names ptr :: os' =>
      if ptr =? 0 then ([g_output g (full (g_logTimeZone g) (not_null now file line names)); g_flush g], true)
      else trace g os'
  end.

(** Statements whose lines fit; the zone is set before the thread logs. *)
Definition op_ok (tz : option TimeZone.Data) (o : op) : Prop :=
  match o with
  | Statement s => statement_ok gmtime_r strerror_tl gettid fmt_g tz s
  | CheckNotNull_ now file line names _ => statement_ok gmtime_r strerror_tl gettid fmt_g tz (not_null now file line names)
  | SetTimeZone _ => False
  | _ => True
  end.

Context (Htid : 0 < gettid < 2 ^ 31).

Lemma run_aborted p os : aborted p = true -> run p os = Ok p.
Proof. intros Hp. induction os as [|o os IH]; [done|]. unfold run. cbn [foldM]. unfold exec at 2. by rewrite Hp. Qed.

Lemma statement_exact s g l w :
  cache_ok gmtime_r gettid (g_logTimeZone g) l -> statement_ok gmtime_r strerror_tl gettid fmt_g (g_logTimeZone g) s ->
  exists l', cache_ok gmtime_r gettid (g_logTimeZone g) l' /\
    statement_ s (mkprocess g l w false) =
    Ok (if silent (g_logLevel g) (s_macro s) then mkprocess g l' w false
        else mkprocess g l' (destroy g (full (g_logTimeZone g) s) (fatal s) w) (fatal s)).
Proof.
  intros Hc Hs. unfold statement_, logLevel. cbn [globals_ local_ world].
  destruct (log_ok gmtime_r strerror_tl gettid fmt_g (g_logTimeZone g) Htid (g_logLevel g) s l Hc Hs) as (l' & -> & Hc').
  exists l'. split; [done|]. cbn [mbind outcome_bind]. by destruct (silent _ _).
Qed.

(** Every line goes to the output function in force when its statement
    runs, once and complete; a FATAL statement - or a CHECK_NOTNULL of a null
    pointer - hands its line over, flushes and aborts, in this order, and
    nothing runs after it; a pointer that CHECK_NOTNULL lets through is not
    null. *)
Theorem log_lines_go_to_output_in_force g os w :
  Forall (op_ok (g_logTimeZone g)) os ->
  exists p, run (mkprocess g new_local w false) os = Ok p /\
    world p = foldl (fun w f => f w) w (trace g os).1 /\ aborted p = (trace g os).2.
Proof.
  intros Hos. assert (cache_ok gmtime_r gettid (g_logTimeZone g) new_local) as Hc by (split; by left).
  revert Hc Hos. generalize new_local as l. revert g w.
  induction os as [|o os IH]; intros g w l Hc Hos; [by eexists|]. apply Forall_cons in Hos as [Ho Hos].
  unfold run. cbn [foldM trace]. unfold exec at 2. cbn [aborted globals_ local_ world].
  destruct o as [x|f|f|tz|s|now file line names ptr]; cbn [mbind outcome_bind].
  - by apply (IH (setLogLevel x g)).
  - by apply (IH (setOutput f g)).
  - by apply (IH (setFlush f g)).
  - done.
  - destruct (statement_exact s g l w Hc Ho) as (l' & Hc' & ->). cbn [mbind outcome_bind].
    destruct (silent _ _); [by apply IH|]. destruct (fatal s).
    + fold (run (mkprocess g l' (destroy g (full (g_logTimeZone g) s) true w) true) os).
      rewrite run_aborted by done. by eexists.
    + destruct (IH g (destroy g (full (g_logTimeZone g) s) false w) l' Hc' Hos) as (p & E & Hw & Ha).
      exists p. split; [exact E|]. by destruct (trace g os).
  - unfold CheckNotNull. destruct (Z.eqb_spec ptr 0) as [->|Hp]; cbn [mbind outcome_bind]; [|by apply IH].
    destruct (statement_exact (not_null now file line names) g l w Hc Ho) as (l' & Hc' & ->). cbn [mbind outcome_bind].
    assert (silent (g_logLevel g) (s_macro (not_null now file line names)) = false) as -> by done.
    change (fatal (not_null now file line names)) with true.
    fold (run (mkprocess g l' (destroy g (full (g_logTimeZone g) (not_null now file line names)) true w) true) os).
    rewrite run_aborted by done. by eexists.
Qed.

Lemma CheckNotNull_returns_ptr now file line names ptr p r p' :
  CheckNotNull now file line names ptr p = Ok (r, p') -> aborted p' = false -> aborted p = false ->
  statement_ok gmtime_r strerror_tl gettid fmt_g (g_logTimeZone (globals_ p)) (not_null now file line names) ->
  cache_ok gmtime_r gettid (g_logTimeZone (globals_ p)) (local_ p) -> r = ptr /\ ptr <> 0 /\ p' = p.
Proof.
  unfold CheckNotNull. destruct (Z.eqb_spec ptr 0) as [->|Hp]; [|by intros [= <- <-]].
  destruct p as [g l w ab]. cbn [aborted globals_ local_]. intros E Ha -> Hs Hc.
  destruct (statement_exact (not_null now file line names) g l w Hc Hs) as (l' & _ & E').
  rewrite E' in E. injection E as _ <-. cbn in Ha. done.
Qed.

End Logger.

(** A zone set between two statements of one second does not show in the second
    one: the cached time is still that of the old zone, while the Z is already
    left out.  Both statements are logged at 00:00:05 UTC; the zone is eight
    hours east. *)
Theorem setTimeZone_keeps_cached_second :
  let stmt := mkstatement LOG_INFO 5000000 0 (lit "a.cc") 1 [] [] in
  match run witness_gmtime (fun _ => []) 42 (fun _ => [])
          (mkprocess (mkglobals INFO (fun line w => w ++ [line]) (fun w => w) None) new_local [] false)
          [Statement stmt; SetTimeZone (TimeZone.of_offset (8 * 3600) (lit "CST")); Statement stmt] with
  | Ok p => world p
  | Err _ => []
  end =
  [lit "19700101 00:00:05.000000Z    42 INFO   - a.cc:1" ++ [10];
   lit "19700101 00:00:05.000000    42 INFO   - a.cc:1" ++ [10]] /\
  full witness_gmtime (fun _ => []) 42 (fun _ => []) (TimeZone.of_offset (8 * 3600) (lit "CST")) stmt =
  lit "19700101 08:00:05.000000    42 INFO   - a.cc:1" ++ [10].
Proof. split; vm_compute; reflexivity. Qed.

End Logger.
