(* ===== verification/NetTcpClient.v ===== *)
(** src/muduo/net/TcpClient.cc: a client, its connector and its connections.

    The client runs in one loop.  The connector is that of NetConnector, whose
    sockets become connections; a connection is followed through the places of
    its life the client sees, its own behaviour is in NetTcpConnection.
    [tasks] are the queued calls of [connectDestroyed], [calls] what the client
    called on its connections. *)

From S2P Require Import Prelude NetConnector.

Module TcpClient.

Inductive place := Up | Down | Destroyed.
#[export] Instance client_place_eq_dec : EqDecision place.
Proof. solve_decision. Defined.
Record conn := mkconn { conn_name : bytes; conn_place : place }.
Inductive conn_call := Shutdown | ForceClose.

Record t := mk {
  name_ : bytes;
  retry_ : bool;
  connect_ : bool;
  nextConnId_ : Z;
  connection_ : option Z;
  connector_ : Connector.t;
  conns : gmap Z conn;
  tasks : list Z;
  calls : list (Z * conn_call);
  alive : bool
}.

Definition set_connect x s := mk (name_ s) (retry_ s) x (nextConnId_ s) (connection_ s) (connector_ s) (conns s) (tasks s) (calls s) (alive s).
Definition set_connection x s := mk (name_ s) (retry_ s) (connect_ s) (nextConnId_ s) x (connector_ s) (conns s) (tasks s) (calls s) (alive s).
Definition set_connector x s := mk (name_ s) (retry_ s) (connect_ s) (nextConnId_ s) (connection_ s) x (conns s) (tasks s) (calls s) (alive s).
Definition set_conns x s := mk (name_ s) (retry_ s) (connect_ s) (nextConnId_ s) (connection_ s) (connector_ s) x (tasks s) (calls s) (alive s).
Definition set_tasks x s := mk (name_ s) (retry_ s) (connect_ s) (nextConnId_ s) (connection_ s) (connector_ s) (conns s) x (calls s) (alive s).
Definition call c k s := mk (name_ s) (retry_ s) (connect_ s) (nextConnId_ s) (connection_ s) (connector_ s) (conns s) (tasks s) (calls s ++ [(c, k)]) (alive s).

Definition new_ (nameArg : bytes) : t := mk nameArg false true 1 None Connector.new_ ∅ [] [] true.

Definition connect (inLoop : bool) (sockfd savedErrno : Z) (s : t) : outcome t :=
  let s := set_connect true s in
  k ← Connector.start inLoop sockfd savedErrno (connector_ s);
  Ok (set_connector k s).

Definition disconnect (s : t) : t :=
  let s := set_connect false s in
  match connection_ s with Some c => call c Shutdown s | None => s end.

Definition stop (s : t) : t :=
  let s := set_connect false s in set_connector (Connector.stop (connector_ s)) s.

Definition enableRetry (s : t) : t :=
  mk (name_ s) true (connect_ s) (nextConnId_ s) (connection_ s) (connector_ s) (conns s) (tasks s) (calls s) (alive s).

(** ":<ip:port>#<id>" in a 32-byte buffer, after the client's name. *)
Definition connName (s : t) (peer : bytes) : bytes :=
  name_ s ++ snprintf 32 (lit ":" ++ peer ++ lit "#" ++ fmt_d (nextConnId_ s)).
(** [peer] is the peer's address, as text; the connection is established at
    once. *)
Definition newConnection (peer : bytes) (s : t) : outcome t :=
  let c := nextConnId_ s in
  (if c + 1 <? 2 ^ 31 then Ok tt else Err (Undefined "signed overflow"));;
  Ok (mk (name_ s) (retry_ s) (connect_ s) (c + 1) (Some c) (connector_ s)
         (<[c := mkconn (connName s peer) Up]> (conns s)) (tasks s) (calls s) (alive s)).

(** [restart] gets a new socket, and an errno from connect(2). *)
Definition removeConnection (c sockfd savedErrno : Z) (s : t) : outcome t :=
  massert (bool_decide (connection_ s = Some c)) "connection_ == conn";;
  let s := set_connection None s in
  let s := set_tasks (tasks s ++ [c]) s in
  if retry_ s && connect_ s
  then k ← Connector.restart sockfd savedErrno (connector_ s); Ok (set_connector k s)
  else Ok s.
(** [detail::removeConnection], the close callback the destructor installs. *)
Definition detail_removeConnection (c : Z) (s : t) : t := set_tasks (tasks s ++ [c]) s.

(** The destructor, in the loop thread; [unique] is what [connection_.unique()]
    says. *)
Definition destroy (unique : bool) (s : t) : t :=
  let s := match connection_ s with
    | Some c => if unique then call c ForceClose s else s
    | None => set_connector (Connector.stop (connector_ s)) s
    end in
  mk (name_ s) (retry_ s) (connect_ s) (nextConnId_ s) None (connector_ s) (conns s) (tasks s) (calls s) false.

(** * Runs *)

Inductive event :=
| Connect (inLoop : bool) (sockfd savedErrno : Z)
| Disconnect
| Stop
| EnableRetry
| ConnectorEvent (e : Connector.event) (peer : bytes)
| HandleClose (c sockfd savedErrno : Z)
| RunTask
| Destroy (unique : bool).

Definition set_place (c : Z) (pl : place) (s : t) : t :=
  set_conns (alter (fun k => mkconn (conn_name k) pl) c (conns s)) s.
Definition place_of (c : Z) (s : t) : option place := conn_place <$> conns s !! c.

(** The connector's callback, when it has handed a socket over. *)
Definition on_handed (before after : Connector.t) (peer : bytes) (s : t) : outcome t :=
  if decide (length (Connector.handed before) < length (Connector.handed after))%nat
  then if alive s then newConnection peer s else Err (Undefined "TcpClient destroyed")
  else Ok s.

Definition exec (s : t) (e : event) : outcome t :=
  match e with
  | Connect inLoop fd err => connect inLoop fd err s
  | Disconnect => Ok (disconnect s)
  | Stop => Ok (stop s)
  | EnableRetry => Ok (enableRetry s)
  | ConnectorEvent e peer =>
      k ← Connector.exec (connector_ s) e;
      on_handed (connector_ s) k peer (set_connector k s)
  | HandleClose c fd err =>
      let s := set_place c Down s in
      if alive s then removeConnection c fd err s else Ok (detail_removeConnection c s)
  | RunTask =>
      match tasks s with
      | [] => Ok s
      | c :: cs => Ok (set_place c Destroyed (set_tasks cs s))
      end
  | Destroy unique => Ok (destroy unique s)
  end.
Definition run (s : t) (es : list event) : outcome t := foldM exec s es.

(** The use the class is written for: [connect] on a connector at rest; the
    connector's events as NetConnector assumes them; a connection that is up
    closes in a later iteration of the loop than the one that made it; the
    owner uses the client until it destroys it. *)
Definition loop_event (e : Connector.event) : bool :=
  match e with
  | Connector.HandleEvent _ _ _ _ | Connector.TimerFires _ _ | Connector.RunFunctor _ _ => true
  | _ => false
  end.
Definition legal (s : t) (e : event) : Prop :=
  match e with
  | Connect _ _ _ => alive s = true /\ Connector.at_rest (connector_ s)
  | Disconnect | Stop | EnableRetry | Destroy _ => alive s = true
  | ConnectorEvent e _ => loop_event e = true /\ Connector.legal (connector_ s) e
  | HandleClose c _ _ => place_of c s = Some Up /\ Connector.FResetChannel ∉ Connector.functors (connector_ s)
  | RunTask => True
  end.
Fixpoint legal_run (s : t) (es : list event) : Prop :=
  match es with
  | [] => True
  | e :: es' => legal s e /\ forall s', exec s e = Ok s' -> legal_run s' es'
  end.

(** * Invariant *)

Record inv (s : t) : Prop := {
  inv_connector : Connector.inv (connector_ s);
  inv_ids : forall c, is_Some (conns s !! c) <-> 1 <= c < nextConnId_ s;
  inv_handed : zlen (Connector.handed (connector_ s)) = nextConnId_ s - 1;
  inv_up : forall c, place_of c s = Some Up -> Connector.state_ (connector_ s) = Connector.kConnected;
  inv_one : forall c c', place_of c s = Some Up -> place_of c' s = Some Up -> c = c';
  inv_connection : alive s = true -> forall c, place_of c s = Some Up <-> connection_ s = Some c;
  inv_tasks : NoDup (tasks s) /\ forall c, c ∈ tasks s <-> place_of c s = Some Down;
  inv_stopped : alive s = true -> Connector.FStop ∈ Connector.functors (connector_ s) -> connect_ s = false;
  inv_dead : alive s = false ->
    Connector.connect_ (connector_ s) = false \/ Connector.state_ (connector_ s) = Connector.kConnected
}.

(** * Lemmas *)

Lemma retry_step fd k :
  Connector.connect_ (Connector.retry fd k) = Connector.connect_ k /\
  Connector.functors (Connector.retry fd k) = Connector.functors k /\
  Connector.handed (Connector.retry fd k) = Connector.handed k.
Proof. unfold Connector.retry. cbn. destruct (Connector.connect_ k) eqn:E; cbn; by rewrite ?E. Qed.

Lemma startInLoop_step fd err k k' : Connector.startInLoop fd err k = Ok k' ->
  Connector.state_ k = Connector.kDisconnected /\ Connector.connect_ k' = Connector.connect_ k /\
  Connector.functors k' = Connector.functors k /\ Connector.handed k' = Connector.handed k.
Proof.
  unfold Connector.startInLoop. case_bool_decide as Hst; [|done]. cbn [massert mbind outcome_bind].
  destruct (Connector.connect_ k) eqn:Ec; [|by intros [= <-]]. unfold Connector.connect.
  destruct (Connector.classify err).
  - unfold Connector.connecting. case_bool_decide; [|done]. cbn. intros [= <-]. by rewrite ?Ec.
  - intros [= <-]. pose proof (retry_step fd (Connector.create fd k)) as (H1&H2&H3). rewrite H1, H2, H3. cbn. by rewrite ?Ec.
  - intros [= <-]. cbn. by rewrite ?Ec.
Qed.

Lemma removeChannel_step k fd k' : Connector.removeAndResetChannel k = Ok (fd, k') ->
  Connector.connect_ k' = Connector.connect_ k /\ Connector.functors k' = Connector.functors k ++ [Connector.FResetChannel] /\
  Connector.handed k' = Connector.handed k.
Proof. unfold Connector.removeAndResetChannel. destruct (Connector.channel_ k) as [[? []]|]; [|done|done]. by intros [= <- <-]. Qed.

(** What an event does to the parts of the connector the client relies on. *)
Definition step_effect (k k' : Connector.t) : Prop :=
  Connector.connect_ k' = Connector.connect_ k /\
  (Connector.FStop ∈ Connector.functors k' -> Connector.FStop ∈ Connector.functors k) /\
  ((Connector.handed k' = Connector.handed k /\
     (Connector.state_ k = Connector.kConnected -> Connector.state_ k' = Connector.kConnected)) \/
   (exists fd, Connector.handed k' = Connector.handed k ++ [fd] /\ Connector.state_ k = Connector.kConnecting /\
      Connector.connect_ k = true /\ Connector.state_ k' = Connector.kConnected)).

Lemma removed_retry_step k fd k1 :
  Connector.state_ k = Connector.kConnecting -> Connector.removeAndResetChannel k = Ok (fd, k1) ->
  step_effect k (Connector.retry fd k1).
Proof.
  intros Hst E. destruct (removeChannel_step k fd k1 E) as (H1&H2&H3). destruct (retry_step fd k1) as (R1&R2&R3).
  split; [congruence|]. rewrite R2, H2, R3, H3. split; [set_solver|]. left. split; [done|]. by rewrite Hst.
Qed.

Lemma handleWrite_step err self k k' : Connector.state_ k = Connector.kConnecting ->
  Connector.handleWrite err self k = Ok k' -> step_effect k k'.
Proof.
  intros Hst. unfold Connector.handleWrite. rewrite decide_True by done.
  destruct (Connector.removeAndResetChannel k) as [[fd k1]|] eqn:E; [|done]. cbn [mbind outcome_bind].
  pose proof (removed_retry_step k fd k1 Hst E) as Hr. destruct (removeChannel_step k fd k1 E) as (H1&H2&H3).
  destruct (negb (err =? 0)); [by intros [= <-]|]. destruct self; [by intros [= <-]|].
  cbn [Connector.connect_ Connector.setState]. destruct (Connector.connect_ k1) eqn:Ec; intros [= <-].
  - split; [cbn; congruence|]. cbn. rewrite H2. split; [set_solver|]. right. exists fd. rewrite H3. split_and!; done || congruence.
  - split; [cbn; congruence|]. cbn. rewrite H2. split; [set_solver|]. left. by rewrite H3.
Qed.

Lemma step_effect_same k k' : Connector.connect_ k' = Connector.connect_ k -> Connector.handed k' = Connector.handed k ->
  (Connector.FStop ∈ Connector.functors k' -> Connector.FStop ∈ Connector.functors k) ->
  (Connector.state_ k = Connector.kConnected -> Connector.state_ k' = Connector.kConnected) -> step_effect k k'.
Proof. intros. split; [done|]. split; [done|]. by left. Qed.

Lemma handleEvent_step pollerr pollout err self k k' :
  Connector.inv k -> (exists fd, Connector.channel_ k = Some (fd, true)) ->
  Connector.handleEvent pollerr pollout err self k = Ok k' -> step_effect k k'.
Proof.
  intros Hinv (fd&Hch). assert (Connector.state_ k = Connector.kConnecting) as Hst.
  { pose proof (Connector.inv_channel _ Hinv) as Hc. unfold Connector.channel_ok in Hc. by rewrite Hch in Hc. }
  unfold Connector.handleEvent. destruct pollerr; cbn [mbind outcome_bind].
  - destruct (Connector.handleError_connector_ok k Hinv) as (k1&E&_&Hd); [by exists fd|]. rewrite E. cbn [mbind outcome_bind].
    assert (step_effect k k1) as Hk1.
    { revert E. unfold Connector.handleError. rewrite decide_True by done.
      destruct (Connector.removeAndResetChannel k) as [[fd' k2]|] eqn:Er; [|done]. intros [= <-]. by apply removed_retry_step. }
    destruct pollout; [|by intros [= <-]]. destruct (Connector.late_events k1 Hd) as [_ ->]. by intros [= <-].
  - destruct pollout; [by apply handleWrite_step|]. intros [= <-]. by apply step_effect_same.
Qed.

Lemma connector_step k e k' :
  Connector.inv k -> loop_event e = true -> Connector.legal k e -> Connector.exec k e = Ok k' -> step_effect k k'.
Proof.
  intros Hinv He Hl. pose proof (Connector.inv_place _ Hinv) as Hp. unfold Connector.place_ok in Hp.
  destruct e as [inLoop fd e| |fd e|pollerr pollout err self|fd e|fd e]; try done; cbn [Connector.exec Connector.legal] in *.
  - by apply handleEvent_step.
  - destruct (Connector.timers k) as [|d ts] eqn:Et; [intros [= <-]; by apply step_effect_same|].
    intros (H1&H2&H3&H4)%startInLoop_step. cbn in *. apply step_effect_same; [done|done|by rewrite H3|congruence].
  - destruct (Connector.functors k) as [|[| |] fs] eqn:Ef; [intros [= <-]; by apply step_effect_same| | |].
    + intros (H1&H2&H3&H4)%startInLoop_step. cbn in *.
      apply step_effect_same; [done|done|rewrite H3, Ef; set_solver|congruence].
    + unfold Connector.stopInLoop. cbn [Connector.state_ Connector.set_functors]. case_decide as Hst.
      * unfold Connector.removeAndResetChannel. cbn. destruct (Connector.channel_ k) as [[fd' []]|]; [|done|done].
        intros [= <-]. match goal with |- step_effect _ (Connector.retry ?f ?k1) => destruct (retry_step f k1) as (R1&R2&R3) end.
        apply step_effect_same; [by rewrite R1|by rewrite R3|rewrite Ef; intros _; by left|by rewrite Hst].
      * intros [= <-]. apply step_effect_same; try done. rewrite Ef. intros _. by left.
    + intros [= <-]. apply step_effect_same; try done. rewrite Ef. cbn. set_solver.
Qed.

Lemma place_set c c' pl s :
  place_of c' (set_place c pl s) = if decide (c = c') then (fun _ => pl) <$> place_of c' s else place_of c' s.
Proof.
  unfold place_of, set_place. cbn. case_decide as E; [subst; rewrite lookup_alter_eq|by rewrite lookup_alter_ne].
  by destruct (conns s !! c').
Qed.
Lemma place_ids c s : inv s -> is_Some (place_of c s) <-> 1 <= c < nextConnId_ s.
Proof. intros Hinv. rewrite <-(inv_ids _ Hinv). unfold place_of. by rewrite fmap_is_Some. Qed.

Lemma connect_inv inLoop fd err s : inv s -> legal s (Connect inLoop fd err) ->
  exists s', exec s (Connect inLoop fd err) = Ok s' /\ inv s' /\ nextConnId_ s' = nextConnId_ s.
Proof.
  intros Hinv (Ha&Hrest). pose proof Hrest as (Hst&_&_&Hf). cbn [exec]. unfold connect. cbn [connector_ set_connect].
  destruct (Connector.connector_exec_ok (connector_ s) (Connector.Start inLoop fd err) (inv_connector _ Hinv) Hrest)
    as (k&E&Hk). cbn in E. rewrite E. cbn [mbind outcome_bind]. eexists. split; [done|]. split; [|done].
  assert (Connector.handed k = Connector.handed (connector_ s) /\ Connector.FStop ∉ Connector.functors k) as (Hh&Hns).
  { unfold Connector.start in E. destruct inLoop.
    - apply startInLoop_step in E as (_&_&H3&H4). cbn in H3, H4. rewrite H3, H4, Hf. split; [done|apply not_elem_of_nil].
    - injection E as <-. cbn. rewrite Hf. split; [done|]. cbn. by intros ?%list_elem_of_singleton. }
  assert (forall c, place_of c s <> Some Up) as Hno by (intros c Hc; apply (inv_up _ Hinv) in Hc; congruence).
  destruct Hinv as [H1 H2 H3 H4 H5 H6 H7 H8 H9]. split; cbn; try done.
  - by rewrite Hh.
  - intros c Hc. by destruct (Hno c).
  - rewrite Ha. done.
Qed.

(** Nothing the invariant speaks of changes but the connector, by a step that
    hands no socket over. *)
Lemma inv_set_connector k s :
  inv s -> Connector.inv k -> Connector.handed k = Connector.handed (connector_ s) ->
  (Connector.state_ (connector_ s) = Connector.kConnected -> Connector.state_ k = Connector.kConnected) ->
  (alive s = true -> Connector.FStop ∈ Connector.functors k -> connect_ s = false) ->
  (alive s = false -> Connector.connect_ k = Connector.connect_ (connector_ s)) ->
  inv (set_connector k s).
Proof.
  intros [H1 H2 H3 H4 H5 H6 H7 H8 H9] Hk Hh Hst Hf Hc. split; cbn; try done.
  - by rewrite Hh.
  - intros c Hup. apply Hst. by eapply H4.
  - intros Hd. rewrite (Hc Hd). destruct (H9 Hd); [by left|right; auto].
Qed.

Lemma inv_set_connect b s :
  inv s -> (alive s = true -> Connector.FStop ∈ Connector.functors (connector_ s) -> b = false) -> inv (set_connect b s).
Proof. intros [H1 H2 H3 H4 H5 H6 H7 H8 H9] Hb. by split. Qed.

Lemma stop_client_inv s : inv s -> inv (set_connector (Connector.stop (connector_ s)) (set_connect false s)).
Proof.
  intros Hinv. destruct (Connector.connector_exec_ok (connector_ s) Connector.Stop (inv_connector _ Hinv) I) as (k&E&Hk).
  injection E as <-. destruct Hinv as [H1 H2 H3 H4 H5 H6 H7 H8 H9]. split; cbn; try done. intros _. by left.
Qed.

Lemma newConnection_inv peer k fd s :
  inv s -> nextConnId_ s + 1 < 2 ^ 31 -> alive s = true -> Connector.inv k ->
  Connector.handed k = Connector.handed (connector_ s) ++ [fd] -> Connector.state_ k = Connector.kConnected ->
  Connector.state_ (connector_ s) = Connector.kConnecting ->
  (Connector.FStop ∈ Connector.functors k -> Connector.FStop ∈ Connector.functors (connector_ s)) ->
  exists s', newConnection peer (set_connector k s) = Ok s' /\ inv s' /\ nextConnId_ s' = nextConnId_ s + 1.
Proof.
  intros Hinv Hn Ha Hk Hh Hst Hold Hf. unfold newConnection. cbn [nextConnId_ set_connector].
  destruct (Z.ltb_spec (nextConnId_ s + 1) (2 ^ 31)); [|lia]. cbn [mbind outcome_bind].
  assert (forall c, place_of c s <> Some Up) as Hno by (intros c Hc; apply (inv_up _ Hinv) in Hc; congruence).
  assert (place_of (nextConnId_ s) s = None) as Hfresh.
  { destruct (place_of (nextConnId_ s) s) eqn:E; [|done].
    assert (is_Some (place_of (nextConnId_ s) s)) as Hs by by rewrite E. apply (place_ids _ _ Hinv) in Hs. lia. }
  eexists. split; [done|]. split; [|done].
  destruct Hinv as [H1 H2 H3 H4 H5 H6 H7 H8 H9].
  assert (forall c, conn_place <$> (<[nextConnId_ s := mkconn (connName (set_connector k s) peer) Up]> (conns s) !! c) =
    if decide (c = nextConnId_ s) then Some Up else place_of c s) as Hpl.
  { intros c. case_decide; [subst; by rewrite lookup_insert_eq|by rewrite lookup_insert_ne]. }
  assert (1 <= nextConnId_ s) as Hpos by (pose proof (zlen_nonneg (Connector.handed (connector_ s))); lia).
  split; unfold place_of; cbn; try done.
  - intros c. destruct (decide (c = nextConnId_ s)) as [->|Hne].
    + rewrite lookup_insert_eq. split; [lia|done].
    + rewrite lookup_insert_ne, H2 by done. lia.
  - rewrite Hh, zlen_app, H3. change (zlen [fd]) with 1. lia.
  - intros c c'. rewrite !Hpl. do 2 case_decide; try congruence; intros Hu Hu'; by apply Hno in Hu || apply Hno in Hu'.
  - intros _ c. rewrite Hpl. case_decide; [split; [intros _; by subst|done]|].
    split; [by intros ?%Hno|congruence].
  - destruct H7 as (Hnd&H7). split; [done|]. intros c. rewrite Hpl. case_decide; [|apply H7]. subst.
    split; [|done]. intros Hin%H7. by rewrite Hfresh in Hin.
  - auto.
  - by rewrite Ha.
Qed.

(** The connection that was up is down, with its destruction queued. *)
Lemma closed_inv c s : inv s -> place_of c s = Some Up ->
  inv (set_tasks (tasks s ++ [c]) (set_connection None (set_place c Down s))).
Proof.
  intros Hinv Hc. destruct Hinv as [H1 H2 H3 H4 H5 H6 H7 H8 H9].
  assert (forall c', place_of c' (set_place c Down s) = if decide (c = c') then Some Down else place_of c' s) as Hpl.
  { intros c'. rewrite place_set. case_decide; [subst; by rewrite Hc|done]. }
  assert (forall c', place_of c' (set_place c Down s) <> Some Up) as Hno.
  { intros c'. rewrite Hpl. case_decide as E; [done|]. intros Hc'. by destruct E; apply H5. }
  split; cbn; try done.
  - intros c'. rewrite <-H2. destruct (decide (c = c')) as [->|]; [by rewrite lookup_alter_eq, fmap_is_Some|by rewrite lookup_alter_ne].
  - intros c' Hc'. by destruct (Hno c').
  - intros c' c'' Hc'. by destruct (Hno c').
  - intros _ c'. split; [intros Hc'; by destruct (Hno c')|done].
  - destruct H7 as (Hnd&H7). split.
    + apply NoDup_app. split; [done|]. split; [|apply NoDup_singleton]. intros x Hx%H7 ->%list_elem_of_singleton. congruence.
    + intros c'. change (place_of c' _) with (place_of c' (set_place c Down s)).
      rewrite elem_of_app, list_elem_of_singleton, Hpl, H7. case_decide; [subst; naive_solver|]. naive_solver.
Qed.

Lemma handleClose_client_inv c fd err s : inv s -> legal s (HandleClose c fd err) ->
  exists s', exec s (HandleClose c fd err) = Ok s' /\ inv s' /\ nextConnId_ s' = nextConnId_ s.
Proof.
  intros Hinv (Hc&Hnr). pose proof (closed_inv c s Hinv Hc) as Hcl. cbn [exec]. cbn zeta.
  change (alive (set_place c Down s)) with (alive s). destruct (alive s) eqn:Ha.
  - unfold removeConnection. cbn [connection_ set_place set_conns].
    assert (connection_ s = Some c) as Hcon by by apply (inv_connection _ Hinv Ha).
    rewrite bool_decide_eq_true_2 by done. cbn [massert mbind outcome_bind].
    change (tasks (set_connection None (set_place c Down s))) with (tasks s).
    set (s1 := set_tasks _ _) in *. change (retry_ s1 && connect_ s1) with (retry_ s && connect_ s).
    change (connector_ s1) with (connector_ s).
    destruct (retry_ s && connect_ s) eqn:Er; [|by exists s1]. apply andb_true_iff in Er as [_ Econ].
    assert (Connector.state_ (connector_ s) = Connector.kConnected) as Hst by by eapply inv_up.
    assert (Connector.functors (connector_ s) = []) as Hf.
    { pose proof (Connector.inv_place _ (inv_connector _ Hinv)) as Hp. unfold Connector.place_ok in Hp. rewrite Hst in Hp.
      destruct Hp as (_&Hp). destruct (Connector.functors (connector_ s)) as [|f fs] eqn:Ef; [done|]. exfalso.
      assert (f ∈ Connector.functors (connector_ s)) as Hin by (rewrite Ef; by left). destruct f.
      - apply Connector.count_elem in Hin. lia.
      - apply (inv_stopped _ Hinv Ha) in Hin. congruence.
      - apply Hnr. by rewrite Ef in Hin. }
    destruct (Connector.connector_exec_ok (connector_ s) (Connector.Restart fd err) (inv_connector _ Hinv)) as (k&E&Hk); [done|].
    cbn in E. rewrite E. cbn [mbind outcome_bind]. eexists. split; [done|]. split; [|done].
    assert (Connector.handed k = Connector.handed (connector_ s) /\ Connector.functors k = []) as (Hh&Hfk).
    { unfold Connector.restart in E. apply startInLoop_step in E as (_&_&H3&H4). cbn in H3, H4. by rewrite H3, H4, Hf. }
    destruct Hcl as [H1 H2 H3 H4 H5 H6 H7 H8 H9]. split; cbn; try done.
    + by rewrite Hh.
    + intros c' Hc'. by apply (H6 Ha) in Hc'.
    + rewrite Hfk. by intros _ ?%elem_of_nil.
    + by rewrite Ha.
  - eexists. split; [done|]. split; [|done]. unfold detail_removeConnection.
    destruct Hcl as [H1 H2 H3 H4 H5 H6 H7 H8 H9]. split; cbn in *; try done; by rewrite Ha.
Qed.

Lemma runTask_inv s : inv s -> exists s', exec s RunTask = Ok s' /\ inv s' /\ nextConnId_ s' = nextConnId_ s.
Proof.
  intros Hinv. cbn [exec]. destruct (tasks s) as [|c cs] eqn:Et; [by exists s|]. eexists. split; [done|]. split; [|done].
  destruct Hinv as [H1 H2 H3 H4 H5 H6 H7 H8 H9]. destruct H7 as (Hnd&H7). rewrite Et in *.
  apply NoDup_cons in Hnd as [Hnin Hnd].
  assert (place_of c s = Some Down) as Hc by (apply H7; by left).
  assert (forall c', place_of c' (set_place c Destroyed (set_tasks cs s)) =
    if decide (c = c') then Some Destroyed else place_of c' s) as Hpl.
  { intros c'. rewrite place_set. case_decide; [subst|done]. unfold place_of in *. cbn. by rewrite Hc. }
  assert (forall c', place_of c' (set_place c Destroyed (set_tasks cs s)) = Some Up <-> place_of c' s = Some Up) as Hup.
  { intros c'. rewrite Hpl. case_decide; [subst; rewrite Hc; done|done]. }
  split; cbn; try done.
  - intros c'. rewrite <-H2. destruct (decide (c = c')) as [->|]; [by rewrite lookup_alter_eq, fmap_is_Some|by rewrite lookup_alter_ne].
  - intros c' Hc'. apply (H4 c'). by apply Hup.
  - intros c' c'' Hc' Hc''. apply H5; by apply Hup.
  - intros Ha c'. rewrite Hup. by apply H6.
  - split; [done|]. intros c'. rewrite Hpl. case_decide; [subst; done|]. rewrite <-H7, elem_of_cons. naive_solver.
Qed.

Lemma destroy_client_inv unique s : inv s -> alive s = true -> inv (destroy unique s).
Proof.
  intros Hinv Ha. unfold destroy. destruct (connection_ s) as [c|] eqn:Ec.
  - assert (place_of c s = Some Up) as Hc by by apply (inv_connection _ Hinv Ha).
    pose proof (inv_up _ Hinv c Hc). destruct Hinv as [H1 H2 H3 H4 H5 H6 H7 H8 H9].
    destruct unique; split; cbn; try done; by right.
  - pose proof (stop_client_inv s Hinv) as [H1 H2 H3 H4 H5 H6 H7 H8 H9]. split; cbn in *; try done. by left.
Qed.

Lemma client_exec_ok s e : inv s -> nextConnId_ s + 1 < 2 ^ 31 -> legal s e ->
  exists s', exec s e = Ok s' /\ inv s' /\ nextConnId_ s' <= nextConnId_ s + 1.
Proof.
  intros Hinv Hn Hl. destruct e as [inLoop fd err| | | |e peer|c fd err| |unique].
  - destruct (connect_inv inLoop fd err s Hinv Hl) as (s'&?&?&?). exists s'. split_and!; [done|done|lia].
  - eexists. split; [done|]. pose proof (inv_set_connect false s Hinv ltac:(done)) as Hi. unfold disconnect.
    cbn [connection_ set_connect]. destruct (connection_ s); (split; [|cbn; lia]); [|done].
    destruct Hi as [H1 H2 H3 H4 H5 H6 H7 H8 H9]. by split.
  - eexists. split; [done|]. split; [exact (stop_client_inv s Hinv)|cbn; lia].
  - eexists. split; [done|]. split; [|cbn; lia]. destruct Hinv as [H1 H2 H3 H4 H5 H6 H7 H8 H9]. by split.
  - destruct Hl as (He&Hl). cbn [exec].
    destruct (Connector.connector_exec_ok _ e (inv_connector _ Hinv) Hl) as (k&E&Hk). rewrite E. cbn [mbind outcome_bind].
    destruct (connector_step _ e k (inv_connector _ Hinv) He Hl E) as (Hc&Hf&Hor). unfold on_handed.
    destruct Hor as [(Hh&Hst)|(fd&Hh&Hold&Hcon&Hst)].
    + rewrite decide_False by (rewrite Hh; lia). eexists. split; [done|]. split; [|cbn; lia].
      apply inv_set_connector; try done. intros Ha Hin. apply (inv_stopped _ Hinv Ha). auto.
    + rewrite decide_True by (rewrite Hh, length_app; cbn; lia). cbn [alive set_connector].
      destruct (alive s) eqn:Ha.
      * destruct (newConnection_inv peer k fd s Hinv Hn Ha Hk Hh Hst Hold Hf) as (s'&?&?&?). exists s'. split_and!; [done|done|lia].
      * destruct (inv_dead _ Hinv Ha) as [Hd|Hd]; congruence.
  - destruct (handleClose_client_inv c fd err s Hinv Hl) as (s'&?&?&?). exists s'. split_and!; [done|done|lia].
  - destruct (runTask_inv s Hinv) as (s'&?&?&?). exists s'. split_and!; [done|done|lia].
  - eexists. split; [done|]. split; [by apply destroy_client_inv|]. unfold destroy. destruct (connection_ s), unique; cbn; lia.
Qed.
Lemma client_run_ok es : forall s, inv s -> nextConnId_ s + zlen es < 2 ^ 31 -> legal_run s es ->
  exists s', run s es = Ok s' /\ inv s'.
Proof.
  induction es as [|e es IH]; intros s Hinv Hn Hl; [by exists s|]. rewrite zlen_cons in Hn. pose proof (zlen_nonneg es).
  destruct Hl as (Hl&Hes). destruct (client_exec_ok s e Hinv ltac:(lia) Hl) as (s1&E&Hi&Hle).
  destruct (IH s1 Hi ltac:(lia) (Hes s1 E)) as (s'&E'&Hi'). exists s'. split; [|done].
  unfold run in *. cbn [foldM]. by rewrite E.
Qed.
Lemma new_client_inv name : inv (new_ name).
Proof.
  assert (forall c, place_of c (new_ name) = None) as Hno by (intros c; unfold place_of; cbn; by rewrite lookup_empty).
  split.
  - split; cbn; try done; lia || by intros ?%elem_of_nil.
  - intros c. cbn. rewrite lookup_empty. split; [by intros []|lia].
  - done.
  - intros c. by rewrite Hno.
  - intros c c'. by rewrite Hno.
  - intros _ c. by rewrite Hno.
  - split; [constructor|]. intros c. rewrite Hno. split; [by intros ?%elem_of_nil|done].
  - cbn. by intros _ ?%elem_of_nil.
  - done.
Qed.

(** * Property *)

(** C16: A client and its connections.  For any use the class is written for (connect,
    disconnect, stop, retry, the connector's events, connections that close, the
    destructor at any time), no assertion fails and the destroyed client is not
    called; every socket the connector hands over becomes one connection; at most
    one is up at any time, which is [connection_] while the client lives and keeps
    the connector in [kConnected]; and a connection that closed is destroyed by
    exactly one queued call. *)
Theorem tcp_client_one_connection name es :
  legal_run (new_ name) es -> zlen es < 2 ^ 31 - 1 ->
  exists s, run (new_ name) es = Ok s /\
    (forall c, is_Some (conns s !! c) <-> 1 <= c <= zlen (Connector.handed (connector_ s))) /\
    (forall c c', place_of c s = Some Up -> place_of c' s = Some Up -> c = c') /\
    (forall c, place_of c s = Some Up -> Connector.state_ (connector_ s) = Connector.kConnected) /\
    (alive s = true -> forall c, place_of c s = Some Up <-> connection_ s = Some c) /\
    NoDup (tasks s) /\ (forall c, c ∈ tasks s <-> place_of c s = Some Down).
Proof.
  intros Hl Hn. destruct (client_run_ok es (new_ name) (new_client_inv name)) as (s&E&[H1 H2 H3 H4 H5 H6 (H7&H7') H8 H9]);
    [cbn; lia|done|]. exists s. split; [done|]. split; [|done]. intros c. rewrite H2, H3. lia.
Qed.
(** A connection with retry that closes and is made again, and the destructor
    while it is up. *)
Definition witness_run : list event :=
  [EnableRetry; Connect true 5 115; ConnectorEvent (Connector.HandleEvent false true 0 false) (lit "1.2.3.4:80");
   ConnectorEvent (Connector.RunFunctor 0 0) []; HandleClose 1 6 115; RunTask;
   ConnectorEvent (Connector.HandleEvent false true 0 false) (lit "1.2.3.4:80"); ConnectorEvent (Connector.RunFunctor 0 0) [];
   Destroy true; HandleClose 2 0 0].
Lemma tcp_client_one_connection_witness :
  exists s, run (new_ (lit "c")) witness_run = Ok s /\ place_of 1 s = Some Destroyed /\ tasks s = [2] /\
    NoDup (tasks s) /\ Connector.handed (connector_ s) = [5; 6].
Proof.
  destruct (tcp_client_one_connection (lit "c") witness_run) as (s&E&_&_&_&_&Hnd&_).
  - unfold witness_run. repeat match goal with
    | |- legal_run _ (_ :: _) => split; [|intros ? H; vm_compute in H; injection H as <-]
    | |- legal_run _ [] => exact I
    | |- legal _ (Connect _ _ _) => repeat split
    | |- legal _ (HandleClose _ _ _) => split; [reflexivity|apply (bool_decide_unpack _); exact I]
    | |- legal _ (ConnectorEvent (Connector.HandleEvent _ _ _ _) _) => split; [reflexivity|eexists; reflexivity]
    | |- legal _ _ => split; exact I || reflexivity
    | |- legal _ _ => exact I || reflexivity
    end.
  - vm_compute. reflexivity.
  - exists s. split; [exact E|]. vm_compute in E. injection E as <-. split; [reflexivity|]. split; [reflexivity|].
    split; [exact Hnd|reflexivity].
Defined.

(** [connect] again after a connection made without retry has closed: the
    connector is still [kConnected] and the assertion in [startInLoop] fails. *)
Example connect_after_close_fails :
  run (new_ (lit "c"))
    [Connect true 5 115; ConnectorEvent (Connector.HandleEvent false true 0 false) (lit "1.2.3.4:80");
     ConnectorEvent (Connector.RunFunctor 0 0) []; HandleClose 1 0 0; RunTask; Connect true 6 115] =
  Err (AssertFail "state_ == kDisconnected").
Proof. vm_compute. reflexivity. Qed.

(** The buffer has no room for the number after a long IPv6 address: all
    connections get the same name. *)
Example long_peer_loses_number :
  let peer := lit "[2001:db8:85a3::8a2e:370:7334]:443" in
  exists s1 s2, newConnection peer (new_ (lit "c")) = Ok s1 /\ newConnection peer s1 = Ok s2 /\
    conn_name <$> conns s2 !! 1 = conn_name <$> conns s2 !! 2.
Proof. eexists _, _. split; [vm_compute; reflexivity|]. split; [vm_compute; reflexivity|vm_compute; reflexivity]. Qed.
End TcpClient.
