(* ===== verification/NetInspector.v ===== *)
(** src/muduo/net/inspect/Inspector.h and Inspector.cc: commands of the running
    process, looked up by URL.

    [std::map] is an ordered association list.  A callback is a function of
    the method and the arguments; [None] is an empty std::function.  The bytes
    of the icon are a parameter, given in NetFavicon.  The mutex makes each operation one step. *)

From stdpp Require Import sorting.
From S2P Require Import Prelude BaseStringPiece NetHttpRequest NetHttpResponse.

Module Inspector.

(** * split *)

(** [str.find('/', start)]; [None] for npos. *)
Definition find_slash (str : bytes) (start : Z) : option Z :=
  let i := find_idx 47 (zdrop start str) in
  if i =? zlen (zdrop start str) then None else Some (start + i).
Definition substr (str : bytes) (pos n : Z) : bytes := zslice pos (pos + n) str.

(** The while loop; [None] when fuel runs out. *)
Fixpoint split_loop (fuel : nat) (str : bytes) (start : Z) (pos : option Z) (result : list bytes) : option (Z * list bytes) :=
  match fuel with
  | O => None
  | S fuel =>
      match pos with
      | None => Some (start, result)
      | Some pos =>
          let result := if start <? pos then result ++ [substr str start (pos - start)] else result in
          let start := pos + 1 in
          split_loop fuel str start (find_slash str start) result
      end
  end.
Definition split (str : bytes) : option (list bytes) :=
  '(start, result) ← split_loop (S (S (length str))) str 0 (find_slash str 0) [];
  Some (if start <? zlen str then result ++ [zdrop start str] else result).

(** * The registry *)

Section OrderedMap.
Context {A : Type}.
Fixpoint map_find (k : bytes) (l : list (bytes * A)) : option A :=
  match l with [] => None | (k', v) :: l' => if bytes_eqb k k' then Some v else map_find k l' end.
(** [m[k] = f(m[k])], where [d] stands for a value not there yet. *)
Fixpoint map_update (k : bytes) (d : A) (f : A -> A) (l : list (bytes * A)) : list (bytes * A) :=
  match l with
  | [] => [(k, f d)]
  | (k', v) :: l' =>
      let c := StringPiece.lex k k' in
      if c <? 0 then (k, f d) :: l
      else if c =? 0 then (k', f v) :: l'
      else (k', v) :: map_update k d f l'
  end.
Definition map_erase (k : bytes) (l : list (bytes * A)) : list (bytes * A) := filter (fun x => x.1 <> k) l.
End OrderedMap.

Definition Callback : Type := option (HttpRequest.Method -> list bytes -> bytes).
Record t := mk { modules_ : list (bytes * list (bytes * Callback)); helps_ : list (bytes * list (bytes * bytes)) }.
Definition new_ : t := mk [] [].

Definition add (module command : bytes) (cb : Callback) (help : bytes) (s : t) : t :=
  mk (map_update module [] (map_update command None (fun _ => cb)) (modules_ s))
     (map_update module [] (map_update command [] (fun _ => help)) (helps_ s)).
Definition remove (module command : bytes) (s : t) : t :=
  match map_find module (modules_ s) with
  | Some _ =>
      mk (map_update module [] (map_erase command) (modules_ s)) (map_update module [] (map_erase command) (helps_ s))
  | None => s
  end.

(** * Requests *)

Definition help_line (module command help : bytes) : bytes :=
  let len := zlen module + zlen command in
  lit "/" ++ module ++ lit "/" ++ command ++ replicate (Z.to_nat (if 25 <=? len then 1 else 25 - len)) 32 ++ help ++ [10].
Definition help_text (s : t) : bytes :=
  mjoin ((fun m => mjoin ((fun c => help_line m.1 c.1 c.2) <$> m.2)) <$> helps_ s).

Definition respond (contentType body : bytes) (resp : HttpResponse.t) : HttpResponse.t :=
  HttpResponse.setBody body (HttpResponse.setContentType contentType
    (HttpResponse.setStatusMessage (lit "OK") (HttpResponse.setStatusCode HttpResponse.k200Ok resp))).
Definition not_found (resp : HttpResponse.t) : HttpResponse.t :=
  HttpResponse.setStatusMessage (lit "Not Found") (HttpResponse.setStatusCode HttpResponse.k404NotFound resp).

(** [None] when [split] does not end. *)
Definition onRequest (favicon : bytes) (s : t) (req : HttpRequest.t) (resp : HttpResponse.t) : option HttpResponse.t :=
  if bytes_eqb (HttpRequest.path_ req) (lit "/") then Some (respond (lit "text/plain") (help_text s) resp)
  else
    result ← split (HttpRequest.path_ req);
    match result with
    | [] => Some (not_found resp)
    | [module] =>
        if bytes_eqb module (lit "favicon.ico") then Some (respond (lit "image/png") favicon resp) else Some (not_found resp)
    | module :: command :: args =>
        match map_find module (modules_ s) with
        | Some commList =>
            match map_find command commList with
            | Some (Some cb) => Some (respond (lit "text/plain") (cb (HttpRequest.method_ req) args) resp)
            | _ => Some (not_found resp)
            end
        | None => Some (not_found resp)
        end
    end.

(** * Reference *)

(** The parts between the slashes. *)
Fixpoint fields (s : bytes) : list bytes :=
  match s with
  | [] => [[]]
  | x :: s' =>
      if x =? 47 then [] :: fields s'
      else match fields s' with f :: fs => (x :: f) :: fs | [] => [[x]] end
  end.
Definition parts (s : bytes) : list bytes := filter (fun f => f <> []) (fields s).

Inductive op := Add (module command : bytes) (cb : Callback) (help : bytes) | Remove (module command : bytes).
Definition apply (s : t) (o : op) : t :=
  match o with Add m c cb h => add m c cb h s | Remove m c => remove m c s end.
(** The registry as one finite map from module and command. *)
Definition registry (r : gmap (bytes * bytes) (Callback * bytes)) (o : op) : gmap (bytes * bytes) (Callback * bytes) :=
  match o with Add m c cb h => <[(m, c) := (cb, h)]> r | Remove m c => delete (m, c) r end.

(** * split: lemmas *)

Definition no_slash (s : bytes) : Prop := Forall (fun x => x <> 47) s.
Lemma fields_end a : no_slash a -> fields a = [a].
Proof.
  intros Ha. induction Ha as [|x a Hx Ha IH]; [done|]. cbn. destruct (Z.eqb_spec x 47); [done|]. by rewrite IH.
Qed.
Lemma fields_slash a b : no_slash a -> fields (a ++ 47 :: b) = a :: fields b.
Proof.
  intros Ha. induction Ha as [|x a Hx Ha IH]; [done|]. cbn. destruct (Z.eqb_spec x 47); [done|]. by rewrite IH.
Qed.
Lemma parts_end a : no_slash a -> parts a = if decide (a = []) then [] else [a].
Proof. intros Ha. unfold parts. rewrite fields_end by done. rewrite filter_cons. do 2 case_decide; done || by subst. Qed.
Lemma parts_slash a b : no_slash a -> parts (a ++ 47 :: b) = (if decide (a = []) then [] else [a]) ++ parts b.
Proof. intros Ha. unfold parts. rewrite fields_slash by done. rewrite filter_cons. do 2 case_decide; done || by subst. Qed.

Lemma first_slash s : no_slash s \/ exists a b, no_slash a /\ s = a ++ 47 :: b.
Proof.
  induction s as [|x s [IH|(a&b&Ha&->)]].
  - left. constructor.
  - destruct (decide (x = 47)) as [->|]; [right; exists [], s; split; [constructor|done]|]. left. by constructor.
  - destruct (decide (x = 47)) as [->|]; [right; exists [], (a ++ 47 :: b); split; [constructor|done]|].
    right. exists (x :: a), b. split; [by constructor|done].
Qed.
Lemma find_slash_none str start : no_slash (zdrop start str) -> find_slash str start = None.
Proof. intros H. unfold find_slash. by rewrite find_idx_none, Z.eqb_refl. Qed.
Lemma find_slash_some str start a b : 0 <= start -> no_slash a -> zdrop start str = a ++ 47 :: b ->
  find_slash str start = Some (start + zlen a) /\ zdrop (start + zlen a + 1) str = b /\ substr str start (zlen a) = a.
Proof.
  intros Hs Ha E. unfold find_slash, substr, zslice. rewrite E, find_idx_first by done. rewrite zlen_app, zlen_cons.
  pose proof (zlen_nonneg b). pose proof (zlen_nonneg a). destruct (Z.eqb_spec (zlen a) (zlen a + (1 + zlen b))); [lia|].
  split; [done|]. split.
  - replace (start + zlen a + 1) with (start + (zlen a + 1)) by lia. rewrite <-zdrop_zdrop, E by lia.
    replace (a ++ 47 :: b) with ((a ++ [47]) ++ b) by by rewrite <-app_assoc. apply zdrop_app_exact. by rewrite zlen_app.
  - replace (start + zlen a - start) with (zlen a) by lia. by apply ztake_app_exact.
Qed.

Lemma split_loop_ok fuel : forall str start result, 0 <= start -> zlen (zdrop start str) < Z.of_nat fuel ->
  exists start' result', split_loop fuel str start (find_slash str start) result = Some (start', result') /\
    0 <= start' /\ no_slash (zdrop start' str) /\ result' ++ parts (zdrop start' str) = result ++ parts (zdrop start str).
Proof.
  induction fuel as [|fuel IH]; intros str start result Hs Hf; [pose proof (zlen_nonneg (zdrop start str)); lia|].
  cbn [split_loop]. destruct (first_slash (zdrop start str)) as [Hno|(a&b&Ha&E)].
  { rewrite find_slash_none by done. by exists start, result. }
  destruct (find_slash_some str start a b Hs Ha E) as (->&Eb&Esub). pose proof (zlen_nonneg a).
  destruct (IH str (start + zlen a + 1) (if start <? start + zlen a then result ++ [substr str start (start + zlen a - start)] else result))
    as (start'&result'&->&Hs'&Hno&Hr); [lia|rewrite Eb; rewrite E, zlen_app, zlen_cons in Hf; lia|].
  exists start', result'. split; [done|]. split; [done|]. split; [done|]. rewrite Hr, Eb, E, parts_slash by done.
  replace (start + zlen a - start) with (zlen a) by lia. rewrite Esub.
  destruct (Z.ltb_spec start (start + zlen a)), (decide (a = [])) as [->|Hne]; try done.
  - rewrite zlen_nil in *. lia.
  - by rewrite <-app_assoc.
  - destruct Hne. apply zlen_lt_0. lia.
Qed.
Lemma split_ok str : split str = Some (parts str).
Proof.
  unfold split. destruct (split_loop_ok (S (S (length str))) str 0 []) as (start&result&->&Hs&Hno&Hr); [lia| |].
  { rewrite zdrop_0 by lia. unfold zlen. lia. }
  cbn. f_equal. rewrite (zdrop_0 0 str) in Hr by lia. cbn in Hr. rewrite <-Hr, parts_end by done.
  destruct (Z.ltb_spec start (zlen str)), (decide (zdrop start str = [])) as [E|Hne]; try done.
  - assert (zlen (zdrop start str) = 0) as E0 by by rewrite E. rewrite zlen_zdrop in E0. lia.
  - by rewrite app_nil_r.
  - by rewrite zdrop_all in Hne by lia.
Qed.

(** * Ordered maps: lemmas *)

Section OrderedMapLemmas.
Context {A : Type}.
Implicit Types l : list (bytes * A).
Definition key_lt (x y : bytes * A) : Prop := StringPiece.lex x.1 y.1 < 0.

Lemma map_find_update k k' d f l :
  StronglySorted key_lt l ->
  map_find k' (map_update k d f l) = if decide (k = k') then Some (f (default d (map_find k l))) else map_find k' l.
Proof.
  intros Hl. induction Hl as [|[k0 v] l Hl IH Hall]; cbn [map_update map_find].
  { unfold bytes_eqb. case_decide as E; [subst; by rewrite bool_decide_eq_true_2|by rewrite bool_decide_eq_false_2]. }
  assert (forall x, StringPiece.lex k k0 < 0 -> map_find k l = Some x -> False) as Habs.
  { intros x Hlt Hx. assert (exists v', (k, v') ∈ l) as (v'&Hin).
    { clear -Hx. induction l as [|[k1 v1] l IH]; [done|]. cbn in Hx. unfold bytes_eqb in Hx. case_bool_decide.
      - subst. exists v1. by left.
      - destruct (IH Hx) as (v'&?). exists v'. by right. }
    apply (proj1 (Forall_forall _ _) Hall) in Hin. unfold key_lt in Hin. cbn in Hin.
    rewrite StringPiece.lex_antisym in Hin. lia. }
  unfold bytes_eqb in *. destruct (Z.ltb_spec (StringPiece.lex k k0) 0) as [Hlt|Hge]; cbn [map_find]; unfold bytes_eqb in *.
  - assert (k <> k0) as Hne by (intros ->; rewrite (proj2 (StringPiece.lex_eq k0 k0)) in Hlt; [lia|done]).
    rewrite (bool_decide_eq_false_2 (k = k0)) by done. case_decide as E.
    + subst. rewrite bool_decide_eq_true_2 by done. destruct (map_find k' l) eqn:Ef; [by destruct (Habs a)|done].
    + by rewrite (bool_decide_eq_false_2 (k' = k)) by done.
  - destruct (Z.eqb_spec (StringPiece.lex k k0) 0) as [E0%StringPiece.lex_eq|Hne]; cbn [map_find]; unfold bytes_eqb in *.
    + subst k0. rewrite (bool_decide_eq_true_2 (k = k)) by done. case_decide as E; [subst; by rewrite bool_decide_eq_true_2|].
      by rewrite !bool_decide_eq_false_2 by done.
    + assert (k <> k0) as Hne' by (intros ->; by rewrite (proj2 (StringPiece.lex_eq k0 k0)) in Hne).
      rewrite IH. rewrite (bool_decide_eq_false_2 (k = k0)) by done. destruct (decide (k = k')) as [E|E]; [|done]. subst.
      by rewrite (bool_decide_eq_false_2 (k' = k0)) by done.
Qed.
Lemma map_find_erase k k' l : map_find k' (map_erase k l) = if decide (k = k') then None else map_find k' l.
Proof.
  unfold map_erase. induction l as [|[k0 v] l IH]; [by case_decide|]. rewrite filter_cons. cbn [fst map_find].
  destruct (decide (k0 <> k)) as [E|E%dec_stable]; cbn [map_find]; rewrite ?IH; unfold bytes_eqb.
  - destruct (decide (k = k')); [subst; by rewrite bool_decide_eq_false_2|done].
  - subst. destruct (decide (k = k')); [done|]. by rewrite bool_decide_eq_false_2.
Qed.

Lemma lex_lt_trans x y z : StringPiece.lex x y < 0 -> StringPiece.lex y z < 0 -> StringPiece.lex x z < 0.
Proof.
  intros H1 H2. pose proof (StringPiece.lex_trans x y z ltac:(lia) ltac:(lia)).
  destruct (decide (StringPiece.lex x z = 0)) as [->%StringPiece.lex_eq|]; [|lia].
  rewrite StringPiece.lex_antisym in H2. lia.
Qed.
Lemma map_update_keys k d f l (P : bytes -> Prop) :
  P k -> Forall (fun x => P x.1) l -> Forall (fun x => P x.1) (map_update k d f l).
Proof.
  intros Hk Hl. induction Hl as [|[k0 v] l Hx Hl IH]; cbn; [by repeat constructor|].
  destruct (_ <? 0); [by repeat constructor|]. destruct (_ =? 0); by constructor.
Qed.
Lemma map_update_sorted k d f l : StronglySorted key_lt l -> StronglySorted key_lt (map_update k d f l).
Proof.
  intros Hl. induction Hl as [|[k0 v] l Hl IH Hall]; cbn [map_update]; [repeat constructor|].
  destruct (Z.ltb_spec (StringPiece.lex k k0) 0) as [Hlt|Hge].
  - constructor; [by constructor|]. constructor; [done|]. eapply Forall_impl; [exact Hall|].
    intros x Hx. by apply (lex_lt_trans _ k0).
  - destruct (Z.eqb_spec (StringPiece.lex k k0) 0); [by constructor|]. constructor; [done|].
    apply (map_update_keys k d f l (fun x => StringPiece.lex k0 x < 0)); [|done]. rewrite StringPiece.lex_antisym. lia.
Qed.
Lemma map_erase_sorted k l : StronglySorted key_lt l -> StronglySorted key_lt (map_erase k l).
Proof.
  intros Hl. unfold map_erase. induction Hl as [|x l Hl IH Hall]; [constructor|]. rewrite filter_cons.
  case_decide; [|done]. constructor; [done|]. apply Forall_forall. intros y [_ Hy]%list_elem_of_filter.
  by apply (proj1 (Forall_forall _ _) Hall).
Qed.
Lemma map_find_elem k v l : StronglySorted key_lt l -> (k, v) ∈ l <-> map_find k l = Some v.
Proof.
  intros Hl. induction Hl as [|[k0 v0] l Hl IH Hall]; cbn; [by rewrite elem_of_nil|].
  rewrite elem_of_cons, IH. unfold bytes_eqb. case_bool_decide as E; [subst|naive_solver].
  split; [|naive_solver]. intros [?|Hf%IH]; [naive_solver|].
  apply (proj1 (Forall_forall _ _) Hall) in Hf. unfold key_lt in Hf. cbn in Hf.
  rewrite (proj2 (StringPiece.lex_eq k0 k0)) in Hf; [lia|done].
Qed.
End OrderedMapLemmas.

(** * The registry: lemmas *)

Definition find2 {A} (m c : bytes) (l : list (bytes * list (bytes * A))) : option A :=
  inner ← map_find m l; map_find c inner.
Definition sorted2 {A} (l : list (bytes * list (bytes * A))) : Prop :=
  StronglySorted key_lt l /\ Forall (fun x => StronglySorted key_lt x.2) l.

Lemma find_sorted2 {A} m (inner : list (bytes * A)) l : sorted2 l -> map_find m l = Some inner -> StronglySorted key_lt inner.
Proof. intros (Hs&Hall) Hm%map_find_elem; [|done]. exact (proj1 (Forall_forall _ _) Hall _ Hm). Qed.
Lemma update_sorted2 {A} m (f : list (bytes * A) -> list (bytes * A)) l :
  (forall x, StronglySorted key_lt x -> StronglySorted key_lt (f x)) -> sorted2 l -> sorted2 (map_update m [] f l).
Proof.
  intros Hf (Hs&Hall). split; [by apply map_update_sorted|]. clear Hs.
  induction Hall as [|[k v] l Hx Hall IH]; cbn; [repeat constructor; apply Hf; constructor|].
  destruct (_ <? 0); [repeat constructor; try done; apply Hf; constructor|].
  destruct (_ =? 0); constructor; cbn; auto.
Qed.
Lemma find2_update {A} m m' c' (f : list (bytes * A) -> list (bytes * A)) l : sorted2 l ->
  find2 m' c' (map_update m [] f l) = if decide (m = m') then map_find c' (f (default [] (map_find m l))) else find2 m' c' l.
Proof.
  intros (Hs&_). unfold find2. rewrite map_find_update by done. by case_decide.
Qed.

(** The two ordered maps hold the registry. *)
Record refines (s : t) (r : gmap (bytes * bytes) (Callback * bytes)) : Prop := {
  ref_sorted : sorted2 (modules_ s) /\ sorted2 (helps_ s);
  ref_cb m c : find2 m c (modules_ s) = fst <$> r !! (m, c);
  ref_help m c : find2 m c (helps_ s) = snd <$> r !! (m, c)
}.
Lemma find2_set {A} m c m' c' (v d : A) l : sorted2 l ->
  find2 m' c' (map_update m [] (map_update c d (fun _ => v)) l) = if decide ((m, c) = (m', c')) then Some v else find2 m' c' l.
Proof.
  intros Hs. rewrite find2_update by done. destruct (decide (m = m')) as [<-|Hne].
  2: { rewrite decide_False by congruence. done. }
  assert (StronglySorted key_lt (default [] (map_find m l))) as Hin.
  { destruct (map_find m l) eqn:E; [by eapply find_sorted2|constructor]. }
  rewrite map_find_update by done. destruct (decide (c = c')) as [<-|Hne]; [by rewrite decide_True|].
  rewrite decide_False by congruence. unfold find2. by destruct (map_find m l).
Qed.
Lemma find2_erase {A} m c m' c' (l : list (bytes * list (bytes * A))) : sorted2 l ->
  find2 m' c' (map_update m [] (map_erase c) l) = if decide ((m, c) = (m', c')) then None else find2 m' c' l.
Proof.
  intros Hs. rewrite find2_update by done. destruct (decide (m = m')) as [<-|Hne].
  2: { rewrite decide_False by congruence. done. }
  rewrite map_find_erase. destruct (decide (c = c')) as [<-|Hne]; [by rewrite decide_True|].
  rewrite decide_False by congruence. unfold find2. by destruct (map_find m l).
Qed.
Lemma refines_step s r o : refines s r -> refines (apply s o) (registry r o).
Proof.
  intros [(Hm&Hh) Hc He]. destruct o as [m c cb help|m c]; cbn [apply registry].
  - unfold add. split; cbn [modules_ helps_].
    + split; apply update_sorted2; try done; intros; by apply map_update_sorted.
    + intros m' c'. rewrite find2_set, Hc by done. case_decide as E; [by rewrite E, lookup_insert_eq|by rewrite lookup_insert_ne].
    + intros m' c'. rewrite find2_set, He by done. case_decide as E; [by rewrite E, lookup_insert_eq|by rewrite lookup_insert_ne].
  - unfold remove. destruct (map_find m (modules_ s)) as [inner|] eqn:Em.
    + split; cbn [modules_ helps_].
      * split; apply update_sorted2; try done; intros; by apply map_erase_sorted.
      * intros m' c'. rewrite find2_erase, Hc by done. case_decide as E; [by rewrite E, lookup_delete_eq|by rewrite lookup_delete_ne].
      * intros m' c'. rewrite find2_erase, He by done. case_decide as E; [by rewrite E, lookup_delete_eq|by rewrite lookup_delete_ne].
    + assert (delete (m, c) r = r) as ->; [|by split]. apply delete_id.
      specialize (Hc m c). unfold find2 in Hc. rewrite Em in Hc. cbn in Hc. by destruct (r !! (m, c)).
Qed.
Lemma refines_run os : forall s r, refines s r -> refines (foldl apply s os) (foldl registry r os).
Proof. induction os as [|o os IH]; intros s r H; [done|]. apply IH. by apply refines_step. Qed.
Lemma new_refines : refines new_ ∅.
Proof. split; [split; split; constructor| |]; intros; by rewrite lookup_empty. Qed.

(** * Property *)

(** What the registry answers a request with. *)
Definition answer (favicon : bytes) (r : gmap (bytes * bytes) (Callback * bytes)) (method : HttpRequest.Method)
    (ps : list bytes) (resp : HttpResponse.t) : HttpResponse.t :=
  match ps with
  | [p] => if decide (p = lit "favicon.ico") then respond (lit "image/png") favicon resp else not_found resp
  | module :: command :: args =>
      match r !! (module, command) with
      | Some (Some cb, _) => respond (lit "text/plain") (cb method args) resp
      | _ => not_found resp
      end
  | [] => not_found resp
  end.

(** The root page, from what is registered: a line per command with its path
    padded to 27 characters, and a space at least, before its help. *)
Definition menu_line (x : bytes * bytes * bytes) : bytes :=
  let '(module, command, help) := x in
  let path := [47] ++ module ++ [47] ++ command in
  path ++ replicate (Nat.max 1 (27 - length path)) 32 ++ help ++ [10].
Definition command_lt (x y : bytes * bytes * bytes) : Prop :=
  StringPiece.lex x.1.1 y.1.1 < 0 \/ x.1.1 = y.1.1 /\ StringPiece.lex x.1.2 y.1.2 < 0.
Definition entries (l : list (bytes * list (bytes * bytes))) : list (bytes * bytes * bytes) :=
  l ≫= (fun m => (fun c => (m.1, c.1, c.2)) <$> m.2).

Lemma menu_line_help m c h : help_line m c h = menu_line (m, c, h).
Proof.
  unfold help_line, menu_line. cbn [app length]. rewrite length_app. cbn [length]. rewrite <-app_assoc. cbn [app].
  do 4 f_equal. f_equal. f_equal. unfold zlen. destruct (Z.leb_spec 25 (Z.of_nat (length m) + Z.of_nat (length c))); lia.
Qed.
Lemma help_text_entries s : help_text s = mjoin (menu_line <$> entries (helps_ s)).
Proof.
  unfold help_text, entries. induction (helps_ s) as [|[m l] hs IH]; [done|]. cbn. rewrite fmap_app, join_app, <-IH. f_equal.
  rewrite <-list_fmap_compose. f_equal. apply list_fmap_ext. intros i [c h] _. apply menu_line_help.
Qed.
Lemma elem_of_entries l m c h : (m, c, h) ∈ entries l <-> exists inner, (m, inner) ∈ l /\ (c, h) ∈ inner.
Proof.
  unfold entries. rewrite list_elem_of_bind. split.
  - intros ([m' inner]&H%list_elem_of_fmap&Hin). destruct H as ([c' h']&[= -> -> ->]&Hc). eauto.
  - intros (inner&Hin&Hc). exists (m, inner). split; [|done]. apply list_elem_of_fmap. by exists (c, h).
Qed.
Lemma entries_sorted l : sorted2 l -> StronglySorted command_lt (entries l).
Proof.
  intros (Hs&Hall). induction Hs as [|[m inner] l Hs IH Hm]; [constructor|]. apply Forall_cons in Hall as [Hin Hall].
  specialize (IH Hall). cbn in Hin. unfold entries in *. cbn.
  assert (forall x, x ∈ l ≫= (fun m => (fun c => (m.1, c.1, c.2)) <$> m.2) -> StringPiece.lex m x.1.1 < 0) as Hlt.
  { intros [[m' c'] h'] Hx. apply elem_of_entries in Hx as (inner'&Hx&_). by apply (proj1 (Forall_forall _ _) Hm) in Hx. }
  induction Hin as [|[c h] inner Hin IHin Hc]; [done|]. cbn. constructor; [by apply IHin; [done|..]|].
  apply Forall_forall. intros [[m' c'] h'] [Hx|Hx]%elem_of_app; [|left; by apply (Hlt (m', c', h'))].
  apply list_elem_of_fmap in Hx as ([c0 h0]&[= -> -> ->]&Hx). right. split; [done|]. by apply (proj1 (Forall_forall _ _) Hc) in Hx.
Qed.
Lemma elem_of_helps (l : list (bytes * list (bytes * bytes))) m c h :
  sorted2 l -> (exists inner, (m, inner) ∈ l /\ (c, h) ∈ inner) <-> find2 m c l = Some h.
Proof.
  intros (Hs&Hall). unfold find2. split.
  - intros (inner&Hl&Hin). pose proof (proj1 (Forall_forall _ _) Hall _ Hl) as Hsl. apply map_find_elem in Hl as ->; [|done].
    cbn. by apply map_find_elem.
  - destruct (map_find m l) as [inner|] eqn:E; [|done]. cbn. intros Hf. apply map_find_elem in E; [|done].
    exists inner. split; [done|]. apply map_find_elem; [|done]. exact (proj1 (Forall_forall _ _) Hall _ E).
Qed.

(** C21: The inspector serves its registry.  After any additions and removals of
    commands, [split] ends on every path and gives its non-empty parts between
    slashes; a request for a module and command runs the callback last added for
    them with the remaining parts as arguments and answers 200 with its result,
    and is answered 404 when there is none (never added, removed or empty); the
    root page is one line per command registered, its path, padding and the help
    last added, in the order of module and command, and nothing else. *)
Theorem inspector_serves_registry favicon os req resp :
  let s := foldl apply new_ os in
  let r := foldl registry ∅ os in
  split (HttpRequest.path_ req) = Some (parts (HttpRequest.path_ req)) /\
  exists menu,
    (forall m c h, (m, c, h) ∈ menu <-> snd <$> r !! (m, c) = Some h) /\ StronglySorted command_lt menu /\
    onRequest favicon s req resp = Some (if decide (HttpRequest.path_ req = lit "/")
      then respond (lit "text/plain") (mjoin (menu_line <$> menu)) resp
      else answer favicon r (HttpRequest.method_ req) (parts (HttpRequest.path_ req)) resp).
Proof.
  cbn zeta. destruct (refines_run os new_ ∅ new_refines) as [(Hm&Hh) Hc He].
  set (s := foldl apply new_ os) in *. set (r := foldl registry ∅ os) in *.
  split; [apply split_ok|]. exists (entries (helps_ s)).
  split; [intros m c h; by rewrite elem_of_entries, elem_of_helps, He|]. split; [by apply entries_sorted|].
  unfold onRequest. rewrite split_ok, <-help_text_entries. unfold bytes_eqb. case_decide as E; [by rewrite bool_decide_eq_true_2|].
  rewrite bool_decide_eq_false_2 by done. cbn [mbind option_bind]. destruct (parts (HttpRequest.path_ req)) as [|m [|c args]]; [done| |].
  - cbn [answer]. case_decide; [by rewrite bool_decide_eq_true_2|by rewrite bool_decide_eq_false_2].
  - cbn [answer]. specialize (Hc m c). unfold find2 in Hc.
    destruct (map_find m (modules_ s)) as [inner|]; cbn in Hc; [rewrite Hc|]; by destruct (r !! (m, c)) as [[[] ?]|].
Qed.
Lemma inspector_serves_registry_witness :
  exists menu, StronglySorted command_lt menu /\
    mjoin (menu_line <$> menu) =
      lit "/a/b                       help" ++ [10] ++ lit "/proc/pid                  print pid" ++ [10].
Proof.
  destruct (inspector_serves_registry []
    [Add (lit "proc") (lit "pid") None (lit "print pid"); Add (lit "a") (lit "b") None (lit "old");
     Add (lit "a") (lit "c") None []; Add (lit "a") (lit "b") None (lit "help"); Remove (lit "a") (lit "c")]
    (HttpRequest.setPath (lit "/") HttpRequest.new_) (HttpResponse.new_ false)) as (_&menu&_&Hs&E).
  exists menu. split; [exact Hs|]. rewrite decide_True in E by reflexivity.
  apply (f_equal (fmap HttpResponse.body_)) in E. cbn [fmap option_fmap option_map] in E.
  injection E as E. unfold respond in E. cbn [HttpResponse.body_ HttpResponse.setBody] in E. rewrite <-E.
  vm_compute. reflexivity.
Defined.

Example inspector_example :
  let cb : Callback := Some (fun _ args => lit "n=" ++ fmt_d (zlen args)) in
  let s := foldl apply new_ [Add (lit "proc") (lit "pid") cb (lit "print pid"); Add (lit "a") (lit "b") cb (lit "help");
                             Add (lit "a") (lit "c") cb []; Remove (lit "a") (lit "c")] in
  let get path := onRequest [] s (HttpRequest.setPath path HttpRequest.new_) (HttpResponse.new_ false) in
  (HttpResponse.body_ <$> get (lit "//proc/pid/x//y/")) = Some (lit "n=2") /\
  (HttpResponse.statusCode_ <$> get (lit "/a/c")) = Some HttpResponse.k404NotFound /\
  (HttpResponse.body_ <$> get (lit "/")) =
    Some (lit "/a/b                       help" ++ [10] ++ lit "/proc/pid                  print pid" ++ [10]).
Proof. vm_compute. done. Qed.
End Inspector.
