(* ===== verification/NetFavicon.v ===== *)
(** src/muduo/net/inspect/Inspector.cc, the icon: [favicon], the bytes of a PNG
    image that the inspector serves to browsers.

    The file has the bytes as the source has them, row by row, a reader of the
    PNG container (signature, chunks with their length, type and CRC), and
    proves that what is served is an intact 16 by 16 image with alpha channel. *)

From S2P Require Import Prelude BaseStringPiece Endian NetBuffer NetHttpRequest NetHttpResponse NetInspector.

Module Favicon.

Definition favicon : bytes :=
  [0x89; 0x50; 0x4e; 0x47; 0x0d; 0x0a; 0x1a; 0x0a; 0x00; 0x00;
   0x00; 0x0d; 0x49; 0x48; 0x44; 0x52; 0x00; 0x00; 0x00; 0x10;
   0x00; 0x00; 0x00; 0x10; 0x08; 0x06; 0x00; 0x00; 0x00; 0x1f;
   0xf3; 0xff; 0x61; 0x00; 0x00; 0x00; 0x04; 0x73; 0x42; 0x49;
   0x54; 0x08; 0x08; 0x08; 0x08; 0x7c; 0x08; 0x64; 0x88; 0x00;
   0x00; 0x00; 0x09; 0x70; 0x48; 0x59; 0x73; 0x00; 0x00; 0x0b;
   0x12; 0x00; 0x00; 0x0b; 0x12; 0x01; 0xd2; 0xdd; 0x7e; 0xfc;
   0x00; 0x00; 0x00; 0x1c; 0x74; 0x45; 0x58; 0x74; 0x53; 0x6f;
   0x66; 0x74; 0x77; 0x61; 0x72; 0x65; 0x00; 0x41; 0x64; 0x6f;
   0x62; 0x65; 0x20; 0x46; 0x69; 0x72; 0x65; 0x77; 0x6f; 0x72;
   0x6b; 0x73; 0x20; 0x43; 0x53; 0x33; 0x98; 0xd6; 0x46; 0x03;
   0x00; 0x00; 0x00; 0x15; 0x74; 0x45; 0x58; 0x74; 0x43; 0x72;
   0x65; 0x61; 0x74; 0x69; 0x6f; 0x6e; 0x20; 0x54; 0x69; 0x6d;
   0x65; 0x00; 0x32; 0x2f; 0x31; 0x37; 0x2f; 0x30; 0x38; 0x20;
   0x9c; 0xaa; 0x58; 0x00; 0x00; 0x04; 0x11; 0x74; 0x45; 0x58;
   0x74; 0x58; 0x4d; 0x4c; 0x3a; 0x63; 0x6f; 0x6d; 0x2e; 0x61;
   0x64; 0x6f; 0x62; 0x65; 0x2e; 0x78; 0x6d; 0x70; 0x00; 0x3c;
   0x3f; 0x78; 0x70; 0x61; 0x63; 0x6b; 0x65; 0x74; 0x20; 0x62;
   0x65; 0x67; 0x69; 0x6e; 0x3d; 0x22; 0x20; 0x20; 0x20; 0x22;
   0x20; 0x69; 0x64; 0x3d; 0x22; 0x57; 0x35; 0x4d; 0x30; 0x4d;
   0x70; 0x43; 0x65; 0x68; 0x69; 0x48; 0x7a; 0x72; 0x65; 0x53;
   0x7a; 0x4e; 0x54; 0x63; 0x7a; 0x6b; 0x63; 0x39; 0x64; 0x22;
   0x3f; 0x3e; 0x0a; 0x3c; 0x78; 0x3a; 0x78; 0x6d; 0x70; 0x6d;
   0x65; 0x74; 0x61; 0x20; 0x78; 0x6d; 0x6c; 0x6e; 0x73; 0x3a;
   0x78; 0x3d; 0x22; 0x61; 0x64; 0x6f; 0x62; 0x65; 0x3a; 0x6e;
   0x73; 0x3a; 0x6d; 0x65; 0x74; 0x61; 0x2f; 0x22; 0x20; 0x78;
   0x3a; 0x78; 0x6d; 0x70; 0x74; 0x6b; 0x3d; 0x22; 0x41; 0x64;
   0x6f; 0x62; 0x65; 0x20; 0x58; 0x4d; 0x50; 0x20; 0x43; 0x6f;
   0x72; 0x65; 0x20; 0x34; 0x2e; 0x31; 0x2d; 0x63; 0x30; 0x33;
   0x34; 0x20; 0x34; 0x36; 0x2e; 0x32; 0x37; 0x32; 0x39; 0x37;
   0x36; 0x2c; 0x20; 0x53; 0x61; 0x74; 0x20; 0x4a; 0x61; 0x6e;
   0x20; 0x32; 0x37; 0x20; 0x32; 0x30; 0x30; 0x37; 0x20; 0x32;
   0x32; 0x3a; 0x31; 0x31; 0x3a; 0x34; 0x31; 0x20; 0x20; 0x20;
   0x20; 0x20; 0x20; 0x20; 0x20; 0x22; 0x3e; 0x0a; 0x20; 0x20;
   0x20; 0x3c; 0x72; 0x64; 0x66; 0x3a; 0x52; 0x44; 0x46; 0x20;
   0x78; 0x6d; 0x6c; 0x6e; 0x73; 0x3a; 0x72; 0x64; 0x66; 0x3d;
   0x22; 0x68; 0x74; 0x74; 0x70; 0x3a; 0x2f; 0x2f; 0x77; 0x77;
   0x77; 0x2e; 0x77; 0x33; 0x2e; 0x6f; 0x72; 0x67; 0x2f; 0x31;
   0x39; 0x39; 0x39; 0x2f; 0x30; 0x32; 0x2f; 0x32; 0x32; 0x2d;
   0x72; 0x64; 0x66; 0x2d; 0x73; 0x79; 0x6e; 0x74; 0x61; 0x78;
   0x2d; 0x6e; 0x73; 0x23; 0x22; 0x3e; 0x0a; 0x20; 0x20; 0x20;
   0x20; 0x20; 0x20; 0x3c; 0x72; 0x64; 0x66; 0x3a; 0x44; 0x65;
   0x73; 0x63; 0x72; 0x69; 0x70; 0x74; 0x69; 0x6f; 0x6e; 0x20;
   0x72; 0x64; 0x66; 0x3a; 0x61; 0x62; 0x6f; 0x75; 0x74; 0x3d;
   0x22; 0x22; 0x0a; 0x20; 0x20; 0x20; 0x20; 0x20; 0x20; 0x20;
   0x20; 0x20; 0x20; 0x20; 0x20; 0x78; 0x6d; 0x6c; 0x6e; 0x73;
   0x3a; 0x78; 0x61; 0x70; 0x3d; 0x22; 0x68; 0x74; 0x74; 0x70;
   0x3a; 0x2f; 0x2f; 0x6e; 0x73; 0x2e; 0x61; 0x64; 0x6f; 0x62;
   0x65; 0x2e; 0x63; 0x6f; 0x6d; 0x2f; 0x78; 0x61; 0x70; 0x2f;
   0x31; 0x2e; 0x30; 0x2f; 0x22; 0x3e; 0x0a; 0x20; 0x20; 0x20;
   0x20; 0x20; 0x20; 0x20; 0x20; 0x20; 0x3c; 0x78; 0x61; 0x70;
   0x3a; 0x43; 0x72; 0x65; 0x61; 0x74; 0x6f; 0x72; 0x54; 0x6f;
   0x6f; 0x6c; 0x3e; 0x41; 0x64; 0x6f; 0x62; 0x65; 0x20; 0x46;
   0x69; 0x72; 0x65; 0x77; 0x6f; 0x72; 0x6b; 0x73; 0x20; 0x43;
   0x53; 0x33; 0x3c; 0x2f; 0x78; 0x61; 0x70; 0x3a; 0x43; 0x72;
   0x65; 0x61; 0x74; 0x6f; 0x72; 0x54; 0x6f; 0x6f; 0x6c; 0x3e;
   0x0a; 0x20; 0x20; 0x20; 0x20; 0x20; 0x20; 0x20; 0x20; 0x20;
   0x3c; 0x78; 0x61; 0x70; 0x3a; 0x43; 0x72; 0x65; 0x61; 0x74;
   0x65; 0x44; 0x61; 0x74; 0x65; 0x3e; 0x32; 0x30; 0x30; 0x38;
   0x2d; 0x30; 0x32; 0x2d; 0x31; 0x37; 0x54; 0x30; 0x32; 0x3a;
   0x33; 0x36; 0x3a; 0x34; 0x35; 0x5a; 0x3c; 0x2f; 0x78; 0x61;
   0x70; 0x3a; 0x43; 0x72; 0x65; 0x61; 0x74; 0x65; 0x44; 0x61;
   0x74; 0x65; 0x3e; 0x0a; 0x20; 0x20; 0x20; 0x20; 0x20; 0x20;
   0x20; 0x20; 0x20; 0x3c; 0x78; 0x61; 0x70; 0x3a; 0x4d; 0x6f;
   0x64; 0x69; 0x66; 0x79; 0x44; 0x61; 0x74; 0x65; 0x3e; 0x32;
   0x30; 0x30; 0x38; 0x2d; 0x30; 0x33; 0x2d; 0x32; 0x34; 0x54;
   0x31; 0x39; 0x3a; 0x30; 0x30; 0x3a; 0x34; 0x32; 0x5a; 0x3c;
   0x2f; 0x78; 0x61; 0x70; 0x3a; 0x4d; 0x6f; 0x64; 0x69; 0x66;
   0x79; 0x44; 0x61; 0x74; 0x65; 0x3e; 0x0a; 0x20; 0x20; 0x20;
   0x20; 0x20; 0x20; 0x3c; 0x2f; 0x72; 0x64; 0x66; 0x3a; 0x44;
   0x65; 0x73; 0x63; 0x72; 0x69; 0x70; 0x74; 0x69; 0x6f; 0x6e;
   0x3e; 0x0a; 0x20; 0x20; 0x20; 0x20; 0x20; 0x20; 0x3c; 0x72;
   0x64; 0x66; 0x3a; 0x44; 0x65; 0x73; 0x63; 0x72; 0x69; 0x70;
   0x74; 0x69; 0x6f; 0x6e; 0x20; 0x72; 0x64; 0x66; 0x3a; 0x61;
   0x62; 0x6f; 0x75; 0x74; 0x3d; 0x22; 0x22; 0x0a; 0x20; 0x20;
   0x20; 0x20; 0x20; 0x20; 0x20; 0x20; 0x20; 0x20; 0x20; 0x20;
   0x78; 0x6d; 0x6c; 0x6e; 0x73; 0x3a; 0x64; 0x63; 0x3d; 0x22;
   0x68; 0x74; 0x74; 0x70; 0x3a; 0x2f; 0x2f; 0x70; 0x75; 0x72;
   0x6c; 0x2e; 0x6f; 0x72; 0x67; 0x2f; 0x64; 0x63; 0x2f; 0x65;
   0x6c; 0x65; 0x6d; 0x65; 0x6e; 0x74; 0x73; 0x2f; 0x31; 0x2e;
   0x31; 0x2f; 0x22; 0x3e; 0x0a; 0x20; 0x20; 0x20; 0x20; 0x20;
   0x20; 0x20; 0x20; 0x20; 0x3c; 0x64; 0x63; 0x3a; 0x66; 0x6f;
   0x72; 0x6d; 0x61; 0x74; 0x3e; 0x69; 0x6d; 0x61; 0x67; 0x65;
   0x2f; 0x70; 0x6e; 0x67; 0x3c; 0x2f; 0x64; 0x63; 0x3a; 0x66;
   0x6f; 0x72; 0x6d; 0x61; 0x74; 0x3e; 0x0a; 0x20; 0x20; 0x20;
   0x20; 0x20; 0x20; 0x3c; 0x2f; 0x72; 0x64; 0x66; 0x3a; 0x44;
   0x65; 0x73; 0x63; 0x72; 0x69; 0x70; 0x74; 0x69; 0x6f; 0x6e;
   0x3e; 0x0a; 0x20; 0x20; 0x20; 0x3c; 0x2f; 0x72; 0x64; 0x66;
   0x3a; 0x52; 0x44; 0x46; 0x3e; 0x0a; 0x3c; 0x2f; 0x78; 0x3a;
   0x78; 0x6d; 0x70; 0x6d; 0x65; 0x74; 0x61; 0x3e; 0x0a; 0x20;
   0x20; 0x20; 0x20; 0x20; 0x20; 0x20; 0x20; 0x20; 0x20; 0x20;
   0x20; 0x20; 0x20; 0x20; 0x20; 0x20; 0x20; 0x20; 0x20; 0x20;
   0x20; 0x20; 0x20; 0x20; 0x20; 0x20; 0x20; 0x20; 0x20; 0x20;
   0x20; 0x20; 0x20; 0x20; 0x20; 0x20; 0x20; 0x20; 0x20; 0x20;
   0x20; 0x20; 0x20; 0x20; 0x20; 0x20; 0x20; 0x20; 0x20; 0x20;
   0x20; 0x20; 0x20; 0x20; 0x20; 0x20; 0x20; 0x20; 0x20; 0x20;
   0x20; 0x20; 0x20; 0x20; 0x20; 0x20; 0x20; 0x20; 0x20; 0x20;
   0x20; 0x20; 0x20; 0x20; 0x20; 0x20; 0x20; 0x20; 0x20; 0x20;
   0x20; 0x20; 0x20; 0x20; 0x20; 0x20; 0x20; 0x20; 0x20; 0x20;
   0x20; 0x20; 0x20; 0x20; 0x20; 0x20; 0x20; 0x20; 0x20; 0x0a;
   0x20; 0x20; 0x20; 0x20; 0x20; 0x20; 0x20; 0x20; 0x20; 0x20;
   0x20; 0x20; 0x20; 0x20; 0x20; 0x20; 0x20; 0x20; 0x20; 0x20;
   0x20; 0x20; 0x20; 0x20; 0x20; 0x20; 0x20; 0x20; 0x20; 0x20;
   0x20; 0x20; 0x20; 0x20; 0x20; 0x20; 0x20; 0x20; 0x20; 0x20;
   0x20; 0x20; 0x20; 0x20; 0x20; 0x20; 0x20; 0x20; 0x20; 0x20;
   0x20; 0x20; 0x20; 0x20; 0x20; 0x20; 0x20; 0x20; 0x20; 0x20;
   0x20; 0x20; 0x20; 0x20; 0x20; 0x20; 0x20; 0x20; 0x20; 0x20;
   0x20; 0x20; 0x20; 0x20; 0x20; 0x20; 0x20; 0x20; 0x20; 0x20;
   0x20; 0x20; 0x20; 0x20; 0x20; 0x20; 0x20; 0x20; 0x20; 0x20;
   0x20; 0x20; 0x20; 0x20; 0x20; 0x20; 0x20; 0x20; 0x20; 0x20;
   0x0a; 0x20; 0x20; 0x20; 0x20; 0x20; 0x20; 0x20; 0x20; 0x20;
   0x20; 0x20; 0x20; 0x20; 0x20; 0x20; 0x20; 0x20; 0x20; 0x20;
   0x20; 0x20; 0x20; 0x20; 0x20; 0x20; 0x20; 0x20; 0x20; 0x20;
   0x20; 0x20; 0x20; 0x20; 0x20; 0x20; 0x20; 0x20; 0x20; 0x20;
   0x20; 0x20; 0x20; 0x20; 0x20; 0x20; 0x20; 0x20; 0x20; 0x20;
   0x20; 0x20; 0x20; 0x20; 0x20; 0x20; 0x20; 0x20; 0x20; 0x20;
   0x20; 0x20; 0x20; 0x20; 0x20; 0x20; 0x20; 0x20; 0x20; 0x20;
   0x20; 0x20; 0x20; 0x20; 0x20; 0x20; 0x20; 0x20; 0x20; 0x20;
   0x20; 0x20; 0x20; 0x20; 0x20; 0x20; 0x20; 0x20; 0x20; 0x20;
   0x20; 0x20; 0x35; 0x1d; 0x52; 0x64; 0x00; 0x00; 0x02; 0x0b;
   0x49; 0x44; 0x41; 0x54; 0x38; 0x8d; 0xa5; 0x93; 0x41; 0x6b;
   0x1a; 0x41; 0x18; 0x86; 0x9f; 0x89; 0x06; 0x23; 0x2e; 0x74;
   0xf5; 0x20; 0x4a; 0x0e; 0x6b; 0x20; 0xe4; 0xe2; 0xa5; 0x78;
   0xc8; 0xa1; 0x78; 0x89; 0x82; 0x17; 0x85; 0x82; 0x82; 0x3d;
   0x26; 0x62; 0x58; 0x72; 0xcd; 0x4f; 0xf1; 0x18; 0x4b; 0x1b;
   0x2f; 0xa5; 0x32; 0xe0; 0xb5; 0x9e; 0x35; 0x1a; 0x58; 0x2f;
   0xe9; 0x0f; 0xe8; 0x65; 0x6d; 0x84; 0xa2; 0x84; 0x2c; 0x0a;
   0x6b; 0x58; 0x62; 0xa7; 0x87; 0x68; 0x68; 0x13; 0xa1; 0xa5;
   0x79; 0xe1; 0x3b; 0x0c; 0xc3; 0xfb; 0xcc; 0x37; 0xef; 0x7c;
   0x23; 0x94; 0x52; 0xbc; 0x44; 0x7e; 0x00; 0x21; 0x04; 0x00;
   0xad; 0x56; 0xcb; 0x18; 0x8f; 0xc7; 0x0d; 0xdb; 0xb6; 0xd3;
   0x8e; 0xe3; 0xf8; 0x83; 0xc1; 0xa0; 0x8a; 0xc7; 0xe3; 0x3f;
   0x12; 0x89; 0x44; 0xb9; 0x5c; 0x2e; 0xf7; 0x56; 0xa6; 0xdf;
   0x0f; 0x15; 0x4a; 0x29; 0x84; 0x10; 0x34; 0x9b; 0xcd; 0x77;
   0x96; 0x65; 0x7d; 0x36; 0x0c; 0x43; 0xe4; 0x72; 0x39; 0xe2;
   0xf1; 0x38; 0xb7; 0xb7; 0xb7; 0xf4; 0xfb; 0x7d; 0x06; 0x83;
   0x01; 0xa9; 0x54; 0xea; 0x43; 0xa5; 0x52; 0x39; 0x7e; 0x0a;
   0x40; 0x29; 0x45; 0xab; 0xd5; 0x32; 0x4e; 0x4f; 0x4f; 0x7f;
   0x4a; 0x29; 0xd5; 0xdd; 0xdd; 0xdd; 0xb3; 0xea; 0xf5; 0x7a;
   0xea; 0xe4; 0xe4; 0x44; 0x49; 0x29; 0xd3; 0x2b; 0xcf; 0xaa;
   0x36; 0x00; 0xc6; 0xe3; 0x71; 0x63; 0x67; 0x67; 0x47; 0xe4;
   0xf3; 0x79; 0x00; 0x3c; 0xcf; 0xa3; 0x50; 0x28; 0xe0; 0xba;
   0x2e; 0x9e; 0xe7; 0x91; 0x4a; 0xa5; 0xd8; 0xdb; 0xdb; 0x63;
   0x34; 0x1a; 0x7d; 0x7c; 0x9a; 0xc1; 0x06; 0x80; 0x6d; 0xdb;
   0xe9; 0x6c; 0x36; 0x8b; 0xcf; 0xe7; 0xc3; 0xf3; 0x3c; 0x5c;
   0xd7; 0x05; 0x60; 0x36; 0x9b; 0xe1; 0xba; 0x2e; 0x8b; 0xc5;
   0x82; 0x4c; 0x26; 0x83; 0x6d; 0xdb; 0xbb; 0x6b; 0x43; 0x74;
   0x1c; 0xc7; 0x1f; 0x8b; 0xc5; 0x00; 0x28; 0x16; 0x8b; 0x8f;
   0x9b; 0xd5; 0x6a; 0x15; 0x00; 0x29; 0x25; 0x9a; 0xa6; 0x31;
   0x9f; 0xcf; 0xc5; 0x5a; 0xc0; 0xd6; 0xd6; 0x96; 0x9a; 0x4c;
   0x26; 0x22; 0x14; 0x0a; 0x21; 0xa5; 0x64; 0x36; 0x9b; 0x51;
   0xad; 0x56; 0xa9; 0xd5; 0x6a; 0x68; 0x9a; 0x06; 0xc0; 0xf5;
   0xf5; 0x35; 0xba; 0xae; 0xdf; 0xaf; 0xbd; 0x82; 0x61; 0x18;
   0xdf; 0x2c; 0xcb; 0x7a; 0x20; 0xfa; 0xfd; 0x04; 0x02; 0x01;
   0x00; 0x34; 0x4d; 0x23; 0x10; 0x08; 0xb0; 0x58; 0x2c; 0xe8;
   0x76; 0xbb; 0x24; 0x12; 0x89; 0x8b; 0xb5; 0x1d; 0x6c; 0x6f;
   0x6f; 0x1f; 0x75; 0x3a; 0x9d; 0x7e; 0x38; 0x1c; 0x26; 0x97;
   0xcb; 0x21; 0x84; 0x40; 0x4a; 0x09; 0xc0; 0xe6; 0xe6; 0x26;
   0xed; 0x76; 0x9b; 0xc9; 0x64; 0xa2; 0xa6; 0xd3; 0xe9; 0x27;
   0x78; 0x98; 0x9b; 0xd5; 0x53; 0x3e; 0xce; 0xc1; 0xf9; 0xf9;
   0xf9; 0xfb; 0xc1; 0x60; 0x70; 0x9c; 0x4c; 0x26; 0xd9; 0xdf;
   0xdf; 0x27; 0x12; 0x89; 0x30; 0x1c; 0x0e; 0xb9; 0xbc; 0xbc;
   0xe4; 0xe6; 0xe6; 0x46; 0xf9; 0x7c; 0xbe; 0x2f; 0xd3; 0xe9;
   0x34; 0x0f; 0x34; 0xea; 0xf5; 0x7a; 0xe5; 0x19; 0x60; 0x19;
   0xd6; 0x9b; 0xd1; 0x68; 0xd4; 0x18; 0x0e; 0x87; 0xbb; 0xf3;
   0xf9; 0x5c; 0xe8; 0xba; 0x7e; 0x6f; 0x18; 0xc6; 0x45; 0x34;
   0x1a; 0x3d; 0x2c; 0x95; 0x4a; 0xdf; 0x4d; 0xd3; 0xbc; 0x02;
   0x5e; 0x03; 0x5f; 0x81; 0x83; 0xb3; 0xb3; 0x33; 0xe7; 0x0f;
   0xc0; 0xdf; 0x64; 0x9a; 0xa6; 0xb1; 0x34; 0xeb; 0x80; 0x03;
   0x1c; 0x6c; 0xfc; 0x93; 0x73; 0xa9; 0x7a; 0xbd; 0x6e; 0x03;
   0x47; 0xcb; 0xa5; 0x0e; 0xbc; 0xe2; 0x7f; 0x7e; 0xa3; 0x69;
   0x9a; 0x87; 0xa6; 0x69; 0xbe; 0x55; 0x4a; 0x3d; 0x64; 0xf0;
   0x12; 0xfd; 0x02; 0x0d; 0x53; 0x06; 0x24; 0x88; 0x3f; 0xe1;
   0x69; 0x00; 0x00; 0x00; 0x00; 0x49; 0x45; 0x4e; 0x44; 0xae;
   0x42; 0x60; 0x82].

(** * The PNG container *)

(** CRC-32 as PNG has it: the reflected polynomial, one bit at a time. *)
Definition crc_bit (c : Z) : Z := if Z.testbit c 0 then Z.lxor 0xedb88320 (Z.shiftr c 1) else Z.shiftr c 1.
Definition crc_byte (c x : Z) : Z := Nat.iter 8 crc_bit (Z.lxor c x).
Definition crc32 (s : bytes) : Z := Z.lxor (foldl crc_byte 0xffffffff s) 0xffffffff.

(** The chunks - type and data - up to IEND, which must end the input. *)
Fixpoint chunks (fuel : nat) (s : bytes) : option (list (bytes * bytes)) :=
  match fuel with
  | O => None
  | S fuel =>
      let n := be_value (ztake 4 s) in
      let body := zslice 4 (8 + n) s in
      if (zlen s <? 12 + n) || negb (crc32 body =? be_value (zslice (8 + n) (12 + n) s)) then None
      else
        let c := (ztake 4 body, zdrop 4 body) in
        if bytes_eqb (ztake 4 body) (lit "IEND") then if zlen s =? 12 + n then Some [c] else None
        else rest ← chunks fuel (zdrop (12 + n) s); Some (c :: rest)
  end.
Definition png (s : bytes) : option (list (bytes * bytes)) :=
  if bytes_eqb (ztake 8 s) [0x89; 0x50; 0x4e; 0x47; 0x0d; 0x0a; 0x1a; 0x0a] then chunks (length s) (zdrop 8 s) else None.

(** * Theorems *)

Lemma crc32_check : crc32 (lit "123456789") = 0xcbf43926.
Proof. reflexivity. Qed.

(** The icon is an intact PNG image of 16 by 16 pixels, 8 bits per sample, with
    alpha: every chunk's CRC is right, and nothing follows the last one. *)
Theorem favicon_is_png :
  zlen favicon = 1743 /\ Forall is_byte favicon /\
  exists cs, png favicon = Some cs /\
    fst <$> cs = [lit "IHDR"; lit "sBIT"; lit "pHYs"; lit "tEXt"; lit "tEXt"; lit "tEXt"; lit "IDAT"; lit "IEND"] /\
    snd <$> head cs = Some (be_bytes 4 16 ++ be_bytes 4 16 ++ [8; 6; 0; 0; 0]).
Proof.
  split; [reflexivity|]. split; [apply Buffer.bytesb_spec; vm_compute; reflexivity|].
  destruct (png favicon) as [cs|] eqn:E; [|vm_compute in E; discriminate E].
  exists cs. split; [done|]. vm_compute in E. injection E as <-. split; reflexivity.
Qed.

(** A browser that asks for it gets these bytes, whatever is registered. *)
Theorem favicon_served s req resp : HttpRequest.path_ req = lit "/favicon.ico" ->
  Inspector.onRequest favicon s req resp = Some (Inspector.respond (lit "image/png") favicon resp).
Proof. intros Hp. unfold Inspector.onRequest. rewrite Hp. reflexivity. Qed.

End Favicon.
