(* ===== verification/NetInetAddress.v ===== *)
(** src/muduo/net/InetAddress.h, InetAddress.cc and the address functions of
    SocketsOps.cc: socket addresses and their text.

    An InetAddress is the union of a [sockaddr_in] and a [sockaddr_in6], so it
    is 28 bytes of memory: the family (host order) at 0, the port (network
    order) at 2; of IPv4 the address at 4 and padding up to 16; of IPv6 the
    flow at 4, the address at 8 and the scope at 24.  inet_pton and inet_ntop are
    parameters; what the manual page says of them is the class
    [InetTextLaws]. *)

From S2P Require Import Prelude Endian.

(** [None] when the text is not an address. *)
Class InetText := {
  inet_pton : Z -> bytes -> option bytes;
  inet_ntop : Z -> bytes -> bytes
}.
Definition AF_INET : Z := 2.
Definition AF_INET6 : Z := 10.
Definition INET_ADDRSTRLEN : Z := 16.
Definition INET6_ADDRSTRLEN : Z := 46.
Definition af_of (v6 : bool) : Z := if v6 then AF_INET6 else AF_INET.
Definition addr_size (v6 : bool) : Z := if v6 then 16 else 4.
(** A text of IPv6 has a colon and one of IPv4 has none; the text printed is
    read back and fits the buffer length of its family. *)
Class InetTextLaws `{InetText} : Prop := {
  pton_parses v6 t a : inet_pton (af_of v6) t = Some a ->
    zlen a = addr_size v6 /\ Forall is_byte a /\ (v6 = true <-> 58 ∈ t);
  pton_ntop v6 a : zlen a = addr_size v6 -> Forall is_byte a ->
    inet_pton (af_of v6) (inet_ntop (af_of v6) a) = Some a;
  ntop_fits v6 a : zlen a = addr_size v6 -> Forall is_byte a ->
    zlen (inet_ntop (af_of v6) a) < (if v6 then INET6_ADDRSTRLEN else INET_ADDRSTRLEN)
}.

Module InetAddress.

Section InetAddress.
Context `{HO : HostOrder} `{IT : InetText}.

(** * Memory *)

Definition put (i : Z) (src m : bytes) : bytes := ztake i m ++ src ++ zdrop (i + zlen src) m.
Definition peek (i n : Z) (m : bytes) : bytes := zslice i (i + n) m.
Definition memZero (i n : Z) (m : bytes) : bytes := put i (replicate (Z.to_nat n) 0) m.

Definition sizeof_sockaddr_in : Z := 16.
Definition sizeof_sockaddr_in6 : Z := 28.

Definition family (addr : bytes) : Z := load (peek 0 2 addr).
Definition portNetEndian (addr : bytes) : Z := load (peek 2 2 addr).
Definition sin_addr (addr : bytes) : bytes := peek 4 4 addr.
Definition sin6_addr (addr : bytes) : bytes := peek 8 16 addr.

(** * SocketsOps *)

(** A text that is no address leaves the zeroed address and is logged. *)
Definition fromIpPort4 (ip : bytes) (port : Z) (addr : bytes) : bytes :=
  let addr := put 0 (store 2 AF_INET) addr in
  let addr := put 2 (store 2 (hostToNetwork16 port)) addr in
  match inet_pton AF_INET ip with Some a => put 4 a addr | None => addr end.
Definition fromIpPort6 (ip : bytes) (port : Z) (addr : bytes) : bytes :=
  let addr := put 0 (store 2 AF_INET6) addr in
  let addr := put 2 (store 2 (hostToNetwork16 port)) addr in
  match inet_pton AF_INET6 ip with Some a => put 8 a addr | None => addr end.

(** What is left in [buf], up to the NUL; [buf] starts empty. *)
Definition sockets_toIp (size : Z) (addr : bytes) : outcome bytes :=
  if family addr =? AF_INET
  then massert (INET_ADDRSTRLEN <=? size) "size >= INET_ADDRSTRLEN";; Ok (inet_ntop AF_INET (sin_addr addr))
  else if family addr =? AF_INET6
  then massert (INET6_ADDRSTRLEN <=? size) "size >= INET6_ADDRSTRLEN";; Ok (inet_ntop AF_INET6 (sin6_addr addr))
  else Ok [].
Definition sockets_toIpPort (size : Z) (addr : bytes) : outcome bytes :=
  if family addr =? AF_INET6
  then
    ip ← sockets_toIp (size - 1) addr;
    let buf := lit "[" ++ ip in
    let port := networkToHost16 (load (peek 2 2 addr)) in
    massert (zlen buf <? size) "size > end";;
    Ok (buf ++ snprintf (size - zlen buf) (lit "]:" ++ fmt_d port))
  else
    buf ← sockets_toIp size addr;
    let port := networkToHost16 (load (peek 2 2 addr)) in
    massert (zlen buf <? size) "size > end";;
    Ok (buf ++ snprintf (size - zlen buf) (lit ":" ++ fmt_d port)).

(** What getsockname and getpeername write, [None] when they fail. *)
Definition getLocalAddr (sockname : option bytes) (m : bytes) : bytes :=
  let localaddr := memZero 0 sizeof_sockaddr_in6 m in
  match sockname with Some a => put 0 (ztake sizeof_sockaddr_in6 a) localaddr | None => localaddr end.
Definition getPeerAddr (peername : option bytes) (m : bytes) : bytes :=
  let peeraddr := memZero 0 sizeof_sockaddr_in6 m in
  match peername with Some a => put 0 (ztake sizeof_sockaddr_in6 a) peeraddr | None => peeraddr end.
Definition isSelfConnect (sockname peername : option bytes) (m m' : bytes) : bool :=
  let localaddr := getLocalAddr sockname m in
  let peeraddr := getPeerAddr peername m' in
  if family localaddr =? AF_INET
  then (portNetEndian localaddr =? portNetEndian peeraddr) && (load (sin_addr localaddr) =? load (sin_addr peeraddr))
  else if family localaddr =? AF_INET6
  then (portNetEndian localaddr =? portNetEndian peeraddr) && bytes_eqb (sin6_addr localaddr) (sin6_addr peeraddr)
  else false.

(** * InetAddress *)

Definition INADDR_ANY : Z := 0.
Definition INADDR_LOOPBACK : Z := 0x7f000001.
Definition in6addr_any : bytes := replicate 16 0.
Definition in6addr_loopback : bytes := replicate 15 0 ++ [1].

(** The constructors; [m] is the memory of the new object. *)
Definition of_port (portArg : Z) (loopbackOnly ipv6 : bool) (m : bytes) : bytes :=
  if ipv6
  then
    let m := memZero 0 sizeof_sockaddr_in6 m in
    let m := put 0 (store 2 AF_INET6) m in
    let ip := if loopbackOnly then in6addr_loopback else in6addr_any in
    let m := put 8 ip m in
    put 2 (store 2 (hostToNetwork16 portArg)) m
  else
    let m := memZero 0 sizeof_sockaddr_in m in
    let m := put 0 (store 2 AF_INET) m in
    let ip := if loopbackOnly then INADDR_LOOPBACK else INADDR_ANY in
    let m := put 4 (store 4 (hostToNetwork32 ip)) m in
    put 2 (store 2 (hostToNetwork16 portArg)) m.
Definition of_ip (ip : bytes) (portArg : Z) (ipv6 : bool) (m : bytes) : bytes :=
  if ipv6 || bool_decide (58 ∈ ip)
  then fromIpPort6 ip portArg (memZero 0 sizeof_sockaddr_in6 m)
  else fromIpPort4 ip portArg (memZero 0 sizeof_sockaddr_in m).

Definition of_sockaddr_in (addr m : bytes) : bytes := put 0 addr m.
Definition of_sockaddr_in6 (addr m : bytes) : bytes := put 0 addr m.
Definition setSockAddrInet6 (addr6 m : bytes) : bytes := put 0 addr6 m.

Definition toIpPort (addr : bytes) : outcome bytes := sockets_toIpPort 64 addr.
Definition toIp (addr : bytes) : outcome bytes := sockets_toIp 64 addr.
Definition port (addr : bytes) : Z := networkToHost16 (portNetEndian addr).
Definition ipv4NetEndian (addr : bytes) : outcome Z :=
  massert (family addr =? AF_INET) "family() == AF_INET";; Ok (load (sin_addr addr)).
(** [found] is the type and the first address gethostbyname_r gives, [None]
    when it fails or knows no host. *)
Definition resolve (found : option (Z * bytes)) (out : bytes) : outcome (bool * bytes) :=
  match found with
  | Some (h_addrtype, h_addr) =>
      massert ((h_addrtype =? AF_INET) && (zlen h_addr =? 4))
        "he->h_addrtype == AF_INET && he->h_length == sizeof(uint32_t)";;
      Ok (true, put 4 h_addr out)
  | None => Ok (false, out)
  end.
Definition setScopeId (scope_id : Z) (addr : bytes) : bytes :=
  if family addr =? AF_INET6 then put 24 (store 4 scope_id) addr else addr.

(** * Lemmas *)

Lemma zlen_store n v : zlen (store n v) = Z.of_nat n.
Proof. unfold store. destruct host_little; [apply zlen_le_bytes|apply zlen_be_bytes]. Qed.
Lemma load_store n v : load (store n v) = uwrap (8 * Z.of_nat n) v.
Proof. unfold load, store. destruct host_little; [apply le_value_le_bytes|apply be_value_be_bytes]. Qed.
Lemma put_mid i pre old src post :
  i = zlen pre -> zlen src = zlen old -> put i src (pre ++ old ++ post) = pre ++ src ++ post.
Proof.
  intros -> Hl. unfold put. rewrite ztake_app_exact by done. do 2 f_equal.
  rewrite app_assoc. apply zdrop_app_exact. rewrite zlen_app. lia.
Qed.
Lemma peek_mid i n pre src post : i = zlen pre -> n = zlen src -> peek i n (pre ++ src ++ post) = src.
Proof. intros -> ->. unfold peek. by apply zslice_app_mid. Qed.

(** The bytes of an address: all the port, the address and the family give. *)
Definition image4 (p : Z) (a tl : bytes) : bytes :=
  store 2 AF_INET ++ be_bytes 2 p ++ a ++ replicate 8 0 ++ tl.
Definition image6 (p : Z) (fl a sc : bytes) : bytes :=
  store 2 AF_INET6 ++ be_bytes 2 p ++ fl ++ a ++ sc.
Definition image (v6 : bool) (p : Z) (a m : bytes) : bytes :=
  if v6 then image6 p (replicate 4 0) a (replicate 4 0) else image4 p a (zdrop 16 m).

Lemma store_port p : store 2 (hostToNetwork16 p) = be_bytes 2 p.
Proof. by apply store_htobe; [lia|]. Qed.
Lemma memZero4 m : zlen m = 28 ->
  memZero 0 sizeof_sockaddr_in m = replicate 2 0 ++ replicate 2 0 ++ replicate 4 0 ++ replicate 8 0 ++ zdrop 16 m.
Proof. done. Qed.
Lemma memZero6 m : zlen m = 28 ->
  memZero 0 sizeof_sockaddr_in6 m = replicate 2 0 ++ replicate 2 0 ++ replicate 4 0 ++ replicate 16 0 ++ replicate 4 0.
Proof. intros Hm. unfold memZero, put. rewrite zdrop_all by (rewrite zlen_replicate, Hm; done). done. Qed.

Lemma put_family fam rest : put 0 (store 2 fam) (replicate 2 0 ++ rest) = store 2 fam ++ rest.
Proof. apply (put_mid 0 [] (replicate 2 0)); [done|]. by rewrite zlen_store. Qed.
Lemma put_port fam p old rest : zlen old = 2 ->
  put 2 (store 2 (hostToNetwork16 p)) (store 2 fam ++ old ++ rest) = store 2 fam ++ be_bytes 2 p ++ rest.
Proof. intros Ho. rewrite store_port. apply put_mid; [by rewrite zlen_store|]. rewrite zlen_be_bytes. lia. Qed.
Lemma put_addr4 fam po a old rest : zlen po = 2 -> zlen a = 4 -> zlen old = 4 ->
  put 4 a (store 2 fam ++ po ++ old ++ rest) = store 2 fam ++ po ++ a ++ rest.
Proof.
  intros Hp Ha Ho. rewrite (app_assoc (store 2 fam) po), (app_assoc (store 2 fam) po).
  apply put_mid; [|lia]. rewrite zlen_app, zlen_store. lia.
Qed.
Lemma put_addr6 fam po fl a old rest : zlen po = 2 -> zlen fl = 4 -> zlen a = 16 -> zlen old = 16 ->
  put 8 a (store 2 fam ++ po ++ fl ++ old ++ rest) = store 2 fam ++ po ++ fl ++ a ++ rest.
Proof.
  intros Hp Hf Ha Ho.
  rewrite (app_assoc po fl (old ++ rest)), (app_assoc po fl (a ++ rest)), !(app_assoc (store 2 fam) (po ++ fl)).
  apply put_mid; [|lia]. rewrite !zlen_app, zlen_store. lia.
Qed.

Lemma of_ip_image v6 flag t a p m :
  zlen m = 28 -> inet_pton (af_of v6) t = Some a -> zlen a = addr_size v6 ->
  flag || bool_decide (58 ∈ t) = v6 ->
  of_ip t p flag m = image v6 p a m.
Proof.
  intros Hm Ht Ha Hv. unfold of_ip. rewrite Hv. destruct v6; cbn [af_of addr_size] in *.
  - unfold fromIpPort6. rewrite memZero6, put_family, put_port, Ht by done. by apply put_addr6; rewrite ?zlen_be_bytes.
  - unfold fromIpPort4. rewrite memZero4, put_family, put_port, Ht by done. by apply put_addr4; rewrite ?zlen_be_bytes.
Qed.
Lemma of_port_image v6 lb p m :
  zlen m = 28 ->
  of_port p lb v6 m = image v6 p
    (if v6 then (if lb then in6addr_loopback else in6addr_any)
     else if lb then [127; 0; 0; 1] else [0; 0; 0; 0]) m.
Proof.
  intros Hm. unfold of_port. destruct v6.
  - rewrite memZero6, put_family by done. rewrite put_addr6 by (by destruct lb). by apply put_port.
  - rewrite memZero4, put_family by done.
    rewrite (store_htobe 4 (if lb then INADDR_LOOPBACK else INADDR_ANY)) by (lia || done).
    rewrite put_addr4 by (rewrite ?zlen_be_bytes; done). rewrite put_port by done. by destruct lb.
Qed.

(** * Reading the fields *)

Lemma family_image fam rest : 0 <= fam < 65536 -> family (store 2 fam ++ rest) = fam.
Proof.
  intros Hf. unfold family. pose proof (peek_mid 0 2 [] (store 2 fam) rest) as E. cbn [app] in E.
  rewrite E, load_store by (by rewrite ?zlen_store). by apply uwrap_small.
Qed.
Lemma port_image fam p rest : 0 <= p < 65536 -> port (store 2 fam ++ be_bytes 2 p ++ rest) = p.
Proof.
  intros Hp. unfold port, portNetEndian. rewrite peek_mid by (by rewrite ?zlen_store, ?zlen_be_bytes).
  unfold networkToHost16. rewrite betoh_load. by apply uwrap_small.
Qed.
Lemma sin_addr_image fam po a rest : zlen po = 2 -> zlen a = 4 ->
  sin_addr (store 2 fam ++ po ++ a ++ rest) = a.
Proof.
  intros Hp Ha. unfold sin_addr. rewrite (app_assoc (store 2 fam)).
  apply peek_mid; [|lia]. rewrite zlen_app, zlen_store. lia.
Qed.
Lemma sin6_addr_image fam po fl a rest : zlen po = 2 -> zlen fl = 4 -> zlen a = 16 ->
  sin6_addr (store 2 fam ++ po ++ fl ++ a ++ rest) = a.
Proof.
  intros Hp Hf Ha. unfold sin6_addr. rewrite (app_assoc po), (app_assoc (store 2 fam) (po ++ fl)).
  apply peek_mid; [|lia]. rewrite !zlen_app, zlen_store. lia.
Qed.
Lemma family_of_image v6 p a m : family (image v6 p a m) = af_of v6.
Proof. destruct v6; by apply family_image. Qed.
Lemma port_of_image v6 p a m : 0 <= p < 65536 -> port (image v6 p a m) = p.
Proof. intros Hp. destruct v6; by apply port_image. Qed.
Lemma addr_of_image v6 p a m : zlen a = addr_size v6 ->
  (if v6 then sin6_addr else sin_addr) (image v6 p a m) = a.
Proof.
  intros Ha. destruct v6; [apply sin6_addr_image|apply sin_addr_image]; rewrite ?zlen_be_bytes; done.
Qed.

Context {TL : InetTextLaws}.

Lemma toIp_image v6 p a m size :
  zlen a = addr_size v6 -> INET6_ADDRSTRLEN <= size ->
  sockets_toIp size (image v6 p a m) = Ok (inet_ntop (af_of v6) a).
Proof.
  intros Ha Hs. unfold sockets_toIp. rewrite family_of_image.
  pose proof (addr_of_image v6 p a m Ha) as E. unfold INET6_ADDRSTRLEN in Hs.
  destruct v6; cbn [af_of] in *; unfold AF_INET6, AF_INET; cbn [Z.eqb Pos.eqb]; rewrite E.
  - replace (INET6_ADDRSTRLEN <=? size) with true by (unfold INET6_ADDRSTRLEN; lia). done.
  - replace (INET_ADDRSTRLEN <=? size) with true by (unfold INET_ADDRSTRLEN; lia). done.
Qed.
Definition ipPort (v6 : bool) (ip : bytes) (p : Z) : bytes :=
  if v6 then lit "[" ++ ip ++ lit "]:" ++ fmt_d p else ip ++ lit ":" ++ fmt_d p.
Lemma toIpPort_image v6 p a m :
  zlen a = addr_size v6 -> Forall is_byte a -> 0 <= p < 65536 ->
  toIpPort (image v6 p a m) = Ok (ipPort v6 (inet_ntop (af_of v6) a) p).
Proof.
  intros Ha Hb Hp. unfold toIpPort, sockets_toIpPort. rewrite family_of_image.
  pose proof (port_of_image v6 p a m Hp) as E. unfold port, portNetEndian in E.
  pose proof (ntop_fits v6 a Ha Hb) as Hf. pose proof (zlen_nonneg (inet_ntop (af_of v6) a)).
  pose proof (fmt_d_length 5 p ltac:(lia) ltac:(lia)) as Hd. unfold INET6_ADDRSTRLEN, INET_ADDRSTRLEN in Hf.
  destruct v6; cbn [af_of] in *;
    [change (AF_INET6 =? AF_INET6) with true|change (AF_INET =? AF_INET6) with false]; cbn match.
  - rewrite (toIp_image true) by (done || unfold INET6_ADDRSTRLEN; lia). cbn [mbind outcome_bind af_of].
    rewrite E. set (ip := inet_ntop AF_INET6 a) in *.
    replace (zlen (lit "[" ++ ip) <? 64) with true by (rewrite zlen_app; change (zlen (lit "[")) with 1; lia).
    cbn [massert mbind outcome_bind]. unfold snprintf, ipPort. rewrite ztake_all
      by (rewrite !zlen_app; change (zlen (lit "[")) with 1; change (zlen (lit "]:")) with 2; lia).
    by rewrite <-app_assoc.
  - rewrite (toIp_image false) by (done || unfold INET6_ADDRSTRLEN; lia). cbn [mbind outcome_bind af_of].
    rewrite E. set (ip := inet_ntop AF_INET a) in *.
    replace (zlen ip <? 64) with true by lia.
    cbn [massert mbind outcome_bind]. unfold snprintf, ipPort. rewrite ztake_all; [done|].
    rewrite !zlen_app. change (zlen (lit ":")) with 1. lia.
Qed.
(** The bytes the kernel reports for an endpoint. *)
Definition sockname_of (v6 : bool) (addr : bytes) : bytes :=
  ztake (if v6 then sizeof_sockaddr_in6 else sizeof_sockaddr_in) addr.

Lemma zlen_image v6 p a m : zlen m = 28 -> zlen a = addr_size v6 -> zlen (image v6 p a m) = 28.
Proof.
  intros Hm Ha. destruct v6; cbn [addr_size] in Ha; unfold image, image4, image6;
    rewrite !zlen_app, zlen_store, zlen_be_bytes, ?zlen_replicate, Ha; [done|]. rewrite zlen_zdrop. lia.
Qed.
Lemma put_over a m : zlen a <= zlen m -> put 0 a m = a ++ zdrop (zlen a) m.
Proof. intros Hl. unfold put. by rewrite ztake_0, Z.add_0_l by lia. Qed.
Lemma getLocalAddr_image v6 p a m0 m :
  zlen m0 = 28 -> zlen m = 28 -> zlen a = addr_size v6 ->
  getLocalAddr (Some (sockname_of v6 (image v6 p a m0))) m = image v6 p a (replicate 28 0).
Proof.
  intros Hm0 Hm Ha. unfold getLocalAddr. pose proof (zlen_image v6 p a m0 Hm0 Ha) as Hi.
  assert (memZero 0 sizeof_sockaddr_in6 m = replicate 28 0) as -> by (rewrite memZero6; done).
  unfold sockname_of. destruct v6.
  - rewrite ztake_ztake, ztake_all by (unfold sizeof_sockaddr_in6; lia). rewrite put_over by (rewrite zlen_replicate; lia).
    rewrite Hi. by rewrite app_nil_r.
  - set (front := store 2 AF_INET ++ be_bytes 2 p ++ a ++ replicate 8 0).
    assert (zlen front = 16) as Hf
      by (unfold front; rewrite !zlen_app, zlen_store, zlen_be_bytes, Ha, zlen_replicate; done).
    assert (forall tl, image4 p a tl = front ++ tl) as Hs by (intros tl; unfold image4, front; by rewrite <-!app_assoc).
    unfold image. rewrite !Hs, ztake_app_exact by done. rewrite ztake_all by (unfold sizeof_sockaddr_in6; lia).
    rewrite put_over by (rewrite zlen_replicate; lia). by rewrite Hf.
Qed.
Lemma load_inj a b : length a = length b -> Forall is_byte a -> Forall is_byte b -> load a = load b -> a = b.
Proof.
  intros Hl Ha Hb. unfold load, be_value. destruct host_little; intros H.
  - rewrite <-(le_bytes_le_value a), <-(le_bytes_le_value b) by done. by rewrite Hl, H.
  - apply (inj reverse).
    rewrite <-(le_bytes_le_value (reverse a)), <-(le_bytes_le_value (reverse b)) by (by apply Forall_reverse).
    by rewrite !length_reverse, Hl, H.
Qed.

(** * Theorems *)

(** C22: a text the parser accepts gives an address of the family of the text with
    that port; its text is the canonical one, printed whole with and without
    the port, and reading it again gives the same object.  The IPv6 flag is
    only needed for what has no colon, and no assertion fails. *)
Theorem inet_address_roundtrip v6 flag t a p m :
  zlen m = 28 -> inet_pton (af_of v6) t = Some a -> (flag = true -> v6 = true) -> 0 <= p < 65536 ->
  exists t', let addr := of_ip t p flag m in
    zlen addr = 28 /\ family addr = af_of v6 /\ port addr = p /\
    toIp addr = Ok t' /\ inet_pton (af_of v6) t' = Some a /\ of_ip t' (port addr) false m = addr /\
    toIpPort addr = Ok (ipPort v6 t' p) /\
    ipv4NetEndian addr = if v6 then Err (AssertFail "family() == AF_INET") else Ok (load a).
Proof.
  intros Hm Ht Hf Hp. destruct (pton_parses v6 t a Ht) as (Ha & Hb & Hc).
  pose proof (pton_ntop v6 a Ha Hb) as Ht'. destruct (pton_parses v6 _ a Ht') as (_ & _ & Hc').
  assert (forall (u : bytes) f, (f = true -> v6 = true) -> (v6 = true <-> 58 ∈ u) ->
    f || bool_decide (58 ∈ u) = v6) as Hv.
  { intros u f Hf' Hu. destruct v6.
    - rewrite bool_decide_eq_true_2 by (by apply Hu). by rewrite orb_true_r.
    - rewrite bool_decide_eq_false_2 by (intros Hin; apply Hu in Hin; done). destruct f; [|done]. by discriminate Hf'. }
  exists (inet_ntop (af_of v6) a). cbn zeta. rewrite (of_ip_image v6 flag t a p m) by auto.
  rewrite port_of_image by done. split_and!.
  - by apply zlen_image.
  - apply family_of_image.
  - done.
  - by apply toIp_image.
  - done.
  - apply of_ip_image; [done..|]. by apply (Hv _ false).
  - by apply toIpPort_image.
  - unfold ipv4NetEndian. rewrite family_of_image. destruct v6; [done|]. cbn [af_of].
    pose proof (addr_of_image false p a m Ha) as E. cbn iota in E. by rewrite E.
Qed.

(** Constructing from a port alone gives the wildcard or the loopback address. *)
Theorem inet_address_of_port v6 lb p m :
  zlen m = 28 -> 0 <= p < 65536 ->
  let addr := of_port p lb v6 m in
  family addr = af_of v6 /\ port addr = p /\
  toIp addr = Ok (inet_ntop (af_of v6)
    (if v6 then (if lb then in6addr_loopback else in6addr_any) else if lb then [127; 0; 0; 1] else [0; 0; 0; 0])).
Proof.
  intros Hm Hp. cbn zeta. rewrite of_port_image by done. split_and!.
  - apply family_of_image.
  - by apply port_of_image.
  - apply toIp_image; [|done]. by destruct v6, lb.
Qed.

(** A connection is one with itself exactly when the two endpoints the kernel
    reports have the same port and the same address. *)
Theorem isSelfConnect_same v6 p p' a a' m0 m m' :
  zlen m0 = 28 -> zlen m = 28 -> zlen m' = 28 -> 0 <= p < 65536 -> 0 <= p' < 65536 ->
  zlen a = addr_size v6 -> zlen a' = addr_size v6 -> Forall is_byte a -> Forall is_byte a' ->
  isSelfConnect (Some (sockname_of v6 (image v6 p a m0))) (Some (sockname_of v6 (image v6 p' a' m0))) m m' = true <->
  p = p' /\ a = a'.
Proof.
  intros Hm0 Hm Hm' Hp Hp' Ha Ha' Hb Hb'. unfold isSelfConnect.
  rewrite (getLocalAddr_image v6 p a m0 m) by done.
  assert (getPeerAddr (Some (sockname_of v6 (image v6 p' a' m0))) m' = image v6 p' a' (replicate 28 0)) as ->
    by (apply (getLocalAddr_image v6 p' a' m0 m'); done).
  rewrite family_of_image. set (z := replicate 28 0).
  pose proof (port_of_image v6 p a z Hp) as E1. pose proof (port_of_image v6 p' a' z Hp') as E2.
  pose proof (addr_of_image v6 p a z Ha) as E3. pose proof (addr_of_image v6 p' a' z Ha') as E4.
  unfold port in E1, E2. destruct v6; cbn [af_of addr_size] in *;
    [change (AF_INET6 =? AF_INET) with false; change (AF_INET6 =? AF_INET6) with true|
     change (AF_INET =? AF_INET) with true]; cbn iota; rewrite E3, E4, andb_true_iff, Z.eqb_eq.
  - rewrite bytes_eqb_eq. split; [intros [H ->]|intros [-> ->]; done]. split; [congruence|done].
  - rewrite Z.eqb_eq. split; [intros [H H']|intros [-> ->]; done]. split; [congruence|].
    apply load_inj; try done. unfold zlen in *. lia.
Qed.

(** [resolve] keeps the family and the port, and sets the IPv4 address; of an
    IPv6 object it overwrites the flow and leaves the address as it was. *)
Theorem resolve_sets_address v6 p a a4 m :
  zlen m = 28 -> 0 <= p < 65536 -> zlen a = addr_size v6 -> zlen a4 = 4 ->
  exists addr', resolve (Some (AF_INET, a4)) (image v6 p a m) = Ok (true, addr') /\ family addr' = af_of v6 /\ port addr' = p /\
    toIp addr' = Ok (inet_ntop (af_of v6) (if v6 then a else a4)).
Proof.
  intros Hm Hp Ha Ha4. unfold resolve. rewrite Ha4. eexists. split; [done|]. destruct v6; cbn [image af_of addr_size] in *.
  - unfold image6. rewrite put_addr4 by (rewrite ?zlen_be_bytes; done).
    rewrite family_image, port_image by done. (split_and!; [done..|]).
    unfold toIp, sockets_toIp. rewrite family_image by done.
    change (AF_INET6 =? AF_INET) with false. change (AF_INET6 =? AF_INET6) with true. cbn iota.
    change (INET6_ADDRSTRLEN <=? 64) with true. cbn [massert mbind outcome_bind].
    by rewrite sin6_addr_image by (rewrite ?zlen_be_bytes; done).
  - unfold image4. rewrite put_addr4 by (rewrite ?zlen_be_bytes; done).
    rewrite family_image, port_image by done. (split_and!; [done..|]).
    by apply (toIp_image false p a4 m).
Qed.
End InetAddress.

(** * A concrete text *)

(** Dotted decimals, and eight groups of hexadecimal digits; a text is
    accepted when it is the printed form of what it is read as. *)
Definition hexd (x : Z) : Z := if x <? 10 then 48 + x else 87 + x.
Definition unhexd (c : Z) : Z := if c <? 58 then c - 48 else c - 87.
Fixpoint unhex (l : bytes) : bytes :=
  match l with x :: y :: l' => 16 * unhexd x + unhexd y :: unhex l' | _ => [] end.
Fixpoint hex_groups (l : bytes) : bytes :=
  match l with
  | x :: y :: l' =>
      [hexd (x / 16); hexd (x mod 16); hexd (y / 16); hexd (y mod 16)] ++
      match l' with [] => [] | _ => 58 :: hex_groups l' end
  | _ => []
  end.
Definition dotted (a : bytes) : bytes :=
  match a with
  | [w; x; y; z] => fmt_d w ++ 46 :: fmt_d x ++ 46 :: fmt_d y ++ 46 :: fmt_d z
  | _ => []
  end.
Fixpoint split_on (c : Z) (l : bytes) : list bytes :=
  match l with
  | [] => [[]]
  | x :: l' =>
      if x =? c then [] :: split_on c l'
      else match split_on c l' with [] => [[x]] | w :: ws => (x :: w) :: ws end
  end.
Definition plain_ntop (af : Z) (a : bytes) : bytes := if af =? AF_INET6 then hex_groups a else dotted a.
Definition plain_pton (af : Z) (t : bytes) : option bytes :=
  let a := if af =? AF_INET6 then unhex (filter (fun c => c <> 58) t) else dec_val 0 <$> split_on 46 t in
  if bool_decide (zlen a = addr_size (af =? AF_INET6) /\ Forall is_byte a /\ plain_ntop af a = t) then Some a else None.
#[global] Instance plain_text : InetText := {| inet_pton := plain_pton; inet_ntop := plain_ntop |}.

Lemma unhexd_hexd x : 0 <= x < 16 -> unhexd (hexd x) = x.
Proof. intros Hx. unfold hexd, unhexd. by repeat case_match; lia. Qed.
Lemma hexd_no_colon x : 0 <= x < 16 -> hexd x <> 58.
Proof. intros Hx. unfold hexd. case_match; lia. Qed.
Lemma split_on_last c w : c ∉ w -> split_on c w = [w].
Proof.
  induction w as [|x w IH]; [done|]. rewrite not_elem_of_cons. intros [Hx Hw]. cbn [split_on].
  destruct (Z.eqb_spec x c); [congruence|]. by rewrite IH.
Qed.
Lemma split_on_app c w l : c ∉ w -> split_on c (w ++ c :: l) = w :: split_on c l.
Proof.
  induction w as [|x w IH]; cbn [app split_on]; [by rewrite Z.eqb_refl|].
  rewrite not_elem_of_cons. intros [Hx Hw]. destruct (Z.eqb_spec x c); [congruence|]. by rewrite IH.
Qed.
Lemma byte_no_char x c : is_byte x -> c < 48 \/ 57 < c -> c ∉ fmt_d x.
Proof.
  intros Hx Hc Hin. unfold is_byte in Hx. pose proof (fmt_d_digits x ltac:(lia)) as Hd.
  rewrite Forall_forall in Hd. specialize (Hd _ Hin). lia.
Qed.
Lemma four_bytes (a : bytes) : zlen a = 4 -> exists w x y z, a = [w; x; y; z].
Proof.
  unfold zlen. intros Ha. destruct a as [|w [|x [|y [|z [|? a]]]]]; cbn [length] in Ha; try lia. by exists w, x, y, z.
Qed.
Lemma split_dotted a : zlen a = 4 -> Forall is_byte a -> dec_val 0 <$> split_on 46 (dotted a) = a.
Proof.
  intros (w & x & y & z & ->)%four_bytes. rewrite !Forall_cons. intros (Hw & Hx & Hy & Hz & _).
  unfold dotted. rewrite !split_on_app, split_on_last by (apply byte_no_char; [done|lia]).
  unfold is_byte in *. cbn [fmap list_fmap]. by rewrite !fmt_d_val by lia.
Qed.
Lemma dotted_fits a : zlen a = 4 -> Forall is_byte a -> zlen (dotted a) < INET_ADDRSTRLEN /\ 58 ∉ dotted a.
Proof.
  intros (w & x & y & z & ->)%four_bytes. rewrite !Forall_cons. intros (Hw & Hx & Hy & Hz & _). unfold dotted. split.
  - unfold is_byte, INET_ADDRSTRLEN in *. rewrite !zlen_app, !zlen_cons, !zlen_app, !zlen_cons, zlen_app, zlen_cons.
    pose proof (fmt_d_length 3 w ltac:(lia) ltac:(lia)). pose proof (fmt_d_length 3 x ltac:(lia) ltac:(lia)).
    pose proof (fmt_d_length 3 y ltac:(lia) ltac:(lia)). pose proof (fmt_d_length 3 z ltac:(lia) ltac:(lia)). lia.
  - rewrite !elem_of_app, !elem_of_cons, !elem_of_app, !elem_of_cons, !elem_of_app, !elem_of_cons.
    intros [H|[?|[H|[?|[H|[?|H]]]]]]; try done; revert H; apply byte_no_char; (done || lia).
Qed.
Lemma byte_nibbles x : is_byte x -> 0 <= x / 16 < 16 /\ 0 <= x mod 16 < 16 /\ 16 * (x / 16) + x mod 16 = x.
Proof. unfold is_byte. intros Hx. Z.to_euclidean_division_equations. lia. Qed.
Lemma hex_groups_read n : forall a, length a = (2 * n)%nat -> Forall is_byte a ->
  unhex (filter (fun c => c <> 58) (hex_groups a)) = a.
Proof.
  induction n as [|n IH]; intros a Ha Hb; [by destruct a|].
  destruct a as [|x [|y a]]; [cbn in Ha; lia..|]. rewrite !Forall_cons in Hb. destruct Hb as (Hx & Hy & Hb).
  destruct (byte_nibbles x Hx) as (X1 & X2 & X3), (byte_nibbles y Hy) as (Y1 & Y2 & Y3).
  cbn [hex_groups]. rewrite filter_app.
  assert (filter (fun c => c <> 58) (match a with [] => [] | _ => 58 :: hex_groups a end) =
    filter (fun c => c <> 58) (hex_groups a)) as ->.
  { by destruct a. }
  rewrite !filter_cons, !decide_True by (by apply hexd_no_colon). cbn [app unhex].
  rewrite filter_nil. cbn [app unhex]. rewrite !unhexd_hexd by done. rewrite X3, Y3, IH by (done || cbn in Ha; lia). done.
Qed.
Lemma hex_groups_fits a : zlen a = 16 -> zlen (hex_groups a) = 39 /\ 58 ∈ hex_groups a.
Proof.
  intros Ha. do 16 (destruct a as [|? a]; [unfold zlen in Ha; cbn in Ha; lia|]).
  destruct a; [|unfold zlen in Ha; cbn in Ha; lia]. split; [done|]. cbn [hex_groups app]. do 4 right. left.
Qed.
Lemma plain_read v6 a : zlen a = addr_size v6 -> Forall is_byte a ->
  plain_pton (af_of v6) (plain_ntop (af_of v6) a) = Some a.
Proof.
  intros Ha Hb. unfold plain_pton.
  assert ((if af_of v6 =? AF_INET6 then unhex (filter (fun c => c <> 58) (plain_ntop (af_of v6) a))
    else dec_val 0 <$> split_on 46 (plain_ntop (af_of v6) a)) = a) as ->.
  { destruct v6; [apply (hex_groups_read 8); [unfold zlen in Ha; cbn in Ha; lia|done]|by apply split_dotted]. }
  rewrite bool_decide_eq_true_2; [done|]. by destruct v6.
Qed.
Lemma plain_colon v6 a : zlen a = addr_size v6 -> Forall is_byte a -> v6 = true <-> 58 ∈ plain_ntop (af_of v6) a.
Proof.
  intros Ha Hb. destruct v6; cbn [addr_size] in Ha.
  - split; [|done]. intros _. by apply hex_groups_fits.
  - split; [done|]. intros Hin. by apply dotted_fits in Hin.
Qed.
#[global] Instance plain_text_laws : InetTextLaws.
Proof.
  split; cbn [inet_pton inet_ntop plain_text].
  - intros v6 t a. unfold plain_pton.
    assert ((af_of v6 =? AF_INET6) = v6) as -> by (by destruct v6).
    case_bool_decide as Hd; [|done]. intros [= <-]. destruct Hd as (Ha & Hb & Ht).
    (split; [done|split; [done|]]). rewrite <-Ht at 1. by apply plain_colon.
  - apply plain_read.
  - intros v6 a Ha Hb. destruct v6; cbn [addr_size] in Ha; [|by apply dotted_fits].
    change (plain_ntop (af_of true) a) with (hex_groups a). destruct (hex_groups_fits a Ha) as [-> _]. done.
Qed.

(** "127.0.0.1" with port 80 on a little endian host. *)
Lemma inet_address_roundtrip_witness :
  exists t', let addr := @of_ip true _ (lit "127.0.0.1") 80 false (replicate 28 204) in
    zlen addr = 28 /\ @family true addr = af_of false /\ @port true addr = 80 /\
    @toIp true _ addr = Ok t' /\ inet_pton (af_of false) t' = Some [127; 0; 0; 1] /\
    @of_ip true _ t' (@port true addr) false (replicate 28 204) = addr /\
    @toIpPort true _ addr = Ok (ipPort false t' 80) /\
    @ipv4NetEndian true addr = if false then Err (AssertFail "family() == AF_INET") else Ok (@load true [127; 0; 0; 1]).
Proof.
  apply (@inet_address_roundtrip true plain_text plain_text_laws false false
    (lit "127.0.0.1") [127; 0; 0; 1] 80 (replicate 28 204));
    [reflexivity|vm_compute; reflexivity|discriminate|lia].
Defined.

(** A host name is not an address: the constructor logs it and the object is
    the wildcard address with the port. *)
Example host_name_is_wildcard :
  @toIpPort true _ (@of_ip true _ (lit "localhost") 80 false (replicate 28 204)) = Ok (lit "0.0.0.0:80").
Proof. vm_compute. reflexivity. Qed.
(** Resolving into an IPv6 object reports success and leaves its address. *)
Example resolve_ipv6_keeps_address :
  let out := @of_port true 80 false true (replicate 28 204) in
  exists out', resolve (Some (AF_INET, [10; 0; 0; 1])) out = Ok (true, out') /\ @toIp true _ out' = @toIp true _ out.
Proof. eexists. split; vm_compute; reflexivity. Qed.
End InetAddress.
