(* ===== verification/NetRpcChannel.v ===== *)
(** src/muduo/net/protorpc: RpcChannel.{h,cc}, RpcCodec.{h,cc}, RpcServer.{h,cc}
    and the messages of rpc.proto: remote calls over one connection.

    The protobuf library is a parameter (class [Protobuf]): values of message
    types, which an object holds, their text and the reader.  Message objects
    are on the heap of the process, by address; deleting one twice or using a
    deleted one is [Undefined].  A handler returns the effects it has outside
    the channel: the messages it sends, the closures of callers it runs, the
    calls it makes into services. *)

From S2P Require Import Prelude BaseThread.

(** [ParseFromString] tells whether it succeeded and what is in the object
    afterwards; message types are numbers. *)
Class Protobuf (V : Type) := {
  SerializeAsString : V -> bytes;
  ParseFromString : Z -> bytes -> bool * V;
  New : Z -> V
}.

Module RpcChannel.

(** * rpc.proto *)

Inductive MessageType := REQUEST | RESPONSE | ERROR.
Inductive ErrorCode :=
| NO_ERROR | WRONG_PROTO | NO_SERVICE | NO_METHOD | INVALID_REQUEST | INVALID_RESPONSE | TIMEOUT.
#[global] Instance MessageType_eq_dec : EqDecision MessageType.
Proof. solve_decision. Defined.
#[global] Instance ErrorCode_eq_dec : EqDecision ErrorCode.
Proof. solve_decision. Defined.

(** An optional field that is not set is [None]; [id] is a fixed64. *)
Record RpcMessage := mkRpcMessage {
  type_ : MessageType;
  id : Z;
  service : option bytes;
  method_ : option bytes;
  request : option bytes;
  response : option bytes;
  error : option ErrorCode
}.
#[global] Instance RpcMessage_eq_dec : EqDecision RpcMessage.
Proof. solve_decision. Defined.

Definition rpctag : bytes := lit "RPC0".

Section Channel.
Context {V : Type} {PB : Protobuf V}.

(** * Heap and services *)

Record Message := mkMessage { mtype : Z; value : V }.
Definition new_message (ty : Z) (h : gmap Z Message) : Z * gmap Z Message :=
  let p := fresh (dom h ∪ {[0]}) in (p, <[p := mkMessage ty (New ty)]> h).
Definition deref (p : Z) (h : gmap Z Message) : outcome Message :=
  match h !! p with Some m => Ok m | None => Err (Undefined "use of a deleted message") end.
Definition delete_message (p : Z) (h : gmap Z Message) : outcome (gmap Z Message) :=
  if p =? 0 then Ok h
  else match h !! p with Some _ => Ok (delete p h) | None => Err (Undefined "double delete") end.

Record MethodDescriptor := mkMethod { input_type : Z; output_type : Z }.
Record Service := mkService { full_name : bytes; FindMethodByName : bytes -> option MethodDescriptor }.

(** * RpcChannel *)

Record OutstandingCall := mkOut { out_response : Z; out_done : option Z }.

(** [conn_] is the address of the connection, 0 when not set; closures of the
    callers are numbers. *)
Record t := mk {
  conn_ : Z;
  id_ : Z;
  outstandings_ : gmap Z OutstandingCall;
  services_ : option (gmap bytes Service)
}.

Inductive effect :=
| Sent (m : RpcMessage)
| Ran (done : Z) (v : V)
| Called (svc meth : bytes) (req : V) (resp id : Z).

Definition new_ : t := mk 0 0 ∅ None.
Definition new_conn (conn : Z) : t := mk conn 0 ∅ None.
Definition setConnection (conn : Z) (ch : t) : t := mk conn (id_ ch) (outstandings_ ch) (services_ ch).
Definition setServices (svcs : gmap bytes Service) (ch : t) : t :=
  mk (conn_ ch) (id_ ch) (outstandings_ ch) (Some svcs).

(** The destructor; closures are deleted without being run. *)
Definition dtor (ch : t) (h : gmap Z Message) : outcome (gmap Z Message) :=
  foldl (fun h out => h ← h; delete_message (out_response out) h) (Ok h) ((map_to_list (outstandings_ ch)).*2).

(** [codec_.send(conn_, message)]. *)
Definition codec_send (m : RpcMessage) (ch : t) : outcome (list effect) :=
  if conn_ ch =? 0 then Err (Undefined "null connection") else Ok [Sent m].

(** The arguments of a call. *)
Record call := mkCall {
  c_service : bytes; c_method : bytes; c_request : V; c_response : Z; c_type : Z; c_done : option Z
}.
Definition request_message (k : Z) (c : call) : RpcMessage :=
  mkRpcMessage REQUEST (u64 k) (Some (c_service c)) (Some (c_method c))
    (Some (SerializeAsString (c_request c))) None None.

(** [CallMethod] in the three parts other threads can come between: taking an
    id, entering the call into the table under the lock, sending. *)
Definition CallMethod_id (ch : t) : t * Z :=
  let '(v, k) := Thread.incrementAndGet 64 (id_ ch) in
  (mk (conn_ ch) v (outstandings_ ch) (services_ ch), k).
Definition CallMethod_register (k : Z) (c : call) (ch : t) : t :=
  mk (conn_ ch) (id_ ch) (<[k := mkOut (c_response c) (c_done c)]> (outstandings_ ch)) (services_ ch).
Definition CallMethod_send (k : Z) (c : call) (ch : t) : outcome (list effect) :=
  codec_send (request_message k c) ch.
Definition CallMethod (c : call) (ch : t) : outcome (t * list effect) :=
  let '(ch, k) := CallMethod_id ch in
  let ch := CallMethod_register k c ch in
  es ← CallMethod_send k c ch;
  Ok (ch, es).

(** Run by a service when its answer is in [resp]. *)
Definition response_message (k : Z) (s : bytes) : RpcMessage :=
  mkRpcMessage RESPONSE (u64 k) None None None (Some s) None.
Definition doneCallback (resp k : Z) (ch : t) (h : gmap Z Message) : outcome (gmap Z Message * list effect) :=
  obj ← deref resp h;
  es ← codec_send (response_message k (SerializeAsString (value obj))) ch;
  h ← delete_message resp h;
  Ok (h, es).

Definition onResponse (m : RpcMessage) (ch : t) (h : gmap Z Message) : outcome (t * gmap Z Message * list effect) :=
  let k := i64 (id m) in
  massert (bool_decide (is_Some (response m)) || bool_decide (is_Some (error m)))
    "message.has_response() || message.has_error()";;
  match outstandings_ ch !! k with
  | None => Ok (ch, h, [])
  | Some out =>
      let ch := mk (conn_ ch) (id_ ch) (delete k (outstandings_ ch)) (services_ ch) in
      if out_response out =? 0 then Ok (ch, h, [])
      else
        obj ← deref (out_response out) h;
        let obj := match response m with
                   | Some s => mkMessage (mtype obj) (snd (ParseFromString (mtype obj) s))
                   | None => obj
                   end in
        let h := <[out_response out := obj]> h in
        let es := match out_done out with Some d => [Ran d (value obj)] | None => [] end in
        h ← delete_message (out_response out) h;
        Ok (ch, h, es)
  end.

(** Which method a request names, and its parsed argument. *)
Definition dispatch (svcs : option (gmap bytes Service)) (svc meth req : bytes)
    : ErrorCode + (MethodDescriptor * V) :=
  match svcs with
  | Some svcs =>
      match svcs !! svc with
      | Some s =>
          match FindMethodByName s meth with
          | Some md =>
              let '(ok, v) := ParseFromString (input_type md) req in
              if (ok : bool) then inr (md, v) else inl INVALID_REQUEST
          | None => inl NO_METHOD
          end
      | None => inl NO_SERVICE
      end
  | None => inl NO_SERVICE
  end.
Definition error_message (k : Z) (e : ErrorCode) : RpcMessage :=
  mkRpcMessage RESPONSE k None None None None (Some e).
(** A field that is not set reads as the empty string. *)
Definition field (x : option bytes) : bytes := default [] x.
Definition onRequest (m : RpcMessage) (ch : t) (h : gmap Z Message) : outcome (t * gmap Z Message * list effect) :=
  match dispatch (services_ ch) (field (service m)) (field (method_ m)) (field (request m)) with
  | inr (md, v) =>
      let '(resp, h) := new_message (output_type md) h in
      Ok (ch, h, [Called (field (service m)) (field (method_ m)) v resp (i64 (id m))])
  | inl e =>
      es ← codec_send (error_message (id m) e) ch;
      Ok (ch, h, es)
  end.
Definition onRpcMessage (conn : Z) (m : RpcMessage) (ch : t) (h : gmap Z Message) : outcome (t * gmap Z Message * list effect) :=
  massert (conn =? conn_ ch) "conn == conn_";;
  match type_ m with
  | RESPONSE => onResponse m ch h
  | REQUEST => onRequest m ch h
  | ERROR => Ok (ch, h, [])
  end.

(** * RpcServer *)

(** The services, and the channel kept in the context of each connection. *)
Record server := mkServer { s_services : gmap bytes Service; s_channels : gmap Z t }.
(** The channels point to the map of the server, so they see the change. *)
Definition registerService (s : Service) (srv : server) : server :=
  let svcs := <[full_name s := s]> (s_services srv) in
  mkServer svcs (setServices svcs <$> s_channels srv).
Definition onConnection (conn : Z) (connected : bool) (srv : server) (h : gmap Z Message) : outcome (server * gmap Z Message) :=
  if connected
  then Ok (mkServer (s_services srv) (<[conn := setServices (s_services srv) (new_conn conn)]> (s_channels srv)), h)
  else
    h ← match s_channels srv !! conn with Some ch => dtor ch h | None => Ok h end;
    Ok (mkServer (s_services srv) (delete conn (s_channels srv)), h).
(** A closure made by [NewCallback(this, &RpcChannel::doneCallback, ...)]
    holds the channel by a raw pointer. *)
Definition run_closure (conn resp k : Z) (srv : server) (h : gmap Z Message) : outcome (gmap Z Message * list effect) :=
  match s_channels srv !! conn with
  | Some ch => doneCallback resp k ch h
  | None => Err (Undefined "RpcChannel deleted")
  end.

End Channel.
Arguments Message V : clear implicits.
Arguments call V : clear implicits.
Arguments effect V : clear implicits.

End RpcChannel.
