(* ===== verification/NetRpcWorld.v ===== *)
(** Two RpcChannels (NetRpcChannel) on the two ends of a connection, over the
    codec of NetProtobufCodec: calls from several threads, bytes in flight in
    any segmentation, services that answer in any order.  The file proves that
    every call completes once, with the answer the service gave it. *)

From S2P Require Import Prelude Endian NetBuffer NetProtobufCodec NetRpcChannel.
From Stdlib Require Import Permutation.

Module RpcWorld.
Import RpcChannel.

Section World.
Context `{HO : HostOrder} {V : Type} {PB : Protobuf V}.
Context (SerializeToArray : RpcMessage -> bytes) (ParseFromArray : bytes -> option RpcMessage) (adler32 : bytes -> Z).

Abbreviation frame := (ProtobufCodecLite.frame SerializeToArray adler32 rpctag).
Abbreviation first_frame := (ProtobufCodecLite.first_frame ParseFromArray adler32 rpctag None).
Abbreviation message_ok := (ProtobufCodecLite.message_ok SerializeToArray ParseFromArray adler32 rpctag None).

(** A call a service has not answered yet. *)
Record served_call := mkServed { sv_id : Z; sv_service : bytes; sv_method : bytes; sv_request : V; sv_resp : Z }.

(** One end.  [fetched] and [registered] are the threads inside [CallMethod],
    after its first and second part; [todo] are the messages the codec's loop
    has read and not yet passed on; [wire] the bytes sent and not yet received
    by the other end.  [issued], [answered] and [completed] are history: the
    calls made, the answers given and the closures run with what they saw. *)
Record endpoint := mkEnd {
  chan : t;
  mem : gmap Z (Message V);
  fetched : list (Z * call V);
  registered : list (Z * call V);
  serving : list served_call;
  inbuf : Buffer.t;
  todo : list RpcMessage;
  wire : bytes;
  codec_errors : list ProtobufCodecLite.ErrorCode;
  issued : gmap Z (call V);
  answered : list (Z * V);
  completed : list (Z * Z * V)
}.

Inductive event :=
| Call (svc meth : bytes) (req : V) (ty done : Z)
| Register (i : nat)
| Send (i : nat)
| Receive (n : Z) (buf : Buffer.t)
| Handle
| Answer (i : nat) (v : V).

Definition set_wire (w : bytes) (e : endpoint) : endpoint :=
  mkEnd (chan e) (mem e) (fetched e) (registered e) (serving e) (inbuf e) (todo e) w
    (codec_errors e) (issued e) (answered e) (completed e).
Definition transmit (m : RpcMessage) (e : endpoint) : outcome endpoint :=
  b ← Buffer.new_ Buffer.kInitialSize;
  b ← ProtobufCodecLite.fillEmptyBuffer SerializeToArray adler32 rpctag m b;
  Ok (set_wire (wire e ++ Buffer.content b) e).
(** What an effect does at this end; [k] is the id of the message handled. *)
Definition apply (k : Z) (ef : effect V) (e : endpoint) : outcome endpoint :=
  match ef with
  | Sent m => transmit m e
  | Ran d v => Ok (mkEnd (chan e) (mem e) (fetched e) (registered e) (serving e) (inbuf e) (todo e) (wire e)
        (codec_errors e) (issued e) (answered e) (completed e ++ [(k, d, v)]))
  | Called svc meth req resp k' =>
      Ok (mkEnd (chan e) (mem e) (fetched e) (registered e) (serving e ++ [mkServed k' svc meth req resp]) (inbuf e)
        (todo e) (wire e) (codec_errors e) (issued e) (answered e) (completed e))
  end.
Fixpoint apply_all (k : Z) (es : list (effect V)) (e : endpoint) : outcome endpoint :=
  match es with [] => Ok e | ef :: es => e ← apply k ef e; apply_all k es e end.

Definition delivered (es : list (ProtobufCodecLite.effect RpcMessage)) : list RpcMessage :=
  omap (fun x => match x with ProtobufCodecLite.Delivered m => Some m | _ => None end) es.
Definition failures (es : list (ProtobufCodecLite.effect RpcMessage)) : list ProtobufCodecLite.ErrorCode :=
  omap (fun x => match x with ProtobufCodecLite.Failed c => Some c | _ => None end) es.

(** The input buffer once [n] bytes of the other end have been read into it. *)
Definition received (n : Z) (buf : Buffer.t) (e p : endpoint) : bool :=
  bool_decide (0 < n <= zlen (wire p) /\ Buffer.wf buf /\ Forall is_byte (Buffer.buffer_ buf) /\
    Buffer.content buf = Buffer.content (inbuf e) ++ ztake n (wire p)).

(** [RpcChannel::onMessage]: the loop of the codec. *)
Definition onMessage (buf : Buffer.t) : outcome (option (list (ProtobufCodecLite.effect RpcMessage) * Buffer.t)) :=
  ProtobufCodecLite.onMessage ParseFromArray adler32 rpctag None (S (length (Buffer.content buf))) buf.

(** An event at end [e] with other end [p]; [None] when it cannot happen. *)
Definition exec (ev : event) (e p : endpoint) : outcome (option (endpoint * endpoint)) :=
  match ev with
  | Call svc meth req ty done =>
      let '(resp, h) := new_message ty (mem e) in
      let c := mkCall svc meth req resp ty (Some done) in
      let '(ch, k) := CallMethod_id (chan e) in
      Ok (Some (mkEnd ch h (fetched e ++ [(k, c)]) (registered e) (serving e) (inbuf e) (todo e) (wire e)
        (codec_errors e) (<[k := c]> (issued e)) (answered e) (completed e), p))
  | Register i =>
      match fetched e !! i with
      | None => Ok None
      | Some (k, c) =>
          Ok (Some (mkEnd (CallMethod_register k c (chan e)) (mem e) (delete i (fetched e)) (registered e ++ [(k, c)]) (serving e)
            (inbuf e) (todo e) (wire e) (codec_errors e) (issued e) (answered e) (completed e), p))
      end
  | Send i =>
      match registered e !! i with
      | None => Ok None
      | Some (k, c) =>
          es ← CallMethod_send k c (chan e);
          e' ← apply_all k es (mkEnd (chan e) (mem e) (fetched e) (delete i (registered e)) (serving e) (inbuf e) (todo e) (wire e)
            (codec_errors e) (issued e) (answered e) (completed e));
          Ok (Some (e', p))
      end
  | Receive n buf =>
      if received n buf e p && bool_decide (todo e = []) then
        r ← onMessage buf;
        match r with
        | Some (es, buf) =>
            Ok (Some (mkEnd (chan e) (mem e) (fetched e) (registered e) (serving e) buf (delivered es) (wire e)
                  (codec_errors e ++ failures es) (issued e) (answered e) (completed e),
                set_wire (zdrop n (wire p)) p))
        | None => Err (Undefined "onMessage does not end")
        end
      else Ok None
  | Handle =>
      match todo e with
      | [] => Ok None
      | m :: rest =>
          '(ch, h, es) ← onRpcMessage (conn_ (chan e)) m (chan e) (mem e);
          e' ← apply_all (i64 (id m)) es (mkEnd ch h (fetched e) (registered e) (serving e) (inbuf e) rest (wire e)
            (codec_errors e) (issued e) (answered e) (completed e));
          Ok (Some (e', p))
      end
  | Answer i v =>
      match serving e !! i with
      | None => Ok None
      | Some s =>
          obj ← deref (sv_resp s) (mem e);
          '(h, es) ← doneCallback (sv_resp s) (sv_id s) (chan e) (<[sv_resp s := mkMessage (mtype obj) v]> (mem e));
          e' ← apply_all (sv_id s) es (mkEnd (chan e) h (fetched e) (registered e) (delete i (serving e)) (inbuf e)
            (todo e) (wire e) (codec_errors e) (issued e) (answered e ++ [(sv_id s, v)]) (completed e));
          Ok (Some (e', p))
      end
  end.

(** The use of the channel: what is sent fits a frame, and the ids do not run
    out. *)
Definition legal (ev : event) (e : endpoint) : Prop :=
  match ev with
  | Call svc meth req ty done =>
      id_ (chan e) < 2 ^ 63 - 1 /\
      message_ok (request_message (id_ (chan e) + 1) (mkCall svc meth req 0 ty (Some done)))
  | Answer i v => match serving e !! i with
                  | Some s => message_ok (response_message (sv_id s) (SerializeAsString v))
                  | None => True
                  end
  | _ => True
  end.

(** * Invariant *)

(** The ids of the requests and of the responses among messages. *)
Definition reqs (ms : list RpcMessage) : list Z :=
  omap (fun m => match type_ m with REQUEST => Some (id m) | _ => None end) ms.
Definition resps (ms : list RpcMessage) : list Z :=
  omap (fun m => match type_ m with RESPONSE => Some (id m) | _ => None end) ms.

(** Of the calls of [e], with the messages [ie] on the way to it and [ip] on
    the way to the other end, where [sv] are being served: those in the table
    and not completed, those not completed, all of them. *)
Definition waiting (e : endpoint) (sv : list served_call) (ie ip : list RpcMessage) : list Z :=
  (registered e).*1 ++ reqs ip ++ (sv_id <$> sv) ++ resps ie.
Definition live e sv ie ip : list Z := (fetched e).*1 ++ waiting e sv ie ip.
Definition places e sv ie ip : list Z := live e sv ie ip ++ (completed e).*1.*1.

Definition no_call : call V := mkCall [] [] (New 0) 0 0 None.
Definition call_of (e : endpoint) (k : Z) : call V := default no_call (issued e !! k).
Definition out_entry e k : Z * OutstandingCall := (k, mkOut (c_response (call_of e k)) (c_done (call_of e k))).
Definition call_obj e k : Z * Message V :=
  (c_response (call_of e k), mkMessage (c_type (call_of e k)) (New (c_type (call_of e k)))).
Definition dispatch_call (svcs : option (gmap bytes Service)) (c : call V) : ErrorCode + (MethodDescriptor * V) :=
  dispatch svcs (c_service c) (c_method c) (SerializeAsString (c_request c)).

(** What a reply to call [k] says, and what its caller sees. *)
Definition reply_ok (svcs : option (gmap bytes Service)) (ans : list (Z * V)) (c : call V) (m : RpcMessage) : Prop :=
  match dispatch_call svcs c with
  | inl er => m = error_message (id m) er
  | inr _ => exists x, (id m, x) ∈ ans /\ m = response_message (id m) (SerializeAsString x)
  end.
Definition result_ok (svcs : option (gmap bytes Service)) (ans : list (Z * V)) (k : Z) (c : call V) (v : V) : Prop :=
  match dispatch_call svcs c with
  | inl _ => v = New (c_type c)
  | inr _ => exists x, (k, x) ∈ ans /\ v = snd (ParseFromString (c_type c) (SerializeAsString x))
  end.

(** The calls of [e], answered by an end with services [svcs] that is serving
    [sv] and has answered [ans]. *)
Record calls_ok (e : endpoint) (svcs : option (gmap bytes Service)) (sv : list served_call) (ans : list (Z * V))
    (ie ip : list RpcMessage) : Prop := {
  ids_ok : places e sv ie ip ≡ₚ seqZ 1 (id_ (chan e));
  range_ok : 0 <= id_ (chan e) < 2 ^ 63;
  issued_ok k : is_Some (issued e !! k) <-> k ∈ seqZ 1 (id_ (chan e));
  done_ok k c : issued e !! k = Some c -> is_Some (c_done c) /\ c_response c <> 0;
  threads_ok k c : (k, c) ∈ fetched e ++ registered e -> issued e !! k = Some c /\ message_ok (request_message k c);
  table_ok : outstandings_ (chan e) = list_to_map (out_entry e <$> waiting e sv ie ip);
  requests_ok m : m ∈ ip -> type_ m = REQUEST ->
    exists c, issued e !! id m = Some c /\ m = request_message (id m) c;
  serving_ok s : s ∈ sv -> exists c md, issued e !! sv_id s = Some c /\
    dispatch_call svcs c = inr (md, sv_request s) /\ sv_service s = c_service c /\ sv_method s = c_method c;
  replies_ok m : m ∈ ie -> type_ m = RESPONSE -> exists c, issued e !! id m = Some c /\ reply_ok svcs ans c m;
  types_ok m : m ∈ ie -> type_ m <> ERROR;
  completed_ok k d v : (k, d, v) ∈ completed e ->
    exists c, issued e !! k = Some c /\ c_done c = Some d /\ result_ok svcs ans k c v;
  answers_ok : NoDup ans.*1;
  answers_in k : k ∈ ans.*1 -> k ∈ resps ie ++ (completed e).*1.*1
}.

(** The objects of [e]: the responses of its calls that are not completed and
    of those it serves, each once. *)
Definition objects (e : endpoint) (sv : list served_call) (ie ip : list RpcMessage) (own : list (Z * Message V))
    : list (Z * Message V) := (call_obj e <$> live e sv ie ip) ++ own.
Definition memory_ok (e : endpoint) sv ie ip : Prop :=
  exists own, own.*1 = (sv_resp <$> serving e) /\ NoDup (objects e sv ie ip own).*1 /\ (0 ∉ (objects e sv ie ip own).*1) /\
    mem e = list_to_map (objects e sv ie ip own).

(** The bytes on the way to [e]. *)
Definition stream_ok (e p : endpoint) (rest : list RpcMessage) : Prop :=
  Buffer.wf (inbuf e) /\ Forall is_byte (Buffer.buffer_ (inbuf e)) /\ Forall message_ok rest /\
  Buffer.content (inbuf e) ++ wire p = concat (frame <$> rest) /\ codec_errors e = [] /\ conn_ (chan e) <> 0 /\
  first_frame (Buffer.content (inbuf e)) = ProtobufCodecLite.Wait.

Definition half_ok (e p : endpoint) (re rp : list RpcMessage) : Prop :=
  stream_ok e p re /\
  calls_ok e (services_ (chan p)) (serving p) (answered p) (todo e ++ re) (todo p ++ rp) /\
  memory_ok e (serving p) (todo e ++ re) (todo p ++ rp).
Definition inv (e p : endpoint) : Prop := exists re rp, half_ok e p re rp /\ half_ok p e rp re.

(** * Lists of ids *)

Lemma count_perm (l l' : list Z) : (forall x, count_occ Z.eq_dec l x = count_occ Z.eq_dec l' x) -> l ≡ₚ l'.
Proof. intros H. by apply (Permutation_count_occ Z.eq_dec). Qed.
Lemma perm_count (l l' : list Z) x : l ≡ₚ l' -> count_occ Z.eq_dec l x = count_occ Z.eq_dec l' x.
Proof. intros H. by apply (Permutation_count_occ Z.eq_dec). Qed.
Definition one (k x : Z) : nat := count_occ Z.eq_dec [k] x.
Lemma count_cons (k : Z) l x : count_occ Z.eq_dec (k :: l) x = (one k x + count_occ Z.eq_dec l x)%nat.
Proof. exact (count_occ_app Z.eq_dec [k] l x). Qed.
Lemma reqs_cons m l : reqs (m :: l) = match type_ m with REQUEST => [id m] | _ => [] end ++ reqs l.
Proof. unfold reqs. cbn. by destruct (type_ m). Qed.
Lemma resps_cons m l : resps (m :: l) = match type_ m with RESPONSE => [id m] | _ => [] end ++ resps l.
Proof. unfold resps. cbn. by destruct (type_ m). Qed.
Lemma reqs_app l1 l2 : reqs (l1 ++ l2) = reqs l1 ++ reqs l2.
Proof. apply omap_app. Qed.
Lemma resps_app l1 l2 : resps (l1 ++ l2) = resps l1 ++ resps l2.
Proof. apply omap_app. Qed.
Lemma delete_ids {A} (f : A -> Z) (l : list A) i x : l !! i = Some x -> f <$> l ≡ₚ f x :: (f <$> delete i l).
Proof. intros H. by rewrite (delete_Permutation l i x H) at 1. Qed.
Lemma list_to_map_delete_head {A} (k : Z) (x : A) (l : list (Z * A)) :
  NoDup ((k, x) :: l).*1 -> delete k (list_to_map ((k, x) :: l) : gmap Z A) = list_to_map l.
Proof.
  cbn [fmap list_fmap]. intros [Hk _]%NoDup_cons. cbn.
  rewrite delete_insert_eq, delete_id; [done|]. by apply not_elem_of_list_to_map_1.
Qed.

(** * What the invariant of one direction depends on *)

Lemma places_NoDup e svcs sv ans ie ip : calls_ok e svcs sv ans ie ip -> NoDup (places e sv ie ip).
Proof. intros H. rewrite (ids_ok _ _ _ _ _ _ H). apply NoDup_seqZ. Qed.
Lemma live_NoDup e svcs sv ans ie ip : calls_ok e svcs sv ans ie ip -> NoDup (live e sv ie ip).
Proof. intros H%places_NoDup. by apply NoDup_app in H as [? _]. Qed.
Lemma waiting_NoDup e svcs sv ans ie ip : calls_ok e svcs sv ans ie ip -> NoDup (waiting e sv ie ip).
Proof. intros H%live_NoDup. by apply NoDup_app in H as (_ & _ & ?). Qed.
Lemma out_keys e l : (out_entry e <$> l).*1 = l.
Proof. rewrite <-list_fmap_compose. apply list_fmap_id. Qed.
Lemma table_perm e l l' : NoDup l -> l ≡ₚ l' ->
  (list_to_map (out_entry e <$> l) : gmap Z OutstandingCall) = list_to_map (out_entry e <$> l').
Proof. intros Hn Hp. apply list_to_map_proper; [by rewrite out_keys|by rewrite Hp]. Qed.
Lemma live_issued e svcs sv ans ie ip k : calls_ok e svcs sv ans ie ip -> k ∈ places e sv ie ip ->
  exists c, issued e !! k = Some c /\ call_of e k = c.
Proof.
  intros H Hk. rewrite (ids_ok _ _ _ _ _ _ H) in Hk. apply (issued_ok _ _ _ _ _ _ H) in Hk as [c Hc].
  exists c. unfold call_of. by rewrite Hc.
Qed.

(** A step that moves ids between the places where they wait. *)
Lemma calls_move e e' svcs sv sv' ans ans' ie ie' ip ip' :
  calls_ok e svcs sv ans ie ip ->
  id_ (chan e') = id_ (chan e) -> outstandings_ (chan e') = outstandings_ (chan e) -> fetched e' = fetched e ->
  issued e' = issued e -> completed e' = completed e -> (forall x, x ∈ registered e' -> x ∈ registered e) ->
  (forall x, x ∈ ans -> x ∈ ans') ->
  waiting e' sv' ie' ip' ≡ₚ waiting e sv ie ip ->
  (forall m, m ∈ ip' -> type_ m = REQUEST -> m ∈ ip \/ exists c, issued e !! id m = Some c /\ m = request_message (id m) c) ->
  (forall s, s ∈ sv' -> s ∈ sv \/ exists c md, issued e !! sv_id s = Some c /\
    dispatch_call svcs c = inr (md, sv_request s) /\ sv_service s = c_service c /\ sv_method s = c_method c) ->
  (forall m, m ∈ ie' -> type_ m = RESPONSE -> m ∈ ie \/ exists c, issued e !! id m = Some c /\ reply_ok svcs ans' c m) ->
  (forall m, m ∈ ie' -> type_ m = ERROR -> m ∈ ie) ->
  (ans' = ans /\ (forall k, k ∈ resps ie -> k ∈ resps ie')) \/
    (NoDup ans'.*1 /\ (forall k, k ∈ ans'.*1 -> k ∈ resps ie' ++ (completed e).*1.*1)) ->
  calls_ok e' svcs sv' ans' ie' ip'.
Proof.
  intros H Hid Hout Hf His Hc Hr Hans Hw Hreq Hsv Hrep Hty Hanw.
  assert (forall k, call_of e' k = call_of e k) as Hcall by (intros k; unfold call_of; by rewrite His).
  split.
  - unfold places, live. rewrite Hw, Hf, Hc, Hid. apply (ids_ok _ _ _ _ _ _ H).
  - rewrite Hid. apply (range_ok _ _ _ _ _ _ H).
  - intros k. rewrite His, Hid. apply (issued_ok _ _ _ _ _ _ H).
  - intros k c. rewrite His. apply (done_ok _ _ _ _ _ _ H).
  - intros k c. rewrite His, Hf. intros Hin. apply (threads_ok _ _ _ _ _ _ H).
    rewrite elem_of_app in *. naive_solver.
  - rewrite Hout, (table_ok _ _ _ _ _ _ H). rewrite (table_perm e' _ (waiting e sv ie ip)).
    + f_equal. apply list_fmap_ext. intros ? k _. unfold out_entry. by rewrite Hcall.
    + rewrite Hw. by eapply waiting_NoDup.
    + done.
  - intros m Hm Ht. rewrite His. destruct (Hreq m Hm Ht) as [Hin|?]; [|done]. by apply (requests_ok _ _ _ _ _ _ H).
  - intros s Hs. rewrite His. destruct (Hsv s Hs) as [Hin|?]; [|done]. by apply (serving_ok _ _ _ _ _ _ H).
  - intros m Hm Ht. rewrite His. destruct (Hrep m Hm Ht) as [Hin|?]; [|done].
    destruct (replies_ok _ _ _ _ _ _ H m Hin Ht) as (c & Hc' & Hrp). exists c. split; [done|]. unfold reply_ok in *.
    destruct (dispatch_call svcs c); [done|]. destruct Hrp as (x & Hx & Hm2). exists x. auto.
  - intros m Hm Ht. by apply (types_ok _ _ _ _ _ _ H m (Hty m Hm Ht)).
  - intros k d v. rewrite Hc, His. intros Hin.
    destruct (completed_ok _ _ _ _ _ _ H k d v Hin) as (c & ? & ? & Hres). exists c. (split; [done|split; [done|]]).
    unfold result_ok in *. destruct (dispatch_call svcs c); [done|]. destruct Hres as (x & Hx & ->). exists x. auto.
  - destruct Hanw as [[-> _]|[? _]]; [apply (answers_ok _ _ _ _ _ _ H)|done].
  - rewrite Hc. intros k Hk. destruct Hanw as [[-> Hsub]|[_ Hsub]]; [|auto].
    apply (answers_in _ _ _ _ _ _ H) in Hk. rewrite elem_of_app in *. naive_solver.
Qed.

(** The heap of an end whose calls have only moved. *)
Lemma memory_move e e' sv sv' ie ie' ip ip' :
  memory_ok e sv ie ip -> mem e' = mem e -> issued e' = issued e -> (sv_resp <$> serving e') = (sv_resp <$> serving e) ->
  live e' sv' ie' ip' ≡ₚ live e sv ie ip -> memory_ok e' sv' ie' ip'.
Proof.
  intros (own & Hown & Hnd & H0 & Hmem) Hm His Hsv Hl. exists own.
  assert (objects e' sv' ie' ip' own ≡ₚ objects e sv ie ip own) as Hp.
  { unfold objects. rewrite Hl. apply Permutation_app_tail. erewrite list_fmap_ext; [done|]. intros ? k _.
    unfold call_obj, call_of. by rewrite His. }
  split_and!.
  - by rewrite Hsv.
  - by rewrite Hp.
  - by rewrite Hp.
  - rewrite Hm, Hmem. symmetry. apply (list_to_map_proper (M := gmap Z)); [by rewrite Hp|done].
Qed.

(** * Frames *)

Lemma transmit_ok m e : message_ok m -> transmit m e = Ok (set_wire (wire e ++ frame m) e).
Proof.
  intros (_ & Hlen & _). unfold transmit.
  assert (exists b, Buffer.new_ Buffer.kInitialSize = Ok b /\ ProtobufCodecLite.fresh_buffer b) as (b & -> & Hb).
  { eexists. split; [vm_compute; reflexivity|]. vm_compute. repeat split; discriminate. }
  cbn [mbind outcome_bind].
  destruct (ProtobufCodecLite.fillEmptyBuffer_ok SerializeToArray adler32 rpctag m b Hb Hlen) as (b' & -> & _ & <-).
  done.
Qed.

Lemma onMessage_frames buf ms tl :
  Buffer.wf buf -> Forall is_byte (Buffer.buffer_ buf) -> Forall message_ok ms -> first_frame tl = ProtobufCodecLite.Wait ->
  Buffer.content buf = concat (frame <$> ms) ++ tl ->
  exists buf', onMessage buf = Ok (Some (ProtobufCodecLite.Delivered <$> ms, buf')) /\ Buffer.wf buf' /\
    Forall is_byte (Buffer.buffer_ buf') /\ Buffer.content buf' = tl.
Proof.
  intros Hwf Hby Hms Htl Hc. unfold onMessage.
  pose proof (ProtobufCodecLite.onMessage_ok ParseFromArray adler32 rpctag None (S (length (Buffer.content buf))) buf) as H.
  fold (ProtobufCodecLite.decode ParseFromArray adler32 rpctag None (Buffer.content buf)) in H.
  assert (ProtobufCodecLite.decode ParseFromArray adler32 rpctag None (Buffer.content buf) =
    Some (ProtobufCodecLite.Delivered <$> ms, tl)) as Hd.
  { rewrite Hc. by apply ProtobufCodecLite.decode_frames. }
  rewrite Hd in H. destruct H as (buf' & -> & ? & ? & ?); [done..|]. by exists buf'.
Qed.
Lemma delivered_all ms : delivered (ProtobufCodecLite.Delivered <$> ms) = ms.
Proof. induction ms; [done|]. cbn. by f_equal. Qed.
Lemma failures_none ms : failures (ProtobufCodecLite.Delivered <$> ms) = [].
Proof. by induction ms. Qed.

Create Rewrite HintDb ids.
#[local] Hint Rewrite @fmap_app reqs_app resps_app reqs_cons resps_cons (count_occ_app Z.eq_dec) count_cons
  (count_occ_nil Z.eq_dec) : ids.
Ltac ids_perm :=
  apply count_perm; let x := fresh "x" in intros x;
  repeat match goal with H : @Permutation Z _ _ |- _ => apply (perm_count _ _ x) in H end;
  unfold places, live, waiting in *;
  repeat (progress (autorewrite with ids in *;
    repeat match goal with
      | H : type_ ?m = _ |- context [type_ ?m] => rewrite H
      | H : id ?m = _ |- context [id ?m] => rewrite H
      end;
    cbn [fetched registered completed serving todo set_wire sv_id fmap list_fmap fst app] in * )); lia.

(** * The steps *)

Lemma fresh_spec (h : gmap Z (Message V)) : (fresh (dom h ∪ {[0]}) ∉ dom h) /\ fresh (dom h ∪ {[0]}) <> 0.
Proof. pose proof (is_fresh (dom h ∪ {[0]})) as H. set_solver. Qed.
Lemma memory_dom e sv ie ip own : mem e = list_to_map (objects e sv ie ip own) -> dom (mem e) = list_to_set (objects e sv ie ip own).*1.
Proof. intros ->. by rewrite dom_list_to_map_L. Qed.
Lemma next_id e svcs sv ans ie ip : calls_ok e svcs sv ans ie ip -> id_ (chan e) < 2 ^ 63 - 1 ->
  CallMethod_id (chan e) =
    (mk (conn_ (chan e)) (id_ (chan e) + 1) (outstandings_ (chan e)) (services_ (chan e)), id_ (chan e) + 1).
Proof.
  intros H Hm. pose proof (range_ok _ _ _ _ _ _ H). unfold CallMethod_id. cbn.
  by rewrite swrap_small by (lia || unfold srange; lia).
Qed.
Lemma new_id_fresh e svcs sv ans ie ip k : calls_ok e svcs sv ans ie ip -> k ∈ places e sv ie ip -> k <> id_ (chan e) + 1.
Proof. intros H Hk. rewrite (ids_ok _ _ _ _ _ _ H), elem_of_seqZ in Hk. lia. Qed.

Lemma call_calls e ch' h' k c svcs sv ans ie ip :
  calls_ok e svcs sv ans ie ip -> id_ (chan e) < 2 ^ 63 - 1 -> k = id_ (chan e) + 1 ->
  id_ ch' = k -> outstandings_ ch' = outstandings_ (chan e) ->
  is_Some (c_done c) -> c_response c <> 0 -> message_ok (request_message k c) ->
  calls_ok (mkEnd ch' h' (fetched e ++ [(k, c)]) (registered e) (serving e) (inbuf e) (todo e) (wire e)
        (codec_errors e) (<[k := c]> (issued e)) (answered e) (completed e)) svcs sv ans ie ip.
Proof.
  intros H Hmax Hk Hid Hout Hd Hr Hok. set (e' := mkEnd _ _ _ _ _ _ _ _ _ _ _ _).
  pose proof (range_ok _ _ _ _ _ _ H) as Hrange.
  assert (forall j c0, issued e !! j = Some c0 -> issued e' !! j = Some c0) as Hkeep.
  { intros j c0 Hj. subst e'. cbn. rewrite lookup_insert_ne; [done|].
    assert (is_Some (issued e !! j)) as Hs by eauto. apply (issued_ok _ _ _ _ _ _ H), elem_of_seqZ in Hs. lia. }
  split.
  - pose proof (ids_ok _ _ _ _ _ _ H) as Hp. cbn [chan e']. rewrite Hid, Hk, seqZ_app by lia. rewrite <-Hp, Z.add_comm.
    replace (seqZ (id_ (chan e) + 1) 1) with [k] by (by rewrite Hk). subst e'. clear. ids_perm.
  - cbn [chan e']. lia.
  - intros j. cbn [chan issued e']. rewrite Hid, elem_of_seqZ. destruct (decide (j = k)) as [->|Hj].
    + rewrite lookup_insert_eq. split; [intros _; lia|eauto].
    + rewrite lookup_insert_ne by done. rewrite (issued_ok _ _ _ _ _ _ H), elem_of_seqZ. lia.
  - intros j c0. cbn [issued e']. destruct (decide (j = k)) as [->|Hj].
    + rewrite lookup_insert_eq. by intros [= <-].
    + rewrite lookup_insert_ne by done. apply (done_ok _ _ _ _ _ _ H).
  - intros j c0. cbn [fetched registered e']. rewrite !elem_of_app, list_elem_of_singleton.
    intros [[Hin|[= -> ->]]|Hin].
    + destruct (threads_ok _ _ _ _ _ _ H j c0); [rewrite elem_of_app; auto|]. auto.
    + split; [by apply lookup_insert_eq|done].
    + destruct (threads_ok _ _ _ _ _ _ H j c0); [rewrite elem_of_app; auto|]. auto.
  - cbn [chan e']. rewrite Hout, (table_ok _ _ _ _ _ _ H). f_equal. apply list_fmap_ext. intros i j Hj.
    unfold out_entry, call_of. cbn [issued e']. rewrite lookup_insert_ne; [done|].
    apply list_elem_of_lookup_2 in Hj. assert (j <> id_ (chan e) + 1); [|lia].
    eapply new_id_fresh; [done|]. unfold places, live. rewrite !elem_of_app. auto.
  - intros m Hm Ht. destruct (requests_ok _ _ _ _ _ _ H m Hm Ht) as (c0 & ? & ?). exists c0. auto.
  - intros x Hx. destruct (serving_ok _ _ _ _ _ _ H x Hx) as (c0 & md & ? & ?). exists c0, md. auto.
  - intros m Hm Ht. destruct (replies_ok _ _ _ _ _ _ H m Hm Ht) as (c0 & ? & ?). exists c0. auto.
  - apply (types_ok _ _ _ _ _ _ H).
  - intros j d v Hin. destruct (completed_ok _ _ _ _ _ _ H j d v Hin) as (c0 & ? & ?). exists c0. auto.
  - apply (answers_ok _ _ _ _ _ _ H).
  - apply (answers_in _ _ _ _ _ _ H).
Qed.

(** A new object, owned by a new call or by a call to serve. *)
Lemma memory_add e e' sv sv' ie ie' ip ip' a o objs :
  memory_ok e sv ie ip -> a = fresh (dom (mem e) ∪ {[0]}) -> mem e' = <[a := o]> (mem e) ->
  (forall own, own.*1 = (sv_resp <$> serving e) -> exists own', own'.*1 = (sv_resp <$> serving e') /\
     objects e' sv' ie' ip' own' ≡ₚ (a, o) :: objs own /\ objs own = objects e sv ie ip own) ->
  memory_ok e' sv' ie' ip'.
Proof.
  intros (own & Hown & Hnd & H0 & Hmem) Ha Hm Hobj. destruct (Hobj own Hown) as (own' & Hown' & Hp & Ho). rewrite Ho in Hp.
  destruct (fresh_spec (mem e)) as [Hf Hz]. rewrite <-Ha in Hf, Hz.
  rewrite (memory_dom _ _ _ _ _ Hmem), elem_of_list_to_set in Hf.
  assert (NoDup ((a, o) :: objects e sv ie ip own).*1) as Hnd' by (cbn [fmap list_fmap fst]; by apply NoDup_cons).
  exists own'. split_and!; [done| | |].
  - by rewrite Hp.
  - rewrite Hp. cbn [fmap list_fmap fst]. by apply not_elem_of_cons.
  - rewrite Hm, Hmem. change (<[a := o]> (list_to_map (objects e sv ie ip own))) with
      (list_to_map ((a, o) :: objects e sv ie ip own) : gmap Z (Message V)).
    symmetry. apply list_to_map_proper; by rewrite Hp.
Qed.

(** The step of a call leaves the other direction alone. *)
Lemma half_same e p e' p' re rp :
  half_ok e p re rp ->
  chan e' = chan e -> mem e' = mem e -> fetched e' = fetched e -> registered e' = registered e ->
  serving e' = serving e -> inbuf e' = inbuf e -> todo e' = todo e -> codec_errors e' = codec_errors e ->
  issued e' = issued e -> completed e' = completed e ->
  services_ (chan p') = services_ (chan p) -> serving p' = serving p -> answered p' = answered p -> todo p' = todo p ->
  wire p' = wire p ->
  half_ok e' p' re rp.
Proof.
  intros H. destruct e, e'. cbn. intros -> -> -> -> -> -> -> -> -> -> Hs Hv Ha Ht Hw.
  unfold half_ok, stream_ok in *. rewrite Hs, Hv, Ha, Ht, Hw.
  destruct H as (Hst & [] & Hm). split; [exact Hst|]. split; [|exact Hm]. split; assumption.
Qed.

Definition keeps_inv (r : outcome (option (endpoint * endpoint))) : Prop :=
  match r with Ok (Some (e', p')) => inv e' p' | Ok None => True | Err _ => False end.

Lemma exec_call svc meth req ty done e p :
  inv e p -> legal (Call svc meth req ty done) e -> keeps_inv (exec (Call svc meth req ty done) e p).
Proof.
  intros (re & rp & (Hs & Hc & Hm) & Hp) (Hmax & Hok). unfold exec, new_message.
  set (a := fresh _). set (c := mkCall _ _ _ _ _ _). rewrite (next_id _ _ _ _ _ _ Hc Hmax).
  destruct (fresh_spec (mem e)) as [Hf Hz]. fold a in Hf, Hz.
  cbn [keeps_inv]. exists re, rp. split.
  - split; [exact Hs|]. split.
    + by apply call_calls.
    + eapply (memory_add e _ _ _ _ _ _ _ a _ (objects e (serving p) (todo e ++ re) (todo p ++ rp)) Hm); [done|done|].
      intros own Hown. exists own. (split_and!; [done| |done]). cbn [todo].
      set (e' := mkEnd _ _ _ _ _ _ _ _ _ _ _ _).
      assert (live e' (serving p) (todo e ++ re) (todo p ++ rp) ≡ₚ
        (id_ (chan e) + 1) :: live e (serving p) (todo e ++ re) (todo p ++ rp)) as Hl by (subst e'; clear; ids_perm).
      unfold objects. rewrite Hl. cbn [fmap list_fmap app]. apply Permutation_cons.
      * unfold call_obj, call_of. cbn [issued e']. by rewrite lookup_insert_eq.
      * apply Permutation_app_tail. erewrite list_fmap_ext; [done|]. intros ? j Hj. unfold call_obj, call_of. cbn [issued e'].
        rewrite lookup_insert_ne; [done|]. apply list_elem_of_lookup_2 in Hj.
        apply not_eq_sym. eapply new_id_fresh; [done|]. unfold places. rewrite elem_of_app. auto.
  - eapply half_same; [exact Hp|done..].
Qed.

Lemma exec_register i e p : inv e p -> keeps_inv (exec (Register i) e p).
Proof.
  intros (re & rp & (Hs & Hc & Hm) & Hp). unfold exec. destruct (fetched e !! i) as [[k c]|] eqn:Hi; [|done].
  cbn [keeps_inv]. exists re, rp. split; [|eapply half_same; [exact Hp|done..]]. split; [exact Hs|].
  pose proof (delete_ids fst _ _ _ Hi) as Hd. cbn [fst] in Hd. cbn [todo].
  destruct (threads_ok _ _ _ _ _ _ Hc k c) as [Hk Hok].
  { apply elem_of_app. left. by eapply list_elem_of_lookup_2. }
  set (e' := mkEnd _ _ _ _ _ _ _ _ _ _ _ _).
  assert (live e' (serving p) (todo e ++ re) (todo p ++ rp) ≡ₚ live e (serving p) (todo e ++ re) (todo p ++ rp)) as Hl
    by (subst e'; clear -Hd; ids_perm).
  assert (waiting e' (serving p) (todo e ++ re) (todo p ++ rp) ≡ₚ k :: waiting e (serving p) (todo e ++ re) (todo p ++ rp)) as Hw
    by (subst e'; clear -Hd; ids_perm).
  split; [|by eapply memory_move].
  split; cbn [chan e' issued fetched registered completed].
  - unfold places. rewrite Hl. apply (ids_ok _ _ _ _ _ _ Hc).
  - apply (range_ok _ _ _ _ _ _ Hc).
  - apply (issued_ok _ _ _ _ _ _ Hc).
  - apply (done_ok _ _ _ _ _ _ Hc).
  - intros j c0. rewrite !elem_of_app, list_elem_of_singleton. intros [Hin%list_elem_of_delete_inv|[Hin|[= -> ->]]]; [| |done].
    + apply (threads_ok _ _ _ _ _ _ Hc), elem_of_app. auto.
    + apply (threads_ok _ _ _ _ _ _ Hc), elem_of_app. auto.
  - pose proof (live_NoDup _ _ _ _ _ _ Hc) as Hnd. rewrite <-Hl in Hnd. unfold live in Hnd. apply NoDup_app in Hnd as (_ & _ & Hnd).
    rewrite (table_perm e' _ _ Hnd Hw). cbn [CallMethod_register outstandings_ fmap list_fmap list_to_map].
    rewrite (table_ok _ _ _ _ _ _ Hc). unfold out_entry at 2, call_of. cbn [issued e']. by rewrite Hk.
  - apply (requests_ok _ _ _ _ _ _ Hc).
  - apply (serving_ok _ _ _ _ _ _ Hc).
  - apply (replies_ok _ _ _ _ _ _ Hc).
  - apply (types_ok _ _ _ _ _ _ Hc).
  - apply (completed_ok _ _ _ _ _ _ Hc).
  - apply (answers_ok _ _ _ _ _ _ Hc).
  - apply (answers_in _ _ _ _ _ _ Hc).
Qed.

Lemma stream_sent e p p' rest m : stream_ok e p rest -> message_ok m -> wire p' = wire p ++ frame m ->
  stream_ok e p' (rest ++ [m]).
Proof.
  intros (? & ? & Hok & Hc & ? & ? & ?) Hm Hw. split_and!; try done.
  - by apply Forall_app_2; [|constructor].
  - rewrite Hw, app_assoc, Hc, fmap_app, concat_app. cbn [fmap list_fmap concat]. by rewrite app_nil_r.
Qed.
Lemma id_range e svcs sv ans ie ip k : calls_ok e svcs sv ans ie ip -> is_Some (issued e !! k) -> 1 <= k < 2 ^ 63.
Proof.
  intros H Hk%(issued_ok _ _ _ _ _ _ H). rewrite elem_of_seqZ in Hk. pose proof (range_ok _ _ _ _ _ _ H). lia.
Qed.
Lemma u64_id k : 1 <= k < 2 ^ 63 -> u64 k = k.
Proof. intros Hk. apply uwrap_small; [lia|unfold urange; lia]. Qed.
Lemma i64_id k : 1 <= k < 2 ^ 63 -> i64 k = k.
Proof. intros Hk. apply swrap_small; [lia|unfold srange; lia]. Qed.

Lemma exec_send i e p : inv e p -> keeps_inv (exec (Send i) e p).
Proof.
  intros (re & rp & (Hs & Hc & Hm) & (Hs' & Hc' & Hm')). unfold exec.
  destruct (registered e !! i) as [[k c]|] eqn:Hi; [|done].
  destruct (threads_ok _ _ _ _ _ _ Hc k c) as [Hk Hok].
  { apply elem_of_app. right. by eapply list_elem_of_lookup_2. }
  pose proof (id_range _ _ _ _ _ _ k Hc ltac:(eauto)) as Hr.
  unfold CallMethod_send, codec_send. assert (conn_ (chan e) <> 0) as Hconn by apply Hs.
  destruct (Z.eqb_spec (conn_ (chan e)) 0); [done|]. cbn [mbind outcome_bind apply_all apply].
  rewrite transmit_ok by done. cbn [mbind outcome_bind keeps_inv].
  set (m := request_message k c) in *. assert (id m = k) as Hid by (by apply u64_id).
  assert (type_ m = REQUEST) as Hty by done.
  pose proof (delete_ids fst _ _ _ Hi) as Hd. cbn [fst] in Hd.
  set (e' := set_wire _ _). exists re, (rp ++ [m]). cbn [todo e' set_wire].
  assert (waiting e' (serving p) (todo e ++ re) (todo p ++ rp ++ [m]) ≡ₚ waiting e (serving p) (todo e ++ re) (todo p ++ rp)) as Hw.
  { rewrite <-Hid in Hd. subst e'. clear -Hd Hty. ids_perm. }
  split.
  - split; [exact Hs|]. split.
    + apply (calls_move e _ _ _ _ _ _ _ _ _ _ Hc); try done.
      * intros x Hx%list_elem_of_delete_inv. done.
      * intros m0. rewrite app_assoc, elem_of_app, list_elem_of_singleton. intros [Hin| ->] Ht; [by left|right].
        exists c. by rewrite Hid.
      * auto.
      * auto.
      * auto.
    + apply (memory_move e _ _ _ _ _ _ _ Hm); [done..|]. by apply Permutation_app_head.
  - split; [by eapply stream_sent|]. split.
    + apply (calls_move p _ _ _ _ _ _ _ _ _ _ Hc'); try done.
      * subst e'. clear -Hty. ids_perm.
      * auto.
      * auto.
      * intros m0. rewrite app_assoc, elem_of_app, list_elem_of_singleton. intros [Hin| ->] Ht; [by left|done].
      * intros m0. rewrite app_assoc, elem_of_app, list_elem_of_singleton. intros [Hin| ->] Ht; [done|done].
      * left. split; [done|]. intros k0. rewrite !resps_app, !elem_of_app. naive_solver.
    + apply (memory_move p _ _ _ _ _ _ _ Hm'); [done..|]. subst e'. clear -Hty. ids_perm.
Qed.

Lemma exec_receive n buf e p : inv e p -> keeps_inv (exec (Receive n buf) e p).
Proof.
  intros (re & rp & (Hs & Hc & Hm) & (Hs' & Hc' & Hm')). unfold exec.
  destruct (received n buf e p && bool_decide (todo e = [])) eqn:Hr; [|done].
  apply andb_true_iff in Hr as [Hr Ht%bool_decide_eq_true_1]. apply bool_decide_eq_true_1 in Hr as (Hn & Hwf & Hby & Hcont).
  destruct Hs as (_ & _ & Hok & Hstream & Herr & Hconn & _).
  destruct (ProtobufCodecLite.frames_split SerializeToArray ParseFromArray adler32 rpctag None re (Buffer.content buf) (zdrop n (wire p)) Hok) as (ms1 & ms2 & tl & -> & Hc1 & Hc2 & Htl).
  { by rewrite Hcont, <-app_assoc, ztake_zdrop. }
  apply Forall_app in Hok as [Hok1 Hok2].
  destruct (onMessage_frames buf ms1 tl) as (buf' & -> & Hwf' & Hby' & Hcont'); [done..|].
  cbn [mbind outcome_bind keeps_inv]. rewrite delivered_all, failures_none, app_nil_r.
  rewrite Ht in Hc, Hm, Hc', Hm'. exists ms2, rp. cbn [todo set_wire]. split.
  - split; [split_and!; try done; cbn [inbuf]; by rewrite Hcont'|]. split; [|exact Hm].
    destruct Hc. split; assumption.
  - split; [exact Hs'|]. split; [|exact Hm']. destruct Hc'. split; assumption.
Qed.

(** An object of a completed or answered call is deleted. *)
Lemma memory_remove e e' sv sv' ie ie' ip ip' a o :
  memory_ok e sv ie ip -> mem e' = delete a (mem e) ->
  (forall own, own.*1 = (sv_resp <$> serving e) -> exists own', own'.*1 = (sv_resp <$> serving e') /\
     objects e sv ie ip own ≡ₚ (a, o own) :: objects e' sv' ie' ip' own') ->
  memory_ok e' sv' ie' ip'.
Proof.
  intros (own & Hown & Hnd & H0 & Hmem) Hm Hobj. destruct (Hobj own Hown) as (own' & Hown' & Hp).
  assert (NoDup ((a, o own) :: objects e' sv' ie' ip' own').*1) as Hnd' by (by rewrite <-Hp).
  exists own'. split_and!; [done| | |].
  - cbn [fmap list_fmap fst] in Hnd'. by apply NoDup_cons in Hnd' as [_ ?].
  - rewrite Hp in H0. cbn [fmap list_fmap fst] in H0. by apply not_elem_of_cons in H0 as [_ ?].
  - rewrite Hm, Hmem. rewrite (list_to_map_proper (M := gmap Z) _ _ Hnd Hp). by apply list_to_map_delete_head.
Qed.
Lemma own_lookup own (resps : list Z) i a : own.*1 = resps -> resps !! i = Some a ->
  exists o : Message V, own !! i = Some (a, o).
Proof. intros <- Hi. rewrite list_lookup_fmap in Hi. destruct (own !! i) as [[a' o]|]; [|done]. injection Hi as [= <-]. by exists o. Qed.

Context (errors_fit : forall k er, 1 <= k < 2 ^ 63 -> message_ok (error_message k er)).

(** The other end's request is passed to a service or refused. *)
Lemma exec_handle_request m rest e p :
  inv e p -> todo e = m :: rest -> type_ m = REQUEST -> keeps_inv (exec Handle e p).
Proof.
  intros (re & rp & (Hs & Hc & Hm) & (Hs' & Hc' & Hm')) Htodo Hty. unfold exec. rewrite Htodo in *. cbn [app] in *.
  destruct (requests_ok _ _ _ _ _ _ Hc' m) as (c & Hk & Em); [by left|done|].
  pose proof (id_range _ _ _ _ _ _ _ Hc' ltac:(eauto)) as Hr. assert (conn_ (chan e) <> 0) as Hconn by apply Hs.
  unfold onRpcMessage. rewrite Z.eqb_refl, Hty. cbn [massert mbind outcome_bind]. unfold onRequest.
  assert (dispatch (services_ (chan e)) (field (service m)) (field (method_ m)) (field (request m)) =
    dispatch_call (services_ (chan e)) c) as -> by (by rewrite Em).
  destruct (dispatch_call (services_ (chan e)) c) as [er|[md v]] eqn:Hd.
  - unfold codec_send. destruct (Z.eqb_spec (conn_ (chan e)) 0); [done|]. cbn [mbind outcome_bind apply_all apply].
    rewrite transmit_ok by auto. cbn [mbind outcome_bind keeps_inv]. set (em := error_message (id m) er).
    set (e' := set_wire _ _). exists re, (rp ++ [em]). cbn [todo e' set_wire].
    assert (type_ em = RESPONSE) as Hty' by done. assert (id em = id m) as Hid by done. split.
    + split; [exact Hs|]. split.
      * apply (calls_move e _ _ _ _ _ _ _ _ _ _ Hc); [done..|auto|auto|subst e'; clear -Hty Hty'; ids_perm| |auto| | |].
        -- intros m0. rewrite app_assoc, elem_of_app, list_elem_of_singleton. intros [Hin| ->] Ht; [by left|done].
        -- intros m0 Hin _. left. by right.
        -- intros m0 Hin _. by right.
        -- left. split; [done|]. intros k0. by rewrite resps_cons, Hty.
      * apply (memory_move e _ _ _ _ _ _ _ Hm); [done..|]. subst e'. clear -Hty Hty'. ids_perm.
    + split; [eapply stream_sent; [exact Hs'|by apply errors_fit|done]|]. split.
      * apply (calls_move p _ _ _ _ _ _ _ _ _ _ Hc'); [done..|auto|auto|subst e'; clear -Hty Hty' Hid; ids_perm| |auto| | |].
        -- intros m0 Hin _. left. by right.
        -- intros m0. rewrite app_assoc, elem_of_app, list_elem_of_singleton. intros [Hin| ->] Ht; [by left|right].
           exists c. split; [done|]. unfold reply_ok. by rewrite Hd.
        -- intros m0. rewrite app_assoc, elem_of_app, list_elem_of_singleton. intros [Hin| ->] Ht; done.
        -- left. split; [done|]. intros k0. rewrite !resps_app, !elem_of_app. naive_solver.
      * apply (memory_move p _ _ _ _ _ _ _ Hm'); [done..|]. subst e'. clear -Hty Hty' Hid. ids_perm.
  - unfold new_message. set (a := fresh _). cbn [mbind outcome_bind apply_all apply keeps_inv].
    rewrite i64_id by done. set (s := mkServed _ _ _ _ _). set (e' := mkEnd _ _ _ _ _ _ _ _ _ _ _ _).
    exists re, rp. cbn [todo e']. split.
    + split; [exact Hs|]. split.
      * apply (calls_move e _ _ _ _ _ _ _ _ _ _ Hc); [done..|auto|auto|subst e'; clear -Hty; ids_perm|auto|auto| | |].
        -- intros m0 Hin _. left. by right.
        -- intros m0 Hin _. by right.
        -- left. split; [done|]. intros k0. by rewrite resps_cons, Hty.
      * eapply (memory_add e e' _ _ _ _ _ _ a _ (objects e (serving p) (m :: rest ++ re) (todo p ++ rp)) Hm); [done|done|].
        intros own Hown. exists (own ++ [(a, mkMessage (output_type md) (New (output_type md)))]). split_and!; [| |done].
        -- cbn [serving e']. by rewrite !fmap_app, Hown.
        -- unfold objects. rewrite app_assoc, (Permutation_app_comm _ [_]). cbn [app]. apply Permutation_cons; [done|].
           apply Permutation_app_tail. apply (Permutation_map (call_obj e)). subst e'. clear -Hty. ids_perm.
    + split; [exact Hs'|]. split.
      * apply (calls_move p _ _ _ _ _ _ _ _ _ _ Hc'); [done..|auto|auto|subst e' s; clear -Hty; ids_perm| | |auto|auto|auto].
        -- intros m0 Hin _. left. by right.
        -- intros s0. cbn [serving e']. rewrite elem_of_app, list_elem_of_singleton. intros [Hin| ->]; [by left|right].
           exists c, md. subst s. cbn [sv_id sv_request sv_service sv_method]. (split_and!; [done|done|by rewrite Em|by rewrite Em]).
      * apply (memory_move p _ _ _ _ _ _ _ Hm'); [done..|]. subst e' s. clear -Hty. ids_perm.
Qed.

(** The reply to call [k] has been handled. *)
Lemma calls_complete e e' svcs sv ans ie ie' ip k c d v :
  calls_ok e svcs sv ans ie ip -> issued e !! k = Some c -> c_done c = Some d -> result_ok svcs ans k c v ->
  id_ (chan e') = id_ (chan e) -> outstandings_ (chan e') = delete k (outstandings_ (chan e)) ->
  fetched e' = fetched e -> registered e' = registered e -> issued e' = issued e ->
  completed e' = completed e ++ [(k, d, v)] ->
  waiting e sv ie ip ≡ₚ k :: waiting e' sv ie' ip -> (forall m, m ∈ ie' -> m ∈ ie) -> resps ie = k :: resps ie' ->
  calls_ok e' svcs sv ans ie' ip.
Proof.
  intros H Hk Hd Hres Hid Hout Hf Hr His Hc Hw Hie Hrs. split.
  - rewrite Hid, <-(ids_ok _ _ _ _ _ _ H). unfold places, live. rewrite Hw, Hf, Hc. clear.
    generalize (waiting e' sv ie' ip). intros l. ids_perm.
  - rewrite Hid. apply (range_ok _ _ _ _ _ _ H).
  - intros j. rewrite His, Hid. apply (issued_ok _ _ _ _ _ _ H).
  - intros j c0. rewrite His. apply (done_ok _ _ _ _ _ _ H).
  - intros j c0. rewrite Hf, Hr, His. apply (threads_ok _ _ _ _ _ _ H).
  - pose proof (waiting_NoDup _ _ _ _ _ _ H) as Hnd.
    rewrite Hout, (table_ok _ _ _ _ _ _ H), (table_perm e _ _ Hnd Hw). cbn [fmap list_fmap].
    rewrite Hw in Hnd. unfold out_entry at 1. rewrite list_to_map_delete_head.
    + f_equal. apply list_fmap_ext. intros ? j _. unfold out_entry, call_of. by rewrite His.
    + change ((k, ?x) :: ?l).*1 with (k :: l.*1). by rewrite out_keys.
  - rewrite His. apply (requests_ok _ _ _ _ _ _ H).
  - rewrite His. apply (serving_ok _ _ _ _ _ _ H).
  - intros m Hm. rewrite His. apply (replies_ok _ _ _ _ _ _ H). auto.
  - intros m Hm. apply (types_ok _ _ _ _ _ _ H). auto.
  - intros j d0 v0. rewrite Hc, His, elem_of_app, list_elem_of_singleton.
    intros [Hin|[= -> -> ->]]; [by apply (completed_ok _ _ _ _ _ _ H)|]. by exists c.
  - apply (answers_ok _ _ _ _ _ _ H).
  - intros j Hj%(answers_in _ _ _ _ _ _ H). rewrite Hrs in Hj. rewrite Hc, !fmap_app. cbn [fmap list_fmap fst].
    rewrite !elem_of_app, elem_of_cons in *. naive_solver.
Qed.

Lemma memory_lookup_call e svcs sv ans ie ip k c :
  calls_ok e svcs sv ans ie ip -> memory_ok e sv ie ip -> issued e !! k = Some c -> k ∈ live e sv ie ip ->
  mem e !! c_response c = Some (mkMessage (c_type c) (New (c_type c))).
Proof.
  intros _ (own & _ & Hnd & _ & ->) Hk Hin. apply elem_of_list_to_map_1; [done|]. unfold objects. rewrite elem_of_app. left.
  apply list_elem_of_fmap. exists k. split; [|done]. unfold call_obj, call_of. by rewrite Hk.
Qed.

(** What a reply makes of the response object. *)
Lemma reply_result svcs ans c m : reply_ok svcs ans c m -> 1 <= id m ->
  (is_Some (response m) \/ is_Some (error m)) /\
  result_ok svcs ans (id m) c
    match response m with
    | Some s => snd (ParseFromString (c_type c) s)
    | None => New (c_type c)
    end.
Proof.
  unfold reply_ok, result_ok. destruct (dispatch_call svcs c) as [er|[md v]].
  - intros -> _. cbn. eauto.
  - intros (x & Hx & Em) _. rewrite Em. cbn. split; [eauto|]. exists x. split; [by rewrite Em in Hx|done].
Qed.

Lemma exec_handle_response m rest e p :
  inv e p -> todo e = m :: rest -> type_ m = RESPONSE -> keeps_inv (exec Handle e p).
Proof.
  intros (re & rp & (Hs & Hc & Hm) & (Hs' & Hc' & Hm')) Htodo Hty. unfold exec. rewrite Htodo in *. cbn [app] in *.
  destruct (replies_ok _ _ _ _ _ _ Hc m) as (c & Hk & Hrep); [by left|done|].
  pose proof (id_range _ _ _ _ _ _ _ Hc ltac:(eauto)) as Hr.
  destruct (done_ok _ _ _ _ _ _ Hc _ _ Hk) as [[d Hd] Hr0].
  destruct (reply_result _ _ _ _ Hrep ltac:(lia)) as [Has Hres].
  assert (id m ∈ waiting e (serving p) (m :: rest ++ re) (todo p ++ rp)) as Hin.
  { unfold waiting. rewrite !elem_of_app, resps_cons, Hty. do 3 right. by left. }
  unfold onRpcMessage. rewrite Z.eqb_refl, Hty. cbn [massert mbind outcome_bind]. unfold onResponse.
  rewrite i64_id by done. assert (bool_decide (is_Some (response m)) || bool_decide (is_Some (error m)) = true) as ->.
  { apply orb_true_iff. rewrite !bool_decide_eq_true. done. }
  cbn [massert mbind outcome_bind].
  assert (outstandings_ (chan e) !! id m = Some (mkOut (c_response c) (Some d))) as ->.
  { rewrite (table_ok _ _ _ _ _ _ Hc). apply elem_of_list_to_map_1.
    - rewrite out_keys. by eapply waiting_NoDup.
    - apply list_elem_of_fmap. exists (id m). split; [|done]. unfold out_entry, call_of. rewrite Hk. cbn. by rewrite Hd. }
  cbn [out_response out_done]. destruct (Z.eqb_spec (c_response c) 0); [done|].
  unfold deref. rewrite (memory_lookup_call _ _ _ _ _ _ _ _ Hc Hm Hk) by (unfold live; rewrite elem_of_app; auto).
  cbn [mbind outcome_bind]. unfold delete_message. destruct (Z.eqb_spec (c_response c) 0); [done|].
  rewrite lookup_insert_eq. cbn [mbind outcome_bind apply_all apply keeps_inv mtype]. rewrite delete_insert_eq.
  set (obj := match response m with Some _ => _ | None => _ end).
  assert (value obj = match response m with Some s => snd (ParseFromString (c_type c) s) | None => New (c_type c) end) as Hv
    by (subst obj; by destruct (response m)).
  rewrite <-Hv in Hres. set (e' := mkEnd _ _ _ _ _ _ _ _ _ _ _ _). exists re, rp. cbn [todo e'].
  assert (waiting e (serving p) (m :: rest ++ re) (todo p ++ rp) ≡ₚ
    id m :: waiting e' (serving p) (rest ++ re) (todo p ++ rp)) as Hw by (subst e'; clear -Hty; ids_perm).
  split.
  - split; [exact Hs|]. split.
    + eapply (calls_complete e _ _ _ _ _ _ _ (id m) c d (value obj) Hc); try done.
      * intros m0 Hm0. by right.
      * by rewrite resps_cons, Hty.
    + eapply (memory_remove e e' _ _ _ _ _ _ (c_response c) (fun _ => mkMessage (c_type c) (New (c_type c))) Hm); [done|].
      intros own Hown. exists own. split; [done|]. unfold objects.
      assert (live e (serving p) (m :: rest ++ re) (todo p ++ rp) ≡ₚ
        id m :: live e' (serving p) (rest ++ re) (todo p ++ rp)) as Hl by (subst e'; clear -Hty; ids_perm).
      rewrite (Permutation_map (call_obj e) Hl). cbn [fmap list_fmap app].
      apply Permutation_cons; [|done]. unfold call_obj, call_of. by rewrite Hk.
  - split; [exact Hs'|]. split.
    + apply (calls_move p _ _ _ _ _ _ _ _ _ _ Hc'); [done..|auto|auto|subst e'; clear -Hty; ids_perm| |auto|auto|auto|auto].
      intros m0 Hin0 _. left. by right.
    + apply (memory_move p _ _ _ _ _ _ _ Hm'); [done..|]. subst e'. clear -Hty. ids_perm.
Qed.

Lemma served_not_answered e svcs sv ans ie ip s : calls_ok e svcs sv ans ie ip -> s ∈ sv ->
  sv_id s ∉ resps ie ++ (completed e).*1.*1.
Proof.
  intros H Hs Hin. pose proof (proj1 (NoDup_ListNoDup _) (places_NoDup _ _ _ _ _ _ H)) as Hnd.
  apply (proj1 (NoDup_count_occ Z.eq_dec _)) with (x := sv_id s) in Hnd.
  assert (sv_id s ∈ sv_id <$> sv) as Hm by (by apply list_elem_of_fmap_2).
  apply list_elem_of_In, (count_occ_In Z.eq_dec) in Hin, Hm.
  unfold places, live, waiting in Hnd. autorewrite with ids in *. lia.
Qed.

Lemma exec_answer i v e p : inv e p -> legal (Answer i v) e -> keeps_inv (exec (Answer i v) e p).
Proof.
  intros (re & rp & (Hs & Hc & Hm) & (Hs' & Hc' & Hm')) Hleg. unfold exec. unfold legal in Hleg.
  destruct (serving e !! i) as [s|] eqn:Hi; [|done]. assert (s ∈ serving e) as Hin by (by eapply list_elem_of_lookup_2).
  destruct (serving_ok _ _ _ _ _ _ Hc' s Hin) as (c & md & Hk & Hd & _).
  pose proof (id_range _ _ _ _ _ _ _ Hc' ltac:(eauto)) as Hr. assert (conn_ (chan e) <> 0) as Hconn by apply Hs.
  assert (exists o, mem e !! sv_resp s = Some o /\ sv_resp s <> 0) as (o & Ho & Hz).
  { destruct Hm as (own & Hown & Hnd & H0 & Hmem).
    destruct (own_lookup own (sv_resp <$> serving e) i (sv_resp s)) as [o Hoi]; [done|by rewrite list_lookup_fmap, Hi|].
    apply list_elem_of_lookup_2 in Hoi. exists o. split.
    - rewrite Hmem. apply elem_of_list_to_map_1; [done|]. unfold objects. rewrite elem_of_app. auto.
    - intros Hz. apply H0. unfold objects. rewrite fmap_app, elem_of_app. right. apply list_elem_of_fmap. by exists (sv_resp s, o). }
  unfold deref. rewrite Ho. cbn [mbind outcome_bind]. unfold doneCallback, deref. rewrite lookup_insert_eq.
  cbn [mbind outcome_bind value]. unfold codec_send. destruct (Z.eqb_spec (conn_ (chan e)) 0); [done|].
  cbn [mbind outcome_bind]. unfold delete_message. rewrite (proj2 (Z.eqb_neq _ _) Hz).
  rewrite lookup_insert_eq. cbn [mbind outcome_bind apply_all apply]. rewrite delete_insert_eq.
  rewrite transmit_ok by done. cbn [mbind outcome_bind keeps_inv].
  set (rm := response_message _ _) in *. assert (id rm = sv_id s) as Hid by (by apply u64_id).
  assert (type_ rm = RESPONSE) as Hty by done. pose proof (delete_ids sv_id _ _ _ Hi) as Hdel.
  set (e' := set_wire _ _). exists re, (rp ++ [rm]). cbn [todo e' set_wire]. split.
  - split; [exact Hs|]. split.
    + apply (calls_move e _ _ _ _ _ _ _ _ _ _ Hc); [done..|auto|auto|subst e'; clear -Hty; ids_perm| |auto|auto|auto|auto].
      intros m0. rewrite app_assoc, elem_of_app, list_elem_of_singleton. intros [Hin0| ->] Ht; [by left|done].
    + eapply (memory_remove e e' _ _ _ _ _ _ (sv_resp s) (fun own => default (mkMessage 0 (New 0)) (snd <$> own !! i)) Hm);
        [done|]. intros own Hown.
      destruct (own_lookup own (sv_resp <$> serving e) i (sv_resp s)) as [o' Hoi]; [done|by rewrite list_lookup_fmap, Hi|].
      exists (delete i own). cbn [serving e' set_wire]. split.
      { by rewrite !list_fmap_delete, Hown. }
      rewrite Hoi. cbn [fmap option_fmap option_map snd default]. unfold objects.
      rewrite (delete_Permutation own i _ Hoi) at 1. rewrite <-Permutation_middle. apply Permutation_cons; [done|].
      apply Permutation_app_tail, (Permutation_map (call_obj e)). subst e'. clear -Hty. ids_perm.
  - split; [by eapply stream_sent|]. split.
    + apply (calls_move p _ _ _ _ _ _ _ _ _ _ Hc'); [done..|auto| |subst e'; clear -Hty Hid Hdel; ids_perm|auto| | | |].
      * intros x Hx. cbn [answered e' set_wire]. rewrite elem_of_app. auto.
      * intros s0 Hs0%list_elem_of_delete_inv. by left.
      * intros m0. rewrite app_assoc, elem_of_app, list_elem_of_singleton. intros [Hin0| ->] Ht; [by left|right].
        exists c. rewrite Hid. split; [done|]. unfold reply_ok. rewrite Hd. exists v. rewrite Hid. split; [|done].
        cbn [answered e' set_wire]. rewrite elem_of_app, list_elem_of_singleton. by right.
      * intros m0. rewrite app_assoc, elem_of_app, list_elem_of_singleton. intros [Hin0| ->] Ht; done.
      * right. cbn [answered e' set_wire]. rewrite fmap_app. cbn [fmap list_fmap fst].
        assert (sv_id s ∉ (answered e).*1) as Hnew.
        { intros Ha%(answers_in _ _ _ _ _ _ Hc'). by eapply served_not_answered. }
        split.
        -- apply NoDup_app. split; [apply (answers_ok _ _ _ _ _ _ Hc')|]. split; [|apply NoDup_singleton].
           intros x Hx ->%list_elem_of_singleton. done.
        -- intros k. rewrite !resps_app, resps_cons, Hty, Hid, !elem_of_app. intros [Ha| ->%list_elem_of_singleton].
           ++ apply (answers_in _ _ _ _ _ _ Hc') in Ha. rewrite resps_app, !elem_of_app in Ha. naive_solver.
           ++ left. right. right. left. by left.
    + apply (memory_move p _ _ _ _ _ _ _ Hm'); [done..|]. subst e'. clear -Hty Hid Hdel. ids_perm.
Qed.

Lemma exec_inv ev e p : inv e p -> legal ev e -> keeps_inv (exec ev e p).
Proof.
  intros H Hl. destruct ev as [svc meth req ty done|i|i|n buf| |i v].
  - by apply exec_call.
  - by apply exec_register.
  - by apply exec_send.
  - by apply exec_receive.
  - destruct (todo e) as [|m rest] eqn:Ht; [unfold exec; by rewrite Ht|]. destruct (type_ m) eqn:Hty.
    + by eapply exec_handle_request.
    + by eapply exec_handle_response.
    + destruct H as (re & rp & (_ & Hc & _) & _). destruct (types_ok _ _ _ _ _ _ Hc m); [|done]. rewrite Ht. by left.
  - by apply exec_answer.
Qed.
Lemma inv_sym e p : inv e p -> inv p e.
Proof. intros (re & rp & H1 & H2). by exists rp, re. Qed.

(** Both ends act, in any order. *)
Inductive step : endpoint * endpoint -> endpoint * endpoint -> Prop :=
| step_here ev e p e' p' : legal ev e -> exec ev e p = Ok (Some (e', p')) -> step (e, p) (e', p')
| step_there ev e p e' p' : legal ev p -> exec ev p e = Ok (Some (p', e')) -> step (e, p) (e', p').

(** A new channel on connection [conn]. *)
Definition start (conn : Z) (svcs : option (gmap bytes Service)) : endpoint :=
  mkEnd (mk conn 0 ∅ svcs) ∅ [] [] [] (Buffer.mk (replicate 1032 0) 8 8) [] [] [] ∅ [] [].

Lemma start_half conn conn' svcs svcs' : conn <> 0 -> half_ok (start conn svcs) (start conn' svcs') [] [].
Proof.
  intros Hconn. split; [|split].
  - split_and!; try done. by apply Forall_replicate.
  - split; try done; try (by intros * ?%elem_of_nil).
    + intros k. cbn. rewrite lookup_empty. split; [intros [? [=]]|by intros ?%elem_of_nil].
    + constructor.
  - exists []. split_and!; try done; [constructor|]. by intros ?%elem_of_nil.
Qed.
Lemma steps_inv w w' : rtc step w w' -> inv w.1 w.2 -> inv w'.1 w'.2.
Proof.
  induction 1 as [|w1 w2 w3 Hstep _ IH]; [done|]. intros H. apply IH.
  destruct Hstep as [ev e p e' p' Hl He|ev e p e' p' Hl He]; cbn [fst snd] in *.
  - pose proof (exec_inv ev e p H Hl) as Hk. by rewrite He in Hk.
  - pose proof (exec_inv ev p e (inv_sym _ _ H) Hl) as Hk. rewrite He in Hk. by apply inv_sym.
Qed.
Lemma rpc_reachable_inv conn conn' svcs svcs' e p : conn <> 0 -> conn' <> 0 ->
  rtc step (start conn svcs, start conn' svcs') (e, p) -> inv e p.
Proof.
  intros Hc Hc' Hr. apply (steps_inv _ _ Hr). exists [], []. split; by apply start_half.
Qed.

(** * The destructor *)

Lemma delete_all (l : list OutstandingCall) (h : gmap Z (Message V)) :
  NoDup (out_response <$> l) -> (forall a, a ∈ (out_response <$> l) -> a <> 0 /\ is_Some (h !! a)) ->
  exists h', foldl (fun h out => h ← h; delete_message (out_response out) h) (Ok h) l = Ok h' /\
    (forall a, h' !! a = if decide (a ∈ (out_response <$> l)) then None else h !! a).
Proof.
  revert h. induction l as [|o l IH]; intros h Hnd Hin; cbn [foldl].
  - exists h. split; [done|]. intros a. by rewrite decide_False by apply not_elem_of_nil.
  - cbn [fmap list_fmap] in *. apply NoDup_cons in Hnd as [Hn Hnd]. destruct (Hin (out_response o)) as [Hz [x Hx]]; [by left|].
    assert (delete_message (out_response o) h = Ok (delete (out_response o) h)) as Hd.
    { unfold delete_message. by rewrite (proj2 (Z.eqb_neq _ _) Hz), Hx. }
    cbn [mbind outcome_bind]. rewrite Hd. destruct (IH (delete (out_response o) h) Hnd) as (h' & -> & Hh').
    { intros a Ha. destruct (Hin a) as [? ?]; [by right|]. split; [done|]. rewrite lookup_delete_ne; [done|congruence]. }
    exists h'. split; [done|]. intros a. rewrite Hh'. destruct (decide (a = out_response o)) as [->|Hne].
    + rewrite lookup_delete_eq. by rewrite (decide_True (P := _ ∈ _ :: _)) by left; case_decide.
    + rewrite lookup_delete_ne by congruence. apply decide_ext. rewrite elem_of_cons. naive_solver.
Qed.

(** What is left of the heap when the channel is destroyed. *)
Lemma dtor_ok e sv ans svcs ie ip : calls_ok e svcs sv ans ie ip -> memory_ok e sv ie ip ->
  exists h, dtor (chan e) (mem e) = Ok h /\
    (forall a, is_Some (h !! a) <-> (a ∈ ((c_response ∘ call_of e) <$> (fetched e).*1)) \/ (a ∈ (sv_resp <$> serving e))).
Proof.
  intros Hc (own & Hown & Hnd & H0 & Hmem). unfold dtor.
  assert ((map_to_list (outstandings_ (chan e))).*2 ≡ₚ (snd ∘ out_entry e) <$> waiting e sv ie ip) as Hp.
  { rewrite (table_ok _ _ _ _ _ _ Hc), map_to_list_to_map, <-list_fmap_compose; [done|].
    rewrite out_keys. by eapply waiting_NoDup. }
  assert (out_response <$> (map_to_list (outstandings_ (chan e))).*2 ≡ₚ (c_response ∘ call_of e) <$> waiting e sv ie ip) as Hr.
  { by rewrite Hp, <-list_fmap_compose. }
  assert ((objects e sv ie ip own).*1 = ((c_response ∘ call_of e) <$> (fetched e).*1) ++
    ((c_response ∘ call_of e) <$> waiting e sv ie ip) ++ (sv_resp <$> serving e)) as Hobj.
  { unfold objects, live. rewrite !fmap_app, Hown, <-!list_fmap_compose, <-app_assoc. done. }
  rewrite Hobj in Hnd, H0.
  assert (forall a, is_Some (mem e !! a) <-> a ∈ (objects e sv ie ip own).*1) as Hdom.
  { intros a. rewrite <-elem_of_dom, (memory_dom _ _ _ _ _ Hmem). apply elem_of_list_to_set. }
  apply NoDup_app in Hnd as (_ & Hd1 & Hnd). apply NoDup_app in Hnd as (Hnd & Hd2 & _).
  destruct (delete_all (map_to_list (outstandings_ (chan e))).*2 (mem e)) as (h & Hh & Hl).
  { by rewrite Hr. }
  { intros a Ha. rewrite Hr in Ha. split; [|apply Hdom; rewrite Hobj, !elem_of_app; auto].
    intros ->. apply H0. rewrite !elem_of_app. auto. }
  exists h. split; [exact Hh|]. intros a. rewrite Hl. case_decide as Ha; rewrite Hr in Ha.
  - split; [by intros [? [=]]|]. intros [Hb|Hb].
    + destruct (Hd1 a Hb). rewrite elem_of_app. auto.
    + by destruct (Hd2 a Ha).
  - rewrite Hdom, Hobj, !elem_of_app. naive_solver.
Qed.

(** * Theorems *)

(** Nothing is under way for the calls of [e]. *)
Definition quiescent (e p : endpoint) : Prop :=
  fetched e = [] /\ registered e = [] /\ wire e = [] /\ todo p = [] /\ serving p = [] /\ wire p = [] /\ todo e = [].

(** The calls made at [e], answered at [p]. *)
Definition calls_served (e p : endpoint) : Prop :=
  NoDup (completed e).*1.*1 /\ NoDup (answered p).*1 /\
  (forall k d v, (k, d, v) ∈ completed e ->
    exists c, issued e !! k = Some c /\ c_done c = Some d /\ result_ok (services_ (chan p)) (answered p) k c v) /\
  (forall s, s ∈ serving p -> exists c md, issued e !! sv_id s = Some c /\
    dispatch_call (services_ (chan p)) c = inr (md, sv_request s) /\ sv_service s = c_service c /\ sv_method s = c_method c) /\
  (quiescent e p -> (completed e).*1.*1 ≡ₚ seqZ 1 (id_ (chan e)) /\ outstandings_ (chan e) = ∅ /\
    dom (mem e) = list_to_set (sv_resp <$> serving e)).

Lemma no_frames e p rest : stream_ok e p rest -> wire p = [] -> rest = [].
Proof.
  intros (_ & _ & Hok & Hc & _ & _ & Hw) Hp. rewrite Hp, app_nil_r in Hc. destruct rest as [|m rest]; [done|].
  apply Forall_cons in Hok as [Hm _]. rewrite Hc in Hw. cbn [fmap list_fmap concat] in Hw.
  by rewrite (ProtobufCodecLite.first_frame_of SerializeToArray ParseFromArray adler32 rpctag None m _ Hm) in Hw.
Qed.
Lemma inv_served e p : inv e p -> calls_served e p.
Proof.
  intros (re & rp & (Hs & Hc & Hm) & (Hs' & _ & _)). split_and!.
  - pose proof (places_NoDup _ _ _ _ _ _ Hc) as H. by apply NoDup_app in H as (_ & _ & ?).
  - apply (answers_ok _ _ _ _ _ _ Hc).
  - apply (completed_ok _ _ _ _ _ _ Hc).
  - apply (serving_ok _ _ _ _ _ _ Hc).
  - intros (Hf & Hr & We & Tp & Sp & Wp & Te).
    rewrite (no_frames _ _ _ Hs Wp), (no_frames _ _ _ Hs' We), Tp, Te, Sp in *. cbn [app] in *.
    assert (live e [] [] [] = []) as Hl by (unfold live, waiting; by rewrite Hf, Hr).
    split_and!.
    + rewrite <-(ids_ok _ _ _ _ _ _ Hc). unfold places. by rewrite Hl.
    + rewrite (table_ok _ _ _ _ _ _ Hc). unfold live in Hl. by apply app_eq_nil in Hl as [_ ->].
    + destruct Hm as (own & Hown & _ & _ & Hmem). rewrite (memory_dom _ _ _ _ _ Hmem). unfold objects.
      rewrite Hl. cbn [fmap list_fmap app]. by rewrite <-Hown.
Qed.

(** C10: over every run of two connected ends, with calls from any threads, any
    segmentation of the bytes and services that answer in any order: no
    assertion fails and no deleted object is used; every closure runs at most
    once, with the error the request deserves (the response left as it was
    created) or with what the response object parses from the one answer of
    the service, which got the caller's argument; and once nothing is under
    way, every call has completed, the table is empty and no response object
    is left.  A channel can be destroyed at any time and deletes the objects
    of its outstanding calls once each. *)
Theorem rpc_calls_complete_once conn conn' svcs svcs' e p :
  conn <> 0 -> conn' <> 0 -> rtc step (start conn svcs, start conn' svcs') (e, p) ->
  (forall ev, legal ev e -> is_ok (exec ev e p) = true) /\ (forall ev, legal ev p -> is_ok (exec ev p e) = true) /\
  calls_served e p /\ calls_served p e /\
  exists h, dtor (chan e) (mem e) = Ok h /\
    (forall a, is_Some (h !! a) <-> (a ∈ ((c_response ∘ call_of e) <$> (fetched e).*1)) \/ (a ∈ (sv_resp <$> serving e))).
Proof.
  intros Hc Hc' Hr. pose proof (rpc_reachable_inv _ _ _ _ _ _ Hc Hc' Hr) as H.
  assert (forall ev e p, inv e p -> legal ev e -> is_ok (exec ev e p) = true) as Hok.
  { intros ev e0 p0 H0 Hl. pose proof (exec_inv ev e0 p0 H0 Hl) as Hk. by destruct (exec ev e0 p0). }
  pose proof (inv_sym _ _ H) as H'. split_and!; [by auto|by auto|by apply inv_served|by apply inv_served|].
  destruct H as (re & rp & (_ & Hcalls & Hmem) & _). by eapply dtor_ok.
Qed.

(** What rpc.proto and the handlers expect of a message. *)
Definition well_typed (m : RpcMessage) : Prop :=
  1 <= id m < 2 ^ 63 /\
  match type_ m with
  | REQUEST => is_Some (service m) /\ is_Some (method_ m) /\ is_Some (request m) /\ response m = None /\ error m = None
  | RESPONSE => service m = None /\ method_ m = None /\ request m = None /\
      ((is_Some (response m) /\ error m = None) \/ (response m = None /\ is_Some (error m)))
  | ERROR => False
  end.
Lemma request_typed m c : 1 <= id m < 2 ^ 63 -> m = request_message (id m) c -> well_typed m.
Proof. intros Hr Em. rewrite Em in Hr |- *. split; [done|]. cbn. eauto 10. Qed.
Lemma reply_typed svcs ans c m : 1 <= id m < 2 ^ 63 -> reply_ok svcs ans c m -> well_typed m.
Proof.
  intros Hr. unfold reply_ok. destruct (dispatch_call svcs c) as [er|r].
  - intros Em. rewrite Em in Hr |- *. split; [done|]. cbn. eauto 10.
  - intros (x & _ & Em). rewrite Em in Hr |- *. split; [done|]. cbn. eauto 10.
Qed.
Lemma inv_typed e p : inv e p -> exists ms,
  Buffer.content (inbuf e) ++ wire p = concat (frame <$> ms) /\ Forall well_typed (todo e ++ ms).
Proof.
  intros (re & rp & (Hs & Hc & _) & (_ & Hc' & _)). exists re. split; [apply Hs|].
  apply Forall_forall. intros m Hm. destruct (type_ m) eqn:Ht.
  - destruct (requests_ok _ _ _ _ _ _ Hc' m Hm Ht) as (c & Hk & Em).
    apply (request_typed m c); [|done]. eapply id_range; [exact Hc'|eauto].
  - destruct (replies_ok _ _ _ _ _ _ Hc m Hm Ht) as (c & Hk & Hrep).
    eapply reply_typed; [|done]. eapply id_range; [exact Hc|eauto].
  - by destruct (types_ok _ _ _ _ _ _ Hc m Hm).
Qed.

(** C11: in every run the bytes on the way to either end, those in its input buffer
    first, are whole frames of messages with the fields of their type and no
    others: a request names service and method and has an argument, a response
    has an answer or an error code, ids are positive and fit. *)
Theorem rpc_messages_well_typed conn conn' svcs svcs' e p :
  conn <> 0 -> conn' <> 0 -> rtc step (start conn svcs, start conn' svcs') (e, p) ->
  (exists ms, Buffer.content (inbuf e) ++ wire p = concat (frame <$> ms) /\ Forall well_typed (todo e ++ ms)) /\
  (exists ms, Buffer.content (inbuf p) ++ wire e = concat (frame <$> ms) /\ Forall well_typed (todo p ++ ms)) /\
  codec_errors e = [] /\ codec_errors p = [].
Proof.
  intros Hc Hc' Hr. pose proof (rpc_reachable_inv _ _ _ _ _ _ Hc Hc' Hr) as H.
  split; [by apply inv_typed|]. split; [by apply inv_typed, inv_sym|].
  destruct H as (re & rp & (Hs & _) & (Hs' & _)). split; [apply Hs|apply Hs'].
Qed.
End World.
Arguments endpoint V : clear implicits.
Arguments event V : clear implicits.

(** * A concrete run *)

(** Values are byte strings; type 1 refuses the empty one. *)
#[local] Instance text_protobuf : Protobuf bytes := {
  SerializeAsString v := v;
  ParseFromString ty s := (negb ((ty =? 1) && bytes_eqb s []), s);
  New _ := []
}.
Definition echo : Service :=
  mkService (lit "Echo") (fun m => if bytes_eqb m (lit "echo") then Some (mkMethod 1 2) else None).

(** A fixed layout of RpcMessage, with presence bytes and lengths. *)
Definition put_opt (x : option bytes) : bytes :=
  match x with Some s => 1 :: le_bytes 4 (zlen s) ++ s | None => [0] end.
Definition get_opt (l : bytes) : option bytes * bytes :=
  match l with
  | 1 :: l' => let n := le_value (ztake 4 l') in (Some (ztake n (zdrop 4 l')), zdrop (4 + n) l')
  | _ :: l' => (None, l')
  | [] => (None, [])
  end.
Definition type_codes : list MessageType := [REQUEST; RESPONSE; ERROR].
Definition error_codes : list (option ErrorCode) :=
  [None; Some NO_ERROR; Some WRONG_PROTO; Some NO_SERVICE; Some NO_METHOD; Some INVALID_REQUEST;
   Some INVALID_RESPONSE; Some TIMEOUT].
Definition index_of {A} `{EqDecision A} (x : A) (l : list A) : Z := default 0 (Z.of_nat ∘ fst <$> list_find (eq x) l).
Definition put_message (m : RpcMessage) : bytes :=
  [index_of (type_ m) type_codes] ++ le_bytes 8 (id m) ++ [index_of (error m) error_codes] ++
  put_opt (service m) ++ put_opt (method_ m) ++ put_opt (request m) ++ put_opt (response m).
Definition get_message (l : bytes) : option RpcMessage :=
  ty ← type_codes !! Z.to_nat (default 3 (head l));
  let k := le_value (zslice 1 9 l) in
  er ← error_codes !! Z.to_nat (default 8 (head (zdrop 9 l)));
  let '(svc, l) := get_opt (zdrop 10 l) in
  let '(meth, l) := get_opt l in
  let '(req, l) := get_opt l in
  let '(resp, l) := get_opt l in
  Some (mkRpcMessage ty k svc meth req resp er).

Lemma put_error k er : 1 <= k < 2 ^ 63 -> get_message (put_message (error_message k er)) = Some (error_message k er).
Proof.
  intros Hk. pose proof (le_value_le_bytes 8 k) as Hv. rewrite uwrap_small in Hv by (lia || unfold urange; lia).
  unfold put_message, error_message. cbn [type_ id error service method_ request response put_opt].
  revert Hv. generalize (length_le_bytes 8 k). generalize (le_bytes 8 k). intros l Hl.
  do 8 (destruct l as [|? l]; [done|]). destruct l; [|done]. intros Hv.
  rewrite <-Hv. by destruct er.
Qed.
Lemma errors_fit_example k er : 1 <= k < 2 ^ 63 ->
  ProtobufCodecLite.message_ok put_message get_message ProtobufCodecLite.adler32 rpctag None (error_message k er).
Proof.
  intros Hk. split; [by apply put_error|]. split; [|done].
  rewrite ProtobufCodecLite.body_len. unfold put_message. rewrite !zlen_app, zlen_le_bytes. vm_compute. discriminate.
Qed.

Abbreviation ex_exec := (exec (HO := true) (V := bytes) put_message get_message ProtobufCodecLite.adler32).
Abbreviation ex_legal := (legal (V := bytes) put_message get_message ProtobufCodecLite.adler32).
Abbreviation ex_step := (step (HO := true) (V := bytes) put_message get_message ProtobufCodecLite.adler32).
#[local] Instance ex_legal_dec ev e : Decision (ex_legal ev e).
Proof. unfold legal, ProtobufCodecLite.message_ok. destruct ev; try apply _. destruct (_ !! _); apply _. Defined.

(** The bytes that are there, read into a new buffer. *)
Definition arrive (e p : endpoint bytes) : event bytes :=
  Receive (zlen (wire p)) (ProtobufCodecLite.example_input (Buffer.content (inbuf e) ++ wire p)).
(** A run; [true] for an event at the first end. *)
Fixpoint run (evs : list (bool * (endpoint bytes -> endpoint bytes -> event bytes))) (w : endpoint bytes * endpoint bytes)
    : option (endpoint bytes * endpoint bytes) :=
  match evs with
  | [] => Some w
  | (here, f) :: evs =>
      let '(e, p) := if (here : bool) then w else (w.2, w.1) in
      if bool_decide (ex_legal (f e p) e)
      then match ex_exec (f e p) e p with
           | Ok (Some (e', p')) => run evs (if here then (e', p') else (p', e'))
           | _ => None
           end
      else None
  end.
Lemma run_steps evs w w' : run evs w = Some w' -> rtc ex_step w w'.
Proof.
  revert w. induction evs as [|[here f] evs IH]; intros [e p]; cbn [run]; [by intros [= <-]|].
  destruct here; cbn [fst snd]; case_bool_decide as Hl; try done.
  - destruct (ex_exec (f e p) e p) as [[[e' p']|]|] eqn:He; try done. intros Hr. eapply rtc_l; [|by apply IH].
    by eapply step_here.
  - destruct (ex_exec (f p e) p e) as [[[p' e']|]|] eqn:He; try done. intros Hr. eapply rtc_l; [|by apply IH].
    by eapply step_there.
Qed.
Definition ex_start : endpoint bytes * endpoint bytes := (start 11 None, start 22 (Some {[lit "Echo" := echo]})).
(** Two calls, of a method that is there and of one that is not. *)
Definition ex_events : list (bool * (endpoint bytes -> endpoint bytes -> event bytes)) :=
  [(true, fun _ _ => Call (lit "Echo") (lit "echo") (lit "hi") 2 7);
   (true, fun _ _ => Call (lit "Echo") (lit "other") (lit "hi") 2 8);
   (true, fun _ _ => Register 1); (true, fun _ _ => Send 0); (true, fun _ _ => Register 0); (true, fun _ _ => Send 0);
   (false, arrive); (false, fun _ _ => Handle); (false, fun _ _ => Handle); (false, fun _ _ => Answer 0 (lit "hello"));
   (true, arrive); (true, fun _ _ => Handle); (true, fun _ _ => Handle)].

Lemma rpc_calls_complete_once_witness :
  exists e p, run ex_events ex_start = Some (e, p) /\ completed e = [(2, 8, []); (1, 7, lit "hello")] /\
    calls_served e p.
Proof.
  destruct (run ex_events ex_start) as [[e p]|] eqn:Hr; [|vm_compute in Hr; discriminate Hr].
  exists e, p. split; [reflexivity|]. split; [vm_compute in Hr; injection Hr as <- <-; reflexivity|].
  apply (rpc_calls_complete_once (HO := true) put_message get_message ProtobufCodecLite.adler32 errors_fit_example
    11 22 None (Some {[lit "Echo" := echo]}) e p); [discriminate|discriminate|].
  exact (run_steps _ _ _ Hr).
Defined.
Lemma rpc_messages_well_typed_witness :
  exists e p, run (take 6 ex_events) ex_start = Some (e, p) /\
    (exists ms, Buffer.content (inbuf p) ++ wire e =
       concat (ProtobufCodecLite.frame put_message ProtobufCodecLite.adler32 rpctag <$> ms) /\
       Forall well_typed (todo p ++ ms)).
Proof.
  destruct (run (take 6 ex_events) ex_start) as [[e p]|] eqn:Hr; [|vm_compute in Hr; discriminate Hr].
  exists e, p. split; [reflexivity|].
  apply (rpc_messages_well_typed (HO := true) put_message get_message ProtobufCodecLite.adler32 errors_fit_example
    11 22 None (Some {[lit "Echo" := echo]}) e p); [discriminate|discriminate|].
  exact (run_steps _ _ _ Hr).
Defined.

(** A service that answers after the connection is down uses the deleted
    channel. *)
Example late_answer_uses_deleted_channel :
  exists srv h srv' h' resp,
    onConnection 5 true (registerService echo (mkServer ∅ ∅)) ∅ = Ok (srv, h) /\
    (ch ← Ok (s_channels srv !! 5); match ch with
       | Some ch => onRpcMessage 5 (mkRpcMessage REQUEST 1 (Some (lit "Echo")) (Some (lit "echo")) (Some (lit "x")) None None) ch h
       | None => Err (LogFatal "no channel") end) =
      Ok (setServices {[lit "Echo" := echo]} (new_conn 5), h', [Called (lit "Echo") (lit "echo") (lit "x") resp 1]) /\
    onConnection 5 false srv h' = Ok (srv', h') /\
    run_closure 5 resp 1 srv' h' = Err (Undefined "RpcChannel deleted").
Proof. do 5 eexists. split_and!; vm_compute; reflexivity. Qed.
End RpcWorld.
