(* ===== verification/BaseDouble.v ===== *)
(** Printing doubles: the conversion %.<k>f of the C library, which rounds the
    exact binary value to the nearest decimal, ties to even.  Used by
    LogStream.cc (formatSI, formatIEC) and the inspectors. *)

From Stdlib Require Import SpecFloat.
From S2P Require Import Prelude BaseTimestamp.

(** The quotient rounded to nearest, ties to even. *)
Definition div_nearest_even (n d : Z) : Z :=
  let q := n / d in
  match 2 * (n mod d) ?= d with
  | Lt => q
  | Gt => q + 1
  | Eq => if Z.even q then q else q + 1
  end.

(** The magnitude m * 2^e in units of 10^-k. *)
Definition scaled (k m e : Z) : Z :=
  if 0 <=? e then m * 2 ^ e * 10 ^ k else div_nearest_even (m * 10 ^ k) (2 ^ (- e)).

(** A magnitude in units of 10^-k. *)
Definition fmt_scaled (k : nat) (q : Z) : bytes :=
  match k with
  | O => fmt_d q
  | _ => fmt_d (q / 10 ^ Z.of_nat k) ++ lit "." ++ fmt_0d k (q mod 10 ^ Z.of_nat k)
  end.
Definition sign (s : bool) : bytes := if s then lit "-" else [].
Definition fmt_f (k : nat) (x : double) : bytes :=
  match x with
  | S754_zero s => sign s ++ fmt_scaled k 0
  | S754_infinity s => sign s ++ lit "inf"
  | S754_nan => lit "nan"
  | S754_finite s m e => sign s ++ fmt_scaled k (scaled (Z.of_nat k) (Z.pos m) e)
  end.
(** [%<w>.<k>f]. *)
Definition fmt_wf (w k : nat) (x : double) : bytes := pad_left w 32 (fmt_f k x).

Example print_half : fmt_f 0 (d_div (d_of_Z 5) (d_of_Z 2)) = lit "2".
Proof. vm_compute. reflexivity. Qed.
Example print_third : fmt_wf 12 3 (d_div (d_of_Z (-2)) (d_of_Z 3)) = lit "      -0.667".
Proof. vm_compute. reflexivity. Qed.
Example print_big : fmt_f 2 (d_div (d_of_Z 9223372036854775807) (d_of_Z 1000000000000000000)) = lit "9.22".
Proof. vm_compute. reflexivity. Qed.

(** * Rounding *)

Lemma div_nearest_error a b : 0 < b -> 2 * Z.abs (div_nearest_even a b * b - a) <= b.
Proof.
  intros Hb. unfold div_nearest_even. pose proof (Z.div_mod a b ltac:(lia)) as E. pose proof (Z.mod_pos_bound a b Hb).
  destruct (Z.compare_spec (2 * (a mod b)) b); [destruct (Z.even (a / b))| |]; lia.
Qed.
Lemma div_nearest_exact a b : 0 < b -> a mod b = 0 -> div_nearest_even a b = a / b.
Proof.
  intros Hb Hm. unfold div_nearest_even. rewrite Hm. destruct (Z.compare_spec (2 * 0) b); [lia|done|lia].
Qed.

Lemma div_nearest_scale a b c : 0 < b -> 0 < c -> div_nearest_even (a * c) (b * c) = div_nearest_even a b.
Proof.
  intros Hb Hc. unfold div_nearest_even. rewrite Z.div_mul_cancel_r, Z.mul_mod_distr_r by lia.
  rewrite Z.mul_assoc. by rewrite <-(Zmult_compare_compat_r _ _ c) by lia.
Qed.

Lemma Zdigits2_spec m : 0 < m -> 2 ^ (Zdigits2 m - 1) <= m < 2 ^ Zdigits2 m /\ 0 < Zdigits2 m.
Proof.
  destruct m as [|p|p]; try lia. intros _. cbn [Zdigits2].
  induction p as [p IH|p IH|]; cbn [digits2_pos].
  - rewrite Pos2Z.inj_succ. destruct IH as [[H1 H2] H3].
    rewrite Z.pow_succ_r by lia. replace (Z.succ (Z.pos (digits2_pos p)) - 1) with (Z.succ (Z.pos (digits2_pos p) - 1)) by lia.
    rewrite Z.pow_succ_r by lia. lia.
  - rewrite Pos2Z.inj_succ. destruct IH as [[H1 H2] H3].
    rewrite Z.pow_succ_r by lia. replace (Z.succ (Z.pos (digits2_pos p)) - 1) with (Z.succ (Z.pos (digits2_pos p) - 1)) by lia.
    rewrite Z.pow_succ_r by lia. lia.
  - cbn. lia.
Qed.
Lemma Zdigits2_unique m d : 2 ^ (d - 1) <= m < 2 ^ d -> 0 < d -> Zdigits2 m = d.
Proof.
  intros Hm Hd. assert (0 < m) as H0 by (pose proof (Z.pow_pos_nonneg 2 (d - 1)); lia).
  destruct (Zdigits2_spec m H0) as [Hs Hp].
  destruct (Z.lt_trichotomy (Zdigits2 m) d) as [H|[H|H]]; [|done|].
  - pose proof (Z.pow_le_mono_r 2 (Zdigits2 m) (d - 1)). lia.
  - pose proof (Z.pow_le_mono_r 2 d (Zdigits2 m - 1)). lia.
Qed.

(** A record of a shifted mantissa stands for a / b. *)
Definition rep (r : shr_record) (a b : Z) : Prop :=
  shr_m r = a / b /\
  match shr_r r, shr_s r with
  | false, false => a mod b = 0
  | false, true => 0 < a mod b /\ 2 * (a mod b) < b
  | true, false => 2 * (a mod b) = b
  | true, true => b < 2 * (a mod b)
  end.
Lemma shr_1_rep r a b : 0 <= a -> 0 < b -> rep r a b -> rep (shr_1 r) a (b * 2).
Proof.
  intros Ha Hb [Hm Hr]. destruct r as [m hr hs]. cbn [shr_m shr_r shr_s] in *.
  assert (0 <= m) as Hm0 by (rewrite Hm; by apply Z.div_pos).
  assert (a / (b * 2) = m / 2 /\ a mod (b * 2) = a mod b + b * (m mod 2)) as [Hd Hmod].
  { rewrite Hm, Z.div_div by lia. split; [done|]. by rewrite Z.rem_mul_r by lia. }
  pose proof (Z.mod_pos_bound a b Hb).
  assert (exists q, shr_1 (Build_shr_record m hr hs) = Build_shr_record (m / 2) q (hr || hs) /\
    m mod 2 = if q then 1 else 0) as (q & -> & Hq).
  { destruct m as [|[p|p|]|p]; try lia; cbn [shr_1].
    - by exists false.
    - exists true. replace (Z.pos p~1) with (1 + Z.pos p * 2) by lia. rewrite Z.div_add, Z.mod_add by lia. done.
    - exists false. replace (Z.pos p~0) with (Z.pos p * 2) by lia. rewrite Z.div_mul, Z.mod_mul by lia. done.
    - by exists true. }
  split; cbn [shr_m shr_r shr_s]; [done|]. rewrite Hmod, Hq.
  destruct q, hr, hs; cbn [orb]; lia.
Qed.
Lemma iter_pos_rep p : forall r a b, 0 <= a -> 0 < b -> rep r a b -> rep (SpecFloat.iter_pos shr_1 p r) a (b * 2 ^ Z.pos p).
Proof.
  induction p as [p IH|p IH|]; intros r a b Ha Hb Hr; cbn [SpecFloat.iter_pos].
  - pose proof (Z.pow_pos_nonneg 2 (Z.pos p)). replace (b * 2 ^ Z.pos p~1) with (b * 2 * 2 ^ Z.pos p * 2 ^ Z.pos p).
    + apply IH; [done|lia|]. apply IH; [done|lia|]. by apply shr_1_rep.
    + replace (Z.pos p~1) with (1 + Z.pos p + Z.pos p) by lia. rewrite !Z.pow_add_r by lia. lia.
  - pose proof (Z.pow_pos_nonneg 2 (Z.pos p)). replace (b * 2 ^ Z.pos p~0) with (b * 2 ^ Z.pos p * 2 ^ Z.pos p).
    + apply IH; [done|lia|]. by apply IH.
    + replace (Z.pos p~0) with (Z.pos p + Z.pos p) by lia. rewrite !Z.pow_add_r by lia. lia.
  - by apply shr_1_rep.
Qed.
Lemma rep_round r a b : 0 < b -> rep r a b -> round_nearest_even (shr_m r) (loc_of_shr_record r) = div_nearest_even a b.
Proof.
  intros Hb [Hm Hr]. unfold div_nearest_even. rewrite <-Hm. destruct r as [m [] []]; cbn [shr_m shr_r shr_s] in *; cbn;
    destruct (Z.compare_spec (2 * (a mod b)) b); try lia; done.
Qed.
Lemma loc_rep a b : 0 < b -> rep (shr_record_of_loc (a / b) (new_location b (a mod b))) a b.
Proof.
  intros Hb. pose proof (Z.mod_pos_bound a b Hb). unfold new_location, new_location_even, new_location_odd.
  destruct (Z.even b) eqn:He; destruct (Z.eqb_spec (a mod b) 0) as [H0|H0]; try (split; [done|]; cbn; lia).
  - destruct (Z.compare_spec (2 * (a mod b)) b); split; cbn; done || lia.
  - assert (2 * (a mod b) <> b) as Hne.
    { intros E. rewrite <-E, Z.even_mul in He. done. }
    destruct (Z.compare_spec (2 * (a mod b) + 1) b); split; cbn; done || lia.
Qed.

(** The result of rounding a / b * 2^ex, when the quotient has 53 bits or
    more: the mantissa has 53 bits, and its value is the nearest one. *)
Lemma round_aux_spec sx a b ex l :
  0 < b -> 2 ^ 52 <= a / b -> rep (shr_record_of_loc (a / b) l) a b ->
  -1074 <= ex -> ex + Zdigits2 (a / b) <= 1000 ->
  exists m e, binary_round_aux 53 1024 sx (a / b) ex l = S754_finite sx m e /\ 2 ^ 52 <= Z.pos m < 2 ^ 53 /\ ex <= e /\
    (let n := Zdigits2 (a / b) - 53 in Z.pos m * 2 ^ (e - ex) = div_nearest_even a (b * 2 ^ n) * 2 ^ n /\
      2 ^ 52 * (b * 2 ^ n) <= a).
Proof.
  intros Hb Hq Hr Hex1 Hex2. set (q := a / b) in *. destruct (Zdigits2_spec q ltac:(lia)) as [Hd Hd0].
  assert (53 <= Zdigits2 q) as Hd53.
  { destruct (Z.le_gt_cases 53 (Zdigits2 q)); [done|]. pose proof (Z.pow_le_mono_r 2 (Zdigits2 q) 52). lia. }
  set (n := Zdigits2 q - 53). assert (0 <= a) as Ha.
  { destruct (Z.le_gt_cases 0 a); [done|]. assert (a / b < 0) by (apply Z.div_lt_upper_bound; lia). fold q in H0. lia. }
  assert (Hn2 : 0 < 2 ^ n) by (apply Z.pow_pos_nonneg; lia).
  assert (shr_fexp 53 1024 q ex l = shr (shr_record_of_loc q l) ex n) as E1.
  { unfold shr_fexp. f_equal. unfold fexp, emin. lia. }
  assert (exists r, shr (shr_record_of_loc q l) ex n = (r, ex + n) /\ rep r a (b * 2 ^ n)) as (r & E2 & Hrep).
  { unfold shr. destruct n as [|p|p] eqn:En; [|eexists; split; [done|by apply iter_pos_rep]|lia].
    eexists. split; [f_equal; lia|]. by rewrite Z.mul_1_r. }
  unfold binary_round_aux. rewrite E1, E2. rewrite (rep_round r a (b * 2 ^ n)) by (done || lia).
  set (R := div_nearest_even a (b * 2 ^ n)).
  assert (2 ^ 52 * (b * 2 ^ n) <= a < 2 ^ 53 * (b * 2 ^ n)) as HRa.
  { pose proof (Z.div_mod a b ltac:(lia)) as E. fold q in E. pose proof (Z.mod_pos_bound a b Hb).
    assert (2 ^ 52 * 2 ^ n <= q < 2 ^ 53 * 2 ^ n) as Hqn.
    { rewrite <-!Z.pow_add_r by lia. replace (52 + n) with (Zdigits2 q - 1) by lia. replace (53 + n) with (Zdigits2 q) by lia. done. }
    nia. }
  pose proof (div_nearest_error a (b * 2 ^ n) ltac:(lia)) as Herr. fold R in Herr.
  assert (2 ^ 52 <= R <= 2 ^ 53) as HR by nia.
  destruct (decide (R = 2 ^ 53)) as [->|Hlt].
  - exists 4503599627370496%positive, (ex + n + 1).
    assert (shr_fexp 53 1024 (2 ^ 53) (ex + n) loc_Exact = (Build_shr_record (2 ^ 52) false false, ex + n + 1)) as ->.
    { unfold shr_fexp. change (Zdigits2 (2 ^ 53)) with 54.
      replace (fexp 53 1024 (54 + (ex + n)) - (ex + n)) with 1 by (unfold fexp, emin; lia). done. }
    cbn [shr_m]. change (2 ^ 52) with 4503599627370496.
    destruct (Z.leb_spec (ex + n + 1) (1024 - 53)); [|lia]. split_and!; try done; try lia.
    replace (ex + n + 1 - ex) with (n + 1) by lia. rewrite Z.pow_add_r by lia. lia.
  - assert (Zdigits2 R = 53) as HdR by (apply Zdigits2_unique; lia).
    assert (shr_fexp 53 1024 R (ex + n) loc_Exact = (Build_shr_record R false false, ex + n)) as ->.
    { unfold shr_fexp. rewrite HdR. replace (fexp 53 1024 (53 + (ex + n)) - (ex + n)) with 0 by (unfold fexp, emin; lia). done. }
    cbn [shr_m]. destruct R as [|m|m] eqn:ER; try lia. exists m, (ex + n).
    destruct (Z.leb_spec (ex + n) (1024 - 53)); [|lia]. split_and!; try done; try lia.
    by replace (ex + n - ex) with n by lia.
Qed.

(** A normal double holds 53 bits. *)
Definition normal (m e : Z) (x : double) : Prop :=
  exists p, x = S754_finite false p e /\ Z.pos p = m /\ 2 ^ 52 <= m < 2 ^ 53.

Lemma shl_align_spec p d : 0 <= d -> fst (shl_align p 0 (- d)) = Z.to_pos (Z.pos p * 2 ^ d) /\ snd (shl_align p 0 (- d)) = - d.
Proof.
  intros Hd. unfold shl_align. destruct d as [|n|]; [|clear Hd|lia].
  - change (- 0 - 0) with 0. cbn [fst snd]. by rewrite Z.mul_1_r.
  - change (- Z.pos n - 0) with (Z.neg n). cbn [fst snd]. split; [|done]. apply (inj Z.pos).
    rewrite Z2Pos.id by (pose proof (Z.pow_pos_nonneg 2 (Z.pos n)); lia).
    induction n as [|n IH] using Pos.peano_ind; [change (2 ^ 1) with 2; cbn; lia|].
    rewrite Pos.iter_succ, Pos2Z.inj_succ, Z.pow_succ_r, Pos2Z.inj_xO, IH by lia. ring.
Qed.

(** Integers below 2^53 are doubles. *)
Lemma d_of_Z_exact s : 0 < s < 2 ^ 53 -> exists e, -52 <= e <= 0 /\ normal (s * 2 ^ (- e)) e (d_of_Z s).
Proof.
  intros Hs. destruct (Zdigits2_spec s ltac:(lia)) as [Hd Hd0].
  assert (Zdigits2 s <= 53) as Hd53.
  { destruct (Z.le_gt_cases (Zdigits2 s) 53); [done|]. pose proof (Z.pow_le_mono_r 2 53 (Zdigits2 s - 1)). lia. }
  set (k := 53 - Zdigits2 s). exists (- k).
  assert (2 ^ 52 <= s * 2 ^ k < 2 ^ 53) as Hm.
  { assert (2 ^ 52 = 2 ^ (Zdigits2 s - 1) * 2 ^ k) as E1 by (rewrite <-Z.pow_add_r by lia; f_equal; lia).
    assert (2 ^ 53 = 2 ^ Zdigits2 s * 2 ^ k) as E2 by (rewrite <-Z.pow_add_r by lia; f_equal; lia).
    assert (0 < 2 ^ k) by (apply Z.pow_pos_nonneg; lia). rewrite E1, E2. nia. }
  split; [lia|]. rewrite Z.opp_involutive.
  destruct s as [|p|]; try lia. unfold d_of_Z, binary_normalize, binary_round.
  replace (fexp 53 1024 (Z.pos (digits2_pos p) + 0)) with (- k) by (unfold fexp, emin, k; cbn [Zdigits2] in *; lia).
  destruct (shl_align_spec p k ltac:(lia)) as [E1 E2].
  destruct (shl_align p 0 (- k)) as [mz ez]. cbn [fst snd] in *. subst mz ez.
  rewrite Z2Pos.id by lia. set (a := Z.pos p * 2 ^ k) in *.
  assert (Zdigits2 a = 53) as Da by (apply Zdigits2_unique; lia).
  destruct (round_aux_spec false a 1 (- k) loc_Exact) as (m & e & E & Hm' & He & Hv); try (rewrite ?Z.div_1_r; lia).
  { rewrite Z.div_1_r. split; [by rewrite Z.div_1_r|apply Z.mod_1_r]. }
  rewrite Z.div_1_r in E, Hv. rewrite E. rewrite Da in Hv. cbn -[Z.pow div_nearest_even] in Hv. destruct Hv as [Hv _].
  rewrite div_nearest_exact, Z.div_1_r in Hv by (lia || apply Z.mod_1_r).
  assert (e = - k) as ->.
  { destruct (Z.eq_dec e (- k)); [done|]. pose proof (Z.pow_le_mono_r 2 1 (e - - k)). nia. }
  rewrite Z.sub_diag in Hv. exists m. split_and!; [done|lia|lia|lia].
Qed.

(** Quotients of doubles are within 2^-53 of the exact ones. *)
Lemma d_div_normal m1 e1 m2 e2 x y :
  normal m1 e1 x -> normal m2 e2 y -> -60 <= e1 <= 0 -> -60 <= e2 <= 0 ->
  exists m X, normal m (e1 - e2 - 53 + X) (d_div x y) /\ 0 <= X /\
    2 ^ 53 * Z.abs (m * 2 ^ X * m2 - m1 * 2 ^ 53) <= m1 * 2 ^ 53 /\
    (m2 = 2 ^ 52 -> m * 2 ^ X * m2 = m1 * 2 ^ 53).
Proof.
  intros (p1 & -> & <- & H1) (p2 & -> & <- & H2) He1 He2. unfold d_div, SFdiv, SFdiv_core_binary.
  assert (Zdigits2 (Z.pos p1) = 53 /\ Zdigits2 (Z.pos p2) = 53) as [-> ->] by (split; apply Zdigits2_unique; lia).
  replace (Z.min (fexp 53 1024 (53 + e1 - (53 + e2))) (e1 - e2)) with (e1 - e2 - 53) by (unfold fexp, emin; lia).
  replace (e1 - e2 - (e1 - e2 - 53)) with 53 by lia. cbn [xorb]. rewrite Z.shiftl_mul_pow2 by lia.
  set (a := Z.pos p1 * 2 ^ 53). set (b := Z.pos p2) in *.
  assert (Z.div_eucl a b = (a / b, a mod b)) as -> by (unfold Z.div, Z.modulo; by destruct (Z.div_eucl a b)).
  pose proof (Z.div_mod a b ltac:(lia)) as Ed. pose proof (Z.mod_pos_bound a b ltac:(lia)).
  assert (2 ^ 52 <= a / b < 2 ^ 54) as Hq by (subst a; split; [apply Z.div_le_lower_bound|apply Z.div_lt_upper_bound]; lia).
  assert (Zdigits2 (a / b) <= 54) as Hd54.
  { destruct (Zdigits2_spec (a / b) ltac:(lia)) as [Hd Hd0]. destruct (Z.le_gt_cases (Zdigits2 (a / b)) 54); [done|].
    pose proof (Z.pow_le_mono_r 2 54 (Zdigits2 (a / b) - 1)). lia. }
  destruct (round_aux_spec false a b (e1 - e2 - 53) (new_location b (a mod b))) as (m & e & E & Hm & He & Hv & Ha);
    try lia; [by apply loc_rep|].
  exists (Z.pos m), (e - (e1 - e2 - 53)). replace (e1 - e2 - 53 + (e - (e1 - e2 - 53))) with e by lia.
  set (n := Zdigits2 (a / b) - 53) in *. assert (0 < 2 ^ n).
  { apply Z.pow_pos_nonneg; [lia|]. destruct (Z.le_gt_cases 0 n); [done|].
    destruct (Zdigits2_spec (a / b) ltac:(lia)) as [Hd Hd0]. pose proof (Z.pow_le_mono_r 2 (Zdigits2 (a / b)) 52). lia. }
  pose proof (div_nearest_error a (b * 2 ^ n) ltac:(nia)) as Herr.
  split_and!; [by exists m|lia| |].
  2: { intros Eb. assert (a / b = Z.pos p1 * 2) as Eq.
       { subst a. rewrite Eb. change (2 ^ 53) with (2 * 2 ^ 52). by rewrite Z.mul_assoc, Z.div_mul. }
       assert (n = 1) as En by (unfold n; rewrite Eq, (Zdigits2_unique _ 54); lia).
       assert (b * 2 ^ n = 2 ^ 53) as Ebn by (rewrite En, Eb; done).
       rewrite Hv, Ebn, div_nearest_exact by (done || (subst a; by rewrite Z.mod_mul)).
       unfold a. rewrite Z.div_mul, En by done. lia. }
  rewrite Hv. set (R := div_nearest_even a (b * 2 ^ n)) in *.
  replace (R * 2 ^ n * b) with (R * (b * 2 ^ n)) by ring. lia.
Qed.

Lemma d_div_near s U : 0 < s < 2 ^ 53 -> 4 <= U < 2 ^ 53 ->
  exists m w, normal m (- w) (d_div (d_of_Z s) (d_of_Z U)) /\ 0 < w /\ 2 ^ 53 * Z.abs (m * U - s * 2 ^ w) <= s * 2 ^ w.
Proof.
  intros Hs HU. destruct (d_of_Z_exact s Hs) as (e1 & He1 & N1). destruct (d_of_Z_exact U ltac:(lia)) as (e2 & He2 & N2).
  destruct (d_div_normal _ _ _ _ _ _ N1 N2 ltac:(lia) ltac:(lia)) as (m & X & N & HX & Herr & _).
  assert (2 ^ 52 <= m) as Hm by (destruct N as (? & _ & _ & ?); lia).
  set (T := 2 ^ (- e2)) in *. set (S1 := 2 ^ (- e1)) in *. set (P := 2 ^ X) in *.
  assert (0 < T /\ 0 < S1 /\ 0 < P) as (HT & HS1 & HP) by (split_and!; apply Z.pow_pos_nonneg; lia).
  set (w := - (e1 - e2 - 53 + X)).
  assert (0 < w) as Hw.
  { destruct (Z.lt_ge_cases 0 w) as [|Hle]; [done|exfalso].
    assert (S1 * 2 ^ 53 <= P * T) as Hpow.
    { unfold S1, P, T. rewrite <-!Z.pow_add_r by lia. apply Z.pow_le_mono_r; lia. }
    assert (m * P * (U * T) <= 2 * (s * S1 * 2 ^ 53)) as Hle1 by lia.
    assert (2 ^ 52 * 4 * (P * T) <= m * U * (P * T)).
    { apply Z.mul_le_mono_nonneg_r; [lia|]. apply Z.mul_le_mono_nonneg; lia. }
    assert (s * (S1 * 2 ^ 53) <= s * (P * T)) by (apply Z.mul_le_mono_nonneg_l; lia).
    assert (s * (P * T) < 2 ^ 53 * (P * T)) by (apply Z.mul_lt_mono_pos_r; lia). lia. }
  exists m, w. split_and!; [|done|].
  { unfold w. by rewrite Z.opp_involutive. }
  assert (S1 * 2 ^ 53 = 2 ^ w * (P * T)) as Hpow.
  { unfold S1, P, T. rewrite <-!Z.pow_add_r by lia. f_equal. lia. }
  assert (s * S1 * 2 ^ 53 = s * 2 ^ w * (P * T)) as EA by (rewrite <-(Z.mul_assoc s S1), Hpow; ring).
  replace (m * P * (U * T) - s * S1 * 2 ^ 53) with ((m * U - s * 2 ^ w) * (P * T)) in Herr by (rewrite EA; ring).
  rewrite EA in Herr.
  rewrite Z.abs_mul, (Z.abs_eq (P * T)) in Herr by lia.
  assert (0 < P * T) as HPT by lia. revert Herr HPT. generalize (P * T), (Z.abs (m * U - s * 2 ^ w)), (s * 2 ^ w). clear.
  intros a b c. nia.
Qed.

(** The printed quotient is the nearest decimal of the exact one, although
    the division has rounded. *)
Lemma fmt_quotient k s V : 0 < s < 2 ^ 53 -> 0 < V -> Z.even V = true -> 4 <= V * 10 ^ Z.of_nat k < 2 ^ 53 ->
  exists q, fmt_f k (d_div (d_of_Z s) (d_of_Z (V * 10 ^ Z.of_nat k))) = fmt_scaled k q /\ 2 * Z.abs (q * V - s) <= V.
Proof.
  intros Hs HV Hev HU. set (K := 10 ^ Z.of_nat k) in *. assert (0 < K) by (apply Z.pow_pos_nonneg; lia).
  destruct (d_div_near s (V * K) Hs HU) as (m & w & (p & E & Hp & Hm) & Hw & Herr).
  rewrite E. cbn [fmt_f sign app]. unfold scaled. fold K. rewrite Z.opp_involutive.
  rewrite (proj2 (Z.leb_gt _ _)) by lia. rewrite Hp.
  set (W := 2 ^ w) in *. assert (0 < W) as HW by (apply Z.pow_pos_nonneg; lia).
  exists (div_nearest_even (m * K) W). split; [done|].
  pose proof (div_nearest_error (m * K) W HW) as Hn. set (q := div_nearest_even (m * K) W) in *.
  assert (Z.abs (m * (V * K) - s * W) < W) as H1.
  { assert (s * W < 2 ^ 53 * W) by nia. lia. }
  assert (2 * Z.abs (q * W * V - m * K * V) <= W * V) as H2.
  { rewrite <-Z.mul_sub_distr_r, Z.abs_mul, (Z.abs_eq V), Z.mul_assoc by lia. apply Z.mul_le_mono_nonneg_r; lia. }
  assert (W * (2 * Z.abs (q * V - s)) < W * (V + 2)) as H3.
  { rewrite <-(Z.abs_eq W) at 1 by lia. rewrite Z.mul_assoc, (Z.mul_comm _ 2), <-Z.mul_assoc, <-Z.abs_mul.
    replace (W * (q * V - s)) with (q * W * V - m * K * V + (m * (V * K) - s * W)) by ring. lia. }
  apply Z.even_spec in Hev as [v ->]. apply Z.mul_lt_mono_pos_l in H3; lia.
Qed.

(** Division by a power of two is exact. *)
Lemma fmt_quotient_pow2 k s j : 0 < s < 2 ^ 53 -> 0 < j < 53 ->
  fmt_f k (d_div (d_of_Z s) (d_of_Z (2 ^ j))) = fmt_scaled k (div_nearest_even (s * 10 ^ Z.of_nat k) (2 ^ j)).
Proof.
  intros Hs Hj. destruct (d_of_Z_exact s Hs) as (e1 & He1 & N1).
  assert (2 <= 2 ^ j < 2 ^ 53) as H2 by (split; [apply (Z.pow_le_mono_r 2 1)|apply Z.pow_lt_mono_r]; lia).
  destruct (d_of_Z_exact (2 ^ j) ltac:(lia)) as (e2 & He2 & N2).
  assert (- e2 = 52 - j) as Ee2.
  { destruct N2 as (_ & _ & _ & H). rewrite <-Z.pow_add_r in H by lia.
    destruct (Z.lt_trichotomy (j - e2) 52) as [Hl|[Hl|Hl]]; [|lia|].
    - pose proof (Z.pow_lt_mono_r 2 (j + - e2) 52). lia.
    - pose proof (Z.pow_le_mono_r 2 53 (j + - e2)). lia. }
  assert (2 ^ j * 2 ^ (- e2) = 2 ^ 52) as E52 by (rewrite <-Z.pow_add_r by lia; f_equal; lia).
  rewrite E52 in N2. destruct (d_div_normal _ _ _ _ _ _ N1 N2 ltac:(lia) ltac:(lia)) as (m & X & (p & E & Hp & Hm) & HX & _ & Hex).
  specialize (Hex eq_refl). assert (X = 1 /\ m = s * 2 ^ (- e1)) as [-> Em].
  { destruct N1 as (_ & _ & _ & H1). destruct (Z.eq_dec X 0) as [->|]; [lia|].
    destruct (Z.eq_dec X 1) as [->|]; [lia|]. pose proof (Z.pow_le_mono_r 2 2 X). nia. }
  rewrite E. cbn [fmt_f sign app]. unfold scaled. rewrite Hp, Em.
  replace (- (e1 - e2 - 53 + 1)) with (j + - e1) by lia. f_equal.
  destruct (Z.leb_spec 0 (e1 - e2 - 53 + 1)); [lia|]. rewrite Z.pow_add_r by lia.
  set (S1 := 2 ^ (- e1)). assert (0 < S1) by (apply Z.pow_pos_nonneg; lia).
  replace (s * S1 * 10 ^ Z.of_nat k) with (s * 10 ^ Z.of_nat k * S1) by ring.
  apply div_nearest_scale; lia.
Qed.

(** * Comparison *)

Definition d_lt : double -> double -> bool := SFltb.

Lemma d_lt_normal m1 e1 m2 e2 x y : normal m1 e1 x -> normal m2 e2 y -> -60 <= e1 -> -60 <= e2 ->
  d_lt x y = (m1 * 2 ^ (e1 + 60) <? m2 * 2 ^ (e2 + 60)).
Proof.
  intros (p1 & -> & <- & H1) (p2 & -> & <- & H2) He1 He2. unfold d_lt, SFltb. cbn [SFcompare].
  assert (0 < 2 ^ (e1 + 60) /\ 0 < 2 ^ (e2 + 60)) as [Hp1 Hp2] by (split; apply Z.pow_pos_nonneg; lia).
  destruct (Z.compare_spec e1 e2) as [->|Hlt|Hgt].
  - change (Pos.compare_cont Eq p1 p2) with (Z.pos p1 ?= Z.pos p2).
    rewrite (Zmult_compare_compat_r _ _ (2 ^ (e2 + 60))) by lia. done.
  - symmetry. apply Z.ltb_lt. pose proof (Z.pow_le_mono_r 2 (Z.succ (e1 + 60)) (e2 + 60) ltac:(lia) ltac:(lia)) as Hp.
    rewrite Z.pow_succ_r in Hp by lia. apply Z.lt_le_trans with (2 ^ 53 * 2 ^ (e1 + 60)); [apply Z.mul_lt_mono_pos_r; lia|].
    apply Z.le_trans with (2 ^ 52 * (2 * 2 ^ (e1 + 60))); [lia|]. apply Z.mul_le_mono_nonneg; lia.
  - symmetry. apply Z.ltb_ge. pose proof (Z.pow_le_mono_r 2 (Z.succ (e2 + 60)) (e1 + 60) ltac:(lia) ltac:(lia)) as Hp.
    rewrite Z.pow_succ_r in Hp by lia. apply Z.le_trans with (2 ^ 53 * 2 ^ (e2 + 60)); [apply Z.mul_le_mono_nonneg_r; lia|].
    apply Z.le_trans with (2 ^ 52 * (2 * 2 ^ (e2 + 60))); [lia|]. apply Z.mul_le_mono_nonneg; lia.
Qed.

(** The least integer that is not below a double, checked by evaluation. *)
Definition ceiling_is (c : double) (T : Z) : bool :=
  match c with
  | S754_finite false p e => (2 ^ 52 <=? Z.pos p) && (Z.pos p <? 2 ^ 53) && (-60 <=? e) &&
      ((T - 1) * 2 ^ 60 <? Z.pos p * 2 ^ (e + 60)) && (Z.pos p * 2 ^ (e + 60) <=? T * 2 ^ 60)
  | _ => false
  end.
Lemma d_lt_ceiling c T s : ceiling_is c T = true -> 0 < s < 2 ^ 53 -> d_lt (d_of_Z s) c = (s <? T).
Proof.
  intros Hc Hs. destruct c as [| | |[] p e]; try done. unfold ceiling_is in Hc. rewrite !andb_true_iff in Hc.
  destruct (d_of_Z_exact s Hs) as (e1 & He1 & N1).
  assert (normal (Z.pos p) e (S754_finite false p e)) as N2 by (exists p; split_and!; done || lia).
  rewrite (d_lt_normal _ _ _ _ _ _ N1 N2) by lia.
  rewrite <-Z.mul_assoc, <-Z.pow_add_r by lia. replace (- e1 + (e1 + 60)) with 60 by lia.
  apply eq_true_iff_eq. rewrite !Z.ltb_lt. lia.
Qed.

(** * Whole numbers *)

Lemma normal_unique m1 e1 m2 e2 x y K : normal m1 e1 x -> normal m2 e2 y -> 0 <= e1 + K -> 0 <= e2 + K ->
  m1 * 2 ^ (e1 + K) = m2 * 2 ^ (e2 + K) -> x = y.
Proof.
  assert (forall m e m' e', 2 ^ 52 <= m' -> m < 2 ^ 53 -> 0 <= e + K -> e < e' -> m * 2 ^ (e + K) = m' * 2 ^ (e' + K) -> False) as Hlt.
  { intros m e m' e' Hm' Hm He Hee E. pose proof (Z.pow_le_mono_r 2 (Z.succ (e + K)) (e' + K) ltac:(lia) ltac:(lia)) as Hp.
    rewrite Z.pow_succ_r in Hp by lia. assert (0 < 2 ^ (e + K)) by (apply Z.pow_pos_nonneg; lia).
    assert (2 ^ 52 * (2 * 2 ^ (e + K)) <= m' * 2 ^ (e' + K)) by (apply Z.mul_le_mono_nonneg; lia).
    assert (m * 2 ^ (e + K) < 2 ^ 53 * 2 ^ (e + K)) by (apply Z.mul_lt_mono_pos_r; lia). lia. }
  intros (p1 & -> & <- & H1) (p2 & -> & <- & H2) He1 He2 E.
  destruct (Z.lt_trichotomy e1 e2) as [Hl|[<-|Hl]].
  - exfalso. apply (Hlt (Z.pos p1) e1 (Z.pos p2) e2); done || lia.
  - apply Z.mul_cancel_r in E; [by injection E as ->|]. assert (0 < 2 ^ (e1 + K)) by (apply Z.pow_pos_nonneg; lia). lia.
  - exfalso. apply (Hlt (Z.pos p2) e2 (Z.pos p1) e1); done || lia.
Qed.

Lemma d_mul_exact a b : 0 < a -> 0 < b -> a * b < 2 ^ 53 -> d_mul (d_of_Z a) (d_of_Z b) = d_of_Z (a * b).
Proof.
  intros Ha Hb Hab. assert (a < 2 ^ 53 /\ b < 2 ^ 53) as [Ha2 Hb2] by nia.
  destruct (d_of_Z_exact a ltac:(lia)) as (e1 & He1 & p1 & -> & Hp1 & H1).
  destruct (d_of_Z_exact b ltac:(lia)) as (e2 & He2 & p2 & -> & Hp2 & H2).
  destruct (d_of_Z_exact (a * b) ltac:(nia)) as (e3 & He3 & N3). unfold d_mul, SFmul. cbn [xorb].
  set (P := Z.pos p1 * Z.pos p2). change (Z.pos (p1 * p2)) with P. set (ex := e1 + e2).
  assert (P = a * b * 2 ^ (- ex)) as EP.
  { unfold P, ex. rewrite Hp1, Hp2. replace (- (e1 + e2)) with (- e1 + - e2) by lia. rewrite Z.pow_add_r by lia. ring. }
  assert (2 ^ 52 <= P) as HP by (unfold P; nia). assert (0 < 2 ^ (- ex)) as H2x by (apply Z.pow_pos_nonneg; lia).
  destruct (Zdigits2_spec P ltac:(lia)) as [Hd Hd0]. set (n := Zdigits2 P - 53).
  assert (0 <= n <= - ex) as Hn.
  { split.
    - destruct (Z.le_gt_cases 53 (Zdigits2 P)); [lia|]. pose proof (Z.pow_le_mono_r 2 (Zdigits2 P) 52). lia.
    - destruct (Z.le_gt_cases (Zdigits2 P - 53) (- ex)); [done|].
      pose proof (Z.pow_le_mono_r 2 (53 + - ex) (Zdigits2 P - 1) ltac:(lia) ltac:(lia)) as Hle.
      rewrite Z.pow_add_r in Hle by lia. nia. }
  destruct (round_aux_spec false P 1 ex loc_Exact) as (m & e & E & Hm & He & Hv); try (rewrite ?Z.div_1_r; lia).
  { rewrite Z.div_1_r. split; [by rewrite Z.div_1_r|apply Z.mod_1_r]. }
  rewrite Z.div_1_r in E, Hv. rewrite E. fold n in Hv. cbv zeta in Hv. rewrite Z.mul_1_l in Hv. destruct Hv as [Hv _].
  assert (0 < 2 ^ n) as H2n by (apply Z.pow_pos_nonneg; lia).
  assert (P = a * b * 2 ^ (- ex - n) * 2 ^ n) as EPn.
  { rewrite EP, <-(Z.mul_assoc (a * b) (2 ^ (- ex - n))), <-Z.pow_add_r by lia. f_equal. f_equal. lia. }
  rewrite div_nearest_exact in Hv by (lia || (rewrite EPn; by apply Z.mod_mul; lia)).
  rewrite EPn in Hv at 1. rewrite Z.div_mul, <-EPn, EP in Hv by lia.
  eapply (normal_unique (Z.pos m) e _ e3 _ _ 200); [by exists m|done|lia|lia|].
  replace (e + 200) with (e - ex + (ex + 200)) by lia. rewrite Z.pow_add_r, Z.mul_assoc, Hv by lia.
  rewrite <-!Z.mul_assoc, <-!Z.pow_add_r by lia. do 3 f_equal. lia.
Qed.

Lemma d_to_int64_exact k : 0 <= k < 2 ^ 53 -> d_to_int64 (d_of_Z k) = Ok k.
Proof.
  intros Hk. destruct (Z.eq_dec k 0) as [->|Hne]; [done|].
  destruct (d_of_Z_exact k ltac:(lia)) as (e & He & p & -> & Hp & _). unfold d_to_int64. cbn [d_trunc].
  rewrite Z.shiftl_div_pow2, Hp, Z.div_mul by (pose proof (Z.pow_pos_nonneg 2 (- e)); lia).
  rewrite bool_decide_eq_true_2; [done|]. unfold srange. lia.
Qed.

(** A whole number of seconds, scaled. *)
Lemma seconds_scaled k u : 0 <= k -> 0 < u -> k * u < 2 ^ 53 -> u < 2 ^ 53 ->
  d_to_int64 (d_mul (d_of_Z k) (d_of_Z u)) = Ok (k * u).
Proof.
  intros Hk Hu Hku Hu2. destruct (Z.eq_dec k 0) as [->|Hne].
  - destruct (d_of_Z_exact u ltac:(lia)) as (e & He & p & -> & _). done.
  - rewrite d_mul_exact by lia. apply d_to_int64_exact. nia.
Qed.
