(* ===== verification/BaseProcessInfo.v ===== *)
(** src/muduo/base/ProcessInfo.h and ProcessInfo.cc: what a process knows of
    itself.

    The answers of system calls are parameters: the directory entries of
    /proc/self, the text of its files ([readFile], which gives the error and
    at most 65536 bytes), the password entry, the host name, the limits.  The
    file also has the C library's number reader and the searches of
    std::string the code uses. *)

From stdpp Require Import sorting.
From S2P Require Import Prelude BaseTimestamp BaseStringPiece.

(** * <stdlib.h> and std::string *)

Definition isspace (c : Z) : bool := (c =? 32) || ((9 <=? c) && (c <=? 13)).
Definition isdigit (c : Z) : bool := (48 <=? c) && (c <=? 57).
Fixpoint skip (f : Z -> bool) (s : bytes) : bytes :=
  match s with c :: s' => if f c then skip f s' else s | [] => [] end.
Fixpoint span (f : Z -> bool) (s : bytes) : bytes :=
  match s with c :: s' => if f c then c :: span f s' else [] | [] => [] end.
Definition clamp64 (x : Z) : Z := Z.max (- 2 ^ 63) (Z.min (2 ^ 63 - 1) x).
(** [strtol(s, NULL, 10)] and [atol(s)]; the end of [s] stands for the NUL. *)
Definition strtol (s : bytes) : Z :=
  let s := skip isspace s in
  let '(neg, s) := match s with 45 :: s' => (true, s') | 43 :: s' => (false, s') | _ => (false, s) end in
  let v := dec_val 0 (span isdigit s) in
  clamp64 (if (neg : bool) then - v else v).
Definition atoi (s : bytes) : Z := i32 (strtol s).

(** [find]: the first position of a text, [None] for npos. *)
Fixpoint find (pat s : bytes) : option Z :=
  if bool_decide (pat `prefix_of` s) then Some 0
  else match s with [] => None | _ :: s' => Z.succ <$> find pat s' end.
(** [rfind(c)]: the last position of a character. *)
Fixpoint rfind (c : Z) (s : bytes) : option Z :=
  match s with
  | [] => None
  | x :: s' => match rfind c s' with
               | Some i => Some (1 + i)
               | None => if x =? c then Some 0 else None
               end
  end.

Module ProcessInfo.

(** * Directories *)

(** The filters given to scandir(3); they select nothing. *)
Definition fdDirFilter (d_name : bytes) (t_numOpenedFiles : Z) : Z :=
  match d_name with
  | c :: _ => if isdigit c then i32 (t_numOpenedFiles + 1) else t_numOpenedFiles
  | [] => t_numOpenedFiles
  end.
Definition taskDirFilter (d_name : bytes) (t_pids : list Z) : list Z :=
  match d_name with
  | c :: _ => if isdigit c then t_pids ++ [atoi d_name] else t_pids
  | [] => t_pids
  end.
Definition scanDir {A} (filter : bytes -> A -> A) (dir : list bytes) (acc : A) : A := foldl (fun a d => filter d a) acc dir.
Definition openedFiles (fd_dir : list bytes) : Z := scanDir fdDirFilter fd_dir 0.
(** [getrlimit] gives [rlim_cur], [None] on an error. *)
Definition maxOpenFiles (getrlimit : option Z) (fd_dir : list bytes) : Z :=
  match getrlimit with None => openedFiles fd_dir | Some rlim_cur => i32 rlim_cur end.
Definition threads (task_dir : list bytes) : list Z := merge_sort Z.le (scanDir taskDirFilter task_dir []).

(** * Names and numbers *)

Definition pidString (pid : Z) : bytes := snprintf 32 (fmt_d pid).
(** [getpwuid_r] finds an entry or not. *)
Definition username (pw_name : option bytes) : bytes := default (lit "unknownuser") pw_name.
(** What is in [buf] after gethostname, up to a NUL; [None] on an error. *)
Definition hostname (gethostname : option bytes) : bytes :=
  match gethostname with
  | Some name => let buf := ztake 255 name in ztake (StringPiece.strlen buf) buf
  | None => lit "unknownhost"
  end.
(** [readlink] gives at most the 1024 bytes asked for. *)
Definition exePath (readlink : option bytes) : bytes :=
  match readlink with Some path => ztake 1024 path | None => [] end.

(** A null piece when there are no parentheses. *)
Definition procname (stat : bytes) : StringPiece.t :=
  match find (lit "(") stat, rfind 41 stat with
  | Some lp, Some rp =>
      if lp <? rp then StringPiece.mk (zdrop (lp + 1) stat) (i32 (rp - lp - 1)) else StringPiece.mk [] 0
  | _, _ => StringPiece.mk [] 0
  end.

Section Files.
Context (readFile : bytes -> Z * bytes).
Definition procStatus : bytes := snd (readFile (lit "/proc/self/status")).
Definition procStat : bytes := snd (readFile (lit "/proc/self/stat")).
Definition threadStat (tid : Z) : bytes :=
  snd (readFile (snprintf 64 (lit "/proc/self/task/" ++ fmt_d tid ++ lit "/stat"))).
Definition numThreads : Z :=
  let status := procStatus in
  match find (lit "Threads:") status with
  | Some pos => atoi (zdrop (pos + 8) status)
  | None => 0
  end.
End Files.

Record CpuTime := mkCpuTime { userSeconds : double; systemSeconds : double }.
Definition zero_time : CpuTime := mkCpuTime (SpecFloat.S754_zero false) (SpecFloat.S754_zero false).
(** [times] gives the user and system ticks. *)
Definition cpuTime (clockTicksPerSecond : Z) (times : option (Z * Z)) : CpuTime :=
  match times with
  | Some (tms_utime, tms_stime) =>
      let hz := d_of_Z clockTicksPerSecond in
      mkCpuTime (d_div (d_of_Z tms_utime) hz) (d_div (d_of_Z tms_stime) hz)
  | None => zero_time
  end.

(** * Lemmas *)

Lemma skip_all f s1 s2 : Forall (fun c => f c = true) s1 -> skip f (s1 ++ s2) = skip f s2.
Proof. induction 1 as [|c s1 Hc _ IH]; [done|]. cbn. by rewrite Hc. Qed.
Lemma skip_none f c s : f c = false -> skip f (c :: s) = c :: s.
Proof. cbn. by intros ->. Qed.
Definition ends (f : Z -> bool) (s : bytes) : Prop := match s with c :: _ => f c = false | [] => True end.
Lemma span_all f s1 s2 : Forall (fun c => f c = true) s1 -> ends f s2 -> span f (s1 ++ s2) = s1.
Proof.
  intros H Hs. induction H as [|c s1 Hc _ IH]; cbn; [|by rewrite Hc, IH].
  destruct s2 as [|c s2]; [done|]. cbn in *. by rewrite Hs.
Qed.
Lemma fmt_d_isdigit x : 0 <= x -> Forall (fun c => isdigit c = true) (fmt_d x).
Proof.
  intros Hx. eapply Forall_impl; [by apply fmt_d_digits|]. intros c Hc. cbn in Hc. unfold isdigit. apply andb_true_iff. lia.
Qed.
Lemma fmt_d_cons x : 0 <= x -> exists c s, fmt_d x = c :: s /\ isdigit c = true.
Proof.
  intros Hx. pose proof (fmt_d_isdigit x Hx) as Hd. pose proof (fmt_d_val x Hx) as Hv.
  destruct (fmt_d x) as [|c s] eqn:E; [|exists c, s; by apply Forall_cons in Hd as [? _]].
  assert (x = 0) by done. subst x. done.
Qed.
(** A number is read past leading white space and up to what follows. *)
Lemma strtol_number ws x rest :
  Forall (fun c => isspace c = true) ws -> 0 <= x < 2 ^ 63 -> ends isdigit rest -> strtol (ws ++ fmt_d x ++ rest) = x.
Proof.
  intros Hws Hx Hr. unfold strtol. rewrite skip_all by done.
  destruct (fmt_d_cons x ltac:(lia)) as (c & s & E & Hc).
  assert (skip isspace (fmt_d x ++ rest) = fmt_d x ++ rest) as ->.
  { rewrite E. apply skip_none. unfold isdigit, isspace in *. lia. }
  pose proof (span_all isdigit (fmt_d x) rest (fmt_d_isdigit x ltac:(lia)) Hr) as Hs.
  assert (match fmt_d x ++ rest with 45 :: s' => (true, s') | 43 :: s' => (false, s') | _ => (false, fmt_d x ++ rest) end =
    (false, fmt_d x ++ rest)) as ->.
  { rewrite E. cbn [app]. unfold isdigit in Hc. destruct (decide (c = 45)) as [->|]; [done|].
    destruct (decide (c = 43)) as [->|]; [done|]. destruct c as [|p|p]; try done.
    repeat (destruct p as [p|p|]; try done). }
  rewrite Hs, fmt_d_val by lia. unfold clamp64. lia.
Qed.

(** [find] gives the first position at which the text stands. *)
Lemma find_spec pat s i : find pat s = Some i <->
  0 <= i <= zlen s /\ pat `prefix_of` zdrop i s /\ (forall j, 0 <= j < i -> ~ pat `prefix_of` zdrop j s).
Proof.
  revert i. induction s as [|c s IH]; intros i; cbn [find].
  - case_bool_decide as Hp; split.
    + intros [= <-]. split_and!; [done|done|done|lia].
    + intros (Hi & _). f_equal. unfold zlen in Hi. cbn in Hi. lia.
    + done.
    + intros (Hi & Hp' & _). destruct Hp. unfold zdrop in Hp'. by rewrite drop_nil in Hp'.
  - pose proof (zlen_nonneg s). case_bool_decide as Hp.
    + split.
      * intros [= <-]. split_and!; [done|rewrite zlen_cons; lia|done|lia].
      * intros (Hi & _ & Hn). destruct (decide (i = 0)) as [->|]; [done|]. destruct (Hn 0); [lia|done].
    + assert (forall j, 0 < j -> zdrop j (c :: s) = zdrop (j - 1) s) as Hd.
      { intros j Hj. unfold zdrop. replace (Z.to_nat j) with (S (Z.to_nat (j - 1))) by lia. done. }
      rewrite fmap_Some. setoid_rewrite IH. split.
      * intros (k & (Hk & Hpk & Hn) & ->). rewrite zlen_cons. split_and!; [lia|lia| |].
        -- rewrite Hd by lia. by replace (Z.succ k - 1) with k by lia.
        -- intros j Hj. destruct (decide (j = 0)) as [->|]; [done|]. rewrite Hd by lia. apply Hn. lia.
      * rewrite zlen_cons. intros (Hi & Hpi & Hn). destruct (decide (i = 0)) as [->|]; [done|].
        exists (i - 1). split; [|lia]. rewrite Hd in Hpi by lia. split_and!; [lia|lia|done|].
        intros j Hj. specialize (Hn (j + 1) ltac:(lia)). rewrite Hd in Hn by lia. by replace (j + 1 - 1) with j in Hn by lia.
Qed.
Lemma find_char c s1 s2 : c ∉ s1 -> find [c] (s1 ++ c :: s2) = Some (zlen s1).
Proof.
  intros Hc. apply find_spec. rewrite zlen_app, zlen_cons. pose proof (zlen_nonneg s1). pose proof (zlen_nonneg s2).
  split_and!; [lia|lia| |].
  - rewrite zdrop_app_exact by done. by exists s2.
  - intros j Hj [l Hl]. rewrite zdrop_app_le in Hl by lia. apply Hc.
    destruct (zdrop j s1) as [|x t] eqn:E.
    + apply (f_equal zlen) in E. rewrite zlen_zdrop in E. unfold zlen at 2 in E. cbn in E. lia.
    + cbn in Hl. injection Hl as <- _. unfold zdrop in E.
      rewrite <-(take_drop (Z.to_nat j) s1), E, elem_of_app. right. by left.
Qed.
Lemma rfind_none c s : c ∉ s -> rfind c s = None.
Proof.
  induction s as [|x s IH]; [done|]. rewrite not_elem_of_cons. intros [Hx Hs]. cbn. rewrite IH by done.
  by destruct (Z.eqb_spec x c).
Qed.
Lemma rfind_char c s1 s2 : c ∉ s2 -> rfind c (s1 ++ c :: s2) = Some (zlen s1).
Proof.
  intros Hc. induction s1 as [|x s1 IH]; cbn [app rfind].
  - by rewrite rfind_none, Z.eqb_refl.
  - by rewrite IH, zlen_cons.
Qed.

Lemma procname_piece pid comm rest :
  (40 ∉ pid) -> (41 ∉ rest) -> zlen comm < 2 ^ 31 ->
  procname (pid ++ 40 :: comm ++ 41 :: rest) = StringPiece.mk (comm ++ 41 :: rest) (zlen comm).
Proof.
  intros Hp Hr Hc. unfold procname. change (lit "(") with [40].
  rewrite find_char by done.
  assert (rfind 41 (pid ++ 40 :: comm ++ 41 :: rest) = Some (zlen pid + 1 + zlen comm)) as ->.
  { change (pid ++ 40 :: comm ++ 41 :: rest) with (pid ++ [40] ++ comm ++ 41 :: rest). rewrite !app_assoc.
    rewrite rfind_char by done. f_equal. rewrite !zlen_app. unfold zlen at 2. cbn. lia. }
  pose proof (zlen_nonneg comm). destruct (Z.ltb_spec (zlen pid) (zlen pid + 1 + zlen comm)); [|lia].
  replace (zlen pid + 1 + zlen comm - zlen pid - 1) with (zlen comm) by lia. f_equal.
  - change (pid ++ 40 :: comm ++ 41 :: rest) with (pid ++ [40] ++ comm ++ 41 :: rest). rewrite app_assoc.
    apply zdrop_app_exact. rewrite zlen_app. done.
  - apply swrap_small; [lia|unfold srange; lia].
Qed.

(** * Theorems *)

(** A line of /proc/<pid>/stat: the name of the process between the first and
    the last parenthesis, so that the name itself may have parentheses and
    spaces. *)
Theorem procname_roundtrip pid comm rest :
  (40 ∉ pid) -> (41 ∉ rest) -> zlen comm < 2 ^ 31 ->
  StringPiece.as_string (procname (pid ++ lit "(" ++ comm ++ lit ")" ++ rest)) = Ok comm.
Proof.
  intros Hp Hr Hc. change (lit "(") with [40]. change (lit ")") with [41]. cbn [app]. rewrite procname_piece by done.
  pose proof (zlen_nonneg comm). pose proof (zlen_nonneg rest).
  unfold StringPiece.as_string. cbn [StringPiece.length_ StringPiece.ptr_].
  unfold u64. rewrite uwrap_small by (lia || unfold urange; lia).
  rewrite zlen_app, zlen_cons. destruct (Z.leb_spec (zlen comm) (zlen comm + (1 + zlen rest))); [|lia].
  f_equal. by apply ztake_app_exact.
Qed.

Definition task_id (d : bytes) : option Z :=
  match d with c :: _ => if isdigit c then Some (atoi d) else None | [] => None end.
Lemma task_id_number t : 0 <= t < 2 ^ 31 -> task_id (fmt_d t) = Some t.
Proof.
  intros Ht. destruct (fmt_d_cons t ltac:(lia)) as (c & s & E & Hc). unfold task_id. rewrite E at 1. rewrite Hc. f_equal.
  unfold atoi. pose proof (strtol_number [] t []) as Hs. rewrite app_nil_r in Hs. cbn [app] in Hs.
  rewrite Hs; [|by apply Forall_nil|lia|done]. apply swrap_small; [lia|unfold srange; lia].
Qed.

(** The directory of tasks: entries that are not numbers are left out, and the
    ids come sorted, each once per entry. *)
Theorem threads_sorted tids others dir :
  Forall (fun t => 0 <= t < 2 ^ 31) tids -> Forall (ends isdigit) others ->
  dir ≡ₚ (fmt_d <$> tids) ++ others ->
  threads dir ≡ₚ tids /\ Sorted Z.le (threads dir).
Proof.
  intros Ht Ho Hd. assert (forall dir acc, scanDir taskDirFilter dir acc =
    acc ++ omap task_id dir) as Hscan.
  { clear. intros dir. unfold scanDir. induction dir as [|d dir IH]; intros acc; cbn [foldl]; [by rewrite app_nil_r|].
    rewrite IH. destruct d as [|c d]; [done|]. cbn. destruct (isdigit c); [|done]. by rewrite <-app_assoc. }
  unfold threads. rewrite Hscan. cbn [app]. split; [|apply Sorted_merge_sort; intros x y; lia].
  rewrite merge_sort_Permutation, Hd, omap_app.
  assert (omap task_id others = []) as ->.
  { clear -Ho. induction Ho as [|d l Hd _ IH]; [done|]. destruct d as [|c d]; [done|]. cbn in *. by rewrite Hd. }
  rewrite app_nil_r. clear -Ht. induction Ht as [|t l Ht _ IH]; [done|]. cbn [fmap list_fmap omap list_omap].
  rewrite task_id_number by done. by f_equiv.
Qed.
End ProcessInfo.
