(* ===== verification/BaseException.v ===== *)
(** src/muduo/base/Exception.h, Exception.cc, [stackTrace] of CurrentThread.cc,
    and the exception handlers of Thread.cc and ThreadPool.cc.

    glibc's backtrace and backtrace_symbols and the C++ library's demangler are
    parameters.  A function that may throw gives [None] or what it throws; a
    body gives what it prints to stderr and how it ends.  The file proves what
    a line of a trace is, that a demangled trace loses nothing, and that no
    exception of a task or of a thread function is swallowed. *)

From S2P Require Import Prelude BaseStringPiece BaseProcessInfo BaseThread.

Module Exception.

(** A C string argument: up to the first NUL. *)
Definition c_str (s : bytes) : bytes := ztake (StringPiece.strlen s) s.

(** * CurrentThread *)

Section Trace.
Context (backtrace : Z -> list Z) (backtrace_symbols : list Z -> option (list bytes)).
(** The demangled name when the status is 0. *)
Context (cxa_demangle : bytes -> option bytes).

Definition max_frames : Z := 200.

(** The loop over the characters of [strings[i]], from index [i]. *)
Fixpoint scan (s : bytes) (i : Z) (left_par plus : option Z) : option Z * option Z :=
  match s with
  | [] => (left_par, plus)
  | c :: s' =>
      if c =? 40 then scan s' (i + 1) (Some i) plus
      else if c =? 43 then scan s' (i + 1) left_par (Some i)
      else scan s' (i + 1) left_par plus
  end.

(** What one frame appends.  With the NUL written over [*plus], the C string at
    [left_par + 1] ends there, if [plus] is behind it. *)
Definition frame_line (demangle : bool) (s : bytes) : bytes :=
  let fallback := s ++ [10] in
  if demangle
  then match scan s 0 None None with
       | (Some l, Some p) =>
           let name := if l <? p then zslice (l + 1) p s else zdrop (l + 1) s in
           match cxa_demangle name with
           | Some demangled => ztake (l + 1) s ++ demangled ++ zdrop p s ++ [10]
           | None => fallback
           end
       | _ => fallback
       end
  else fallback.

Definition stackTrace (demangle : bool) : bytes :=
  match backtrace_symbols (backtrace max_frames) with
  | Some strings => foldl (fun stack s => stack ++ frame_line demangle s) [] (drop 1 strings)
  | None => []
  end.

(** * Exception *)

Record t := mk { message_ : bytes; stack_ : bytes }.
Definition new_ (msg : bytes) : t := mk msg (stackTrace false).
Definition what (ex : t) : bytes := c_str (message_ ex).
Definition trace_of (ex : t) : bytes := c_str (stack_ ex).

End Trace.

(** [nanosleep]'s argument: seconds and nanoseconds. *)
Definition sleepUsec (usec : Z) : Z * Z := (Z.quot usec (10 ^ 6), Z.rem usec (10 ^ 6) * 1000).

(** * The handlers *)

Inductive thrown := ThrowException (ex : t) | ThrowStd (what : bytes) | ThrowOther.
Inductive ending := Returns | Aborts | Rethrows (x : thrown).

(** The three [catch] clauses, of an object of kind [kind]. *)
Definition caught (kind : string) (name : bytes) (x : thrown) : list bytes * ending :=
  match x with
  | ThrowException ex =>
      ([lit "exception caught in " ++ lit kind ++ lit " " ++ c_str name ++ [10];
        lit "reason: " ++ what ex ++ [10];
        lit "stack trace: " ++ trace_of ex ++ [10]], Aborts)
  | ThrowStd w =>
      ([lit "exception caught in " ++ lit kind ++ lit " " ++ c_str name ++ [10];
        lit "reason: " ++ c_str w ++ [10]], Aborts)
  | ThrowOther => ([lit "unknown exception caught in " ++ lit kind ++ lit " " ++ c_str name ++ [10]], Rethrows x)
  end.

(** [ThreadData::runInThread] once the id is published: the thread's name while
    [func_] runs, [func_], its end. *)
Definition func_name (name_ : bytes) : bytes := match name_ with [] => lit "muduoThread" | n => c_str n end.
Definition thread_runInThread (name_ : bytes) (func_ : list bytes * ending) (c : Thread.current)
    : Thread.current * list bytes * ending :=
  let c := Thread.set_name (func_name name_) c in
  match func_ with
  | (err, Returns) => (Thread.set_name (lit "finished") c, err, Returns)
  | (err, Aborts) => (c, err, Aborts)
  | (err, Rethrows x) =>
      let '(err', e) := caught "Thread" name_ x in
      (Thread.set_name (lit "crashed") c, err ++ err', e)
  end.

(** One turn of the loop of [ThreadPool::runInThread]: the test of [running_],
    and what [take] gave, with what the task threw.  [None]: the turns given
    do not end the loop. *)
Definition turn : Type := bool * option (option thrown).
Fixpoint worker_loop (turns : list turn) : option (option thrown) :=
  match turns with
  | [] => None
  | (false, _) :: _ => Some None
  | (true, Some (Some x)) :: _ => Some (Some x)
  | (true, _) :: turns' => worker_loop turns'
  end.
Definition pool_runInThread (name_ : bytes) (threadInitCallback_ : option (option thrown)) (turns : list turn)
    : option (list bytes * ending) :=
  let r := match threadInitCallback_ with
           | Some (Some x) => Some (Some x)
           | _ => worker_loop turns
           end in
  match r with
  | None => None
  | Some None => Some ([], Returns)
  | Some (Some x) => Some (caught "ThreadPool" name_ x)
  end.

(** [ThreadPool::start]: the names of the threads, and whether the caller runs
    the init callback itself. *)
Definition thread_name (name_ : bytes) (i : Z) : bytes := name_ ++ snprintf 32 (fmt_d (i + 1)).
Definition start_threads (name_ : bytes) (hasInit : bool) (numThreads : Z) : list bytes * bool :=
  (thread_name name_ <$> seqZ 0 numThreads, (numThreads =? 0) && hasInit).

(** * Lemmas *)

Lemma scan_spec s i l p : scan s i l p =
  (match rfind 40 s with Some k => Some (i + k) | None => l end,
   match rfind 43 s with Some k => Some (i + k) | None => p end).
Proof.
  revert i l p. induction s as [|c s IH]; intros i l p; cbn [scan rfind]; [done|].
  destruct (Z.eqb_spec c 40) as [->|Hc]; [|destruct (Z.eqb_spec c 43) as [->|Hp]]; rewrite IH; clear IH;
    destruct (rfind 40 s) as [k|], (rfind 43 s) as [k'|]; cbn; f_equal; f_equal; lia.
Qed.

Lemma stackTrace_lines bt bs dm demangle : stackTrace bt bs dm demangle =
  default [] ((fun strings => concat (frame_line dm demangle <$> drop 1 strings)) <$> bs (bt max_frames)).
Proof.
  unfold stackTrace. destruct (bs _) as [strings|]; [|done]. cbn.
  assert (forall l acc, foldl (fun stack s => stack ++ frame_line dm demangle s) acc l =
    acc ++ concat (frame_line dm demangle <$> l)) as H; [|apply H].
  induction l as [|s l IH]; intros acc; cbn; [by rewrite app_nil_r|]. by rewrite IH, app_assoc.
Qed.

(** * Theorems *)

(** A frame as glibc prints it, [module(name+offset) [address]], becomes the
    same line with the name demangled - whatever parentheses and pluses the
    path of the module has - and stays as it is when the name cannot be
    demangled. *)
Theorem frame_line_demangles dm modl name off :
  40 ∉ name -> 43 ∉ name -> 40 ∉ off -> 43 ∉ off ->
  frame_line dm true (modl ++ [40] ++ name ++ [43] ++ off) =
  modl ++ [40] ++ default name (dm name) ++ [43] ++ off ++ [10].
Proof.
  intros Hn Hp Ho Hq. unfold frame_line. rewrite scan_spec.
  assert (rfind 40 (modl ++ [40] ++ name ++ [43] ++ off) = Some (zlen modl)) as ->.
  { apply ProcessInfo.rfind_char. rewrite !not_elem_of_app. (split_and!; [done| |done]). rewrite list_elem_of_singleton. lia. }
  assert (rfind 43 (modl ++ [40] ++ name ++ [43] ++ off) = Some (zlen modl + 1 + zlen name)) as ->.
  { replace (modl ++ [40] ++ name ++ [43] ++ off) with ((modl ++ [40] ++ name) ++ 43 :: off)
      by (by rewrite <-!app_assoc). rewrite ProcessInfo.rfind_char by done. f_equal. zlia. }
  rewrite !Z.add_0_l. zlen_pose. destruct (Z.ltb_spec (zlen modl) (zlen modl + 1 + zlen name)); [|lia].
  assert (modl ++ [40] ++ name ++ [43] ++ off = (modl ++ [40]) ++ name ++ [43] ++ off) as E by by rewrite <-!app_assoc.
  assert (zslice (zlen modl + 1) (zlen modl + 1 + zlen name) (modl ++ [40] ++ name ++ [43] ++ off) = name) as ->
    by (rewrite E; apply zslice_app_mid; zlia).
  destruct (dm name) as [d|]; cbn [default]; [|by rewrite <-!app_assoc].
  rewrite E at 1. rewrite ztake_app_exact by zlia.
  replace (modl ++ [40] ++ name ++ [43] ++ off) with ((modl ++ [40] ++ name) ++ [43] ++ off)
    by (by rewrite <-!app_assoc).
  rewrite zdrop_app_exact by zlia. by rewrite <-!app_assoc.
Qed.

Lemma frame_line_demangles_witness :
  frame_line (fun n => if bytes_eqb n (lit "_ZN3Bar4testEv") then Some (lit "Bar::test()") else None) true
    (lit "bin/exception_test(_ZN3Bar4testEv+0x79) [0x401909]") =
  lit "bin/exception_test(Bar::test()+0x79) [0x401909]" ++ [10].
Proof.
  refine (frame_line_demangles _ (lit "bin/exception_test") (lit "_ZN3Bar4testEv") (lit "0x79) [0x401909]") _ _ _ _);
    apply (bool_decide_eq_true_1 (_ ∉ _)); vm_compute; reflexivity.
Defined.

(** The trace of an Exception, read as a C string and cut at its newlines, is
    the frames below the innermost one. *)
Theorem exception_trace_lines bt bs dm msg strings :
  bs (bt max_frames) = Some strings -> Forall (fun s => 10 ∉ s /\ 0 ∉ s) strings ->
  trace_of (new_ bt bs dm msg) = concat ((fun s => (s ++ [10])%list) <$> (drop 1 strings)).
Proof.
  intros E Hs. unfold trace_of, new_, c_str, StringPiece.strlen. cbn [stack_]. rewrite stackTrace_lines, E. cbn [fmap option_fmap option_map default].
  apply ztake_all. rewrite find_idx_none; [done|]. apply Forall_concat, Forall_fmap. apply (Forall_drop _ 1) in Hs.
  eapply Forall_impl; [exact Hs|]. intros s [_ H0]. cbn. apply Forall_app. split; [|by repeat constructor].
  apply Forall_forall. intros x Hx ->. done.
Qed.

(** A microsecond count is slept as it is: a valid timespec of that many
    nanoseconds. *)
Theorem sleepUsec_exact usec : 0 <= usec < 2 ^ 63 ->
  let '(tv_sec, tv_nsec) := sleepUsec usec in
  0 <= tv_sec /\ 0 <= tv_nsec < 10 ^ 9 /\ tv_sec * 10 ^ 9 + tv_nsec = usec * 1000.
Proof.
  intros Hu. unfold sleepUsec. rewrite Z.quot_div_nonneg, Z.rem_mod_nonneg by lia.
  pose proof (Z.mod_pos_bound usec (10 ^ 6)). pose proof (Z.div_mod usec (10 ^ 6)).
  pose proof (Z.div_pos usec (10 ^ 6)). lia.
Qed.

(** Nothing a task or the init callback throws is swallowed: a worker's thread
    ends normally exactly when it left its loop, and otherwise the process ends
    - [abort], or an exception that leaves the thread - after the pool, and for
    an unknown exception also the thread, was named on stderr. *)
Theorem worker_exception_ends_process pool i init turns c func :
  pool_runInThread pool init turns = Some func ->
  let thread := thread_name pool i in
  let '(c', err, e) := thread_runInThread thread func c in
  match (match init with Some (Some x) => Some (Some x) | _ => worker_loop turns end) with
  | Some None => e = Returns /\ err = [] /\ Thread.t_threadName c' = lit "finished"
  | Some (Some ThrowOther) => e = Rethrows ThrowOther /\
      err = [lit "unknown exception caught in ThreadPool " ++ c_str pool ++ [10];
             lit "unknown exception caught in Thread " ++ c_str thread ++ [10]]
  | Some (Some _) => e = Aborts /\
      exists rest, err = (lit "exception caught in ThreadPool " ++ c_str pool ++ [10]) :: rest
  | None => False
  end.
Proof.
  unfold pool_runInThread. set (r := match init with Some (Some x) => Some (Some x) | _ => worker_loop turns end).
  destruct r as [[[ex|w|]|]|]; intros [= <-]; cbn -[lit c_str thread_name app]; split_and!; try done; by eexists.
Qed.

(** The threads of a pool have different names. *)
Theorem pool_thread_names_differ name n b : 0 <= n < 2 ^ 31 -> NoDup (start_threads name b n).1.
Proof.
  intros Hn. unfold start_threads. cbn [fst]. apply NoDup_fmap_2_strong; [|apply NoDup_seqZ].
  intros x y Hx%elem_of_seqZ Hy%elem_of_seqZ E. unfold thread_name in E. apply app_inv_head in E.
  assert (forall z, 0 <= z < 2 ^ 31 -> snprintf 32 (fmt_d (z + 1)) = fmt_d (z + 1)) as Hs.
  { intros z Hz. apply ztake_all. pose proof (fmt_d_length 10 (z + 1)) as Hl. lia. }
  rewrite !Hs in E by lia. apply (f_equal (dec_val 0)) in E. rewrite !fmt_d_val in E by lia. lia.
Qed.

End Exception.
