(* ===== verification/BaseGzipFile.v ===== *)
(** src/muduo/base/GzipFile.h: a gzip file as a movable object.

    zlib's gz functions are a class over a world of theirs (files and open
    handles), with the laws of zlib's manual that ownership needs.  A program
    is a sequence of operations on objects; using or closing a handle that is
    not open is undefined behaviour.  The file proves that this never happens
    however the objects are moved, assigned and swapped, and that the open
    handles are exactly those of the live objects. *)

From S2P Require Import Prelude BaseStringPiece.

Module GzipFile.

Class Zlib (W : Type) := {
  gzopen : bytes -> string -> W -> option Z * W;
  gzclose : Z -> W -> W;
  gzbuffer : option Z -> Z -> W -> Z * W;
  gzread : option Z -> Z -> W -> Z * bytes * W;
  gzwrite : option Z -> bytes -> W -> Z * W;
  gztell : option Z -> W -> Z;
  gzoffset : option Z -> W -> Z;
  open_files : W -> gset Z
}.
(** A handle is new when it is opened and gone when it is closed; nothing else
    opens or closes files. *)
Class ZlibLaws (W : Type) `{Zlib W} := {
  gzopen_new name mode w f w' : gzopen name mode w = (Some f, w') -> f ∉ open_files w /\ open_files w' = {[f]} ∪ open_files w;
  gzopen_fails name mode w w' : gzopen name mode w = (None, w') -> open_files w' = open_files w;
  gzclose_gone f w : f ∈ open_files w -> open_files (gzclose f w) = open_files w ∖ {[f]};
  gzbuffer_open f n w : open_files (gzbuffer f n w).2 = open_files w;
  gzread_open f n w : open_files (gzread f n w).2 = open_files w;
  gzwrite_open f d w : open_files (gzwrite f d w).2 = open_files w
}.

Section GzipFile.
Context {W : Type} `{HZ : Zlib W}.

Record t := mk { file_ : option Z }.

(** A handle given to a gz function: NULL or open. *)
Definition handle (x : t) (w : W) : outcome (option Z) :=
  match file_ x with
  | Some f => if decide (f ∈ open_files w) then Ok (Some f) else Err (Undefined "use of a closed gzFile")
  | None => Ok None
  end.

Definition openForRead (filename : bytes) (w : W) : t * W := let '(f, w) := gzopen filename "rbe" w in (mk f, w).
Definition openForAppend (filename : bytes) (w : W) : t * W := let '(f, w) := gzopen filename "abe" w in (mk f, w).
Definition openForWriteExclusive (filename : bytes) (w : W) : t * W :=
  let '(f, w) := gzopen filename "wbxe" w in (mk f, w).
Definition openForWriteTruncate (filename : bytes) (w : W) : t * W :=
  let '(f, w) := gzopen filename "wbe" w in (mk f, w).

(** The move constructor gives the new object and what is left of [rhs]. *)
Definition move (rhs : t) : t * t := (mk (file_ rhs), mk None).
Definition destroy (x : t) (w : W) : outcome W :=
  f ← handle x w; Ok match f with Some f => gzclose f w | None => w end.
Definition swap (x rhs : t) : t * t := (mk (file_ rhs), mk (file_ x)).
Definition move_assign (x rhs : t) : t * t := swap x rhs.
Definition valid (x : t) : bool := bool_decide (file_ x <> None).
Definition setBuffer (x : t) (size : Z) (w : W) : outcome (bool * W) :=
  f ← handle x w; let '(r, w) := gzbuffer f size w in Ok (r =? 0, w).
Definition read (x : t) (len : Z) (w : W) : outcome (Z * bytes * W) := f ← handle x w; Ok (gzread f len w).
Definition write (x : t) (buf : StringPiece.t) (w : W) : outcome (Z * W) :=
  f ← handle x w; data ← StringPiece.as_string buf; Ok (gzwrite f data w).
Definition tell (x : t) (w : W) : outcome Z := f ← handle x w; Ok (gztell f w).
Definition offset (x : t) (w : W) : outcome Z := f ← handle x w; Ok (gzoffset f w).

(** * A program's use of the class *)

Inductive flavor := ForRead | ForAppend | ForWriteExclusive | ForWriteTruncate.
Definition open_ (fl : flavor) : bytes -> W -> t * W :=
  match fl with ForRead => openForRead | ForAppend => openForAppend | ForWriteExclusive => openForWriteExclusive
              | ForWriteTruncate => openForWriteTruncate end.

(** Objects have numbers; [OpenNew] and [MoveNew] make new ones. *)
Inductive op :=
| OpenNew (obj : Z) (fl : flavor) (filename : bytes)
| MoveNew (obj rhs : Z) | MoveAssign (obj rhs : Z) | Swap (obj rhs : Z) | Destroy (obj : Z)
| SetBuffer (obj size : Z) | Read (obj len : Z) | Write (obj : Z) (data : bytes) | Tell (obj : Z) | Offset (obj : Z).

Definition state : Type := gmap Z t * W.

(** An operation on an object that does not exist is not a program's step. *)
Definition exec (s : state) (o : op) : outcome state :=
  let '(objs, w) := s in
  match o with
  | OpenNew x fl name =>
      match objs !! x with
      | None => let '(f, w) := open_ fl name w in Ok (<[x := f]> objs, w)
      | Some _ => Ok s
      end
  | MoveNew x y =>
      match objs !! x, objs !! y with
      | None, Some r => let '(f, r) := move r in Ok (<[x := f]> (<[y := r]> objs), w)
      | _, _ => Ok s
      end
  | MoveAssign x y =>
      match objs !! x, objs !! y with
      | Some l, Some r => let '(l, r) := move_assign l r in Ok (<[x := l]> (<[y := r]> objs), w)
      | _, _ => Ok s
      end
  | Swap x y =>
      match objs !! x, objs !! y with
      | Some l, Some r => let '(l, r) := swap l r in Ok (<[x := l]> (<[y := r]> objs), w)
      | _, _ => Ok s
      end
  | Destroy x =>
      match objs !! x with
      | Some f => w ← destroy f w; Ok (delete x objs, w)
      | None => Ok s
      end
  | SetBuffer x n => match objs !! x with Some f => '(_, w) ← setBuffer f n w; Ok (objs, w) | None => Ok s end
  | Read x n => match objs !! x with Some f => '(_, w) ← read f n w; Ok (objs, w) | None => Ok s end
  | Write x d => match objs !! x with Some f => '(_, w) ← write f (StringPiece.of_string d) w; Ok (objs, w) | None => Ok s end
  | Tell x => match objs !! x with Some f => _ ← tell f w; Ok s | None => Ok s end
  | Offset x => match objs !! x with Some f => _ ← offset f w; Ok s | None => Ok s end
  end.
Definition run (s : state) (os : list op) : outcome state := foldM exec s os.

(** * Ownership *)

Definition owns (objs : gmap Z t) (x f : Z) : Prop := objs !! x = Some (mk (Some f)).

(** [base]: the files open before, which others own. *)
Record inv (base : gset Z) (s : state) : Prop := {
  inv_open : forall f, f ∈ open_files s.2 <-> f ∈ base \/ exists x, owns s.1 x f;
  inv_once : forall x y f, owns s.1 x f -> owns s.1 y f -> x = y;
  inv_base : forall x f, owns s.1 x f -> f ∉ base
}.
End GzipFile.

Section Proofs.
Context {W : Type} `{HL : ZlibLaws W}.
Implicit Types (s : state (W := W)).

(** The same handles under other owners. *)
Lemma inv_move base (objs objs' : gmap Z t) (w w' : W) (to : Z -> Z) :
  inv base (objs, w) -> open_files w' = open_files w ->
  (forall x f, owns objs' x f <-> owns objs (to x) f) -> (forall x, exists y, to y = x) ->
  (forall x y, to x = to y -> x = y) -> inv base (objs', w').
Proof.
  intros [Ho H1 Hb] Hw Hto Hs Hi. split; cbn in *.
  - intros f. rewrite Hw, Ho. apply or_iff_compat_l. split.
    + intros (x & Hx). destruct (Hs x) as (y & <-). exists y. by apply Hto.
    + intros (x & Hx). exists (to x). by apply Hto.
  - intros x y f Hx Hy. apply Hi. eapply H1; by apply Hto.
  - intros x f Hx. eapply Hb. by apply Hto.
Qed.

Lemma inv_same base objs (w w' : W) : inv base (objs, w) -> open_files w' = open_files w -> inv base (objs, w').
Proof. intros Hi Hw. apply (inv_move base objs objs w w' (fun x => x) Hi Hw); [done|eauto|done]. Qed.

Lemma handle_ok base objs (w : W) x f :
  inv base (objs, w) -> objs !! x = Some f -> handle f w = Ok (file_ f).
Proof.
  intros [Ho _ _] Hx. unfold handle. destruct f as [[f|]]; cbn; [|done].
  rewrite decide_True; [done|]. apply Ho. right. by exists x.
Qed.

(** [std::swap] on two objects, which may be one. *)
Lemma inv_swap base objs (w : W) x y l r :
  inv base (objs, w) -> objs !! x = Some l -> objs !! y = Some r -> inv base (<[x := mk (file_ r)]> (<[y := mk (file_ l)]> objs), w).
Proof.
  intros Hi Hx Hy.
  apply (inv_move base objs _ w w (fun z => if decide (z = x) then y else if decide (z = y) then x else z) Hi); [done|..].
  - intros z f. unfold owns. destruct l, r. cbn. destruct (decide (z = x)) as [->|].
    + rewrite lookup_insert_eq, Hy. done.
    + rewrite lookup_insert_ne by done. destruct (decide (z = y)) as [->|]; [by rewrite lookup_insert_eq, Hx|].
      by rewrite lookup_insert_ne.
  - intros z. destruct (decide (z = x)) as [->|]; [|destruct (decide (z = y)) as [->|]].
    + exists y. repeat case_decide; congruence.
    + exists x. by case_decide.
    + exists z. by repeat case_decide.
  - intros a b. repeat case_decide; congruence.
Qed.

Lemma inv_open_new base objs (w : W) x f w' : inv base (objs, w) -> objs !! x = None ->
  (forall g, f = Some g -> g ∉ open_files w /\ open_files w' = {[g]} ∪ open_files w) ->
  (f = None -> open_files w' = open_files w) -> inv base (<[x := mk f]> objs, w').
Proof.
  intros [Ho H1 Hb] Hx Hnew Hfail. cbn in *. destruct f as [f|].
  - destruct (Hnew f eq_refl) as (Hf & Hw). clear Hfail.
    assert (forall y g, owns (<[x := mk (Some f)]> objs) y g <-> (y = x /\ g = f) \/ owns objs y g) as Hown.
    { intros y g. unfold owns. destruct (decide (y = x)) as [->|].
      - rewrite lookup_insert_eq, Hx. split; [intros [= ->]; by left|]. intros [[_ ->]|]; [done|congruence].
      - rewrite lookup_insert_ne by done. split; [by right|]. intros [[? _]|]; [done|done]. }
    assert (forall y, ~ owns objs y f) as Hno by (intros y Hy; apply Hf, Ho; eauto).
    split; cbn.
    + intros g. rewrite Hw, elem_of_union, elem_of_singleton, Ho. setoid_rewrite Hown. naive_solver.
    + intros y z g. rewrite !Hown. intros [[-> ->]|Hy] [[-> Hz]|Hz]; [done|by destruct (Hno z)| |by eapply H1].
      subst. by destruct (Hno y).
    + intros y g. rewrite Hown. intros [[-> ->]|Hy]; [|by eapply Hb]. intros Hin. apply Hf, Ho. by left.
  - specialize (Hfail eq_refl). assert (forall y g, owns (<[x := mk None]> objs) y g <-> owns objs y g) as Hown.
    { intros y g. unfold owns. destruct (decide (y = x)) as [->|]; [by rewrite lookup_insert_eq, Hx|by rewrite lookup_insert_ne]. }
    split; cbn; [intros g; rewrite Hfail, Ho; by setoid_rewrite Hown|intros y z g; rewrite !Hown; apply H1|].
    intros y g. rewrite Hown. apply Hb.
Qed.

Lemma open_new fl name (w : W) f w' : open_ fl name w = (f, w') ->
  (forall g, file_ f = Some g -> g ∉ open_files w /\ open_files w' = {[g]} ∪ open_files w) /\
  (file_ f = None -> open_files w' = open_files w).
Proof.
  destruct fl; cbn [open_]; unfold openForRead, openForAppend, openForWriteExclusive, openForWriteTruncate;
    destruct (gzopen name _ w) as [g w1] eqn:E; intros [= <- <-]; cbn; (split; [intros h ->; by eapply gzopen_new|]);
    intros ->; by eapply gzopen_fails.
Qed.

Lemma inv_destroy base objs (w : W) x f : inv base (objs, w) -> objs !! x = Some f ->
  inv base (delete x objs, match file_ f with Some f => gzclose f w | None => w end).
Proof.
  intros Hi Hx. pose proof Hi as [Ho H1 Hb]. cbn in *.
  assert (forall y g, owns (delete x objs) y g <-> owns objs y g /\ y <> x) as Hown.
  { intros y g. unfold owns. rewrite lookup_delete_Some. naive_solver. }
  destruct f as [[f|]]; cbn.
  - assert (owns objs x f) as Hxf by done.
    assert (f ∈ open_files w) as Hin by (apply Ho; eauto). split; cbn.
    + intros g. rewrite gzclose_gone by done. rewrite elem_of_difference, elem_of_singleton, Ho. setoid_rewrite Hown. split.
      * intros [[Hg|(y & Hy)] Hne]; [by left|]. right. exists y. split; [done|]. intros ->. unfold owns in *. congruence.
      * intros [Hg|(y & Hy & Hne)]; (split; [by eauto|]).
        -- intros ->. by apply (Hb x f).
        -- intros ->. by apply Hne, (H1 _ _ f).
    + intros y z g. rewrite !Hown. intros [? _] [? _]. by eapply H1.
    + intros y g. rewrite Hown. intros [? _]. by eapply Hb.
  - split; cbn.
    + intros g. rewrite Ho. setoid_rewrite Hown. split; [|naive_solver].
      intros [Hg|(y & Hy)]; [by left|]. right. exists y. split; [done|]. intros ->. unfold owns in *. congruence.
    + intros y z g. rewrite !Hown. intros [? _] [? _]. by eapply H1.
    + intros y g. rewrite Hown. intros [? _]. by eapply Hb.
Qed.

Definition write_small (o : op) : Prop := match o with Write _ d => zlen d < 2 ^ 31 | _ => True end.

Lemma gzip_exec_ok base s o : inv base s -> write_small o -> exists s', exec s o = Ok s' /\ inv base s'.
Proof.
  destruct s as [objs w]. intros Hi Hd. assert (exists s', Ok (objs, w) = Ok s' /\ inv base s') as Hsame by eauto.
  destruct o as [x fl name|x y|x y|x y|x|x n|x n|x d|x|x]; cbn [exec].
  - destruct (objs !! x) eqn:Ex; [done|]. destruct (open_ fl name w) as [f w'] eqn:E. apply open_new in E as (Hn & Hf).
    eexists. split; [done|]. destruct f. by eapply inv_open_new.
  - destruct (objs !! x) eqn:Ex; [done|]. destruct (objs !! y) as [r|] eqn:Ey; [|done]. cbn. eexists. split; [done|].
    assert (x <> y) by congruence.
    apply (inv_move base objs _ w w (fun z => if decide (z = x) then y else if decide (z = y) then x else z) Hi); [done|..].
    + intros z f. unfold owns. destruct r. cbn. destruct (decide (z = x)) as [->|]; [by rewrite lookup_insert_eq, Ey|].
      rewrite lookup_insert_ne by done. destruct (decide (z = y)) as [->|]; [by rewrite lookup_insert_eq, Ex|].
      by rewrite lookup_insert_ne.
    + intros z. destruct (decide (z = x)) as [->|]; [|destruct (decide (z = y)) as [->|]].
      * exists y. by repeat case_decide.
      * exists x. by case_decide.
      * exists z. by repeat case_decide.
    + intros a b. repeat case_decide; congruence.
  - destruct (objs !! x) as [l|] eqn:Ex; [|done]. destruct (objs !! y) as [r|] eqn:Ey; [|done]. cbn. eexists. split; [done|].
    by apply inv_swap.
  - destruct (objs !! x) as [l|] eqn:Ex; [|done]. destruct (objs !! y) as [r|] eqn:Ey; [|done]. cbn. eexists. split; [done|].
    by apply inv_swap.
  - destruct (objs !! x) as [f|] eqn:Ex; [|done]. unfold destroy. erewrite handle_ok by done. cbn. eexists. split; [done|].
    by apply inv_destroy.
  - destruct (objs !! x) as [f|] eqn:Ex; [|done]. unfold setBuffer. erewrite handle_ok by done. cbn.
    destruct (gzbuffer (file_ f) n w) as [r w'] eqn:E. cbn. eexists. split; [done|]. apply (inv_same base objs w w' Hi).
    change w' with (r, w').2. rewrite <-E. apply gzbuffer_open.
  - destruct (objs !! x) as [f|] eqn:Ex; [|done]. unfold read. erewrite handle_ok by done. cbn.
    destruct (gzread (file_ f) n w) as [r w'] eqn:E. cbn. eexists. split; [done|]. apply (inv_same base objs w w' Hi).
    change w' with (r, w').2. rewrite <-E. apply gzread_open.
  - destruct (objs !! x) as [f|] eqn:Ex; [|done]. unfold write. erewrite handle_ok by done. cbn [mbind outcome_bind].
    rewrite StringPiece.as_string_of_string by done. cbn [mbind outcome_bind].
    destruct (gzwrite (file_ f) d w) as [r w'] eqn:E. cbn. eexists. split; [done|]. apply (inv_same base objs w w' Hi).
    change w' with (r, w').2. rewrite <-E. apply gzwrite_open.
  - destruct (objs !! x) as [f|] eqn:Ex; [|done]. unfold tell. erewrite handle_ok by done. done.
  - destruct (objs !! x) as [f|] eqn:Ex; [|done]. unfold offset. erewrite handle_ok by done. done.
Qed.

(** A gzip file is closed once and never used after.  Whatever a program
    opens, moves, assigns, swaps, uses and destroys, no gz function gets a handle
    that is not open; every open handle belongs to exactly one live object; and
    when all objects are gone, so are the files they opened. *)
Theorem gzip_files_closed_once (w0 : W) (os : list op) : Forall write_small os ->
  exists objs w, run (∅, w0) os = Ok (objs, w) /\
    (forall x f, objs !! x = Some (mk (Some f)) -> f ∈ open_files w /\
       forall y, objs !! y = Some (mk (Some f)) -> y = x) /\
    (objs = ∅ -> open_files w = open_files w0).
Proof.
  intros Hos. assert (inv (open_files w0) (∅, w0)) as Hi.
  { split; cbn; unfold owns.
    - intros f. setoid_rewrite lookup_empty. naive_solver.
    - intros x y f Hx. by rewrite lookup_empty in Hx.
    - intros x f Hx. by rewrite lookup_empty in Hx. }
  assert (exists s, run (∅, w0) os = Ok s /\ inv (open_files w0) s) as ([objs w] & Hrun & [Ho H1 Hb]).
  { revert Hi. generalize (∅ : gmap Z t, w0) at 1 2 as s. induction Hos as [|o os Ho Hos IH]; intros s Hi; cbn; [eauto|].
    destruct (gzip_exec_ok _ s o Hi Ho) as (s1 & -> & Hi1). by apply IH. }
  exists objs, w. split; [done|]. cbn in *. split.
  - intros x f Hx. split; [apply Ho; right; by exists x|]. intros y Hy. by eapply H1.
  - intros ->. apply set_eq. intros f. rewrite Ho. unfold owns. setoid_rewrite lookup_empty. naive_solver.
Qed.
End Proofs.

(** A zlib whose handles count up, and a file that is moved twice. *)
#[local] Instance counting_zlib : Zlib (gset Z * Z) := {|
  gzopen _ _ w := (Some (w.2 + 1), ({[w.2 + 1]} ∪ w.1, w.2 + 1));
  gzclose f w := (w.1 ∖ {[f]}, w.2);
  gzbuffer _ _ w := (0, w); gzread _ _ w := (0, [], w); gzwrite _ d w := (zlen d, w);
  gztell _ _ := 0; gzoffset _ _ := 0; open_files w := w.1 |}.

Lemma moved_file_closed_once :
  match run (∅, (∅, 0)) [OpenNew 1 ForAppend (lit "a.gz"); MoveNew 2 1; Write 2 (lit "x"); OpenNew 3 ForRead (lit "b.gz");
                         MoveAssign 3 2; Destroy 1; Destroy 2; Write 3 (lit "y"); Destroy 3] with
  | Ok (objs, w) => bool_decide (objs = ∅ /\ open_files w = ∅)
  | Err _ => false
  end = true.
Proof. vm_compute. reflexivity. Qed.

End GzipFile.
