(* ===== verification/BaseWeakCallback.v ===== *)
(** src/muduo/base/WeakCallback.h: a callback on an object that may be gone.

    Objects are numbers in a heap of strong reference counts; what the called
    function does to references is a script of acquisitions and releases.  The
    file proves that the function is called exactly when the object is alive,
    that it stays alive during the whole call whatever the function releases, and
    that the callback itself never prolongs its life beyond that. *)

From S2P Require Import Prelude.

Module WeakCallback.

(** Control blocks of shared_ptr: positive strong counts of the live objects,
    and the objects destroyed so far. *)
Record heap := mkheap { strong : gmap Z Z; destroyed : list Z }.

Definition acquire (o : Z) (h : heap) : outcome heap :=
  match strong h !! o with
  | Some n => Ok (mkheap (<[o := n + 1]> (strong h)) (destroyed h))
  | None => Err (Undefined "copy of a dangling shared_ptr")
  end.
Definition release (o : Z) (h : heap) : outcome heap :=
  match strong h !! o with
  | Some n => Ok (if n =? 1 then mkheap (delete o (strong h)) (destroyed h ++ [o])
                  else mkheap (<[o := n - 1]> (strong h)) (destroyed h))
  | None => Err (Undefined "release of a dangling shared_ptr")
  end.
(** [weak_ptr::lock]. *)
Definition lock (o : Z) (h : heap) : option heap :=
  match strong h !! o with
  | Some n => Some (mkheap (<[o := n + 1]> (strong h)) (destroyed h))
  | None => None
  end.

Inductive action := Acquire (o : Z) | Release (o : Z).
Definition act (h : heap) (a : action) : outcome heap :=
  match a with Acquire o => acquire o h | Release o => release o h end.
Definition run (h : heap) (acts : list action) : outcome heap := foldM act h acts.

Section Callback.
(** The arguments. *)
Context {ARGS : Type}.

Record t := mk { object_ : Z; function_ : Z -> ARGS -> list action }.

Definition makeWeakCallback (object : Z) (function : Z -> ARGS -> list action) : t := mk object function.

(** [operator()]: the calls of [function_] it makes, and the heap. *)
Definition call (c : t) (args : ARGS) (h : heap) : outcome (list (Z * ARGS) * heap) :=
  match lock (object_ c) h with
  | Some h =>
      h ← run h (function_ c (object_ c) args);
      h ← release (object_ c) h;
      Ok ([(object_ c, args)], h)
  | None => Ok ([], h)
  end.

(** The called function releases only references that others hold: never the
    one the callback holds on [self]. *)
Definition own (self o : Z) : Z := if o =? self then 1 else 0.
Fixpoint legal (self : Z) (acts : list action) (h : heap) : Prop :=
  match acts with
  | [] => True
  | a :: acts' =>
      match a with
      | Acquire o => is_Some (strong h !! o)
      | Release o => exists n, strong h !! o = Some n /\ own self o < n
      end /\ forall h', act h a = Ok h' -> legal self acts' h'
  end.

Definition counts_ok (h : heap) : Prop := map_Forall (fun _ n => 0 < n) (strong h).
(** [o] is alive and has not died since [h0]. *)
Definition alive_since (o : Z) (h0 h : heap) : Prop :=
  is_Some (strong h !! o) /\ exists ds, destroyed h = destroyed h0 ++ ds /\ o ∉ ds.

Definition net (o : Z) (acts : list action) : Z :=
  foldr (fun a n => match a with Acquire x => if x =? o then n + 1 else n | Release x => if x =? o then n - 1 else n end) 0 acts.

Lemma alive_same o h h' : is_Some (strong h' !! o) -> destroyed h' = destroyed h -> alive_since o h h'.
Proof. intros Hs Hd. split; [done|]. exists []. rewrite Hd, app_nil_r. split; [done|apply not_elem_of_nil]. Qed.

Lemma run_legal self acts h : counts_ok h -> is_Some (strong h !! self) -> legal self acts h ->
  exists h', run h acts = Ok h' /\ counts_ok h' /\ alive_since self h h' /\
    (forall n, strong h !! self = Some n -> strong h' !! self = Some (n + net self acts)) /\
    forall k, exists hk, run h (take k acts) = Ok hk /\ alive_since self h hk.
Proof.
  revert h. induction acts as [|a acts IH]; intros h Hc Hs Hl.
  { exists h. assert (alive_since self h h) as Ha by by apply alive_same.
    split; [done|]. split; [done|]. split; [done|]. split; [by intros n ->; rewrite Z.add_0_r|].
    intros k. exists h. by rewrite take_nil. }
  destruct Hl as (Ha & Hl).
  assert (exists h1, act h a = Ok h1 /\ counts_ok h1 /\ alive_since self h h1 /\
    forall n, strong h !! self = Some n -> strong h1 !! self = Some (n + net self [a])) as (h1 & E & Hc1 & Ha1 & Hn1).
  { destruct a as [o|o]; cbn [act] in *.
    - destruct Ha as (n & Hn). unfold acquire. rewrite Hn. eexists. split; [done|]. split; [|split].
      + apply map_Forall_insert_2; [|done]. specialize (Hc _ _ Hn). cbn in Hc. lia.
      + apply alive_same; [|done]. cbn. destruct (decide (o = self)) as [->|]; [by rewrite lookup_insert_eq|by rewrite lookup_insert_ne].
      + intros m Hm. cbn. destruct (Z.eqb_spec o self) as [->|].
        * rewrite lookup_insert_eq. by rewrite Hn in Hm; injection Hm as ->.
        * rewrite lookup_insert_ne by done. by rewrite Z.add_0_r.
    - destruct Ha as (n & Hn & Hlt). unfold release. rewrite Hn. eexists. split; [done|]. unfold own in Hlt.
      pose proof (Hc _ _ Hn) as Hpos. cbn in Hpos. destruct (Z.eqb_spec o self) as [->|Hne], (Z.eqb_spec n 1) as [->|Hn1]; try lia.
      + split; [|split].
        * apply map_Forall_insert_2; [lia|done].
        * apply alive_same; [cbn; by rewrite lookup_insert_eq|done].
        * intros m Hm. cbn. rewrite Z.eqb_refl, lookup_insert_eq. f_equal. rewrite Hn in Hm. injection Hm as ->. lia.
      + split; [|split].
        * by apply map_Forall_delete.
        * split; [cbn; by rewrite lookup_delete_ne|]. exists [o]. split; [done|]. rewrite list_elem_of_singleton. congruence.
        * intros m Hm. cbn. rewrite lookup_delete_ne by done. apply Z.eqb_neq in Hne as ->. by rewrite Z.add_0_r.
      + split; [|split].
        * apply map_Forall_insert_2; [lia|done].
        * apply alive_same; [cbn; by rewrite lookup_insert_ne|done].
        * intros m Hm. cbn. rewrite lookup_insert_ne by done. apply Z.eqb_neq in Hne as ->. by rewrite Z.add_0_r. }
  destruct (IH h1 Hc1 (proj1 Ha1) (Hl _ E)) as (h2 & E2 & Hc2 & Ha2 & Hn2 & Hk2).
  assert (forall h', alive_since self h1 h' -> alive_since self h h') as Htrans.
  { intros h' (Hs' & ds' & Hd' & Hi'). destruct Ha1 as (_ & ds & Hd & Hi). split; [done|]. exists (ds ++ ds').
    rewrite Hd', Hd, app_assoc. split; [done|]. by rewrite not_elem_of_app. }
  exists h2. split; [cbn; by rewrite E|]. split; [done|]. split; [by apply Htrans|]. split.
  - intros n Hn. rewrite (Hn2 _ (Hn1 _ Hn)). f_equal. unfold net. cbn [foldr]. destruct a as [x|x]; destruct (x =? self); lia.
  - intros [|k]; [exists h; split; [done|by apply alive_same]|].
    destruct (Hk2 k) as (hk & Ek & Hak). exists hk. cbn. rewrite E. cbn. auto.
Qed.

(** The callback calls its function exactly when the object is alive, once and
    with its arguments.  During the call the object is not destroyed, whatever
    references the function releases; afterwards it is destroyed exactly when
    the function released all [n] references the others had. *)
Theorem weak_callback_calls_live_object (c : t) (args : ARGS) (h : heap) :
  let acts := function_ c (object_ c) args in
  counts_ok h -> (forall h', lock (object_ c) h = Some h' -> legal (object_ c) acts h') ->
  match strong h !! object_ c with
  | None => call c args h = Ok ([], h)
  | Some n => exists h1 h', lock (object_ c) h = Some h1 /\ call c args h = Ok ([(object_ c, args)], h') /\
      (forall k, exists hk, run h1 (take k acts) = Ok hk /\ alive_since (object_ c) h hk) /\
      (strong h' !! object_ c = if n + net (object_ c) acts =? 0 then None else Some (n + net (object_ c) acts)) /\
      exists ds, destroyed h' = destroyed h ++ ds /\ (object_ c ∈ ds <-> n + net (object_ c) acts = 0)
  end.
Proof.
  intros acts Hc Hl. unfold call, lock in *. destruct (strong h !! object_ c) as [n|] eqn:En; [|done].
  set (h1 := mkheap _ _) in *. pose proof (Hc _ _ En) as Hpos. cbn in Hpos.
  assert (strong h1 !! object_ c = Some (n + 1)) as E1 by (cbn; by rewrite lookup_insert_eq).
  destruct (run_legal (object_ c) acts h1) as (h2 & E2 & Hc2 & (_ & ds & Hd & Hi) & Hn2 & Hk);
    [by apply map_Forall_insert_2; [lia|]|by eexists|by apply Hl|].
  specialize (Hn2 _ E1). fold acts. rewrite E2. cbn [mbind outcome_bind]. unfold release. rewrite Hn2.
  cbn [mbind outcome_bind].
  set (h3 := if n + 1 + net (object_ c) acts =? 1 then _ else _).
  exists h1, h3. split; [done|]. split; [done|]. split; [exact Hk|]. subst h3.
  destruct (Z.eqb_spec (n + 1 + net (object_ c) acts) 1), (Z.eqb_spec (n + net (object_ c) acts) 0); try lia; cbn.
  - split; [by rewrite lookup_delete_eq|]. exists (ds ++ [object_ c]). rewrite Hd, app_assoc. split; [done|].
    split; [done|]. intros _. apply elem_of_app. right. by apply list_elem_of_singleton.
  - split; [rewrite lookup_insert_eq; f_equal; lia|]. exists ds. split; [done|]. naive_solver.
Qed.

End Callback.

(** A function that drops the last other reference to its object: the object
    outlives the call. *)
Lemma weak_callback_calls_live_object_witness :
  exists h', call (makeWeakCallback 1 (fun o (_ : unit) => [Release o])) tt (mkheap {[1 := 1]} []) = Ok ([(1, tt)], h') /\
    strong h' !! 1 = None /\ 1 ∈ destroyed h'.
Proof.
  destruct (weak_callback_calls_live_object (makeWeakCallback 1 (fun o (_ : unit) => [Release o])) tt (mkheap {[1 := 1]} []))
    as (h1 & h' & _ & E & _ & Hs & ds & Hd & Hin).
  - intros o n. cbn. rewrite lookup_singleton. case_decide; [by intros [= <-]|done].
  - intros h' [= <-]. cbn. split; [|done]. exists 2. split; [reflexivity|done].
  - exists h'. split; [exact E|]. split; [exact Hs|]. rewrite Hd. by apply Hin.
Defined.

End WeakCallback.
