(* ===== verification/NetProcInspector.v ===== *)
(** src/muduo/net/inspect/ProcessInspector.cc and SystemInspector.cc: the pages
    of the inspector about the process and the machine, made from the text
    files of /proc.

    Files are a parameter ([readFile] gives an error number and the text), as
    are the clock, gmtime_r and the answers of the other system calls. *)

From S2P Require Import Prelude BaseTimestamp BaseDouble BaseStringPiece BaseProcessInfo NetHttpRequest NetInspector.

Module ProcInspector.
Import ProcessInfo.

(** * Reading the files *)

Definition uptime (now start : Z) (showMicroseconds : bool) : bytes :=
  let age := now - start in
  let seconds := i32 (Z.quot age Timestamp.kMicroSecondsPerSecond) in
  let days := Z.quot seconds 86400 in
  let hours := Z.quot (Z.rem seconds 86400) 3600 in
  let minutes := Z.quot (Z.rem seconds 3600) 60 in
  let text := fmt_d days ++ lit " days " ++ fmt_0d 2 hours ++ lit ":" ++ fmt_0d 2 minutes ++ lit ":" ++
    fmt_0d 2 (Z.rem seconds 60) in
  if showMicroseconds
  then
    let microseconds := i32 (Z.rem age Timestamp.kMicroSecondsPerSecond) in
    snprintf 256 (text ++ lit "." ++ fmt_0d 6 microseconds)
  else snprintf 256 text.

Definition getLong (procStatus key : bytes) : Z :=
  match find key procStatus with
  | Some pos => strtol (zdrop (pos + zlen key) procStatus)
  | None => 0
  end.

(** [procStatus[i]] of a const string: the position after the last character
    reads as NUL, one beyond is undefined. *)
Definition char_at (s : bytes) (i : Z) : outcome Z :=
  if i =? zlen s then Ok 0
  else match znth s i with Some c => Ok c | None => Err (Undefined "string index out of range") end.
(** [while (s[i] is / is not c) ++i]; [None] when fuel runs out. *)
Fixpoint scan (fuel : nat) (test : Z -> bool) (s : bytes) (i : Z) : outcome (option Z) :=
  match fuel with
  | O => Ok None
  | S fuel => c ← char_at s i; if test c then scan fuel test s (i + 1) else Ok (Some i)
  end.
Definition getProcessName (procStatus : bytes) : outcome (option bytes) :=
  match find (lit "Name:") procStatus with
  | None => Ok (Some [])
  | Some pos =>
      let fuel := S (S (length procStatus)) in
      pos ← scan fuel (fun c => c =? 9) procStatus (pos + 5);
      match pos with
      | None => Ok None
      | Some pos =>
          eol ← scan fuel (fun c => negb (c =? 10)) procStatus pos;
          Ok match eol with Some eol => Some (zslice pos eol procStatus) | None => None end
      end
  end.

(** The text after the first blank. *)
Definition next (data : StringPiece.t) : outcome StringPiece.t :=
  let sp := find_idx 32 (StringPiece.text data) in
  if sp <? StringPiece.size data then StringPiece.remove_prefix (sp + 1) data
  else Ok (StringPiece.mk [] 0).
Fixpoint next_n (n : nat) (data : StringPiece.t) : outcome StringPiece.t :=
  match n with O => Ok data | S n => data ← next data; next_n n data end.
Definition getCpuTime (clockTicksPerSecond : Z) (data : StringPiece.t) : outcome CpuTime :=
  data ← next_n 10 data;
  let utime := strtol (StringPiece.data data) in
  data ← next data;
  let stime := strtol (StringPiece.data data) in
  let hz := d_of_Z clockTicksPerSecond in
  Ok (mkCpuTime (d_div (d_of_Z utime) hz) (d_div (d_of_Z stime) hz)).

(** What a C string holds. *)
Definition c_text (s : bytes) : bytes := ztake (StringPiece.strlen s) s.
Definition stringPrintf (out text : bytes) : bytes := out ++ c_text (snprintf 256 text).

(** * ProcessInspector::threads *)

Definition pad_right (w : nat) (s : bytes) : bytes := s ++ replicate (w - length s) 32.
(** The line of a thread, from its stat file; a null name is dereferenced. *)
Definition thread_line (hz tid : Z) (stat : bytes) : outcome bytes :=
  let name := procname stat in
  match StringPiece.ptr_ name with
  | [] => Err (Undefined "null pointer")
  | _ =>
      let rp := zlen stat - zlen (StringPiece.ptr_ name) + StringPiece.size name in
      c ← char_at stat rp;
      massert (c =? 41) "*rp == ')'";;
      let state := rp + 2 in
      let stat := ztake rp stat ++ [0] ++ zdrop (rp + 1) stat in
      data ← StringPiece.remove_prefix (state + 2) (StringPiece.of_string stat);
      t ← getCpuTime hz data;
      st ← char_at stat state;
      Ok (c_text (snprintf 256 (fmt_wd 5 tid ++ lit " " ++
        pad_right 16 (c_text (zdrop (rp - StringPiece.size name) stat)) ++ lit " " ++ [st] ++ lit " " ++
        fmt_wf 12 3 (userSeconds t) ++ lit " " ++ fmt_wf 12 3 (systemSeconds t) ++ [10])))
  end.
Fixpoint thread_lines (readFile : bytes -> Z * bytes) (hz pid : Z) (tids : list Z) : outcome bytes :=
  match tids with
  | [] => Ok []
  | tid :: tids =>
      let '(err, stat) := readFile (snprintf 256 (lit "/proc/" ++ fmt_d pid ++ lit "/task/" ++ fmt_d tid ++ lit "/stat")) in
      line ← (if err =? 0 then thread_line hz tid stat else Ok []);
      rest ← thread_lines readFile hz pid tids;
      Ok (line ++ rest)
  end.
Definition threads_page (readFile : bytes -> Z * bytes) (hz pid : Z) (task_dir : list bytes) : outcome bytes :=
  lines ← thread_lines readFile hz pid (threads task_dir);
  Ok (lit "  TID NAME             S    User Time  System Time" ++ [10] ++ lines).

(** * The other pages *)

Definition pid_page (pid : Z) : bytes := snprintf 32 (fmt_d pid).
Definition openedFiles_page (fd_dir : list bytes) : bytes := snprintf 32 (fmt_d (openedFiles fd_dir)).

Definition overview (readFile : bytes -> Z * bytes) (gmtime_r : Z -> tm) (now startTime : Z)
    (exe host : option bytes) (username_ : bytes) (debug : bool) (pid bits hz : Z)
    (fd_dir : list bytes) (rlimit : option Z) (times : option (Z * Z)) : outcome (option bytes) :=
  let status := procStatus readFile in
  name ← getProcessName status;
  let mib key := fmt_f 3 (d_div (d_of_Z (getLong status key)) (d_of_Z 1024)) in
  let t := cpuTime hz times in
  Ok match name with
  | None => None
  | Some name =>
      let r := lit "Page generated at " ++ Timestamp.toFormattedString gmtime_r true now ++ lit " (UTC)" ++ [10] ++
        lit "Started at " ++ Timestamp.toFormattedString gmtime_r true startTime ++ lit " (UTC), up for " ++
        uptime now startTime true ++ [10] ++
        name ++ lit " (" ++ exePath exe ++ lit ") running as " ++ username_ ++ lit " on " ++ hostname host ++ [10] ++
        (if debug then lit "WARNING: debug build!" ++ [10] else []) in
      let r := stringPrintf r (lit "pid " ++ fmt_d pid ++ lit ", num of threads " ++ fmt_d (getLong status (lit "Threads:")) ++
        lit ", bits " ++ fmt_d bits ++ [10]) in
      let r := stringPrintf (r ++ lit "Virtual memory: ") (mib (lit "VmSize:") ++ lit " MiB, ") in
      let r := stringPrintf (r ++ lit "RSS memory: ") (mib (lit "VmRSS:") ++ lit " MiB" ++ [10]) in
      let r := stringPrintf r (lit "Opened files: " ++ fmt_d (openedFiles fd_dir) ++ lit ", limit: " ++
        fmt_d (maxOpenFiles rlimit fd_dir) ++ [10]) in
      Some (stringPrintf r (lit "User time: " ++ fmt_wf 12 3 (userSeconds t) ++ lit "s" ++ [10] ++
        lit "Sys time:  " ++ fmt_wf 12 3 (systemSeconds t) ++ lit "s" ++ [10]))
  end.

(** [uname] gives nodename, machine, sysname, release and version. *)
Record utsname := mkuts { nodename : bytes; machine : bytes; sysname : bytes; release : bytes; version_ : bytes }.
Definition sys_overview (readFile : bytes -> Z * bytes) (gmtime_r : Z -> tm) (now : Z) (uname : option utsname)
    : outcome bytes :=
  let r := lit "Page generated at " ++ Timestamp.toFormattedString gmtime_r true now ++ lit " (UTC)" ++ [10] in
  let r := match uname with
    | Some un =>
        let r := stringPrintf r (lit "Hostname: " ++ nodename un ++ [10]) in
        let r := stringPrintf r (lit "Machine: " ++ machine un ++ [10]) in
        stringPrintf r (lit "OS: " ++ sysname un ++ lit " " ++ release un ++ lit " " ++ version_ un ++ [10])
    | None => r
    end in
  let stat := snd (readFile (lit "/proc/stat")) in
  bootTime ← int64_op (Timestamp.kMicroSecondsPerSecond * getLong stat (lit "btime "));
  let r := r ++ lit "Boot time: " ++ Timestamp.toFormattedString gmtime_r false bootTime ++ lit " (UTC)" ++ [10] ++
    lit "Up time: " ++ uptime now bootTime false ++ [10] in
  let loadavg := snd (readFile (lit "/proc/loadavg")) in
  let r := stringPrintf r (lit "Processes created: " ++ fmt_d (getLong stat (lit "processes ")) ++ [10]) in
  let r := stringPrintf r (lit "Loadavg: " ++ c_text loadavg ++ [10]) in
  let meminfo := snd (readFile (lit "/proc/meminfo")) in
  let total_kb := getLong meminfo (lit "MemTotal:") in
  let free_kb := getLong meminfo (lit "MemFree:") in
  let buffers_kb := getLong meminfo (lit "Buffers:") in
  let cached_kb := getLong meminfo (lit "Cached:") in
  let mib x := fmt_wd 6 (Z.quot x 1024) ++ lit " MiB" ++ [10] in
  let r := stringPrintf r (lit "Total Memory: " ++ mib total_kb) in
  let r := stringPrintf r (lit "Free Memory:  " ++ mib free_kb) in
  let r := stringPrintf r (lit "Buffers:      " ++ mib buffers_kb) in
  let r := stringPrintf r (lit "Cached:       " ++ mib cached_kb) in
  used ← (x ← int64_op (total_kb - free_kb); x ← int64_op (x - buffers_kb); int64_op (x - cached_kb));
  free ← (x ← int64_op (free_kb + buffers_kb); int64_op (x + cached_kb));
  let r := stringPrintf r (lit "Real Used:    " ++ mib used) in
  Ok (stringPrintf r (lit "Real Free:    " ++ mib free)).
Section Files.
Context (readFile : bytes -> Z * bytes).
Definition loadavg_page : bytes := snd (readFile (lit "/proc/loadavg")).
Definition version_page : bytes := snd (readFile (lit "/proc/version")).
Definition cpuinfo_page : bytes := snd (readFile (lit "/proc/cpuinfo")).
Definition meminfo_page : bytes := snd (readFile (lit "/proc/meminfo")).
Definition stat_page : bytes := snd (readFile (lit "/proc/stat")).
Definition status_page : bytes := procStatus readFile.
End Files.

Definition registerCommands (overview pid status threads : Inspector.Callback) (ins : Inspector.t) : Inspector.t :=
  let ins := Inspector.add (lit "proc") (lit "overview") overview (lit "print basic overview") ins in
  let ins := Inspector.add (lit "proc") (lit "pid") pid (lit "print pid") ins in
  let ins := Inspector.add (lit "proc") (lit "status") status (lit "print /proc/self/status") ins in
  Inspector.add (lit "proc") (lit "threads") threads (lit "list /proc/self/task") ins.
Definition sys_registerCommands (overview loadavg version cpuinfo meminfo stat : Inspector.Callback) (ins : Inspector.t)
    : Inspector.t :=
  let ins := Inspector.add (lit "sys") (lit "overview") overview (lit "print system overview") ins in
  let ins := Inspector.add (lit "sys") (lit "loadavg") loadavg (lit "print /proc/loadavg") ins in
  let ins := Inspector.add (lit "sys") (lit "version") version (lit "print /proc/version") ins in
  let ins := Inspector.add (lit "sys") (lit "cpuinfo") cpuinfo (lit "print /proc/cpuinfo") ins in
  let ins := Inspector.add (lit "sys") (lit "meminfo") meminfo (lit "print /proc/meminfo") ins in
  Inspector.add (lit "sys") (lit "stat") stat (lit "print /proc/stat") ins.

(** * Lemmas *)

Lemma find_idx_app c s1 s2 : c ∉ s1 -> find_idx c (s1 ++ c :: s2) = zlen s1.
Proof.
  induction s1 as [|x s1 IH]; cbn [app find_idx]; [by rewrite Z.eqb_refl|].
  rewrite not_elem_of_cons. intros [Hx Hs]. destruct (Z.eqb_spec x c); [congruence|]. by rewrite IH, zlen_cons.
Qed.
Lemma next_field f r : (32 ∉ f) -> zlen f + 1 + zlen r < 2 ^ 31 ->
  next (StringPiece.mk (f ++ 32 :: r) (zlen f + 1 + zlen r)) = Ok (StringPiece.mk r (zlen r)).
Proof.
  intros Hf Hl. pose proof (zlen_nonneg f). pose proof (zlen_nonneg r). unfold next, StringPiece.text, StringPiece.size.
  cbn [StringPiece.length_ StringPiece.ptr_].
  assert (zlen (f ++ 32 :: r) = zlen f + 1 + zlen r) as Hz by (rewrite zlen_app, zlen_cons; lia).
  rewrite ztake_all by lia. rewrite find_idx_app by done. destruct (Z.ltb_spec (zlen f) (zlen f + 1 + zlen r)); [|lia].
  unfold StringPiece.remove_prefix. cbn [StringPiece.length_ StringPiece.ptr_]. rewrite Hz.
  replace (_ && _) with true by (symmetry; apply andb_true_iff; lia). do 2 f_equal.
  - change (f ++ 32 :: r) with (f ++ [32] ++ r). rewrite app_assoc. apply zdrop_app_exact. by rewrite zlen_app.
  - unfold i32. rewrite swrap_small; [lia|lia|unfold srange; lia].
Qed.
Definition blanked (fs : list bytes) : bytes := mjoin ((fun f => f ++ [32]) <$> fs).
Lemma next_fields fs r : Forall (fun f => 32 ∉ f) fs -> zlen (blanked fs ++ r) < 2 ^ 31 ->
  next_n (length fs) (StringPiece.mk (blanked fs ++ r) (zlen (blanked fs ++ r))) = Ok (StringPiece.mk r (zlen r)).
Proof.
  intros Hfs. induction Hfs as [|f fs Hf _ IH]; [done|]. intros Hl.
  assert (blanked (f :: fs) ++ r = f ++ 32 :: blanked fs ++ r) as E.
  { unfold blanked. cbn. by rewrite <-!app_assoc. }
  rewrite E in *. cbn [length next_n]. rewrite zlen_app, zlen_cons in Hl. pose proof (zlen_nonneg f).
  replace (zlen (f ++ 32 :: blanked fs ++ r)) with (zlen f + 1 + zlen (blanked fs ++ r)) by (rewrite (zlen_app f), zlen_cons; lia).
  rewrite next_field by (done || lia). cbn [mbind outcome_bind]. apply IH. lia.
Qed.

(** A file /proc/<pid>/stat as proc(5) describes it: the fields 4 to 13, the
    user and system time in ticks, and the rest. *)
Definition stat_text (pid comm : bytes) (st : Z) (fields : list bytes) (utime stime : Z) (rest : bytes) : bytes :=
  pid ++ 40 :: comm ++ 41 :: 32 :: st :: 32 :: blanked fields ++ fmt_d utime ++ 32 :: fmt_d stime ++ rest.
Record stat_ok (pid comm : bytes) (st : Z) (fields : list bytes) (utime stime : Z) (rest : bytes) : Prop := {
  pid_ok : 40 ∉ pid;
  comm_ok : 0 ∉ comm;
  st_ok : st <> 41;
  fields_ok : length fields = 10%nat /\ Forall (fun f => (32 ∉ f) /\ (41 ∉ f)) fields;
  utime_ok : 0 <= utime < 2 ^ 63;
  stime_ok : 0 <= stime < 2 ^ 63;
  rest_ok : ends isdigit rest /\ (41 ∉ rest);
  size_ok : zlen (stat_text pid comm st fields utime stime rest) < 2 ^ 31
}.

Lemma getCpuTime_fields hz fields utime stime rest :
  length fields = 10%nat -> Forall (fun f => 32 ∉ f) fields -> 0 <= utime < 2 ^ 63 -> 0 <= stime < 2 ^ 63 ->
  ends isdigit rest -> zlen (blanked fields ++ fmt_d utime ++ 32 :: fmt_d stime ++ rest) < 2 ^ 31 ->
  getCpuTime hz (StringPiece.of_string (blanked fields ++ fmt_d utime ++ 32 :: fmt_d stime ++ rest)) =
    Ok (mkCpuTime (d_div (d_of_Z utime) (d_of_Z hz)) (d_div (d_of_Z stime) (d_of_Z hz))).
Proof.
  intros Hn Hf Hu Hs Hr Hl. unfold getCpuTime, StringPiece.of_string. rewrite <-Hn.
  unfold i32. pose proof (zlen_nonneg (blanked fields ++ fmt_d utime ++ 32 :: fmt_d stime ++ rest)).
  rewrite swrap_small by (lia || unfold srange; lia). rewrite next_fields by done. cbn [mbind outcome_bind].
  unfold StringPiece.data. cbn [StringPiece.ptr_].
  assert (32 ∉ fmt_d utime) as Hsp.
  { pose proof (fmt_d_digits utime ltac:(lia)) as Hd. rewrite Forall_forall in Hd. intros Hin. specialize (Hd _ Hin). lia. }
  pose proof (strtol_number [] utime (32 :: fmt_d stime ++ rest)) as E1.
  pose proof (strtol_number [] stime rest) as E2. cbn [app] in E1, E2.
  rewrite E1; [|by apply Forall_nil|lia|done].
  rewrite zlen_app in Hl. pose proof (zlen_nonneg (blanked fields)).
  replace (zlen (fmt_d utime ++ 32 :: fmt_d stime ++ rest)) with (zlen (fmt_d utime) + 1 + zlen (fmt_d stime ++ rest)) in *
    by (rewrite (zlen_app (fmt_d utime)), zlen_cons; lia).
  rewrite next_field by (done || lia). cbn [mbind outcome_bind StringPiece.ptr_].
  by rewrite E2 by (done || by apply Forall_nil).
Qed.

Lemma char_at_mid s1 c s2 : char_at (s1 ++ c :: s2) (zlen s1) = Ok c.
Proof.
  unfold char_at, znth. rewrite zlen_app, zlen_cons. pose proof (zlen_nonneg s1). pose proof (zlen_nonneg s2).
  destruct (Z.eqb_spec (zlen s1) (zlen s1 + (1 + zlen s2))); [lia|]. destruct (Z.ltb_spec (zlen s1) 0); [lia|].
  rewrite list_lookup_middle; [done|]. unfold zlen. lia.
Qed.
Lemma c_text_cut s1 s2 : (0 ∉ s1) -> c_text (s1 ++ 0 :: s2) = s1.
Proof. intros H. unfold c_text, StringPiece.strlen. rewrite find_idx_app by done. by apply ztake_app_exact. Qed.
Lemma blanked_notin c fs : c <> 32 -> Forall (fun f => c ∉ f) fs -> c ∉ blanked fs.
Proof.
  intros Hc H. unfold blanked. induction H as [|f fs Hf _ IH]; [apply not_elem_of_nil|]. cbn.
  rewrite !not_elem_of_app. split; [|done]. split; [done|]. by rewrite list_elem_of_singleton.
Qed.
Lemma number_notin c x : 0 <= x -> c < 48 -> c ∉ fmt_d x.
Proof.
  intros Hx Hc Hin. pose proof (fmt_d_digits x Hx) as Hd. rewrite Forall_forall in Hd. specialize (Hd _ Hin). lia.
Qed.

(** * Theorems *)

(** The line of a thread shows the name between the outer parentheses, the
    state and the times of its stat file, whatever characters the name has;
    nothing is read outside the file and the assertion holds. *)
Theorem thread_line_shows_stat hz tid pid comm st fields utime stime rest :
  stat_ok pid comm st fields utime stime rest ->
  thread_line hz tid (stat_text pid comm st fields utime stime rest) =
  Ok (c_text (snprintf 256 (fmt_wd 5 tid ++ lit " " ++ pad_right 16 comm ++ lit " " ++ [st] ++ lit " " ++
    fmt_wf 12 3 (d_div (d_of_Z utime) (d_of_Z hz)) ++ lit " " ++ fmt_wf 12 3 (d_div (d_of_Z stime) (d_of_Z hz)) ++ [10]))).
Proof.
  intros [Hp Hc Hst [Hn Hf] Hu Hs [Hr Hr'] Hsz]. unfold stat_text in *.
  set (body := blanked fields ++ fmt_d utime ++ 32 :: fmt_d stime ++ rest) in *.
  assert (41 ∉ 32 :: st :: 32 :: body) as H41.
  { rewrite !not_elem_of_cons. unfold body. rewrite !not_elem_of_app, not_elem_of_cons, not_elem_of_app.
    split_and!; try done; try (apply number_notin; lia). apply blanked_notin; [done|].
    eapply Forall_impl; [exact Hf|]. by intros f [_ ?]. }
  pose proof (zlen_nonneg pid). pose proof (zlen_nonneg comm). pose proof (zlen_nonneg body).
  assert (zlen (pid ++ 40 :: comm ++ 41 :: 32 :: st :: 32 :: body) = zlen pid + 1 + zlen comm + 4 + zlen body) as Hlen
    by (rewrite !zlen_app, !zlen_cons, zlen_app, !zlen_cons; lia).
  unfold thread_line. rewrite procname_piece by (done || lia). unfold StringPiece.size.
  cbn [StringPiece.ptr_ StringPiece.length_].
  assert (forall (A : Type) (l : bytes) (x y : A), l <> [] -> match l with [] => x | _ => y end = y) as Hne by (by intros A []).
  rewrite Hne by (by destruct comm). clear Hne.
  replace (zlen (pid ++ 40 :: comm ++ 41 :: 32 :: st :: 32 :: body) - zlen (comm ++ 41 :: 32 :: st :: 32 :: body) + zlen comm)
    with (zlen (pid ++ 40 :: comm))
    by (rewrite Hlen, !zlen_app, !zlen_cons; lia).
  set (rp := zlen (pid ++ 40 :: comm)). assert (rp = zlen pid + 1 + zlen comm) as Hrp by (unfold rp; rewrite zlen_app, zlen_cons; lia).
  assert (pid ++ 40 :: comm ++ 41 :: 32 :: st :: 32 :: body = (pid ++ 40 :: comm) ++ 41 :: 32 :: st :: 32 :: body) as E1
    by (by rewrite <-app_assoc).
  rewrite E1, char_at_mid. cbn [mbind outcome_bind Z.eqb Pos.eqb massert].
  rewrite ztake_app_exact by done.
  assert (zdrop (rp + 1) ((pid ++ 40 :: comm) ++ 41 :: 32 :: st :: 32 :: body) = 32 :: st :: 32 :: body) as ->.
  { change (?a ++ 41 :: ?b) with (a ++ [41] ++ b). rewrite app_assoc. apply zdrop_app_exact. by rewrite zlen_app. }
  cbn [app]. set (mem := (pid ++ 40 :: comm) ++ 0 :: 32 :: st :: 32 :: body).
  assert (zlen mem = rp + 4 + zlen body) as Hm by (unfold mem; rewrite zlen_app, !zlen_cons; fold rp; lia).
  unfold StringPiece.remove_prefix, StringPiece.of_string. cbn [StringPiece.ptr_ StringPiece.length_]. rewrite Hm.
  replace (_ && _) with true by (symmetry; apply andb_true_iff; lia). cbn [mbind outcome_bind].
  assert (zdrop (rp + 2 + 2) mem = body) as ->.
  { unfold mem. change (?a ++ 0 :: 32 :: st :: 32 :: ?b) with (a ++ [0; 32; st; 32] ++ b). rewrite app_assoc.
    apply zdrop_app_exact. rewrite zlen_app. fold rp. unfold zlen. cbn. lia. }
  assert (i32 (i32 (rp + 4 + zlen body) - (rp + 2 + 2)) = i32 (zlen body)) as ->.
  { unfold i32. rewrite (swrap_small 32 (rp + 4 + zlen body)) by (lia || unfold srange; lia). f_equal. lia. }
  change (StringPiece.mk body (i32 (zlen body))) with (StringPiece.of_string body). unfold body at 1.
  rewrite getCpuTime_fields; [|done| |done..|fold body; lia].
  2: { eapply Forall_impl; [exact Hf|]. by intros f [? _]. }
  cbn [mbind outcome_bind].
  assert (char_at mem (rp + 2) = Ok st) as ->.
  { unfold mem. change (?a ++ 0 :: 32 :: st :: 32 :: ?b) with (a ++ [0; 32] ++ st :: 32 :: b). rewrite app_assoc.
    replace (rp + 2) with (zlen ((pid ++ 40 :: comm) ++ [0; 32])) by (rewrite zlen_app; done). apply char_at_mid. }
  cbn [mbind outcome_bind userSeconds systemSeconds].
  assert (c_text (zdrop (rp - zlen comm) mem) = comm) as ->.
  { assert (mem = (pid ++ [40]) ++ comm ++ 0 :: 32 :: st :: 32 :: body) as -> by (unfold mem; by rewrite <-!app_assoc).
    rewrite zdrop_app_exact; [by apply c_text_cut|]. rewrite zlen_app. unfold zlen at 3. cbn. lia. }
  done.
Qed.

(** A number is read from the first place the key stands at. *)
Theorem getLong_reads_field pre key ws x rest :
  Forall (fun c => isspace c = true) ws -> 0 <= x < 2 ^ 63 -> ends isdigit rest ->
  (forall j, 0 <= j < zlen pre -> ~ key `prefix_of` zdrop j (pre ++ key ++ ws ++ fmt_d x ++ rest)) ->
  getLong (pre ++ key ++ ws ++ fmt_d x ++ rest) key = x.
Proof.
  intros Hws Hx Hr Hfirst. unfold getLong.
  assert (find key (pre ++ key ++ ws ++ fmt_d x ++ rest) = Some (zlen pre)) as ->.
  { apply find_spec. pose proof (zlen_nonneg pre). split; [split; [lia|zlia]|]. split; [|done].
    rewrite zdrop_app_exact by done. by exists (ws ++ fmt_d x ++ rest). }
  rewrite app_assoc, zdrop_app_exact by (by rewrite zlen_app). by apply strtol_number.
Qed.

(** The time a process is up, of less than 2^31 seconds: the parts of a day
    are in range and add up. *)
Theorem uptime_adds_up start now :
  0 <= now - start < 2 ^ 31 * 1000000 ->
  exists days hours minutes seconds micros,
    uptime now start true = fmt_d days ++ lit " days " ++ fmt_0d 2 hours ++ lit ":" ++ fmt_0d 2 minutes ++ lit ":" ++
      fmt_0d 2 seconds ++ lit "." ++ fmt_0d 6 micros /\
    0 <= hours < 24 /\ 0 <= minutes < 60 /\ 0 <= seconds < 60 /\ 0 <= micros < 1000000 /\ 0 <= days /\
    now = start + ((days * 86400 + hours * 3600 + minutes * 60 + seconds) * 1000000 + micros).
Proof.
  intros Ha. set (age := now - start) in *. set (secs := age / 1000000).
  assert (0 <= secs < 2 ^ 31) as Hs by (unfold secs; split; [apply Z.div_pos; lia|apply Z.div_lt_upper_bound; lia]).
  exists (secs / 86400), (secs mod 86400 / 3600), (secs mod 3600 / 60), (secs mod 60), (age mod 1000000).
  pose proof (Z.mod_pos_bound age 1000000 ltac:(lia)) as Hm.
  assert (0 <= secs mod 86400 / 3600 < 24 /\ 0 <= secs mod 3600 / 60 < 60 /\ 0 <= secs mod 60 < 60 /\
    secs / 86400 * 86400 + secs mod 86400 / 3600 * 3600 + secs mod 3600 / 60 * 60 + secs mod 60 = secs /\
    0 <= secs / 86400 < 10 ^ 5) as (Hh & Hmi & Hse & Hsum & Hd)
    by (clearbody secs; clear -Hs; Z.to_euclidean_division_equations; lia).
  assert (now = start + (secs * 1000000 + age mod 1000000)) as Hnow
    by (unfold secs; pose proof (Z.div_mod age 1000000); unfold age in *; lia).
  split; [|rewrite Hsum; split_and!; lia].
  unfold uptime, Timestamp.kMicroSecondsPerSecond. fold age. change (1000 * 1000) with 1000000.
  rewrite (Z.quot_div_nonneg age), (Z.rem_mod_nonneg age) by lia. fold secs.
  unfold i32. rewrite !swrap_small by (lia || unfold srange; lia).
  rewrite !Z.rem_mod_nonneg, !Z.quot_div_nonneg by (lia || apply Z.mod_pos_bound; lia).
  unfold snprintf. rewrite ztake_all.
  - by rewrite <-!app_assoc.
  - pose proof (fmt_d_length 5 (secs / 86400) ltac:(lia) ltac:(lia)) as Hl. revert Hl.
    rewrite !zlen_app, !(fmt_0d_length 2), (fmt_0d_length 6) by (lia || (cbn; lia)).
    change (zlen (lit " days ")) with 6. change (zlen (lit ":")) with 1. change (zlen (lit ".")) with 1. lia.
Qed.

Lemma scan_ok test run : forall fuel pre c rest,
  Forall (fun x => test x = true) run -> test c = false -> (length run < fuel)%nat ->
  scan fuel test (pre ++ run ++ c :: rest) (zlen pre) = Ok (Some (zlen (pre ++ run))).
Proof.
  induction run as [|x run IH]; intros fuel pre c rest Hr Hc Hf; destruct fuel as [|fuel]; cbn [length] in Hf; try lia; cbn [scan app].
  - rewrite char_at_mid. cbn [mbind outcome_bind]. by rewrite Hc, app_nil_r.
  - rewrite char_at_mid. cbn [mbind outcome_bind]. apply Forall_cons in Hr as [Hx Hr]. rewrite Hx.
    pose proof (IH fuel (pre ++ [x]) c rest Hr Hc ltac:(lia)) as E. rewrite <-!app_assoc in E. cbn [app] in E.
    rewrite zlen_app in E. exact E.
Qed.

(** The name of the process, up to the end of its line. *)
Theorem getProcessName_reads_name pre tabs name rest :
  (forall j, 0 <= j < zlen pre -> ~ lit "Name:" `prefix_of` zdrop j (pre ++ lit "Name:" ++ tabs ++ name ++ 10 :: rest)) ->
  Forall (fun c => c = 9) tabs -> ends (fun c => c =? 9) (name ++ [10]) -> (10 ∉ name) ->
  getProcessName (pre ++ lit "Name:" ++ tabs ++ name ++ 10 :: rest) = Ok (Some name).
Proof.
  intros Hfirst Ht He Hn. unfold getProcessName.
  assert (find (lit "Name:") (pre ++ lit "Name:" ++ tabs ++ name ++ 10 :: rest) = Some (zlen pre)) as ->.
  { apply find_spec. pose proof (zlen_nonneg pre). split; [split; [lia|zlia]|]. split; [|done].
    rewrite zdrop_app_exact by done. by eexists. }
  set (text := pre ++ lit "Name:" ++ tabs ++ name ++ 10 :: rest).
  assert (exists c t, name ++ 10 :: rest = c :: t /\ (c =? 9) = false) as (c & t & Ect & Hc).
  { destruct name as [|c name]; [by exists 10, rest|]. by exists c, (name ++ 10 :: rest). }
  assert (text = (pre ++ lit "Name:") ++ tabs ++ c :: t) as E1 by (unfold text; by rewrite Ect, <-app_assoc).
  assert (zlen pre + 5 = zlen (pre ++ lit "Name:")) as -> by (by rewrite zlen_app).
  rewrite E1 at 2. rewrite scan_ok; [|eapply Forall_impl; [exact Ht|]; intros x ->; done|done|].
  2: { rewrite E1. rewrite !length_app. lia. }
  cbn [mbind outcome_bind]. assert (text = ((pre ++ lit "Name:") ++ tabs) ++ name ++ 10 :: rest) as E2.
  { unfold text. by rewrite <-!app_assoc. }
  rewrite E2 at 2. rewrite scan_ok; [| |done|].
  - cbn [mbind outcome_bind]. do 2 f_equal. rewrite E2. apply zslice_app_mid; [done|]. by rewrite (zlen_app _ name).
  - apply Forall_forall. intros x Hx. destruct (Z.eqb_spec x 10) as [->|]; done.
  - rewrite E2, !length_app. lia.
Qed.

(** * Examples *)

Definition example_stat : bytes :=
  stat_text (lit "42 ") (lit "a) (b") 83 (lit <$> ["1"; "2"; "3"; "4"; "-1"; "6"; "7"; "8"; "9"; "10"]) 150 25 (lit " 0").
Lemma thread_line_shows_stat_witness :
  stat_ok (lit "42 ") (lit "a) (b") 83 (lit <$> ["1"; "2"; "3"; "4"; "-1"; "6"; "7"; "8"; "9"; "10"]) 150 25 (lit " 0") /\
  thread_line 100 7 example_stat =
    Ok (lit "    7 a) (b            S        1.500        0.250" ++ [10]).
Proof.
  assert (stat_ok (lit "42 ") (lit "a) (b") 83 (lit <$> ["1"; "2"; "3"; "4"; "-1"; "6"; "7"; "8"; "9"; "10"]) 150 25 (lit " 0")) as H.
  { split; try lia; try (apply (bool_decide_unpack _); vm_compute; exact I).
    split; [reflexivity|]. apply (bool_decide_unpack _). vm_compute. exact I. }
  split; [exact H|]. unfold example_stat. rewrite (thread_line_shows_stat 100 7 _ _ _ _ _ _ _ H). vm_compute. reflexivity.
Defined.

(** A process whose name has the text of a key: the number after the name is
    taken for the number of threads. *)
Example name_hides_threads :
  getLong (lit "Name:" ++ [9] ++ lit "Threads:99" ++ [10] ++ lit "Threads:" ++ [9] ++ lit "4" ++ [10]) (lit "Threads:") = 99.
Proof. vm_compute. reflexivity. Qed.
(** A status file cut before the end of the first line is read past its end. *)
Example cut_status_overruns :
  getProcessName (lit "Name:" ++ [9] ++ lit "server") = Err (Undefined "string index out of range").
Proof. vm_compute. reflexivity. Qed.
(** A thread that ends while its stat file is read: an empty text has no
    parentheses, and the null name is dereferenced. *)
Example empty_stat_is_dereferenced : thread_line 100 7 [] = Err (Undefined "null pointer").
Proof. vm_compute. reflexivity. Qed.
End ProcInspector.
