(* ===== verification/NetPerformanceInspector.v ===== *)
(** src/muduo/net/inspect/PerformanceInspector.cc: the inspector's pages about
    the heap and the CPU profiler.

    gperftools is a class over a world of its own.  The page functions are
    state-passing; the files and the clock they use are parameters.  The file
    proves that the pages are registered beside what the inspector serves, that
    the histogram always fits in its log line, and that profiling leaves neither
    a running profiler nor a file behind. *)

From S2P Require Import Prelude BaseTimestamp BaseDouble BaseStringPiece BaseLogStream BaseLogging BaseProcessInfo.
From S2P Require Import BaseException NetHttpRequest NetInspector.

Module PerformanceInspector.

(** MallocExtension and the profiler. *)
Class Gperftools (W : Type) := {
  GetHeapSample : W -> bytes * W;
  GetHeapGrowthStacks : W -> bytes * W;
  (** the text left in a buffer of the size given *)
  GetStats : Z -> W -> bytes * W;
  (** blocks, total and histogram *)
  MallocMemoryStats : W -> Z * Z * list Z * W;
  GetMemoryReleaseRate : W -> double;
  ReleaseFreeMemory : W -> W;
  ProfilerStart : bytes -> W -> bool * W;
  ProfilerStop : W -> W
}.

Section Pages.
Context {W : Type} `{Gperftools W}.

Definition heap (w : W) : bytes * W := GetHeapSample w.
Definition growth (w : W) : bytes * W := GetHeapGrowthStacks w.
Definition cmdline : bytes := [].
Definition memstats (w : W) : bytes * W := let '(buf, w) := GetStats (1024 * 64) w in (Exception.c_str buf, w).

Definition histogram_items (blocks total : Z) (histogram : list Z) : list LogStream.item :=
  [LogStream.ICstr (Some (lit "blocks ")); LogStream.IInteger blocks; LogStream.ICstr (Some (10 :: lit "total "));
   LogStream.IInteger total; LogStream.ICstr (Some [10])] ++
  concat (imap (fun i h => [LogStream.IInteger (Z.of_nat i); LogStream.ICstr (Some (lit " ")); LogStream.IInteger h;
                            LogStream.ICstr (Some [10])]) histogram).
Definition memhistogram (fmt_g : double -> bytes) (w : W) : outcome (bytes * W) :=
  let '(blocks, total, histogram, w) := MallocMemoryStats w in
  s ← LogStream.insert_all fmt_g (LogStream.mkbuf (replicate (Z.to_nat LogStream.kSmallBuffer) 0) 0)
        (histogram_items blocks total histogram);
  Ok (LogStream.toString s, w).

Definition releaseFreeMemory (w : W) : bytes * W :=
  let buf := snprintf 256 (lit "memory release rate: " ++ fmt_f 6 (GetMemoryReleaseRate w) ++
                           10 :: lit "All free memory released." ++ [10]) in
  (buf, ReleaseFreeMemory w).

(** What [profile] calls beside the profiler: the sleep in microseconds, the
    file read with its limit, the file removed. *)
Inductive syscall := SleepUsec (usec : Z) | ReadFile (filename : bytes) (maxSize : Z) | Unlink (filename : bytes).
Definition profile_file (procname pidString : bytes) (now : Timestamp.t) : bytes :=
  lit "/tmp/" ++ procname ++ lit "." ++ pidString ++ lit "." ++ Timestamp.toString now ++ lit ".profile".
(** [readFile] gives the text of the file as it is when it is read. *)
Definition profile (procname pidString : bytes) (now : Timestamp.t) (readFile : bytes -> Z -> W -> bytes) (w : W)
    : bytes * list syscall * W :=
  let filename := profile_file procname pidString now in
  let '(started, w) := ProfilerStart (Exception.c_str filename) w in
  if started
  then
    let w := ProfilerStop w in
    (readFile filename (1024 * 1024) w,
     [SleepUsec (30 * 1000 * 1000); ReadFile filename (1024 * 1024); Unlink (Exception.c_str filename)], w)
  else ([], [], w).
End Pages.

Definition registerCommands (heap growth profile cmdline memstats memhistogram releaseFreeMemory : Inspector.Callback)
    (ins : Inspector.t) : Inspector.t :=
  let ins := Inspector.add (lit "pprof") (lit "heap") heap (lit "get heap information") ins in
  let ins := Inspector.add (lit "pprof") (lit "growth") growth (lit "get heap growth information") ins in
  let ins := Inspector.add (lit "pprof") (lit "profile") profile
    (lit "get cpu profiling information. CAUTION: blocking thread for 30 seconds!") ins in
  let ins := Inspector.add (lit "pprof") (lit "cmdline") cmdline (lit "get command line") ins in
  let ins := Inspector.add (lit "pprof") (lit "memstats") memstats (lit "get memory stats") ins in
  let ins := Inspector.add (lit "pprof") (lit "memhistogram") memhistogram (lit "get memory histogram") ins in
  Inspector.add (lit "pprof") (lit "releasefreememory") releaseFreeMemory (lit "release free memory") ins.

(** * Theorems *)

(** The seven pages are served beside whatever the inspector served before:
    its other modules and their commands are unchanged. *)
Theorem performance_pages_registered ins r (cbs : list Inspector.Callback) h g p c ms mh rf :
  Inspector.refines ins r -> cbs = [h; g; p; c; ms; mh; rf] ->
  let ins' := registerCommands h g p c ms mh rf ins in
  (exists r', Inspector.refines ins' r' /\ forall m cmd, m <> lit "pprof" -> r' !! (m, cmd) = r !! (m, cmd)) /\
  (fun cmd => Inspector.find2 (lit "pprof") cmd (Inspector.modules_ ins')) <$>
    [lit "heap"; lit "growth"; lit "profile"; lit "cmdline"; lit "memstats"; lit "memhistogram"; lit "releasefreememory"] =
  Some <$> cbs.
Proof.
  intros Hr -> ins'.
  set (ops := [Inspector.Add (lit "pprof") (lit "heap") h (lit "get heap information");
    Inspector.Add (lit "pprof") (lit "growth") g (lit "get heap growth information");
    Inspector.Add (lit "pprof") (lit "profile") p (lit "get cpu profiling information. CAUTION: blocking thread for 30 seconds!");
    Inspector.Add (lit "pprof") (lit "cmdline") c (lit "get command line");
    Inspector.Add (lit "pprof") (lit "memstats") ms (lit "get memory stats");
    Inspector.Add (lit "pprof") (lit "memhistogram") mh (lit "get memory histogram");
    Inspector.Add (lit "pprof") (lit "releasefreememory") rf (lit "release free memory")]).
  pose proof (Inspector.refines_run ops ins r Hr) as Hr'.
  change (foldl Inspector.apply ins ops) with ins' in Hr'. split.
  - exists (foldl Inspector.registry r ops). split; [exact Hr'|]. intros m cmd Hm. subst ops. cbn [foldl Inspector.registry].
    by rewrite !lookup_insert_ne by congruence.
  - pose proof (Inspector.ref_cb _ _ Hr' (lit "pprof")) as Hc. cbn [fmap list_fmap]. rewrite !Hc. subst ops.
    cbn [foldl Inspector.registry]. rewrite !lookup_insert. done.
Qed.

(** Profiling leaves nothing behind: the profiler is stopped when it was
    started, and the file it wrote is removed after it was read. *)
Theorem profile_cleans_up {W} `{Gperftools W} procname pid now readFile (w : W) :
  let file := profile_file procname pid now in
  let '(text, calls, w') := profile procname pid now readFile w in
  match ProfilerStart (Exception.c_str file) w with
  | (true, w1) => w' = ProfilerStop w1 /\ text = readFile file (2 ^ 20) w' /\
      exists before after, calls = before ++ [ReadFile file (2 ^ 20)] ++ after /\ after = [Unlink (Exception.c_str file)]
  | (false, w1) => w' = w1 /\ text = [] /\ calls = []
  end.
Proof.
  intros file. unfold profile. fold file. destruct (ProfilerStart _ w) as [[] w1]; [|done].
  split; [done|]. split; [done|]. by exists [SleepUsec (30 * 1000 * 1000)], [Unlink (Exception.c_str file)].
Qed.

Lemma fmt_d_int x : srange 32 x -> zlen (fmt_d x) <= 11.
Proof.
  intros Hx. unfold srange in Hx. destruct (Z_lt_le_dec x 0).
  - rewrite LogStream.fmt_d_neg by done. rewrite zlen_cons. pose proof (fmt_d_length 10 (- x)) as Hl.
    change (10 ^ Z.of_nat 10) with 10000000000 in Hl. lia.
  - pose proof (fmt_d_length 10 x) as Hl. change (10 ^ Z.of_nat 10) with 10000000000 in Hl. lia.
Qed.

(** The text of the histogram's lines from index [n] on. *)
Definition histogram_text (n : nat) (histogram : list Z) : bytes :=
  mjoin (imap (fun i h => fmt_d (Z.of_nat (n + i)) ++ lit " " ++ fmt_d h ++ [10]) histogram).

Lemma histogram_text_length n histogram :
  (n + length histogram <= 1000)%nat -> Forall (srange 32) histogram -> zlen (histogram_text n histogram) <= 17 * zlen histogram.
Proof.
  unfold histogram_text. intros Hn Hh. revert n Hn. induction Hh as [|h hs Hx Hhs IH]; intros n Hn; [done|].
  cbn [imap mjoin list_join]. rewrite Nat.add_0_r. cbn [length] in Hn.
  assert (imap ((fun i h => fmt_d (Z.of_nat (n + i)) ++ lit " " ++ fmt_d h ++ [10]) ∘ S) hs =
          imap (fun i h => fmt_d (Z.of_nat (S n + i)) ++ lit " " ++ fmt_d h ++ [10]) hs) as ->.
  { apply imap_ext. intros i x _. cbn. by rewrite Nat.add_succ_r. }
  specialize (IH (S n) ltac:(lia)).
  pose proof (fmt_d_length 4 (Z.of_nat n)) as Hi. change (10 ^ Z.of_nat 4) with 10000 in Hi. pose proof (fmt_d_int h Hx).
  rewrite !zlen_app, (zlen_cons h hs). change (zlen (lit " ")) with 1. change (zlen [10]) with 1. specialize (Hi ltac:(lia) ltac:(lia)). rewrite Z.mul_add_distr_l. apply Z.add_le_mono; [lia|exact IH].
Qed.

(** The page of the heap histogram is never cut: with the 64 size classes of
    gperftools, and in fact with any number up to 200, every line is printed
    whole. *)
Theorem memhistogram_is_complete {W} `{Gperftools W} fmt_g (w : W) blocks total histogram w' :
  MallocMemoryStats w = (blocks, total, histogram, w') ->
  srange 32 blocks -> 0 <= total < 2 ^ 64 -> Forall (srange 32) histogram -> (length histogram <= 200)%nat ->
  memhistogram fmt_g w = Ok (lit "blocks " ++ fmt_d blocks ++ 10 :: lit "total " ++ fmt_d total ++ [10] ++
    histogram_text 0 histogram, w').
Proof.
  intros E Hb Ht Hh Hlen. unfold memhistogram. rewrite E. set (b0 := LogStream.mkbuf _ 0).
  assert (mjoin (LogStream.render fmt_g <$> histogram_items blocks total histogram) =
    lit "blocks " ++ fmt_d blocks ++ 10 :: lit "total " ++ fmt_d total ++ [10] ++ histogram_text 0 histogram) as Etext.
  { unfold histogram_items. rewrite fmap_app, join_app. cbn [fmap list_fmap mjoin list_join LogStream.render app].
    assert (forall n, mjoin (LogStream.render fmt_g <$> concat (imap (fun i h => [LogStream.IInteger (Z.of_nat (n + i));
       LogStream.ICstr (Some (lit " ")); LogStream.IInteger h; LogStream.ICstr (Some [10])]) histogram)) =
       histogram_text n histogram) as Hn.
    { clear. unfold histogram_text. induction histogram as [|h hs IH]; intros n; [done|].
      cbn [imap concat]. rewrite fmap_app, join_app. cbn [fmap list_fmap mjoin list_join LogStream.render].
      rewrite Nat.add_0_r, <-!app_assoc. do 4 f_equal. specialize (IH (S n)). etrans; [etrans; [|exact IH]|].
      - change ([] ++ ?l) with l. do 3 f_equal. apply imap_ext. intros i x _. cbn. by rewrite Nat.add_succ_r.
      - f_equal. apply imap_ext. intros i x _. cbn. by rewrite Nat.add_succ_r. }
    specialize (Hn 0%nat). cbn [Nat.add] in Hn. rewrite Hn. simpl. rewrite <-?app_assoc. simpl. by rewrite <-?app_assoc. }
  assert (Forall (LogStream.item_ok fmt_g) (histogram_items blocks total histogram)) as Hok.
  { unfold srange in *. unfold histogram_items. apply Forall_app. split; [repeat constructor; cbn; lia|].
    apply Forall_concat, Forall_forall. intros l (i & h & -> & Hi)%elem_of_lookup_imap_1.
    apply (Forall_lookup_1 _ _ _ _ Hh) in Hi as Hr. apply lookup_lt_Some in Hi. cbn in Hr. repeat constructor; cbn; lia. }
  destruct (LogStream.insert_all_ok fmt_g (histogram_items blocks total histogram) b0) as (b' & -> & Hwf & _ & Etx);
    [split; vm_compute; (split; done) || done|done|].
  cbn [mbind outcome_bind]. rewrite LogStream.toString_text, Etx by done. f_equal. f_equal. rewrite LogStream.line_with_room.
  - by rewrite Etext.
  - rewrite Etext. pose proof (histogram_text_length 0 histogram ltac:(lia) Hh) as Hx.
    pose proof (fmt_d_int blocks Hb). pose proof (fmt_d_length 20 total) as Hl. change (10 ^ Z.of_nat 20) with 100000000000000000000 in Hl.
    change (zlen (LogStream.data_ b0)) with 4000. change (LogStream.text b0) with (@nil Z).
    rewrite !zlen_app, zlen_cons, !zlen_app. change (zlen (lit "blocks ")) with 7. change (zlen (lit "total ")) with 6.
    change (zlen [10]) with 1. change (zlen (@nil Z)) with 0. unfold LogStream.kMaxNumericSize. unfold zlen at 1 in Hx. unfold zlen in *. lia.
Qed.

End PerformanceInspector.
