(* ===== verification/NetInspectorObject.v ===== *)
(** src/muduo/net/inspect/Inspector.cc, the Inspector object: the pointer to
    the one inspector of the process, the constructor that registers the pages,
    the timer that starts the server, and the destructor.

    The registry is that of NetInspector, the pages are registered by
    NetProcInspector and NetPerformanceInspector.  An object is an address; the
    functor given to [runAfter] holds it by a raw pointer. *)

From S2P Require Import Prelude NetHttpRequest NetHttpResponse NetInspector NetFavicon NetProcInspector NetPerformanceInspector.

Module InspectorObject.

(** The callbacks that the three page objects bind, by module and command. *)
Definition pages : Type := bytes -> bytes -> Inspector.Callback.

(** The object: its registry, and whether its server was started. *)
Record t := mk { registry_ : Inspector.t; started : bool }.
(** The process: [g_globalInspector], the objects that exist, and the timers
    that have still to run [start]. *)
Record process := mkprocess { g_globalInspector : option Z; objects : gmap Z t; timers : list Z }.
Definition new_process : process := mkprocess None ∅ [].

Definition register_pages (have_tcmalloc : bool) (cb : pages) (ins : Inspector.t) : Inspector.t :=
  let proc := cb (lit "proc") in
  let sys := cb (lit "sys") in
  let pprof := cb (lit "pprof") in
  let ins := ProcInspector.registerCommands (proc (lit "overview")) (proc (lit "pid")) (proc (lit "status"))
    (proc (lit "threads")) ins in
  let ins := ProcInspector.sys_registerCommands (sys (lit "overview")) (sys (lit "loadavg")) (sys (lit "version"))
    (sys (lit "cpuinfo")) (sys (lit "meminfo")) (sys (lit "stat")) ins in
  if have_tcmalloc
  then PerformanceInspector.registerCommands (pprof (lit "heap")) (pprof (lit "growth")) (pprof (lit "profile"))
    (pprof (lit "cmdline")) (pprof (lit "memstats")) (pprof (lit "memhistogram")) (pprof (lit "releasefreememory")) ins
  else ins.

Section Process.
Context (have_tcmalloc : bool).

Definition Inspector_ctor (isMainThread : bool) (this : Z) (cb : pages) (p : process) : outcome process :=
  _ ← massert isMainThread "CurrentThread::isMainThread()";
  _ ← massert (bool_decide (g_globalInspector p = None)) "g_globalInspector == 0";
  Ok (mkprocess (Some this) (<[this := mk (register_pages have_tcmalloc cb Inspector.new_) false]> (objects p))
        (timers p ++ [this])).
Definition Inspector_dtor (isMainThread : bool) (this : Z) (p : process) : outcome process :=
  match objects p !! this with
  | None => Err (Undefined "destroyed twice")
  | Some _ =>
      _ ← massert isMainThread "CurrentThread::isMainThread()";
      Ok (mkprocess None (delete this (objects p)) (timers p))
  end.
(** A call on the object. *)
Definition with_object (this : Z) (f : t -> t) (p : process) : outcome process :=
  match objects p !! this with
  | None => Err (Undefined "deleted Inspector")
  | Some o => Ok (mkprocess (g_globalInspector p) (<[this := f o]> (objects p)) (timers p))
  end.
Definition start (this : Z) (p : process) : outcome process := with_object this (fun o => mk (registry_ o) true) p.
(** A request that the started server receives. *)
Definition serve (this : Z) (req : HttpRequest.t) (resp : HttpResponse.t) (p : process) : option HttpResponse.t :=
  o ← objects p !! this; if started o then Inspector.onRequest Favicon.favicon (registry_ o) req resp else None.

Inductive step :=
| Construct (isMainThread : bool) (this : Z) (cb : pages)
| Destroy (isMainThread : bool) (this : Z)
| Command (this : Z) (o : Inspector.op)
| RunTimer.
Definition run_step (p : process) (s : step) : outcome process :=
  match s with
  | Construct main this cb => Inspector_ctor main this cb p
  | Destroy main this => Inspector_dtor main this p
  | Command this o => with_object this (fun x => mk (Inspector.apply (registry_ x) o) (started x)) p
  | RunTimer =>
      match timers p with
      | [] => Ok p
      | this :: rest => start this (mkprocess (g_globalInspector p) (objects p) rest)
      end
  end.

(** Legal use: the main thread makes an inspector when there is none, and
    destroys it when its timer has run. *)
Definition legal (p : process) (s : step) : Prop :=
  match s with
  | Construct main _ _ => main = true /\ g_globalInspector p = None
  | Destroy main this => main = true /\ is_Some (objects p !! this) /\ this ∉ timers p
  | Command this _ => is_Some (objects p !! this)
  | RunTimer => True
  end.
Inductive legal_run : process -> list step -> Prop :=
| legal_nil p : legal_run p []
| legal_cons p s ss : legal p s -> (forall p', run_step p s = Ok p' -> legal_run p' ss) -> legal_run p (s :: ss).

(** The pointer names the one object there is, and timers are for it. *)
Record inv (p : process) : Prop := mkinv {
  inv_unique a : is_Some (objects p !! a) <-> g_globalInspector p = Some a;
  inv_timers a : a ∈ timers p -> is_Some (objects p !! a)
}.

Lemma with_object_ok this f p : inv p -> is_Some (objects p !! this) ->
  exists p', with_object this f p = Ok p' /\ inv p'.
Proof.
  intros [Hu Ht] [o Ho]. unfold with_object. rewrite Ho. eexists. split; [done|].
  assert (forall a, is_Some (<[this := f o]> (objects p) !! a) <-> is_Some (objects p !! a)) as Hdom.
  { intros a. rewrite lookup_insert. case_decide as E; [subst; rewrite Ho; split; eauto|done]. }
  split; cbn; intros a; rewrite Hdom; [apply Hu|apply Ht].
Qed.
Lemma step_ok p s : inv p -> legal p s -> exists p', run_step p s = Ok p' /\ inv p'.
Proof.
  intros Hinv Hl. pose proof Hinv as [Hu Ht]. destruct s as [main this cb|main this|this o|]; cbn [run_step legal] in *.
  - destruct Hl as [-> Hg]. unfold Inspector_ctor. rewrite bool_decide_true by done. eexists. split; [done|].
    assert (forall a, objects p !! a = None) as Hnone.
    { intros a. apply eq_None_not_Some. rewrite Hu, Hg. done. }
    split; cbn; intros a.
    + rewrite lookup_insert. case_decide as E; [subst; split; eauto|].
      rewrite Hnone. split; [by intros [? ?]|congruence].
    + rewrite elem_of_app, list_elem_of_singleton. intros [Hin| ->]; [|rewrite lookup_insert_eq; eauto].
      apply Ht in Hin as [? Hx]. by rewrite Hnone in Hx.
  - destruct Hl as (-> & Hlive & Hno). pose proof Hlive as [o Ho]. unfold Inspector_dtor. rewrite Ho. eexists. split; [done|].
    apply Hu in Hlive. split; cbn; intros a.
    + rewrite lookup_delete. case_decide as E; [by split; [intros [? ?]|]|].
      rewrite Hu. split; [congruence|done].
    + intros Hin. rewrite lookup_delete_ne by (by intros ->). by apply Ht.
  - by apply with_object_ok.
  - destruct p as [g os [|this rest]]; cbn in *; [by eexists|]. apply with_object_ok.
    + split; cbn; [done|]. intros a Ha. apply Ht. by constructor 2.
    + apply Ht. by constructor 1.
Qed.

(** The process has one inspector at a time.  Under legal use no assertion
    fails and no deleted inspector is used, also by the timer that starts the
    server; at any time [g_globalInspector] is the address of the only object,
    or null when there is none. *)
Theorem one_inspector ss : legal_run new_process ss ->
  exists p, foldM run_step new_process ss = Ok p /\
    (forall a, is_Some (objects p !! a) <-> g_globalInspector p = Some a).
Proof.
  assert (inv new_process) as H0.
  { split; cbn; intros a; [rewrite lookup_empty; split; [by intros [? ?]|done]|intros Ha; by apply not_elem_of_nil in Ha]. }
  revert H0. generalize new_process. induction ss as [|s ss IH]; intros p Hinv Hl; [exists p; split; [done|apply Hinv]|].
  inversion Hl as [|? ? ? Hs Hrest]; subst. destruct (step_ok p s Hinv Hs) as (p'&E&Hinv'). cbn [foldM]. rewrite E. cbn.
  by apply IH; [|apply Hrest].
Qed.

(** A second inspector is refused as long as the first one lives. *)
Theorem second_inspector_fails main this cb p : g_globalInspector p <> None ->
  fails_assert (Inspector_ctor main this cb p) = true.
Proof. intros Hg. unfold Inspector_ctor. rewrite bool_decide_false by done. by destruct main. Qed.
End Process.

(** * The pages of a new inspector *)

Definition page_help : list (bytes * bytes * bytes) :=
  [(lit "proc", lit "overview", lit "print basic overview"); (lit "proc", lit "pid", lit "print pid");
   (lit "proc", lit "status", lit "print /proc/self/status"); (lit "proc", lit "threads", lit "list /proc/self/task");
   (lit "sys", lit "overview", lit "print system overview"); (lit "sys", lit "loadavg", lit "print /proc/loadavg");
   (lit "sys", lit "version", lit "print /proc/version"); (lit "sys", lit "cpuinfo", lit "print /proc/cpuinfo");
   (lit "sys", lit "meminfo", lit "print /proc/meminfo"); (lit "sys", lit "stat", lit "print /proc/stat")].
Definition pprof_help : list (bytes * bytes * bytes) :=
  [(lit "pprof", lit "heap", lit "get heap information"); (lit "pprof", lit "growth", lit "get heap growth information");
   (lit "pprof", lit "profile", lit "get cpu profiling information. CAUTION: blocking thread for 30 seconds!");
   (lit "pprof", lit "cmdline", lit "get command line"); (lit "pprof", lit "memstats", lit "get memory stats");
   (lit "pprof", lit "memhistogram", lit "get memory histogram"); (lit "pprof", lit "releasefreememory", lit "release free memory")].
Definition all_pages (have_tcmalloc : bool) : list (bytes * bytes * bytes) := page_help ++ if have_tcmalloc then pprof_help else [].
Definition page_ops (cb : pages) : list (bytes * bytes * bytes) -> list Inspector.op :=
  map (fun x => Inspector.Add x.1.1 x.1.2 (cb x.1.1 x.1.2) x.2).

Lemma register_pages_ops tc cb : register_pages tc cb Inspector.new_ = foldl Inspector.apply Inspector.new_ (page_ops cb (all_pages tc)).
Proof. by destruct tc. Qed.
Lemma registry_pages cb l r m c :
  fst <$> foldl Inspector.registry r (page_ops cb l) !! (m, c) =
  if decide ((m, c) ∈ fst <$> l) then Some (cb m c) else fst <$> r !! (m, c).
Proof.
  revert r. induction l as [|[[m' c'] h] l IH]; intros r; [done|]. cbn [page_ops map foldl Inspector.registry fst snd].
  change (map _ l) with (page_ops cb l). rewrite IH. cbn [fmap list_fmap fst].
  destruct (decide ((m, c) ∈ fst <$> l)) as [Hin|Hout].
  { by rewrite decide_True by (by constructor 2). }
  rewrite lookup_insert. case_decide as E.
  - injection E as -> ->. by rewrite decide_True by (by constructor 1).
  - rewrite decide_False; [done|]. rewrite elem_of_cons. intros [E'|]; congruence.
Qed.

(** A new inspector has exactly the pages of its three page objects, those of
    the profiler only when it was built with gperftools. *)
Theorem new_inspector_pages tc cb m c :
  Inspector.find2 m c (Inspector.modules_ (register_pages tc cb Inspector.new_)) =
  if decide ((m, c) ∈ fst <$> all_pages tc) then Some (cb m c) else None.
Proof.
  rewrite register_pages_ops.
  rewrite (Inspector.ref_cb _ _ (Inspector.refines_run (page_ops cb (all_pages tc)) _ _ Inspector.new_refines)).
  rewrite registry_pages, lookup_empty. done.
Qed.

(** * Witnesses *)

Definition witness_pages : pages := fun m c => Some (fun _ _ => m ++ [47] ++ c).
Lemma one_inspector_witness : exists p,
  foldM (run_step false) new_process [Construct true 16 witness_pages; RunTimer; Destroy true 16; Construct true 32 witness_pages] = Ok p /\
  g_globalInspector p = Some 32.
Proof.
  destruct (one_inspector false [Construct true 16 witness_pages; RunTimer; Destroy true 16; Construct true 32 witness_pages])
    as (p & E & _).
  { constructor; [by split|]. intros p1 E1. injection E1 as <-.
    constructor; [exact I|]. intros p2 E2. injection E2 as <-.
    constructor; [split; [reflexivity|split; [by eexists|by apply not_elem_of_nil]]|]. intros p3 E3. injection E3 as <-.
    constructor; [by split|]. intros p4 _. constructor. }
  exists p. split; [exact E|]. injection E as <-. reflexivity.
Defined.

(** The server answers once the timer has run. *)
Example page_after_timer :
  let get ss := p ← (match foldM (run_step false) new_process ss with Ok p => Some p | Err _ => None end);
    HttpResponse.body_ <$> serve 16 (HttpRequest.setPath (lit "/proc/pid") HttpRequest.new_) (HttpResponse.new_ false) p in
  get [Construct true 16 witness_pages] = None /\
  get [Construct true 16 witness_pages; RunTimer] = Some (lit "proc/pid").
Proof. split; reflexivity. Qed.

(** The timer that starts the server holds the inspector by a raw pointer: an
    inspector that is destroyed before its loop runs is used after that. *)
Example timer_starts_deleted_inspector :
  foldM (run_step false) new_process [Construct true 16 witness_pages; Destroy true 16; RunTimer] = Err (Undefined "deleted Inspector").
Proof. reflexivity. Qed.
End InspectorObject.
