(* ===== verification/BaseFormat.v ===== *)
(** Numbers with units: formatSI and formatIEC of LogStream.cc, with the
    doubles of BaseDouble. *)

From S2P Require Import Prelude BaseTimestamp BaseDouble.

Module Format.

(** [snprintf] into a [char buf[64]]. *)
Definition buf64 (s : bytes) : bytes := take 63 s.

Definition formatSI (s : Z) : bytes :=
  let n := d_of_Z s in
  let k := d_of_Z (10 ^ 3) in
  let M := d_of_Z (10 ^ 6) in
  let G := d_of_Z (10 ^ 9) in
  let T := d_of_Z (10 ^ 12) in
  let P := d_of_Z (10 ^ 15) in
  let E := d_of_Z (10 ^ 18) in
  buf64 (
    if s <? 1000 then fmt_d s
    else if s <? 9995 then fmt_f 2 (d_div n k) ++ lit "k"
    else if s <? 99950 then fmt_f 1 (d_div n k) ++ lit "k"
    else if s <? 999500 then fmt_f 0 (d_div n k) ++ lit "k"
    else if s <? 9995000 then fmt_f 2 (d_div n M) ++ lit "M"
    else if s <? 99950000 then fmt_f 1 (d_div n M) ++ lit "M"
    else if s <? 999500000 then fmt_f 0 (d_div n M) ++ lit "M"
    else if s <? 9995000000 then fmt_f 2 (d_div n G) ++ lit "G"
    else if s <? 99950000000 then fmt_f 1 (d_div n G) ++ lit "G"
    else if s <? 999500000000 then fmt_f 0 (d_div n G) ++ lit "G"
    else if s <? 9995000000000 then fmt_f 2 (d_div n T) ++ lit "T"
    else if s <? 99950000000000 then fmt_f 1 (d_div n T) ++ lit "T"
    else if s <? 999500000000000 then fmt_f 0 (d_div n T) ++ lit "T"
    else if s <? 9995000000000000 then fmt_f 2 (d_div n P) ++ lit "P"
    else if s <? 99950000000000000 then fmt_f 1 (d_div n P) ++ lit "P"
    else if s <? 999500000000000000 then fmt_f 0 (d_div n P) ++ lit "P"
    else fmt_f 2 (d_div n E) ++ lit "E").

Definition Ki : double := d_of_Z 1024.
Definition Mi : double := d_mul Ki (d_of_Z 1024).
Definition Gi : double := d_mul Mi (d_of_Z 1024).
Definition Ti : double := d_mul Gi (d_of_Z 1024).
Definition Pi : double := d_mul Ti (d_of_Z 1024).
Definition Ei : double := d_mul Pi (d_of_Z 1024).

(** The literals 9.995, 99.95 and 1023.5: quotients of integers, rounded once. *)
Definition c9_995 : double := d_div (d_of_Z 9995) (d_of_Z 1000).
Definition c99_95 : double := d_div (d_of_Z 9995) (d_of_Z 100).
Definition c1023_5 : double := d_div (d_of_Z 10235) (d_of_Z 10).

Definition formatIEC (s : Z) : bytes :=
  let n := d_of_Z s in
  buf64 (
    if d_lt n Ki then fmt_d s
    else if d_lt n (d_mul Ki c9_995) then fmt_f 2 (d_div n Ki) ++ lit "Ki"
    else if d_lt n (d_mul Ki c99_95) then fmt_f 1 (d_div n Ki) ++ lit "Ki"
    else if d_lt n (d_mul Ki c1023_5) then fmt_f 0 (d_div n Ki) ++ lit "Ki"
    else if d_lt n (d_mul Mi c9_995) then fmt_f 2 (d_div n Mi) ++ lit "Mi"
    else if d_lt n (d_mul Mi c99_95) then fmt_f 1 (d_div n Mi) ++ lit "Mi"
    else if d_lt n (d_mul Mi c1023_5) then fmt_f 0 (d_div n Mi) ++ lit "Mi"
    else if d_lt n (d_mul Gi c9_995) then fmt_f 2 (d_div n Gi) ++ lit "Gi"
    else if d_lt n (d_mul Gi c99_95) then fmt_f 1 (d_div n Gi) ++ lit "Gi"
    else if d_lt n (d_mul Gi c1023_5) then fmt_f 0 (d_div n Gi) ++ lit "Gi"
    else if d_lt n (d_mul Ti c9_995) then fmt_f 2 (d_div n Ti) ++ lit "Ti"
    else if d_lt n (d_mul Ti c99_95) then fmt_f 1 (d_div n Ti) ++ lit "Ti"
    else if d_lt n (d_mul Ti c1023_5) then fmt_f 0 (d_div n Ti) ++ lit "Ti"
    else if d_lt n (d_mul Pi c9_995) then fmt_f 2 (d_div n Pi) ++ lit "Pi"
    else if d_lt n (d_mul Pi c99_95) then fmt_f 1 (d_div n Pi) ++ lit "Pi"
    else if d_lt n (d_mul Pi c1023_5) then fmt_f 0 (d_div n Pi) ++ lit "Pi"
    else if d_lt n (d_mul Ei c9_995) then fmt_f 2 (d_div n Ei) ++ lit "Ei"
    else fmt_f 1 (d_div n Ei) ++ lit "Ei").

(** The cases of LogStream_test.cc. *)
Example formatSI_cases :
  map formatSI [0; 999; 1000; 9990; 9994; 9995; 10000; 10049; 10050; 99900; 99949; 99950; 100499; 100501;
                999499; 999500; 1004999; 1005001; 2 ^ 63 - 1]
  = map lit ["0"; "999"; "1.00k"; "9.99k"; "9.99k"; "10.0k"; "10.0k"; "10.0k"; "10.1k"; "99.9k"; "99.9k"; "100k"; "100k"; "101k";
             "999k"; "1.00M"; "1.00M"; "1.01M"; "9.22E"]%string.
Proof. vm_compute. reflexivity. Qed.
Example formatIEC_cases :
  map formatIEC [0; 1023; 1024; 10234; 10235; 10240; 10291; 10292; 102348; 102349; 102912; 102913; 1022976; 1047552;
                 1047961; 1048063; 1048064; 1048576; 10480517; 10480518; 2 ^ 63 - 1]
  = map lit ["0"; "1023"; "1.00Ki"; "9.99Ki"; "10.0Ki"; "10.0Ki"; "10.0Ki"; "10.1Ki"; "99.9Ki"; "100Ki"; "100Ki"; "101Ki"; "999Ki";
             "1023Ki"; "1023Ki"; "1023Ki"; "1.00Mi"; "1.00Mi"; "9.99Mi"; "10.0Mi"; "8.00Ei"]%string.
Proof. vm_compute. reflexivity. Qed.

(** Just below the next format the conversion to double rounds up, and the
    text has six characters, not the five the header promises. *)
Example formatSI_six_characters : formatSI 99949999999999999 = lit "100.0P".
Proof. vm_compute. reflexivity. Qed.

(** * What is printed *)

Lemma fmt_scaled_length k q : (k <= 2)%nat -> 100 <= q <= 999 \/ k = O /\ 100 <= q <= 1023 ->
  zlen (fmt_scaled k q) <= 4 /\ (k = O -> q <= 999 -> zlen (fmt_scaled k q) = 3).
Proof.
  intros Hk Hq.
  assert (forallb (fun q => forallb (fun k => zlen (fmt_scaled k q) <=? 4) (if q <? 1000 then [0%nat; 1%nat; 2%nat] else [0%nat]) &&
            ((1000 <=? q) || (zlen (fmt_scaled 0 q) =? 3))) (seqZ 100 924) = true) as Hall by (vm_compute; reflexivity).
  rewrite forallb_forall in Hall. specialize (Hall q). rewrite <-list_elem_of_In, elem_of_seqZ, andb_true_iff in Hall.
  destruct (Hall ltac:(lia)) as [H4 H3]. rewrite forallb_forall in H4. split.
  - apply Z.leb_le, H4. destruct (Z.ltb_spec q 1000); destruct k as [|[|[|]]]; cbn; lia || tauto.
  - intros -> Hq'. lia.
Qed.

(** A number of the range that gets [k] decimals of the unit. *)
Record shows (k : nat) (q U s : Z) : Prop := {
  shows_digits : (k <= 2)%nat /\ 100 <= q <= 999;
  shows_nearest : 2 * Z.abs (q * U - s * 10 ^ Z.of_nat k) <= U }.

Definition si_units : list (Z * bytes) :=
  [(10 ^ 3, lit "k"); (10 ^ 6, lit "M"); (10 ^ 9, lit "G"); (10 ^ 12, lit "T"); (10 ^ 15, lit "P")].

Definition si_text (s : Z) (t : bytes) : Prop :=
  zlen t <= 5 /\ exists U c k q, (U, c) ∈ si_units /\ shows k q U s /\ t = fmt_scaled k q ++ c.

Lemma si_case k V U c s :
  (U, c) ∈ si_units -> (k <= 2)%nat -> U = V * 10 ^ Z.of_nat k -> Z.even V = true ->
  0 < s < 2 ^ 53 -> 199 * V < 2 * s < 1999 * V ->
  si_text s (buf64 (fmt_f k (d_div (d_of_Z s) (d_of_Z U)) ++ c)).
Proof.
  intros Hin Hk EU Hev Hs Hr. set (K := 10 ^ Z.of_nat k) in *.
  assert (0 < K) by (apply Z.pow_pos_nonneg; lia).
  assert (zlen c = 1 /\ 4 <= U < 2 ^ 53) as [Hc HU].
  { unfold si_units in Hin. rewrite !elem_of_cons in Hin.
    destruct Hin as [E|[E|[E|[E|[E|Hn]]]]]; [..|by apply elem_of_nil in Hn]; injection E as -> ->; vm_compute; split_and!; done. }
  assert (0 < V) as HV by nia.
  destruct (fmt_quotient k s V Hs HV Hev) as (q & E & Hq); [fold K; lia|]. fold K in E. rewrite <-EU in E. rewrite E.
  assert (100 <= q <= 999) as Hd by nia.
  destruct (fmt_scaled_length k q Hk (or_introl Hd)) as [Hl _].
  assert (zlen (fmt_scaled k q ++ c) <= 5) as Hl5 by (rewrite zlen_app; lia).
  unfold buf64. rewrite take_ge by (unfold zlen in Hl5; lia). split; [done|].
  exists U, c, k, q. split_and!; [done| |done]. split; [done|]. fold K. rewrite EU.
  replace (q * (V * K) - s * K) with ((q * V - s) * K) by ring. rewrite Z.abs_mul, (Z.abs_eq K), Z.mul_assoc by lia.
  apply Z.mul_le_mono_nonneg_r; lia.
Qed.

Lemma formatSI_si_text s : 1000 <= s < 2 ^ 53 -> si_text s (formatSI s).
Proof.
  intros Hs. unfold formatSI. rewrite (proj2 (Z.ltb_ge s 1000)) by lia.
  repeat (match goal with |- context [if s <? ?b then _ else _] => destruct (Z.ltb_spec s b) end;
    [match goal with |- si_text s (buf64 (fmt_f ?k (d_div _ (d_of_Z ?U)) ++ _)) =>
       let V := eval vm_compute in (U / 10 ^ Z.of_nat k) in
       apply (si_case k V); [unfold si_units; set_solver|lia|reflexivity|reflexivity|lia|lia] end|]; try (exfalso; lia)).
Qed.

Definition iec_units : list (Z * bytes) := [(10, lit "Ki"); (20, lit "Mi"); (30, lit "Gi"); (40, lit "Ti"); (50, lit "Pi")].

Definition iec_text (s : Z) (t : bytes) : Prop :=
  zlen t <= 6 /\ exists j c k q, (j, c) ∈ iec_units /\ (k <= 2)%nat /\ 100 <= q <= 1023 /\ (k <> O -> q <= 999) /\
    q = div_nearest_even (s * 10 ^ Z.of_nat k) (2 ^ j) /\ t = fmt_scaled k q ++ c.

Lemma iec_case k j U c s :
  (j, c) ∈ iec_units -> (k <= 2)%nat -> d_of_Z (2 ^ j) = U -> 0 < s < 2 ^ 53 ->
  199 * 2 ^ j < 2 * (s * 10 ^ Z.of_nat k) < (if Nat.eqb k 0 then 2047 else 1999) * 2 ^ j ->
  iec_text s (buf64 (fmt_f k (d_div (d_of_Z s) U) ++ c)).
Proof.
  intros Hin Hk <- Hs Hr.
  assert (zlen c = 2 /\ 0 < j < 53) as [Hc Hj].
  { unfold iec_units in Hin. rewrite !elem_of_cons in Hin.
    destruct Hin as [E|[E|[E|[E|[E|Hn]]]]]; [..|by apply elem_of_nil in Hn]; injection E as -> ->; vm_compute; split_and!; done. }
  rewrite fmt_quotient_pow2 by done. assert (0 < 2 ^ j) as H2 by (apply Z.pow_pos_nonneg; lia).
  pose proof (div_nearest_error (s * 10 ^ Z.of_nat k) (2 ^ j) H2) as Hq.
  set (q := div_nearest_even _ _) in *. set (U := 2 ^ j) in *. set (S1 := s * 10 ^ Z.of_nat k) in *.
  assert (100 <= q <= 1023 /\ (k <> O -> q <= 999)) as [Hd Hd9].
  { destruct k; cbn [Nat.eqb] in Hr; split; intros; nia. }
  assert (zlen (fmt_scaled k q) <= 4) as Hl.
  { apply (fmt_scaled_length k q Hk). destruct k; [right|left]; lia. }
  assert (zlen (fmt_scaled k q ++ c) <= 6) as Hl6 by (rewrite zlen_app; lia).
  unfold buf64. rewrite take_ge by (unfold zlen in Hl6; lia). split; [done|].
  by exists j, c, k, q.
Qed.

#[local] Opaque d_mul d_div d_of_Z Ki Mi Gi Ti Pi Ei c9_995 c99_95 c1023_5.

Lemma formatIEC_iec_text s : 1024 <= s < 2 ^ 53 -> iec_text s (formatIEC s).
Proof.
  intros Hs. unfold formatIEC.
  rewrite (d_lt_ceiling Ki 1024) by (lia || (vm_compute; reflexivity)). rewrite (proj2 (Z.ltb_ge s 1024)) by lia.
  rewrite (d_lt_ceiling (d_mul Ki c9_995) 10235), (d_lt_ceiling (d_mul Ki c99_95) 102349),
    (d_lt_ceiling (d_mul Ki c1023_5) 1048064), (d_lt_ceiling (d_mul Mi c9_995) 10480518),
    (d_lt_ceiling (d_mul Mi c99_95) 104805172), (d_lt_ceiling (d_mul Mi c1023_5) 1073217536),
    (d_lt_ceiling (d_mul Gi c9_995) 10732049531), (d_lt_ceiling (d_mul Gi c99_95) 107320495309),
    (d_lt_ceiling (d_mul Gi c1023_5) 1098974756864), (d_lt_ceiling (d_mul Ti c9_995) 10989618719622),
    (d_lt_ceiling (d_mul Ti c99_95) 109896187196212), (d_lt_ceiling (d_mul Ti c1023_5) 1125350151028736),
    (d_lt_ceiling (d_mul Pi c9_995) 11253369568892026) by (lia || (vm_compute; reflexivity)).
  repeat (match goal with |- context [if s <? ?b then _ else _] => destruct (Z.ltb_spec s b) end;
    [match goal with
     | |- iec_text s (buf64 (fmt_f ?k (d_div _ Ki) ++ _)) => apply (iec_case k 10)
     | |- iec_text s (buf64 (fmt_f ?k (d_div _ Mi) ++ _)) => apply (iec_case k 20)
     | |- iec_text s (buf64 (fmt_f ?k (d_div _ Gi) ++ _)) => apply (iec_case k 30)
     | |- iec_text s (buf64 (fmt_f ?k (d_div _ Ti) ++ _)) => apply (iec_case k 40)
     | |- iec_text s (buf64 (fmt_f ?k (d_div _ Pi) ++ _)) => apply (iec_case k 50)
     end; [unfold iec_units; set_solver|lia|vm_compute; reflexivity|lia|cbn [Nat.eqb]; lia]|]; try (exfalso; lia)).
Qed.

(** C39: formatSI and formatIEC write a quantity that is a double without loss
    in at most five and six characters: small ones in decimal; above, three
    digits (four before "Ki", "Mi", ... ) that are the nearest decimal of the
    quantity in the unit, although the quotient was rounded before. *)
Theorem format_units : forall s, 0 <= s < 2 ^ 53 ->
  (s < 1000 -> formatSI s = fmt_d s) /\ (1000 <= s -> si_text s (formatSI s)) /\
  (s < 1024 -> formatIEC s = fmt_d s) /\ (1024 <= s -> iec_text s (formatIEC s)).
Proof.
  intros s Hs. assert (buf64 (fmt_d s) = fmt_d s \/ 2 ^ 32 <= s) as Hb.
  { destruct (Z.lt_ge_cases s (2 ^ 32)); [left|by right]. unfold buf64. apply take_ge.
    pose proof (fmt_d_length 10 s ltac:(lia) ltac:(lia)) as Hl. unfold zlen in Hl. lia. }
  split_and!; intros Hc.
  - unfold formatSI. rewrite (proj2 (Z.ltb_lt s 1000)) by lia. destruct Hb; lia || done.
  - apply formatSI_si_text. lia.
  - unfold formatIEC. destruct (Z.eq_dec s 0) as [->|]; [done|]. rewrite (d_lt_ceiling Ki 1024) by (lia || (vm_compute; reflexivity)).
    rewrite (proj2 (Z.ltb_lt s 1024)) by lia. destruct Hb; lia || done.
  - apply formatIEC_iec_text. lia.
Qed.
Lemma format_units_witness : (0 <= 123456 < 2 ^ 53) /\ si_text 123456 (formatSI 123456) /\ iec_text 123456 (formatIEC 123456).
Proof.
  assert (0 <= 123456 < 2 ^ 53) as H by lia. destruct (format_units 123456 H) as (_ & HS & _ & HI).
  split; [exact H|]. split; [apply HS|apply HI]; lia.
Defined.

End Format.
