(* ===== verification/NetZlibStream.v ===== *)
(** src/muduo/net/ZlibStream.h: [ZlibOutputStream], which compresses what is
    written to it into a Buffer.  zlib is a parameter, the class [Zlib]; what
    its manual says of [deflate] is the class [ZlibSpec].  [ZlibInputStream]
    only declares its functions. *)

From S2P Require Import Prelude BaseStringPiece NetBuffer.

Module ZlibOutputStream.

(** * zlib *)

Definition Z_OK : Z := 0.
Definition Z_STREAM_END : Z := 1.
Definition Z_BUF_ERROR : Z := -5.
Inductive flush := Z_NO_FLUSH | Z_FINISH.

(** [deflate] on the [avail_in] bytes at [next_in] with room for [avail_out]
    bytes: how many it consumed, what it wrote, its result. *)
Record reply {S : Type} := Reply { r_state : S; consumed : Z; produced : bytes; code : Z }.
Arguments reply : clear implicits.
Arguments Reply {S}.

Class Zlib := {
  dstate : Type;
  deflateInit : dstate * Z;
  deflate : flush -> bytes -> Z -> dstate -> reply dstate;
  deflateEnd : dstate -> Z }.

(** The manual: [deflate] stops when the input is used up or the output full;
    with [Z_FINISH] it returns [Z_STREAM_END] once all is written, and must
    not be called otherwise in between ([coding true]).  The output is bounded
    by the input ([deflateBound]), and inflating all of it gives the input
    back.  [coding f st i o]: [st] has consumed [i] and written [o]. *)
Class ZlibSpec `{Zlib} := {
  inflate : bytes -> option bytes;
  bound : Z -> Z;
  coding : bool -> dstate -> bytes -> bytes -> Prop;
  ended : dstate -> Prop;
  bound_mono x y : x <= y -> bound x <= bound y;
  coding_bound f st i o : coding f st i o -> zlen o <= bound (zlen i);
  deflateInit_ok : deflateInit.2 = Z_OK /\ coding false deflateInit.1 [] [];
  deflate_ok f fl inp n st i o : coding f st i o -> 0 < n ->
    (fl = Z_NO_FLUSH -> f = false /\ inp <> []) ->
    let r := deflate fl inp n st in
    0 <= consumed r <= zlen inp /\ zlen (produced r) <= n /\
    (code r = Z_OK /\ coding (match fl with Z_FINISH => true | _ => false end) (r_state r)
        (i ++ ztake (consumed r) inp) (o ++ produced r) /\
        ((fl = Z_NO_FLUSH /\ consumed r = zlen inp) \/ zlen (produced r) = n) \/
     fl = Z_FINISH /\ code r = Z_STREAM_END /\ consumed r = zlen inp /\
        inflate (o ++ produced r) = Some (i ++ inp) /\ ended (r_state r));
  deflateEnd_ok st : ended st -> deflateEnd st = Z_OK }.

Section Stream.
Context `{HZ : Zlib}.

(** [z_stream]: [next_in] is an offset into the memory [src] it was set to. *)
Record z_stream := { src : bytes; next_in : option Z; avail_in : Z; dst : dstate; total_in : Z; total_out : Z }.

Record t := mk { output_ : Buffer.t; zstream_ : z_stream; zerror_ : Z; bufferSize_ : Z }.

Definition set_input (m : bytes) (p : option Z) (n : Z) (s : t) : t :=
  let z := zstream_ s in
  mk (output_ s) {| src := m; next_in := p; avail_in := n; dst := dst z; total_in := total_in z; total_out := total_out z |}
    (zerror_ s) (bufferSize_ s).
Definition set_zerror (e : Z) (s : t) : t := mk (output_ s) (zstream_ s) e (bufferSize_ s).

Definition new_ (output : Buffer.t) : t :=
  mk output {| src := []; next_in := None; avail_in := 0; dst := deflateInit.1; total_in := 0; total_out := 0 |} deflateInit.2 1024.

Definition zlibErrorCode (s : t) : Z := zerror_ s.
Definition inputBytes (s : t) : Z := total_in (zstream_ s).
Definition outputBytes (s : t) : Z := total_out (zstream_ s).
Definition internalOutputBufferSize (s : t) : Z := bufferSize_ s.

(** The bytes at [next_in]. *)
Definition pending (z : z_stream) : bytes := ztake (avail_in z) (zdrop (default 0 (next_in z)) (src z)).

Definition compress (fl : flush) (s : t) : outcome (Z * t) :=
  b ← Buffer.ensureWritableBytes (u64 (bufferSize_ s)) (output_ s);
  let z := zstream_ s in
  let avail_out := u32 (i32 (Buffer.writableBytes b)) in
  let r := deflate fl (pending z) avail_out (dst z) in
  v ← Buffer.write_at (Buffer.buffer_ b) (Buffer.beginWrite b) (produced r);
  let b := Buffer.mk v (Buffer.readerIndex_ b) (Buffer.writerIndex_ b) in
  b' ← Buffer.hasWritten (u64 (Buffer.writableBytes b - (avail_out - zlen (produced r)))) b;
  let z' := {| src := src z; next_in := (fun p => p + consumed r) <$> next_in z; avail_in := avail_in z - consumed r;
    dst := r_state r; total_in := total_in z + consumed r; total_out := total_out z + zlen (produced r) |} in
  let size := if (Buffer.writableBytes b' =? 0) && (bufferSize_ s <? 65536) then bufferSize_ s * 2 else bufferSize_ s in
  Ok (code r, mk b' z' (zerror_ s) size).

(** The loop of [write(StringPiece)]; [None] when it still runs after [fuel]
    iterations. *)
Fixpoint write_loop (fuel : nat) (s : t) : outcome (option t) :=
  if (0 <? avail_in (zstream_ s)) && (zerror_ s =? Z_OK) then
    match fuel with
    | O => Ok None
    | S fuel' => '(e, s') ← compress Z_NO_FLUSH s; write_loop fuel' (set_zerror e s')
    end
  else Ok (Some s).

Definition write (fuel : nat) (buf : StringPiece.t) (s : t) : outcome (option (bool * t)) :=
  if negb (zerror_ s =? Z_OK) then Ok (Some (false, s)) else
  massert (match next_in (zstream_ s) with None => avail_in (zstream_ s) =? 0 | Some _ => false end)
    "zstream_.next_in == NULL && zstream_.avail_in == 0";;
  r ← write_loop fuel (set_input (StringPiece.data buf) (Some 0) (u32 (StringPiece.size buf)) s);
  match r with
  | None => Ok None
  | Some s1 =>
      s2 ← (if avail_in (zstream_ s1) =? 0 then
              massert (bool_decide (next_in (zstream_ s1) = Some (StringPiece.size buf))) "next_in == buf.end()";;
              Ok (set_input (src (zstream_ s1)) None 0 s1)
            else Ok s1);
      Ok (Some (zerror_ s2 =? Z_OK, s2))
  end.

(** [write] of a Buffer, of which it may leave a part: returns the buffer too. *)
Definition write_buffer (input : Buffer.t) (s : t) : outcome (bool * Buffer.t * t) :=
  if negb (zerror_ s =? Z_OK) then Ok (false, input, s) else
  let s1 := set_input (Buffer.mem_at input (Buffer.peek input)) (Some 0) (u32 (i32 (Buffer.readableBytes input))) s in
  s2 ← (if (0 <? avail_in (zstream_ s1)) && (zerror_ s1 =? Z_OK)
        then '(e, s') ← compress Z_NO_FLUSH s1; Ok (set_zerror e s') else Ok s1);
  input' ← Buffer.retrieve (u64 (Buffer.readableBytes input - avail_in (zstream_ s2))) input;
  Ok (zerror_ s2 =? Z_OK, input', s2).

Fixpoint finish_loop (fuel : nat) (s : t) : outcome (option t) :=
  if zerror_ s =? Z_OK then
    match fuel with
    | O => Ok None
    | S fuel' => '(e, s') ← compress Z_FINISH s; finish_loop fuel' (set_zerror e s')
    end
  else Ok (Some s).

Definition finish (fuel : nat) (s : t) : outcome (option (bool * t)) :=
  if negb (zerror_ s =? Z_OK) then Ok (Some (false, s)) else
  r ← finish_loop fuel s;
  match r with
  | None => Ok None
  | Some s' => Ok (Some (deflateEnd (dst (zstream_ s')) =? Z_OK, set_zerror Z_STREAM_END s'))
  end.

(** A client: writes pieces, then finishes; all the results. *)
Fixpoint write_all (fuel : nat) (l : list bytes) (s : t) : outcome (option (list bool * t)) :=
  match l with
  | [] => Ok (Some ([], s))
  | p :: l' =>
      r ← write fuel (StringPiece.of_string p) s;
      match r with
      | None => Ok None
      | Some (ok, s') =>
          r' ← write_all fuel l' s';
          Ok ('(oks, s'') ← r'; Some (ok :: oks, s''))
      end
  end.
Definition session (fuel : nat) (l : list bytes) (output : Buffer.t) : outcome (option (list bool * bool * t)) :=
  r ← write_all fuel l (new_ output);
  match r with
  | None => Ok None
  | Some (oks, s) => f ← finish fuel s; Ok ('(ok, s') ← f; Some (oks, ok, s'))
  end.

(** * Compression loses nothing *)

Context `{HL : !ZlibSpec}.

(** The stream has compressed [i] to [o] behind what the buffer [b0] held. *)
Record inv (b0 : Buffer.t) (f : bool) (i o : bytes) (s : t) : Prop := {
  inv_wf : Buffer.wf (output_ s);
  inv_content : Buffer.content (output_ s) = Buffer.content b0 ++ o;
  inv_writer : Buffer.writerIndex_ (output_ s) <= zlen (Buffer.buffer_ b0) + zlen o;
  inv_size : zlen (Buffer.buffer_ (output_ s)) <= zlen (Buffer.buffer_ b0) + zlen o + 131072;
  inv_chunk : 0 < bufferSize_ s <= 131072;
  inv_coding : coding f (dst (zstream_ s)) i o }.

(** The buffer can take what the input [i] may become. *)
Definition fits (b0 : Buffer.t) (i : bytes) : Prop := zlen (Buffer.buffer_ b0) + bound (zlen i) + 131072 < 2 ^ 31.
Definition input_left (s : t) (p : bytes) : Prop := pending (zstream_ s) = p /\ avail_in (zstream_ s) = zlen p.

(** One call of [compress]. *)
Lemma compress_ok b0 f fl i o p s :
  inv b0 f i o s -> fits b0 (i ++ p) -> input_left s p -> (fl = Z_NO_FLUSH -> f = false /\ p <> []) ->
  exists e s', compress fl s = Ok (e, s') /\ zerror_ s' = zerror_ s /\ src (zstream_ s') = src (zstream_ s) /\ exists c q, 0 <= c <= zlen p /\
    next_in (zstream_ s') = (fun x => x + c) <$> next_in (zstream_ s) /\ avail_in (zstream_ s') = zlen p - c /\
    (e = Z_OK /\ inv b0 (match fl with Z_FINISH => true | _ => false end) (i ++ ztake c p) (o ++ q) s' /\
      ((fl = Z_NO_FLUSH /\ c = zlen p) \/ 0 < zlen q) \/
     fl = Z_FINISH /\ e = Z_STREAM_END /\ c = zlen p /\ inflate (o ++ q) = Some (i ++ p) /\ ended (dst (zstream_ s')) /\
      Buffer.wf (output_ s') /\ Buffer.content (output_ s') = Buffer.content b0 ++ o ++ q).
Proof.
  intros [Hwf Hct Hw Hsz Hch Hcod] Hfit [Hp Ha] Hfl. unfold fits in Hfit.
  pose proof (coding_bound _ _ _ _ Hcod) as Hbnd. pose proof (bound_mono (zlen i) (zlen (i ++ p)) ltac:(zlia)) as Hm.
  unfold compress. rewrite u64_small by lia.
  destruct (Buffer.ensureWritable_bound (bufferSize_ s) (output_ s) Hwf) as (b & -> & Hb & Hc & Hroom & Hwb & Hlen);
    [lia|unfold Buffer.vector_max_size; lia|]. cbn [mbind outcome_bind].
  assert (0 <= Buffer.writerIndex_ b) as Hw0 by (destruct Hb; lia).
  rewrite Buffer.writable_wf by done. set (n := zlen (Buffer.buffer_ b) - Buffer.writerIndex_ b) in *.
  assert (u32 (i32 n) = n) as ->.
  { unfold i32. rewrite swrap_small by (lia || (unfold srange; lia)). unfold u32. rewrite uwrap_small by (unfold urange; lia). done. }
  rewrite Hp. pose proof (deflate_ok f fl p n _ i o Hcod ltac:(lia) Hfl) as Hd. cbv zeta in Hd.
  set (r := deflate fl p n (dst (zstream_ s))) in *. destruct Hd as (Hcons & Hprod & Hd).
  destruct (Buffer.fill_ok b (produced r)) as (v & Ev & Hlv & Hb' & Hc'); [done|lia|].
  unfold Buffer.beginWrite. rewrite Ev. cbn [mbind outcome_bind].
  set (b1 := Buffer.mk v (Buffer.readerIndex_ b) (Buffer.writerIndex_ b)).
  assert (Buffer.wf b1) as Hb1 by (unfold Buffer.wf in *; cbn; lia).
  assert (Buffer.writableBytes b1 = n) as Hwr by (rewrite Buffer.writable_wf by done; cbn; lia).
  unfold Buffer.hasWritten. rewrite !Hwr. replace (n - (n - zlen (produced r))) with (zlen (produced r)) by lia.
  assert (0 <= zlen (produced r)) by zlia.
  rewrite !(u64_small (zlen (produced r))) by lia. assert_ok.
  cbn [Buffer.writerIndex_ b1 Buffer.readerIndex_ Buffer.buffer_].
  rewrite u64_small by lia. cbn [mbind outcome_bind].
  eexists _, _. split; [done|]. cbn [zerror_ zstream_ src next_in avail_in output_ bufferSize_]. split_and!; [done..|].
  exists (consumed r), (produced r). split_and!; [lia|lia|done|lia|].
  destruct Hd as [(Hok & Hcod' & Hpr)|(Hfin & Hend & Hall & Hinf & He)]; [left|right].
  - split_and!; [done| |destruct Hpr; [by left|right; lia]]. split; cbn [output_ bufferSize_ zstream_ dst]; try done.
    + by rewrite Hc', Hc, Hct, app_assoc.
    + cbn. zlia.
    + cbn. zlia.
    + destruct ((_ =? 0) && _) eqn:E; lia.
  - split_and!; try done. by rewrite Hc', Hc, Hct, app_assoc.
Qed.

Lemma pending_advance (z z' : z_stream) p off c :
  pending z = p -> avail_in z = zlen p -> 0 <= c <= zlen p -> next_in z = Some off -> 0 <= off ->
  src z' = src z -> next_in z' = Some (off + c) -> avail_in z' = zlen p - c -> pending z' = zdrop c p.
Proof.
  unfold pending. intros Hp Ha Hc Hn Hoff -> Hn' ->. rewrite Hn, Ha in Hp. rewrite Hn'. cbn [default from_option id] in *.
  rewrite <-Hp at 2. unfold ztake, zdrop. rewrite skipn_firstn_comm, drop_drop. f_equal; [lia|f_equal; lia].
Qed.

Lemma write_loop_ok fuel : forall b0 i o p s off,
  inv b0 false i o s -> fits b0 (i ++ p) -> zerror_ s = Z_OK -> input_left s p ->
  next_in (zstream_ s) = Some off -> 0 <= off -> (p <> [] -> bound (zlen (i ++ p)) - zlen o < Z.of_nat fuel) ->
  exists s' o', write_loop fuel s = Ok (Some s') /\ inv b0 false (i ++ p) o' s' /\ zerror_ s' = Z_OK /\
    avail_in (zstream_ s') = 0 /\ next_in (zstream_ s') = Some (off + zlen p).
Proof.
  induction fuel as [|fuel IH]; intros b0 i o p s off Hinv Hfit Hz Hin Hnx Hoff Hf.
  all: pose proof (coding_bound _ _ _ _ (inv_coding _ _ _ _ _ Hinv)) as Hb;
    pose proof (bound_mono (zlen i) (zlen (i ++ p)) ltac:(zlia)) as Hm.
  all: destruct (decide (p = [])) as [->|Hp];
    [exists s, o; destruct Hin as [_ Ha]; cbn [write_loop]; rewrite Ha, app_nil_r; cbn; rewrite Z.add_0_r; by split_and!|].
  { specialize (Hf Hp). lia. }
  destruct Hin as [Hpe Ha]. assert (0 < zlen p) as Hl by (destruct p; [done|rewrite zlen_cons; zlia]).
  cbn [write_loop]. rewrite Ha, Hz, (proj2 (Z.ltb_lt _ _) Hl), Z.eqb_refl. cbn [andb].
  destruct (compress_ok b0 false Z_NO_FLUSH i o p s Hinv Hfit (conj Hpe Ha) (fun _ => conj eq_refl Hp))
    as (e & s1 & -> & _ & Hsrc & c & q & Hc & Hn1 & Ha1 & [(-> & Hinv1 & Hpr)|(? & _)]); [|done].
  cbn [mbind outcome_bind]. rewrite Hnx in Hn1. cbn [fmap option_fmap option_map] in Hn1.
  assert (zlen (zdrop c p) = zlen p - c) as Hlz by zlia.
  destruct (IH b0 (i ++ ztake c p) (o ++ q) (zdrop c p) (set_zerror Z_OK s1) (off + c)) as (s' & o' & E & Hinv' & Hz' & Ha' & Hn').
  - by destruct Hinv1; split.
  - by rewrite <-app_assoc, ztake_zdrop.
  - done.
  - split; [|by rewrite Hlz]. eapply (pending_advance (zstream_ s)); done.
  - done.
  - lia.
  - rewrite <-app_assoc, ztake_zdrop. intros Hne. destruct Hpr as [(_ & ->)|Hq]; [by rewrite zdrop_all in Hne by lia|].
    specialize (Hf Hp). rewrite (zlen_app o q). lia.
  - exists s', o'. rewrite E. rewrite <-app_assoc, ztake_zdrop in Hinv'. split_and!; try done. rewrite Hn'. f_equal. lia.
Qed.

(** Between two calls no input is left. *)
Definition idle (s : t) : Prop :=
  zerror_ s = Z_OK /\ next_in (zstream_ s) = None /\ avail_in (zstream_ s) = 0.

Lemma write_ok fuel b0 i o p s :
  inv b0 false i o s -> idle s -> fits b0 (i ++ p) -> zlen p < 2 ^ 31 -> bound (zlen (i ++ p)) < Z.of_nat fuel ->
  exists s' o', write fuel (StringPiece.of_string p) s = Ok (Some (true, s')) /\ inv b0 false (i ++ p) o' s' /\ idle s'.
Proof.
  intros Hinv (Hz & Hn & Ha) Hfit Hl Hf. unfold write. rewrite Hz, Hn, Ha. cbn [Z.eqb negb massert mbind outcome_bind].
  assert (StringPiece.size (StringPiece.of_string p) = zlen p) as ->.
  { cbn. unfold i32. apply swrap_small; [lia|]. unfold srange. zlia. }
  assert (u32 (zlen p) = zlen p) as -> by (apply uwrap_small; [lia|]; unfold urange; zlia).
  destruct (write_loop_ok fuel b0 i o p (set_input (StringPiece.data (StringPiece.of_string p)) (Some 0) (zlen p) s) 0)
    as (s1 & o' & -> & Hinv1 & Hz1 & Ha1 & Hn1); try done.
  - by destruct Hinv; split.
  - split; [|done]. change (ztake (zlen p) p = p). by apply ztake_all.
  - intros _. zlia.
  - cbn [mbind outcome_bind]. rewrite Ha1, Hn1. cbn [Z.eqb]. rewrite bool_decide_eq_true_2 by done. cbn [massert mbind outcome_bind].
    eexists _, o'. split; [cbn; rewrite Hz1; done|]. split; [|by split_and!]. by destruct Hinv1; split.
Qed.

Lemma write_all_ok fuel b0 l : forall i o s,
  inv b0 false i o s -> idle s -> fits b0 (i ++ concat l) -> Forall (fun p => zlen p < 2 ^ 31) l ->
  bound (zlen (i ++ concat l)) < Z.of_nat fuel ->
  exists s' o', write_all fuel l s = Ok (Some (map (fun _ => true) l, s')) /\ inv b0 false (i ++ concat l) o' s' /\ idle s'.
Proof.
  induction l as [|p l IH]; intros i o s Hinv Hid Hfit Hl Hf; cbn [write_all concat map] in *.
  - exists s, o. by rewrite app_nil_r.
  - rewrite app_assoc in *. pose proof (bound_mono (zlen (i ++ p)) (zlen ((i ++ p) ++ concat l)) ltac:(zlia)) as Hm.
    destruct (write_ok fuel b0 i o p s Hinv Hid) as (s1 & o1 & -> & Hinv1 & Hid1);
      [unfold fits in *; lia|by inversion Hl|lia|]. cbn [mbind outcome_bind].
    destruct (IH (i ++ p) o1 s1 Hinv1 Hid1 Hfit) as (s2 & o2 & -> & Hinv2 & Hid2); [by inversion Hl|done|].
    by exists s2, o2.
Qed.

Lemma finish_loop_ok fuel : forall b0 f i o s,
  inv b0 f i o s -> fits b0 i -> zerror_ s = Z_OK -> avail_in (zstream_ s) = 0 -> bound (zlen i) - zlen o < Z.of_nat fuel ->
  exists s' o', finish_loop fuel s = Ok (Some s') /\ inflate o' = Some i /\ ended (dst (zstream_ s')) /\
    Buffer.wf (output_ s') /\ Buffer.content (output_ s') = Buffer.content b0 ++ o'.
Proof.
  induction fuel as [|fuel IH]; intros b0 f i o s Hinv Hfit Hz Ha Hf.
  all: pose proof (coding_bound _ _ _ _ (inv_coding _ _ _ _ _ Hinv)) as Hb.
  { lia. }
  cbn [finish_loop]. rewrite Hz, Z.eqb_refl.
  destruct (compress_ok b0 f Z_FINISH i o [] s Hinv) as (e & s1 & -> & _ & _ & c & q & Hc & _ & Ha1 & Hcase);
    [by rewrite app_nil_r|by split; [unfold pending; rewrite Ha|]|done|].
  cbn [mbind outcome_bind]. change (zlen (@nil Z)) with 0 in *. assert (c = 0) as -> by lia.
  change (ztake 0 []) with (@nil Z) in Hcase. rewrite app_nil_r in Hcase.
  destruct Hcase as [(-> & Hinv1 & [(? & _)|Hq])|(_ & -> & _ & Hinf & Hend & Hwf & Hct)]; [done| |].
  - apply (IH b0 true i (o ++ q)); [by destruct Hinv1; split|done|done|done|]. rewrite (zlen_app o q). lia.
  - exists (set_zerror Z_STREAM_END s1), (o ++ q). split; [by destruct fuel|]. done.
Qed.

(** [write] of a Buffer takes a prefix of it, and compresses what it took. *)
Lemma write_buffer_takes_prefix b0 i o input s :
  inv b0 false i o s -> zerror_ s = Z_OK -> Buffer.wf input -> zlen (Buffer.content input) < 2 ^ 31 ->
  fits b0 (i ++ Buffer.content input) ->
  exists input' s' c o', write_buffer input s = Ok (true, input', s') /\ Buffer.wf input' /\
    0 <= c <= zlen (Buffer.content input) /\ Buffer.content input' = zdrop c (Buffer.content input) /\
    inv b0 false (i ++ ztake c (Buffer.content input)) o' s' /\ zerror_ s' = Z_OK.
Proof.
  intros Hinv Hz Hwf Hl Hfit. unfold write_buffer. rewrite Hz. cbn [Z.eqb negb Z_OK].
  rewrite Buffer.readable_content by done. set (p := Buffer.content input) in *. assert (0 <= zlen p) as Hp0 by zlia.
  assert (u32 (i32 (zlen p)) = zlen p) as ->.
  { unfold i32. rewrite swrap_small by (lia || (unfold srange; lia)). apply uwrap_small; [lia|]. unfold urange. lia. }
  set (s1 := set_input _ _ _ s).
  assert (inv b0 false i o s1) as Hinv1 by (by destruct Hinv; split).
  assert (input_left s1 p) as Hin.
  { split; [|done]. change (ztake (zlen p) (Buffer.mem_at input (Buffer.peek input)) = p).
    pose proof (Buffer.read_mem_content input (zlen p) Hwf ltac:(fold p; lia)) as Hm. unfold Buffer.read_mem in Hm.
    destruct (_ <=? _); [|done]. injection Hm as ->. fold p. by apply ztake_all. }
  assert (exists s2 c o', (if (0 <? avail_in (zstream_ s1)) && (zerror_ s1 =? Z_OK)
      then '(e, s') ← compress Z_NO_FLUSH s1; Ok (set_zerror e s') else Ok s1) = Ok s2 /\ 0 <= c <= zlen p /\
      avail_in (zstream_ s2) = zlen p - c /\ inv b0 false (i ++ ztake c p) o' s2 /\ zerror_ s2 = Z_OK)
    as (s2 & c & o' & -> & Hc & Ha2 & Hinv2 & Hz2).
  { destruct Hin as [Hpe Ha]. rewrite Ha. change (zerror_ s1) with (zerror_ s). rewrite Hz, Z.eqb_refl, andb_true_r.
    destruct (Z.ltb_spec 0 (zlen p)) as [Hpos|Hnil].
    - destruct (compress_ok b0 false Z_NO_FLUSH i o p s1 Hinv1 Hfit (conj Hpe Ha))
        as (e & s2 & -> & _ & _ & c & q & Hc & _ & Ha2 & [(-> & Hinv2 & _)|(? & _)]); [intros _; split; [done|intros E; by rewrite E in Hpos]| |done].
      exists (set_zerror Z_OK s2), c, (o ++ q). cbn [mbind outcome_bind]. split_and!; try done || lia. by destruct Hinv2; split.
    - exists s1, 0, o. rewrite ztake_0, app_nil_r by lia. split_and!; done || lia. }
  cbn [mbind outcome_bind]. rewrite Ha2. replace (zlen p - (zlen p - c)) with c by lia. rewrite u64_small by lia.
  destruct (Buffer.retrieve_ok c input Hwf) as (input' & -> & Hwf' & Hct' & _); [lia|fold p; lia|].
  cbn [mbind outcome_bind]. rewrite Hz2. by exists input', s2, c, o'.
Qed.

(** C38: Whatever is written to a ZlibOutputStream in pieces, with room for the
    compressed bytes, no assertion fails and the loops end; every call returns
    true, and after finish() the output buffer holds, behind what it held
    before, bytes that inflate to the concatenation of the pieces.  The stream
    then refuses further writes. *)
Theorem zlib_output_round_trip fuel b0 l :
  Buffer.wf b0 -> Forall (fun p => zlen p < 2 ^ 31) l -> fits b0 (concat l) -> bound (zlen (concat l)) < Z.of_nat fuel ->
  exists s z, session fuel l b0 = Ok (Some (map (fun _ => true) l, true, s)) /\ Buffer.wf (output_ s) /\
    Buffer.content (output_ s) = Buffer.content b0 ++ z /\ inflate z = Some (concat l) /\
    (forall p, write fuel p s = Ok (Some (false, s))) /\ finish fuel s = Ok (Some (false, s)).
Proof.
  intros Hb Hl Hfit Hf. destruct deflateInit_ok as [Hi Hc].
  destruct (write_all_ok fuel b0 l [] [] (new_ b0)) as (s1 & o1 & E1 & Hinv & Hz & Hn & Ha); try done.
  { split; cbn; [done|by rewrite app_nil_r|destruct Hb as (_ & ? & _); change (zlen (@nil Z)) with 0; lia|change (zlen (@nil Z)) with 0; lia|lia|done]. }
  unfold session. rewrite E1. cbn [mbind outcome_bind app] in *. unfold finish. rewrite Hz. cbn [Z.eqb negb].
  assert (0 <= zlen o1) by zlia.
  destruct (finish_loop_ok fuel b0 false (concat l) o1 s1) as (s2 & z & -> & Hinf & Hend & Hwf & Hct); [done..|lia|].
  cbn [mbind outcome_bind option_bind]. rewrite (deflateEnd_ok _ Hend). cbn [Z.eqb]. by eexists _, z.
Qed.

End Stream.

(** * An instance, and a finding *)

(** A compressor that stores the input as it is. *)
Definition stored : Zlib := {|
  dstate := unit; deflateInit := (tt, Z_OK);
  deflate fl inp n _ := let c := Z.min n (zlen inp) in
    Reply tt c (ztake c inp) (match fl with Z_FINISH => if c =? zlen inp then Z_STREAM_END else Z_OK | Z_NO_FLUSH => Z_OK end);
  deflateEnd _ := Z_OK |}.
Definition stored_ok : @ZlibSpec stored.
Proof.
  refine {| inflate := Some; bound x := x; coding _ _ i o := o = i; ended _ := True |}; try done.
  - by intros f st i o ->.
  - intros f fl inp n st i o -> Hn Hfl. cbn [deflate stored consumed produced code r_state]. pose proof (zlen_nonneg inp).
    split_and!; [lia|lia|rewrite zlen_ztake; lia|].
    destruct fl.
    + left. split_and!; try done. destruct (Z.le_gt_cases n (zlen inp)); [right; rewrite zlen_ztake; lia|left; split; [done|lia]].
    + destruct (Z.eqb_spec (Z.min n (zlen inp)) (zlen inp)) as [E|E]; [right|left]; split_and!; try done.
      * by rewrite E, ztake_all by lia.
      * right. rewrite zlen_ztake. lia.
Defined.

Definition empty_buffer : Buffer.t := Buffer.mk (replicate 16 0) 8 8.
Lemma zlib_output_round_trip_witness :
  exists s, @session stored 20 [lit "hello "; []; lit "world"] empty_buffer = Ok (Some ([true; true; true], true, s)) /\
    Buffer.content (output_ s) = lit "hello world".
Proof.
  destruct (@zlib_output_round_trip stored stored_ok 20 empty_buffer [lit "hello "; []; lit "world"])
    as (s & z & E & _ & Ec & Ei & _).
  - vm_compute. split_and!; done.
  - repeat constructor.
  - vm_compute. reflexivity.
  - vm_compute. reflexivity.
  - exists s. split; [exact E|]. rewrite Ec. assert (z = lit "hello world") as -> by (injection Ei as ->; reflexivity). vm_compute. reflexivity.
Defined.

(** [write] of a Buffer leaves [next_in] set even when it took everything, and
    the next [write] of a StringPiece fails its first assertion. *)
Example piece_after_buffer_fails :
  (b ← Buffer.new_ 64; out ← Buffer.new_ 64; input ← Buffer.append_string (lit "abc") b;
   '(ok, input', s) ← @write_buffer stored input (@new_ stored out);
   r ← write 5 (StringPiece.of_string (lit "d")) s;
   Ok (ok, Buffer.content input', r))
  = Err (AssertFail "zstream_.next_in == NULL && zstream_.avail_in == 0").
Proof. vm_compute. reflexivity. Qed.

End ZlibOutputStream.
