(* ===== verification/NetBufferStream.v ===== *)
(** src/muduo/net/protobuf/BufferStream.h: [BufferOutputStream], a Buffer as
    the [ZeroCopyOutputStream] of the protobuf library, which asks for memory
    ([Next]), fills it and gives back what it did not use ([BackUp]). *)

From S2P Require Import Prelude NetBuffer.

Module BufferOutputStream.

Record t := mk { buffer_ : Buffer.t; originalSize_ : Z }.

Definition new_ (buf : Buffer.t) : t := mk buf (Buffer.readableBytes buf).

(** Returns where the memory starts in the buffer, and its size. *)
Definition Next (s : t) : outcome (Z * Z * t) :=
  b ← Buffer.ensureWritableBytes 4096 (buffer_ s);
  let data := Buffer.beginWrite b in
  let size := i32 (Buffer.writableBytes b) in
  b' ← Buffer.hasWritten (u64 size) b;
  Ok (data, size, mk b' (originalSize_ s)).
Definition BackUp (count : Z) (s : t) : outcome t :=
  b ← Buffer.unwrite (u64 count) (buffer_ s);
  Ok (mk b (originalSize_ s)).
Definition ByteCount (s : t) : Z := i64 (u64 (Buffer.readableBytes (buffer_ s) - originalSize_ s)).

(** The library writes [chunk] at the start of the memory it got, and gives
    the rest back. *)
Definition write_chunk (chunk : bytes) (s : t) : outcome t :=
  '(data, size, s1) ← Next s;
  v ← Buffer.write_at (Buffer.buffer_ (buffer_ s1)) data chunk;
  BackUp (size - zlen chunk)
    (mk (Buffer.mk v (Buffer.readerIndex_ (buffer_ s1)) (Buffer.writerIndex_ (buffer_ s1))) (originalSize_ s1)).
Fixpoint write_chunks (l : list bytes) (s : t) : outcome t :=
  match l with [] => Ok s | c :: l' => s' ← write_chunk c s; write_chunks l' s' end.

Lemma write_chunk_ok chunk s :
  Buffer.wf (buffer_ s) -> zlen chunk <= 4096 -> zlen (Buffer.buffer_ (buffer_ s)) + 4096 < 2 ^ 31 ->
  exists s', write_chunk chunk s = Ok s' /\ Buffer.wf (buffer_ s') /\ originalSize_ s' = originalSize_ s /\
    Buffer.content (buffer_ s') = Buffer.content (buffer_ s) ++ chunk /\
    zlen (Buffer.buffer_ (buffer_ s')) <= zlen (Buffer.buffer_ (buffer_ s)) + 4096.
Proof.
  intros Hwf Hl Hsz. destruct s as [b0 n0]; cbn [buffer_ originalSize_] in *. unfold write_chunk, Next, BackUp. cbn [buffer_ originalSize_].
  assert (Buffer.writerIndex_ b0 <= zlen (Buffer.buffer_ b0)) as Hw by (destruct Hwf; lia).
  destruct (Buffer.ensureWritable_bound 4096 b0 Hwf) as (b & -> & Hb & Hc & Hroom & Hwb & Hlen); [lia|unfold Buffer.vector_max_size; lia|].
  cbn [mbind outcome_bind]. rewrite Buffer.writable_wf by done. set (n := zlen (Buffer.buffer_ b) - Buffer.writerIndex_ b) in *.
  assert (0 <= Buffer.writerIndex_ b) as H0 by (destruct Hb; lia).
  assert (i32 n = n) as -> by (apply swrap_small; [lia|]; unfold srange; lia).
  unfold Buffer.hasWritten. rewrite Buffer.writable_wf by done. fold n. rewrite !(u64_small n) by lia. assert_ok.
  cbn [mbind outcome_bind buffer_ originalSize_ Buffer.buffer_ Buffer.readerIndex_ Buffer.writerIndex_].
  destruct (Buffer.fill_ok b chunk Hb) as (v & Ev & Hv & Hb' & Hc'); [lia|]. unfold Buffer.beginWrite. rewrite Ev.
  cbn [mbind outcome_bind buffer_ originalSize_]. pose proof (zlen_nonneg chunk).
  rewrite !(u64_small (Buffer.writerIndex_ b + n)), !(u64_small (n - zlen chunk)) by lia.
  unfold Buffer.unwrite, Buffer.readableBytes. cbn [Buffer.buffer_ Buffer.readerIndex_ Buffer.writerIndex_].
  assert (0 <= Buffer.readerIndex_ b <= Buffer.writerIndex_ b) as Hr by (destruct Hb; lia).
  rewrite !u64_small by lia. assert_ok. cbn [mbind outcome_bind].
  replace (Buffer.writerIndex_ b + n - (n - zlen chunk)) with (Buffer.writerIndex_ b + zlen chunk) by lia.
  eexists. split; [done|]. cbn [buffer_ originalSize_]. rewrite Hc', Hc. split_and!; try done. cbn. lia.
Qed.

(** What the library writes through the stream is appended to the buffer, and
    ByteCount is its length. *)
Theorem output_stream_appends l : forall b,
  Buffer.wf b -> Forall (fun c => zlen c <= 4096) l -> zlen (Buffer.buffer_ b) + 4096 * zlen l < 2 ^ 31 ->
  exists s, write_chunks l (new_ b) = Ok s /\ Buffer.wf (buffer_ s) /\
    Buffer.content (buffer_ s) = Buffer.content b ++ concat l /\ ByteCount s = zlen (concat l).
Proof.
  intros b Hwf Hl Hsz. assert (exists s, write_chunks l (new_ b) = Ok s /\ Buffer.wf (buffer_ s) /\
    Buffer.content (buffer_ s) = Buffer.content b ++ concat l /\ originalSize_ s = Buffer.readableBytes b /\
    zlen (Buffer.buffer_ (buffer_ s)) < 2 ^ 31) as (s & E & Hs & Hc & Ho & Hz).
  { change (Buffer.content b) with (Buffer.content (buffer_ (new_ b))). change (Buffer.readableBytes b) with (originalSize_ (new_ b)).
    change (Buffer.wf (buffer_ (new_ b))) in Hwf. change (zlen (Buffer.buffer_ (buffer_ (new_ b))) + 4096 * zlen l < 2 ^ 31) in Hsz.
    generalize dependent (new_ b). clear b. induction l as [|c l IH]; intros s Hs Hsz; cbn [concat].
    - exists s. rewrite app_nil_r. change (zlen (@nil bytes)) with 0 in Hsz. split_and!; done || lia.
    - inversion Hl; subst. rewrite zlen_cons in Hsz. pose proof (zlen_nonneg l).
      destruct (write_chunk_ok c s Hs) as (s1 & E1 & Hs1 & Ho1 & Hc1 & Hz1); [done|lia|].
      destruct (IH ltac:(done) s1 Hs1) as (s2 & E2 & Hs2 & Hc2 & Ho2 & Hz2); [lia|].
      exists s2. cbn [write_chunks]. rewrite E1. cbn [mbind outcome_bind]. rewrite E2, Hc2, Hc1, Ho2, Ho1, <-app_assoc.
      done. }
  exists s. split_and!; [done..|]. unfold ByteCount. rewrite Ho, !Buffer.readable_content, Hc, zlen_app by done.
  pose proof (Buffer.content_len _ Hs) as Hcl. rewrite Hc, zlen_app in Hcl. pose proof (zlen_nonneg (Buffer.content b)).
  pose proof (zlen_nonneg (concat l)). destruct Hs as (? & ? & _). rewrite u64_small by lia.
  unfold i64. rewrite swrap_small by (lia || (unfold srange; lia)). lia.
Qed.

End BufferOutputStream.
