(* ===== verification/NetLoopTimers.v ===== *)
(** The timer calls of src/muduo/net/EventLoop.cc (runAt, runAfter, runEvery
    and cancel) over NetTimerQueue, called in the loop thread, and the one
    loop each thread may have ([t_loopInThisThread]). *)

From S2P Require Import Prelude BaseTimestamp BaseDouble NetTimerQueue.
Import TimerQueue.

Module LoopTimers.

(** A [TimerId]: the timer and its sequence number. *)
Record TimerId := mkid { timer_ : Z; sequence_ : Z }.

(** [ptr] is the address [new Timer] returns, [clk] the clock when the
    timerfd is armed. *)
Definition addTimer (ptr cb : Z) (when : Timestamp.t) (interval : double) (clk : Timestamp.t) (q : TimerQueue.t)
    : outcome (TimerId * TimerQueue.t) :=
  q' ← TimerQueue.addTimer ptr cb when interval clk q;
  Ok (mkid ptr (s_numCreated_ q + 1), q').

Definition runAt (ptr : Z) (time : Timestamp.t) (cb : Z) (clk : Timestamp.t) (q : TimerQueue.t) :=
  addTimer ptr cb time (d_of_Z 0) clk q.
Definition runAfter (ptr : Z) (delay : double) (cb : Z) (now clk : Timestamp.t) (q : TimerQueue.t) :=
  time ← Timestamp.addTime now delay;
  runAt ptr time cb clk q.
Definition runEvery (ptr : Z) (interval : double) (cb : Z) (now clk : Timestamp.t) (q : TimerQueue.t) :=
  time ← Timestamp.addTime now interval;
  addTimer ptr cb time interval clk q.
Definition cancel (id : TimerId) (q : TimerQueue.t) : outcome TimerQueue.t := cancelInLoop (timer_ id) (sequence_ id) q.

(** * [t_loopInThisThread], for every thread *)

Definition registry := gmap Z Z.
Definition getEventLoopOfCurrentThread (tid : Z) (r : registry) : option Z := r !! tid.
(** The end of the constructor and of the destructor, run by thread [tid]. *)
Definition register_loop (tid loop : Z) (r : registry) : outcome registry :=
  match r !! tid with
  | Some _ => Err (LogFatal "Another EventLoop exists in this thread")
  | None => Ok (<[tid := loop]> r)
  end.
Definition unregister_loop (tid : Z) (r : registry) : registry := delete tid r.

(** * Whole seconds *)

Definition second : Z := 1000000.

Lemma addTime_whole k x : 0 <= k -> k * second < 2 ^ 53 -> - 2 ^ 62 <= x < 2 ^ 62 ->
  Timestamp.addTime x (d_of_Z k) = Ok (x + k * second).
Proof.
  intros Hk Hks Hx. unfold Timestamp.addTime. change (d_of_Z Timestamp.kMicroSecondsPerSecond) with (d_of_Z second).
  rewrite seconds_scaled by (unfold second in *; lia). cbn [mbind outcome_bind].
  apply Timestamp.int64_op_ok. unfold srange, second in *. lia.
Qed.
Lemma interval_ok_whole k : 0 <= k -> k * second < 2 ^ 53 -> interval_ok (d_of_Z k).
Proof.
  intros Hk Hks. exists (k * second). split; [|unfold second in *; lia].
  apply seconds_scaled; unfold Timestamp.kMicroSecondsPerSecond, second in *; lia.
Qed.
Lemma d_pos_whole k : 0 <= k < 2 ^ 53 -> d_pos (d_of_Z k) = (0 <? k).
Proof.
  intros Hk. destruct (Z.eq_dec k 0) as [->|]; [done|].
  destruct (d_of_Z_exact k ltac:(lia)) as (e & _ & p & -> & _). symmetry. by apply Z.ltb_lt; lia.
Qed.

(** What a timer call leaves: the queue is well-formed and armed, and holds
    exactly one more timer. *)
Record scheduled (id : TimerId) (tm : timer) (q q' : TimerQueue.t) : Prop := {
  sch_wf : wf q';
  sch_armed : armed_for None q';
  sch_timers : timers_ q' ≡ₚ (expiration_ tm, timer_ id) :: timers_ q;
  sch_heap : heap q' = <[timer_ id := tm]> (heap q);
  sch_seq : TimerQueue.sequence_ tm = sequence_ id /\ sequence_ id = s_numCreated_ q + 1 }.

Lemma addTimer_ok ptr cb when interval clk q :
  wf q -> armed_for None q -> heap q !! ptr = None -> ptr_ok ptr -> - 2 ^ 62 <= when < 2 ^ 62 ->
  (d_pos interval = true -> interval_ok interval) -> clock_ok clk ->
  exists id q', addTimer ptr cb when interval clk q = Ok (id, q') /\ timer_ id = ptr /\
    scheduled id (timer_new cb when interval (s_numCreated_ q + 1)) q q'.
Proof.
  intros Hwf Harm Hnone Hp Hw Hi Hc. pose proof (wfx_alloc [] q ptr cb when interval Hwf Hnone Hp Hw Hi) as Hwf1. cbn in Hwf1.
  unfold addTimer, TimerQueue.addTimer. set (tm := timer_new cb when interval (s_numCreated_ q + 1)) in *.
  destruct (addTimerInLoop_ok [] _ ptr tm clk None Hwf1) as (q' & -> & Hwf' & Hperm & Hh & _ & Harm');
    [by apply lookup_insert_eq|done|done|].
  cbn [mbind outcome_bind]. by eexists _, q'.
Qed.

(** With a whole number of seconds, runAfter schedules one call exactly that
    much later than the clock it read; runEvery also repeats, and each time
    the timer runs it is set to exactly the interval after the time it ran at. *)
Theorem run_after_whole_seconds k ptr cb now clk q :
  wf q -> armed_for None q -> heap q !! ptr = None -> ptr_ok ptr ->
  0 <= k -> k * second < 2 ^ 53 -> 0 < now < 2 ^ 61 -> clock_ok clk ->
  (exists id q', runAfter ptr (d_of_Z k) cb now clk q = Ok (id, q') /\
    scheduled id (mktimer cb (now + k * second) (d_of_Z 0) false (s_numCreated_ q + 1)) q q') /\
  (0 < k -> exists id q' tm, runEvery ptr (d_of_Z k) cb now clk q = Ok (id, q') /\ scheduled id tm q q' /\
    tm = mktimer cb (now + k * second) (d_of_Z k) true (s_numCreated_ q + 1) /\
    forall ran, 0 < ran < 2 ^ 61 ->
      restart ran tm = Ok (mktimer cb (ran + k * second) (d_of_Z k) true (s_numCreated_ q + 1))).
Proof.
  intros Hwf Harm Hnone Hp Hk Hks Hn Hc. assert (0 <= k * second) by (unfold second; lia). split.
  - unfold runAfter, runAt. rewrite addTime_whole by lia. cbn [mbind outcome_bind].
    destruct (addTimer_ok ptr cb (now + k * second) (d_of_Z 0) clk q) as (id & q' & -> & _ & Hs);
      [done|done|done|done|lia|done|done|]. by exists id, q'.
  - intros Hpos. unfold runEvery. rewrite addTime_whole by lia. cbn [mbind outcome_bind].
    assert (d_pos (d_of_Z k) = true) as Hd by (rewrite d_pos_whole; [by apply Z.ltb_lt|unfold second in *; lia]).
    destruct (addTimer_ok ptr cb (now + k * second) (d_of_Z k) clk q) as (id & q' & -> & _ & Hs);
      [done|done|done|done|lia|intros _; by apply interval_ok_whole|done|].
    unfold timer_new in Hs. rewrite Hd in Hs. eexists id, q', _. split; [done|]. split; [exact Hs|]. split; [done|].
    intros ran Hr. unfold restart. cbn [repeat_ interval_ callback_ TimerQueue.sequence_].
    rewrite addTime_whole by lia. done.
Qed.

(** A tenth of a second is not a double, but its microseconds are exact. *)
Example a_tenth_later :
  (let q := TimerQueue.new_ in
   '(id, q') ← runAfter 4096 (d_div (d_of_Z 1) (d_of_Z 10)) 7 1000000 1000001 q; q'' ← cancel id q';
   Ok (timers_ q', timers_ q'')) = Ok ([(1100000, 4096)], []).
Proof. vm_compute. reflexivity. Qed.

End LoopTimers.
