(* ===== verification/BaseCondition.v ===== *)
(** src/muduo/base/Condition.cc: the deadline of [waitForSeconds], and what it
    returns.  The wait itself is a step of BaseMonitor. *)

From S2P Require Import Prelude BaseTimestamp BaseDouble.

Module Condition.

Definition kNanoSecondsPerSecond : Z := 1000000000.
Definition ETIMEDOUT : Z := 110.
Definition EINVAL : Z := 22.

Record timespec := mkts { tv_sec : Z; tv_nsec : Z }.

(** [abstime]: [now] is what clock_gettime gave.  Division truncates. *)
Definition deadline (now : timespec) (seconds : double) : outcome timespec :=
  nanoseconds ← d_to_int64 (d_mul seconds (d_of_Z kNanoSecondsPerSecond));
  sum ← int64_op (tv_nsec now + nanoseconds);
  sec ← int64_op (tv_sec now + Z.quot sum kNanoSecondsPerSecond);
  Ok (mkts sec (Z.rem sum kNanoSecondsPerSecond)).

(** [timedwait]: the result of pthread_cond_timedwait for a deadline. *)
Definition waitForSeconds (timedwait : timespec -> Z) (now : timespec) (seconds : double) : outcome bool :=
  abstime ← deadline now seconds;
  Ok (ETIMEDOUT =? timedwait abstime).

(** A time as pthread_cond_timedwait accepts it. *)
Definition valid (x : timespec) : Prop := 0 <= tv_nsec x < kNanoSecondsPerSecond.
Definition nanos (x : timespec) : Z := tv_sec x * kNanoSecondsPerSecond + tv_nsec x.

(** For any span of 0 or more that fits, the deadline is a valid time exactly
    the span's nanoseconds after the clock. *)
Theorem deadline_is_later now seconds ns :
  valid now -> 0 <= tv_sec now < 2 ^ 62 -> d_to_int64 (d_mul seconds (d_of_Z kNanoSecondsPerSecond)) = Ok ns -> 0 <= ns < 2 ^ 62 ->
  exists abstime, deadline now seconds = Ok abstime /\ valid abstime /\ nanos abstime = nanos now + ns.
Proof.
  unfold valid, nanos, kNanoSecondsPerSecond. intros Hv Hs Hns Hb. unfold deadline. unfold kNanoSecondsPerSecond in *. rewrite Hns.
  cbn [mbind outcome_bind]. rewrite Timestamp.int64_op_ok by (unfold srange; lia). cbn [mbind outcome_bind].
  rewrite Z.quot_div_nonneg, Z.rem_mod_nonneg by lia.
  pose proof (Z.div_mod (tv_nsec now + ns) 1000000000 ltac:(lia)) as E.
  pose proof (Z.mod_pos_bound (tv_nsec now + ns) 1000000000 ltac:(lia)).
  rewrite Timestamp.int64_op_ok by (unfold srange; lia). cbn [mbind outcome_bind].
  eexists. split; [done|]. cbn [tv_sec tv_nsec]. lia.
Qed.

(** For whole seconds the span is exact. *)
Corollary deadline_whole_seconds now k :
  valid now -> 0 <= tv_sec now < 2 ^ 62 -> 0 <= k < 9007199 ->
  deadline now (d_of_Z k) = Ok (mkts (tv_sec now + k) (tv_nsec now)).
Proof.
  intros Hv Hs Hk. assert (d_to_int64 (d_mul (d_of_Z k) (d_of_Z kNanoSecondsPerSecond)) = Ok (k * kNanoSecondsPerSecond)) as E
    by (apply seconds_scaled; unfold kNanoSecondsPerSecond; lia).
  destruct (deadline_is_later now (d_of_Z k) _ Hv Hs E) as ([s n] & -> & Hv' & Hn); [unfold kNanoSecondsPerSecond; lia|].
  unfold valid, nanos, kNanoSecondsPerSecond in *. cbn [tv_sec tv_nsec] in *. f_equal. f_equal; lia.
Qed.

(** A negative span gives a negative [tv_nsec]; pthread_cond_timedwait rejects
    it with EINVAL, and the wait returns at once, reporting no timeout. *)
Definition strict_timedwait (x : timespec) : Z :=
  if (0 <=? tv_nsec x) && (tv_nsec x <? kNanoSecondsPerSecond) then ETIMEDOUT else EINVAL.
Example negative_span_is_no_timeout :
  deadline (mkts 1000 200) (d_div (d_of_Z (-1)) (d_of_Z 2)) = Ok (mkts 1000 (-499999800)) /\
  waitForSeconds strict_timedwait (mkts 1000 200) (d_div (d_of_Z (-1)) (d_of_Z 2)) = Ok false.
Proof. split; vm_compute; reflexivity. Qed.

End Condition.
