(* ===== verification/BaseSingleton.v ===== *)
(** src/muduo/base/Singleton.h: one object for the process, made by the first
    thread that asks for it.  Objects are addresses; [live] are those allocated
    and not yet deleted, and a step that allocates is told which address [new]
    returns. *)

From S2P Require Import Prelude.

Module Singleton.

Definition address := Z.

(** [pthread_once_t]. *)
Inductive once_t := PTHREAD_ONCE_INIT | Running (tid : Z) | Done.

(** Where a thread is in [instance()]: at pthread_once, in [init()] before and
    after the allocation, behind pthread_once. *)
Inductive pc_t := Outside | AtOnce | Init | InitAtexit | Behind.

Record t := mk {
  ponce_ : once_t;
  value_ : option address;
  live : gset address;
  constructed : nat;
  atexit : nat;
  pcs : gmap Z pc_t;
  returned : list (Z * address)
}.
Definition new_ : t := mk PTHREAD_ONCE_INIT None ∅ 0 0 ∅ [].

Definition pc (tid : Z) (s : t) : pc_t := default Outside (pcs s !! tid).
Definition set_pc (tid : Z) (p : pc_t) (s : t) : t :=
  mk (ponce_ s) (value_ s) (live s) (constructed s) (atexit s) (<[tid := p]> (pcs s)) (returned s).
Definition set_ponce (o : once_t) (s : t) : t :=
  mk o (value_ s) (live s) (constructed s) (atexit s) (pcs s) (returned s).

Section NoDestroy.
(** [has_no_destroy<T>::value]. *)
Context (no_destroy : bool).

(** [value_ = new T()]. *)
Definition init_new (a : address) (s : t) : t :=
  mk (ponce_ s) (Some a) ({[a]} ∪ live s) (S (constructed s)) (atexit s) (pcs s) (returned s).
Definition init_atexit (s : t) : t :=
  if negb no_destroy
  then mk (ponce_ s) (value_ s) (live s) (constructed s) (S (atexit s)) (pcs s) (returned s)
  else s.
Definition destroy (s : t) : t :=
  mk (ponce_ s) None (match value_ s with Some a => live s ∖ {[a]} | None => live s end)
    (constructed s) (atexit s) (pcs s) (returned s).

(** [instance()], one step of thread [tid]; at pthread_once a thread waits
    while another runs [init()]. *)
Definition step (tid : Z) (a : address) (s : t) : outcome t :=
  match pc tid s with
  | Outside => Ok (set_pc tid AtOnce s)
  | AtOnce =>
      match ponce_ s with
      | PTHREAD_ONCE_INIT => Ok (set_pc tid Init (set_ponce (Running tid) s))
      | Running _ => Ok s
      | Done => Ok (set_pc tid Behind s)
      end
  | Init => Ok (set_pc tid InitAtexit (init_new a s))
  | InitAtexit => Ok (set_pc tid Behind (set_ponce Done (init_atexit s)))
  | Behind =>
      match value_ s with
      | None => Err (AssertFail "value_ != NULL")
      | Some v => Ok (set_pc tid Outside
          (mk (ponce_ s) (value_ s) (live s) (constructed s) (atexit s) (pcs s) (returned s ++ [(tid, v)])))
      end
  end.

(** Any interleaving of threads; exit() then runs what atexit registered. *)
Definition run (s : t) (es : list (Z * address)) : outcome t := foldM (fun s e => step e.1 e.2 s) s es.
Definition exit_ (s : t) : t := Nat.iter (atexit s) destroy s.

Inductive inv (s : t) : Prop :=
| inv_init : ponce_ s = PTHREAD_ONCE_INIT -> value_ s = None -> live s = ∅ -> constructed s = O -> atexit s = O -> returned s = [] ->
    (forall i, pc i s = Outside \/ pc i s = AtOnce) -> inv s
| inv_running r : ponce_ s = Running r -> returned s = [] -> atexit s = O ->
    (forall i, i <> r -> pc i s = Outside \/ pc i s = AtOnce) ->
    (pc r s = Init /\ value_ s = None /\ live s = ∅ /\ constructed s = O \/
     exists a, pc r s = InitAtexit /\ value_ s = Some a /\ live s = {[a]} /\ constructed s = 1%nat) -> inv s
| inv_done a : ponce_ s = Done -> value_ s = Some a -> live s = {[a]} -> constructed s = 1%nat ->
    atexit s = (if no_destroy then 0 else 1)%nat -> Forall (fun x => x.2 = a) (returned s) ->
    (forall i, pc i s = Outside \/ pc i s = AtOnce \/ pc i s = Behind) -> inv s.

Lemma pc_set i tid p s : pc i (set_pc tid p s) = if decide (tid = i) then p else pc i s.
Proof. unfold pc. cbn. rewrite lookup_insert. by case_decide. Qed.

Lemma once_step_inv tid a s : inv s -> exists s', step tid a s = Ok s' /\ inv s'.
Proof.
  intros H. unfold step. destruct H as [Ho Hv Hl Hc Ha Hr Hp|r Ho Hr Ha Hp Hcase|v Ho Hv Hl Hc Ha Hr Hp].
  - destruct (Hp tid) as [->| ->]; [|rewrite Ho]; (eexists; split; [done|]).
    + eapply inv_init; try done. intros i. rewrite pc_set. case_decide; eauto.
    + eapply (inv_running _ tid); try done; [intros i Hi; rewrite pc_set, decide_False by done; apply Hp|].
      left. rewrite pc_set, decide_True by done. done.
  - destruct (decide (tid = r)) as [->|Hne].
    + destruct Hcase as [(-> & Hv & Hl & Hc)|(v & -> & Hv & Hl & Hc)]; (eexists; split; [done|]).
      * eapply (inv_running _ r); try done; [intros i Hi; rewrite pc_set, decide_False by done; by apply Hp|].
        right. exists a. rewrite pc_set, decide_True by done. cbn. rewrite Hl, Hc. split_and!; try done. by rewrite union_empty_r_L.
      * unfold init_atexit. eapply (inv_done _ v); destruct no_destroy; cbn; rewrite ?Ha, ?Hr; try done;
          intros i; rewrite pc_set; case_decide; (by right; right) || (destruct (Hp i) as [E|E]; [done|left; exact E|right; left; exact E]).
    + destruct (Hp tid Hne) as [->| ->]; [|rewrite Ho]; (eexists; split; [done|]).
      * eapply (inv_running _ r); try done; [intros i Hi; rewrite pc_set; case_decide; [by right|by apply Hp]|].
        rewrite pc_set, decide_False by done. done.
      * by eapply (inv_running _ r).
  - destruct (Hp tid) as [->|[->| ->]]; rewrite ?Ho, ?Hv; (eexists; split; [done|]);
      eapply (inv_done _ v); try done; try (intros i; rewrite pc_set; case_decide; [by eauto|apply Hp]).
    apply Forall_app. split; [done|]. by constructor.
Qed.

Lemma once_run_inv es : forall s, inv s -> exists s', run s es = Ok s' /\ inv s'.
Proof.
  induction es as [|[i a] es IH]; intros s Hs; [by exists s|].
  destruct (once_step_inv i a s Hs) as (s1 & E & H1). destruct (IH s1 H1) as (s2 & E2 & H2). exists s2.
  split; [|done]. unfold run in *. cbn. rewrite E. done.
Qed.

Lemma inv_new : inv new_.
Proof. by apply inv_init; try done; intros i; left. Qed.

(** However threads interleave in instance(), no assertion fails, at most one
    object is made, every call returns that one and it is live; some thread
    inside can always go on, and exit() deletes the object unless T asks to
    keep it. *)
Theorem singleton_one_object es : exists s, run new_ es = Ok s /\
  (constructed s <= 1)%nat /\
  (forall i v, (i, v) ∈ returned s -> value_ s = Some v /\ live s = {[v]}) /\
  (forall i, pc i s <> Outside -> exists j a s', pc j s <> Outside /\ step j a s = Ok s' /\ s' <> s) /\
  ((forall i, pc i s = Outside) -> returned s <> [] -> if no_destroy then live (exit_ s) = live s else live (exit_ s) = ∅).
Proof.
  destruct (once_run_inv es new_ inv_new) as (s & E & Hs). exists s. split; [done|].
  assert (forall tid p s0, pc tid s0 <> p -> set_pc tid p s0 <> s0) as Hset.
  { intros tid p s0 Hne Heq. apply Hne. by rewrite <-Heq, pc_set, decide_True. }
  destruct Hs as [Ho Hv Hl Hc Ha Hr Hp|r Ho Hr Ha Hp Hcase|v Ho Hv Hl Hc Ha Hr Hp].
  - split_and!; [lia|rewrite Hr; by intros i v ?%elem_of_nil| |by rewrite Hr].
    intros i Hi. destruct (Hp i) as [|Hpi]; [done|]. exists i, 0. unfold step. rewrite Hpi, Ho.
    eexists. split_and!; [done..|]. intros Heq. apply (f_equal ponce_) in Heq. cbn in Heq. congruence.
  - split_and!; [|rewrite Hr; by intros i v ?%elem_of_nil| |by rewrite Hr].
    + destruct Hcase as [(_ & _ & _ & ->)|(a & _ & _ & _ & ->)]; lia.
    + intros i Hi. exists r, 0. unfold step. destruct Hcase as [(Hpr & Hv & _)|(a & Hpr & _)]; rewrite Hpr; eexists; (split_and!; [done..|]).
      * intros Heq. apply (f_equal value_) in Heq. cbn in Heq. congruence.
      * intros Heq. apply (f_equal ponce_) in Heq. cbn in Heq. congruence.
  - split_and!; [lia| | |].
    + intros i w Hin. rewrite Forall_forall in Hr. specialize (Hr _ Hin). cbn in Hr. by subst.
    + intros i Hi. exists i, 0. unfold step. destruct (Hp i) as [|[Hpi|Hpi]]; [done|..]; rewrite Hpi, ?Ho, ?Hv; eexists; (split_and!; [done..|]).
      * apply Hset. by rewrite Hpi.
      * intros Heq. apply (f_equal returned) in Heq. cbn in Heq. apply (f_equal length) in Heq. rewrite length_app in Heq. cbn in Heq. lia.
    + intros _ _. unfold exit_. rewrite Ha. destruct no_destroy; [done|]. cbn. rewrite Hv, Hl. by rewrite difference_diag_L.
Qed.

End NoDestroy.

(** A call after exit() has deleted the object fails the assertion: pthread_once
    does not run [init()] again. *)
Example instance_after_exit :
  (s ← run false new_ [(1, 0); (1, 0); (1, 64); (1, 0); (1, 0)]; run false (exit_ s) [(1, 0); (1, 0); (1, 0)])
  = Err (AssertFail "value_ != NULL").
Proof. vm_compute. reflexivity. Qed.

End Singleton.
