(* ===== verification/BaseThreadLocal.v ===== *)
(** src/muduo/base/ThreadLocal.h: one object for each thread, made when the
    thread first asks for it and deleted when the thread ends.  Objects are
    addresses; an event that allocates says which address [new] returns. *)

From S2P Require Import Prelude.

Definition address := Z.

(** * Objects of threads *)

(** Each thread has at most one object and no object has two threads. *)
Definition owned (m : gmap Z address) (live : gset address) : Prop :=
  (forall a, a ∈ live <-> exists i, m !! i = Some a) /\ (forall i j a, m !! i = Some a -> m !! j = Some a -> i = j).

Lemma owned_empty : owned ∅ ∅.
Proof. split; [|done]. intros a. split; [set_solver|]. by intros (i & Hi). Qed.
Lemma owned_insert m l i a : owned m l -> m !! i = None -> a ∉ l -> owned (<[i := a]> m) ({[a]} ∪ l).
Proof.
  intros [Hl Hinj] Hi Ha. assert (forall j, m !! j <> Some a) as Hn by (intros j Hj; apply Ha, Hl; by exists j). split.
  - intros b. rewrite elem_of_union, elem_of_singleton, Hl. split.
    + intros [->|(j & Hj)]; [exists i; apply lookup_insert_eq|]. exists j. rewrite lookup_insert_ne; [done|congruence].
    + intros (j & Hj). rewrite lookup_insert in Hj. case_decide; [left; congruence|right; by exists j].
  - intros j k b Hj Hk. rewrite lookup_insert in Hj, Hk.
    repeat case_decide; simplify_eq; first [done|exfalso; by eapply Hn|by eapply Hinj].
Qed.
Lemma owned_delete m l i a : owned m l -> m !! i = Some a -> owned (delete i m) (l ∖ {[a]}).
Proof.
  intros [Hl Hinj] Hi. split.
  - intros b. rewrite elem_of_difference, elem_of_singleton, Hl. split.
    + intros [(j & Hj) Hne]. exists j. rewrite lookup_delete_ne; [done|congruence].
    + intros (j & Hj). rewrite lookup_delete in Hj. case_decide; [done|]. split; [by exists j|].
      intros ->. by rewrite (Hinj i j a Hi Hj) in *.
  - intros j k b Hj Hk. rewrite lookup_delete in Hj, Hk. repeat case_decide; try done. by eapply Hinj.
Qed.

(** What a thread does with its object: ask for it ([new] would return this
    address), or end, when pthreads runs the key's destructor on a slot that
    is not null, after setting it to null. *)
Inductive thread_event := Ask (tid : Z) (a : address) | ThreadEnd (tid : Z).

Module ThreadLocal.

Record t := mk { pkey_ : option (gmap Z address); live : gset address }.
Definition new_ : t := mk (Some ∅) ∅.
(** The key goes; the objects of the threads stay. *)
Definition destroy (s : t) : t := mk None (live s).

Definition destructor (x : address) (s : t) : t := mk (pkey_ s) (live s ∖ {[x]}).

Definition value (tid : Z) (a : address) (s : t) : outcome (address * t) :=
  match pkey_ s with
  | None => Err (Undefined "pthread_getspecific of a deleted key")
  | Some slots =>
      match slots !! tid with
      | Some v => Ok (v, s)
      | None => Ok (a, mk (Some (<[tid := a]> slots)) ({[a]} ∪ live s))
      end
  end.
Definition thread_end (tid : Z) (s : t) : t :=
  match pkey_ s with
  | Some slots => match slots !! tid with
                  | Some v => destructor v (mk (Some (delete tid slots)) (live s))
                  | None => s
                  end
  | None => s
  end.
Definition exec (s : t) (e : thread_event) : outcome t :=
  match e with
  | Ask tid a => '(_, s') ← value tid a s; Ok s'
  | ThreadEnd tid => Ok (thread_end tid s)
  end.

(** [new] returns addresses that are not in use. *)
Fixpoint legal (es : list thread_event) (s : t) : Prop :=
  match es with
  | [] => True
  | e :: es' => match e with Ask _ a => a ∉ live s | _ => True end /\ forall s', exec s e = Ok s' -> legal es' s'
  end.

Lemma slots_run_ok es : forall s m, pkey_ s = Some m -> owned m (live s) -> legal es s ->
  exists s' m', foldM exec s es = Ok s' /\ pkey_ s' = Some m' /\ owned m' (live s').
Proof.
  induction es as [|e es IH]; intros s m Hm Ho Hl; [by exists s, m|]. destruct Hl as [He Hl].
  assert (exists s1 m1, exec s e = Ok s1 /\ pkey_ s1 = Some m1 /\ owned m1 (live s1)) as (s1 & m1 & E & Hm1 & Ho1).
  { destruct e as [i a|i]; cbn [exec]; unfold value, thread_end; rewrite Hm; destruct (m !! i) as [v|] eqn:Hi; cbn [mbind outcome_bind].
    - by exists s, m.
    - eexists _, _. split; [done|]. split; [done|]. by apply owned_insert.
    - eexists _, _. split; [done|]. split; [done|]. by apply owned_delete with (i := i).
    - by exists s, m. }
  cbn [foldM]. rewrite E. cbn [mbind outcome_bind]. by apply (IH s1 m1), Hl.
Qed.

(** Whatever threads do, each has at most one object, its own, which value()
    returns until the thread ends; the live objects are those of threads that
    have not ended, so none is left when all have. *)
Theorem thread_local_objects es : legal es new_ -> exists s m, foldM exec new_ es = Ok s /\ pkey_ s = Some m /\
  (forall a, a ∈ live s <-> exists i, m !! i = Some a) /\
  (forall i j a, m !! i = Some a -> m !! j = Some a -> i = j) /\
  (forall i a, exists v s', value i a s = Ok (v, s') /\ (forall w, m !! i = Some w -> v = w) /\
     forall b, value i b s' = Ok (v, s')).
Proof.
  intros Hl. destruct (slots_run_ok es new_ ∅ eq_refl owned_empty Hl) as (s & m & E & Hm & Ho & Hinj).
  exists s, m. split_and!; try done. intros i a. unfold value. rewrite Hm. destruct (m !! i) as [v|] eqn:Hi.
  - exists v, s. split_and!; [done|congruence|]. intros b. by rewrite Hm, Hi.
  - eexists a, _. split_and!; [done|done|]. intros b. cbn. by rewrite lookup_insert_eq.
Qed.

(** Destroying the ThreadLocal first leaks the objects of the other threads. *)
Example destroyed_key_leaks :
  (s ← foldM exec new_ [Ask 1 16; Ask 2 32; ThreadEnd 1]; s ← foldM exec (destroy s) [ThreadEnd 2]; Ok (live s)) = Ok {[32]}.
Proof. vm_compute. reflexivity. Qed.

End ThreadLocal.
