(* ===== verification/BaseThreadLocalSingleton.v ===== *)
(** src/muduo/base/ThreadLocalSingleton.h: a ThreadLocal for the whole program,
    with the pointer in a [__thread] variable and a key that only deletes. *)

From S2P Require Import Prelude BaseThreadLocal.

Module ThreadLocalSingleton.

(** [t_value_] of each thread, and the slots of the [Deleter]'s key. *)
Record t := mk { t_value_ : gmap Z address; pkey_ : gmap Z address; live : gset address }.
Definition new_ : t := mk ∅ ∅ ∅.

Definition deleter_set (tid : Z) (newObj : address) (s : t) : outcome t :=
  massert (bool_decide (pkey_ s !! tid = None)) "pthread_getspecific(pkey_) == NULL";;
  Ok (mk (t_value_ s) (<[tid := newObj]> (pkey_ s)) (live s)).
Definition instance (tid : Z) (a : address) (s : t) : outcome (address * t) :=
  match t_value_ s !! tid with
  | Some v => Ok (v, s)
  | None => s' ← deleter_set tid a (mk (<[tid := a]> (t_value_ s)) (pkey_ s) ({[a]} ∪ live s)); Ok (a, s')
  end.
Definition pointer (tid : Z) (s : t) : option address := t_value_ s !! tid.
Definition destructor (tid : Z) (obj : address) (s : t) : outcome t :=
  massert (bool_decide (t_value_ s !! tid = Some obj)) "obj == t_value_";;
  Ok (mk (delete tid (t_value_ s)) (pkey_ s) (live s ∖ {[obj]})).
Definition thread_end (tid : Z) (s : t) : outcome t :=
  match pkey_ s !! tid with
  | Some obj => destructor tid obj (mk (t_value_ s) (delete tid (pkey_ s)) (live s))
  | None => Ok s
  end.
Definition exec (s : t) (e : thread_event) : outcome t :=
  match e with
  | Ask tid a => '(_, s') ← instance tid a s; Ok s'
  | ThreadEnd tid => thread_end tid s
  end.
Fixpoint legal (es : list thread_event) (s : t) : Prop :=
  match es with
  | [] => True
  | e :: es' => match e with Ask _ a => a ∉ live s | _ => True end /\ forall s', exec s e = Ok s' -> legal es' s'
  end.

(** It behaves as a ThreadLocal: no assertion fails, and the two stay in
    step. *)
Definition simulates (s : t) (x : ThreadLocal.t) : Prop :=
  t_value_ s = pkey_ s /\ ThreadLocal.pkey_ x = Some (pkey_ s) /\ ThreadLocal.live x = live s.
Lemma exec_simulates s x e : simulates s x -> exists s' x', exec s e = Ok s' /\ ThreadLocal.exec x e = Ok x' /\ simulates s' x'.
Proof.
  intros (Hv & Hk & Hl). destruct s as [m m' l], x as [k l']; cbn in *; subst.
  destruct e as [i a|i]; cbn [exec ThreadLocal.exec]; unfold instance, thread_end, ThreadLocal.value, ThreadLocal.thread_end;
    cbn [t_value_ pkey_ live ThreadLocal.pkey_ ThreadLocal.live]; destruct (m' !! i) as [v|] eqn:Hi.
  - by eexists _, _.
  - unfold deleter_set. cbn [pkey_ t_value_ live]. rewrite bool_decide_eq_true_2 by done. by eexists _, _.
  - unfold destructor. cbn [pkey_ t_value_ live]. rewrite bool_decide_eq_true_2 by done. by eexists _, _.
  - by eexists _, _.
Qed.
Theorem singleton_refines_thread_local es : forall s x, simulates s x ->
  exists s' x', foldM exec s es = Ok s' /\ foldM ThreadLocal.exec x es = Ok x' /\ simulates s' x' /\
    forall i, pointer i s' = (m ← ThreadLocal.pkey_ x'; m !! i).
Proof.
  induction es as [|e es IH]; intros s x H.
  - exists s, x. split_and!; try done. intros i. destruct H as (Hv & -> & _). unfold pointer. by rewrite Hv.
  - destruct (exec_simulates s x e H) as (s1 & x1 & E1 & E2 & H1). destruct (IH s1 x1 H1) as (s2 & x2 & ? & ? & ?).
    exists s2, x2. cbn [foldM]. by rewrite E1, E2.
Qed.

End ThreadLocalSingleton.
