(* ===== verification/NetSocket.v ===== *)
(** src/muduo/net/Socket.{h,cc} and the calls of SocketsOps.cc it is made of:
    a descriptor that is closed with its owner.  The kernel keeps, for each
    open socket, what these calls set; an errno that a call fails with is an
    argument, and a call on a descriptor that is not open fails with EBADF. *)

From S2P Require Import Prelude.

Module Socket.

Definition EBADF : Z := 9.

Record sock := mksock {
  nonblock : bool;
  cloexec : bool;
  bound : option bytes;
  listening : bool;
  shut_wr : bool;
  nodelay : bool;
  reuseaddr : bool;
  reuseport : bool;
  keepalive : bool
}.
Definition fresh_sock : sock := mksock true true None false false false false false false.
Definition with_bound a k := mksock (nonblock k) (cloexec k) (Some a) (listening k) (shut_wr k) (nodelay k) (reuseaddr k) (reuseport k) (keepalive k).
Definition with_listening k := mksock (nonblock k) (cloexec k) (bound k) true (shut_wr k) (nodelay k) (reuseaddr k) (reuseport k) (keepalive k).
Definition with_shut k := mksock (nonblock k) (cloexec k) (bound k) (listening k) true (nodelay k) (reuseaddr k) (reuseport k) (keepalive k).
Definition with_nodelay b k := mksock (nonblock k) (cloexec k) (bound k) (listening k) (shut_wr k) b (reuseaddr k) (reuseport k) (keepalive k).
Definition with_reuseaddr b k := mksock (nonblock k) (cloexec k) (bound k) (listening k) (shut_wr k) (nodelay k) b (reuseport k) (keepalive k).
Definition with_reuseport b k := mksock (nonblock k) (cloexec k) (bound k) (listening k) (shut_wr k) (nodelay k) (reuseaddr k) b (keepalive k).
Definition with_keepalive b k := mksock (nonblock k) (cloexec k) (bound k) (listening k) (shut_wr k) (nodelay k) (reuseaddr k) (reuseport k) b.

(** The kernel's sockets, and the error lines logged. *)
Record world := mkworld { socks : gmap Z sock; logged : list string }.
Definition log_error (what : string) (w : world) : world := mkworld (socks w) (logged w ++ [what]).

(** A system call that changes a socket: its result and the world. *)
Definition syscall (fd : Z) (f : sock -> sock) (err : option Z) (w : world) : Z * world :=
  match socks w !! fd, err with
  | None, _ | _, Some _ => (-1, w)
  | Some k, None => (0, mkworld (<[fd := f k]> (socks w)) (logged w))
  end.

(** * sockets:: *)

(** [answer]: the descriptor socket(2) gave, or an errno. *)
Definition createNonblockingOrDie (answer : Z + Z) (w : world) : outcome (Z * world) :=
  match answer with
  | inl fd => Ok (fd, mkworld (<[fd := fresh_sock]> (socks w)) (logged w))
  | inr _ => Err (LogFatal "sockets::createNonblockingOrDie")
  end.
Definition bindOrDie (fd : Z) (addr : bytes) (err : option Z) (w : world) : outcome world :=
  let '(ret, w) := syscall fd (with_bound addr) err w in
  if ret <? 0 then Err (LogFatal "sockets::bindOrDie") else Ok w.
Definition listenOrDie (fd : Z) (err : option Z) (w : world) : outcome world :=
  let '(ret, w) := syscall fd with_listening err w in
  if ret <? 0 then Err (LogFatal "sockets::listenOrDie") else Ok w.
Definition close (fd : Z) (w : world) : world :=
  match socks w !! fd with
  | Some _ => mkworld (delete fd (socks w)) (logged w)
  | None => log_error "sockets::close" w
  end.
Definition sockets_shutdownWrite (fd : Z) (err : option Z) (w : world) : world :=
  let '(ret, w) := syscall fd with_shut err w in
  if ret <? 0 then log_error "sockets::shutdownWrite" w else w.
(** [optval]: SO_ERROR of the socket. *)
Definition getSocketError (fd : Z) (optval : Z) (err : option Z) (w : world) : Z :=
  match socks w !! fd, err with
  | None, _ => EBADF
  | Some _, Some errno => errno
  | Some _, None => optval
  end.

(** * Socket *)

Definition t := Z.
Definition destroy (s : t) (w : world) : world := close s w.
Definition bindAddress (s : t) (addr : bytes) (err : option Z) (w : world) : outcome world := bindOrDie s addr err w.
Definition listen (s : t) (err : option Z) (w : world) : outcome world := listenOrDie s err w.
Definition shutdownWrite (s : t) (err : option Z) (w : world) : world := sockets_shutdownWrite s err w.
(** The results of these are not looked at. *)
Definition setTcpNoDelay (on : bool) (s : t) (err : option Z) (w : world) : world := (syscall s (with_nodelay on) err w).2.
Definition setReuseAddr (on : bool) (s : t) (err : option Z) (w : world) : world := (syscall s (with_reuseaddr on) err w).2.
Definition setKeepAlive (on : bool) (s : t) (err : option Z) (w : world) : world := (syscall s (with_keepalive on) err w).2.
Definition setReusePort (SO_REUSEPORT : bool) (on : bool) (s : t) (err : option Z) (w : world) : world :=
  if SO_REUSEPORT then
    let '(ret, w) := syscall s (with_reuseport on) err w in
    if (ret <? 0) && on then log_error "SO_REUSEPORT failed." w else w
  else if on then log_error "SO_REUSEPORT is not supported." w else w.

(** [struct tcp_info], the fields that are printed, unsigned 8 or 32 bits. *)
Record tcp_info := mkinfo {
  tcpi_retransmits : Z; tcpi_rto : Z; tcpi_ato : Z; tcpi_snd_mss : Z; tcpi_rcv_mss : Z; tcpi_lost : Z; tcpi_retrans : Z;
  tcpi_rtt : Z; tcpi_rttvar : Z; tcpi_snd_ssthresh : Z; tcpi_snd_cwnd : Z; tcpi_total_retrans : Z }.
Definition tcp_fields (i : tcp_info) : list (string * Z) :=
  [("unrecovered=", tcpi_retransmits i); ("rto=", tcpi_rto i); ("ato=", tcpi_ato i); ("snd_mss=", tcpi_snd_mss i);
   ("rcv_mss=", tcpi_rcv_mss i); ("lost=", tcpi_lost i); ("retrans=", tcpi_retrans i); ("rtt=", tcpi_rtt i);
   ("rttvar=", tcpi_rttvar i); ("sshthresh=", tcpi_snd_ssthresh i); ("cwnd=", tcpi_snd_cwnd i);
   ("total_retrans=", tcpi_total_retrans i)]%string.
Fixpoint fmt_fields (l : list (string * Z)) : bytes :=
  match l with
  | [] => []
  | [(k, v)] => lit k ++ fmt_d v
  | (k, v) :: l' => lit k ++ fmt_d v ++ lit " " ++ fmt_fields l'
  end.
(** [getsockopt]: what the kernel says of the socket, if it does; the text
    written to the [len] bytes of [buf]. *)
Definition getTcpInfo (getsockopt : option tcp_info) : option tcp_info := getsockopt.
Definition getTcpInfoString (len : Z) (getsockopt : option tcp_info) : option bytes :=
  i ← getTcpInfo getsockopt; Some (snprintf len (fmt_fields (tcp_fields i))).
(** [TcpConnection::getTcpInfoString]. *)
Definition connection_getTcpInfoString (getsockopt : option tcp_info) : bytes :=
  default [] (getTcpInfoString 1024 getsockopt).

(** * The socket of an Acceptor *)

(** The constructor of Acceptor and [listen()], as far as its socket goes. *)
Definition acceptor_socket (SO_REUSEPORT reuseport : bool) (answer : Z + Z) (addr : bytes) (err_addr err_port err_bind err_listen : option Z)
    (w : world) : outcome (t * world) :=
  '(s, w) ← createNonblockingOrDie answer w;
  let w := setReuseAddr true s err_addr w in
  let w := setReusePort SO_REUSEPORT reuseport s err_port w in
  w ← bindAddress s addr err_bind w;
  w ← listen s err_listen w;
  Ok (s, w).

Lemma syscall_open fd f w k : socks w !! fd = Some k ->
  syscall fd f None w = (0, mkworld (<[fd := f k]> (socks w)) (logged w)) /\ forall e, syscall fd f (Some e) w = (-1, w).
Proof. intros E. unfold syscall. by rewrite E. Qed.

(** It dies exactly when socket, bind or listen fails; else the socket is
    non-blocking, closed on exec, bound to the address and listening, with
    each option that the kernel accepted, and a failure to share the port is
    logged.  Destroying it restores the other descriptors. *)
Theorem acceptor_socket_listens SRP reuseport answer addr ea ep eb el w :
  (forall fd, answer = inl fd -> socks w !! fd = None) ->
  match acceptor_socket SRP reuseport answer addr ea ep eb el w with
  | Err f => (exists what, f = LogFatal what) /\ ((exists e, answer = inr e) \/ eb <> None \/ el <> None)
  | Ok (s, w') => answer = inl s /\ eb = None /\ el = None /\ socks (destroy s w') = socks w /\
      socks w' !! s = Some (mksock true true (Some addr) true false false (bool_decide (ea = None))
        (SRP && reuseport && bool_decide (ep = None)) false) /\
      logged w' = logged w ++ (if reuseport then (if SRP then (if bool_decide (ep = None) then [] else ["SO_REUSEPORT failed."])
                                                  else ["SO_REUSEPORT is not supported."]) else [])%string
  end.
Proof.
  intros Hnew. unfold acceptor_socket, createNonblockingOrDie. destruct answer as [fd|e]; cbn [mbind outcome_bind]; [|split; eauto].
  specialize (Hnew fd eq_refl). destruct w as [m l]; cbn [socks logged] in *.
  unfold setReuseAddr, setReusePort, bindAddress, bindOrDie, listen, listenOrDie, destroy, close, syscall.
  destruct ea, SRP, ep, reuseport, eb, el; cbn [socks logged mbind outcome_bind];
    do 6 (rewrite ?lookup_insert_eq, ?insert_insert_eq; cbn);
    try (split; [by eexists|right; first [by left|by right]]);
    rewrite ?app_nil_r; split_and!; try done; by apply delete_insert_id.
Qed.

(** ** getTcpInfoString *)

Definition u32_fields (i : tcp_info) : Prop := Forall (fun f => 0 <= f.2 < 2 ^ 32) (tcp_fields i).

Lemma fmt_fields_length l : Forall (fun f => 0 <= f.2 < 2 ^ 32) l ->
  zlen (fmt_fields l) <= fold_right (fun f n => zlen (lit f.1) + 11 + n) 0 l.
Proof.
  induction l as [|[k v] l IH]; intros Hl; [done|]. apply Forall_cons in Hl as [Hv Hl]. cbn in Hv.
  pose proof (fmt_d_length 10 v ltac:(lia) ltac:(lia)) as Hd. specialize (IH Hl). cbn [fmt_fields fold_right fst].
  destruct l as [|f l']; rewrite ?zlen_app.
  - cbn. lia.
  - change (zlen (lit " ")) with 1. lia.
Qed.

(** The text that TcpConnection gives for its socket is never cut: every value
    of every field fits into the 1024 bytes. *)
Theorem tcp_info_string_whole i : u32_fields i ->
  connection_getTcpInfoString (Some i) = fmt_fields (tcp_fields i) /\ connection_getTcpInfoString None = [].
Proof.
  intros Hi. split; [|done]. unfold connection_getTcpInfoString, getTcpInfoString, getTcpInfo. cbn [mbind option_bind default from_option id].
  pose proof (fmt_fields_length _ Hi) as Hl. change (fold_right _ _ _) with 221 in Hl. unfold snprintf. apply ztake_all. lia.
Qed.
Example tcp_info_text :
  connection_getTcpInfoString (Some (mkinfo 0 204000 40000 1448 536 0 0 156 32 2147483647 10 0)) =
  lit "unrecovered=0 rto=204000 ato=40000 snd_mss=1448 rcv_mss=536 lost=0 retrans=0 rtt=156 rttvar=32 sshthresh=2147483647 cwnd=10 total_retrans=0".
Proof. vm_compute. reflexivity. Qed.

End Socket.
