(* ===== verification/NetTcpObject.v ===== *)
(** src/muduo/net/TcpConnection.h and TcpConnection.cc: the object around the
    state machine of NetTcpConnection - its socket, name, addresses, context
    slot and the callbacks its owner sets and replaces.

    A step of the state machine runs with the callbacks in force; the setters
    come between steps.  The context is any value; the connection only keeps it.
    The file proves that replacing callbacks never breaks the state machine, that
    the context is what its owner put there, and that the socket lives as long
    as the object. *)

From S2P Require Import Prelude BaseTimestamp NetBuffer NetChannel NetPoller NetSocket NetTcpConnection.

Module TcpObject.
Import TcpConnection.

Section Object.
(** [InetAddress], and what a [boost::any] may hold. *)
Context {ADDR ANY : Type}.

Record t := mk {
  conn : TcpConnection.t;
  socket_ : Socket.t;
  loop_ : Z;
  name_ : bytes;
  localAddr_ : ADDR;
  peerAddr_ : ADDR;
  context_ : option ANY;
  callbacks_ : callbacks
}.
Definition set_conn c o := mk c (socket_ o) (loop_ o) (name_ o) (localAddr_ o) (peerAddr_ o) (context_ o) (callbacks_ o).
Definition set_callbacks cb o := mk (conn o) (socket_ o) (loop_ o) (name_ o) (localAddr_ o) (peerAddr_ o) (context_ o) cb.

(** The constructor: the callbacks are still unset, which [no_callbacks] stands
    for, and the socket's keep-alive option is set ([err]: the errno it fails
    with). *)
Definition no_callbacks : callbacks :=
  {| on_connection _ := []; on_message _ _ := []; on_writeComplete _ := []; on_highWaterMark _ _ := [] |}.
Definition new_ (loop : Z) (nameArg : bytes) (sockfd : Z) (localAddr peerAddr : ADDR) (err : option Z) (w : Socket.world)
    : outcome (t * Socket.world) :=
  (if loop =? 0 then Err (LogFatal "'loop' Must be non NULL") else Ok tt);;
  c ← TcpConnection.new_ sockfd;
  Ok (mk c sockfd loop nameArg localAddr peerAddr None no_callbacks, Socket.setKeepAlive true sockfd err w).
Definition destroy (o : t) (w : Socket.world) : outcome Socket.world :=
  massert (disconnected (conn o)) "state_ == kDisconnected";;
  Ok (Socket.destroy (socket_ o) w).

Definition getLoop (o : t) : Z := loop_ o.
Definition name (o : t) : bytes := name_ o.
Definition localAddress (o : t) : ADDR := localAddr_ o.
Definition peerAddress (o : t) : ADDR := peerAddr_ o.
Definition isReading (o : t) : bool := reading_ (conn o).
Definition setContext (context : option ANY) (o : t) : t :=
  mk (conn o) (socket_ o) (loop_ o) (name_ o) (localAddr_ o) (peerAddr_ o) context (callbacks_ o).
Definition getContext (o : t) : option ANY := context_ o.

Definition setConnectionCallback (f : TcpConnection.t -> list call) (o : t) : t :=
  let cb := callbacks_ o in
  set_callbacks {| on_connection := f; on_message := on_message cb; on_writeComplete := on_writeComplete cb;
                   on_highWaterMark := on_highWaterMark cb |} o.
Definition setMessageCallback (f : Timestamp.t -> TcpConnection.t -> list call) (o : t) : t :=
  let cb := callbacks_ o in
  set_callbacks {| on_connection := on_connection cb; on_message := f; on_writeComplete := on_writeComplete cb;
                   on_highWaterMark := on_highWaterMark cb |} o.
(** [None] is an empty function: the connection tests it before it queues a
    call. *)
Definition setWriteCompleteCallback (f : option (TcpConnection.t -> list call)) (o : t) : t :=
  let cb := callbacks_ o in
  set_conn (TcpConnection.setWriteCompleteCallback (bool_decide (is_Some f)) (conn o))
    (set_callbacks {| on_connection := on_connection cb; on_message := on_message cb;
                      on_writeComplete := default (fun _ => []) f; on_highWaterMark := on_highWaterMark cb |} o).
Definition setHighWaterMarkCallback (f : option (Z -> TcpConnection.t -> list call)) (highWaterMark : Z) (o : t) : t :=
  let cb := callbacks_ o in
  set_conn (TcpConnection.setHighWaterMarkCallback (bool_decide (is_Some f)) highWaterMark (conn o))
    (set_callbacks {| on_connection := on_connection cb; on_message := on_message cb;
                      on_writeComplete := on_writeComplete cb; on_highWaterMark := default (fun _ _ => []) f |} o).

Definition setTcpNoDelay (on : bool) (err : option Z) (o : t) (w : Socket.world) : Socket.world :=
  Socket.setTcpNoDelay on (socket_ o) err w.
Definition getTcpInfo (getsockopt : option Socket.tcp_info) : option Socket.tcp_info := Socket.getTcpInfo getsockopt.

(** * The owner's operations and the loop's steps *)

Inductive op :=
| Step (st : TcpConnection.step)
| SetContext (context : option ANY)
| SetConnectionCallback (f : TcpConnection.t -> list call)
| SetMessageCallback (f : Timestamp.t -> TcpConnection.t -> list call)
| SetWriteCompleteCallback (f : option (TcpConnection.t -> list call))
| SetHighWaterMarkCallback (f : option (Z -> TcpConnection.t -> list call)) (highWaterMark : Z)
| SetTcpNoDelay (on : bool) (err : option Z).

Definition exec (ow : t * Socket.world) (x : op) : outcome (t * Socket.world) :=
  let '(o, w) := ow in
  match x with
  | Step st => c ← TcpConnection.exec (callbacks_ o) (conn o) st; Ok (set_conn c o, w)
  | SetContext a => Ok (setContext a o, w)
  | SetConnectionCallback f => Ok (setConnectionCallback f o, w)
  | SetMessageCallback f => Ok (setMessageCallback f o, w)
  | SetWriteCompleteCallback f => Ok (setWriteCompleteCallback f o, w)
  | SetHighWaterMarkCallback f n => Ok (setHighWaterMarkCallback f n o, w)
  | SetTcpNoDelay on err => Ok (o, setTcpNoDelay on err o w)
  end.
Definition run (ow : t * Socket.world) (xs : list op) : outcome (t * Socket.world) := foldM exec ow xs.

(** Callbacks that make legal calls, and legal steps. *)
Definition legal_fun (f : TcpConnection.t -> list call) : Prop :=
  forall s, inv s -> phase_of s <> Opening -> calls_legal (f s) s.
Definition op_legal (x : op) (o : t) : Prop :=
  match x with
  | Step st => step_legal st (conn o)
  | SetConnectionCallback f => legal_fun f
  | SetMessageCallback f => forall time, legal_fun (f time)
  | SetWriteCompleteCallback f => legal_fun (default (fun _ => []) f)
  | SetHighWaterMarkCallback f _ => forall n, legal_fun (default (fun _ _ => []) f n)
  | _ => True
  end.
Fixpoint ops_legal (xs : list op) (ow : t * Socket.world) : Prop :=
  match xs with
  | [] => True
  | x :: xs' => op_legal x ow.1 /\ forall ow', exec ow x = Ok ow' -> ops_legal xs' ow'
  end.

(** The last context set. *)
Definition last_context (c : option ANY) (xs : list op) : option ANY :=
  foldl (fun c x => match x with SetContext c => c | _ => c end) c xs.

Record obj_inv (fd : Z) (o : t) (w : Socket.world) : Prop := {
  obj_conn : inv (conn o);
  obj_callbacks : callbacks_legal (callbacks_ o);
  obj_socket : socket_ o = fd /\ is_Some (Socket.socks w !! fd)
}.

Lemma inv_setters s b c m : inv s -> inv (TcpConnection.setWriteCompleteCallback b s) /\
  inv (TcpConnection.setHighWaterMarkCallback c m s).
Proof. intros []. by split; split. Qed.

Lemma socks_syscall fd f err w fd' : is_Some (Socket.socks w !! fd') -> is_Some (Socket.socks (Socket.syscall fd f err w).2 !! fd').
Proof.
  intros Hs. unfold Socket.syscall. destruct (Socket.socks w !! fd) as [k|] eqn:E; [|done]. destruct err; [done|]. cbn.
  destruct (decide (fd = fd')) as [->|]; [by rewrite lookup_insert_eq; eexists|by rewrite lookup_insert_ne].
Qed.

Lemma socks_syscall_ne fd g err w f : f <> fd -> Socket.socks (Socket.syscall fd g err w).2 !! f = Socket.socks w !! f.
Proof.
  intros Hf. unfold Socket.syscall. destruct (Socket.socks w !! fd) as [k|]; [destruct err; [done|]|by destruct err].
  cbn. by rewrite lookup_insert_ne.
Qed.

Lemma obj_exec_ok fd o w x : obj_inv fd o w -> op_legal x o ->
  ok_or_throw (exec (o, w) x) (fun '(o', w') => obj_inv fd o' w' /\ (forall f, f <> fd -> Socket.socks w' !! f = Socket.socks w !! f) /\
    context_ o' = match x with SetContext c => c | _ => context_ o end).
Proof.
  intros [Hi Hcb [Hfd Hs]] Hl.
  destruct x as [st|c|f|f|f|f n|on err]; cbn [exec op_legal] in *.
  - pose proof (conn_exec_ok (callbacks_ o) Hcb st (conn o) Hi Hl) as Hok.
    destruct (TcpConnection.exec _ _ st) as [c|[]]; cbn in *; try done.
  - cbn. split; [split|]; done.
  - cbn. split; [|done]. split; [done| |done]. intros s Hs' Hp. destruct (Hcb s Hs' Hp) as (_ & ? & ? & ?). split_and!; auto.
  - cbn. split; [|done]. split; [done| |done]. intros s Hs' Hp. destruct (Hcb s Hs' Hp) as (? & _ & ? & ?). split_and!; auto.
    intros time. by apply Hl.
  - cbn. split; [|done]. split; [by apply (inv_setters _ _ true 0)| |done]. intros s Hs' Hp.
    destruct (Hcb s Hs' Hp) as (? & ? & _ & ?). split_and!; auto. by apply Hl.
  - cbn. split; [|done]. split; [by apply (inv_setters _ true)| |done]. intros s Hs' Hp.
    destruct (Hcb s Hs' Hp) as (? & ? & ? & _). split_and!; auto. intros k. by apply Hl.
  - cbn. split; [|split; [|done]].
    + split; [done|done|]. split; [done|]. by apply socks_syscall.
    + intros f Hf. apply socks_syscall_ne. congruence.
Qed.

(** The owner may set and replace callbacks, context and options at any
    time: the connection's invariant holds throughout, the context is the last
    one set, no other socket is touched; and when the connection is down, the
    destructor's assertion holds and it closes exactly the connection's socket. *)
Theorem tcp_object_owns_its_socket loop nm fd la pa err w xs :
  loop <> 0 -> is_Some (Socket.socks w !! fd) ->
  exists ow, new_ loop nm fd la pa err w = Ok ow /\ (ops_legal xs ow ->
  ok_or_throw (run ow xs) (fun '(o, w') =>
    inv (conn o) /\ getContext o = last_context None xs /\ is_Some (Socket.socks w' !! fd) /\
    (forall f, f <> fd -> Socket.socks w' !! f = Socket.socks w !! f) /\
    (phase_of (conn o) = Dead -> exists w'', destroy o w' = Ok w'' /\ Socket.socks w'' = delete fd (Socket.socks w')))).
Proof.
  intros Hloop Hs. unfold new_. apply Z.eqb_neq in Hloop as ->. destruct (new_inv fd) as (s & -> & Hi & _). cbn [mbind outcome_bind].
  eexists. split; [done|]. set (o := mk s _ _ _ _ _ None _). set (w0 := Socket.setKeepAlive true fd err w).
  assert (obj_inv fd o w0) as Ho.
  { split; [done|by intros ? ? ?|]. split; [done|]. by apply socks_syscall. }
  assert (forall f, f <> fd -> Socket.socks w0 !! f = Socket.socks w !! f) as Hw.
  { intros f Hf. by apply socks_syscall_ne. }
  assert (context_ o = None) as Hc by done. revert Hc. generalize (@None ANY) as c0. clearbody o w0. clear Hi.
  revert o w0 Ho Hw. induction xs as [|x xs IH]; intros o w0 Ho Hw c0 Hc Hl; unfold run; cbn [foldM].
  - cbn. destruct Ho as [Hi Hcb [Hfd Hsk]]. split; [exact Hi|]. split; [exact Hc|]. split; [exact Hsk|]. split; [exact Hw|].
    intros Hd. unfold destroy, disconnected.
    rewrite bool_decide_eq_true_2 by (unfold phase_of in Hd; by destruct (state_ (conn o))). cbn. eexists. split; [done|].
    rewrite Hfd. unfold Socket.destroy, Socket.close. by destruct Hsk as (k & ->).
  - destruct Hl as (Hx & Hl). pose proof (obj_exec_ok fd o w0 x Ho Hx) as Hok.
    destruct (exec (o, w0) x) as [[o' w']|[]] eqn:E; cbn [ok_or_throw mbind outcome_bind] in *; try done.
    destruct Hok as (Ho' & Hw' & Hc').
    assert (forall f, f <> fd -> Socket.socks w' !! f = Socket.socks w !! f) as Hw2.
    { intros f Hf. rewrite Hw' by done. by apply Hw. }
    apply (IH o' w' Ho' Hw2); [|by apply Hl]. rewrite Hc', Hc. by destruct x.
Qed.

End Object.

(** The object of the echo server's connection, shut down by its peer. *)
Lemma tcp_object_owns_its_socket_witness :
  exists ow, new_ (ANY := Z) 1 (lit "c") 7 tt tt None (Socket.mkworld {[7 := Socket.fresh_sock]} []) = Ok ow /\
  match run ow [SetMessageCallback (on_message witness_cb); Step (Establish 1); SetContext (Some 42); SetTcpNoDelay true None;
                Step (Event Channel.POLLHUP 0 witness_rd witness_wr)] with
  | Ok (o, w) => getContext o = Some 42 /\ exists w'', destroy o w = Ok w'' /\ Socket.socks w'' !! 7 = None
  | Err _ => False
  end.
Proof.
  destruct (tcp_object_owns_its_socket (ANY := Z) 1 (lit "c") 7 tt tt None (Socket.mkworld {[7 := Socket.fresh_sock]} [])
    [SetMessageCallback (on_message witness_cb); Step (Establish 1); SetContext (Some 42); SetTcpNoDelay true None;
     Step (Event Channel.POLLHUP 0 witness_rd witness_wr)]) as (ow & E & Hw); [done|by eexists|].
  exists ow. split; [exact E|]. vm_compute in E. injection E as <-.
  match type of Hw with ?A -> _ => assert A as Hl end.
  { split; [intros time s Hi Hp; by apply witness_cb_legal|]. intros ow E. vm_compute in E. injection E as <-.
    split; [reflexivity|]. intros ow E. vm_compute in E. injection E as <-.
    split; [done|]. intros ow E. vm_compute in E. injection E as <-.
    split; [done|]. intros ow E. vm_compute in E. injection E as <-.
    split; [|done]. split; [reflexivity|]. split; [intros _; reflexivity|]. split; [apply witness_rd_ok|apply witness_wr_ok]. }
  specialize (Hw Hl). clear Hl.
  destruct (run _ _) as [[o w]|] eqn:E; [|vm_compute in E; discriminate E].
  destruct Hw as (_ & Hc & _ & _ & Hd). split; [exact Hc|].
  destruct Hd as (w'' & Ed & Es); [vm_compute in E; injection E as <- <-; reflexivity|].
  exists w''. split; [exact Ed|]. rewrite Es. by rewrite lookup_delete_eq.
Defined.

End TcpObject.
