(* ===== verification/UnitTests.v ===== *)
(** The repository's own unit tests, replayed on the model: the checks of
    net/http/tests/HttpRequest_unittest.cc, net/tests/Buffer_unittest.cc,
    net/tests/InetAddress_unittest.cc, base/tests/LogStream_test.cc,
    base/tests/TimeZone_unittest.cc, base/tests/Atomic_unittest.cc and
    net/protorpc/RpcCodec_test.cc evaluate to what the tests expect.

    A test is a program of [outcome]s; [BOOST_CHECK] fails it.  The tests of
    doubles, of the network and of zone files of the system depend on code
    outside the repository; the zones here have the transitions that the expected
    times imply, and inet_ntop is the plain one of NetInetAddress (which does not
    shorten IPv6 addresses). *)

From S2P Require Import Prelude BaseTimestamp Endian BaseStringPiece NetBuffer NetHttpRequest NetHttpContext NetProtobufCodec.
From S2P Require Import BaseLogStream BaseFormat BaseDate BaseThread BaseTimeZone NetInetAddress.

Module UnitTests.

Definition BOOST_CHECK (b : bool) : outcome unit := massert b "BOOST_CHECK".
Definition BOOST_CHECK_EQUAL `{EqDecision A} (x y : A) : outcome unit := BOOST_CHECK (bool_decide (x = y)).
Definition passed (m : outcome unit) : bool := is_ok m.

(** * net/tests/Buffer_unittest.cc *)

Section BufferTests.
Import Buffer.
#[local] Instance little : HostOrder := true.

Definition string_of (n : nat) (c : Z) : bytes := replicate n c.
Definition x_ : Z := 120.
Definition y_ : Z := 121.
Definition z_ : Z := 122.
(** The three sizes that every test looks at. *)
Definition sizes (b : t) (readable writable prependable : Z) : outcome unit :=
  BOOST_CHECK_EQUAL (readableBytes b) readable;; BOOST_CHECK_EQUAL (writableBytes b) writable;;
  BOOST_CHECK_EQUAL (prependableBytes b) prependable.

Definition testBufferAppendRetrieve : outcome unit :=
  buf ← new_ kInitialSize;
  sizes buf 0 kInitialSize kCheapPrepend;;
  buf ← append_string (string_of 200 x_) buf;
  sizes buf 200 (kInitialSize - 200) kCheapPrepend;;
  '(str2, buf) ← retrieveAsString 50 buf;
  sizes buf 150 (kInitialSize - 200) (kCheapPrepend + 50);;
  BOOST_CHECK_EQUAL str2 (string_of 50 x_);;
  buf ← append_string (string_of 200 x_) buf;
  sizes buf 350 (kInitialSize - 400) (kCheapPrepend + 50);;
  '(str3, buf) ← retrieveAllAsString buf;
  sizes buf 0 kInitialSize kCheapPrepend;;
  BOOST_CHECK_EQUAL str3 (string_of 350 x_).

Definition testBufferGrow : outcome unit :=
  buf ← new_ kInitialSize;
  buf ← append_string (string_of 400 y_) buf;
  sizes buf 400 (kInitialSize - 400) kCheapPrepend;;
  buf ← retrieve 50 buf;
  sizes buf 350 (kInitialSize - 400) (kCheapPrepend + 50);;
  buf ← append_string (string_of 1000 z_) buf;
  sizes buf 1350 0 (kCheapPrepend + 50);;
  sizes (retrieveAll buf) 0 1400 kCheapPrepend.

Definition testBufferInsideGrow : outcome unit :=
  buf ← new_ kInitialSize;
  buf ← append_string (string_of 800 y_) buf;
  sizes buf 800 (kInitialSize - 800) kCheapPrepend;;
  buf ← retrieve 500 buf;
  sizes buf 300 (kInitialSize - 800) (kCheapPrepend + 500);;
  buf ← append_string (string_of 300 z_) buf;
  sizes buf 600 (kInitialSize - 600) kCheapPrepend.

Definition testBufferShrink : outcome unit :=
  buf ← new_ kInitialSize;
  buf ← append_string (string_of 2000 y_) buf;
  sizes buf 2000 0 kCheapPrepend;;
  buf ← retrieve 1500 buf;
  sizes buf 500 0 (kCheapPrepend + 1500);;
  buf ← shrink 0 buf;
  sizes buf 500 (kInitialSize - 500) kCheapPrepend;;
  '(str, buf) ← retrieveAllAsString buf;
  BOOST_CHECK_EQUAL str (string_of 500 y_);;
  BOOST_CHECK_EQUAL (prependableBytes buf) kCheapPrepend.

Definition testBufferPrepend : outcome unit :=
  buf ← new_ kInitialSize;
  buf ← append_string (string_of 200 y_) buf;
  sizes buf 200 (kInitialSize - 200) kCheapPrepend;;
  buf ← prepend (store 4 0) 4 buf;
  sizes buf 204 (kInitialSize - 200) (kCheapPrepend - 4).

Definition testBufferReadInt : outcome unit :=
  let H := 72 in let T := 84 in let P := 80 in
  buf ← new_ kInitialSize;
  buf ← append_string (lit "HTTP") buf;
  BOOST_CHECK_EQUAL (readableBytes buf) 4;;
  i8 ← peekInt8 buf; BOOST_CHECK_EQUAL i8 H;;
  top16 ← peekInt16 buf; BOOST_CHECK_EQUAL top16 (H * 256 + T);;
  i32 ← peekInt32 buf; BOOST_CHECK_EQUAL i32 (top16 * 65536 + T * 256 + P);;
  '(x, buf) ← readInt8 buf; BOOST_CHECK_EQUAL x H;;
  '(x, buf) ← readInt16 buf; BOOST_CHECK_EQUAL x (T * 256 + T);;
  '(x, buf) ← readInt8 buf; BOOST_CHECK_EQUAL x P;;
  BOOST_CHECK_EQUAL (readableBytes buf) 0;;
  BOOST_CHECK_EQUAL (writableBytes buf) kInitialSize;;
  buf ← appendInt8 (-1) buf;
  buf ← appendInt16 (-2) buf;
  buf ← appendInt32 (-3) buf;
  BOOST_CHECK_EQUAL (readableBytes buf) 7;;
  '(x, buf) ← readInt8 buf; BOOST_CHECK_EQUAL x (-1);;
  '(x, buf) ← readInt16 buf; BOOST_CHECK_EQUAL x (-2);;
  '(x, buf) ← readInt32 buf; BOOST_CHECK_EQUAL x (-3).

(** 1000 bytes here, 100000 in the test. *)
Definition testBufferFindEOL : outcome unit :=
  buf ← new_ kInitialSize;
  buf ← append_string (string_of 1000 x_) buf;
  BOOST_CHECK_EQUAL (findEOL buf) None;;
  eol ← findEOL_from buf (peek buf + 900);
  BOOST_CHECK_EQUAL eol None.
End BufferTests.

Example Buffer_unittest :
  passed <$> [testBufferAppendRetrieve; testBufferGrow; testBufferInsideGrow; testBufferShrink; testBufferPrepend;
              testBufferReadInt; testBufferFindEOL] = replicate 7 true.
Proof. vm_compute. reflexivity. Qed.

(** * net/http/tests/HttpRequest_unittest.cc *)

Definition crlf (l : list string) : bytes := l ≫= fun s => lit s ++ Buffer.kCRLF.
Definition now : Timestamp.t := 0.

(** [parseRequest], which returns true. *)
Definition parse (input : Buffer.t) (context : HttpContext.t) : outcome (Buffer.t * HttpContext.t) :=
  r ← HttpContext.parseRequest 1000 input now context;
  match r with
  | Some (ok, input, context) => BOOST_CHECK ok;; Ok (input, context)
  | None => Err (AssertFail "fuel")
  end.
Definition check_request (context : HttpContext.t) (headers : list (string * string)) : outcome unit :=
  let request := HttpContext.request_ context in
  BOOST_CHECK (HttpContext.gotAll context);;
  BOOST_CHECK_EQUAL (HttpRequest.method_ request) HttpRequest.kGet;;
  BOOST_CHECK_EQUAL (HttpRequest.path_ request) (lit "/index.html");;
  BOOST_CHECK_EQUAL (HttpRequest.version_ request) HttpRequest.kHttp11;;
  BOOST_CHECK_EQUAL ((fun h => HttpRequest.getHeader (lit h.1) request) <$> headers) ((fun h => lit h.2) <$> headers).

Definition all : bytes := crlf ["GET /index.html HTTP/1.1"; "Host: www.chenshuo.com"; ""]%string.
Definition testParseRequestAllInOne : outcome unit :=
  input ← Buffer.new_ 1024;
  input ← Buffer.append_string all input;
  '(_, context) ← parse input HttpContext.new_;
  check_request context [("Host", "www.chenshuo.com"); ("User-Agent", "")]%string.
Definition testParseRequestInTwoPieces (sz1 : Z) : outcome unit :=
  input ← Buffer.new_ 1024;
  input ← Buffer.append_string (ztake sz1 all) input;
  '(input, context) ← parse input HttpContext.new_;
  BOOST_CHECK (negb (HttpContext.gotAll context));;
  input ← Buffer.append_string (zdrop sz1 all) input;
  '(_, context) ← parse input context;
  check_request context [("Host", "www.chenshuo.com"); ("User-Agent", "")]%string.
Definition testParseRequestEmptyHeaderValue : outcome unit :=
  input ← Buffer.new_ 1024;
  input ← Buffer.append_string (crlf ["GET /index.html HTTP/1.1"; "Host: www.chenshuo.com"; "User-Agent:"; "Accept-Encoding: "; ""]%string) input;
  '(_, context) ← parse input HttpContext.new_;
  check_request context [("Host", "www.chenshuo.com"); ("User-Agent", ""); ("Accept-Encoding", "")]%string.

(** The test cuts the request everywhere; here, around the ends of its lines. *)
Example HttpRequest_unittest :
  passed testParseRequestAllInOne = true /\
  forallb (fun n => passed (testParseRequestInTwoPieces n)) [0; 1; 25; 26; 30; zlen all - 3; zlen all - 2; zlen all - 1] = true /\
  passed testParseRequestEmptyHeaderValue = true.
Proof. vm_compute. done. Qed.

(** * base/tests/LogStream_test.cc *)

Section LogStreamTests.
Import LogStream.
Definition os (its : list item) : option bytes :=
  match insert_all (fun _ => []) (mkbuf (replicate 4000 0) 0) its with Ok b => Some (toString b) | Err _ => None end.
(** The length and the room after [more], when [n] lines of ten are there. *)
Definition fill (n : nat) (more : list string) : option (Z * Z) :=
  match insert_all (fun _ => []) (mkbuf (replicate 4000 0) (10 * Z.of_nat n)) ((fun s => ICstr (Some (lit s))) <$> more) with
  | Ok b => Some (length_ b, avail b)
  | Err _ => None
  end.
End LogStreamTests.

Example testLogStreamBooleans :
  os [LogStream.IBool true; LogStream.IChar 10; LogStream.IBool false] = Some (lit "1" ++ [10] ++ lit "0").
Proof. reflexivity. Qed.
Example testLogStreamIntegers :
  os (LogStream.IInteger <$> [1; 0; -1]) = Some (lit "10-1") /\
  os [LogStream.IInteger 0; LogStream.ICstr (Some (lit " ")); LogStream.IInteger 123; LogStream.IChar 120; LogStream.IInteger 0x64]
  = Some (lit "0 123x100").
Proof. split; reflexivity. Qed.
Example testLogStreamIntegerLimits :
  (fun x => os [LogStream.IInteger x]) <$>
    [-2147483647; -2147483648; 2147483647; -32768; 32767; 0; 65535; 4294967295; -9223372036854775808; 9223372036854775807;
     18446744073709551615] =
  (fun s => Some (lit s)) <$>
    ["-2147483647"; "-2147483648"; "2147483647"; "-32768"; "32767"; "0"; "65535"; "4294967295"; "-9223372036854775808";
     "9223372036854775807"; "18446744073709551615"]%string.
Proof. vm_compute. reflexivity. Qed.
Example testLogStreamVoid :
  (fun p => os [LogStream.IPointer p]) <$> [0; 8888] = [Some (lit "0x0"); Some (lit "0x22B8")].
Proof. vm_compute. reflexivity. Qed.
Example testLogStreamStrings :
  os [LogStream.ICstr (Some (lit "Hello ")); LogStream.IString (lit "Shuo Chen")] = Some (lit "Hello Shuo Chen").
Proof. reflexivity. Qed.
(** The ends of the loop of 399 lines, the line that no longer fits and the one
    that just fits. *)
Example testLogStreamLong :
  [fill 0 ["123456789 "%string]; fill 398 ["123456789 "%string]; fill 399 ["abcdefghi "%string];
   fill 399 ["abcdefghi "; "abcdefghi"]%string] =
  Some <$> [(10, 3990); (3990, 10); (3990, 10); (3999, 1)].
Proof. vm_compute. reflexivity. Qed.

Example testFormatSI :
  Format.formatSI <$> [0; 999; 1000; 9990; 9994; 9995; 10000; 10049; 10050; 99900; 99949; 99950; 100499; 100501; 999499;
    999500; 1004999; 1005001; 9223372036854775807] =
  lit <$> ["0"; "999"; "1.00k"; "9.99k"; "9.99k"; "10.0k"; "10.0k"; "10.0k"; "10.1k"; "99.9k"; "99.9k"; "100k"; "100k";
    "101k"; "999k"; "1.00M"; "1.00M"; "1.01M"; "9.22E"]%string.
Proof. vm_compute. reflexivity. Qed.
Example testFormatIEC :
  Format.formatIEC <$> [0; 1023; 1024; 10234; 10235; 10240; 10291; 10292; 102348; 102349; 102912; 102913; 1022976; 1047552;
    1047961; 1048063; 1048064; 1048576; 10480517; 10480518; 9223372036854775807] =
  lit <$> ["0"; "1023"; "1.00Ki"; "9.99Ki"; "10.0Ki"; "10.0Ki"; "10.0Ki"; "10.1Ki"; "99.9Ki"; "100Ki"; "100Ki"; "101Ki";
    "999Ki"; "1023Ki"; "1023Ki"; "1023Ki"; "1.00Mi"; "1.00Mi"; "9.99Mi"; "10.0Mi"; "8.00Ei"]%string.
Proof. vm_compute. reflexivity. Qed.

(** * base/tests/Atomic_unittest.cc, at both widths: values and results *)

Definition atomic_test (w : Z) : list Z * Z :=
  let ops := [Thread.getAndAdd w 1; Thread.get; Thread.addAndGet w 2; Thread.incrementAndGet w; fun v => (Thread.increment w v, v);
              Thread.get; Thread.addAndGet w (-3); Thread.getAndSet 100; Thread.get] in
  foldl (fun '(out, v) op => let '(v, r) := op v in (out ++ [r], v)) ([], 0) ops.
Example Atomic_unittest : (atomic_test 64, atomic_test 32) =
  (([0; 1; 3; 4; 4; 5; 2; 2; 100], 100), ([0; 1; 3; 4; 4; 5; 2; 2; 100], 100)).
Proof. vm_compute. reflexivity. Qed.

(** * net/protorpc/RpcCodec_test.cc: the bytes of a message, and back *)

Definition rpc_body : bytes := [0x08; 0x01; 0x11; 0x02; 0; 0; 0; 0; 0; 0; 0].
Definition wire (tag : bytes) : outcome (bytes * list (ProtobufCodecLite.effect bytes)) :=
  buf ← Buffer.new_ Buffer.kInitialSize;
  buf ← ProtobufCodecLite.fillEmptyBuffer (HO := true) id ProtobufCodecLite.adler32 tag rpc_body buf;
  r ← ProtobufCodecLite.onMessage (HO := true) Some ProtobufCodecLite.adler32 tag None 10 buf;
  match r with
  | Some (es, _) => Ok (Buffer.content buf, es)
  | None => Err (AssertFail "fuel")
  end.
Example RpcCodec_test :
  wire (lit "RPC0") = Ok ([0; 0; 0; 0x13] ++ lit "RPC0" ++ rpc_body ++ [0x0f; 0xef; 0x01; 0x32], [ProtobufCodecLite.Delivered rpc_body]) /\
  snd <$> wire (lit "XYZ") = Ok [ProtobufCodecLite.Delivered rpc_body].
Proof. vm_compute. done. Qed.

(** * net/tests/InetAddress_unittest.cc, the addresses of version 4 *)

Definition address (a : bytes) : outcome (bytes * bytes * Z) :=
  ip ← InetAddress.toIp (HO := true) a; ipPort ← InetAddress.toIpPort (HO := true) a; Ok (ip, ipPort, InetAddress.port (HO := true) a).
Example testInetAddress :
  let memory := replicate 28 204 in
  address <$> [InetAddress.of_port (HO := true) 1234 false false memory; InetAddress.of_port (HO := true) 4321 true false memory;
    InetAddress.of_ip (HO := true) (lit "1.2.3.4") 8888 false memory; InetAddress.of_ip (HO := true) (lit "255.254.253.252") 65535 false memory] =
  Ok <$> [(lit "0.0.0.0", lit "0.0.0.0:1234", 1234); (lit "127.0.0.1", lit "127.0.0.1:4321", 4321);
    (lit "1.2.3.4", lit "1.2.3.4:8888", 8888); (lit "255.254.253.252", lit "255.254.253.252:65535", 65535)].
Proof. vm_compute. reflexivity. Qed.

(** * base/tests/TimeZone_unittest.cc *)

Section TimeZoneTests.
Import TimeZone.

Definition number (s : bytes) : Z := foldl (fun n c => 10 * n + (c - 48)) 0 s.
(** strptime with "%F %T". *)
Definition getTm (s : bytes) : tm :=
  mktm (number (zslice 17 19 s)) (number (zslice 14 16 s)) (number (zslice 11 13 s)) (number (zslice 8 10 s))
    (number (zslice 5 7 s) - 1) (number (zslice 0 4 s) - 1900) 0 0 0.
Definition two (x : Z) : bytes := pad_left 2 48 (fmt_d x).
(** strftime with "%F %T%z(%Z)". *)
Definition text (t : local_tm) : bytes :=
  let u := ltm t in
  let m := Z.abs (tm_gmtoff u) / 60 in
  fmt_d (tm_year u + 1900) ++ lit "-" ++ two (tm_mon u + 1) ++ lit "-" ++ two (tm_mday u) ++ lit " " ++
  two (tm_hour u) ++ lit ":" ++ two (tm_min u) ++ lit ":" ++ two (tm_sec u) ++
  (if tm_gmtoff u <? 0 then lit "-" else lit "+") ++ two (m / 60) ++ two (m mod 60) ++ lit "(" ++ tm_zone t ++ lit ")".

(** [test]: both directions, with the C library's gmtime_r and timegm replaced
    by the repository's own conversions. *)
Definition test (tz : option Data) (tc : string * string * bool) : outcome unit :=
  let '(gmt, local, isdst) := tc in
  let gmt := fromUtcTime (getTm (lit gmt)) in
  let gmtime_r := fun t => toUtcTime t true in
  t ← toLocalTime gmtime_r tz gmt;
  BOOST_CHECK_EQUAL (text t) (lit local);;
  BOOST_CHECK_EQUAL (tm_isdst t) isdst;;
  result ← fromLocalTime gmtime_r fromUtcTime tz (mkltm (getTm (lit local)) isdst []);
  BOOST_CHECK_EQUAL result gmt.

(** A zone with two offsets that starts in the first one. *)
Definition zone_of (std dst : Z * Z * Z) (abbrev : bytes) (changes : list (string * Z)) : option Data :=
  Some (data_of (mkzone 50 (replicate 15 0) 0 0 0 ((fun c => (fromUtcTime (getTm (lit c.1)), c.2)) <$> changes) [std; dst] abbrev)).
Definition NewYork : option Data :=
  zone_of (-18000, 0, 0) (-14400, 1, 4) (lit "EST" ++ [0] ++ lit "EDT" ++ [0])
    [("2006-04-02 07:00:00", 1); ("2006-10-29 06:00:00", 0); ("2007-03-11 07:00:00", 1); ("2007-11-04 06:00:00", 0);
     ("2009-03-08 07:00:00", 1); ("2009-11-01 06:00:00", 0); ("2010-03-14 07:00:00", 1); ("2010-11-07 06:00:00", 0);
     ("2011-03-13 07:00:00", 1); ("2011-11-06 06:00:00", 0)]%string.
Definition London : option Data :=
  zone_of (0, 0, 0) (3600, 1, 4) (lit "GMT" ++ [0] ++ lit "BST" ++ [0])
    [("2011-03-27 01:00:00", 1); ("2011-10-30 01:00:00", 0); ("2012-03-25 01:00:00", 1); ("2012-10-28 01:00:00", 0)]%string.
Definition Sydney : option Data :=
  zone_of (36000, 0, 0) (39600, 1, 0) (lit "EST" ++ [0])
    [("2010-10-02 16:00:00", 1); ("2011-04-02 16:00:00", 0); ("2011-10-01 16:00:00", 1)]%string.
End TimeZoneTests.

Example testNewYork : forallb (fun c => passed (test NewYork c))
  [("2006-03-07 00:00:00", "2006-03-06 19:00:00-0500(EST)", false);
   ("2006-04-02 06:59:59", "2006-04-02 01:59:59-0500(EST)", false);
   ("2006-04-02 07:00:00", "2006-04-02 03:00:00-0400(EDT)", true);
   ("2006-05-01 00:00:00", "2006-04-30 20:00:00-0400(EDT)", true);
   ("2006-05-02 01:00:00", "2006-05-01 21:00:00-0400(EDT)", true);
   ("2006-10-21 05:00:00", "2006-10-21 01:00:00-0400(EDT)", true);
   ("2006-10-29 05:59:59", "2006-10-29 01:59:59-0400(EDT)", true);
   ("2006-10-29 06:00:00", "2006-10-29 01:00:00-0500(EST)", false);
   ("2006-10-29 06:59:59", "2006-10-29 01:59:59-0500(EST)", false);
   ("2006-12-31 06:00:00", "2006-12-31 01:00:00-0500(EST)", false);
   ("2007-01-01 00:00:00", "2006-12-31 19:00:00-0500(EST)", false);
   ("2007-03-07 00:00:00", "2007-03-06 19:00:00-0500(EST)", false);
   ("2007-03-11 06:59:59", "2007-03-11 01:59:59-0500(EST)", false);
   ("2007-03-11 07:00:00", "2007-03-11 03:00:00-0400(EDT)", true);
   ("2007-05-01 00:00:00", "2007-04-30 20:00:00-0400(EDT)", true);
   ("2007-05-02 01:00:00", "2007-05-01 21:00:00-0400(EDT)", true);
   ("2007-10-31 05:00:00", "2007-10-31 01:00:00-0400(EDT)", true);
   ("2007-11-04 05:59:59", "2007-11-04 01:59:59-0400(EDT)", true);
   ("2007-11-04 06:00:00", "2007-11-04 01:00:00-0500(EST)", false);
   ("2007-11-04 06:59:59", "2007-11-04 01:59:59-0500(EST)", false);
   ("2007-12-31 06:00:00", "2007-12-31 01:00:00-0500(EST)", false);
   ("2008-01-01 00:00:00", "2007-12-31 19:00:00-0500(EST)", false);
   ("2009-03-07 00:00:00", "2009-03-06 19:00:00-0500(EST)", false);
   ("2009-03-08 06:59:59", "2009-03-08 01:59:59-0500(EST)", false);
   ("2009-03-08 07:00:00", "2009-03-08 03:00:00-0400(EDT)", true);
   ("2009-05-01 00:00:00", "2009-04-30 20:00:00-0400(EDT)", true);
   ("2009-05-02 01:00:00", "2009-05-01 21:00:00-0400(EDT)", true);
   ("2009-10-31 05:00:00", "2009-10-31 01:00:00-0400(EDT)", true);
   ("2009-11-01 05:59:59", "2009-11-01 01:59:59-0400(EDT)", true);
   ("2009-11-01 06:00:00", "2009-11-01 01:00:00-0500(EST)", false);
   ("2009-11-01 06:59:59", "2009-11-01 01:59:59-0500(EST)", false);
   ("2009-12-31 06:00:00", "2009-12-31 01:00:00-0500(EST)", false);
   ("2010-01-01 00:00:00", "2009-12-31 19:00:00-0500(EST)", false);
   ("2010-03-13 00:00:00", "2010-03-12 19:00:00-0500(EST)", false);
   ("2010-03-14 06:59:59", "2010-03-14 01:59:59-0500(EST)", false);
   ("2010-03-14 07:00:00", "2010-03-14 03:00:00-0400(EDT)", true);
   ("2010-05-01 00:00:00", "2010-04-30 20:00:00-0400(EDT)", true);
   ("2010-05-02 01:00:00", "2010-05-01 21:00:00-0400(EDT)", true);
   ("2010-11-06 05:00:00", "2010-11-06 01:00:00-0400(EDT)", true);
   ("2010-11-07 05:59:59", "2010-11-07 01:59:59-0400(EDT)", true);
   ("2010-11-07 06:00:00", "2010-11-07 01:00:00-0500(EST)", false);
   ("2010-11-07 06:59:59", "2010-11-07 01:59:59-0500(EST)", false);
   ("2010-12-31 06:00:00", "2010-12-31 01:00:00-0500(EST)", false);
   ("2011-01-01 00:00:00", "2010-12-31 19:00:00-0500(EST)", false);
   ("2011-03-01 00:00:00", "2011-02-28 19:00:00-0500(EST)", false);
   ("2011-03-13 06:59:59", "2011-03-13 01:59:59-0500(EST)", false);
   ("2011-03-13 07:00:00", "2011-03-13 03:00:00-0400(EDT)", true);
   ("2011-05-01 00:00:00", "2011-04-30 20:00:00-0400(EDT)", true);
   ("2011-05-02 01:00:00", "2011-05-01 21:00:00-0400(EDT)", true);
   ("2011-11-06 05:59:59", "2011-11-06 01:59:59-0400(EDT)", true);
   ("2011-11-06 06:00:00", "2011-11-06 01:00:00-0500(EST)", false);
   ("2011-11-06 06:59:59", "2011-11-06 01:59:59-0500(EST)", false);
   ("2011-12-31 06:00:00", "2011-12-31 01:00:00-0500(EST)", false);
   ("2012-01-01 00:00:00", "2011-12-31 19:00:00-0500(EST)", false)]%string = true.
Proof. vm_compute. reflexivity. Qed.
Example testLondon : forallb (fun c => passed (test London c))
  [("2011-03-26 00:00:00", "2011-03-26 00:00:00+0000(GMT)", false);
   ("2011-03-27 00:59:59", "2011-03-27 00:59:59+0000(GMT)", false);
   ("2011-03-27 01:00:00", "2011-03-27 02:00:00+0100(BST)", true);
   ("2011-10-30 00:59:59", "2011-10-30 01:59:59+0100(BST)", true);
   ("2011-10-30 01:00:00", "2011-10-30 01:00:00+0000(GMT)", false);
   ("2012-10-30 01:59:59", "2012-10-30 01:59:59+0000(GMT)", false);
   ("2011-12-31 22:00:00", "2011-12-31 22:00:00+0000(GMT)", false);
   ("2012-01-01 00:00:00", "2012-01-01 00:00:00+0000(GMT)", false);
   ("2012-03-24 00:00:00", "2012-03-24 00:00:00+0000(GMT)", false);
   ("2012-03-25 00:59:59", "2012-03-25 00:59:59+0000(GMT)", false);
   ("2012-03-25 01:00:00", "2012-03-25 02:00:00+0100(BST)", true);
   ("2012-10-28 00:59:59", "2012-10-28 01:59:59+0100(BST)", true);
   ("2012-10-28 01:00:00", "2012-10-28 01:00:00+0000(GMT)", false);
   ("2012-10-28 01:59:59", "2012-10-28 01:59:59+0000(GMT)", false);
   ("2012-12-31 22:00:00", "2012-12-31 22:00:00+0000(GMT)", false);
   ("2013-01-01 00:00:00", "2013-01-01 00:00:00+0000(GMT)", false)]%string = true.
Proof. vm_compute. reflexivity. Qed.
Example testSydney : forallb (fun c => passed (test Sydney c))
  [("2011-01-01 00:00:00", "2011-01-01 11:00:00+1100(EST)", true);
   ("2011-04-02 15:59:59", "2011-04-03 02:59:59+1100(EST)", true);
   ("2011-04-02 16:00:00", "2011-04-03 02:00:00+1000(EST)", false);
   ("2011-04-02 16:59:59", "2011-04-03 02:59:59+1000(EST)", false);
   ("2011-05-02 01:00:00", "2011-05-02 11:00:00+1000(EST)", false);
   ("2011-10-01 15:59:59", "2011-10-02 01:59:59+1000(EST)", false);
   ("2011-10-01 16:00:00", "2011-10-02 03:00:00+1100(EST)", true);
   ("2011-12-31 22:00:00", "2012-01-01 09:00:00+1100(EST)", true)]%string = true.
Proof. vm_compute. reflexivity. Qed.
Example testFixedTimezone : forallb (fun c => passed (test (TimeZone.of_offset (8 * 3600) (lit "CST")) c))
  [("2014-04-03 00:00:00", "2014-04-03 08:00:00+0800(CST)", false)]%string = true.
Proof. vm_compute. reflexivity. Qed.
End UnitTests.
